(* ===== verification/_CoqProject ===== *)
-Q . S2P
Prelude.v
Gvcp.v
Gvsp.v
Channel.v
Float64.v
Frame.v
Reassembly.v
ReassemblyInv.v
ReassemblySafe.v
Burst.v
Text.v
Bootstrap.v
Zip.v
Url.v
Emulator.v
DeviceStream.v
DeviceControl.v
Errors.v
Control.v
ControlInv.v
Register.v
Evaluator.v
Formula.v
NodeGraph.v
NodeTotal.v
Camera.v
NodeAccess.v
XmlGraph.v
Description.v
DeviceSpec.v
ControlLink.v
ControlRefine.v
ControlPort.v
Session.v
SessionSpec.v
PacketSize.v
StreamOpen.v
LossyOpen.v
Delivery.v
Acquire.v
ControlTyped.v
Discovery.v
Wire.v
Waiting.v
Submission.v
Locks.v
PyCamera.v
PyExclusive.v
PyThreads.v
ThreadLife.v
FrameFlow.v
FrameIter.v
Tuning.v
Resend.v
Deadlines.v
Recovery.v
StreamTiming.v
Viewer.v
EmulatedXml.v
EmulatedCamera.v
EmulatedAccount.v
EmulatedSession.v
Views.v
