(* ===== verification/Prelude.v ===== *)
(** * Verification of telegenic, a GigE Vision camera driver

    The program connects to a camera over UDP.  A control worker carries
    register and memory requests to the device (GVCP), a stream worker puts
    image packets together into frames (GVSP), a node engine turns the
    device's XML description into named features, and a session ties them
    together: it takes control of the device, fetches the description,
    negotiates the packet size, opens stream channels and drives
    acquisitions.  An emulated device answers the other side of both
    protocols.  This library models these parts and proves them correct, one
    by one and joined.

    ** Conventions

    A w-bit integer is a [Z] with its wrap-around written out ([wrap],
    [swrap]), a byte string a [list Z], a text a list of its bytes.  [result]
    is Rust's [Result].  An operation that can panic in the source (an index
    out of range, a subtraction below zero) has type [option]: [None] is the
    panic, and the totality theorems show it does not happen.  The program is
    the one built for release: an unsigned counter or length that passes its
    width wraps, where the source does not check it ([missing_frames], the
    length field of a command), and debug assertions are not compiled; Viewer.v
    models the checked arithmetic instead.  The sum of a clock reading and a
    duration panics past the last instant ([INSTANT_MAX]), so the theorems on
    the workers ask for clock readings to which their durations can be added
    ([pass_clock_ok], [ctl_clock_ok]).  What the
    operating system and other threads do (clock readings, datagrams and
    their loss, bind and spawn outcomes, channel contents) is an argument;
    theorems hold for all its values.  Code of other crates is a parameter:
    channels ([Chan], Channel.v), the packet hash ([PacketHasher]), the
    deflate decompressor ([Inflate]), the XML parser ([XmlLib]), the
    transcendental functions ([FloatLib]), the register port ([PortIo],
    [MemoryPort], [Control]); each interface comes with an instance, so its
    laws can be met.

    ** Files and sources (below src/src/)

    - Prelude.v: results, machine integers, bytes, record update, tactics and
      the hint databases; Channel.v: message channels; Float64.v: binary64
      and binary32 arithmetic and casts; Text.v: UTF-8 and ASCII text.
    - Gvcp.v (gige/proto/gvcp.rs), Gvsp.v (gige/proto/gvsp.rs), Bootstrap.v
      (gige/proto/bootstrap.rs): wire formats and the register map.
    - Frame.v (gige/stream/frame.rs, link.rs): buffers, pool, frames.
    - Reassembly.v (gige/stream/runner.rs, configuration of
      gige/stream/mod.rs): the stream worker, one definition per method, with
      the loop [run]; ReassemblyInv.v and ReassemblySafe.v: its invariant and
      safety; Burst.v: exact reassembly of one image; FrameFlow.v: receiver,
      pool and the application that takes frames and drops them;
      Resend.v: the resend requests; Deadlines.v: the deadlines of open frames
      under every operation; Recovery.v: receiver and device recovering lost
      packets together; StreamTiming.v: frames without packets;
      FrameIter.v ([FrameChannel], the frame iterators of py.rs).
    - Emulator.v (emulator/mod.rs): the device; DeviceControl.v: the control
      protocol between the encoders and the device; DeviceStream.v: the
      device's image packets at the receiver; DeviceSpec.v: what a command
      does to the memory, as a function; EmulatedXml.v (emulator/xml.rs): the
      description it serves and the graph the parser makes of it;
      EmulatedCamera.v: the features of that graph against the registers;
      EmulatedAccount.v: the account of every call on every name by the
      registers alone, and that the graph keeps it;
      EmulatedSession.v: from [GigeDevice::new] to the answers of a session.
    - Control.v (gige/runner.rs, handle.rs, parts of gige/mod.rs): the control
      worker and its handles; ControlInv.v: its invariant and liveness;
      ControlTyped.v: the types of its answers;
      ControlLink.v and ControlRefine.v: worker and device over a lossy
      network, and the refinement of the register contract.
    - Waiting.v (handle.rs): deposits, waits and polls of a handle, step by
      step; Submission.v (gige/mod.rs, thread_util.rs, gige/runner.rs):
      callers against a worker that goes away; ThreadLife.v (thread_util.rs,
      [spawn] and [run] of the workers, [disconnect]): a worker and its owner
      from start to join; Tuning.v (tuning.rs): the options they accept.
    - ControlPort.v (calls of gige/mod.rs, genicam/port.rs), Session.v
      (gige/mod.rs: identity, description, establish, events), SessionSpec.v,
      PacketSize.v ([negotiate_packet_size]), StreamOpen.v
      ([open_stream_inner], the drop of [StreamChannel]), LossyOpen.v (the
      same over a link that loses requests and acknowledges), Delivery.v (open,
      stream and receive together).
    - Register.v, NodeGraph.v (genicam/node.rs), Evaluator.v
      (genicam/evaluator.rs), XmlGraph.v (genicam/xml.rs), Camera.v
      (genicam/mod.rs), Zip.v (genicam/zip.rs), Url.v (genicam/url.rs),
      Errors.v (error.rs): the feature layer; Formula.v, NodeTotal.v,
      NodeAccess.v and Description.v hold its theorems.
    - Acquire.v (genicam/acquisition.rs, genicam/snapshot.rs): the guards.
    - Locks.v: programs of locks and operations on a shared store, their
      interleavings, and a discipline that rules out deadlock; PyCamera.v
      (py.rs): the methods of the Python camera, acquisitions and sessions as
      such programs; PyExclusive.v: what each thread knows and the invariant of
      the shared objects; PyThreads.v: the theorems.
    - Viewer.v (src/examples/live.rs): frames as pixels on a screen.
    - Discovery.v (gige/discovery.rs): finding devices and forcing addresses;
      Wire.v (wire.rs): what an observer of the sockets is shown; Views.v:
      the texts of statuses, formats and addresses, and serialized frames.

    ** What the theorems show

    - The stream worker never panics and delivers only sound frames
      ([stream_run_safe]); a device's image arrives exactly once whatever the
      order and the repeats, also those that come after it is complete
      ([device_image_reassembled]), and so does the first one through a channel
      that was just opened ([opened_stream_delivers]).  When packets are lost,
      the requests the receiver sends and the answers of the device, copies
      included, complete the frame once ([lost_packets_recovered]).
    - The control worker answers every handle ([every_handle_answered]);
      joined to the device over a network that carries the datagrams it sends
      and loses some, it sends a lost command again at its deadline and refines
      a contract without datagrams, ids, chunks and retries
      ([control_link_refines]); its answers have the type and size asked
      for ([answers_typed]).  Under every interleaving no wake-up of a waiter
      is lost ([no_lost_wakeup]) and no request is lost to a worker that goes
      away ([submission_answered]); a worker is always joined, whether it is
      stopped, loses control, panics or fails to start ([worker_joined]).
    - Resend requests ask for exactly the packets that are due
      ([resend_requests_exact]), and frames that get no more packets are
      closed and handed out ([stale_frames_closed]).
    - No frame is dropped between the receiver and the built-in subscription
      and no buffer leaks ([no_frame_dropped]); a loop over a subscription sees
      every frame once and in order, and ends ([frames_iterated]), except that
      it can leave frames sent while it looks whether the receiver is gone
      ([iteration_leaves_frame]).
    - Python threads that share a camera can not break its lifecycle
      ([py_calls_exclusive]) and never deadlock ([py_calls_return]); their
      acquisitions and sessions do what the Rust guards do
      ([py_twins_lockstep]).
    - A session takes control and reads the identity as the registers have it
      ([establish_takes_control], [device_info_agrees]), fetches the
      description ([description_fetched]), negotiates the best packet size in
      at most fourteen probes and returns once the socket falls silent
      ([negotiation_exact], [negotiation_bounded]) and opens a channel that is
      closed again on failure, with the exceptions a lost acknowledge or a lost
      last request makes ([open_stream_aims], [port_left_open]); acquisitions
      and snapshots make exactly the calls, on the device and on the frame
      channel, that the answers call for ([acquisition_wound_up],
      [snapshot_wound_up]).
    - Feature calls always return ([feature_calls_total]), a value that fits
      its field and is written through a chain of links reads back
      ([feature_write_then_read]), circular
      links are reported ([circular_reported]), every description gives a
      well-formed graph ([description_well_formed]) with its named features
      ([description_features_found], [default_features_present]).
    - A session with the emulated camera, from making the device to its last
      feature call, whatever the calls are, answers what an account of the
      registers alone answers ([emulated_features_are_registers]).  Of the XML
      parser this assumes the
      trees of four texts, the description and the fallback definitions; a
      small parser in EmulatedXml.v makes these trees of the texts.
    - Formulas mean what the grammar says ([formula_meaning]), compile in
      finite time ([compilation_terminates]) and stay in 64 bits
      ([formula_fits_i64]).
    - Codecs: registers, masked fields, archives and URLs round-trip
      ([registers_write_then_read], [masked_write_then_read],
      [stored_zip_roundtrip]), and the device takes any datagram
      ([device_never_panics]) and any retransmission
      ([retransmission_idempotent]).
    - The viewer gives each pixel the colour that a reference by format makes
      of the bytes at its place ([viewer_in_bounds]).
    - Discovery reports every device once ([discovery_collects]) and with the
      identity a session reads ([discovery_finds_device]).

    ** Fuel and bounds

    Recursion of the node engine runs on the fuel [levels], one more than the
    number of nodes; as each node is entered at most once at a time
    the engine never runs out on a well-formed graph (NodeTotal.v).  The
    formula compiler runs on the length of the source, [access_mode] on the
    number of turns the source itself allows, the packet-size bisection on
    ten halvings of at most 537 steps of 16 bytes.  The loop that reads the
    socket empty after it has no bound in the source and runs on a fuel that
    the theorems take above the number of datagrams.  Worker loops recurse on
    the list of their passes, which is arbitrary.  Concurrent models run on
    schedules: a step function is iterated over any list of choices, and a
    decreasing measure or an accessibility proof shows that schedules end.

    ** Not modelled, and why

    Telemetry sinks, tracing, error messages and [__repr__] texts have no
    influence on the behaviour (Wire.v has what a sink is shown).  clock.rs and
    rx_timestamp.rs are calls into the operating system, and so is applying
    the options of tuning.rs; their results are arguments here.  lib.rs
    re-exports, the valuable_* adapters format, and of py.rs the getters that
    copy a field are left out.  Blocking and async waits on handles and
    channels are outcomes in the sequential models; Waiting.v, Submission.v,
    ThreadLife.v, FrameIter.v and Locks.v have their interleavings, at the
    grain of single accesses to flags, channels and locks and in a sequentially
    consistent memory: the relaxed flags of thread_util.rs are only hints beside
    the channels and the waker. *)

From Stdlib Require Export ZArith Lia Bool ZifyBool.
From stdpp Require Export base tactics option list numbers strings gmap.
From stdpp Require Import options.

Global Open Scope Z_scope.

(** * Results: Rust's [Result<T, E>] and its [?] operator *)

Inductive result (E A : Type) : Type :=
| Ok (a : A)
| Err (e : E).
Arguments Ok {E A} a.
Arguments Err {E A} e.

Global Instance result_ret {E} : MRet (result E) := fun A a => Ok a.
Global Instance result_bind {E} : MBind (result E) := fun A B f m =>
  match m with Ok a => f a | Err e => Err e end.
Global Instance result_fmap {E} : FMap (result E) := fun A B f m =>
  match m with Ok a => Ok (f a) | Err e => Err e end.

(** [Option::ok_or] and [Result::map_err]. *)
Definition ok_or {E A} (o : option A) (e : E) : result E A :=
  match o with Some a => Ok a | None => Err e end.
Definition map_err {E E' A} (f : E -> E') (r : result E A) : result E' A :=
  match r with Ok a => Ok a | Err e => Err (f e) end.
Definition is_ok {E A} (r : result E A) : bool :=
  match r with Ok _ => true | Err _ => false end.

Lemma result_bind_ok {E A B} (m : result E A) (f : A -> result E B) b :
  m ≫= f = Ok b -> exists a, m = Ok a /\ f a = Ok b.
Proof. destruct m; simpl; [eauto | discriminate]. Qed.

(** * Machine integers

    A w-bit integer is a [Z]; [wrap w] is the truncation an [as] cast to the
    unsigned type performs, [swrap w] the one to the signed type. *)

Definition wrap (w z : Z) : Z := z mod 2 ^ w.
Definition swrap (w z : Z) : Z := (z + 2 ^ (w - 1)) mod 2 ^ w - 2 ^ (w - 1).

Definition U16_MAX : Z := 65535.
Definition U32_MAX : Z := 4294967295.
Definition U64_MAX : Z := 18446744073709551615.
Definition USIZE_MAX : Z := U64_MAX.
Definition I64_MAX : Z := 9223372036854775807.
Definition I64_MIN : Z := -9223372036854775808.

Definition u8_ok (z : Z) : Prop := 0 <= z < 256.
Definition u16_ok (z : Z) : Prop := 0 <= z <= U16_MAX.
Definition u32_ok (z : Z) : Prop := 0 <= z <= U32_MAX.
Definition u64_ok (z : Z) : Prop := 0 <= z <= U64_MAX.
Definition i64_ok (z : Z) : Prop := I64_MIN <= z <= I64_MAX.

(** The last [Instant], in nanoseconds: the seconds are an [i64].  The sum of an
    instant and a duration panics past it. *)
Definition INSTANT_MAX : Z := I64_MAX * 1000000000 + 999999999.

(** [usize::saturating_sub], [usize::saturating_add], [usize::div_ceil],
    [usize::next_multiple_of]. *)
Definition saturating_sub (a b : Z) : Z := Z.max 0 (a - b).
Definition saturating_add (a b : Z) : Z := Z.min USIZE_MAX (a + b).
Definition div_ceil (a b : Z) : Z := (a + b - 1) / b.
Definition next_multiple_of (a b : Z) : Z := div_ceil a b * b.

Ltac unfold_widths :=
  unfold u8_ok, u16_ok, u32_ok, u64_ok, i64_ok, U16_MAX, U32_MAX, USIZE_MAX,
    U64_MAX, I64_MAX, I64_MIN in *.

(** Linear arithmetic after unfolding the width predicates. *)
Ltac width_lia := unfold_widths; lia.

Lemma wrap_small w z : 0 <= z < 2 ^ w -> wrap w z = z.
Proof. apply Z.mod_small. Qed.

Lemma wrap_range w z : 0 <= w -> 0 <= wrap w z < 2 ^ w.
Proof. intros. apply Z.mod_pos_bound. apply Z.pow_pos_nonneg; lia. Qed.

Lemma swrap_small w z : 0 < w -> - 2 ^ (w - 1) <= z < 2 ^ (w - 1) -> swrap w z = z.
Proof.
  intros Hw Hz. unfold swrap.
  assert (2 ^ w = 2 * 2 ^ (w - 1)) as E
    by (rewrite <- Z.pow_succ_r by lia; f_equal; lia).
  rewrite Z.mod_small; lia.
Qed.

Lemma swrap_range w z : 0 < w -> - 2 ^ (w - 1) <= swrap w z < 2 ^ (w - 1).
Proof.
  intros Hw. unfold swrap.
  assert (2 ^ w = 2 * 2 ^ (w - 1)) as E
    by (rewrite <- Z.pow_succ_r by lia; f_equal; lia).
  assert (0 < 2 ^ w) by (apply Z.pow_pos_nonneg; lia).
  pose proof (Z.mod_pos_bound (z + 2 ^ (w - 1)) (2 ^ w)). lia.
Qed.

Lemma div_ceil_bounds a b : 0 <= a -> 0 < b ->
  a <= div_ceil a b * b < a + b.
Proof.
  intros. unfold div_ceil.
  pose proof (Z.div_mod (a + b - 1) b). pose proof (Z.mod_pos_bound (a + b - 1) b). nia.
Qed.

Lemma div_ceil_nonneg a b : 0 <= a -> 0 < b -> 0 <= div_ceil a b.
Proof. intros. unfold div_ceil. apply Z.div_pos; lia. Qed.

Lemma div_ceil_le a b : 0 <= a -> 0 < b -> div_ceil a b <= a.
Proof.
  intros. destruct (decide (a = 0)) as [->|].
  - unfold div_ceil. rewrite Z.div_small; lia.
  - unfold div_ceil. apply Z.lt_succ_r, Z.div_lt_upper_bound; nia.
Qed.

(** * Bit fields *)

Lemma testbit_small z n m : 0 <= z < 2 ^ n -> 0 <= n <= m -> Z.testbit z m = false.
Proof.
  intros Hz Hm. rewrite <- (Z.mod_small z (2 ^ n)) by lia. apply Z.mod_pow2_bits_high. lia.
Qed.

Lemma bits_bound z n :
  0 <= n -> 0 <= z -> (forall m, n <= m -> Z.testbit z m = false) -> z < 2 ^ n.
Proof.
  intros Hn Hz Hb. destruct (decide (z < 2 ^ n)); [done|]. exfalso.
  assert (0 < 2 ^ n) by (apply Z.pow_pos_nonneg; lia).
  assert (n <= Z.log2 z) as Hl by (apply Z.log2_le_pow2; lia).
  specialize (Hb (Z.log2 z) Hl). rewrite Z.bit_log2 in Hb by lia. discriminate.
Qed.

Lemma lor_range a b n : 0 <= n -> 0 <= a < 2 ^ n -> 0 <= b < 2 ^ n -> 0 <= Z.lor a b < 2 ^ n.
Proof.
  intros Hn Ha Hb. assert (0 <= Z.lor a b) as H0 by (apply Z.lor_nonneg; lia). split; [done|].
  apply bits_bound; [done|done|]. intros i Hi. rewrite Z.lor_spec.
  rewrite (testbit_small a n i), (testbit_small b n i) by lia. done.
Qed.

Lemma lor_shiftl_add hi lo n :
  0 <= n -> 0 <= lo < 2 ^ n -> Z.lor (Z.shiftl hi n) lo = hi * 2 ^ n + lo.
Proof.
  intros Hn Hlo. rewrite <- Z.shiftl_mul_pow2 by lia. symmetry. apply Z.add_nocarry_lor.
  apply Z.bits_inj'. intros m Hm. rewrite Z.land_spec, Z.shiftl_spec, Z.bits_0 by lia.
  destruct (decide (m < n)).
  - by rewrite Z.testbit_neg_r by lia.
  - rewrite (testbit_small lo n m) by lia. apply andb_false_r.
Qed.

(** A single-bit test. *)
Lemma land_pow2_eqb z n : 0 <= n -> (Z.land z (2 ^ n) =? 0) = negb (Z.testbit z n).
Proof.
  intros Hn. destruct (Z.testbit z n) eqn:E; simpl.
  - apply Z.eqb_neq. intros H. apply (f_equal (fun x => Z.testbit x n)) in H.
    rewrite Z.land_spec, Z.pow2_bits_true, E, Z.bits_0 in H by lia. discriminate.
  - apply Z.eqb_eq. apply Z.bits_inj'. intros m Hm.
    rewrite Z.land_spec, Z.bits_0, Z.pow2_bits_eqb by lia.
    destruct (Z.eqb_spec n m) as [<-|]; [by rewrite E|apply andb_false_r].
Qed.

(** The field of [n] bits from bit [lo], selected by its mask. *)
Lemma land_field z lo n :
  0 <= lo -> 0 <= n ->
  Z.shiftr (Z.land z (Z.shiftl (Z.ones n) lo)) lo = Z.shiftr z lo mod 2 ^ n.
Proof.
  intros. rewrite Z.shiftr_land, Z.shiftr_shiftl_l by lia.
  rewrite Z.sub_diag, Z.shiftl_0_r. by apply Z.land_ones.
Qed.

(** * Byte strings and slices *)

Abbreviation bytes := (list Z).

Definition bytes_ok (l : bytes) : Prop := Forall u8_ok l.

Definition byte_okb (b : Z) : bool := (0 <=? b) && (b <? 256).

Lemma bytes_ok_dec_true (l : bytes) : forallb byte_okb l = true -> bytes_ok l.
Proof.
  intros H. apply Forall_forall. intros x Hx%list_elem_of_In.
  pose proof (proj1 (forallb_forall _ _) H x Hx) as Hb.
  unfold byte_okb, u8_ok in *. lia.
Qed.

Definition zlen {A} (l : list A) : Z := Z.of_nat (length l).

Lemma zlen_nonneg {A} (l : list A) : 0 <= zlen l.
Proof. unfold zlen. lia. Qed.
Lemma zlen_nil {A} : zlen (@nil A) = 0.
Proof. reflexivity. Qed.
Lemma zlen_cons {A} (x : A) l : zlen (x :: l) = 1 + zlen l.
Proof. unfold zlen. simpl. lia. Qed.
Lemma zlen_app {A} (l k : list A) : zlen (l ++ k) = zlen l + zlen k.
Proof. unfold zlen. rewrite length_app. lia. Qed.

Lemma zlen_replicate {A} n (x : A) : zlen (replicate n x) = Z.of_nat n.
Proof. unfold zlen. by rewrite length_replicate. Qed.

(** [slice.get(i..j)]: [None] unless [i <= j <= len]. *)
Definition get_range {A} (l : list A) (i j : Z) : option (list A) :=
  if (0 <=? i) && (i <=? j) && (j <=? zlen l)
  then Some (take (Z.to_nat (j - i)) (drop (Z.to_nat i) l))
  else None.

(** [slice.get(i..)] and [slice.get(..j)]. *)
Definition get_from {A} (l : list A) (i : Z) : option (list A) := get_range l i (zlen l).
Definition get_to {A} (l : list A) (j : Z) : option (list A) := get_range l 0 j.

(** [slice.get(i)] at a [usize] index. *)
Definition get_at {A} (l : list A) (i : Z) : option A :=
  if 0 <=? i then l !! Z.to_nat i else None.

Lemma get_range_app {A} (p m s : list A) i j :
  i = zlen p -> j = zlen p + zlen m -> get_range (p ++ m ++ s) i j = Some m.
Proof.
  intros -> ->. unfold get_range, zlen.
  rewrite !length_app.
  replace (_ && _) with true by lia.
  replace (Z.to_nat (Z.of_nat (length p))) with (length p) by lia.
  rewrite drop_app_length.
  replace (Z.to_nat _) with (length m) by lia.
  by rewrite take_app_length.
Qed.

Lemma get_range_Some {A} (l r : list A) i j :
  get_range l i j = Some r -> 0 <= i <= j /\ j <= zlen l /\ zlen r = j - i /\
    r = take (Z.to_nat (j - i)) (drop (Z.to_nat i) l).
Proof.
  unfold get_range. destruct (_ && _) eqn:E; [|discriminate]. intros [= <-].
  unfold zlen in *. rewrite length_take, length_drop. split_and!; [lia..|done].
Qed.

Lemma get_range_is_Some {A} (l : list A) i j :
  0 <= i <= j -> j <= zlen l ->
  get_range l i j = Some (take (Z.to_nat (j - i)) (drop (Z.to_nat i) l)).
Proof. intros. unfold get_range. by replace (_ && _) with true by lia. Qed.

Lemma get_range_None {A} (l : list A) i j :
  0 <= i <= j -> zlen l < j -> get_range l i j = None.
Proof. intros. unfold get_range. by replace (_ && _) with false by lia. Qed.

Lemma get_from_app {A} (p s : list A) i : i = zlen p -> get_from (p ++ s) i = Some s.
Proof.
  intros ->. unfold get_from.
  rewrite <- (app_nil_r s) at 1.
  apply get_range_app; [done|]. by rewrite zlen_app.
Qed.

Lemma get_to_app {A} (p s : list A) j : j = zlen p -> get_to (p ++ s) j = Some p.
Proof. intros ->. unfold get_to. by apply (get_range_app []). Qed.

(** Reading past a prefix. *)
Lemma get_range_skip {A} (p l : list A) i j :
  zlen p <= i -> get_range (p ++ l) i j = get_range l (i - zlen p) (j - zlen p).
Proof.
  intros Hi. unfold get_range. rewrite zlen_app. pose proof (zlen_nonneg p).
  replace ((0 <=? i - zlen p) && (i - zlen p <=? j - zlen p) && (j - zlen p <=? zlen l))
    with ((0 <=? i) && (i <=? j) && (j <=? zlen p + zlen l)) by lia.
  destruct (_ && _); [|done]. f_equal. unfold zlen in *.
  rewrite drop_app_ge by lia. f_equal; [lia|]. f_equal. lia.
Qed.

Lemma get_range_ok (l r : bytes) i j :
  get_range l i j = Some r -> bytes_ok l -> bytes_ok r.
Proof.
  intros (_ & _ & _ & ->)%get_range_Some H.
  by apply Forall_take, Forall_drop.
Qed.

Lemma get_at_Some {A} (l : list A) i x :
  get_at l i = Some x -> 0 <= i < zlen l.
Proof.
  unfold get_at. destruct (0 <=? i) eqn:E; [|discriminate].
  intros H%lookup_lt_Some. unfold zlen. lia.
Qed.

Lemma get_at_is_Some {A} (l : list A) i : 0 <= i < zlen l -> exists x, get_at l i = Some x.
Proof.
  intros H. unfold get_at. replace (0 <=? i) with true by lia.
  apply lookup_lt_is_Some. unfold zlen in H. lia.
Qed.

(** [slice[i..i+len(d)].copy_from_slice(d)]; the model of the panicking form
    checks the range first. *)
Definition splice {A} (l : list A) (i : Z) (d : list A) : list A :=
  take (Z.to_nat i) l ++ d ++ drop (Z.to_nat i + length d) l.

Lemma zlen_splice {A} (l d : list A) i :
  0 <= i -> i + zlen d <= zlen l -> zlen (splice l i d) = zlen l.
Proof.
  unfold splice, zlen. intros. rewrite !length_app, length_take, length_drop. lia.
Qed.

Lemma splice_lookup {A} (l d : list A) i k :
  0 <= i -> i + zlen d <= zlen l ->
  splice l i d !! k =
  if decide (i <= Z.of_nat k < i + zlen d) then d !! (k - Z.to_nat i)%nat else l !! k.
Proof.
  unfold splice, zlen. intros Hi Hl. case_decide.
  - rewrite lookup_app_r by (rewrite length_take; lia).
    rewrite length_take. rewrite lookup_app_l by lia. f_equal. lia.
  - destruct (decide (Z.of_nat k < i)).
    + rewrite lookup_app_l by (rewrite length_take; lia). apply lookup_take_lt. lia.
    + rewrite lookup_app_r by (rewrite length_take; lia). rewrite length_take.
      rewrite lookup_app_r by lia. rewrite lookup_drop. f_equal. lia.
Qed.

(** A range is determined by the elements in it. *)
Lemma get_range_ext {A} (l l' : list A) i j :
  zlen l = zlen l' ->
  (forall k : nat, i <= Z.of_nat k < j -> l !! k = l' !! k) ->
  get_range l i j = get_range l' i j.
Proof.
  intros Hlen Hk. unfold get_range. rewrite Hlen. destruct (_ && _) eqn:E; [|done]. f_equal.
  apply list_eq. intros k. destruct (decide (Z.of_nat k < j - i)).
  - rewrite !lookup_take_lt, !lookup_drop by lia. apply Hk. lia.
  - rewrite !lookup_ge_None_2; [done| |]; rewrite length_take; lia.
Qed.

Lemma get_range_splice_same {A} (l d : list A) i :
  0 <= i -> i + zlen d <= zlen l -> get_range (splice l i d) i (i + zlen d) = Some d.
Proof.
  intros Hi Hl. unfold splice. apply get_range_app; unfold zlen in *; rewrite length_take; lia.
Qed.

Lemma get_range_splice_other {A} (l d : list A) i j k :
  0 <= i -> i + zlen d <= zlen l -> (k <= i \/ i + zlen d <= j) ->
  get_range (splice l i d) j k = get_range l j k.
Proof.
  intros Hi Hl Hd. apply get_range_ext; [by apply zlen_splice|].
  intros m Hm. rewrite splice_lookup by done. case_decide; [lia|done].
Qed.

(** * Byte order *)

Fixpoint le_encode (n : nat) (z : Z) : bytes :=
  match n with
  | O => []
  | S n => z mod 256 :: le_encode n (z / 256)
  end.

Fixpoint le_decode (l : bytes) : Z :=
  match l with
  | [] => 0
  | b :: l => b + 256 * le_decode l
  end.

Definition be_encode (n : nat) (z : Z) : bytes := reverse (le_encode n z).
Definition be_decode (l : bytes) : Z := le_decode (reverse l).
Global Arguments be_encode : simpl never.
Global Arguments be_decode : simpl never.

Lemma length_le_encode n z : length (le_encode n z) = n.
Proof. revert z. induction n; simpl; auto. Qed.

Lemma length_be_encode n z : length (be_encode n z) = n.
Proof. unfold be_encode. by rewrite length_reverse, length_le_encode. Qed.

Lemma zlen_be_encode n z : zlen (be_encode n z) = Z.of_nat n.
Proof. unfold zlen. by rewrite length_be_encode. Qed.
Lemma zlen_le_encode n z : zlen (le_encode n z) = Z.of_nat n.
Proof. unfold zlen. by rewrite length_le_encode. Qed.

Lemma le_encode_ok n z : bytes_ok (le_encode n z).
Proof.
  revert z. induction n; intros z; simpl; constructor; [|apply IHn].
  unfold u8_ok. apply Z.mod_pos_bound. lia.
Qed.

Lemma be_encode_ok n z : bytes_ok (be_encode n z).
Proof. unfold bytes_ok, be_encode. apply Forall_reverse, le_encode_ok. Qed.

Lemma pow256_succ n : 256 ^ Z.of_nat (S n) = 256 * 256 ^ Z.of_nat n.
Proof. rewrite Nat2Z.inj_succ, Z.pow_succ_r; lia. Qed.

Lemma pow256_pos n : 0 < 256 ^ Z.of_nat n.
Proof. apply Z.pow_pos_nonneg; lia. Qed.

Lemma le_decode_encode_mod n z : le_decode (le_encode n z) = z mod 256 ^ Z.of_nat n.
Proof.
  revert z. induction n; intros z; simpl le_encode; simpl le_decode.
  - by rewrite Z.mod_1_r.
  - rewrite IHn, pow256_succ, Z.rem_mul_r; pose proof (pow256_pos n); lia.
Qed.

Lemma le_decode_encode n z : 0 <= z < 256 ^ Z.of_nat n -> le_decode (le_encode n z) = z.
Proof. intros. rewrite le_decode_encode_mod. by apply Z.mod_small. Qed.

Lemma be_decode_encode n z : 0 <= z < 256 ^ Z.of_nat n -> be_decode (be_encode n z) = z.
Proof. unfold be_decode, be_encode. rewrite reverse_involutive. apply le_decode_encode. Qed.

Lemma le_decode_range l : bytes_ok l -> 0 <= le_decode l < 256 ^ Z.of_nat (length l).
Proof.
  induction 1 as [|b l Hb Hl IH]; simpl length; simpl le_decode; [lia|].
  rewrite pow256_succ. unfold u8_ok in Hb. lia.
Qed.

Lemma be_decode_range l : bytes_ok l -> 0 <= be_decode l < 256 ^ Z.of_nat (length l).
Proof.
  intros H%Forall_reverse. unfold be_decode.
  rewrite <- (length_reverse l). by apply le_decode_range.
Qed.

Lemma le_encode_decode l : bytes_ok l -> le_encode (length l) (le_decode l) = l.
Proof.
  induction 1 as [|b l Hb Hl IH]; simpl; [done|]. unfold u8_ok in Hb.
  replace (b + 256 * le_decode l) with (le_decode l * 256 + b) by lia.
  rewrite Z.div_add_l, Z.div_small, Z.add_0_r, IH by lia.
  f_equal. rewrite Z.add_comm, Z.mod_add, Z.mod_small; lia.
Qed.

Lemma be_encode_decode l : bytes_ok l -> be_encode (length l) (be_decode l) = l.
Proof.
  intros H%Forall_reverse. unfold be_encode, be_decode.
  rewrite <- (length_reverse l), le_encode_decode by done. apply reverse_involutive.
Qed.

Lemma be_encode_1_shape z : be_encode 1 z = [z mod 256].
Proof. reflexivity. Qed.
Lemma be_encode_2_shape z : exists a b, be_encode 2 z = [a; b].
Proof. cbv [be_encode reverse rev_append le_encode]. eauto. Qed.
Lemma be_encode_4_shape z : exists a b c d, be_encode 4 z = [a; b; c; d].
Proof. cbv [be_encode reverse rev_append le_encode]. eauto. Qed.

Lemma be_decode_encode2 z : u16_ok z -> be_decode (be_encode 2 z) = z.
Proof. intros. apply be_decode_encode. width_lia. Qed.

Lemma be_decode_encode4 z : u32_ok z -> be_decode (be_encode 4 z) = z.
Proof. intros. apply be_decode_encode. width_lia. Qed.

Lemma be_decode_encode8 z : u64_ok z -> be_decode (be_encode 8 z) = z.
Proof. intros. apply be_decode_encode. width_lia. Qed.

Lemma bytes_ok_2 a b : u8_ok a -> u8_ok b -> bytes_ok [a; b].
Proof. intros. apply Forall_cons_2; [done|]. by apply Forall_singleton. Qed.

Lemma be_encode_decode2 a b : u8_ok a -> u8_ok b -> be_encode 2 (be_decode [a; b]) = [a; b].
Proof. intros. apply (be_encode_decode [a; b]). by apply bytes_ok_2. Qed.

Lemma be_decode2_ok a b : u8_ok a -> u8_ok b -> u16_ok (be_decode [a; b]).
Proof.
  intros. pose proof (be_decode_range [a; b] (bytes_ok_2 a b ltac:(done) ltac:(done))).
  change (length [a; b]) with 2%nat in *. width_lia.
Qed.

Lemma bytes_ok_cons_inv b l : bytes_ok (b :: l) -> u8_ok b /\ bytes_ok l.
Proof. apply Forall_cons. Qed.

Global Opaque be_encode be_decode le_encode le_decode.

(** * Record updates

    [r <| f := v |>] assigns one field, [r <| f ::= g |>] applies [g] to it:
    the model of [self.f = v] and of [self.f += n]. *)

Class Setter {R T : Type} (proj : R -> T) : Type := set : (T -> T) -> R -> R.
Global Arguments set {R T} proj {_} _ _.
Notation "x <| f := v |>" := (set f (fun _ => v) x)
  (at level 1, f at next level, left associativity).
Notation "x <| f ::= g |>" := (set f g x)
  (at level 1, f at next level, left associativity).

(** [derive_setter eta proj]: the setter of field [proj], given the function
    [eta] that rebuilds a record from its projections. *)
Ltac derive_setter eta proj :=
  let e := eval unfold eta in eta in
  let h := eval pattern proj in e in
  match h with
  | ?g _ =>
      let t := constr:(fun f r => g (fun r' => f (proj r')) r) in
      let t := eval cbv beta in t in exact t
  end.

(** * Automation shared by the components *)

Create HintDb telegenic discriminated.
#[export] Hint Resolve be_encode_ok le_encode_ok zlen_nonneg : telegenic.
#[export] Hint Extern 1 (bytes_ok (_ ++ _)) => apply Forall_app_2 : telegenic.
#[export] Hint Extern 1 (bytes_ok []) => constructor : telegenic.
Create Rewrite HintDb zlen.
#[export] Hint Rewrite @zlen_app @zlen_nil @zlen_cons zlen_be_encode zlen_le_encode @zlen_replicate
  : zlen.

Ltac zlen_done := autorewrite with zlen; lia.

(** Read one field of a concatenation of fields. *)
Lemma get_range_head {A} (m s : list A) i j : i = 0 -> j = zlen m -> get_range (m ++ s) i j = Some m.
Proof. intros -> ->. by apply (get_range_app []). Qed.

Lemma get_range_whole {A} (m : list A) i j : i = 0 -> j = zlen m -> get_range m i j = Some m.
Proof. intros. pose proof (get_range_head m [] i j) as E. rewrite app_nil_r in E. by apply E. Qed.

Ltac read_field :=
  repeat rewrite get_range_skip by zlen_done;
  first [ rewrite get_range_head by zlen_done | rewrite get_range_whole by zlen_done ].

(** Case analysis on the rows of a table. *)
Ltac rows H :=
  repeat (apply elem_of_cons in H as [H|H]; [simplify_eq|]); try (by apply elem_of_nil in H).

(** A closed constant lies in its width. *)
Ltac const_range := split; vm_compute; discriminate.

(** Case split on the first condition or scrutinee of the goal. *)
Ltac case_goal :=
  match goal with
  | |- context [if ?b then _ else _] => destruct b eqn:?
  | |- context [match ?x with _ => _ end] => destruct x eqn:?
  end.
