(* ===== verification/Gvcp.v ===== *)
(** GVCP wire format: the model of [src/src/gige/proto/gvcp.rs].

    Command and acknowledge headers, the encoders the driver sends with, the
    parsers it receives with, and the request-id sequence.  The theorems show
    that the parsers read encoded headers and payloads back field for field and
    accept exactly the datagrams whose declared length is present, and that
    request ids run through [1..=0xfffe] without ever producing the two
    reserved values.  As in a release build the length field is the low 16 bits
    of the payload length; [HostCmd] lists the commands of the two workers
    with the payloads for which that is the length itself. *)

From S2P Require Import Prelude.

(** * Constants *)

Definition GVCP_PORT : Z := 3956.
Definition DATA_SIZE_MAX : Z := 512.
Definition PACKET_TYPE_CMD : Z := 0x42.
Definition PACKET_TYPE_ACK : Z := 0x00.
Definition PACKET_TYPE_ERROR : Z := 0x80.
Definition FLAG_ACK_REQUIRED : Z := 0x01.
Definition FLAG_EXTENDED_IDS : Z := 0x10.
Definition FLAG_ALLOW_BROADCAST_ACK : Z := 0x10.
Definition DISCOVERY_CMD : Z := 0x0002.
Definition DISCOVERY_ACK : Z := 0x0003.
Definition FORCEIP_CMD : Z := 0x0004.
Definition FORCEIP_ACK : Z := 0x0005.
Definition PACKET_RESEND_CMD : Z := 0x0040.
Definition READ_REGISTER_CMD : Z := 0x0080.
Definition READ_REGISTER_ACK : Z := 0x0081.
Definition WRITE_REGISTER_CMD : Z := 0x0082.
Definition WRITE_REGISTER_ACK : Z := 0x0083.
Definition READ_MEMORY_CMD : Z := 0x0084.
Definition READ_MEMORY_ACK : Z := 0x0085.
Definition WRITE_MEMORY_CMD : Z := 0x0086.
Definition WRITE_MEMORY_ACK : Z := 0x0087.
Definition PENDING_ACK : Z := 0x0089.
Definition EVENT_CMD : Z := 0x00c0.
Definition EVENT_ACK : Z := 0x00c1.
Definition EVENTDATA_CMD : Z := 0x00c2.
Definition EVENTDATA_ACK : Z := 0x00c3.
Definition DISCOVERY_ID : Z := 0xffff.
Definition HEADER_LEN : Z := 8.
Definition RESEND_MAX_LEN : Z := HEADER_LEN + 20.

(** * Request ids *)

Definition next_id (id : Z) : Z := if 0xfffe <=? id then 1 else id + 1.

(** * Status words

    [GvcpStatus] is a transparent wrapper of a [u16]. *)

Abbreviation GvcpStatus := Z (only parsing).

Definition STATUS_SUCCESS : GvcpStatus := 0x0000.
Definition STATUS_PACKET_RESEND : GvcpStatus := 0x0100.
Definition STATUS_NOT_IMPLEMENTED : GvcpStatus := 0x8001.
Definition STATUS_INVALID_PARAMETER : GvcpStatus := 0x8002.
Definition STATUS_INVALID_ADDRESS : GvcpStatus := 0x8003.
Definition STATUS_WRITE_PROTECT : GvcpStatus := 0x8004.
Definition STATUS_BAD_ALIGNMENT : GvcpStatus := 0x8005.
Definition STATUS_ACCESS_DENIED : GvcpStatus := 0x8006.
Definition STATUS_BUSY : GvcpStatus := 0x8007.
Definition STATUS_PACKET_UNAVAILABLE : GvcpStatus := 0x800c.
Definition STATUS_DATA_OVERRUN : GvcpStatus := 0x800d.
Definition STATUS_INVALID_HEADER : GvcpStatus := 0x800e.
Definition STATUS_PACKET_NOT_YET_AVAILABLE : GvcpStatus := 0x8010.
Definition STATUS_PACKET_AND_PREV_REMOVED_FROM_MEMORY : GvcpStatus := 0x8011.
Definition STATUS_PACKET_REMOVED_FROM_MEMORY : GvcpStatus := 0x8012.
Definition STATUS_NO_REF_TIME : GvcpStatus := 0x8013.
Definition STATUS_PACKET_TEMPORARILY_UNAVAILABLE : GvcpStatus := 0x8014.
Definition STATUS_OVERFLOW : GvcpStatus := 0x8015.
Definition STATUS_ACTION_LATE : GvcpStatus := 0x8016.
Definition STATUS_LEADER_TRAILER_OVERFLOW : GvcpStatus := 0x8017.
Definition STATUS_GENERIC_ERROR : GvcpStatus := 0x8fff.

Definition is_error (s : GvcpStatus) : bool := negb (Z.land s 0x8000 =? 0).

(** * Headers

    [zerocopy]'s [Ref::from_prefix] on a packed header of network-endian
    fields: [None] when the buffer is shorter than the header. *)

Record CmdHeader := {
  ch_packet_type : Z; ch_flags : Z; ch_command : Z; ch_length : Z; ch_req_id : Z }.

Record AckHeader := {
  ah_status : Z; ah_answer : Z; ah_length : Z; ah_ack_id : Z }.

Definition CmdHeader_as_bytes (h : CmdHeader) : bytes :=
  [ch_packet_type h; ch_flags h] ++ be_encode 2 (ch_command h) ++
  be_encode 2 (ch_length h) ++ be_encode 2 (ch_req_id h).

Definition AckHeader_as_bytes (h : AckHeader) : bytes :=
  be_encode 2 (ah_status h) ++ be_encode 2 (ah_answer h) ++
  be_encode 2 (ah_length h) ++ be_encode 2 (ah_ack_id h).

Definition CmdHeader_from_prefix (buf : bytes) : option (CmdHeader * bytes) :=
  match buf with
  | t :: f :: c1 :: c0 :: l1 :: l0 :: i1 :: i0 :: rest =>
      Some ({| ch_packet_type := t; ch_flags := f; ch_command := be_decode [c1; c0];
               ch_length := be_decode [l1; l0]; ch_req_id := be_decode [i1; i0] |}, rest)
  | _ => None
  end.

Definition AckHeader_from_prefix (buf : bytes) : option (AckHeader * bytes) :=
  match buf with
  | s1 :: s0 :: a1 :: a0 :: l1 :: l0 :: i1 :: i0 :: rest =>
      Some ({| ah_status := be_decode [s1; s0]; ah_answer := be_decode [a1; a0];
               ah_length := be_decode [l1; l0]; ah_ack_id := be_decode [i1; i0] |}, rest)
  | _ => None
  end.

Definition is_cmd (buf : bytes) : bool :=
  match buf with b :: _ => b =? PACKET_TYPE_CMD | [] => false end.

(** * Acknowledges *)

Record Ack := { ack_status : GvcpStatus; ack_answer : Z; ack_id : Z; ack_payload : bytes }.

Definition Ack_parse (buf : bytes) : option Ack :=
  '(header, rest) ← AckHeader_from_prefix buf;
  payload ← get_to rest (ah_length header);
  Some {| ack_status := ah_status header; ack_answer := ah_answer header;
          ack_id := ah_ack_id header; ack_payload := payload |}.

Definition pending_ack_timeout_ms (ack : Ack) : option Z :=
  if negb (ack_answer ack =? PENDING_ACK) then None
  else ms ← get_range (ack_payload ack) 2 4; Some (be_decode ms).

(** [as_chunks::<4>().0]: the whole four-byte chunks, the remainder dropped. *)
Fixpoint chunks4 (l : bytes) : list bytes :=
  match l with
  | a :: b :: c :: d :: l => [a; b; c; d] :: chunks4 l
  | _ => []
  end.

Definition register_values (ack : Ack) : list Z := be_decode <$> chunks4 (ack_payload ack).

(** * Commands *)

Record Cmd := { cmd_flags : Z; cmd_command : Z; cmd_req_id : Z; cmd_payload : bytes }.

Definition Cmd_parse (buf : bytes) : option Cmd :=
  '(header, rest) ← CmdHeader_from_prefix buf;
  if negb (ch_packet_type header =? PACKET_TYPE_CMD) then None
  else
    payload ← get_to rest (ch_length header);
    Some {| cmd_flags := ch_flags header; cmd_command := ch_command header;
            cmd_req_id := ch_req_id header; cmd_payload := payload |}.

(** * Encoders *)

Definition cmd_header (command flags payload_len id : Z) : CmdHeader :=
  {| ch_packet_type := PACKET_TYPE_CMD; ch_flags := flags; ch_command := command;
     ch_length := wrap 16 payload_len; ch_req_id := id |}.

Definition encode_discovery (allow_broadcast_ack : bool) : bytes :=
  CmdHeader_as_bytes
    (cmd_header DISCOVERY_CMD
       (Z.lor FLAG_ACK_REQUIRED (if allow_broadcast_ack then FLAG_ALLOW_BROADCAST_ACK else 0))
       0 DISCOVERY_ID).

Definition encode_read_reg (addrs : list Z) (id : Z) : bytes :=
  CmdHeader_as_bytes (cmd_header READ_REGISTER_CMD FLAG_ACK_REQUIRED (4 * zlen addrs) id) ++
  (addrs ≫= be_encode 4).

Definition encode_write_reg (pairs : list (Z * Z)) (id : Z) : bytes :=
  CmdHeader_as_bytes (cmd_header WRITE_REGISTER_CMD FLAG_ACK_REQUIRED (8 * zlen pairs) id) ++
  (pairs ≫= fun '(addr, value) => be_encode 4 addr ++ be_encode 4 value).

Definition encode_read_mem (addr count id : Z) : bytes :=
  CmdHeader_as_bytes (cmd_header READ_MEMORY_CMD FLAG_ACK_REQUIRED 8 id) ++
  be_encode 4 addr ++ be_encode 4 count.

Definition encode_write_mem (addr : Z) (data : bytes) (id : Z) : bytes :=
  CmdHeader_as_bytes (cmd_header WRITE_MEMORY_CMD FLAG_ACK_REQUIRED (4 + zlen data) id) ++
  be_encode 4 addr ++ data.

(** The source writes into the caller's buffer and returns the length; the
    model returns the bytes written, whose length is that number. *)
Definition encode_packet_resend (frame_id first last : Z) (extended_ids : bool) (id : Z) : bytes :=
  let PACKET_ID_MASK := 0x00ffffff in
  if extended_ids then
    CmdHeader_as_bytes (cmd_header PACKET_RESEND_CMD FLAG_EXTENDED_IDS 20 id) ++
    be_encode 4 0 ++ be_encode 4 first ++ be_encode 4 last ++ be_encode 8 frame_id
  else
    CmdHeader_as_bytes (cmd_header PACKET_RESEND_CMD 0 12 id) ++
    be_encode 4 (wrap 32 frame_id) ++
    be_encode 4 (Z.land first PACKET_ID_MASK) ++ be_encode 4 (Z.land last PACKET_ID_MASK).

(** [mac] has six bytes, the addresses four octets each; the 64-byte buffer
    is zero outside the fields written. *)
Definition encode_force_ip (mac ip mask gateway : bytes) (id : Z) : bytes :=
  let buf := replicate 64 0 in
  let buf := splice buf 0 (CmdHeader_as_bytes (cmd_header FORCEIP_CMD FLAG_ACK_REQUIRED 56 id)) in
  let buf := splice buf 10 mac in
  let buf := splice buf 28 ip in
  let buf := splice buf 44 mask in
  splice buf 60 gateway.

Definition encode_event_ack (command req_id : Z) : bytes :=
  AckHeader_as_bytes
    {| ah_status := STATUS_SUCCESS; ah_answer := wrap 16 (command + 1);
       ah_length := 0; ah_ack_id := req_id |}.

(** * Headers read back what was written *)

Lemma zlen_CmdHeader_as_bytes h : zlen (CmdHeader_as_bytes h) = HEADER_LEN.
Proof. reflexivity. Qed.

Lemma CmdHeader_from_as_bytes h rest :
  u16_ok (ch_command h) -> u16_ok (ch_length h) -> u16_ok (ch_req_id h) ->
  CmdHeader_from_prefix (CmdHeader_as_bytes h ++ rest) = Some (h, rest).
Proof.
  intros Hc Hl Hi. destruct h as [t f c l i]; unfold CmdHeader_as_bytes.
  cbn [ch_packet_type ch_flags ch_command ch_length ch_req_id] in *.
  destruct (be_encode_2_shape c) as (c1 & c0 & Ec), (be_encode_2_shape l) as (l1 & l0 & El),
    (be_encode_2_shape i) as (i1 & i0 & Ei).
  apply be_decode_encode2 in Hc, Hl, Hi. rewrite Ec, El, Ei in *. simpl. by rewrite Hc, Hl, Hi.
Qed.

Lemma AckHeader_from_as_bytes h rest :
  u16_ok (ah_status h) -> u16_ok (ah_answer h) -> u16_ok (ah_length h) -> u16_ok (ah_ack_id h) ->
  AckHeader_from_prefix (AckHeader_as_bytes h ++ rest) = Some (h, rest).
Proof.
  intros Hs Ha Hl Hi. destruct h as [s a l i]; unfold AckHeader_as_bytes.
  cbn [ah_status ah_answer ah_length ah_ack_id] in *.
  destruct (be_encode_2_shape s) as (s1 & s0 & Es), (be_encode_2_shape a) as (a1 & a0 & Ea),
    (be_encode_2_shape l) as (l1 & l0 & El), (be_encode_2_shape i) as (i1 & i0 & Ei).
  apply be_decode_encode2 in Hs, Ha, Hl, Hi. rewrite Es, Ea, El, Ei in *. simpl.
  by rewrite Hs, Ha, Hl, Hi.
Qed.

(** A command datagram with a payload of the declared length parses back. *)
Lemma Cmd_parse_encoded command flags id payload tail :
  u16_ok command -> u16_ok id -> zlen payload <= U16_MAX ->
  Cmd_parse (CmdHeader_as_bytes (cmd_header command flags (zlen payload) id) ++ payload ++ tail) =
  Some {| cmd_flags := flags; cmd_command := command; cmd_req_id := id; cmd_payload := payload |}.
Proof.
  intros Hc Hi Hp. unfold Cmd_parse.
  assert (wrap 16 (zlen payload) = zlen payload) as Hw.
  { apply wrap_small. pose proof (zlen_nonneg payload). width_lia. }
  rewrite CmdHeader_from_as_bytes; simpl; rewrite ?Hw; [|done|split;[apply zlen_nonneg|done]|done].
  by rewrite get_to_app.
Qed.

Lemma Ack_parse_encoded status answer id payload tail :
  u16_ok status -> u16_ok answer -> u16_ok id -> zlen payload <= U16_MAX ->
  Ack_parse (AckHeader_as_bytes {| ah_status := status; ah_answer := answer;
                                   ah_length := zlen payload; ah_ack_id := id |} ++ payload ++ tail) =
  Some {| ack_status := status; ack_answer := answer; ack_id := id; ack_payload := payload |}.
Proof.
  intros Hs Ha Hi Hp. unfold Ack_parse.
  rewrite AckHeader_from_as_bytes; simpl; [|done..|split;[apply zlen_nonneg|done]|done].
  by rewrite get_to_app.
Qed.

(** * The transactions of the driver

    The commands that are sent within a session, as one type over the encoders,
    so that what holds of all of them is said once. *)

Inductive HostCmd :=
| HReadReg (addrs : list Z)
| HWriteReg (pairs : list (Z * Z))
| HReadMem (addr count : Z)
| HWriteMem (addr : Z) (data : bytes)
| HResend (frame_id first last : Z) (extended_ids : bool).

Definition HostCmd_encode (c : HostCmd) (id : Z) : bytes :=
  match c with
  | HReadReg addrs => encode_read_reg addrs id
  | HWriteReg pairs => encode_write_reg pairs id
  | HReadMem addr count => encode_read_mem addr count id
  | HWriteMem addr data => encode_write_mem addr data id
  | HResend f a b ext => encode_packet_resend f a b ext id
  end.

Definition HostCmd_ok (c : HostCmd) : Prop :=
  match c with
  | HReadReg addrs => Forall u32_ok addrs /\ 4 * zlen addrs <= U16_MAX
  | HWriteReg pairs =>
      Forall (fun '(a, v) => u32_ok a /\ u32_ok v) pairs /\ 8 * zlen pairs <= U16_MAX
  | HReadMem addr count => u32_ok addr /\ u16_ok count
  | HWriteMem addr data => u32_ok addr /\ zlen data <= DATA_SIZE_MAX
  | HResend f a b true => u64_ok f /\ u32_ok a /\ u32_ok b
  | HResend f a b false => u32_ok f /\ 0 <= a < 2 ^ 24 /\ 0 <= b < 2 ^ 24
  end.

Lemma chunks4_be_encode_4 z l : chunks4 (be_encode 4 z ++ l) = be_encode 4 z :: chunks4 l.
Proof. destruct (be_encode_4_shape z) as (a & b & c & d & ->). done. Qed.

Lemma decode_words_bind ws rest :
  Forall u32_ok ws ->
  be_decode <$> chunks4 ((ws ≫= be_encode 4) ++ rest) = ws ++ (be_decode <$> chunks4 rest).
Proof.
  induction 1 as [|w ws Hw _ IH]; [done|].
  by rewrite bind_cons, <- app_assoc, chunks4_be_encode_4, fmap_cons,
    be_decode_encode4, IH.
Qed.

Lemma zlen_bind_be4 (ws : list Z) : zlen (ws ≫= be_encode 4) = 4 * zlen ws.
Proof.
  induction ws as [|w ws IH]; [done|].
  rewrite bind_cons, zlen_app, zlen_be_encode, IH, zlen_cons. lia.
Qed.

Lemma zlen_bind_pairs (ps : list (Z * Z)) :
  zlen (ps ≫= fun '(a, v) => be_encode 4 a ++ be_encode 4 v) = 8 * zlen ps.
Proof.
  induction ps as [|[a v] ps IH]; [done|].
  rewrite bind_cons, !zlen_app, !zlen_be_encode, IH, zlen_cons. lia.
Qed.

(** The payload each encoder writes. *)
Definition HostCmd_payload (c : HostCmd) : bytes :=
  match c with
  | HReadReg addrs => addrs ≫= be_encode 4
  | HWriteReg pairs => pairs ≫= fun '(a, v) => be_encode 4 a ++ be_encode 4 v
  | HReadMem addr count => be_encode 4 addr ++ be_encode 4 count
  | HWriteMem addr data => be_encode 4 addr ++ data
  | HResend f a b true => be_encode 4 0 ++ be_encode 4 a ++ be_encode 4 b ++ be_encode 8 f
  | HResend f a b false =>
      be_encode 4 (wrap 32 f) ++ be_encode 4 (Z.land a 0x00ffffff) ++
      be_encode 4 (Z.land b 0x00ffffff)
  end.

Definition HostCmd_opcode (c : HostCmd) : Z :=
  match c with
  | HReadReg _ => READ_REGISTER_CMD
  | HWriteReg _ => WRITE_REGISTER_CMD
  | HReadMem _ _ => READ_MEMORY_CMD
  | HWriteMem _ _ => WRITE_MEMORY_CMD
  | HResend _ _ _ _ => PACKET_RESEND_CMD
  end.

Definition HostCmd_flags (c : HostCmd) : Z :=
  match c with
  | HResend _ _ _ true => FLAG_EXTENDED_IDS
  | HResend _ _ _ false => 0
  | _ => FLAG_ACK_REQUIRED
  end.

Lemma HostCmd_encode_shape c id :
  HostCmd_encode c id =
  CmdHeader_as_bytes (cmd_header (HostCmd_opcode c) (HostCmd_flags c)
                        (zlen (HostCmd_payload c)) id) ++ HostCmd_payload c.
Proof.
  destruct c as [addrs|pairs|addr count|addr data|f a b []]; simpl;
    unfold encode_read_reg, encode_write_reg, encode_read_mem, encode_write_mem,
      encode_packet_resend;
    rewrite ?zlen_bind_be4, ?zlen_bind_pairs; autorewrite with zlen; done.
Qed.

Lemma HostCmd_payload_fits c : HostCmd_ok c -> zlen (HostCmd_payload c) <= U16_MAX.
Proof.
  destruct c as [addrs|pairs|addr count|addr data|f a b []]; simpl; intros H;
    rewrite ?zlen_bind_be4, ?zlen_bind_pairs; autorewrite with zlen;
    unfold DATA_SIZE_MAX in *; width_lia.
Qed.

(** * The request-id sequence *)

Lemma next_id_range id : 0 <= id -> 1 <= next_id id <= 0xfffe.
Proof. intros. unfold next_id. case_match; lia. Qed.

Lemma next_id_iter_pos k start : u16_ok start -> (0 < k)%nat ->
  Nat.iter k next_id start = (Z.min start 0xfffe + Z.of_nat k - 1) mod 0xfffe + 1.
Proof.
  intros Hs Hk. destruct k as [|k]; [lia|]. clear Hk.
  induction k as [|k IH].
  - change (Nat.iter 1 next_id start) with (next_id start). unfold next_id.
    destruct (0xfffe <=? start) eqn:E.
    + by replace (Z.min start 65534 + Z.of_nat 1 - 1) with 65534 by lia.
    + rewrite Z.mod_small; width_lia.
  - rewrite Nat.iter_succ, IH. unfold next_id.
    set (x := Z.min start 65534 + Z.of_nat (S k) - 1).
    replace (Z.min start 65534 + Z.of_nat (S (S k)) - 1) with (x + 1) by lia.
    rewrite <- (Z.add_mod_idemp_l x 1) by lia.
    pose proof (Z.mod_pos_bound x 65534 ltac:(lia)) as B. set (m := x mod 65534) in *.
    destruct (65534 <=? m + 1) eqn:E.
    + replace (m + 1) with 65534 by lia. done.
    + rewrite (Z.mod_small (m + 1)); lia.
Qed.

(** From any 16-bit starting value the request-id sequence has a closed
    form; so no id is ever 0 or the discovery id 0xffff, and any 0xfffe
    consecutive transactions carry distinct ids. *)
Theorem request_ids_cycle (start : Z) (k : nat) :
  u16_ok start -> (0 < k)%nat ->
  Nat.iter k next_id start = (Z.min start 0xfffe + Z.of_nat k - 1) mod 0xfffe + 1 /\
  1 <= Nat.iter k next_id start < DISCOVERY_ID /\
  (forall j, (k < j)%nat -> Z.of_nat j - Z.of_nat k < 0xfffe ->
     Nat.iter j next_id start <> Nat.iter k next_id start).
Proof.
  intros Hs Hk. rewrite (next_id_iter_pos k) by done. unfold DISCOVERY_ID.
  split_and!; [done| | |].
  - pose proof (Z.mod_pos_bound (Z.min start 65534 + Z.of_nat k - 1) 65534). lia.
  - pose proof (Z.mod_pos_bound (Z.min start 65534 + Z.of_nat k - 1) 65534). lia.
  - intros j Hj Hd. rewrite next_id_iter_pos by (done || lia). intros E.
    assert (((Z.of_nat j - Z.of_nat k) mod 65534) = 0) as Hm.
    { replace (Z.of_nat j - Z.of_nat k) with
        ((Z.min start 65534 + Z.of_nat j - 1) - (Z.min start 65534 + Z.of_nat k - 1)) by lia.
      rewrite Zminus_mod.
      replace ((Z.min start 65534 + Z.of_nat j - 1) mod 65534)
        with ((Z.min start 65534 + Z.of_nat k - 1) mod 65534) by lia.
      by rewrite Z.sub_diag. }
    rewrite Z.mod_small in Hm; lia.
Qed.

Lemma request_ids_cycle_witness :
  Nat.iter 3 next_id 0xfffd = 2 /\ 1 <= Nat.iter 3 next_id 0xfffd < DISCOVERY_ID.
Proof.
  destruct (request_ids_cycle 0xfffd 3) as (E & B & _); [width_lia|lia|].
  split; [exact E|exact B].
Defined.

(** * Acknowledge parsing *)

(** The acknowledge parser accepts exactly the datagrams made of the
    eight header bytes, a payload of the declared length, and any trailing
    bytes; the fields it returns are the ones encoded there. *)
Theorem ack_parse_exact (buf : bytes) (a : Ack) :
  bytes_ok buf ->
  Ack_parse buf = Some a <->
  u16_ok (ack_status a) /\ u16_ok (ack_answer a) /\ u16_ok (ack_id a) /\
  zlen (ack_payload a) <= U16_MAX /\
  exists tail, buf =
    AckHeader_as_bytes {| ah_status := ack_status a; ah_answer := ack_answer a;
      ah_length := zlen (ack_payload a); ah_ack_id := ack_id a |} ++ ack_payload a ++ tail.
Proof.
  intros Hok. split.
  - unfold Ack_parse, AckHeader_from_prefix.
    destruct buf as [|s1 [|s0 [|a1 [|a0 [|l1 [|l0 [|i1 [|i0 rest]]]]]]]]; try discriminate.
    cbn. destruct (get_to rest _) as [p|] eqn:Ep; [|discriminate]. intros [= <-]. cbn.
    repeat (apply bytes_ok_cons_inv in Hok as [? Hok]).
    apply get_range_Some in Ep as (_ & _ & Hlen & Ep). rewrite Z.sub_0_r in Hlen, Ep.
    rewrite Hlen. pose proof (be_decode2_ok l1 l0 ltac:(done) ltac:(done)).
    split_and!; [by apply be_decode2_ok..|unfold u16_ok in *; lia|].
    exists (drop (Z.to_nat (be_decode [l1; l0])) rest).
    unfold AckHeader_as_bytes; cbn -[be_encode be_decode].
    rewrite !be_encode_decode2 by done. simpl.
    rewrite Ep. simpl. by rewrite take_drop.
  - intros (? & ? & ? & ? & tail & ->). destruct a. by apply Ack_parse_encoded.
Qed.

Lemma ack_parse_exact_witness :
  Ack_parse [0x80; 0x06; 0x00; 0x83; 0x00; 0x00; 0x00; 0x09] =
  Some {| ack_status := STATUS_ACCESS_DENIED; ack_answer := WRITE_REGISTER_ACK;
          ack_id := 9; ack_payload := [] |}.
Proof.
  apply ack_parse_exact; [by apply bytes_ok_dec_true|].
  split_and!; [const_range..|by vm_compute|]. exists []. reflexivity.
Defined.

(** A pending acknowledge never announces more than the 16-bit field holds. *)
Lemma pending_ack_timeout_bound ack ms :
  bytes_ok (ack_payload ack) -> pending_ack_timeout_ms ack = Some ms ->
  ack_answer ack = PENDING_ACK /\ u16_ok ms.
Proof.
  unfold pending_ack_timeout_ms. intros Hok.
  destruct (ack_answer ack =? PENDING_ACK) eqn:E; [|discriminate]. simpl.
  destruct (get_range _ 2 4) as [r|] eqn:Er; [|discriminate]. intros [= <-].
  pose proof (get_range_ok _ _ _ _ Er Hok) as Hr.
  apply get_range_Some in Er as (_ & _ & Hl & _).
  pose proof (be_decode_range _ Hr). unfold zlen in Hl.
  replace (length r) with 2%nat in * by lia. split; [lia|]. width_lia.
Qed.
