(* ===== verification/Gvsp.v ===== *)
(** GVSP wire format: the model of [src/src/gige/proto/gvsp.rs].

    The packet header in its standard and extended-id layouts, the image
    leader, pixel formats and the timestamp conversion.  The theorems show
    which datagrams parse and to what, for both layouts, and how many bytes an
    image of a format takes. *)

From S2P Require Import Prelude Gvcp.

Definition PACKET_ID_MASK : Z := 0x00ffffff.
Definition EXTENDED_ID_MODE : Z := 0x80000000.
Definition CONTENT_TYPE_MASK : Z := 0x7f000000.
Definition CONTENT_TYPE_POS : Z := 24.
Definition MINIMUM_PACKET_SIZE : Z := 64 - 14 - 4.
Definition MAXIMUM_PACKET_SIZE : Z := 65536 - 14 - 4.
Definition PACKET_UDP_OVERHEAD : Z := 20 + 8.

Definition packet_protocol_overhead (extended_ids : bool) : Z :=
  PACKET_UDP_OVERHEAD + 2 + (if extended_ids then 18 else 6).

(** * Content types *)

Inductive ContentType :=
| Leader | Trailer | Payload | AllIn | H264 | Multizone | Multipart | GenDc
| UnknownContent (bits : Z).

Global Instance ContentType_eq_dec : EqDecision ContentType.
Proof. solve_decision. Defined.

Definition ContentType_from_bits (bits : Z) : ContentType :=
  if bits =? 1 then Leader
  else if bits =? 2 then Trailer
  else if bits =? 3 then Payload
  else if bits =? 4 then AllIn
  else if bits =? 5 then H264
  else if bits =? 6 then Multizone
  else if bits =? 7 then Multipart
  else if bits =? 8 then GenDc
  else UnknownContent bits.

(** * Packets *)

Record GvspView := {
  v_status : GvcpStatus;
  v_extended_ids : bool;
  v_frame_id : Z;
  v_packet_id : Z;
  v_content_type : ContentType;
  v_data : bytes }.

Definition GvspView_parse (buf : bytes) : option GvspView :=
  b0 ← buf !! 0%nat;
  b1 ← buf !! 1%nat;
  let status := be_decode [b0; b1] in
  infos ← be_decode <$> get_range buf 4 8;
  let extended_ids := negb (Z.land infos EXTENDED_ID_MODE =? 0) in
  let content_type :=
    ContentType_from_bits (wrap 8 (Z.shiftr (Z.land infos CONTENT_TYPE_MASK) CONTENT_TYPE_POS)) in
  if extended_ids then
    frame_id ← be_decode <$> get_range buf 8 16;
    packet_id ← be_decode <$> get_range buf 16 20;
    data ← get_from buf 20;
    Some {| v_status := status; v_extended_ids := extended_ids; v_frame_id := frame_id;
            v_packet_id := packet_id; v_content_type := content_type; v_data := data |}
  else
    b2 ← buf !! 2%nat;
    b3 ← buf !! 3%nat;
    data ← get_from buf 8;
    Some {| v_status := status; v_extended_ids := extended_ids;
            v_frame_id := be_decode [b2; b3]; v_packet_id := Z.land infos PACKET_ID_MASK;
            v_content_type := content_type; v_data := data |}.

(** * Payload types, pixel formats and leaders *)

Definition PAYLOAD_TYPE_IMAGE : Z := 0x0001.
Definition PAYLOAD_TYPE_RAW : Z := 0x0002.
Definition PAYLOAD_TYPE_FILE : Z := 0x0003.
Definition PAYLOAD_TYPE_CHUNK_DATA : Z := 0x0004.
Definition PAYLOAD_TYPE_EXTENDED_CHUNK_DATA : Z := 0x0005.
Definition PAYLOAD_TYPE_JPEG : Z := 0x0006.
Definition PAYLOAD_TYPE_H264 : Z := 0x0008.
Definition PAYLOAD_TYPE_MULTIPART : Z := 0x000a.
Definition PAYLOAD_TYPE_CHUNK_EXTENSION : Z := 0x4000.

(** [PixelFormat] is a transparent wrapper of a [u32] PFNC code. *)
Abbreviation PixelFormat := Z (only parsing).
Definition PixelFormat_default : PixelFormat := 0.
Definition MONO8 : PixelFormat := 0x01080001.
Definition MONO10 : PixelFormat := 0x01100003.
Definition MONO12 : PixelFormat := 0x01100005.
Definition MONO16 : PixelFormat := 0x01100007.
Definition BAYER_RG8 : PixelFormat := 0x01080009.
Definition BAYER_GB8 : PixelFormat := 0x0108000a.
Definition RGB8 : PixelFormat := 0x02180014.
Definition BGR8 : PixelFormat := 0x02180015.
Definition YUV422_8 : PixelFormat := 0x02100032.

Definition bits_per_pixel (pf : PixelFormat) : Z := Z.land (Z.shiftr pf 16) 0xff.

Definition image_size (pf : PixelFormat) (width height : Z) : option Z :=
  let bits := width * height * bits_per_pixel pf in
  let n := div_ceil bits 8 in
  if n <=? USIZE_MAX then Some n else None.

Record ImageLeader := {
  il_payload_type : Z;
  il_has_chunks : bool;
  il_timestamp_ticks : Z;
  il_pixel_format : PixelFormat;
  il_width : Z;
  il_height : Z;
  il_x_offset : Z;
  il_y_offset : Z;
  il_x_padding : Z;
  il_y_padding : Z }.

Definition field_at (n : Z) (data : bytes) (i : Z) : Z :=
  match get_range data i (i + n) with Some b => be_decode b | None => 0 end.

Definition ImageLeader_parse (data : bytes) : option ImageLeader :=
  raw_payload_type ← be_decode <$> get_range data 2 4;
  let payload_type := Z.land raw_payload_type (U16_MAX - PAYLOAD_TYPE_CHUNK_EXTENSION) in
  let has_chunks :=
    negb (Z.land raw_payload_type PAYLOAD_TYPE_CHUNK_EXTENSION =? 0)
    || (payload_type =? PAYLOAD_TYPE_CHUNK_DATA)
    || (payload_type =? PAYLOAD_TYPE_EXTENDED_CHUNK_DATA) in
  timestamp_ticks ← be_decode <$> get_range data 4 12;
  let u32_at := field_at 4 data in
  let u16_at := field_at 2 data in
  Some {| il_payload_type := payload_type; il_has_chunks := has_chunks;
          il_timestamp_ticks := timestamp_ticks; il_pixel_format := u32_at 12;
          il_width := u32_at 16; il_height := u32_at 20; il_x_offset := u32_at 24;
          il_y_offset := u32_at 28; il_x_padding := u16_at 32; il_y_padding := u16_at 34 |}.

(** * Timestamps *)

Definition timestamp_to_ns (ticks tick_frequency : Z) : Z :=
  if tick_frequency <? 1 then 0
  else
    let ns := ticks * 1000000000 / tick_frequency in
    if ns <=? U64_MAX then ns else U64_MAX.

(** * The two packet layouts, as a device writes them *)

Definition std_packet (status frame_id packet_id content : Z) (data : bytes) : bytes :=
  be_encode 2 status ++ be_encode 2 frame_id ++
  be_encode 4 (Z.lor (Z.shiftl content CONTENT_TYPE_POS) (Z.land packet_id PACKET_ID_MASK)) ++ data.

Definition ext_packet (status flags frame_id packet_id content : Z) (data : bytes) : bytes :=
  be_encode 2 status ++ be_encode 2 flags ++
  be_encode 4 (Z.lor EXTENDED_ID_MODE (Z.shiftl content CONTENT_TYPE_POS)) ++
  be_encode 8 frame_id ++ be_encode 4 packet_id ++ data.

(** * Parsing what a device sends *)

Lemma info_word_fields infos content :
  0 <= infos -> Z.shiftr infos 24 mod 2 ^ 7 = content -> 0 <= content < 128 ->
  ContentType_from_bits (wrap 8 (Z.shiftr (Z.land infos CONTENT_TYPE_MASK) CONTENT_TYPE_POS)) =
  ContentType_from_bits content.
Proof.
  intros Hi Hc Hr. unfold CONTENT_TYPE_MASK, CONTENT_TYPE_POS.
  change 0x7f000000 with (Z.shiftl (Z.ones 7) 24).
  rewrite land_field, Hc by lia. by rewrite wrap_small by lia.
Qed.

Lemma be_encode_pair (n : nat) z : n = 2%nat -> be_encode n z = [z / 256 mod 256; z mod 256].
Proof. by intros ->. Qed.

Lemma get_at_app_r {A} (p s : list A) i j : i = zlen p + j -> 0 <= j ->
  get_at (p ++ s) i = get_at s j.
Proof.
  intros -> Hj. unfold get_at, zlen. replace (0 <=? _) with true by lia.
  replace (0 <=? j) with true by lia. rewrite lookup_app_r by lia. f_equal. lia.
Qed.

Section layouts.
Context (status frame_id packet_id content : Z) (data : bytes).
Context (Hstatus : u16_ok status) (Hcontent : 0 <= content < 128).

Lemma parse_std :
  u16_ok frame_id -> 0 <= packet_id < 2 ^ 24 ->
  GvspView_parse (std_packet status frame_id packet_id content data) =
  Some {| v_status := status; v_extended_ids := false; v_frame_id := frame_id;
          v_packet_id := packet_id; v_content_type := ContentType_from_bits content;
          v_data := data |}.
Proof using Hstatus Hcontent.
  intros Hf Hp. unfold std_packet, PACKET_ID_MASK, CONTENT_TYPE_POS.
  change 0x00ffffff with (Z.ones 24). rewrite Z.land_ones, Z.mod_small by lia.
  rewrite lor_shiftl_add by lia. set (infos := content * 2 ^ 24 + packet_id).
  assert (u32_ok infos) as Hi by (unfold infos; width_lia).
  assert (Z.shiftr infos 24 = content) as Hs.
  { unfold infos. rewrite Z.shiftr_div_pow2, Z.div_add_l, Z.div_small; lia. }
  unfold GvspView_parse.
  destruct (be_encode_2_shape status) as (s1 & s0 & Es),
    (be_encode_2_shape frame_id) as (f1 & f0 & Ef).
  pose proof (be_decode_encode2 _ Hstatus) as Ds. pose proof (be_decode_encode2 _ Hf) as Df.
  rewrite Es, Ef in *. cbn [app].
  assert (get_range (s1 :: s0 :: f1 :: f0 :: be_encode 4 infos ++ data) 4 8
          = Some (be_encode 4 infos)) as ->.
  { apply (get_range_app [s1; s0; f1; f0]); by rewrite ?zlen_be_encode. }
  assert (get_from (s1 :: s0 :: f1 :: f0 :: be_encode 4 infos ++ data) 8 = Some data) as ->.
  { apply (get_from_app ([s1; s0; f1; f0] ++ be_encode 4 infos)).
    by rewrite zlen_app, zlen_be_encode. }
  cbn -[be_encode be_decode Z.land Z.shiftr wrap ContentType_from_bits].
  rewrite be_decode_encode4 by done.
  unfold EXTENDED_ID_MODE. change 0x80000000 with (2 ^ 31).
  rewrite land_pow2_eqb, (testbit_small infos 31) by (unfold infos; lia).
  rewrite (info_word_fields infos content); [|width_lia| |done];
    [|rewrite Hs; apply Z.mod_small; lia].
  cbn -[be_encode be_decode Z.land Z.shiftr wrap ContentType_from_bits].
  unfold PACKET_ID_MASK. change 0x00ffffff with (Z.ones 24). rewrite Z.land_ones by lia.
  rewrite Ds, Df. do 2 f_equal. unfold infos.
  rewrite Z.add_comm, Z.mod_add, Z.mod_small; lia.
Qed.

Lemma parse_ext flags :
  u64_ok frame_id -> u32_ok packet_id ->
  GvspView_parse (ext_packet status flags frame_id packet_id content data) =
  Some {| v_status := status; v_extended_ids := true; v_frame_id := frame_id;
          v_packet_id := packet_id; v_content_type := ContentType_from_bits content;
          v_data := data |}.
Proof using Hstatus Hcontent.
  intros Hf Hp. unfold ext_packet, EXTENDED_ID_MODE, CONTENT_TYPE_POS.
  change 0x80000000 with (Z.shiftl 1 31).
  rewrite lor_shiftl_add by (rewrite ?Z.shiftl_mul_pow2 by lia; lia).
  rewrite Z.shiftl_mul_pow2 by lia. set (infos := 1 * 2 ^ 31 + content * 2 ^ 24).
  assert (u32_ok infos) as Hi by (unfold infos; width_lia).
  unfold GvspView_parse.
  destruct (be_encode_2_shape status) as (s1 & s0 & Es), (be_encode_2_shape flags) as (f1 & f0 & Ef).
  pose proof (be_decode_encode2 _ Hstatus) as Ds. rewrite Es, Ef in *. cbn [app].
  set (pk := s1 :: s0 :: f1 :: f0 ::
    be_encode 4 infos ++ be_encode 8 frame_id ++ be_encode 4 packet_id ++ data).
  assert (get_range pk 4 8 = Some (be_encode 4 infos)) as ->.
  { apply (get_range_app [s1; s0; f1; f0]); by rewrite ?zlen_be_encode. }
  assert (get_range pk 8 16 = Some (be_encode 8 frame_id)) as ->.
  { apply (get_range_app ([s1; s0; f1; f0] ++ be_encode 4 infos));
      by rewrite ?zlen_app, ?zlen_be_encode. }
  assert (get_range pk 16 20 = Some (be_encode 4 packet_id)) as ->.
  { pose proof (get_range_app ([s1; s0; f1; f0] ++ be_encode 4 infos ++ be_encode 8 frame_id)
      (be_encode 4 packet_id) data 16 20) as E.
    rewrite <- !app_assoc in E. apply E; by rewrite !zlen_app, !zlen_be_encode. }
  assert (get_from pk 20 = Some data) as ->.
  { pose proof (get_from_app ([s1; s0; f1; f0] ++ be_encode 4 infos ++ be_encode 8 frame_id ++
      be_encode 4 packet_id) data 20) as E.
    rewrite <- !app_assoc in E. apply E; by rewrite !zlen_app, !zlen_be_encode. }
  unfold pk. cbn -[be_encode be_decode Z.land Z.shiftr wrap ContentType_from_bits].
  rewrite !be_decode_encode4, be_decode_encode8 by done.
  unfold EXTENDED_ID_MODE. change 0x80000000 with (2 ^ 31). rewrite land_pow2_eqb by lia.
  assert (Z.testbit infos 31 = true) as ->.
  { apply Z.testbit_true; [lia|]. unfold infos.
    rewrite Z.div_add_l, (Z.div_small (content * 2 ^ 24)) by lia. done. }
  rewrite (info_word_fields infos content); [|width_lia| |done].
  { cbn -[be_encode be_decode Z.land Z.shiftr wrap ContentType_from_bits]. by rewrite Ds. }
  unfold infos. rewrite Z.shiftr_div_pow2 by lia.
  replace (1 * 2 ^ 31 + content * 2 ^ 24) with ((content + 1 * 2 ^ 7) * 2 ^ 24) by lia.
  rewrite Z.div_mul, Z.mod_add, Z.mod_small; lia.
Qed.
End layouts.

(** A GVSP datagram in either layout, as a device writes it, parses to
    exactly the status, block id, packet id, content type and data it
    carries. *)
Theorem gvsp_parse_layouts (status flags frame_id packet_id content : Z) (data : bytes) :
  u16_ok status -> 0 <= content < 128 ->
  (u16_ok frame_id -> 0 <= packet_id < 2 ^ 24 ->
     GvspView_parse (std_packet status frame_id packet_id content data) =
     Some {| v_status := status; v_extended_ids := false; v_frame_id := frame_id;
             v_packet_id := packet_id; v_content_type := ContentType_from_bits content;
             v_data := data |}) /\
  (u64_ok frame_id -> u32_ok packet_id ->
     GvspView_parse (ext_packet status flags frame_id packet_id content data) =
     Some {| v_status := status; v_extended_ids := true; v_frame_id := frame_id;
             v_packet_id := packet_id; v_content_type := ContentType_from_bits content;
             v_data := data |}).
Proof. intros. split; intros; [by apply parse_std|by apply parse_ext]. Qed.

Lemma gvsp_parse_layouts_witness :
  GvspView_parse (std_packet 0 0x0102 42 3 [9; 8; 7]) =
    Some {| v_status := 0; v_extended_ids := false; v_frame_id := 0x0102; v_packet_id := 42;
            v_content_type := Payload; v_data := [9; 8; 7] |} /\
  GvspView_parse (ext_packet 0 0 0x0102 42 2 [1]) =
    Some {| v_status := 0; v_extended_ids := true; v_frame_id := 0x0102; v_packet_id := 42;
            v_content_type := Trailer; v_data := [1] |}.
Proof.
  destruct (gvsp_parse_layouts 0 0 0x0102 42 3 [9; 8; 7]) as [Hs _]; [width_lia..|].
  destruct (gvsp_parse_layouts 0 0 0x0102 42 2 [1]) as [_ He]; [width_lia..|].
  split; [apply Hs|apply He]; width_lia.
Defined.

(** What every successfully parsed packet satisfies: the ranges the receiver
    relies on when it uses the ids as block numbers and array indices. *)
Lemma GvspView_parse_ok buf v :
  bytes_ok buf -> GvspView_parse buf = Some v ->
  u16_ok (v_status v) /\ u64_ok (v_frame_id v) /\ u32_ok (v_packet_id v) /\
  bytes_ok (v_data v) /\ zlen (v_data v) <= zlen buf /\
  (v_extended_ids v = false -> u16_ok (v_frame_id v) /\ v_packet_id v < 2 ^ 24).
Proof.
  intros Hok. unfold GvspView_parse.
  destruct (buf !! 0%nat) as [b0|] eqn:E0; [|discriminate].
  destruct (buf !! 1%nat) as [b1|] eqn:E1; [|discriminate]. simpl.
  destruct (get_range buf 4 8) as [w|] eqn:Ew; [|discriminate].
  cbn -[Z.land wrap Z.shiftr].
  assert (forall i x, buf !! i = Some x -> u8_ok x) as Hb
    by (intros i x Hx; by apply (Forall_lookup_1 _ _ i x Hok)).
  assert (u16_ok (be_decode [b0; b1])) as Hs by eauto using be_decode2_ok.
  assert (forall i j r n, get_range buf i j = Some r -> j - i = Z.of_nat n ->
            0 <= be_decode r < 256 ^ Z.of_nat n) as Hrange.
  { intros i j r n Hr Hn. pose proof (be_decode_range r (get_range_ok _ _ _ _ Hr Hok)).
    apply get_range_Some in Hr as (_ & _ & Hl & _). unfold zlen in Hl.
    by replace n with (length r) by lia. }
  destruct (negb _).
  - destruct (get_range buf 8 16) as [f|] eqn:Ef; [|discriminate].
    destruct (get_range buf 16 20) as [p|] eqn:Ep; [|discriminate].
    destruct (get_from buf 20) as [d|] eqn:Ed; [|discriminate].
    cbn -[Z.land wrap Z.shiftr]. intros [= <-]; simpl.
    pose proof (Hrange 8 16 f 8%nat Ef eq_refl). pose proof (Hrange 16 20 p 4%nat Ep eq_refl).
    pose proof (get_range_ok _ _ _ _ Ed Hok). apply get_range_Some in Ed as (_ & ? & ? & _).
    split_and!; [done|width_lia..|done|lia|discriminate].
  - destruct (buf !! 2%nat) as [b2|] eqn:E2; [|discriminate].
    destruct (buf !! 3%nat) as [b3|] eqn:E3; [|discriminate]. simpl.
    destruct (get_from buf 8) as [d|] eqn:Ed; [|discriminate].
    cbn -[Z.land wrap Z.shiftr]. intros [= <-]; cbn -[Z.land wrap Z.shiftr].
    assert (u16_ok (be_decode [b2; b3])) by eauto using be_decode2_ok.
    unfold PACKET_ID_MASK. change 0x00ffffff with (Z.ones 24). rewrite Z.land_ones by lia.
    pose proof (Z.mod_pos_bound (be_decode w) (2 ^ 24) ltac:(lia)).
    pose proof (get_range_ok _ _ _ _ Ed Hok). apply get_range_Some in Ed as (_ & ? & ? & _).
    split_and!; [done|width_lia..|done|lia|]. intros _. split; [done|lia].
Qed.

Lemma field_at_nonneg n data i : bytes_ok data -> 0 <= field_at n data i.
Proof.
  intros Hok. unfold field_at. destruct (get_range data i (i + n)) as [r|] eqn:E; [|lia].
  pose proof (be_decode_range r (get_range_ok _ _ _ _ E Hok)). lia.
Qed.

(** The pixel-buffer size never exceeds what it claims, and is refused only
    when it does not fit. *)
Lemma image_size_spec pf w h :
  u32_ok w -> u32_ok h ->
  w * h * bits_per_pixel pf < 2 ^ 128 /\
  match image_size pf w h with
  | Some n => n <= USIZE_MAX /\ 8 * (n - 1) < w * h * bits_per_pixel pf <= 8 * n
  | None => USIZE_MAX < div_ceil (w * h * bits_per_pixel pf) 8
  end.
Proof.
  intros Hw Hh. unfold image_size.
  assert (0 <= bits_per_pixel pf < 256) as Hb.
  { unfold bits_per_pixel. change 0xff with (Z.ones 8). rewrite Z.land_ones by lia.
    apply Z.mod_pos_bound. lia. }
  assert (0 <= w * h) by (apply Z.mul_nonneg_nonneg; width_lia).
  assert (0 <= w * h * bits_per_pixel pf) by (apply Z.mul_nonneg_nonneg; lia).
  assert (w * h <= U32_MAX * U32_MAX) by (apply Z.mul_le_mono_nonneg; width_lia).
  pose proof (div_ceil_bounds (w * h * bits_per_pixel pf) 8 ltac:(lia) ltac:(lia)).
  split; [unfold U32_MAX in *; nia|].
  destruct (div_ceil _ 8 <=? USIZE_MAX) eqn:E; lia.
Qed.
