(* ===== verification/Channel.v ===== *)
(** Message channels between threads.

    The worker threads talk through bounded channels of an external crate
    ([flume]); none of that code is under [src/].  [Chan] is what the sources
    rely on: a non-blocking receive that takes the oldest message, and a
    non-blocking send that appends, or reports that the channel is full or has
    no receiver left.  The components are developed against this interface;
    [BoundedQueue] is the reference instance the witnesses run on. *)

From S2P Require Import Prelude.

Inductive SendOutcome := Sent | Full | Disconnected.

Global Instance SendOutcome_eq_dec : EqDecision SendOutcome.
Proof. solve_decision. Defined.

Class Chan (A : Type) := {
  chan : Type;
  contents : chan -> list A;
  try_recv : chan -> option (A * chan);
  try_send : chan -> A -> SendOutcome * chan;
  try_recv_empty : forall c, contents c = [] -> try_recv c = None;
  try_recv_head : forall c x l, contents c = x :: l ->
    exists c', try_recv c = Some (x, c') /\ contents c' = l;
  try_send_contents : forall c x,
    contents (snd (try_send c x)) =
    contents c ++ (if decide (fst (try_send c x) = Sent) then [x] else []) }.
Global Arguments chan A {_}.

(** A queue with a capacity ([None]: unbounded) and a flag for a live
    receiver. *)
Record BoundedQueue (A : Type) := mkQueue {
  q_items : list A; q_capacity : option nat; q_receiver : bool }.
Arguments mkQueue {A}.
Arguments q_items {A}.
Arguments q_capacity {A}.
Arguments q_receiver {A}.

Definition queue_try_send {A} (q : BoundedQueue A) (x : A) : SendOutcome * BoundedQueue A :=
  if negb (q_receiver q) then (Disconnected, q)
  else if match q_capacity q with
          | Some n => (n <=? length (q_items q))%nat
          | None => false
          end then (Full, q)
  else (Sent, mkQueue (q_items q ++ [x]) (q_capacity q) (q_receiver q)).

Definition queue_try_recv {A} (q : BoundedQueue A) : option (A * BoundedQueue A) :=
  match q_items q with
  | [] => None
  | x :: l => Some (x, mkQueue l (q_capacity q) (q_receiver q))
  end.

(** The reference queue meets the interface. *)
Global Program Instance queue_chan (A : Type) : Chan A := {|
  chan := BoundedQueue A;
  contents := q_items;
  try_recv := queue_try_recv;
  try_send := queue_try_send |}.
Next Obligation. intros A c Hc. unfold queue_try_recv. by rewrite Hc. Qed.
Next Obligation.
  intros A c x l Hc. unfold queue_try_recv. rewrite Hc. eexists. split; reflexivity.
Qed.
Next Obligation.
  intros A c x. unfold queue_try_send. repeat case_match; simpl; by rewrite ?app_nil_r.
Qed.

Section chan.
Context {A : Type} {C : Chan A}.

(** Receive until the channel is empty: every buffered message, oldest
    first, and the emptied channel. *)
Fixpoint recv_n (n : nat) (c : chan A) : list A * chan A :=
  match n with
  | O => ([], c)
  | S n =>
      match try_recv c with
      | None => ([], c)
      | Some (x, c') => let '(l, c'') := recv_n n c' in (x :: l, c'')
      end
  end.

Definition recv_all (c : chan A) : list A * chan A := recv_n (length (contents c)) c.

Lemma recv_n_spec n c : (length (contents c) <= n)%nat ->
  fst (recv_n n c) = contents c /\ contents (snd (recv_n n c)) = [].
Proof.
  revert c. induction n as [|n IH]; intros c Hn; simpl.
  - destruct (contents c); simpl in *; [done|lia].
  - destruct (contents c) as [|x l] eqn:Hc; simpl in *.
    + by rewrite (try_recv_empty c Hc).
    + destruct (try_recv_head c x l Hc) as (c' & -> & Hl).
      destruct (recv_n n c') as [l' c''] eqn:E. simpl.
      destruct (IH c') as [H1 H2]; [rewrite Hl; lia|].
      rewrite E in *; simpl in *. by rewrite H1, Hl.
Qed.

Lemma recv_all_spec c : fst (recv_all c) = contents c /\ contents (snd (recv_all c)) = [].
Proof. by apply recv_n_spec. Qed.

Lemma try_recv_spec c :
  match try_recv c with
  | Some (x, c') => contents c = x :: contents c'
  | None => contents c = []
  end.
Proof.
  destruct (contents c) as [|x l] eqn:Hc.
  - by rewrite (try_recv_empty c Hc).
  - destruct (try_recv_head c x l Hc) as (c' & -> & Hl). by rewrite Hl.
Qed.

Lemma try_send_incl c x y : y ∈ contents (snd (try_send c x)) -> y ∈ contents c \/ y = x.
Proof.
  rewrite try_send_contents. case_decide; rewrite elem_of_app; [|by intros [?|?%elem_of_nil]; [left|]].
  intros [?|?%list_elem_of_singleton]; auto.
Qed.
End chan.
