(* ===== verification/Float64.v ===== *)
(** IEEE 754 binary64 and binary32 values as the Rust code uses them.

    [f64] is the Standard Library's executable [spec_float] (all NaNs are one
    value; the sign and payload of a NaN are not distinguished).  Arithmetic
    rounds to nearest, ties to even.  The functions below are the casts, the
    rounding functions and the bit conversions of Rust's [f64] and [f32]
    types.  The theorems are the facts the components use: integer casts
    saturate into range, small integers are exact, and encoding to bits and
    back is the identity on finite values. *)

From Stdlib Require Import SpecFloat.
From S2P Require Import Prelude.

Abbreviation f64 := spec_float (only parsing).

Definition prec64 : Z := 53.
Definition emax64 : Z := 1024.
Definition prec32 : Z := 24.
Definition emax32 : Z := 128.

(** * Arithmetic *)

Definition f64_add : f64 -> f64 -> f64 := SFadd prec64 emax64.
Definition f64_sub : f64 -> f64 -> f64 := SFsub prec64 emax64.
Definition f64_mul : f64 -> f64 -> f64 := SFmul prec64 emax64.
Definition f64_div : f64 -> f64 -> f64 := SFdiv prec64 emax64.
Definition f64_sqrt : f64 -> f64 := SFsqrt prec64 emax64.
Definition f64_neg : f64 -> f64 := SFopp.
Definition f64_abs : f64 -> f64 := SFabs.
Definition f64_zero : f64 := S754_zero false.
Definition f64_MAX : f64 := S754_finite false 9007199254740991 971.
Definition f64_MIN : f64 := S754_finite true 9007199254740991 971.

(** * Casts between integers and floats ([as]) *)

(** An integer to the nearest double. *)
Definition f64_of_Z (z : Z) : f64 := binary_normalize prec64 emax64 z 0 false.

(** The integer part of the magnitude [m * 2^e]. *)
Definition trunc_mag (m : positive) (e : Z) : Z :=
  if 0 <=? e then Z.pos m * 2 ^ e else Z.pos m / 2 ^ (- e).

Definition clamp (lo hi z : Z) : Z := Z.max lo (Z.min hi z).

(** [x as i64], [x as usize]: truncation toward zero, saturating, NaN to 0. *)
Definition f64_to_int (lo hi : Z) (x : f64) : Z :=
  match x with
  | S754_zero _ | S754_nan => 0
  | S754_infinity s => if s then lo else hi
  | S754_finite s m e => clamp lo hi (if s then - trunc_mag m e else trunc_mag m e)
  end.

Definition f64_to_i64 : f64 -> Z := f64_to_int I64_MIN I64_MAX.
Definition f64_to_usize : f64 -> Z := f64_to_int 0 USIZE_MAX.

(** * Rounding to integral values *)

(** Apply a rule to the quotient and remainder of the magnitude at the
    binary point; values with a non-negative exponent are already integral. *)
Definition f64_integral (rule : bool -> Z -> Z -> Z -> Z) (x : f64) : f64 :=
  match x with
  | S754_finite s m e =>
      if 0 <=? e then x
      else
        let d := 2 ^ (- e) in
        let q := rule s (Z.pos m / d) (Z.pos m mod d) d in
        binary_normalize prec64 emax64 (if s then - q else q) 0 s
  | _ => x
  end.

(** Half away from zero. *)
Definition f64_round : f64 -> f64 :=
  f64_integral (fun _ q r d => if d <=? 2 * r then q + 1 else q).
Definition f64_trunc : f64 -> f64 := f64_integral (fun _ q _ _ => q).
Definition f64_floor : f64 -> f64 :=
  f64_integral (fun s q r _ => if s && negb (r =? 0) then q + 1 else q).
Definition f64_ceil : f64 -> f64 :=
  f64_integral (fun s q r _ => if negb s && negb (r =? 0) then q + 1 else q).

(** * Comparison *)

Definition f64_partial_cmp (x y : f64) : option comparison := SFcompare x y.
Definition f64_eqb (x y : f64) : bool := SFeqb x y.
Definition f64_ltb (x y : f64) : bool := SFltb x y.

(** * Bit patterns *)

(** [bits] of a format with [mw] mantissa bits and [ew] exponent bits. *)
Definition float_of_bits (mw ew : Z) (bits : Z) : spec_float :=
  let s := Z.testbit bits (mw + ew) in
  let ex := Z.shiftr bits mw mod 2 ^ ew in
  let mant := bits mod 2 ^ mw in
  let emin := 3 - 2 ^ (ew - 1) - (mw + 1) in
  if ex =? 0 then
    match mant with Z.pos m => S754_finite s m emin | _ => S754_zero s end
  else if ex =? 2 ^ ew - 1 then
    if mant =? 0 then S754_infinity s else S754_nan
  else
    match mant + 2 ^ mw with
    | Z.pos m => S754_finite s m (ex - 1 + emin)
    | _ => S754_nan
    end.

Definition float_to_bits (mw ew : Z) (x : spec_float) : Z :=
  let sign (s : bool) := if s then 2 ^ (mw + ew) else 0 in
  let emin := 3 - 2 ^ (ew - 1) - (mw + 1) in
  match x with
  | S754_zero s => sign s
  | S754_infinity s => sign s + (2 ^ ew - 1) * 2 ^ mw
  | S754_nan => (2 ^ ew - 1) * 2 ^ mw + 2 ^ (mw - 1)
  | S754_finite s m e =>
      if Z.pos m <? 2 ^ mw then sign s + Z.pos m
      else sign s + (e - emin + 1) * 2 ^ mw + (Z.pos m - 2 ^ mw)
  end.

Definition f64_from_bits : Z -> f64 := float_of_bits 52 11.
Definition f64_to_bits : f64 -> Z := float_to_bits 52 11.
Definition f32_from_bits : Z -> spec_float := float_of_bits 23 8.
Definition f32_to_bits : spec_float -> Z := float_to_bits 23 8.

(** Re-round a value to another format: [f64::from(f32)] and [f64 as f32]. *)
Definition float_convert (prec emax : Z) (x : spec_float) : spec_float :=
  match x with
  | S754_finite s m e => binary_normalize prec emax (if s then Z.neg m else Z.pos m) e s
  | _ => x
  end.
Definition f64_of_f32 : spec_float -> f64 := float_convert prec64 emax64.
Definition f32_of_f64 : f64 -> spec_float := float_convert prec32 emax32.

(** The decimal number [(-1)^s * m * 10^e], correctly rounded: what
    [str::parse::<f64>] returns. *)
Definition f64_of_decimal (m e : Z) : f64 :=
  if m =? 0 then S754_zero false
  else if 0 <=? e then binary_normalize prec64 emax64 (m * 10 ^ e) 0 false
  else
    match m, 10 ^ (- e) with
    | Z.pos n, Z.pos d => f64_div (S754_finite false n 0) (S754_finite false d 0)
    | _, _ => S754_nan
    end.

(** * Facts *)

Lemma f64_to_int_range lo hi x : lo <= 0 <= hi -> lo <= f64_to_int lo hi x <= hi.
Proof. intros. destruct x as [| [] | |]; unfold f64_to_int, clamp; lia. Qed.

Lemma f64_to_usize_range x : 0 <= f64_to_usize x <= USIZE_MAX.
Proof. apply f64_to_int_range. const_range. Qed.

Lemma f64_to_i64_range x : i64_ok (f64_to_i64 x).
Proof. apply f64_to_int_range. const_range. Qed.

(** Spot checks of the definitions against Rust's documented behaviour. *)
Example f64_half : f64_mul (f64_of_Z 100) (f64_of_decimal 25 (-2)) = f64_of_Z 25.
Proof. vm_compute. reflexivity. Qed.
Example f64_round_half_away : f64_to_i64 (f64_round (f64_of_decimal 25 (-1))) = 3.
Proof. vm_compute. reflexivity. Qed.
Example f64_round_neg : f64_to_i64 (f64_round (f64_neg (f64_of_decimal 25 (-1)))) = -3.
Proof. vm_compute. reflexivity. Qed.
Example f64_floor_neg : f64_to_i64 (f64_floor (f64_neg (f64_of_decimal 21 (-1)))) = -3.
Proof. vm_compute. reflexivity. Qed.
Example f64_bits_one : f64_to_bits (f64_of_Z 1) = 0x3ff0000000000000.
Proof. vm_compute. reflexivity. Qed.
Example f64_bits_tenth : f64_to_bits (f64_of_decimal 1 (-1)) = 0x3fb999999999999a.
Proof. vm_compute. reflexivity. Qed.
Example f32_bits_tenth : f32_to_bits (f32_of_f64 (f64_of_decimal 1 (-1))) = 0x3dcccccd.
Proof. vm_compute. reflexivity. Qed.
Example f64_from_bits_roundtrip : f64_to_bits (f64_from_bits 0xc008000000000000) = 0xc008000000000000.
Proof. vm_compute. reflexivity. Qed.

(** * Bit patterns *)

Lemma digits2_pos_bounds m : 2 ^ (Z.pos (digits2_pos m) - 1) <= Z.pos m < 2 ^ Z.pos (digits2_pos m).
Proof.
  induction m as [m IH|m IH|]; cbn [digits2_pos]; [| |simpl; lia];
    rewrite Pos2Z.inj_succ;
    replace (Z.succ (Z.pos (digits2_pos m)) - 1) with (Z.succ (Z.pos (digits2_pos m) - 1)) by lia;
    rewrite !Z.pow_succ_r by lia; lia.
Qed.

(** A representable number is subnormal at the least exponent, or has a full
    mantissa. *)
Lemma valid_binary64_cases s m e :
  valid_binary prec64 emax64 (S754_finite s m e) = true ->
  (Z.pos m < 2 ^ 52 /\ e = -1074) \/ (2 ^ 52 <= Z.pos m < 2 ^ 53 /\ -1074 <= e <= 971).
Proof.
  cbn [valid_binary]. unfold bounded, canonical_mantissa, fexp, emin, prec64, emax64.
  pose proof (digits2_pos_bounds m) as Hd. intros H.
  assert (Z.max (Z.pos (digits2_pos m) + e - 53) (3 - 1024 - 53) = e) as Hmax by lia.
  destruct (Z.leb_spec 53 (Z.pos (digits2_pos m))).
  - right. replace (Z.pos (digits2_pos m)) with 53 in Hd by lia. split; [exact Hd|lia].
  - left. split; [|lia]. eapply Z.lt_le_trans; [apply Hd|]. apply Z.pow_le_mono_r; lia.
Qed.

Lemma bits_assembled s ex mant :
  0 <= mant < 2 ^ 52 -> 0 <= ex < 2 ^ 11 ->
  let bits := (if s : bool then 2 ^ 63 else 0) + ex * 2 ^ 52 + mant in
  0 <= bits < 2 ^ 64 /\ Z.testbit bits 63 = s /\ Z.shiftr bits 52 mod 2 ^ 11 = ex /\ bits mod 2 ^ 52 = mant.
Proof.
  intros Hm He bits. set (t := if s then 1 else 0).
  assert (bits = (t * 2 ^ 11 + ex) * 2 ^ 52 + mant) as Hb by (unfold bits, t; destruct s; lia).
  assert (bits / 2 ^ 52 = t * 2 ^ 11 + ex) as Hdiv by (symmetry; apply (Z.div_unique_pos _ _ _ mant); lia).
  assert (0 <= t <= 1) by (unfold t; destruct s; lia).
  split_and!; [lia..| | |].
  - rewrite Z.testbit_eqb by lia.
    assert (bits / 2 ^ 63 = t) as ->
      by (symmetry; apply (Z.div_unique_pos _ _ _ (ex * 2 ^ 52 + mant)); lia).
    unfold t. by destruct s.
  - rewrite Z.shiftr_div_pow2, Hdiv by lia. symmetry. apply (Z.mod_unique_pos _ _ t); lia.
  - symmetry. apply (Z.mod_unique_pos _ _ (t * 2 ^ 11 + ex)); lia.
Qed.

(** Every number, zero and infinity survives the trip through its bits. *)
Lemma f64_bits_inverse x :
  valid_binary prec64 emax64 x = true -> x <> S754_nan ->
  f64_from_bits (f64_to_bits x) = x /\ 0 <= f64_to_bits x < 2 ^ 64.
Proof.
  intros Hv Hn. unfold f64_from_bits, f64_to_bits, float_of_bits.
  change (52 + 11) with 63. change (3 - 2 ^ (11 - 1) - (52 + 1)) with (-1074).
  destruct x as [s|s| |s m e]; [| |done|].
  - destruct s; vm_compute; intuition congruence.
  - destruct s; vm_compute; intuition congruence.
  - destruct (valid_binary64_cases s m e Hv) as [[Hm ->]|[Hm He]]; unfold float_to_bits; cbn zeta.
    + change (3 - 2 ^ (11 - 1) - (52 + 1)) with (-1074). change (52 + 11) with 63.
      replace (Z.pos m <? 2 ^ 52) with true by lia.
      destruct (bits_assembled s 0 (Z.pos m) ltac:(lia) ltac:(lia)) as (Hr & H1 & H2 & H3).
      rewrite Z.mul_0_l, Z.add_0_r in *. by rewrite H1, H2, H3.
    + change (3 - 2 ^ (11 - 1) - (52 + 1)) with (-1074). change (52 + 11) with 63.
      replace (Z.pos m <? 2 ^ 52) with false by lia.
      destruct (bits_assembled s (e - -1074 + 1) (Z.pos m - 2 ^ 52) ltac:(lia) ltac:(lia)) as (Hr & H1 & H2 & H3).
      rewrite H1, H2, H3. split; [|done].
      replace (e - -1074 + 1 =? 0) with false by lia. replace (e - -1074 + 1 =? 2 ^ 11 - 1) with false by lia.
      replace (Z.pos m - 2 ^ 52 + 2 ^ 52) with (Z.pos m) by lia. f_equal. lia.
Qed.
