(* ===== verification/Frame.v ===== *)
(** Frames and the buffer pool: the model of [src/src/gige/stream/frame.rs]
    and of the link-health counters of [src/src/link.rs].

    A slot travels from the pool to the frame being filled, on to the
    delivered frame, and back to the pool when the last holder drops it. *)

From S2P Require Import Prelude Gvcp Gvsp Channel.

(** * Slots *)

Record PacketState := {
  received : bool; resend_requested : bool; resend_deadline : option Z }.

Definition PacketState_default : PacketState :=
  {| received := false; resend_requested := false; resend_deadline := None |}.

Record BufSlot := { slot_data : bytes; slot_packets : list PacketState }.

(** [Vec::resize]: truncate or fill up with the default. *)
Definition resize (l : list PacketState) (n : Z) : list PacketState :=
  take (Z.to_nat n) l ++ replicate (Z.to_nat n - length l) PacketState_default.

Definition BufSlot_reset (slot : BufSlot) (n_packets : Z) : BufSlot :=
  {| slot_data := slot_data slot; slot_packets := resize [] n_packets |}.

(** * The pool: a channel of free slots *)

Section pool.
Context {PC : Chan BufSlot}.

Definition FramePool_try_claim (pool : chan BufSlot) : option (BufSlot * chan BufSlot) :=
  try_recv pool.

(** Dropping a [PooledBuf] sends its slot home; a failed send drops it. *)
Definition PooledBuf_drop (slot : BufSlot) (pool : chan BufSlot) : chan BufSlot :=
  snd (try_send pool slot).
End pool.

(** [FramePool::new] on the reference queue: [n_buffers] zeroed slots. *)
Definition FramePool_new (n_buffers : nat) (payload_size : Z) : BoundedQueue BufSlot :=
  mkQueue (replicate n_buffers
             {| slot_data := replicate (Z.to_nat payload_size) 0; slot_packets := [] |})
    (Some n_buffers) true.

(** * Delivered frames *)

Inductive FrameStatus :=
| Complete | MissingPackets | Timeout | Aborted | WrongPacketId | PayloadUnsupported.

Global Instance FrameStatus_eq_dec : EqDecision FrameStatus.
Proof. solve_decision. Defined.

Inductive PayloadKind :=
| PkImage (has_chunks : bool)
| PkChunkData
| PkUnknown (payload_type : Z).

Record Frame := {
  fr_status : FrameStatus;
  fr_frame_id : Z;
  fr_payload : PayloadKind;
  fr_pixel_format : PixelFormat;
  fr_width : Z;
  fr_height : Z;
  fr_x_offset : Z;
  fr_y_offset : Z;
  fr_x_padding : Z;
  fr_y_padding : Z;
  fr_timestamp_ticks : Z;
  fr_timestamp_ns : Z;
  fr_system_timestamp_ns : Z;
  fr_received_size : Z;
  fr_data_end : Z;
  fr_slot : BufSlot }.

Definition Frame_data (f : Frame) : bytes :=
  let data := slot_data (fr_slot f) in
  take (Z.to_nat (Z.min (fr_data_end f) (zlen data))) data.

(** * Link-health counters *)

Record LinkCounters := mkLinkCounters {
  lc_gvcp_retransmits : Z; lc_frames_incomplete : Z; lc_frames_timed_out : Z }.

Definition LinkCounters_default : LinkCounters := mkLinkCounters 0 0 0.

Definition link_retransmit (c : LinkCounters) : LinkCounters :=
  mkLinkCounters (lc_gvcp_retransmits c + 1) (lc_frames_incomplete c) (lc_frames_timed_out c).
Definition link_frame_incomplete (c : LinkCounters) : LinkCounters :=
  mkLinkCounters (lc_gvcp_retransmits c) (lc_frames_incomplete c + 1) (lc_frames_timed_out c).
Definition link_frame_timed_out (c : LinkCounters) : LinkCounters :=
  mkLinkCounters (lc_gvcp_retransmits c) (lc_frames_incomplete c) (lc_frames_timed_out c + 1).

(** * Lemmas on [resize] *)

Lemma zlen_resize l n : 0 <= n -> zlen (resize l n) = n.
Proof. intros. unfold resize, zlen. rewrite length_app, length_take, length_replicate. lia. Qed.

(** A packet state survives the resize when its index does, and new indices
    start out unreceived. *)
Lemma resize_lookup l n i :
  0 <= n ->
  resize l n !! i =
  if decide (Z.of_nat i < n)
  then Some (default PacketState_default (l !! i))
  else None.
Proof.
  intros Hn. unfold resize. case_decide.
  - destruct (decide (i < length l)%nat).
    + rewrite lookup_app_l by (rewrite length_take; lia).
      rewrite lookup_take_lt by lia.
      destruct (lookup_lt_is_Some_2 l i) as [x ->]; [done|]. done.
    + rewrite lookup_app_r by (rewrite length_take; lia).
      rewrite length_take, lookup_replicate_2 by lia.
      by rewrite (lookup_ge_None_2 l i) by lia.
  - apply lookup_ge_None_2. pose proof (zlen_resize l n Hn) as E. unfold resize, zlen in E. lia.
Qed.
