(* ===== verification/Reassembly.v ===== *)
(** The GVSP receiver worker: the model of [src/src/gige/stream/runner.rs] and
    of the configuration and counters of [src/src/gige/stream/mod.rs].

    The state is the worker's own ([StreamRunner], [FrameInFlight]), one
    definition per method.  An operation returns [None] where the source would
    panic (an index out of range, an unsigned subtraction below zero, a
    division by zero), so that "never panics" is a theorem and not an
    assumption.  Three fields are not in the source struct: [r_published] is
    the snapshot behind the shared mutex, [r_link] the shared link counters,
    and [r_sent] / [r_delivered] log the effects (datagrams handed to the
    socket, frames handed to the subscribers), in order.

    Instants and durations are nanoseconds.  The clocks are arguments.
    [missing_frames], which one packet can raise by almost 2^64, wraps at 64
    bits, as in a build without overflow checks; the other counters grow by at
    most the packets of a frame, the bytes of a datagram or the number of
    subscribers at a time and are kept unbounded. *)

From Stdlib Require Import SpecFloat.
From S2P Require Import Prelude Gvcp Gvsp Channel Float64 Frame.

(** * Configuration and counters *)

Inductive PacketSize := PsAuto | PsFixed (size : Z).
Inductive ResendPolicy := RpAlways | RpNever.

Record StreamConfig := {
  cfg_channel : Z;
  cfg_payload_size : option Z;
  cfg_n_buffers : Z;
  cfg_packet_size : PacketSize;
  cfg_packet_delay : option Z;
  cfg_resend : ResendPolicy;
  cfg_initial_packet_timeout : Z;
  cfg_packet_timeout : Z;
  cfg_frame_retention : Z;
  cfg_packet_request_ratio : f64 }.

Definition from_millis (ms : Z) : Z := ms * 1000000.

Definition StreamConfig_new : StreamConfig :=
  {| cfg_channel := 0; cfg_payload_size := None; cfg_n_buffers := 8;
     cfg_packet_size := PsAuto; cfg_packet_delay := None; cfg_resend := RpAlways;
     cfg_initial_packet_timeout := from_millis 1; cfg_packet_timeout := from_millis 20;
     cfg_frame_retention := from_millis 100;
     cfg_packet_request_ratio := f64_of_decimal 25 (-2) |}.

Record StreamStats := mkStats {
  st_packets : Z;
  st_bytes_ : Z;
  st_completed_frames : Z;
  st_failed_frames : Z;
  st_timed_out_frames : Z;
  st_aborted_frames : Z;
  st_missing_frames : Z;
  st_underruns : Z;
  st_missing_packets : Z;
  st_resend_requests : Z;
  st_resent_packets : Z;
  st_resend_ratio_reached : Z;
  st_resend_disabled : Z;
  st_duplicated_packets : Z;
  st_error_packets : Z;
  st_ignored_packets : Z;
  st_unsupported_frames : Z;
  st_size_mismatch_errors : Z;
  st_frames_dropped : Z;
  st_socket_drops : Z }.

Definition StreamStats_eta (r : StreamStats) : StreamStats :=   mkStats (st_packets r) (st_bytes_ r)
  (st_completed_frames r) (st_failed_frames r) (st_timed_out_frames r) (st_aborted_frames r)
  (st_missing_frames r) (st_underruns r) (st_missing_packets r) (st_resend_requests r)
  (st_resent_packets r) (st_resend_ratio_reached r) (st_resend_disabled r) (st_duplicated_packets r)
  (st_error_packets r) (st_ignored_packets r) (st_unsupported_frames r) (st_size_mismatch_errors r)
  (st_frames_dropped r) (st_socket_drops r).
#[export] Instance set_st_packets : Setter st_packets := ltac:(derive_setter StreamStats_eta st_packets).
#[export] Instance set_st_bytes_ : Setter st_bytes_ := ltac:(derive_setter StreamStats_eta st_bytes_).
#[export] Instance set_st_completed_frames : Setter st_completed_frames := ltac:(derive_setter StreamStats_eta st_completed_frames).
#[export] Instance set_st_failed_frames : Setter st_failed_frames := ltac:(derive_setter StreamStats_eta st_failed_frames).
#[export] Instance set_st_timed_out_frames : Setter st_timed_out_frames := ltac:(derive_setter StreamStats_eta st_timed_out_frames).
#[export] Instance set_st_aborted_frames : Setter st_aborted_frames := ltac:(derive_setter StreamStats_eta st_aborted_frames).
#[export] Instance set_st_missing_frames : Setter st_missing_frames := ltac:(derive_setter StreamStats_eta st_missing_frames).
#[export] Instance set_st_underruns : Setter st_underruns := ltac:(derive_setter StreamStats_eta st_underruns).
#[export] Instance set_st_missing_packets : Setter st_missing_packets := ltac:(derive_setter StreamStats_eta st_missing_packets).
#[export] Instance set_st_resend_requests : Setter st_resend_requests := ltac:(derive_setter StreamStats_eta st_resend_requests).
#[export] Instance set_st_resent_packets : Setter st_resent_packets := ltac:(derive_setter StreamStats_eta st_resent_packets).
#[export] Instance set_st_resend_ratio_reached : Setter st_resend_ratio_reached := ltac:(derive_setter StreamStats_eta st_resend_ratio_reached).
#[export] Instance set_st_resend_disabled : Setter st_resend_disabled := ltac:(derive_setter StreamStats_eta st_resend_disabled).
#[export] Instance set_st_duplicated_packets : Setter st_duplicated_packets := ltac:(derive_setter StreamStats_eta st_duplicated_packets).
#[export] Instance set_st_error_packets : Setter st_error_packets := ltac:(derive_setter StreamStats_eta st_error_packets).
#[export] Instance set_st_ignored_packets : Setter st_ignored_packets := ltac:(derive_setter StreamStats_eta st_ignored_packets).
#[export] Instance set_st_unsupported_frames : Setter st_unsupported_frames := ltac:(derive_setter StreamStats_eta st_unsupported_frames).
#[export] Instance set_st_size_mismatch_errors : Setter st_size_mismatch_errors := ltac:(derive_setter StreamStats_eta st_size_mismatch_errors).
#[export] Instance set_st_frames_dropped : Setter st_frames_dropped := ltac:(derive_setter StreamStats_eta st_frames_dropped).
#[export] Instance set_st_socket_drops : Setter st_socket_drops := ltac:(derive_setter StreamStats_eta st_socket_drops).

Definition StreamStats_default : StreamStats :=
  mkStats 0 0 0 0 0 0 0 0 0 0 0 0 0 0 0 0 0 0 0 0.

(** [counter += 1]. *)
Definition inc (z : Z) : Z := z + 1.

(** * Constants *)

Definition DISCARD_LATE_FRAME_THRESHOLD : Z := 100.
Definition RESTART_BLOCK_ID : Z := 1.
Definition HISTORY_LEN : Z := 128.
Definition FINGERPRINTED_PACKETS : Z := 4.
Definition MAX_FRAME_PACKETS : Z := Z.shiftl 1 20.
Definition RESEND_ID_SEED : Z := 65300.

(** * Fingerprints of closed frames *)

Record Fingerprints := { fp_head : list (option Z); fp_trailer : option (Z * Z) }.

Definition Fingerprints_default : Fingerprints :=
  {| fp_head := replicate (Z.to_nat FINGERPRINTED_PACKETS) None; fp_trailer := None |}.

Record ClosedBlock := {
  cb_frame_id : Z; cb_extended_ids : bool; cb_fingerprints : option Fingerprints }.

(** The content hash ([DefaultHasher] over a content byte and the data),
    whose algorithm the standard library leaves unspecified. *)
Class PacketHasher := packet_hash : Z -> bytes -> Z.

Definition option_Z_eqb (a b : option Z) : bool := bool_decide (a = b).

Definition Fingerprints_record `{PacketHasher} (self : Fingerprints) (view : GvspView)
    (reference : option Fingerprints) : Fingerprints * bool :=
  let content := match v_content_type view with
                 | Leader => Some 1 | Trailer => Some 2 | Payload => Some 3 | _ => None end in
  match content with
  | None => (self, false)
  | Some content =>
      let fp := packet_hash content (v_data view) in
      if bool_decide (v_content_type view = Trailer) then
        let entry := Some (v_packet_id view, fp) in
        ({| fp_head := fp_head self; fp_trailer := entry |},
         match reference with
         | Some r => bool_decide (is_Some (fp_trailer r)) && negb (bool_decide (fp_trailer r = entry))
         | None => false
         end)
      else if v_packet_id view <? zlen (fp_head self) then
        ({| fp_head := <[Z.to_nat (v_packet_id view) := Some fp]> (fp_head self);
            fp_trailer := fp_trailer self |},
         match reference with
         | Some r =>
             match get_at (fp_head r) (v_packet_id view) with
             | Some (Some known) => negb (known =? fp)
             | _ => false
             end
         | None => false
         end)
      else (self, false)
  end.

(** * A frame being reassembled *)

Record FrameInFlight := mkFrameInFlight {
  f_frame_id : Z;
  f_extended_ids : bool;
  f_slot : BufSlot;
  f_n_packets : Z;
  f_block_size : Z;
  f_block_known : bool;
  f_held : list (Z * bytes);
  f_held_bytes : Z;
  f_trailer_seen : bool;
  f_last_valid_packet : Z;
  f_received_size : Z;
  f_data_end : Z;
  f_last_packet_time : Z;
  f_leader : option ImageLeader;
  f_system_timestamp_ns : Z;
  f_error : option FrameStatus;
  f_resend_disabled : bool;
  f_resend_ratio_reached : bool;
  f_n_resend_requests : Z;
  f_fingerprints : Fingerprints;
  f_replay_of : option Fingerprints;
  f_absorbed : Z }.

Definition FrameInFlight_eta (r : FrameInFlight) : FrameInFlight :=   mkFrameInFlight (f_frame_id r)
  (f_extended_ids r) (f_slot r) (f_n_packets r) (f_block_size r) (f_block_known r) (f_held r)
  (f_held_bytes r) (f_trailer_seen r) (f_last_valid_packet r) (f_received_size r) (f_data_end r)
  (f_last_packet_time r) (f_leader r) (f_system_timestamp_ns r) (f_error r) (f_resend_disabled r)
  (f_resend_ratio_reached r) (f_n_resend_requests r) (f_fingerprints r) (f_replay_of r) (f_absorbed
  r).
#[export] Instance set_f_frame_id : Setter f_frame_id := ltac:(derive_setter FrameInFlight_eta f_frame_id).
#[export] Instance set_f_extended_ids : Setter f_extended_ids := ltac:(derive_setter FrameInFlight_eta f_extended_ids).
#[export] Instance set_f_slot : Setter f_slot := ltac:(derive_setter FrameInFlight_eta f_slot).
#[export] Instance set_f_n_packets : Setter f_n_packets := ltac:(derive_setter FrameInFlight_eta f_n_packets).
#[export] Instance set_f_block_size : Setter f_block_size := ltac:(derive_setter FrameInFlight_eta f_block_size).
#[export] Instance set_f_block_known : Setter f_block_known := ltac:(derive_setter FrameInFlight_eta f_block_known).
#[export] Instance set_f_held : Setter f_held := ltac:(derive_setter FrameInFlight_eta f_held).
#[export] Instance set_f_held_bytes : Setter f_held_bytes := ltac:(derive_setter FrameInFlight_eta f_held_bytes).
#[export] Instance set_f_trailer_seen : Setter f_trailer_seen := ltac:(derive_setter FrameInFlight_eta f_trailer_seen).
#[export] Instance set_f_last_valid_packet : Setter f_last_valid_packet := ltac:(derive_setter FrameInFlight_eta f_last_valid_packet).
#[export] Instance set_f_received_size : Setter f_received_size := ltac:(derive_setter FrameInFlight_eta f_received_size).
#[export] Instance set_f_data_end : Setter f_data_end := ltac:(derive_setter FrameInFlight_eta f_data_end).
#[export] Instance set_f_last_packet_time : Setter f_last_packet_time := ltac:(derive_setter FrameInFlight_eta f_last_packet_time).
#[export] Instance set_f_leader : Setter f_leader := ltac:(derive_setter FrameInFlight_eta f_leader).
#[export] Instance set_f_system_timestamp_ns : Setter f_system_timestamp_ns := ltac:(derive_setter FrameInFlight_eta f_system_timestamp_ns).
#[export] Instance set_f_error : Setter f_error := ltac:(derive_setter FrameInFlight_eta f_error).
#[export] Instance set_f_resend_disabled : Setter f_resend_disabled := ltac:(derive_setter FrameInFlight_eta f_resend_disabled).
#[export] Instance set_f_resend_ratio_reached : Setter f_resend_ratio_reached := ltac:(derive_setter FrameInFlight_eta f_resend_ratio_reached).
#[export] Instance set_f_n_resend_requests : Setter f_n_resend_requests := ltac:(derive_setter FrameInFlight_eta f_n_resend_requests).
#[export] Instance set_f_fingerprints : Setter f_fingerprints := ltac:(derive_setter FrameInFlight_eta f_fingerprints).
#[export] Instance set_f_replay_of : Setter f_replay_of := ltac:(derive_setter FrameInFlight_eta f_replay_of).
#[export] Instance set_f_absorbed : Setter f_absorbed := ltac:(derive_setter FrameInFlight_eta f_absorbed).

(** Unsigned subtraction: [None] is the overflow panic. *)
Definition checked_sub (a b : Z) : option Z := if b <=? a then Some (a - b) else None.

(** Write [data] into the frame's buffer at [offset]. *)
Definition write_block (f : FrameInFlight) (offset : Z) (data : bytes) : option FrameInFlight :=
  _ ← get_range (slot_data (f_slot f)) offset (offset + zlen data);
  let slot := {| slot_data := splice (slot_data (f_slot f)) offset data;
                 slot_packets := slot_packets (f_slot f) |} in
  Some (f <| f_slot := slot |> <| f_received_size ::= Z.add (zlen data) |>
          <| f_data_end ::= Z.max (offset + zlen data) |>).

Definition FrameInFlight_set_n_packets (f : FrameInFlight) (n : Z) : FrameInFlight :=
  f <| f_n_packets := n |>
    <| f_slot := {| slot_data := slot_data (f_slot f);
                    slot_packets := resize (slot_packets (f_slot f)) n |} |>
    <| f_last_valid_packet ::= Z.min (n - 1) |>.

Definition FrameInFlight_place (f : FrameInFlight) (packet_id : Z) (data : bytes)
    (stats : StreamStats) : option (FrameInFlight * StreamStats) :=
  if f_block_size f <? zlen data then
    Some (f <| f_error := Some WrongPacketId |>, stats <| st_size_mismatch_errors ::= inc |>)
  else
    block ← checked_sub packet_id 1;
    let offset := block * f_block_size f in
    if USIZE_MAX <? offset then Some (f <| f_error := Some WrongPacketId |>, stats)
    else
      let capacity := zlen (slot_data (f_slot f)) in
      if capacity <? saturating_add offset (zlen data) then
        final ← checked_sub (f_n_packets f) 2;
        let stats := if packet_id =? final then stats
                     else stats <| st_size_mismatch_errors ::= inc |> in
        if capacity <=? offset then Some (f, stats)
        else
          f ← write_block f offset (take (Z.to_nat (capacity - offset)) data);
          Some (f, stats)
      else f ← write_block f offset data; Some (f, stats).

(** * Block ids *)

Definition block_id_distance (id last : Z) (extended_ids : bool) : Z :=
  let max := if extended_ids then U64_MAX else U16_MAX in
  let id := Z.land id max in
  let last := Z.land last max in
  let modulus := max + (if (id =? 0) || (last =? 0) then 1 else 0) in
  let ahead := (id + modulus - last) mod modulus in
  if ahead <=? modulus / 2 then (if ahead <=? I64_MAX then ahead else I64_MAX)
  else if modulus - ahead <=? I64_MAX then - (modulus - ahead) else I64_MIN.

Inductive Arrival := ArrNew | ArrLate | ArrMaybeReplay (fp : Fingerprints).

(** What the receive call reports for one datagram; the source address is
    compared by IP only.  [RecvReset] is a connection reset or refused. *)
Inductive RecvResult :=
| RecvDatagram (from_ip : Z) (datagram : bytes) (drops : option Z) (now sys_ns : Z)
| RecvWouldBlock
| RecvInterrupted
| RecvReset
| RecvFailed.

(** * The receiver *)

Section receiver.
Context {FC : Chan Frame} {PC : Chan BufSlot}.

Inductive ToStreamWorker := Subscribe (tx : chan Frame) | Shutdown.

Context {CC : Chan ToStreamWorker}.

Record StreamRunner := mkRunner {
  r_device_ip : Z;
  r_rx : chan (ToStreamWorker);
  r_pool : chan BufSlot;
  r_frames : list FrameInFlight;
  r_subscribers : list (chan Frame);
  r_shutdown_requested : bool;
  r_stats : StreamStats;
  r_scps_packet_size : Z;
  r_payload_size : Z;
  r_resend_enabled : bool;
  r_resend_id : Z;
  r_last_frame_id : Z;
  r_first_packet : bool;
  r_history : list ClosedBlock;
  r_tick_frequency : Z;
  r_cfg : StreamConfig;
  r_published : StreamStats;
  r_link : LinkCounters;
  r_sent : list bytes;
  r_delivered : list Frame }.

Definition StreamRunner_eta (r : StreamRunner) : StreamRunner :=   mkRunner (r_device_ip r) (r_rx r)
  (r_pool r) (r_frames r) (r_subscribers r) (r_shutdown_requested r) (r_stats r) (r_scps_packet_size
  r) (r_payload_size r) (r_resend_enabled r) (r_resend_id r) (r_last_frame_id r) (r_first_packet r)
  (r_history r) (r_tick_frequency r) (r_cfg r) (r_published r) (r_link r) (r_sent r) (r_delivered
  r).
#[export] Instance set_r_device_ip : Setter r_device_ip := ltac:(derive_setter StreamRunner_eta r_device_ip).
#[export] Instance set_r_rx : Setter r_rx := ltac:(derive_setter StreamRunner_eta r_rx).
#[export] Instance set_r_pool : Setter r_pool := ltac:(derive_setter StreamRunner_eta r_pool).
#[export] Instance set_r_frames : Setter r_frames := ltac:(derive_setter StreamRunner_eta r_frames).
#[export] Instance set_r_subscribers : Setter r_subscribers := ltac:(derive_setter StreamRunner_eta r_subscribers).
#[export] Instance set_r_shutdown_requested : Setter r_shutdown_requested := ltac:(derive_setter StreamRunner_eta r_shutdown_requested).
#[export] Instance set_r_stats : Setter r_stats := ltac:(derive_setter StreamRunner_eta r_stats).
#[export] Instance set_r_scps_packet_size : Setter r_scps_packet_size := ltac:(derive_setter StreamRunner_eta r_scps_packet_size).
#[export] Instance set_r_payload_size : Setter r_payload_size := ltac:(derive_setter StreamRunner_eta r_payload_size).
#[export] Instance set_r_resend_enabled : Setter r_resend_enabled := ltac:(derive_setter StreamRunner_eta r_resend_enabled).
#[export] Instance set_r_resend_id : Setter r_resend_id := ltac:(derive_setter StreamRunner_eta r_resend_id).
#[export] Instance set_r_last_frame_id : Setter r_last_frame_id := ltac:(derive_setter StreamRunner_eta r_last_frame_id).
#[export] Instance set_r_first_packet : Setter r_first_packet := ltac:(derive_setter StreamRunner_eta r_first_packet).
#[export] Instance set_r_history : Setter r_history := ltac:(derive_setter StreamRunner_eta r_history).
#[export] Instance set_r_tick_frequency : Setter r_tick_frequency := ltac:(derive_setter StreamRunner_eta r_tick_frequency).
#[export] Instance set_r_cfg : Setter r_cfg := ltac:(derive_setter StreamRunner_eta r_cfg).
#[export] Instance set_r_published : Setter r_published := ltac:(derive_setter StreamRunner_eta r_published).
#[export] Instance set_r_link : Setter r_link := ltac:(derive_setter StreamRunner_eta r_link).
#[export] Instance set_r_sent : Setter r_sent := ltac:(derive_setter StreamRunner_eta r_sent).
#[export] Instance set_r_delivered : Setter r_delivered := ltac:(derive_setter StreamRunner_eta r_delivered).

(** ** Commands and counters *)

Definition publish_stats (s : StreamRunner) : StreamRunner := s <| r_published := r_stats s |>.

Definition apply_command (s : StreamRunner) (c : ToStreamWorker) : StreamRunner :=
  match c with
  | Subscribe tx => s <| r_subscribers ::= fun l => l ++ [tx] |>
  | Shutdown => s <| r_shutdown_requested := true |>
  end.

Definition drain_commands (s : StreamRunner) : StreamRunner :=
  let '(cmds, rx) := recv_all (r_rx s) in
  foldl apply_command (s <| r_rx := rx |>) cmds.

Definition poll_timeout (s : StreamRunner) : Z :=
  match r_frames s with [] => from_millis 100 | _ => cfg_packet_timeout (r_cfg s) end.

(** ** Resend requests *)

Definition send_resend_request (s : StreamRunner) (frame_id first last : Z)
    (extended_ids : bool) : StreamRunner :=
  let s := s <| r_resend_id ::= fun id => if id =? U16_MAX then RESEND_ID_SEED else id + 1 |> in
  s <| r_sent ::= fun l =>
         l ++ [encode_packet_resend frame_id first last extended_ids (r_resend_id s)] |>.

(** The scan of [missing_packet_check]: [k] iterations from packet [i].  The
    result is the frame, the ranges to request, and whether the request ratio
    was reached (which ends the scan and requests nothing). *)
Record Scan := mkScan {
  sc_frame : FrameInFlight; sc_first : option Z; sc_ranges : list (Z * Z); sc_ratio : bool }.

Definition packet_update (f : FrameInFlight) (i : Z) (g : PacketState -> PacketState) : FrameInFlight :=
  f <| f_slot ::= fun slot => {| slot_data := slot_data slot;
                                 slot_packets := alter g (Z.to_nat i) (slot_packets slot) |} |>.

(** Set the request flag and a new deadline on packets [first..=last]. *)
Fixpoint mark_requested (f : FrameInFlight) (first : Z) (n : nat) (deadline : Z) : FrameInFlight :=
  match n with
  | O => f
  | S n =>
      mark_requested
        (packet_update f first (fun p => {| received := received p; resend_requested := true;
                                            resend_deadline := Some deadline |}))
        (first + 1) n deadline
  end.

Definition scan_step (cfg : StreamConfig) (now packet_id max_requests i : Z) (sc : Scan)
    : option Scan :=
  let f := sc_frame sc in
  '((f, need_resend) : FrameInFlight * bool) ←
    (if i <=? packet_id then
       p ← get_at (slot_packets (f_slot f)) i;
       if received p then Some (f, false)
       else
         let deadline := default (now + cfg_initial_packet_timeout cfg) (resend_deadline p) in
         Some (packet_update f i (fun p => {| received := received p;
                 resend_requested := resend_requested p; resend_deadline := Some deadline |}),
               deadline <? now)
     else Some (f, false));
  let first := match sc_first sc with
               | Some first => Some first
               | None => if need_resend then Some i else None
               end in
  if (packet_id <? i) || negb need_resend then
    match first with
    | None => Some (mkScan f None (sc_ranges sc) false)
    | Some first =>
        let last := i - 1 in
        let n_missing := last - first + 1 in
        if max_requests <? f_n_resend_requests f + n_missing then
          Some (mkScan (f <| f_n_resend_requests ::= Z.add n_missing |>
                          <| f_resend_ratio_reached := true |>) None (sc_ranges sc) true)
        else
          let f := f <| f_n_resend_requests ::= Z.add n_missing |> in
          let f := mark_requested f first (Z.to_nat n_missing) (now + cfg_packet_timeout cfg) in
          Some (mkScan f None (sc_ranges sc ++ [(first, last)]) false)
    end
  else Some (mkScan f first (sc_ranges sc) false).

Fixpoint scan (cfg : StreamConfig) (now packet_id max_requests : Z) (k : nat) (i : Z) (sc : Scan)
    : option Scan :=
  match k with
  | O => Some sc
  | S k =>
      sc ← scan_step cfg now packet_id max_requests i sc;
      if sc_ratio sc then Some sc else scan cfg now packet_id max_requests k (i + 1) sc
  end.

Definition missing_packet_check (s : StreamRunner) (index : nat) (packet_id now : Z)
    : option StreamRunner :=
  f ← r_frames s !! index;
  if negb (r_resend_enabled s) || f_resend_disabled f || f_resend_ratio_reached f then Some s
  else
    let max_requests :=
      f64_to_usize (f64_mul (f64_of_Z (f_n_packets f)) (cfg_packet_request_ratio (r_cfg s))) in
    if max_requests =? 0 then Some s
    else if f_n_packets f <=? packet_id then Some s
    else
      let i := Z.max (f_last_valid_packet f + 1) 0 in
      sc ← scan (r_cfg s) now packet_id max_requests (Z.to_nat (packet_id + 2 - i)) i
             (mkScan f None [] false);
      let s := s <| r_frames ::= <[index := sc_frame sc]> |> in
      if sc_ratio sc then Some (s <| r_stats ::= fun st => st <| st_resend_ratio_reached ::= inc |> |>)
      else
        Some (foldl (fun s '(first, last) =>
          (send_resend_request s (f_frame_id f) (wrap 32 first) (wrap 32 last) (f_extended_ids f))
            <| r_stats ::= fun st => st <| st_resend_requests ::= Z.add (last - first + 1) |> |>)
          s (sc_ranges sc)).

(** ** Closing and discarding frames *)

Definition remember (s : StreamRunner) (frame_id : Z) (extended_ids : bool)
    (fingerprints : option Fingerprints) : StreamRunner :=
  let s := if HISTORY_LEN <=? zlen (r_history s) then s <| r_history ::= tail |> else s in
  s <| r_history ::= fun h => h ++ [{| cb_frame_id := frame_id; cb_extended_ids := extended_ids;
                                       cb_fingerprints := fingerprints |}] |>.

(** [subscribers.retain(..)]: who stays, how many were full, whether anyone
    took the frame. *)
Fixpoint fan_out (subs : list (chan Frame)) (out : Frame) : list (chan Frame) * Z * bool :=
  match subs with
  | [] => ([], 0, false)
  | tx :: subs =>
      let '(outcome, tx) := try_send tx out in
      let '(rest, dropped, taken) := fan_out subs out in
      match outcome with
      | Sent => (tx :: rest, dropped, true)
      | Full => (tx :: rest, dropped + 1, taken)
      | Disconnected => (rest, dropped, taken)
      end
  end.

Definition close_counters (s : StreamRunner) (status : FrameStatus) (f : FrameInFlight)
    : StreamRunner :=
  let s :=
    match status with
    | Complete => s <| r_stats ::= fun st => st <| st_completed_frames ::= inc |> |>
    | Timeout =>
        s <| r_stats ::= fun st => st <| st_timed_out_frames ::= inc |> <| st_failed_frames ::= inc |> |>
          <| r_link ::= link_frame_timed_out |>
    | Aborted => s <| r_stats ::= fun st => st <| st_aborted_frames ::= inc |> |>
    | _ => s <| r_stats ::= fun st => st <| st_failed_frames ::= inc |> |>
             <| r_link ::= link_frame_incomplete |>
    end in
  if bool_decide (status = Complete) || bool_decide (status = Aborted) then s
  else s <| r_stats ::= fun st => st <| st_missing_packets ::=
           Z.add (Z.max 0 (f_n_packets f - (f_last_valid_packet f + 1))) |> |>.

Definition payload_kind (leader : option ImageLeader) : PayloadKind :=
  match leader with
  | Some l =>
      if (il_payload_type l =? PAYLOAD_TYPE_IMAGE)
         || (il_payload_type l =? PAYLOAD_TYPE_EXTENDED_CHUNK_DATA)
      then PkImage (il_has_chunks l)
      else if il_payload_type l =? PAYLOAD_TYPE_CHUNK_DATA then PkChunkData
      else PkUnknown (il_payload_type l)
  | None => PkUnknown 0
  end.

Definition make_frame (s : StreamRunner) (status : FrameStatus) (f : FrameInFlight) : Frame :=
  let leader := f_leader f in
  let map_or (d : Z) (g : ImageLeader -> Z) := match leader with Some l => g l | None => d end in
  let timestamp_ticks := map_or 0 il_timestamp_ticks in
  {| fr_status := status; fr_frame_id := f_frame_id f; fr_payload := payload_kind leader;
     fr_pixel_format := map_or PixelFormat_default il_pixel_format;
     fr_width := map_or 0 il_width; fr_height := map_or 0 il_height;
     fr_x_offset := map_or 0 il_x_offset; fr_y_offset := map_or 0 il_y_offset;
     fr_x_padding := map_or 0 il_x_padding; fr_y_padding := map_or 0 il_y_padding;
     fr_timestamp_ticks := timestamp_ticks;
     fr_timestamp_ns := if r_tick_frequency s =? 0 then f_system_timestamp_ns f
                        else timestamp_to_ns timestamp_ticks (r_tick_frequency s);
     fr_system_timestamp_ns := f_system_timestamp_ns f;
     fr_received_size := f_received_size f; fr_data_end := f_data_end f;
     fr_slot := f_slot f |}.

Definition close_frame (s : StreamRunner) (index : nat) (status : FrameStatus)
    : option StreamRunner :=
  let s := drain_commands s in
  f ← r_frames s !! index;
  let s := s <| r_frames ::= delete index |> in
  let s := remember s (f_frame_id f) (f_extended_ids f) (Some (f_fingerprints f)) in
  let s := close_counters s status f in
  let out := make_frame s status f in
  let s := publish_stats s in
  let '(subs, dropped, taken) := fan_out (r_subscribers s) out in
  let s := s <| r_subscribers := subs |> <| r_delivered ::= fun l => l ++ [out] |> in
  let s := if 0 <? dropped
           then publish_stats (s <| r_stats ::= fun st => st <| st_frames_dropped ::= Z.add dropped |> |>)
           else s in
  (* With no subscriber holding it the last reference drops here. *)
  Some (if taken then s else s <| r_pool ::= PooledBuf_drop (f_slot f) |>).

Definition discard_frame (s : StreamRunner) (index : nat) : option StreamRunner :=
  f ← r_frames s !! index;
  Some (s <| r_frames ::= delete index |> <| r_pool ::= PooledBuf_drop (f_slot f) |>).

(** [iter().position(..)]. *)
Definition position {A} (p : A -> bool) (l : list A) : option nat :=
  fst <$> list_find (fun x => p x = true) l.

Definition is_provisional (f : FrameInFlight) : bool :=
  match f_replay_of f with Some _ => true | None => false end.

Fixpoint discard_provisional_n (n : nat) (s : StreamRunner) : option StreamRunner :=
  match position is_provisional (r_frames s), n with
  | None, _ => Some s
  | Some _, O => Some s
  | Some i, S n => s ← discard_frame s i; discard_provisional_n n s
  end.

Definition discard_provisional (s : StreamRunner) : option StreamRunner :=
  discard_provisional_n (length (r_frames s)) s.

Fixpoint abort_frames_n (n : nat) (s : StreamRunner) : option StreamRunner :=
  match r_frames s, n with
  | [], _ => Some s
  | _ :: _, O => Some s
  | _ :: _, S n => s ← close_frame s 0 Aborted; abort_frames_n n s
  end.

Definition flush_frames (s : StreamRunner) : option StreamRunner :=
  s ← discard_provisional s;
  abort_frames_n (length (r_frames s)) s.

(** ** Opening frames *)

Definition classify_behind (s : StreamRunner) (view : GvspView) : Arrival :=
  if negb (v_frame_id view =? RESTART_BLOCK_ID) then ArrLate
  else
    match List.find (fun c => (cb_frame_id c =? v_frame_id view)
                              && Bool.eqb (cb_extended_ids c) (v_extended_ids view))
            (reverse (r_history s)) with
    | None => ArrNew
    | Some c => match cb_fingerprints c with None => ArrLate | Some fp => ArrMaybeReplay fp end
    end.

Definition packet_limit (s : StreamRunner) : Z :=
  Z.min (saturating_add (r_payload_size s) 2) MAX_FRAME_PACKETS.

Definition block_estimate (s : StreamRunner) (view : GvspView) : Z :=
  saturating_sub (r_scps_packet_size s) (packet_protocol_overhead (v_extended_ids view)).

Definition compute_n_expected_packets (s : StreamRunner) (view : GvspView) : Z :=
  let block_size := block_estimate s view in
  if block_size =? 0 then 0
  else
    let estimate := Z.min (div_ceil (r_payload_size s) block_size + 2) MAX_FRAME_PACKETS in
    match v_content_type view with
    | Leader =>
        match il_payload_type <$> ImageLeader_parse (v_data view) with
        | Some t =>
            if (t =? PAYLOAD_TYPE_IMAGE) || (t =? PAYLOAD_TYPE_CHUNK_DATA)
               || (t =? PAYLOAD_TYPE_EXTENDED_CHUNK_DATA)
            then estimate else 0
        | None => 0
        end
    | Payload => estimate
    | Trailer =>
        let n := v_packet_id view + 1 in
        if (2 <=? n) && (n <=? packet_limit s) then n else estimate
    | AllIn => 1
    | _ => 0
    end.

Definition ignore_packet (s : StreamRunner) : StreamRunner :=
  s <| r_stats ::= fun st => st <| st_ignored_packets ::= inc |> |>.

Definition new_frame (s : StreamRunner) (view : GvspView) (now : Z) (slot : BufSlot)
    (n_packets : Z) (replay_of : option Fingerprints) : FrameInFlight :=
  {| f_frame_id := v_frame_id view; f_extended_ids := v_extended_ids view; f_slot := slot;
     f_n_packets := n_packets; f_block_size := block_estimate s view; f_block_known := false;
     f_held := []; f_held_bytes := 0; f_trailer_seen := false; f_last_valid_packet := -1;
     f_received_size := 0; f_data_end := 0; f_last_packet_time := now; f_leader := None;
     f_system_timestamp_ns := 0; f_error := None;
     f_resend_disabled := match replay_of with Some _ => true | None => false end;
     f_resend_ratio_reached := false; f_n_resend_requests := 0;
     f_fingerprints := Fingerprints_default; f_replay_of := replay_of; f_absorbed := 0 |}.

(** The part of [find_or_create_frame] after the arrival is classified. *)
Definition create_frame (s : StreamRunner) (view : GvspView) (now inc_ : Z)
    (replay_of : option Fingerprints) : option (StreamRunner * option nat) :=
  let provisional := match replay_of with Some _ => true | None => false end in
  s ← (if provisional then Some s else discard_provisional s);
  let n_packets := compute_n_expected_packets s view in
  if n_packets =? 0 then
    let s := ignore_packet s in
    if provisional then Some (s, None)
    else
      let s := s <| r_stats ::= fun st => st <| st_unsupported_frames ::= inc |> |>
                 <| r_last_frame_id := v_frame_id view |> in
      Some (remember s (v_frame_id view) (v_extended_ids view) None, None)
  else
    match FramePool_try_claim (r_pool s) with
    | None =>
        if provisional then Some (ignore_packet s, None)
        else
          let s := s <| r_stats ::= fun st => st <| st_underruns ::= inc |> |>
                     <| r_last_frame_id := v_frame_id view |> in
          Some (remember s (v_frame_id view) (v_extended_ids view) None, None)
    | Some (slot, pool) =>
        let s := s <| r_pool := pool |> in
        let slot := BufSlot_reset slot n_packets in
        let s :=
          if provisional then s
          else
            let s := if 1 <? inc_
                     then s <| r_stats ::= fun st => st <| st_missing_frames ::= fun n => wrap 64 (n + (inc_ - 1)) |> |>
                     else s in
            s <| r_last_frame_id := v_frame_id view |> in
        let f := new_frame s view now slot n_packets replay_of in
        Some (s <| r_frames ::= fun l => l ++ [f] |>, Some (length (r_frames s)))
    end.

Definition find_or_create_frame (s : StreamRunner) (view : GvspView) (now : Z)
    : option (StreamRunner * option nat) :=
  match position (fun f => f_frame_id f =? v_frame_id view) (r_frames s) with
  | Some i => Some (s <| r_frames ::= alter (fun f => f <| f_last_packet_time := now |>) i |>, Some i)
  | None =>
      let inc_ := block_id_distance (v_frame_id view) (r_last_frame_id s) (v_extended_ids view) in
      if (inc_ <? 1) && (- DISCARD_LATE_FRAME_THRESHOLD <? inc_) then
        match classify_behind s view with
        | ArrNew => create_frame s view now inc_ None
        | ArrMaybeReplay fp => create_frame s view now inc_ (Some fp)
        | ArrLate => Some (ignore_packet s, None)
        end
      else create_frame s view now inc_ None
  end.

(** ** The three packet kinds *)

Definition process_leader (f : FrameInFlight) (view : GvspView) (sys_ns : Z) : FrameInFlight :=
  match f_error f with
  | Some _ => f
  | None =>
      if negb (v_packet_id view =? 0) then f <| f_error := Some WrongPacketId |>
      else f <| f_system_timestamp_ns := sys_ns |> <| f_leader := ImageLeader_parse (v_data view) |>
  end.

Fixpoint place_held (held : list (Z * bytes)) (f : FrameInFlight) (stats : StreamStats)
    : option (FrameInFlight * StreamStats) :=
  match held with
  | [] => Some (f, stats)
  | (id, data) :: held =>
      match f_error f with
      | Some _ => Some (f, stats)
      | None =>
          if saturating_sub (f_n_packets f) 2 <? id
          then Some (f <| f_error := Some WrongPacketId |>, stats)
          else
            '(f, stats) ← FrameInFlight_place f id data stats;
            place_held held f stats
      end
  end.

(** Payload packet 1 fixes the block size and with it the packet count. *)
Definition learn_block (payload_size : Z) (f : FrameInFlight) (data : bytes)
    : option (FrameInFlight * bool) :=
  let f := f <| f_block_known := true |> in
  let f := match data with [] => f | _ => f <| f_block_size := zlen data |> end in
  if f_block_size f =? 0 then None
  else
    let fits := div_ceil payload_size (f_block_size f) + 2 in
    if negb (f_trailer_seen f) then
      Some (FrameInFlight_set_n_packets f (Z.min fits MAX_FRAME_PACKETS), true)
    else if fits <? f_n_packets f then Some (f <| f_error := Some WrongPacketId |>, false)
    else Some (f, true).

Definition process_payload (s : StreamRunner) (f : FrameInFlight) (view : GvspView)
    : option (FrameInFlight * StreamStats) :=
  let stats := r_stats s in
  match f_error f with
  | Some _ => Some (f, stats)
  | None =>
      let packet_id := v_packet_id view in
      '(f, go_on) ← (if (packet_id =? 1) && negb (f_block_known f)
                     then learn_block (r_payload_size s) f (v_data view) else Some (f, true));
      if negb go_on then Some (f, stats)
      else
        last_payload ← (if f_block_known f || f_trailer_seen f
                        then Some (saturating_sub (f_n_packets f) 2)
                        else checked_sub (packet_limit s) 2);
        if (packet_id <? 1) || (last_payload <? packet_id) then
          Some (f <| f_error := Some WrongPacketId |>, stats)
        else if negb (f_block_known f) then
          let f := f <| f_held_bytes ::= Z.add (zlen (v_data view)) |> in
          if zlen (slot_data (f_slot f)) + MAXIMUM_PACKET_SIZE <? f_held_bytes f then
            Some (f <| f_error := Some WrongPacketId |>, stats <| st_size_mismatch_errors ::= inc |>)
          else
            let f := if f_n_packets f <? packet_id + 2
                     then FrameInFlight_set_n_packets f (packet_id + 2) else f in
            Some (f <| f_held ::= fun h => h ++ [(packet_id, v_data view)] |>, stats)
        else
          '(f, stats) ← FrameInFlight_place f packet_id (v_data view) stats;
          '(f, stats) ← place_held (f_held f) (f <| f_held := [] |>) stats;
          Some (f <| f_held_bytes := 0 |>, stats)
  end.

Definition process_trailer (s : StreamRunner) (f : FrameInFlight) (view : GvspView)
    : option FrameInFlight :=
  let f := f <| f_trailer_seen := true |> in
  match f_error f with
  | Some _ => Some f
  | None =>
      let packet_id := v_packet_id view in
      bound ← (if f_block_known f then
                 if f_block_size f =? 0 then None
                 else Some (Z.min (div_ceil (r_payload_size s) (f_block_size f) + 2) MAX_FRAME_PACKETS)
               else Some (packet_limit s));
      let contradicted := existsb received (drop (Z.to_nat packet_id) (slot_packets (f_slot f))) in
      if (packet_id <? 1) || (bound <=? packet_id) || contradicted then
        Some (f <| f_error := Some WrongPacketId |>)
      else if negb (f_n_packets f =? packet_id + 1)
      then Some (FrameInFlight_set_n_packets f (packet_id + 1))
      else Some f
  end.

(** ** Completion *)

Definition duration_since (now t : Z) : Z := Z.max 0 (now - t).

Definition completion_status (f : FrameInFlight) : FrameStatus :=
  default (if f_received_size f =? f_data_end f then Complete else MissingPackets) (f_error f).

(** One turn of the [while] loop of [check_frame_completion] at [index]: the
    new state, index and [can_close]. *)
Definition completion_step (s : StreamRunner) (now : Z) (current : option Z)
    (index : nat) (can_close : bool) : option (StreamRunner * nat * bool) :=
  f ← r_frames s !! index;
  let all_received := f_last_valid_packet f =? f_n_packets f - 1 in
  let idle := duration_since now (f_last_packet_time f) in
  if is_provisional f then
    if all_received || (cfg_frame_retention (r_cfg s) <=? idle)
    then s ← discard_frame s index; Some (s, index, can_close)
    else Some (s, S index, can_close)
  else if can_close && all_received then
    s ← close_frame s index (completion_status f); Some (s, index, can_close)
  else if can_close && negb (r_resend_enabled s)
          && existsb (fun g => negb (is_provisional g)) (drop (S index) (r_frames s)) then
    s ← close_frame s index MissingPackets; Some (s, index, can_close)
  else if can_close
          && (negb (f_frame_id f =? r_last_frame_id s) || negb (f_last_valid_packet f =? 0))
          && (cfg_frame_retention (r_cfg s) <=? idle) then
    s ← close_frame s index (default Timeout (f_error f)); Some (s, index, can_close)
  else if negb (bool_decide (current = Some (f_frame_id f)))
          && (cfg_packet_timeout (r_cfg s) <=? idle) then
    last ← checked_sub (wrap 32 (f_n_packets f)) 1;
    s ← missing_packet_check s index last now; Some (s, S index, false)
  else Some (s, S index, false).

Fixpoint completion_loop (fuel : nat) (s : StreamRunner) (now : Z) (current : option Z)
    (index : nat) (can_close : bool) : option StreamRunner :=
  if (length (r_frames s) <=? index)%nat then Some s
  else
    match fuel with
    | O => None
    | S fuel =>
        '(s, index, can_close) ← completion_step s now current index can_close;
        completion_loop fuel s now current index can_close
    end.

Definition check_frame_completion (s : StreamRunner) (now : Z) (current : option Z)
    : option StreamRunner :=
  completion_loop (length (r_frames s)) s now current 0 true.

(** ** One packet *)

Context {HS : PacketHasher}.

Definition adopt_restart (s : StreamRunner) (index : nat) : option StreamRunner :=
  f ← r_frames s !! index;
  Some (s <| r_frames ::= <[index := f <| f_replay_of := None |> <| f_resend_disabled := false |>]> |>
          <| r_stats ::= fun st => st <| st_ignored_packets ::=
               fun n => saturating_sub n (f_absorbed f) |> |>
          <| r_last_frame_id := f_frame_id f |>).

(** [last_valid_packet] after marking packets: advance over received ones. *)
Fixpoint advance_valid (n : nat) (packets : list PacketState) (i : Z) : Z :=
  match n with
  | O => i
  | S n =>
      match get_at packets i with
      | Some p => if received p then advance_valid n packets (i + 1) else i
      | None => i
      end
  end.

(** The packet is accounted for: mark it received, advance, fingerprint. *)
Definition accept_packet (s : StreamRunner) (index : nat) (view : GvspView)
    : option (StreamRunner * bool) :=
  f ← r_frames s !! index;
  let packet_id := v_packet_id view in
  '(f, stats) ←
    (if packet_id <? f_n_packets f then
       p ← get_at (slot_packets (f_slot f)) packet_id;
       Some (packet_update f packet_id (fun p => {| received := true;
               resend_requested := resend_requested p; resend_deadline := resend_deadline p |}),
             if resend_requested p then (r_stats s) <| st_resent_packets ::= inc |> else r_stats s)
     else Some (f, r_stats s));
  let f := f <| f_last_valid_packet ::= fun v =>
             advance_valid (Z.to_nat (f_n_packets f - (v + 1)))
               (slot_packets (f_slot f)) (v + 1) - 1 |> in
  let '(fps, diverged) := Fingerprints_record (f_fingerprints f) view (f_replay_of f) in
  Some (s <| r_frames ::= <[index := f <| f_fingerprints := fps |>]> |> <| r_stats := stats |>, diverged).

(** The dispatch on the content type; [None] inside is an unhandled type. *)
Definition dispatch_packet (s : StreamRunner) (index : nat) (view : GvspView) (sys_ns : Z)
    : option (option StreamRunner) :=
  f ← r_frames s !! index;
  match v_content_type view with
  | Leader => Some (Some (s <| r_frames ::= <[index := process_leader f view sys_ns]> |>))
  | Payload =>
      '(f, stats) ← process_payload s f view;
      Some (Some (s <| r_frames ::= <[index := f]> |> <| r_stats := stats |>))
  | Trailer =>
      f ← process_trailer s f view;
      Some (Some (s <| r_frames ::= <[index := f]> |>))
  | _ => Some None
  end.

Definition resend_gone (status : GvcpStatus) : bool :=
  (status =? STATUS_PACKET_UNAVAILABLE) || (status =? STATUS_PACKET_REMOVED_FROM_MEMORY)
  || (status =? STATUS_PACKET_AND_PREV_REMOVED_FROM_MEMORY).

(** The packet belongs to the open frame at [index]. *)
Definition process_in_frame (s : StreamRunner) (index : nat) (view : GvspView) (now sys_ns : Z)
    : option StreamRunner :=
  f ← r_frames s !! index;
  let provisional := is_provisional f in
  let s := if provisional
           then ignore_packet (s <| r_frames ::= <[index := f <| f_absorbed ::= inc |>]> |>)
           else s in
  if is_error (v_status view) then
    let s := if resend_gone (v_status view)
             then s <| r_frames ::= alter (fun f => f <| f_resend_disabled := true |>) index |>
                    <| r_stats ::= fun st => st <| st_resend_disabled ::= inc |> |>
             else s in
    Some (s <| r_stats ::= fun st => st <| st_error_packets ::= inc |> |>)
  else if match get_at (slot_packets (f_slot f)) (v_packet_id view) with
          | Some p => received p | None => false end then
    Some (if provisional then s
          else s <| r_stats ::= fun st => st <| st_duplicated_packets ::= inc |> |>)
  else
    r ← dispatch_packet s index view sys_ns;
    match r with
    | None => Some (if provisional then s else ignore_packet s)
    | Some s =>
        '(s, diverged) ← accept_packet s index view;
        s ← (if provisional && diverged then adopt_restart s index else Some s);
        s ← missing_packet_check s index (v_packet_id view) now;
        f ← r_frames s !! index;
        check_frame_completion s now (Some (f_frame_id f))
    end.

Definition process_packet (s : StreamRunner) (datagram : bytes) (now sys_ns : Z)
    : option StreamRunner :=
  match GvspView_parse datagram with
  | None => Some (ignore_packet s)
  | Some view =>
      let s := if r_first_packet s
               then s <| r_last_frame_id := wrap 64 (v_frame_id view - 1) |> <| r_first_packet := false |>
               else s in
      '(s, found) ← find_or_create_frame s view now;
      match found with
      | None => Some s
      | Some index => process_in_frame s index view now sys_ns
      end
  end.

(** ** The worker loop *)

Fixpoint drain_socket (s : StreamRunner) (input : list RecvResult) : option StreamRunner :=
  match input with
  | [] => Some s
  | RecvDatagram from_ip datagram drops now sys_ns :: input =>
      let s := match drops with
               | Some n => s <| r_stats ::= fun st => st <| st_socket_drops := n |> |>
               | None => s
               end in
      if negb (from_ip =? r_device_ip s) then drain_socket s input
      else
        let s := s <| r_stats ::= fun st => st <| st_packets ::= inc |>
                                               <| st_bytes_ ::= Z.add (zlen datagram) |> |> in
        s ← process_packet s datagram now sys_ns;
        drain_socket s input
  | RecvWouldBlock :: _ => Some s
  | RecvInterrupted :: input | RecvReset :: input => drain_socket s input
  | RecvFailed :: _ => Some s
  end.

(** One pass of [run] after [poll] returned; the Boolean says whether the
    loop goes on. *)
Definition run_pass (s : StreamRunner) (socket_ready : bool) (input : list RecvResult) (now : Z)
    : option (StreamRunner * bool) :=
  let s := drain_commands s in
  if r_shutdown_requested s then Some (s, false)
  else
    s ← (if socket_ready then drain_socket s input else Some s);
    s ← check_frame_completion s now None;
    Some (publish_stats s, true).

(** What [run] does after the loop. *)
Definition run_exit (s : StreamRunner) : option StreamRunner :=
  s ← flush_frames s;
  Some ((publish_stats s) <| r_subscribers := [] |>).

(** What one turn of [run] meets: the commands other threads have sent since
    the last one, whether the socket is ready, what it holds, the time. *)
Record Pass := mkPass {
  pass_commands : list ToStreamWorker;
  pass_ready : bool;
  pass_input : list RecvResult;
  pass_now : Z }.

Definition deliver_commands (s : StreamRunner) (cmds : list ToStreamWorker) : StreamRunner :=
  s <| r_rx ::= fun c => foldl (fun c x => snd (try_send c x)) c cmds |>.

(** The loop of [run]: passes until a shutdown command, or until the environment
    ends the thread (the end of the list), then the exit path. *)
Fixpoint run_loop (s : StreamRunner) (passes : list Pass) : option StreamRunner :=
  match passes with
  | [] => run_exit s
  | p :: passes =>
      let s := deliver_commands s (pass_commands p) in
      '((s, go_on) : StreamRunner * bool) ← run_pass s (pass_ready p) (pass_input p) (pass_now p);
      if go_on then run_loop s passes else run_exit s
  end.

(** The sums of a clock reading and the packet timeouts that
    [missing_packet_check] may compute are instants. *)
Definition clock_ok (cfg : StreamConfig) (now : Z) : bool :=
  (now + cfg_initial_packet_timeout cfg <=? INSTANT_MAX) && (now + cfg_packet_timeout cfg <=? INSTANT_MAX).

Definition recv_clock_ok (cfg : StreamConfig) (r : RecvResult) : bool :=
  match r with RecvDatagram _ _ _ now _ => clock_ok cfg now | _ => true end.

Definition pass_clock_ok (cfg : StreamConfig) (p : Pass) : bool :=
  clock_ok cfg (pass_now p) && forallb (recv_clock_ok cfg) (pass_input p).

(** [run].  The sums above panic when they pass the last instant: the model
    takes a run in which one of them would as panicking, whether or not the
    sum is computed. *)
Definition run (s : StreamRunner) (passes : list Pass) : option StreamRunner :=
  if forallb (pass_clock_ok (r_cfg s)) passes then run_loop s passes else None.

Definition runner_new (device_ip : Z) (rx : chan ToStreamWorker) (pool : chan BufSlot)
    (cfg : StreamConfig) (scps_packet_size payload_size : Z) (resend_enabled : bool)
    (tick_frequency : Z) : StreamRunner :=
  mkRunner device_ip rx pool [] [] false StreamStats_default scps_packet_size payload_size
    resend_enabled RESEND_ID_SEED 0 true [] tick_frequency cfg StreamStats_default
    LinkCounters_default [] [].
End receiver.
