(* ===== verification/ReassemblyInv.v ===== *)
(** Safety of the GVSP receiver: no datagram, in any order, makes it panic,
    and every frame stays inside its buffer.

    The invariant of a frame being filled says that the bookkeeping array has
    one entry per expected packet, that [last_valid_packet] is the end of a
    fully received prefix, and that the bytes written are a set of disjoint
    blocks, one per payload packet, that are still in the buffer where they
    were put.  From it follow the facts the delivered frame relies on:
    [received_size <= data_end <= payload_size]. *)

From S2P Require Import Prelude Gvcp Gvsp Channel Float64 Frame Reassembly.

(** * Disjoint blocks *)

(** Block [i] holds the data of payload packet [i + 1]. *)
Abbreviation blocks := (nat -> option bytes).

Definition block_len (b : option bytes) : Z := match b with Some d => zlen d | None => 0 end.

Fixpoint sum_blocks (blk : blocks) (n : nat) : Z :=
  match n with O => 0 | S n => sum_blocks blk n + block_len (blk n) end.

Definition set_block (blk : blocks) (i : nat) (d : bytes) : blocks :=
  fun j => if decide (j = i) then Some d else blk j.

Lemma block_len_nonneg b : 0 <= block_len b.
Proof. destruct b; simpl; [apply zlen_nonneg|lia]. Qed.

Lemma sum_blocks_nonneg blk n : 0 <= sum_blocks blk n.
Proof. induction n; simpl; [lia|]. pose proof (block_len_nonneg (blk n)). lia. Qed.

Lemma sum_blocks_extend blk n m :
  (n <= m)%nat -> (forall i, (n <= i)%nat -> blk i = None) -> sum_blocks blk m = sum_blocks blk n.
Proof.
  intros Hnm Hnone. induction Hnm as [|m Hnm IH]; [done|]. simpl. rewrite IH, Hnone by lia.
  simpl. lia.
Qed.

Lemma sum_set_block_ge blk i d n : (n <= i)%nat -> sum_blocks (set_block blk i d) n = sum_blocks blk n.
Proof.
  induction n; intros; simpl; [done|]. rewrite IHn by lia.
  unfold set_block. case_decide; [lia|done].
Qed.

Lemma sum_set_block blk i d n :
  blk i = None -> (i < n)%nat -> sum_blocks (set_block blk i d) n = sum_blocks blk n + zlen d.
Proof.
  intros Hi. induction n; intros Hn; [lia|]. simpl. destruct (decide (i = n)) as [->|].
  - rewrite sum_set_block_ge, Hi by lia. unfold set_block. case_decide; [simpl; lia|done].
  - rewrite IHn by lia. unfold set_block. case_decide; [lia|lia].
Qed.

Lemma sum_blocks_le_mul blk n bs :
  0 < bs -> (forall i d, blk i = Some d -> zlen d <= bs) -> sum_blocks blk n <= Z.of_nat n * bs.
Proof.
  intros Hbs Hb. induction n as [|n IH]; simpl; [lia|].
  destruct (blk n) as [d|] eqn:E; simpl; [specialize (Hb n d E)|]; lia.
Qed.

(** Blocks of at most [bs] bytes at multiples of [bs], all ending by [e],
    have at most [e] bytes in total. *)
Lemma sum_blocks_le blk n bs e :
  0 < bs -> 0 <= e ->
  (forall i d, blk i = Some d -> zlen d <= bs /\ Z.of_nat i * bs + zlen d <= e) ->
  sum_blocks blk n <= Z.of_nat n * bs /\ sum_blocks blk n <= e.
Proof.
  intros Hbs He Hb. induction n as [|n [IH1 IH2]]; simpl; [lia|].
  destruct (blk n) as [d|] eqn:E; simpl; [|lia].
  specialize (Hb n d E). lia.
Qed.

Lemma take_app_range {A} (l d : list A) i :
  get_range l i (i + zlen d) = Some d ->
  take (Z.to_nat (i + zlen d)) l = take (Z.to_nat i) l ++ d.
Proof.
  intros (Hi & Hl & _ & Hd)%get_range_Some. pose proof (zlen_nonneg d). unfold zlen in Hl.
  set (k := (i + zlen d - i)) in Hd.
  replace (Z.to_nat (i + zlen d)) with (Z.to_nat i + Z.to_nat k)%nat by (unfold k; lia).
  rewrite <- (take_drop (Z.to_nat i) l) at 1. rewrite take_app, length_take, take_take.
  rewrite Hd. f_equal; f_equal; lia.
Qed.

(** If the blocks fill all of [n * bs], every one is there and full, and the
    buffer starts with their concatenation. *)
Lemma blocks_full blk n bs (data : bytes) :
  0 < bs ->
  (forall i d, blk i = Some d -> zlen d <= bs /\
     get_range data (Z.of_nat i * bs) (Z.of_nat i * bs + zlen d) = Some d) ->
  sum_blocks blk n = Z.of_nat n * bs ->
  exists ds, take (Z.to_nat (Z.of_nat n * bs)) data = concat ds /\ length ds = n /\
    forall k d, ds !! k = Some d -> blk k = Some d.
Proof.
  intros Hbs Hb. induction n as [|n IH]; intros Hsum.
  { exists []. split_and!; [by rewrite take_0|done|done]. }
  simpl in Hsum. pose proof (sum_blocks_le_mul blk n bs Hbs (fun i d Hd => proj1 (Hb i d Hd))) as Hle.
  destruct (blk n) as [d|] eqn:E; simpl in Hsum; [|lia].
  destruct (Hb n d E) as [Hd Hr]. destruct IH as (ds & Hds & Hlen & Hk); [lia|].
  exists (ds ++ [d]). split_and!.
  - rewrite concat_app. simpl. rewrite app_nil_r, <- Hds.
    rewrite <- (take_app_range data d) by done. f_equal. lia.
  - rewrite length_app. simpl. lia.
  - intros k x. rewrite lookup_app_Some, list_lookup_singleton_Some.
    intros [Hx|(? & ? & <-)]; [by apply Hk|]. by replace k with n by lia.
Qed.

(** When the bytes received make up the whole extent, the blocks tile it. *)
Lemma blocks_tile blk n bs (data : bytes) e :
  0 < bs -> 0 <= e ->
  (forall i d, blk i = Some d -> zlen d <= bs /\ Z.of_nat i * bs + zlen d <= e /\
     get_range data (Z.of_nat i * bs) (Z.of_nat i * bs + zlen d) = Some d) ->
  sum_blocks blk n = e ->
  exists ds, take (Z.to_nat e) data = concat ds /\ forall k d, ds !! k = Some d -> blk k = Some d.
Proof.
  intros Hbs He Hb. induction n as [|n IH]; intros Hsum; simpl in Hsum.
  { exists []. subst e. split; [by rewrite take_0|done]. }
  destruct (blk n) as [d|] eqn:E; simpl in Hsum; [|apply IH; lia].
  destruct (Hb n d E) as (Hd & Hd2 & Hr).
  destruct (decide (zlen d = 0)); [apply IH; lia|].
  pose proof (sum_blocks_le_mul blk n bs Hbs (fun i d Hd => proj1 (Hb i d Hd))) as Hle.
  destruct (blocks_full blk n bs data) as (ds & Hds & Hlen & Hk); [done| |lia|].
  { intros i x Hx. destruct (Hb i x Hx) as (? & _ & ?). done. }
  exists (ds ++ [d]). split.
  - rewrite concat_app. simpl. rewrite app_nil_r, <- Hds.
    rewrite <- (take_app_range data d) by done. f_equal. lia.
  - intros k x. rewrite lookup_app_Some, list_lookup_singleton_Some.
    intros [Hx|(? & ? & <-)]; [by apply Hk|]. by replace k with n by lia.
Qed.

(** * What has been written into a frame's buffer

    [src id k d]: a payload packet [k] of block [id] with data [d] was
    received. *)

Lemma MAX_FRAME_PACKETS_eq : MAX_FRAME_PACKETS = 1048576.
Proof. reflexivity. Qed.

Section invariant.
Context {FC : Chan Frame} {PC : Chan BufSlot} {CC : Chan ToStreamWorker} {HS : PacketHasher}.
Variable src : Z -> Z -> bytes -> Prop.
Variable P : Z.

Record data_part (f : FrameInFlight) (blk : blocks) (n : nat) : Prop := {
  dp_cap : zlen (slot_data (f_slot f)) = P;
  dp_block : 0 < f_block_size f;
  dp_end : 0 <= f_data_end f <= P;
  dp_sum : f_received_size f = sum_blocks blk n;
  dp_bound : forall i, (n <= i)%nat -> blk i = None;
  dp_blocks : forall i d, blk i = Some d ->
    zlen d <= f_block_size f /\
    Z.of_nat i * f_block_size f + zlen d <= f_data_end f /\
    get_range (slot_data (f_slot f)) (Z.of_nat i * f_block_size f)
      (Z.of_nat i * f_block_size f + zlen d) = Some d;
  dp_src : forall i d, blk i = Some d ->
    exists d', src (f_frame_id f) (Z.of_nat i + 1) d' /\ d `prefix_of` d' /\
      (d = d' \/ f_data_end f = P) }.

Lemma data_part_received f blk n :
  data_part f blk n -> 0 <= f_received_size f <= f_data_end f.
Proof.
  intros []. rewrite dp_sum0. split; [apply sum_blocks_nonneg|].
  eapply sum_blocks_le; [exact dp_block0|lia|]. intros i d Hd.
  destruct (dp_blocks0 i d Hd) as (? & ? & _). done.
Qed.

(** The part of a frame the buffer invariant reads. *)
Definition data_core (f : FrameInFlight) :=
  (f_frame_id f, slot_data (f_slot f), f_block_size f, f_data_end f, f_received_size f).

Lemma data_part_core f g blk n : data_core f = data_core g -> data_part f blk n -> data_part g blk n.
Proof.
  unfold data_core. intros [= E1 E2 E3 E4 E5] []. split; rewrite <- ?E1, <- ?E2, <- ?E3, <- ?E4, <- ?E5; done.
Qed.

(** Everything about a frame except what [place] may change. *)
Definition shape (f : FrameInFlight) :=
  (f_n_packets f, slot_packets (f_slot f), f_block_size f, f_block_known f,
   f_last_valid_packet f, f_held f, f_trailer_seen f, f_frame_id f).

Lemma write_block_ok f blk n i d full :
  data_part f blk n -> blk i = None -> zlen d <= f_block_size f ->
  Z.of_nat i * f_block_size f + zlen d <= P ->
  src (f_frame_id f) (Z.of_nat i + 1) full -> d `prefix_of` full ->
  (d = full \/ Z.of_nat i * f_block_size f + zlen d = P) ->
  exists f', write_block f (Z.of_nat i * f_block_size f) d = Some f' /\
    shape f' = shape f /\ f_error f' = f_error f /\
    f_data_end f' = Z.max (Z.of_nat i * f_block_size f + zlen d) (f_data_end f) /\
    data_part f' (set_block blk i d) (Nat.max n (S i)).
Proof.
  intros [Hcap Hbs Hend Hsum Hbound Hblocks Hsrc] Hi Hd Hfit Hfull Hpre Htr.
  set (off := Z.of_nat i * f_block_size f) in *.
  assert (0 <= off) by (unfold off; lia).
  pose proof (zlen_nonneg d).
  unfold write_block. rewrite get_range_is_Some by lia. simpl.
  eexists. split; [done|]. do 3 (split; [done|]).
  split; simpl.
  - by rewrite zlen_splice by lia.
  - done.
  - lia.
  - rewrite sum_set_block by (done || lia).
    rewrite (sum_blocks_extend blk n) by (done || lia). lia.
  - intros j Hj. unfold set_block. case_decide; [lia|]. apply Hbound. lia.
  - intros j e. unfold set_block. case_decide as Hj.
    + subst j. intros [= <-]. fold off. split_and!; [done|lia|].
      apply get_range_splice_same; lia.
    + intros He. destruct (Hblocks j e He) as (H1 & H2 & H3). split_and!; [done|lia|].
      rewrite get_range_splice_other; [done|lia..|].
      unfold off. destruct (decide (j < i)%nat); [left|right]; nia.
  - intros j e. unfold set_block. case_decide as Hj.
    + subst j. intros [= <-]. exists full. split_and!; [done..|]. destruct Htr; [by left|right; lia].
    + intros He. destruct (Hsrc j e He) as (x & ? & ? & Hor). exists x. split_and!; [done..|].
      destruct Hor; [by left|right; lia].
Qed.

Lemma checked_sub_ok a b : b <= a -> checked_sub a b = Some (a - b).
Proof. intros. unfold checked_sub. by replace (b <=? a) with true by lia. Qed.

(** What [place] does with a packet of the frame's payload range. *)
Definition place_post (f f' : FrameInFlight) (pid : Z) (d : bytes) (blk blk' : blocks) : Prop :=
  shape f' = shape f /\
  (forall i, i <> Z.to_nat (pid - 1) -> blk' i = blk i) /\
  (zlen d <= f_block_size f -> (pid - 1) * f_block_size f + zlen d <= P ->
     f_error f' = None /\ blk' (Z.to_nat (pid - 1)) = Some d /\
     f_data_end f' = Z.max ((pid - 1) * f_block_size f + zlen d) (f_data_end f)).

Lemma place_skip f f' pid d blk n :
  data_part f blk n -> data_core f = data_core f' -> shape f' = shape f ->
  (f_block_size f < zlen d \/ P < (pid - 1) * f_block_size f + zlen d) ->
  exists blk' n', data_part f' blk' n' /\ place_post f f' pid d blk blk'.
Proof.
  intros HD E1 E2 Hno. exists blk, n. split; [by eapply data_part_core|].
  split_and!; [done|done|]. lia.
Qed.

(** Placing one payload packet keeps the buffer consistent; without an error
    the only block that may have been added is the packet's own. *)
Lemma place_ok f blk n pid d stats :
  data_part f blk n -> P <= I64_MAX -> 1 <= pid <= f_n_packets f - 2 ->
  blk (Z.to_nat (pid - 1)) = None -> f_error f = None -> src (f_frame_id f) pid d ->
  exists f' stats', FrameInFlight_place f pid d stats = Some (f', stats') /\
    exists blk' n', data_part f' blk' n' /\ place_post f f' pid d blk blk'.
Proof.
  intros HD HP Hpid Hnone Herr Hsrc. unfold FrameInFlight_place.
  pose proof HD as [Hcap Hbs Hend _ _ _ _]. pose proof (zlen_nonneg d) as Hd0.
  set (i := Z.to_nat (pid - 1)) in *.
  assert (Z.of_nat i = pid - 1) as Hi by (unfold i; lia).
  destruct (f_block_size f <? zlen d) eqn:E1.
  { do 2 eexists. split; [done|]. eapply place_skip; [done..|lia]. }
  rewrite (checked_sub_ok pid 1), (checked_sub_ok (f_n_packets f) 2) by lia. simpl. rewrite <- Hi.
  set (off := Z.of_nat i * f_block_size f).
  destruct (USIZE_MAX <? off) eqn:E2.
  { do 2 eexists. split; [done|]. eapply place_skip; [done..|]. rewrite <- Hi. fold off. width_lia. }
  rewrite Hcap. unfold saturating_add. destruct (P <? _) eqn:E3.
  - assert (P < off + zlen d) by width_lia.
    destruct (P <=? off) eqn:E4.
    + do 2 eexists. split; [done|]. eapply place_skip; [done..|]. rewrite <- Hi. fold off. lia.
    + destruct (write_block_ok f blk n i (take (Z.to_nat (P - off)) d) d)
        as (f' & Hw & Hsh & ? & ? & ?); [done|done| | | |apply prefix_take|right|].
      1,2,4: unfold zlen in *; rewrite length_take; unfold off in *; lia.
      { by rewrite Hi, Z.sub_add. }
      fold off in Hw. rewrite Hw. simpl.
      do 2 eexists. split; [done|]. do 2 eexists. split; [done|]. split_and!; [done| |].
      * intros j Hj. unfold set_block. by case_decide.
      * rewrite <- Hi. fold off. lia.
  - assert (off + zlen d <= P) by width_lia.
    destruct (write_block_ok f blk n i d d) as (f' & Hw & Hsh & ? & Hde & ?); [done|done|lia|done| |done|by left|].
    { by rewrite Hi, Z.sub_add. }
    fold off in Hw. rewrite Hw. simpl.
    do 2 eexists. split; [done|]. do 2 eexists. split; [done|]. split_and!; [done| |].
    + intros j Hj. unfold set_block. by case_decide.
    + intros _ _. rewrite <- Hi. fold off. split_and!; [congruence| |done].
      rewrite Nat2Z.id. unfold set_block. by case_decide.
Qed.

(** * The invariant of a frame being filled *)

(** Packet [i] has been received. *)
Definition rcv (f : FrameInFlight) (i : Z) : Prop :=
  (received <$> slot_packets (f_slot f)) !! Z.to_nat i = Some true.

(** While the frame is error-free: a written block belongs to a payload
    packet that is marked received (or is the packet [cur] being processed),
    and packets are only held back until packet 1 tells the block size. *)
Record open_part (f : FrameInFlight) (blk : blocks) (cur : Z) : Prop := {
  op_blocks : forall i d, blk i = Some d ->
    Z.of_nat i + 1 <= f_n_packets f - 2 /\ (rcv f (Z.of_nat i + 1) \/ Z.of_nat i + 1 = cur);
  op_unknown : f_block_known f = false -> forall i, blk i = None;
  op_known : f_block_known f = true -> f_held f = [];
  op_nodup : NoDup (f_held f).*1;
  op_held : Forall (fun '(id, d) => 2 <= id <= f_n_packets f - 2 /\ (rcv f id \/ id = cur) /\
                      src (f_frame_id f) id d) (f_held f) }.

Record shape_inv (f : FrameInFlight) : Prop := {
  fi_packets : zlen (slot_packets (f_slot f)) = f_n_packets f;
  fi_n : 1 <= f_n_packets f <= MAX_FRAME_PACKETS;
  fi_lvp : -1 <= f_last_valid_packet f < f_n_packets f;
  fi_prefix : forall i, 0 <= i <= f_last_valid_packet f -> rcv f i }.

Record frame_inv_at (cur : Z) (f : FrameInFlight) : Prop := {
  fi_shape : shape_inv f;
  fi_data : exists blk n, data_part f blk n /\ (f_error f = None -> open_part f blk cur) }.

(** Between packets no packet is being processed. *)
Definition frame_inv : FrameInFlight -> Prop := frame_inv_at (-1).

(** The part of a frame the invariant reads: everything but the resend
    bookkeeping, the leader and the clocks. *)
Definition core (f : FrameInFlight) :=
  (data_core f, received <$> slot_packets (f_slot f), f_n_packets f, f_block_known f,
   f_held f, f_last_valid_packet f, f_error f).

Lemma frame_inv_core cur f g : core f = core g -> frame_inv_at cur f -> frame_inv_at cur g.
Proof.
  intros E [[Hp Hn Hl Hpre] (blk & n & HD & HO)]. unfold core, data_core in E.
  injection E as E1 E2 E3 E4 E5 E6 E7 E8 E9 E10 E11.
  assert (forall i, rcv f i <-> rcv g i) as Er by (intros i; unfold rcv; by rewrite E6).
  split; [split|].
  - rewrite <- E7, <- Hp. unfold zlen. rewrite <- (length_fmap received (slot_packets (f_slot g))).
    by rewrite <- E6, length_fmap.
  - by rewrite <- E7.
  - by rewrite <- E7, <- E10.
  - intros i Hi. apply Er, Hpre. by rewrite E10.
  - exists blk, n. split.
    + eapply data_part_core; [|exact HD]. unfold data_core. congruence.
    + rewrite <- E11. intros Herr. destruct (HO Herr) as [O1 O2 O3 O4 O5].
      split; rewrite <- ?E7, <- ?E8, <- ?E9, <- ?E1; try done.
      * intros i d Hd. rewrite <- Er. by eapply O1.
      * eapply Forall_impl; [exact O5|]. intros [id d]. by rewrite Er.
Qed.

(** Setting the error drops the part of the invariant that assumes none. *)
Lemma frame_inv_error cur cur' f e :
  frame_inv_at cur f -> frame_inv_at cur' (f <| f_error := Some e |>).
Proof.
  intros [[Hp Hn Hl Hpre] (blk & n & HD & HO)]. split; [done|].
  exists blk, n. split; [|done]. by apply (data_part_core f).
Qed.

Lemma frame_inv_cur cur f : frame_inv f -> frame_inv_at cur f.
Proof.
  intros [[Hp Hn Hl Hpre] (blk & n & HD & HO)]. split; try done.
  exists blk, n. split; [done|]. intros Herr. destruct (HO Herr) as [O1 O2 O3 O4 O5].
  split; try done.
  - intros i d Hd. destruct (O1 i d Hd) as [? [?|?]]; [by auto|lia].
  - eapply Forall_impl; [exact O5|]. intros [id d]. simpl. intros (? & [?|?] & ?); [by auto|lia].
Qed.

Lemma rcv_in_range f i : 0 <= i -> rcv f i -> i < zlen (slot_packets (f_slot f)).
Proof.
  unfold rcv. intros Hi H%lookup_lt_Some. rewrite length_fmap in H. unfold zlen. lia.
Qed.

(** Resizing keeps the state of every packet that stays. *)
Lemma rcv_set_n_packets f m i :
  1 <= m -> 0 <= i < m -> rcv f i -> rcv (FrameInFlight_set_n_packets f m) i.
Proof.
  unfold rcv. intros Hm Hi H. simpl. rewrite list_lookup_fmap in *.
  rewrite resize_lookup by lia. case_decide; [|lia].
  destruct (slot_packets (f_slot f) !! Z.to_nat i) eqn:E; [done|discriminate].
Qed.

(** The shape invariant reads the bookkeeping array, its length and the
    prefix only. *)
Lemma shape_inv_ext f g :
  slot_packets (f_slot f) = slot_packets (f_slot g) -> f_n_packets f = f_n_packets g ->
  f_last_valid_packet f = f_last_valid_packet g -> shape_inv f -> shape_inv g.
Proof.
  intros E1 E2 E3 []. split; rewrite <- ?E1, <- ?E2, <- ?E3; try done.
  intros i Hi. unfold rcv. rewrite <- E1. by apply fi_prefix0.
Qed.

Lemma shape_set_n_packets f m :
  1 <= m <= MAX_FRAME_PACKETS -> shape_inv f -> shape_inv (FrameInFlight_set_n_packets f m).
Proof.
  intros Hm [Hp Hn Hl Hpre]. split; simpl.
  - apply zlen_resize. lia.
  - done.
  - lia.
  - intros i Hi. apply rcv_set_n_packets; [lia..|]. apply Hpre. lia.
Qed.

(** Changing the packet count keeps the invariant as long as no written or
    held packet falls off the end. *)
Lemma open_set_n_packets cur f m blk :
  1 <= m -> open_part f blk cur ->
  (forall i d, blk i = Some d -> Z.of_nat i + 1 <= m - 2) ->
  Forall (fun '(id, _) => id <= m - 2) (f_held f) ->
  open_part (FrameInFlight_set_n_packets f m) blk cur.
Proof.
  intros Hm [O1 O2 O3 O4 O5] K1 K2. split; simpl; try done.
  - intros i d Hd. pose proof (K1 i d Hd). destruct (O1 i d Hd) as [_ [Hr|?]]; [|by auto].
    split; [done|left]. apply rcv_set_n_packets; (lia || done).
  - apply Forall_forall. intros [id d] Hin.
    pose proof (proj1 (Forall_forall _ _) O5 _ Hin) as (Hid & Hr & Hs).
    pose proof (proj1 (Forall_forall _ _) K2 _ Hin). simpl in *.
    split_and!; [lia..| |done]. destruct Hr; [left|by right].
    apply rcv_set_n_packets; (lia || done).
Qed.

(** * Resend bookkeeping *)

Lemma fmap_alter_same {A B} (h : A -> B) (g : A -> A) (l : list A) i :
  (forall x, h (g x) = h x) -> h <$> alter g i l = h <$> l.
Proof.
  intros Hg. apply list_eq. intros j. rewrite !list_lookup_fmap.
  destruct (decide (i = j)) as [->|].
  - rewrite list_lookup_alter_eq. destruct (l !! j); simpl; by rewrite ?Hg.
  - by rewrite list_lookup_alter_ne.
Qed.

(** What resend bookkeeping leaves alone: everything but the per-packet
    request state and the request count. *)
Definition kept (f : FrameInFlight) :=
  (core f, f_trailer_seen f, f_held_bytes f, f_replay_of f, f_last_packet_time f, f_leader f,
   (f_extended_ids f, f_fingerprints f)).

Lemma kept_core f g : kept f = kept g -> core f = core g.
Proof. unfold kept. congruence. Qed.

Lemma packet_update_kept f i g :
  (forall p, received (g p) = received p) -> kept (packet_update f i g) = kept f.
Proof. intros Hg. unfold kept, core, packet_update. simpl. by rewrite fmap_alter_same. Qed.

Lemma mark_requested_kept n f first d : kept (mark_requested f first n d) = kept f.
Proof.
  revert f first. induction n; intros f first; simpl; [done|].
  by rewrite IHn, packet_update_kept.
Qed.

Lemma mark_requested_keep n f first d :
  f_n_resend_requests (mark_requested f first n d) = f_n_resend_requests f.
Proof. revert f first. induction n; intros f first; simpl; [done|]. by rewrite IHn. Qed.

(** The number of packets a list of ranges asks for. *)
Definition ranges_total (l : list (Z * Z)) : Z := foldr (fun '(a, b) n => b - a + 1 + n) 0 l.

Lemma ranges_total_app l a b : ranges_total (l ++ [(a, b)]) = ranges_total l + (b - a + 1).
Proof. induction l as [|[c d] l IH]; simpl in *; lia. Qed.

(** The state of the scan before packet [i]: the ranges collected so far and
    the open one are holes between [lo] and [i], and the frame's request count
    has grown by what they hold. *)
Record scan_inv (f0 : FrameInFlight) (lo pid maxr i : Z) (sc : Scan) : Prop := {
  si_kept : kept (sc_frame sc) = kept f0;
  si_first : forall a, sc_first sc = Some a -> lo <= a < i /\ i <= pid + 1 /\
               forall j, a <= j < i -> ~ rcv f0 j;
  si_ranges : Forall (fun '(a, b) => lo <= a <= b /\ b <= pid /\ forall j, a <= j <= b -> ~ rcv f0 j)
                (sc_ranges sc);
  si_count : sc_ratio sc = false ->
    f_n_resend_requests (sc_frame sc) = f_n_resend_requests f0 + ranges_total (sc_ranges sc) /\
    (f_n_resend_requests (sc_frame sc) <= maxr \/ sc_ranges sc = []) }.

Lemma core_packets_len f g : core f = core g ->
  zlen (slot_packets (f_slot f)) = zlen (slot_packets (f_slot g)).
Proof.
  unfold core. intros [= _ _ _ _ _ E _ _ _ _ _]. unfold zlen.
  rewrite <- (length_fmap received (slot_packets (f_slot f))). by rewrite E, length_fmap.
Qed.

Lemma core_rcv f g i : core f = core g -> rcv f i <-> rcv g i.
Proof. unfold core, rcv. intros [= _ _ _ _ _ E _ _ _ _ _]. by rewrite E. Qed.

Lemma get_at_rcv f i p :
  get_at (slot_packets (f_slot f)) i = Some p -> rcv f i <-> received p = true.
Proof.
  unfold get_at, rcv. destruct (0 <=? i); [|discriminate]. intros H.
  rewrite list_lookup_fmap, H. simpl. split; [by intros [=]|by intros ->].
Qed.

(** What the scan sees at packet [i]. *)
Definition scan_look (cfg : StreamConfig) (now pid i : Z) (f : FrameInFlight)
    : option (FrameInFlight * bool) :=
  if i <=? pid then
    p ← get_at (slot_packets (f_slot f)) i;
    if received p then Some (f, false)
    else
      let deadline := default (now + cfg_initial_packet_timeout cfg) (resend_deadline p) in
      Some (packet_update f i (fun p => {| received := received p;
              resend_requested := resend_requested p; resend_deadline := Some deadline |}),
            deadline <? now)
  else Some (f, false).

Lemma scan_look_ok cfg now pid i f :
  0 <= i -> pid < zlen (slot_packets (f_slot f)) ->
  exists f' need, scan_look cfg now pid i f = Some (f', need) /\ kept f' = kept f /\
    f_n_resend_requests f' = f_n_resend_requests f /\ (need = true -> i <= pid /\ ~ rcv f i).
Proof.
  intros Hi Hn. unfold scan_look. destruct (i <=? pid) eqn:E; [|by exists f, false].
  destruct (get_at_is_Some (slot_packets (f_slot f)) i) as [p Hp]; [lia|]. rewrite Hp. simpl.
  destruct (received p) eqn:Er; [by exists f, false|].
  do 2 eexists. split; [done|]. split; [by apply packet_update_kept|]. split; [done|].
  intros _. split; [lia|]. rewrite (get_at_rcv f i p Hp). congruence.
Qed.

Lemma scan_step_ok cfg now pid maxr lo i f0 sc :
  0 <= lo <= i -> i <= pid + 1 -> pid < zlen (slot_packets (f_slot f0)) ->
  scan_inv f0 lo pid maxr i sc -> sc_ratio sc = false ->
  exists sc', scan_step cfg now pid maxr i sc = Some sc' /\
    scan_inv f0 lo pid maxr (i + 1) sc' /\ (i = pid + 1 -> sc_first sc' = None).
Proof.
  intros Hlo Hi Hn [Hc Hf Hr Hk] Hratio. destruct (Hk Hratio) as [Hk1 Hk2].
  unfold scan_step. fold (scan_look cfg now pid i (sc_frame sc)).
  destruct (scan_look_ok cfg now pid i (sc_frame sc)) as (f & need & -> & Hcf & Hnf & Hneed);
    [lia|by rewrite (core_packets_len _ _ (kept_core _ _ Hc))|].
  cbn [mbind option_bind]. rewrite (core_rcv _ _ _ (kept_core _ _ Hc)) in Hneed.
  assert (kept f = kept f0) as Hcf0 by congruence.
  destruct ((pid <? i) || negb need) eqn:E.
  - assert (need = false) as -> by (destruct need; [|done]; destruct (Hneed eq_refl); lia).
    destruct (sc_first sc) as [a|] eqn:Ea.
    + destruct (Hf a eq_refl) as (Ha1 & Ha2 & Ha3).
      destruct (maxr <? _) eqn:Em; eexists; (split; [done|]); (split; [split|]); simpl; try done.
      * by rewrite mark_requested_kept.
      * apply Forall_app. split; [done|]. apply Forall_singleton. split_and!; [lia..|].
        intros j Hj. apply Ha3. lia.
      * intros _. rewrite mark_requested_keep, ranges_total_app. simpl. split; [lia|left; lia].
    + eexists. split; [done|]. split; [split|]; simpl; try done.
      intros _. rewrite Hnf. done.
  - assert (need = true) as -> by lia. destruct (Hneed eq_refl) as [Hip Hnr].
    eexists. split; [done|]. split; [split|]; simpl; try done; [|by rewrite Hnf|lia].
    intros a Ha. destruct (sc_first sc) as [b|] eqn:Eb; injection Ha as <-.
    + destruct (Hf b eq_refl) as (? & ? & Hb). split_and!; [lia..|].
      intros j Hj. destruct (decide (j = i)) as [->|]; [done|]. apply Hb. lia.
    + split_and!; [lia..|]. intros j Hj. by replace j with i by lia.
Qed.

Lemma scan_ok cfg now pid maxr lo k i f0 sc :
  0 <= lo <= i -> i + Z.of_nat k = pid + 2 -> pid < zlen (slot_packets (f_slot f0)) ->
  scan_inv f0 lo pid maxr i sc -> sc_ratio sc = false ->
  exists sc' j, scan cfg now pid maxr k i sc = Some sc' /\ scan_inv f0 lo pid maxr j sc'.
Proof.
  revert i sc. induction k as [|k IH]; intros i sc Hlo Hi Hn Hinv Hr; simpl; [by eauto|].
  destruct (scan_step_ok cfg now pid maxr lo i f0 sc) as (sc' & -> & Hinv' & _); [lia..|done|done|].
  simpl. destruct (sc_ratio sc') eqn:E; [by eauto|]. apply IH; (done || lia).
Qed.

(** * The packet handlers keep the invariant *)

Lemma process_leader_ok f view sys_ns :
  frame_inv f -> frame_inv_at (v_packet_id view) (process_leader f view sys_ns).
Proof.
  intros H. unfold process_leader. destruct (f_error f); [by apply frame_inv_cur|].
  destruct (negb _); [by eapply frame_inv_error|].
  apply frame_inv_cur. by eapply frame_inv_core; [|exact H].
Qed.

(** Packets held back, as [place_held] meets them. *)
Definition held_ok (f : FrameInFlight) (blk : blocks) (held : list (Z * bytes)) : Prop :=
  NoDup held.*1 /\
  Forall (fun '(id, d) => 2 <= id /\ src (f_frame_id f) id d /\ blk (Z.to_nat (id - 1)) = None) held.

Lemma shape_frame_id f g : shape f = shape g -> f_frame_id f = f_frame_id g.
Proof. by intros [=]. Qed.
Lemma shape_n_packets f g : shape f = shape g -> f_n_packets f = f_n_packets g.
Proof. by intros [=]. Qed.

Lemma place_held_ok held f blk n stats :
  data_part f blk n -> P <= I64_MAX -> held_ok f blk held ->
  exists f' stats', place_held held f stats = Some (f', stats') /\ shape f' = shape f /\
    exists blk' n', data_part f' blk' n' /\
      forall i d, blk' i = Some d -> blk i = Some d \/
        (Z.of_nat i + 1 ∈ held.*1 /\ Z.of_nat i + 1 <= f_n_packets f - 2).
Proof.
  revert f blk n stats. induction held as [|[id d] held IH]; intros f blk n stats HD HP [Hnd Hall].
  { simpl. do 2 eexists. split; [done|]. split; [done|]. exists blk, n. auto. }
  simpl. destruct (f_error f) eqn:Herr.
  { do 2 eexists. split; [done|]. split; [done|]. exists blk, n. auto. }
  destruct (_ <? id) eqn:E.
  { do 2 eexists. split; [done|]. split; [done|]. exists blk, n.
    split; [by apply (data_part_core f)|auto]. }
  apply Forall_cons in Hall as [(Hid & Hs & Hnone) Hall]. apply NoDup_cons in Hnd as [Hni Hnd].
  destruct (place_ok f blk n id d stats) as (f1 & st1 & -> & blk1 & n1 & HD1 & Hsh & Hother & _);
    [done|done|unfold saturating_sub in E; lia|done..|]. simpl.
  destruct (IH f1 blk1 n1 st1) as (f2 & st2 & -> & Hsh2 & blk2 & n2 & HD2 & Hin2); [done|done| |].
  { split; [done|]. apply Forall_forall. intros [j e] Hj.
    destruct (proj1 (Forall_forall _ _) Hall _ Hj) as (? & ? & Hn). split_and!; [done| |].
    - by rewrite (shape_frame_id _ _ Hsh).
    - rewrite Hother; [done|]. intros Heq. apply Hni.
      replace id with j by lia. by apply (list_elem_of_fmap_2 fst _ (j, e)). }
  do 2 eexists. split; [done|]. split; [congruence|]. exists blk2, n2. split; [done|].
  intros i x Hx. rewrite elem_of_cons.
  destruct (Hin2 i x Hx) as [H1|[H1 H2]].
  - destruct (decide (i = Z.to_nat (id - 1))) as [->|Hne].
    + right. unfold saturating_sub in E. split; [left; lia|lia].
    + left. by rewrite <- Hother.
  - right. rewrite (shape_n_packets _ _ Hsh) in H2. auto.
Qed.

(** The frame in which packet [pid] is about to be placed. *)
Record ready (f : FrameInFlight) (blk : blocks) (n : nat) (pid : Z) : Prop := {
  rd_shape : shape_inv f;
  rd_data : data_part f blk n;
  rd_error : f_error f = None;
  rd_known : f_block_known f = true;
  rd_none : blk (Z.to_nat (pid - 1)) = None;
  rd_blocks : forall i d, blk i = Some d -> Z.of_nat i + 1 <= f_n_packets f - 2 /\ rcv f (Z.of_nat i + 1);
  rd_held : held_ok f blk (f_held f);
  rd_held_rcv : Forall (fun '(id, _) => id <> pid /\ (id <= f_n_packets f - 2 -> rcv f id)) (f_held f) }.

Definition place_all (f : FrameInFlight) (pid : Z) (d : bytes) (stats : StreamStats)
    : option (FrameInFlight * StreamStats) :=
  '(f, stats) ← FrameInFlight_place f pid d stats;
  '(f, stats) ← place_held (f_held f) (f <| f_held := [] |>) stats;
  Some (f <| f_held_bytes := 0 |>, stats).

Lemma place_all_ok f blk n pid d stats :
  ready f blk n pid -> P <= I64_MAX -> 1 <= pid <= f_n_packets f - 2 -> src (f_frame_id f) pid d ->
  exists f' stats', place_all f pid d stats = Some (f', stats') /\ frame_inv_at pid f' /\
    f_frame_id f' = f_frame_id f.
Proof.
  intros [Hsh HD Herr Hk Hnone Hb [Hnd Hh] Hhr] HP Hpid Hs. unfold place_all.
  destruct (place_ok f blk n pid d stats) as (f1 & st1 & -> & blk1 & n1 & HD1 & Hsh1 & Ho1 & _);
    [done..|]. simpl.
  assert (f_held f1 = f_held f) as -> by (by injection Hsh1).
  destruct (place_held_ok (f_held f) (f1 <| f_held := [] |>) blk1 n1 st1)
    as (f2 & st2 & -> & Hsh2 & blk2 & n2 & HD2 & Hin2); [by apply (data_part_core f1)|done| |].
  { split; [done|]. simpl. rewrite (shape_frame_id _ _ Hsh1).
    apply Forall_forall. intros [j e] Hj. destruct (proj1 (Forall_forall _ _) Hh _ Hj) as (? & ? & Hn).
    destruct (proj1 (Forall_forall _ _) Hhr _ Hj) as [? _].
    split_and!; [done..|]. rewrite Ho1; [done|lia]. }
  simpl. do 2 eexists. split; [done|].
  unfold shape in Hsh1, Hsh2. simpl in Hsh2.
  injection Hsh1 as E1 E2 E3 E4 E5 E6 E7 E8. injection Hsh2 as F1 F2 F3 F4 F5 F6 F7 F8.
  assert (forall i, rcv f2 i <-> rcv f i) as Hr2 by (intros i; unfold rcv; by rewrite F2, E2).
  split; [|simpl; congruence]. split.
  - destruct Hsh as [S1 S2 S3 S4]. split; simpl; rewrite ?F1, ?F2, ?F5, ?E1, ?E2, ?E5; try done.
    intros i Hi. by apply Hr2, S4.
  - exists blk2, n2. split; [by apply (data_part_core f2)|]. intros _.
    split; simpl; rewrite ?F6; [| |done|constructor|constructor].
    + rewrite F1, E1. intros i x Hx. rewrite (Hr2 (Z.of_nat i + 1)).
      destruct (Hin2 i x Hx) as [H1|[H1 H2]].
      * destruct (decide (i = Z.to_nat (pid - 1))) as [->|Hne]; [split; [lia|right; lia]|].
        rewrite Ho1 in H1 by done. destruct (Hb i x H1). auto.
      * simpl in H2. rewrite E1 in H2. split; [done|left].
        apply list_elem_of_fmap_1 in H1 as ([j e] & Hj & Hin). simpl in Hj. subst j.
        by apply (proj1 (Forall_forall _ _) Hhr _ Hin).
    + rewrite F4, E4, Hk. discriminate.
Qed.

(** Packet 1 fixes the block size: the frame is ready for it, unless the
    trailer already promised more packets than fit. *)
Lemma learn_block_ok f data :
  frame_inv f -> 0 <= P -> f_error f = None -> f_block_known f = false -> ~ rcv f 1 ->
  exists f' go, learn_block P f data = Some (f', go) /\ f_frame_id f' = f_frame_id f /\
    (go = false -> frame_inv f') /\ (go = true -> ready f' (fun _ => None) 0 1).
Proof.
  intros [Hsh (blk & n & HD & HO)] HP Herr Hk Hnr.
  destruct (HO Herr) as [_ O2 _ O4 O5]. specialize (O2 Hk). unfold learn_block.
  set (f1 := match data with [] => _ | _ => _ end).
  assert (exists bs, 0 < bs /\ f1 = f <| f_block_known := true |> <| f_block_size := bs |>) as (bs & Hbs & E1).
  { pose proof (dp_block _ _ _ HD). destruct data; unfold f1.
    - exists (f_block_size f). split; [done|]. by destruct f.
    - exists (zlen (z :: data)). split; [rewrite zlen_cons; pose proof (zlen_nonneg data); lia|done]. }
  clearbody f1. subst f1. simpl. replace (bs =? 0) with false by lia.
  assert (0 <= div_ceil P bs) by (by apply div_ceil_nonneg).
  assert (data_part (f <| f_block_known := true |> <| f_block_size := bs |>) (fun _ => None) 0) as HD1.
  { destruct HD as [D1 D2 D3 D4 D5 D6 D7]. split; simpl; try done.
    rewrite D4. clear -O2. induction n; simpl; [done|]. by rewrite IHn, O2. }
  assert (forall g, f_frame_id g = f_frame_id f -> held_ok g (fun _ => None) (f_held f)) as Hheld.
  { intros g Hid. split; [done|]. eapply Forall_impl; [exact O5|]. intros [id d] (? & _ & ?).
    rewrite Hid. split_and!; [lia|done|done]. }
  assert (forall id d, (id, d) ∈ f_held f -> rcv f id /\ 2 <= id <= f_n_packets f - 2) as Hin.
  { intros id d Hin. destruct (proj1 (Forall_forall _ _) O5 _ Hin) as (? & [?|?] & _); [done|lia]. }
  destruct (f_trailer_seen f); simpl.
  - destruct (_ <? f_n_packets f) eqn:E.
    + do 2 eexists. split; [done|]. split; [done|]. split; [intros _|discriminate].
      split; [by apply (shape_inv_ext f)|]. exists (fun _ => None), 0%nat.
      split; [by eapply data_part_core; [|exact HD1]|done].
    + do 2 eexists. split; [done|]. split; [done|]. split; [discriminate|intros _].
      split; simpl; try done; [by apply (shape_inv_ext f)|by apply Hheld|].
      apply Forall_forall. intros [id d] Hd. destruct (Hin id d Hd) as [Hr ?]. split; [lia|done].
  - do 2 eexists. split; [done|]. split; [done|]. split; [discriminate|intros _].
    split; simpl; try done.
    + apply (shape_set_n_packets (f <| f_block_known := true |> <| f_block_size := bs |>));
        [|by apply (shape_inv_ext f)].
      rewrite MAX_FRAME_PACKETS_eq. lia.
    + by eapply data_part_core; [|exact HD1].
    + by apply Hheld.
    + apply Forall_forall. intros [id d] Hd. destruct (Hin id d Hd) as [Hr ?]. split; [lia|].
      intros. apply (rcv_set_n_packets (f <| f_block_known := true |> <| f_block_size := bs |>));
        (lia || done).
Qed.

Lemma rcv_false_block f blk cur pid :
  open_part f blk cur -> 1 <= pid -> ~ rcv f pid -> pid <> cur -> blk (Z.to_nat (pid - 1)) = None.
Proof.
  intros [O1 _ _ _ _] Hp Hnr Hc. destruct (blk (Z.to_nat (pid - 1))) eqn:E; [|done].
  destruct (O1 _ _ E) as [_ Hor]. replace (Z.of_nat _ + 1) with pid in Hor by lia. tauto.
Qed.

(** A payload packet that arrives before packet 1 is set aside. *)
Lemma hold_ok f pid d bytes_ :
  frame_inv f -> f_error f = None -> f_block_known f = false -> ~ rcv f pid ->
  2 <= pid <= MAX_FRAME_PACKETS - 2 -> src (f_frame_id f) pid d ->
  frame_inv_at pid
    ((if f_n_packets f <? pid + 2
      then FrameInFlight_set_n_packets (f <| f_held_bytes := bytes_ |>) (pid + 2)
      else f <| f_held_bytes := bytes_ |>) <| f_held ::= fun h => h ++ [(pid, d)] |>).
Proof.
  intros H Herr Hk Hnr Hpid Hs.
  assert (frame_inv_at pid (f <| f_held_bytes := bytes_ |>)) as Hf
    by (apply frame_inv_cur; by eapply frame_inv_core; [|exact H]).
  set (f1 := f <| f_held_bytes := bytes_ |>) in *.
  set (f2 := if _ <? _ then _ else _).
  assert (frame_inv_at pid f2 /\ pid + 2 <= f_n_packets f2 /\ f_error f2 = None /\
          f_block_known f2 = false /\ f_frame_id f2 = f_frame_id f /\ f_held f2 = f_held f)
    as ([Hsh (blk & n & HD & HO)] & Hn & He & Hk2 & Hid & Hh).
  { unfold f2. destruct (f_n_packets f <? pid + 2) eqn:E; [|split_and!; (done || simpl; lia)].
    split_and!; try done; simpl; try lia. destruct Hf as [Hsh (blk & n & HD & HO)].
    assert (O := HO Herr). split; [apply shape_set_n_packets; [lia|done]|].
    exists blk, n. split; [by eapply data_part_core; [|exact HD]|]. intros _.
    apply open_set_n_packets; [lia|done| |].
    - intros i x Hx. destruct O as [_ O2 _ _ _]. by rewrite O2 in Hx.
    - destruct O as [_ _ _ _ O5]. eapply Forall_impl; [exact O5|]. intros [id x] (? & _). simpl in *. lia. }
  destruct (HO He) as [O1 O2 O3 O4 O5]. rewrite Hid in O5. rewrite Hh in O4, O5.
  assert (pid ∉ (f_held f).*1) as Hni.
  { intros ([j e] & Hj & Hin)%list_elem_of_fmap_1. simpl in Hj. subst j.
    destruct H as [_ (blk0 & n0 & _ & HO0)]. destruct (HO0 Herr) as [_ _ _ _ Q5].
    destruct (proj1 (Forall_forall _ _) Q5 _ Hin) as (? & [?|?] & _); [done|lia]. }
  split; [by apply (shape_inv_ext f2)|]. exists blk, n.
  split; [by eapply data_part_core; [|exact HD]|]. intros _.
  split; simpl; [exact O1|exact O2|congruence|rewrite Hh, fmap_app|rewrite Hh].
  - apply NoDup_app. split_and!; [done| |apply NoDup_singleton].
    intros x Hx ->%list_elem_of_singleton. by apply Hni.
  - apply Forall_app. split; [by rewrite Hid|]. apply Forall_singleton. rewrite Hid.
    split_and!; [lia|lia|by right|done].
Qed.

Lemma packet_limit_bounds s : r_payload_size s = P -> 0 <= P -> 2 <= packet_limit s <= MAX_FRAME_PACKETS.
Proof.
  intros E HP. unfold packet_limit, saturating_add. rewrite E, MAX_FRAME_PACKETS_eq. width_lia.
Qed.

(** A known block size: the packet's block is still free. *)
Lemma ready_known f pid :
  frame_inv f -> f_error f = None -> f_block_known f = true -> 1 <= pid -> ~ rcv f pid ->
  exists blk n, ready f blk n pid.
Proof.
  intros [Hsh (blk & n & HD & HO)] Herr Hk Hp Hnr. pose proof (HO Herr) as O.
  exists blk, n. pose proof (rcv_false_block f blk (-1) pid O Hp Hnr) as Hnone.
  destruct O as [O1 O2 O3 O4 O5]. rewrite (O3 Hk) in *.
  split; try done; rewrite ?(O3 Hk).
  - apply Hnone. lia.
  - intros i d Hd. destruct (O1 i d Hd) as [? [?|?]]; [done|lia].
  - by split.
  - done.
Qed.

Lemma process_payload_ok s f view :
  r_payload_size s = P -> 0 <= P <= I64_MAX -> frame_inv f -> 0 <= v_packet_id view ->
  ~ rcv f (v_packet_id view) -> src (f_frame_id f) (v_packet_id view) (v_data view) ->
  exists f' stats', process_payload s f view = Some (f', stats') /\
    frame_inv_at (v_packet_id view) f' /\ f_frame_id f' = f_frame_id f.
Proof.
  intros HPs HP H Hpid Hnr Hs. unfold process_payload. set (pid := v_packet_id view) in *.
  pose proof (packet_limit_bounds s HPs ltac:(lia)) as Hlim.
  destruct (f_error f) eqn:Herr.
  { do 2 eexists. split; [done|]. split; [by apply frame_inv_cur|done]. }
  (* After the block size is known. *)
  assert (forall g, (exists blk n, ready g blk n pid) -> f_frame_id g = f_frame_id f ->
    exists f' stats',
      (if (pid <? 1) || (saturating_sub (f_n_packets g) 2 <? pid)
       then Some (g <| f_error := Some WrongPacketId |>, r_stats s)
       else place_all g pid (v_data view) (r_stats s)) = Some (f', stats') /\
      frame_inv_at pid f' /\ f_frame_id f' = f_frame_id f) as Hplace.
  { intros g (blk & n & Hr) Hid. destruct (_ || _) eqn:E.
    - do 2 eexists. split; [done|]. split; [|done]. destruct Hr as [R1 R2 _ _ _ _ _ _].
      split; [by apply (shape_inv_ext g)|]. exists blk, n. split; [by apply (data_part_core g)|done].
    - rewrite <- Hid. eapply place_all_ok; [exact Hr|lia| |by rewrite Hid].
      unfold saturating_sub in E. lia. }
  destruct ((pid =? 1) && negb (f_block_known f)) eqn:E1.
  { assert (pid = 1) as Hp1 by lia. assert (f_block_known f = false) as Hk by (destruct (f_block_known f); lia).
    rewrite Hp1 in *. rewrite HPs.
    destruct (learn_block_ok f (v_data view)) as (f1 & go & -> & Hid & Hno & Hgo); [done|lia|done..|].
    simpl. destruct go; simpl.
    - pose proof (Hgo eq_refl) as Hr. rewrite (rd_known _ _ _ _ Hr). simpl.
      apply Hplace; [by eauto|done].
    - do 2 eexists. split; [done|]. split; [by apply frame_inv_cur, Hno|done]. }
  simpl. destruct (f_block_known f) eqn:Hk; simpl.
  { destruct (decide (pid < 1)) as [Hlt|].
    - replace (pid <? 1) with true by lia. simpl.
      do 2 eexists. split; [done|]. split; [by eapply frame_inv_error|done].
    - apply Hplace; [|done]. apply ready_known; (done || lia). }
  set (lp := if f_trailer_seen f then _ else _).
  assert (exists z, lp = Some z /\ z <= MAX_FRAME_PACKETS - 2) as (z & -> & Hz).
  { unfold lp. destruct (f_trailer_seen f).
    - eexists. split; [done|]. pose proof (fi_n _ (fi_shape _ _ H)). rewrite MAX_FRAME_PACKETS_eq in *.
      unfold saturating_sub. lia.
    - rewrite checked_sub_ok by lia. eexists. split; [done|lia]. }
  simpl. destruct (_ || _) eqn:E2.
  { do 2 eexists. split; [done|]. split; [by eapply frame_inv_error|done]. }
  destruct (_ <? zlen (v_data view) + f_held_bytes f) eqn:E3.
  { do 2 eexists. split; [done|]. split; [|done].
    eapply (frame_inv_error (-1)), frame_inv_core; [|exact H]; done. }
  do 2 eexists. split; [done|]. split; [|by destruct (f_n_packets f <? pid + 2)].
  apply (hold_ok f pid (v_data view)); (done || lia).
Qed.

Lemma existsb_drop_received f k :
  existsb received (drop (Z.to_nat k) (slot_packets (f_slot f))) = false -> 0 <= k ->
  forall i, 0 <= i -> rcv f i -> i < k.
Proof.
  intros He Hk i Hi Hr. destruct (decide (i < k)); [done|]. exfalso.
  unfold rcv in Hr. rewrite list_lookup_fmap in Hr.
  destruct (slot_packets (f_slot f) !! Z.to_nat i) as [p|] eqn:Ep; simpl in Hr; [|discriminate].
  injection Hr as Hr. rewrite <- not_true_iff_false, existsb_exists in He. apply He. exists p.
  split; [|done]. apply list_elem_of_In. apply (list_elem_of_lookup_2 _ (Z.to_nat i - Z.to_nat k)).
  rewrite lookup_drop. rewrite <- Ep. f_equal. lia.
Qed.

Lemma process_trailer_ok s f view :
  r_payload_size s = P -> 0 <= P <= I64_MAX -> frame_inv f -> 0 <= v_packet_id view ->
  exists f', process_trailer s f view = Some f' /\ frame_inv_at (v_packet_id view) f' /\
    f_frame_id f' = f_frame_id f.
Proof.
  intros HPs HP H Hpid. unfold process_trailer. set (pid := v_packet_id view) in *.
  pose proof (packet_limit_bounds s HPs ltac:(lia)) as Hlim.
  set (f1 := f <| f_trailer_seen := true |>).
  assert (frame_inv f1) as H1 by (by eapply frame_inv_core; [|exact H]).
  change (f_error f1) with (f_error f). destruct (f_error f) eqn:Herr.
  { eexists. split; [done|]. split; [by apply frame_inv_cur|done]. }
  pose proof H1 as [Hsh (blk & n & HD & HO)].
  set (bd := if f_block_known f1 then _ else _).
  assert (exists z, bd = Some z /\ z <= MAX_FRAME_PACKETS) as (z & -> & Hz).
  { unfold bd. pose proof (dp_block _ _ _ HD). destruct (f_block_known f1).
    - replace (f_block_size f1 =? 0) with false by lia. eexists. split; [done|lia].
    - eexists. split; [done|lia]. }
  simpl. destruct (_ || _) eqn:E.
  { eexists. split; [done|]. split; [by eapply frame_inv_error|done]. }
  destruct (negb _); (eexists; split; [done|]; split; [|done]); [|by apply frame_inv_cur].
  apply orb_false_iff in E as [E1 E2].
  pose proof (existsb_drop_received f pid E2 ltac:(lia)) as Hlt.
  apply frame_inv_cur. split; [apply shape_set_n_packets; [lia|done]|].
  exists blk, n. split; [by eapply data_part_core; [|exact HD]|]. intros _.
  pose proof (HO Herr) as O. apply open_set_n_packets; [lia|done|..].
  - intros i d Hd. destruct (op_blocks _ _ _ O i d Hd) as [_ [Hr|?]]; [|lia].
    pose proof (Hlt (Z.of_nat i + 1) ltac:(lia) Hr). lia.
  - eapply Forall_impl; [exact (op_held _ _ _ O)|]. intros [id d] (? & [Hr|?] & _); [|lia].
    pose proof (Hlt id ltac:(lia) Hr). lia.
Qed.
End invariant.
