(* ===== verification/ReassemblySafe.v ===== *)
(** The receiver never panics and delivers only what it received.

    [runner_inv] is the invariant of the whole worker.  Every operation of
    [Reassembly] is shown to succeed from a state that satisfies it and to
    reestablish it, for any datagram, any clock and any loss or reordering;
    the theorems are the consequences for a run from the initial state. *)

From S2P Require Import Prelude Gvcp Gvsp Channel Float64 Frame Reassembly ReassemblyInv.

Section safety.
Context {FC : Chan Frame} {PC : Chan BufSlot} {CC : Chan ToStreamWorker} {HS : PacketHasher}.
Variable src : Z -> Z -> bytes -> Prop.
Variable P : Z.
Variable ip : Z.
Hypothesis HP : 0 <= P <= I64_MAX.

(** * The invariant of the worker *)

(** A frame records no other error than a wrong packet id. *)
Definition error_ok (f : FrameInFlight) : Prop :=
  f_error f = None \/ f_error f = Some WrongPacketId.

Definition frame_good (f : FrameInFlight) : Prop := frame_inv src P f /\ error_ok f.

(** What a subscriber may rely on: the data is inside the buffer, and a
    complete frame is the concatenation of received payload packets, in packet
    order; a packet is cut short only when the buffer is full. *)
Definition delivered_ok (fr : Frame) : Prop :=
  zlen (slot_data (fr_slot fr)) = P /\
  0 <= fr_received_size fr <= fr_data_end fr /\ fr_data_end fr <= P /\
  (fr_status fr = Complete -> exists ds, Frame_data fr = concat ds /\
     forall k d, ds !! k = Some d -> exists d', src (fr_frame_id fr) (Z.of_nat k + 1) d' /\
       d `prefix_of` d' /\ (d = d' \/ fr_data_end fr = P)).

Definition slot_ok (slot : BufSlot) : Prop := zlen (slot_data slot) = P.

Record runner_inv (s : StreamRunner) : Prop := {
  ri_ip : r_device_ip s = ip;
  ri_payload : r_payload_size s = P;
  ri_pool : Forall slot_ok (contents (r_pool s));
  ri_frames : Forall frame_good (r_frames s);
  ri_ids : NoDup (f_frame_id <$> r_frames s);
  ri_history : zlen (r_history s) <= HISTORY_LEN;
  ri_resend : RESEND_ID_SEED <= r_resend_id s <= U16_MAX;
  ri_delivered : Forall delivered_ok (r_delivered s) }.

(** The part of the state the invariant reads, without the open frames. *)
Definition rest (s : StreamRunner) :=
  (r_payload_size s, r_pool s, r_history s, r_resend_id s, r_delivered s, r_device_ip s).

Lemma runner_inv_ext s t : rest s = rest t -> r_frames s = r_frames t -> runner_inv s -> runner_inv t.
Proof. intros [= E1 E2 E3 E4 E5 E6] E []. split; congruence. Qed.

Lemma fmap_insert_same {A B} (h : A -> B) (l : list A) i x y :
  l !! i = Some x -> h y = h x -> h <$> <[i := y]> l = h <$> l.
Proof.
  intros Hl Hh. rewrite list_fmap_insert, Hh. apply list_insert_id.
  by rewrite list_lookup_fmap, Hl.
Qed.

Lemma alter_insert {A} (g : A -> A) (l : list A) i x :
  l !! i = Some x -> alter g i l = <[i := g x]> l.
Proof.
  revert i. induction l as [|y l IH]; intros [|i] H; try done; simpl in *; [congruence|].
  f_equal. by apply IH.
Qed.

(** Replacing one frame by another of the same block. *)
Lemma runner_inv_update s t index f g :
  runner_inv s -> r_frames s !! index = Some f ->
  rest t = rest s -> r_frames t = <[index := g]> (r_frames s) ->
  frame_good g -> f_frame_id g = f_frame_id f -> runner_inv t.
Proof.
  intros [] Hf [= E1 E2 E3 E4 E5 E6] E Hg Hid. split; rewrite ?E1, ?E2, ?E3, ?E4, ?E5, ?E6, ?E; try done.
  - by apply Forall_insert.
  - by erewrite fmap_insert_same.
Qed.

Lemma runner_inv_lookup s index f : runner_inv s -> r_frames s !! index = Some f -> frame_good f.
Proof. intros [] Hf. by eapply Forall_lookup_1. Qed.

(** * Commands and resends *)

Lemma drain_commands_keep s :
  rest (drain_commands s) = rest s /\ r_frames (drain_commands s) = r_frames s.
Proof.
  unfold drain_commands. destruct (recv_all (r_rx s)) as [cmds rx].
  enough (forall t, rest (foldl apply_command t cmds) = rest t /\
                    r_frames (foldl apply_command t cmds) = r_frames t) as H
    by (by destruct (H (s <| r_rx := rx |>)) as [-> ->]).
  induction cmds as [|c cmds IH]; intros t; simpl; [done|].
  destruct (IH (apply_command t c)) as [-> ->]. by destruct c.
Qed.

Lemma runner_inv_drain s : runner_inv s -> runner_inv (drain_commands s).
Proof. destruct (drain_commands_keep s). by apply runner_inv_ext. Qed.

Definition send_ranges (s : StreamRunner) (id : Z) (ext : bool) (ranges : list (Z * Z)) : StreamRunner :=
  foldl (fun s '(first, last) =>
    (send_resend_request s id (wrap 32 first) (wrap 32 last) ext)
      <| r_stats ::= fun st => st <| st_resend_requests ::= Z.add (last - first + 1) |> |>) s ranges.

Lemma send_ranges_inv ranges s id ext :
  runner_inv s -> runner_inv (send_ranges s id ext ranges) /\
  r_frames (send_ranges s id ext ranges) = r_frames s.
Proof.
  revert s. induction ranges as [|[a b] ranges IH]; intros s H; simpl; [done|].
  match goal with |- context [send_ranges ?t] => destruct (IH t) as [H1 H2] end; [|by split].
  destruct H. split; try done. simpl. unfold RESEND_ID_SEED, U16_MAX in *.
  destruct (r_resend_id s =? 65535) eqn:E; lia.
Qed.

Lemma error_ok_core f g : core f = core g -> error_ok f -> error_ok g.
Proof. unfold core. intros [= _ _ _ _ _ _ _ _ _ _ E]. unfold error_ok. by rewrite E. Qed.

Lemma frame_good_core f g : core f = core g -> frame_good f -> frame_good g.
Proof.
  intros E [H1 H2]. split; [by eapply frame_inv_core|by eapply error_ok_core].
Qed.

Lemma core_frame_id f g : core f = core g -> f_frame_id f = f_frame_id g.
Proof. by intros [=]. Qed.

(** The part of the worker that no packet changes until a frame closes. *)
Definition env (s : StreamRunner) := (r_cfg s, r_delivered s, r_last_frame_id s, r_first_packet s).

Lemma drain_commands_env s : env (drain_commands s) = env s.
Proof.
  unfold drain_commands. destruct (recv_all (r_rx s)) as [cmds rx].
  enough (forall t, env (foldl apply_command t cmds) = env t) as H by (by rewrite H).
  induction cmds as [|c cmds IH]; intros t; simpl; [done|]. rewrite IH. by destruct c.
Qed.

Lemma send_ranges_env ranges s i e : env (send_ranges s i e ranges) = env s.
Proof.
  revert s. induction ranges as [|[a b] ranges IH]; intros s; [done|]. simpl. by rewrite IH.
Qed.

Lemma missing_packet_check_ok s index f pid now :
  runner_inv s -> r_frames s !! index = Some f -> 0 <= pid ->
  exists s' f', missing_packet_check s index pid now = Some s' /\ runner_inv s' /\
    r_frames s' = <[index := f']> (r_frames s) /\ kept f' = kept f /\ env s' = env s.
Proof.
  intros H Hf Hpid. unfold missing_packet_check. rewrite Hf. simpl.
  assert (Some s = Some s /\ runner_inv s /\ r_frames s = <[index := f]> (r_frames s) /\
          kept f = kept f /\ env s = env s)
    as Hsame by (by rewrite list_insert_id).
  destruct (_ || _); [by eauto|]. destruct (_ =? 0); [by eauto|]. destruct (_ <=? pid) eqn:E; [by eauto|].
  destruct (runner_inv_lookup s index f H Hf) as [Hfi He].
  pose proof (fi_lvp _ (fi_shape _ _ _ _ Hfi)). pose proof (fi_packets _ (fi_shape _ _ _ _ Hfi)) as Hlen.
  set (i := Z.max _ 0). set (maxr := f64_to_usize _).
  destruct (decide (i <= pid + 2)) as [Hi|Hi].
  - destruct (scan_ok (r_cfg s) now pid maxr i (Z.to_nat (pid + 2 - i)) i f (mkScan f None [] false))
      as (sc & j & -> & [Hc _ _ _]); [lia..| |done|].
    { split; simpl; try done. intros _. split; [lia|by right]. }
    simpl. set (t := s <| r_frames ::= <[index := sc_frame sc]> |>).
    assert (runner_inv t) as Ht.
    { eapply (runner_inv_update s t index f (sc_frame sc)); try done.
      - eapply frame_good_core; [symmetry; apply kept_core, Hc|done].
      - by apply core_frame_id, kept_core. }
    destruct (sc_ratio sc).
    + do 2 eexists. split; [done|]. split_and!; [by eapply runner_inv_ext; [| |exact Ht]|done|done|done].
    + destruct (send_ranges_inv (sc_ranges sc) t (f_frame_id f) (f_extended_ids f) Ht) as [H1 H2].
      exists (send_ranges t (f_frame_id f) (f_extended_ids f) (sc_ranges sc)), (sc_frame sc).
      by rewrite H2, send_ranges_env.
  - replace (Z.to_nat (pid + 2 - i)) with 0%nat by lia. simpl.
    exists (s <| r_frames ::= <[index := f]> |>), f. split_and!; try done.
    by eapply (runner_inv_update s _ index f f).
Qed.

(** * Closing and discarding frames *)

Lemma remember_history s id ext fp :
  zlen (r_history s) <= HISTORY_LEN -> zlen (r_history (remember s id ext fp)) <= HISTORY_LEN.
Proof.
  unfold remember, HISTORY_LEN. intros H. destruct (128 <=? zlen (r_history s)) eqn:E; simpl;
    rewrite zlen_app, zlen_cons, zlen_nil; [|lia].
  destruct (r_history s); simpl; rewrite ?zlen_cons in *; [done|lia].
Qed.

Lemma remember_keep s id ext fp :
  r_payload_size (remember s id ext fp) = r_payload_size s /\
  r_pool (remember s id ext fp) = r_pool s /\ r_frames (remember s id ext fp) = r_frames s /\
  r_resend_id (remember s id ext fp) = r_resend_id s /\
  r_delivered (remember s id ext fp) = r_delivered s /\
  r_device_ip (remember s id ext fp) = r_device_ip s.
Proof. unfold remember. by destruct (_ <=? _). Qed.

Lemma runner_inv_remember s id ext fp : runner_inv s -> runner_inv (remember s id ext fp).
Proof.
  destruct (remember_keep s id ext fp) as (E1 & E2 & E3 & E4 & E5 & E6). intros [].
  split; rewrite ?E1, ?E2, ?E3, ?E4, ?E5, ?E6; try done. by apply remember_history.
Qed.

Lemma close_counters_keep s status f :
  rest (close_counters s status f) = rest s /\ r_frames (close_counters s status f) = r_frames s.
Proof. by destruct status. Qed.

(** Removing a frame keeps the invariant. *)
Lemma runner_inv_delete s index : runner_inv s -> runner_inv (s <| r_frames ::= delete index |>).
Proof.
  intros []. split; simpl; try done.
  - by apply Forall_delete.
  - rewrite list_fmap_delete. eapply sublist_NoDup; [done|apply sublist_delete].
Qed.

Lemma drop_slot_ok slot pool :
  slot_ok slot -> Forall slot_ok (contents pool) -> Forall slot_ok (contents (PooledBuf_drop slot pool)).
Proof.
  intros Hs Hp. unfold PooledBuf_drop. rewrite try_send_contents. apply Forall_app. split; [done|].
  case_decide; [by apply Forall_singleton|done].
Qed.

Lemma runner_inv_drop s slot :
  slot_ok slot -> runner_inv s -> runner_inv (s <| r_pool ::= PooledBuf_drop slot |>).
Proof. intros Hs []. split; simpl; try done. by apply drop_slot_ok. Qed.

Lemma frame_slot_ok f : frame_good f -> slot_ok (f_slot f).
Proof. intros [[_ (blk & n & HD & _)] _]. apply HD. Qed.

(** The frame handed out is what the invariant promises. *)
Lemma make_frame_ok s f status :
  frame_good f -> (status = Complete -> f_received_size f = f_data_end f) ->
  delivered_ok (make_frame s status f).
Proof.
  intros [[_ (blk & n & HD & _)] _] Hst. pose proof (data_part_received _ _ _ _ _ HD) as Hr.
  destruct HD as [D1 D2 D3 D4 D5 D6 D7]. unfold delivered_ok. simpl. split_and!; [done|lia..|].
  intros E. specialize (Hst E).
  destruct (blocks_tile blk n (f_block_size f) (slot_data (f_slot f)) (f_data_end f))
    as (ds & Hds & Hk); [done|lia|done|lia|].
  exists ds. split; [|by intros k d Hd; apply D7, Hk].
  unfold Frame_data. simpl. rewrite D1. by replace (Z.min _ _) with (f_data_end f) by lia.
Qed.

Lemma runner_inv_deliver s out :
  delivered_ok out -> runner_inv s -> runner_inv (s <| r_delivered ::= fun l => l ++ [out] |>).
Proof. intros Ho []. split; simpl; try done. apply Forall_app. split; [done|]. by apply Forall_singleton. Qed.

Lemma close_frame_ok s index f status :
  runner_inv s -> r_frames s !! index = Some f ->
  (status = Complete -> f_received_size f = f_data_end f) ->
  exists s', close_frame s index status = Some s' /\ runner_inv s' /\
    r_frames s' = delete index (r_frames s).
Proof.
  intros H Hf Hst. pose proof (runner_inv_lookup s index f H Hf) as Hg. unfold close_frame.
  destruct (drain_commands_keep s) as [_ Hfr]. rewrite Hfr, Hf. simpl.
  set (s1 := close_counters _ status f).
  assert (runner_inv s1 /\ r_frames s1 = delete index (r_frames s)) as [H1 Hfr1].
  { unfold s1. destruct (close_counters_keep (remember ((drain_commands s) <| r_frames ::= delete index |>)
      (f_frame_id f) (f_extended_ids f) (Some (f_fingerprints f))) status f) as [K1 K2].
    rewrite K2. destruct (remember_keep ((drain_commands s) <| r_frames ::= delete index |>)
      (f_frame_id f) (f_extended_ids f) (Some (f_fingerprints f))) as (_ & _ & K3 & _).
    split; [|rewrite K3; simpl; by rewrite Hfr].
    eapply runner_inv_ext; [symmetry; exact K1|symmetry; exact K2|].
    by apply runner_inv_remember, runner_inv_delete, runner_inv_drain. }
  assert (delivered_ok (make_frame s1 status f)) as Hout by (by apply make_frame_ok).
  clearbody s1. destruct (fan_out _ _) as [[subs dropped] taken].
  assert (runner_inv (s1 <| r_delivered ::= fun l => l ++ [make_frame s1 status f] |>)) as H2
    by (by apply runner_inv_deliver).
  set (s2 := if 0 <? dropped then _ else _).
  assert (runner_inv s2 /\ r_frames s2 = delete index (r_frames s)) as [H3 Hfr3].
  { unfold s2. destruct (0 <? dropped); (split; [|done]); by eapply runner_inv_ext; [| |exact H2]. }
  clearbody s2. eexists. split; [done|]. destruct taken; [by split|].
  split; [|done]. apply runner_inv_drop; [by apply frame_slot_ok|done].
Qed.

Lemma discard_frame_ok s index f :
  runner_inv s -> r_frames s !! index = Some f ->
  exists s', discard_frame s index = Some s' /\ runner_inv s' /\
    r_frames s' = delete index (r_frames s).
Proof.
  intros H Hf. unfold discard_frame. rewrite Hf. simpl. eexists. split; [done|]. split; [|done].
  apply runner_inv_drop; [by eapply frame_slot_ok, runner_inv_lookup|]. by apply runner_inv_delete.
Qed.

Lemma position_Some {A} (p : A -> bool) l i :
  position p l = Some i -> exists x, l !! i = Some x /\ p x = true.
Proof.
  unfold position. intros H. apply fmap_Some in H as ([j x] & Hx & ->).
  apply list_find_Some in Hx as (? & ? & _). eauto.
Qed.

Lemma position_None {A} (p : A -> bool) l :
  position p l = None -> Forall (fun x => p x = false) l.
Proof.
  unfold position. intros H%fmap_None. apply list_find_None in H.
  eapply Forall_impl; [exact H|]. intros x. simpl. by destruct (p x).
Qed.

Lemma discard_provisional_n_ok n s :
  runner_inv s -> (length (r_frames s) <= n)%nat ->
  exists s', discard_provisional_n n s = Some s' /\ runner_inv s' /\
    Forall (fun f => is_provisional f = false) (r_frames s') /\ r_frames s' `sublist_of` r_frames s.
Proof.
  revert s. induction n as [|n IH]; intros s H Hn; simpl;
    destruct (position is_provisional (r_frames s)) as [i|] eqn:E.
  - apply position_Some in E as (f & Hf & _). apply lookup_lt_Some in Hf. lia.
  - eexists. split; [done|]. split; [done|]. split; [by apply position_None|done].
  - apply position_Some in E as (f & Hf & _).
    destruct (discard_frame_ok s i f H Hf) as (s1 & -> & H1 & Hfr). simpl.
    destruct (IH s1 H1) as (s2 & -> & H2 & Hp & Hsub).
    { rewrite Hfr, length_delete by eauto. lia. }
    eexists. split; [done|]. split_and!; [done..|]. etrans; [done|]. rewrite Hfr. apply sublist_delete.
  - eexists. split; [done|]. split; [done|]. split; [by apply position_None|done].
Qed.

Lemma discard_provisional_ok s :
  runner_inv s -> exists s', discard_provisional s = Some s' /\ runner_inv s' /\
    Forall (fun f => is_provisional f = false) (r_frames s') /\ r_frames s' `sublist_of` r_frames s.
Proof. intros. by apply discard_provisional_n_ok. Qed.

Lemma abort_frames_n_ok n s :
  runner_inv s -> (length (r_frames s) <= n)%nat ->
  exists s', abort_frames_n n s = Some s' /\ runner_inv s' /\ r_frames s' = [].
Proof.
  revert s. induction n as [|n IH]; intros s H Hn; simpl; destruct (r_frames s) as [|f l] eqn:E;
    [by eauto|simpl in Hn; lia|by eauto|].
  destruct (close_frame_ok s 0 f Aborted H) as (s1 & -> & H1 & Hfr); [by rewrite E|done|]. simpl.
  apply IH; [done|]. rewrite Hfr, E. simpl in *. lia.
Qed.

Lemma flush_frames_ok s :
  runner_inv s -> exists s', flush_frames s = Some s' /\ runner_inv s' /\ r_frames s' = [].
Proof.
  intros H. unfold flush_frames. destruct (discard_provisional_ok s H) as (s1 & -> & H1 & _). simpl.
  by apply abort_frames_n_ok.
Qed.

(** * Completion *)

Lemma completion_status_ok f :
  error_ok f -> completion_status f = Complete -> f_received_size f = f_data_end f.
Proof.
  unfold completion_status. intros [->| ->]; simpl; [|discriminate].
  destruct (_ =? _) eqn:E; [lia|discriminate].
Qed.

Lemma timeout_status_ok f : error_ok f -> default Timeout (f_error f) <> Complete.
Proof. by intros [->| ->]. Qed.

(** One turn of the loop succeeds, and either removes the frame under the
    index or moves the index past it. *)
Lemma completion_step_ok s now current index can_close :
  runner_inv s -> (index < length (r_frames s))%nat ->
  exists s' index' can_close', completion_step s now current index can_close
      = Some (s', index', can_close') /\ runner_inv s' /\
    ((index' = S index /\ length (r_frames s') = length (r_frames s)) \/
     (index' = index /\ S (length (r_frames s')) = length (r_frames s)))%nat.
Proof.
  intros H Hi. unfold completion_step.
  destruct (lookup_lt_is_Some_2 _ _ Hi) as [f Hf]. rewrite Hf. simpl.
  destruct (runner_inv_lookup s index f H Hf) as [Hfi He].
  pose proof (fi_n _ (fi_shape _ _ _ _ Hfi)) as Hn.
  assert (S (length (delete index (r_frames s))) = length (r_frames s)) as Hdel
    by (rewrite length_delete by eauto; lia).
  assert (forall status, (status = Complete -> f_received_size f = f_data_end f) ->
    exists s' index' can_close', (s ← close_frame s index status; Some (s, index, can_close))
      = Some (s', index', can_close') /\ runner_inv s' /\
    ((index' = S index /\ length (r_frames s') = length (r_frames s)) \/
     (index' = index /\ S (length (r_frames s')) = length (r_frames s)))%nat) as Hclose.
  { intros status Hst. destruct (close_frame_ok s index f status H Hf Hst) as (s1 & -> & H1 & Hfr).
    simpl. do 3 eexists. split; [done|]. split; [done|right]. by rewrite Hfr. }
  destruct (is_provisional f).
  { destruct (_ || _).
    - destruct (discard_frame_ok s index f H Hf) as (s1 & -> & H1 & Hfr). simpl.
      do 3 eexists. split; [done|]. split; [done|right]. by rewrite Hfr.
    - do 3 eexists. split; [done|]. split; [done|by left]. }
  destruct (can_close && (_ =? _)); [by apply Hclose, completion_status_ok|].
  destruct (_ && existsb _ _); [by apply Hclose|].
  destruct (_ && (_ <=? duration_since now (f_last_packet_time f))).
  { apply Hclose. intros E. by destruct (timeout_status_ok f He). }
  destruct (negb _ && _).
  - rewrite wrap_small by (rewrite MAX_FRAME_PACKETS_eq in Hn; lia).
    rewrite checked_sub_ok by lia. simpl.
    destruct (missing_packet_check_ok s index f (f_n_packets f - 1) now H Hf) as (s1 & f1 & -> & H1 & Hfr & _);
      [lia|]. simpl. do 3 eexists. split; [done|]. split; [done|left]. by rewrite Hfr, length_insert.
  - do 3 eexists. split; [done|]. split; [done|by left].
Qed.

Lemma completion_loop_ok fuel s now current index can_close :
  runner_inv s -> (length (r_frames s) <= index + fuel)%nat ->
  exists s', completion_loop fuel s now current index can_close = Some s' /\ runner_inv s'.
Proof.
  revert s index can_close. induction fuel as [|fuel IH]; intros s index can_close H Hn; simpl;
    destruct (length (r_frames s) <=? index)%nat eqn:E; [by eauto|lia|by eauto|].
  destruct (completion_step_ok s now current index can_close H) as (s1 & i1 & c1 & -> & H1 & Hm); [lia|].
  simpl. apply IH; [done|]. lia.
Qed.

Lemma check_frame_completion_ok s now current :
  runner_inv s -> exists s', check_frame_completion s now current = Some s' /\ runner_inv s'.
Proof. intros. by apply completion_loop_ok. Qed.

(** * Opening a frame *)

Lemma compute_n_expected_bounds s view :
  r_payload_size s = P -> 0 <= v_packet_id view -> compute_n_expected_packets s view <> 0 ->
  1 <= compute_n_expected_packets s view <= MAX_FRAME_PACKETS /\ 0 < block_estimate s view.
Proof.
  intros E Hp. unfold compute_n_expected_packets.
  destruct (block_estimate s view =? 0) eqn:Eb; [done|].
  assert (0 < block_estimate s view) by (unfold block_estimate, saturating_sub in *; lia).
  intros Hz. split; [|done]. rewrite E in *.
  pose proof (div_ceil_nonneg P (block_estimate s view) ltac:(lia) ltac:(lia)).
  pose proof (packet_limit_bounds P s E ltac:(lia)). rewrite MAX_FRAME_PACKETS_eq in *.
  destruct (v_content_type view); try lia.
  - destruct (_ <$> _); [|lia]. destruct (_ || _); lia.
  - destruct (_ && _) eqn:Et; lia.
Qed.

Lemma new_frame_ok s view now slot n replay_of :
  slot_ok slot -> 1 <= n <= MAX_FRAME_PACKETS -> 0 < block_estimate s view ->
  frame_good (new_frame s view now (BufSlot_reset slot n) n replay_of).
Proof.
  intros Hs Hn Hb. split; [|by left]. split.
  - split; simpl; try lia. apply zlen_resize. lia.
  - exists (fun _ => None), 0%nat. split; [split|intros _; split]; simpl; try done; try lia.
    constructor.
Qed.

Lemma runner_inv_push s t f :
  runner_inv s -> rest t = rest s -> r_frames t = r_frames s ++ [f] -> frame_good f ->
  f_frame_id f ∉ (f_frame_id <$> r_frames s) -> runner_inv t.
Proof.
  intros [] [= E1 E2 E3 E4 E5 E6] E Hg Hid. split; rewrite ?E1, ?E2, ?E3, ?E4, ?E5, ?E6, ?E; try done.
  - apply Forall_app. split; [done|]. by apply Forall_singleton.
  - rewrite fmap_app. apply NoDup_app. split_and!; [done| |apply NoDup_singleton].
    intros x Hx Hy. apply list_elem_of_singleton in Hy. congruence.
Qed.

Lemma runner_inv_claim s slot pool :
  runner_inv s -> FramePool_try_claim (r_pool s) = Some (slot, pool) ->
  slot_ok slot /\ runner_inv (s <| r_pool := pool |>).
Proof.
  intros [] E. unfold FramePool_try_claim in E. pose proof (try_recv_spec (r_pool s)) as Hc.
  rewrite E in Hc. rewrite Hc in ri_pool0. apply Forall_cons in ri_pool0 as [? ?].
  split; [done|]. by split.
Qed.

(** The frame a packet is attributed to carries the packet's block id. *)
Definition found_ok (s : StreamRunner) (view : GvspView) (found : option nat) : Prop :=
  forall index, found = Some index -> exists f, r_frames s !! index = Some f /\ f_frame_id f = v_frame_id view.

Lemma create_frame_ok s view now inc_ replay_of :
  runner_inv s -> 0 <= v_packet_id view -> v_frame_id view ∉ (f_frame_id <$> r_frames s) ->
  exists s' found, create_frame s view now inc_ replay_of = Some (s', found) /\ runner_inv s' /\
    found_ok s' view found.
Proof.
  intros H Hp Hid. unfold create_frame.
  set (provisional := match replay_of with Some _ => _ | None => _ end).
  assert (exists t, (if provisional then Some s else discard_provisional s) = Some t /\ runner_inv t /\
            v_frame_id view ∉ (f_frame_id <$> r_frames t)) as (t & -> & Ht & Htid).
  { destruct provisional; [by eauto|].
    destruct (discard_provisional_ok s H) as (t & -> & Ht & _ & Hsub). exists t. split_and!; [done..|].
    intros Hin. apply Hid. eapply elem_of_sublist; [exact Hin|]. by apply fmap_sublist. }
  simpl. clear s H Hid. destruct (_ =? 0) eqn:En.
  { destruct provisional; (do 2 eexists; split; [done|]; split; [|by intros ?]).
    - by eapply runner_inv_ext; [| |exact Ht].
    - apply runner_inv_remember. by eapply runner_inv_ext; [| |exact Ht]. }
  destruct (compute_n_expected_bounds t view (ri_payload _ Ht) Hp) as [Hn Hb]; [lia|].
  destruct (FramePool_try_claim (r_pool t)) as [[slot pool]|] eqn:Ec.
  2: { destruct provisional; (do 2 eexists; split; [done|]; split; [|by intros ?]).
    - by eapply runner_inv_ext; [| |exact Ht].
    - apply runner_inv_remember. by eapply runner_inv_ext; [| |exact Ht]. }
  destruct (runner_inv_claim t slot pool Ht Ec) as [Hslot Ht1].
  set (t1 := t <| r_pool := pool |>) in *. set (t2 := if provisional then t1 else _).
  assert (rest t2 = rest t1 /\ r_frames t2 = r_frames t /\
          block_estimate t2 view = block_estimate t view) as (E1 & E2 & E3)
    by (unfold t2; destruct provisional; [done|]; by destruct (1 <? inc_)).
  clearbody t2. do 2 eexists. split; [done|]. split.
  - eapply (runner_inv_push t1); [done| |simpl; by rewrite E2| |done]; [done|].
    apply new_frame_ok; [done..|]. by rewrite E3.
  - intros index [= <-]. eexists. simpl. rewrite lookup_app_r, Nat.sub_diag by lia. done.
Qed.

Lemma find_or_create_frame_ok s view now :
  runner_inv s -> 0 <= v_packet_id view ->
  exists s' found, find_or_create_frame s view now = Some (s', found) /\ runner_inv s' /\
    found_ok s' view found.
Proof.
  intros H Hp. unfold find_or_create_frame.
  destruct (position _ (r_frames s)) as [i|] eqn:E.
  - apply position_Some in E as (f & Hf & Hid%Z.eqb_eq). do 2 eexists. split; [done|]. split.
    + eapply (runner_inv_update s _ i f (f <| f_last_packet_time := now |>)); try done.
      * by apply alter_insert.
      * eapply frame_good_core; [|by eapply runner_inv_lookup]. done.
    + intros index [= <-]. simpl. eexists. rewrite list_lookup_alter_eq, Hf. done.
  - assert (v_frame_id view ∉ (f_frame_id <$> r_frames s)) as Hid.
    { intros (f & Hf & Hin)%list_elem_of_fmap_1.
      pose proof (proj1 (Forall_forall _ _) (position_None _ _ E) f Hin) as Hne. simpl in Hne. lia. }
    destruct (_ && _); [|by apply create_frame_ok].
    destruct (classify_behind s view); [by apply create_frame_ok| |by apply create_frame_ok].
    do 2 eexists. split; [done|]. split; [|by intros ?]. by eapply runner_inv_ext; [| |exact H].
Qed.

(** * One packet *)

Lemma write_block_error f off d f' : write_block f off d = Some f' -> f_error f' = f_error f.
Proof. unfold write_block. destruct (get_range _ _ _); [|discriminate]. by intros [= <-]. Qed.

Lemma place_error f pid d st f' st' :
  FrameInFlight_place f pid d st = Some (f', st') -> error_ok f -> error_ok f'.
Proof.
  unfold FrameInFlight_place, error_ok. intros E He.
  destruct (_ <? zlen d); [injection E as <- _; by right|].
  destruct (checked_sub pid 1); [|discriminate]. simpl in E.
  destruct (USIZE_MAX <? _); [injection E as <- _; by right|].
  destruct (_ <? saturating_add _ _).
  - destruct (checked_sub _ 2); [|discriminate]. simpl in E.
    destruct (_ <=? _); [by injection E as <- _|].
    destruct (write_block _ _ _) eqn:Ew; [|discriminate]. injection E as <- _.
    by rewrite (write_block_error _ _ _ _ Ew).
  - destruct (write_block _ _ _) eqn:Ew; [|discriminate]. injection E as <- _.
    by rewrite (write_block_error _ _ _ _ Ew).
Qed.

Lemma place_held_error held f st f' st' :
  place_held held f st = Some (f', st') -> error_ok f -> error_ok f'.
Proof.
  revert f st. induction held as [|[id d] held IH]; intros f st; simpl; [by intros [= <- _]|].
  destruct (f_error f) eqn:Ef; [by intros [= <- _]|].
  destruct (_ <? id); [intros [= <- _] _; by right|].
  destruct (FrameInFlight_place f id d st) as [[f1 st1]|] eqn:Ep; [|discriminate]. simpl.
  intros E He. eapply IH; [exact E|]. by eapply place_error.
Qed.

Lemma learn_block_error f d f' b : learn_block P f d = Some (f', b) -> error_ok f -> error_ok f'.
Proof.
  unfold learn_block. set (g := match d with [] => _ | _ => _ end).
  assert (f_error g = f_error f) as Eg by (by destruct d). clearbody g.
  unfold error_ok. rewrite <- Eg.
  destruct (f_block_size g =? 0); [discriminate|]. destruct (negb _); [by intros [= <- _]|].
  destruct (_ <? _); intros [= <- _]; [by right|done].
Qed.

Lemma process_payload_error s f view f' st' :
  r_payload_size s = P -> process_payload s f view = Some (f', st') -> error_ok f -> error_ok f'.
Proof.
  intros EP. unfold process_payload. destruct (f_error f) eqn:Ef; [by intros [= <- _]|].
  rewrite EP. set (l := if _ : bool then learn_block _ _ _ else _).
  destruct l as [[f1 go]|] eqn:El; [|discriminate]. simpl. intros E He.
  assert (error_ok f1) as H1.
  { unfold l in El. destruct (_ && _); [by eapply learn_block_error|]. by injection El as <- _. }
  clear El l. destruct go; simpl in E; [|by injection E as <- _].
  set (lp := if _ : bool then Some _ else checked_sub _ _) in E. destruct lp as [z|]; [|discriminate]. simpl in E.
  destruct (_ || _); [injection E as <- _; by right|].
  destruct (negb _).
  - destruct (_ <? _); [injection E as <- _; by right|]. destruct (_ <? _); by injection E as <- _.
  - destruct (FrameInFlight_place _ _ _ _) as [[f2 st2]|] eqn:Ep; [|discriminate]. simpl in E.
    destruct (place_held _ _ _) as [[f3 st3]|] eqn:Eh; [|discriminate]. injection E as <- _.
    eapply (place_held_error _ _ _ _ _ Eh). by eapply place_error in Ep.
Qed.

Lemma process_trailer_error s f view f' :
  process_trailer s f view = Some f' -> error_ok f -> error_ok f'.
Proof.
  unfold process_trailer. simpl. destruct (f_error f) eqn:Ef; [by intros [= <-]|]. intros E He.
  set (bd := if _ : bool then (if _ =? 0 then _ else _) else Some _) in E. destruct bd; [|discriminate]. simpl in E.
  destruct (_ || _); [injection E as <-; by right|]. destruct (negb _); by injection E as <-.
Qed.

Lemma advance_valid_spec n packets i :
  0 <= i -> i + Z.of_nat n <= zlen packets -> 
  i <= advance_valid n packets i <= i + Z.of_nat n /\
  forall j, i <= j < advance_valid n packets i -> (received <$> packets) !! Z.to_nat j = Some true.
Proof.
  revert i. induction n as [|n IH]; intros i Hi Hn; simpl; [split; intros; lia|].
  destruct (get_at_is_Some packets i) as [p Hp]; [lia|]. rewrite Hp.
  destruct (received p) eqn:Er; [|split; intros; lia].
  destruct (IH (i + 1)) as [H1 H2]; [lia..|]. split; [lia|]. intros j Hj.
  destruct (decide (j = i)) as [->|]; [|apply H2; lia].
  rewrite list_lookup_fmap. unfold get_at in Hp. replace (0 <=? i) with true in Hp by lia.
  rewrite Hp. simpl. by rewrite Er.
Qed.

(** Marking a packet received only adds to the received set. *)
Lemma rcv_mark f pid g i :
  (forall p, received (g p) = true) -> rcv f i -> rcv (packet_update f pid g) i.
Proof.
  unfold rcv, packet_update. intros Hg Hr. simpl. rewrite list_lookup_fmap in *.
  destruct (decide (Z.to_nat pid = Z.to_nat i)) as [->|].
  - rewrite list_lookup_alter_eq. destruct (_ !! _); [simpl; by rewrite Hg|discriminate].
  - by rewrite list_lookup_alter_ne.
Qed.

Lemma rcv_mark_self f pid g :
  (forall p, received (g p) = true) -> 0 <= pid < zlen (slot_packets (f_slot f)) ->
  rcv (packet_update f pid g) pid.
Proof.
  unfold rcv, packet_update. intros Hg Hr. simpl. rewrite list_lookup_fmap, list_lookup_alter_eq.
  destruct (lookup_lt_is_Some_2 (slot_packets (f_slot f)) (Z.to_nat pid)) as [p ->];
    [unfold zlen in Hr; lia|]. simpl. by rewrite Hg.
Qed.

Lemma zlen_alter {A} (g : A -> A) i (l : list A) : zlen (alter g i l) = zlen l.
Proof. unfold zlen. by rewrite length_alter. Qed.

(** Once its packet is marked, the frame is back in the invariant. *)
Lemma frame_inv_mark f g pid :
  frame_inv_at src P pid f -> (forall i, rcv f i -> rcv g i) -> (pid < f_n_packets f -> rcv g pid) ->
  data_core f = data_core g -> f_n_packets g = f_n_packets f -> f_held g = f_held f ->
  f_block_known g = f_block_known f -> f_error g = f_error f ->
  f_last_valid_packet g = f_last_valid_packet f ->
  zlen (slot_packets (f_slot g)) = zlen (slot_packets (f_slot f)) -> frame_inv src P g.
Proof.
  intros [[Hp Hn Hl Hpre] (blk & n & HD & HO)] Hr Hpid Ec En Eh Ek Ee El Ez.
  assert (f_frame_id g = f_frame_id f) as Ei by (by injection Ec).
  split; [split|]; rewrite ?Ez, ?En, ?El; try done.
  - intros i Hi. apply Hr, Hpre. done.
  - exists blk, n. split; [by eapply data_part_core|]. rewrite Ee. intros He.
    destruct (HO He) as [O1 O2 O3 O4 O5]. split; rewrite ?En, ?Eh, ?Ek, ?Ei; try done.
    + intros i d Hd. destruct (O1 i d Hd) as [? [?|E]]; (split; [done|left]); [by apply Hr|].
      rewrite E in *. apply Hpid. lia.
    + eapply Forall_impl; [exact O5|]. intros [id d] (? & [?|E] & ?); (split_and!; [lia..|left|done]);
        [by apply Hr|]. rewrite E in *. apply Hpid. lia.
Qed.

(** Advancing the end of the received prefix. *)
Lemma frame_inv_advance f v fps :
  frame_inv src P f -> f_last_valid_packet f <= v < f_n_packets f ->
  (forall i, 0 <= i <= v -> rcv f i) ->
  frame_inv src P (f <| f_last_valid_packet := v |> <| f_fingerprints := fps |>).
Proof.
  intros [[Hp Hn Hl Hpre] (blk & n & HD & HO)] Hv Hr. split; [split|]; simpl; try done; [lia|].
  exists blk, n. split; [by apply (data_part_core src P f)|]. intros He.
  destruct (HO He) as [O1 O2 O3 O4 O5]. by split.
Qed.

Lemma accept_packet_ok s index view f :
  r_frames s !! index = Some f -> frame_inv_at src P (v_packet_id view) f -> error_ok f ->
  0 <= v_packet_id view ->
  exists s' b f', accept_packet s index view = Some (s', b) /\ rest s' = rest s /\
    r_frames s' = <[index := f']> (r_frames s) /\ frame_good f' /\ f_frame_id f' = f_frame_id f.
Proof.
  intros Hf Hi He Hp. unfold accept_packet. rewrite Hf. simpl. set (pid := v_packet_id view) in *.
  set (m := if pid <? f_n_packets f then _ else Some (f, r_stats s)).
  pose proof (fi_packets _ (fi_shape _ _ _ _ Hi)) as Hlen.
  assert (exists g st, m = Some (g, st) /\ frame_inv src P g /\ error_ok g /\ f_frame_id g = f_frame_id f)
    as (g & st & -> & Hg & Hge & Hgi).
  { unfold m. destruct (pid <? f_n_packets f) eqn:E.
    - destruct (get_at_is_Some (slot_packets (f_slot f)) pid) as [p ->]; [lia|]. simpl.
      do 2 eexists. split; [done|]. split; [|done].
      eapply (frame_inv_mark f); try done.
      + intros i. by apply rcv_mark.
      + intros _. apply rcv_mark_self; [done|lia].
      + apply zlen_alter.
    - do 2 eexists. split; [done|]. split; [|done]. eapply (frame_inv_mark f); try done. lia. }
  simpl. destruct (Fingerprints_record _ _ _) as [fps b]. do 3 eexists.
  split; [done|]. split; [done|]. split; [done|].
  pose proof Hg as [[G1 G2 G3 G4] _].
  destruct (advance_valid_spec (Z.to_nat (f_n_packets g - (f_last_valid_packet g + 1)))
    (slot_packets (f_slot g)) (f_last_valid_packet g + 1)) as [A1 A2]; [lia..|].
  split; [split|]; [|done|done]. apply frame_inv_advance; [done|lia|].
  intros i Hb. destruct (decide (i <= f_last_valid_packet g)); [by apply G4; lia|]. apply A2. lia.
Qed.

Lemma adopt_restart_ok s index f :
  runner_inv s -> r_frames s !! index = Some f ->
  exists s' f', adopt_restart s index = Some s' /\ runner_inv s' /\
    r_frames s' = <[index := f']> (r_frames s) /\ f_frame_id f' = f_frame_id f.
Proof.
  intros H Hf. unfold adopt_restart. rewrite Hf. simpl. do 2 eexists. split; [done|]. split; [|done].
  eapply runner_inv_update; [exact H|exact Hf|done|done| |done].
  eapply frame_good_core; [|by eapply runner_inv_lookup]. done.
Qed.

(** What the environment promises about a packet: it was received. *)
Definition view_ok (view : GvspView) : Prop :=
  0 <= v_packet_id view /\
  (v_content_type view = Payload -> src (v_frame_id view) (v_packet_id view) (v_data view)).

Lemma dispatch_packet_ok s index f view sys_ns :
  runner_inv s -> r_frames s !! index = Some f -> f_frame_id f = v_frame_id view -> view_ok view ->
  ~ rcv f (v_packet_id view) ->
  exists r, dispatch_packet s index view sys_ns = Some r /\
    forall s', r = Some s' -> exists f', rest s' = rest s /\ r_frames s' = <[index := f']> (r_frames s) /\
      frame_inv_at src P (v_packet_id view) f' /\ error_ok f' /\ f_frame_id f' = f_frame_id f.
Proof.
  intros H Hf Hid [Hp Hs] Hnr. destruct (runner_inv_lookup s index f H Hf) as [Hi He].
  unfold dispatch_packet. rewrite Hf. simpl. destruct (v_content_type view) eqn:Ec;
    try (eexists; split; [done|]; by intros ? [=]).
  - eexists. split; [done|]. intros s' [= <-]. exists (process_leader f view sys_ns).
    split_and!; [done|done|by apply process_leader_ok|..].
    + unfold process_leader, error_ok. destruct (f_error f) eqn:E; [by rewrite E; rewrite <- E|].
      destruct (negb _); [by right|by left].
    + unfold process_leader. destruct (f_error f); [done|]. by destruct (negb _).
  - destruct (process_trailer_ok src P s f view) as (f1 & Ht & Hf1 & Hid1);
      [apply H|done..|]. rewrite Ht. simpl. eexists. split; [done|]. intros s' [= <-]. exists f1.
    split_and!; [done..| |done]. by eapply process_trailer_error.
  - destruct (process_payload_ok src P s f view) as (f1 & st1 & Ht & Hf1 & Hid1);
      [apply H|done..|by rewrite Hid; apply Hs|]. rewrite Ht. simpl. eexists. split; [done|].
    intros s' [= <-]. exists f1. split_and!; [done..| |done].
    eapply process_payload_error; [apply H|done|done].
Qed.

Lemma not_received_rcv f pid :
  0 <= pid ->
  match get_at (slot_packets (f_slot f)) pid with Some p => received p | None => false end = false ->
  ~ rcv f pid.
Proof.
  intros Hp E Hr. destruct (get_at _ pid) as [p|] eqn:Eg.
  - apply (get_at_rcv f pid p Eg) in Hr. congruence.
  - destruct (get_at_is_Some (slot_packets (f_slot f)) pid) as [x Hx]; [|congruence].
    split; [done|]. by apply rcv_in_range.
Qed.

Lemma insert_lookup_self {A} (l : list A) i x y : l !! i = Some x -> <[i := y]> l !! i = Some y.
Proof. intros H. apply list_lookup_insert_eq. by eapply lookup_lt_Some. Qed.

(** After the packet is dispatched: account for it, look for holes, close
    what is complete. *)
Lemma finish_packet_ok s t index f f1 view now (provisional : bool) :
  runner_inv s -> r_frames s !! index = Some f -> rest t = rest s ->
  r_frames t = <[index := f1]> (r_frames s) -> frame_inv_at src P (v_packet_id view) f1 ->
  error_ok f1 -> f_frame_id f1 = f_frame_id f -> 0 <= v_packet_id view ->
  exists s', ('(s, diverged) ← accept_packet t index view;
        s ← (if provisional && diverged then adopt_restart s index else Some s);
        s ← missing_packet_check s index (v_packet_id view) now;
        f ← r_frames s !! index;
        check_frame_completion s now (Some (f_frame_id f))) = Some s' /\ runner_inv s'.
Proof.
  intros H Hf Er Efr Hf1 He1 Hid1 Hp.
  destruct (accept_packet_ok t index view f1) as (s1 & b & f2 & -> & R1 & Fr1 & Hg2 & Hid2);
    [rewrite Efr; by eapply insert_lookup_self|done..|]. cbn [mbind option_bind].
  assert (r_frames s1 = <[index := f2]> (r_frames s)) as Fr1' by (by rewrite Fr1, Efr, list_insert_insert_eq).
  assert (runner_inv s1) as H1.
  { eapply (runner_inv_update s s1 index f f2); [done|done|congruence|done|done|congruence]. }
  assert (r_frames s1 !! index = Some f2) as Hf2 by (rewrite Fr1'; by eapply insert_lookup_self).
  assert (exists s2 f3, (if provisional && b then adopt_restart s1 index else Some s1) = Some s2 /\
            runner_inv s2 /\ r_frames s2 !! index = Some f3) as (s2 & f3 & -> & H2 & Hf3).
  { destruct (provisional && b); [|by eauto].
    destruct (adopt_restart_ok s1 index f2 H1 Hf2) as (s2 & f3 & -> & H2 & Fr2 & _).
    exists s2, f3. split_and!; [done|done|]. rewrite Fr2. by eapply insert_lookup_self. }
  cbn [mbind option_bind].
  destruct (missing_packet_check_ok s2 index f3 (v_packet_id view) now H2 Hf3 Hp)
    as (s3 & f4 & -> & H3 & Fr3 & _). cbn [mbind option_bind].
  rewrite Fr3, (insert_lookup_self _ _ _ f4 Hf3). cbn [mbind option_bind].
  by apply check_frame_completion_ok.
Qed.

Lemma process_in_frame_ok s index f view now sys_ns :
  runner_inv s -> r_frames s !! index = Some f -> f_frame_id f = v_frame_id view -> view_ok view ->
  exists s', process_in_frame s index view now sys_ns = Some s' /\ runner_inv s'.
Proof.
  intros H Hf Hid Hv. unfold process_in_frame. rewrite Hf. cbn [mbind option_bind].
  set (s1 := if is_provisional f then _ else s).
  assert (exists f1, runner_inv s1 /\ r_frames s1 !! index = Some f1 /\ f_frame_id f1 = v_frame_id view /\
            slot_packets (f_slot f1) = slot_packets (f_slot f)) as (f1 & H1 & Hf1 & Hid1 & Hpk).
  { unfold s1. destruct (is_provisional f); [|by eauto].
    eexists. split; [|split; [simpl; by eapply insert_lookup_self|done]].
    eapply (runner_inv_update s _ index f); [done|done|done|done| |done].
    eapply frame_good_core; [|by eapply runner_inv_lookup]. done. }
  clearbody s1. destruct (is_error (v_status view)).
  { eexists. split; [done|].
    destruct (resend_gone _); [|by eapply runner_inv_ext; [| |exact H1]].
    eapply (runner_inv_update s1 _ index f1); [done|done|done|by apply alter_insert| |done].
    eapply frame_good_core; [|by eapply runner_inv_lookup]. done. }
  destruct (match get_at _ _ with Some p => _ | None => _ end) eqn:Er.
  { eexists. split; [done|]. destruct (is_provisional f); [done|]. by eapply runner_inv_ext; [| |exact H1]. }
  assert (~ rcv f1 (v_packet_id view)) as Hnr.
  { apply not_received_rcv; [apply Hv|]. by rewrite Hpk. }
  destruct (dispatch_packet_ok s1 index f1 view sys_ns) as (r & -> & Hr); [done..|].
  cbn [mbind option_bind]. destruct r as [t|].
  - destruct (Hr t eq_refl) as (f2 & R & Fr & Hf2 & He2 & Hid2).
    eapply finish_packet_ok; [exact H1|exact Hf1|done..|apply Hv].
  - eexists. split; [done|]. destruct (is_provisional f); [done|]. by eapply runner_inv_ext; [| |exact H1].
Qed.

Lemma process_packet_ok s datagram now sys_ns :
  runner_inv s -> (forall view, GvspView_parse datagram = Some view -> view_ok view) ->
  exists s', process_packet s datagram now sys_ns = Some s' /\ runner_inv s'.
Proof.
  intros H Hv. unfold process_packet. destruct (GvspView_parse datagram) as [view|].
  2: { eexists. split; [done|]. by eapply runner_inv_ext; [| |exact H]. }
  specialize (Hv view eq_refl). set (s1 := if r_first_packet s then _ else s).
  assert (runner_inv s1) as H1
    by (unfold s1; destruct (r_first_packet s); [by eapply runner_inv_ext; [| |exact H]|done]).
  destruct (find_or_create_frame_ok s1 view now H1) as (s2 & found & -> & H2 & Hfound); [apply Hv|].
  simpl. destruct found as [index|]; [|by eauto].
  destruct (Hfound index eq_refl) as (f & Hf & Hid). by eapply process_in_frame_ok.
Qed.

(** * The worker loop *)

Definition input_ok (r : RecvResult) : Prop :=
  match r with
  | RecvDatagram from datagram _ _ _ =>
      from = ip -> forall view, GvspView_parse datagram = Some view -> view_ok view
  | _ => True
  end.

Lemma drain_socket_ok input s :
  runner_inv s -> Forall input_ok input ->
  exists s', drain_socket s input = Some s' /\ runner_inv s'.
Proof.
  revert s. induction input as [|r input IH]; intros s H Hin; [by eauto|].
  apply Forall_cons in Hin as [Hr Hin]. destruct r as [from d drops now sys| | | |]; simpl; eauto.
  set (s1 := match drops with Some _ => _ | None => _ end).
  assert (runner_inv s1) as H1 by (unfold s1; destruct drops; by eapply runner_inv_ext; [| |exact H]).
  destruct (negb _) eqn:Eip; [by apply IH|]. rewrite (ri_ip _ H1) in Eip.
  match goal with |- context [process_packet ?t] =>
    destruct (process_packet_ok t d now sys) as (s2 & -> & H2) end;
    [by eapply runner_inv_ext; [| |exact H1]|apply Hr; lia|]. simpl. by apply IH.
Qed.

Lemma run_pass_ok s ready input now :
  runner_inv s -> Forall input_ok input ->
  exists s' b, run_pass s ready input now = Some (s', b) /\ runner_inv s'.
Proof.
  intros H Hin. unfold run_pass. pose proof (runner_inv_drain s H) as H1.
  destruct (r_shutdown_requested _); [by eauto|].
  assert (exists s2, (if ready then drain_socket (drain_commands s) input else Some (drain_commands s)) = Some s2
            /\ runner_inv s2) as (s2 & -> & H2) by (destruct ready; [by apply drain_socket_ok|by eauto]).
  simpl. destruct (check_frame_completion_ok s2 now None H2) as (s3 & -> & H3). simpl.
  do 2 eexists. split; [done|]. by eapply runner_inv_ext; [| |exact H3].
Qed.

Lemma run_exit_ok s : runner_inv s -> exists s', run_exit s = Some s' /\ runner_inv s' /\ r_frames s' = [].
Proof.
  intros H. unfold run_exit. destruct (flush_frames_ok s H) as (s1 & -> & H1 & Hf). simpl.
  eexists. split; [done|]. split; [by eapply runner_inv_ext; [| |exact H1]|done].
Qed.

Lemma run_ok passes s :
  runner_inv s -> Forall (fun p => Forall input_ok (pass_input p)) passes ->
  exists s', run_loop s passes = Some s' /\ runner_inv s' /\ r_frames s' = [].
Proof.
  revert s. induction passes as [|p passes IH]; intros s H Hp; simpl; [by apply run_exit_ok|].
  apply Forall_cons in Hp as [Hp Hps].
  destruct (run_pass_ok (deliver_commands s (pass_commands p)) (pass_ready p) (pass_input p) (pass_now p))
    as (s1 & b & -> & H1); [by eapply runner_inv_ext; [| |exact H]|done|]. simpl.
  destruct b; [by apply IH|by apply run_exit_ok].
Qed.

Lemma runner_new_inv rx pool cfg scps resend tick :
  Forall slot_ok (contents pool) -> runner_inv (runner_new ip rx pool cfg scps P resend tick).
Proof.
  intros Hp. split; simpl; try done; try constructor; try (unfold RESEND_ID_SEED, U16_MAX; lia).
Qed.
End safety.

(** * The theorem *)

Section theorems.
Context {FC : Chan Frame} {PC : Chan BufSlot} {CC : Chan ToStreamWorker} {HS : PacketHasher}.

(** Payload packet [k] of block [id] arrived from the device with data [d]. *)
Definition received_payload (ip : Z) (passes : list Pass) (id k : Z) (d : bytes) : Prop :=
  exists p datagram drops now sys_ns view,
    p ∈ passes /\ RecvDatagram ip datagram drops now sys_ns ∈ pass_input p /\
    GvspView_parse datagram = Some view /\ v_content_type view = Payload /\
    v_frame_id view = id /\ v_packet_id view = k /\ v_data view = d.

(** Datagrams are byte strings. *)
Definition recv_ok (r : RecvResult) : Prop :=
  match r with RecvDatagram _ datagram _ _ _ => bytes_ok datagram | _ => True end.

Lemma recv_input_ok ip passes p r :
  p ∈ passes -> r ∈ pass_input p -> recv_ok r -> input_ok (received_payload ip passes) ip r.
Proof.
  intros Hp Hr Hok. destruct r as [from d drops now sys| | | |]; simpl; try done.
  intros -> view Hview. destruct (GvspView_parse_ok d view Hok Hview) as (_ & _ & [? _] & _).
  split; [done|]. intros Hc. by exists p, d, drops, now, sys, view.
Qed.

(** C1: for every sequence of commands, datagrams (any bytes, from anyone, in
    any order) and clock readings to which the packet timeouts can be added,
    the receiver, built without overflow checks, runs to the end without a
    panic, leaves no frame open, and every frame it handed out is sound: the
    data lies in the buffer, and a frame marked complete is the concatenation,
    in packet order, of payload packets that arrived from the device for that
    block, none cut short unless the buffer is full. *)
Theorem stream_run_safe (ip : Z) (rx : chan ToStreamWorker) (pool : chan BufSlot)
    (cfg : StreamConfig) (scps P : Z) (resend : bool) (tick : Z) (passes : list Pass) :
  0 <= P <= I64_MAX ->
  Forall (fun slot => zlen (slot_data slot) = P) (contents pool) ->
  Forall (fun p => Forall recv_ok (pass_input p)) passes ->
  Forall (fun p => pass_clock_ok cfg p) passes ->
  exists s, run (runner_new ip rx pool cfg scps P resend tick) passes = Some s /\
    r_frames s = [] /\ Forall (delivered_ok (received_payload ip passes) P) (r_delivered s).
Proof.
  intros HP Hpool Hin Hclock. unfold run. cbn [r_cfg runner_new].
  replace (forallb (pass_clock_ok cfg) passes) with true by (symmetry; by apply Is_true_true, forallb_True).
  destruct (run_ok (received_payload ip passes) P ip HP passes
              (runner_new ip rx pool cfg scps P resend tick)) as (s & Hs & Hinv & Hf).
  - by apply runner_new_inv.
  - apply Forall_forall. intros p Hp. apply Forall_forall. intros r Hr.
    eapply recv_input_ok; [done|done|].
    by apply (proj1 (Forall_forall _ _) (proj1 (Forall_forall _ _) Hin p Hp) r Hr).
  - exists s. split_and!; [done..|]. apply Hinv.
Qed.
End theorems.

(** * A concrete run *)

(** Channels are the reference queues, the hash a sum; a stray datagram, then a
    one-packet block with a trailer that arrives before its payload. *)
#[local] Instance sum_hash : PacketHasher := fun content data => foldr Z.add content data.

Definition safe_passes : list Pass :=
  [mkPass [] true [RecvDatagram 9 [1; 2; 3] None 0 0] 0;
   mkPass [] true [RecvDatagram 9 (std_packet 0 7 2 2 [0; 0]) None 5 0;
                   RecvDatagram 9 (std_packet 0 7 1 3 [10; 20]) None 6 0] 9].

Definition safe_rx : chan ToStreamWorker := mkQueue [] None true.
Definition safe_pool : chan BufSlot := FramePool_new 2 4.

Lemma stream_run_safe_witness :
  exists s, run (runner_new 9 safe_rx safe_pool StreamConfig_new 100 4 true 0) safe_passes = Some s /\
    r_frames s = [] /\ Forall (delivered_ok (received_payload 9 safe_passes) 4) (r_delivered s).
Proof.
  apply (stream_run_safe 9 safe_rx safe_pool StreamConfig_new 100 4 true 0 safe_passes).
  - by vm_compute.
  - by repeat constructor.
  - apply Forall_cons; split; [|apply Forall_cons; split; [|done]]; repeat (apply Forall_cons; split); try done;
      by apply bytes_ok_dec_true.
  - by repeat constructor.
Defined.

(** Trailers of four blocks whose 64-bit ids run around the circle: the counter
    of missing blocks passes the width of its type and wraps.  A build with
    overflow checks panics here. *)
Definition ex_jump (id now : Z) : RecvResult := RecvDatagram 9 (ext_packet 0 0 id 2 2 [0; 0]) None now 0.

Example missing_frames_wrap :
  (fun s => st_missing_frames (r_stats s)) <$>
    drain_socket (runner_new 9 safe_rx (FramePool_new 8 4 : chan BufSlot) StreamConfig_new 100 4 true 0)
      [ex_jump 1 0; ex_jump (2 ^ 63) 1; ex_jump (2 ^ 64 - 1) 2; ex_jump (2 ^ 63 - 1) 3]
  = Some ((2 ^ 63 - 2 + (2 ^ 63 - 2) + (2 ^ 63 - 2)) mod 2 ^ 64).
Proof. vm_compute. reflexivity. Qed.
