(* ===== verification/Burst.v ===== *)
(** Exact reassembly: a burst of packets as a device sends it, received in any
    order and with any duplicates, comes out as one complete frame that holds
    exactly the image.

    The burst is given by its payload blocks: all of the same length but the
    last.  [binv rc qs f] says that the frame [f] has absorbed exactly the
    packets [qs] of the burst (and has marked [rc] received). *)

From S2P Require Import Prelude Gvcp Gvsp Channel Float64 Frame Reassembly ReassemblyInv ReassemblySafe.

(** * Sums over blocks *)

Lemma sum_blocks_ext blk blk' n : (forall i, blk i = blk' i) -> sum_blocks blk n = sum_blocks blk' n.
Proof. intros E. induction n; simpl; [done|]. by rewrite IHn, E. Qed.

Lemma sum_blocks_concat (ds : list bytes) :
  sum_blocks (fun k => ds !! k) (length ds) = zlen (concat ds).
Proof.
  enough (forall n, (n <= length ds)%nat ->
    sum_blocks (fun k => ds !! k) n = zlen (concat (take n ds))) as H
    by (rewrite H, take_ge by lia; done).
  induction n as [|n IH]; intros Hn; simpl; [done|].
  destruct (lookup_lt_is_Some_2 ds n) as [d Hd]; [lia|].
  rewrite IH, Hd, (take_S_r _ _ _ Hd), concat_app, zlen_app by lia. simpl. by rewrite app_nil_r.
Qed.

Lemma sum_blocks_mono blk blk' n :
  (forall i d, blk i = Some d -> blk' i = Some d) -> sum_blocks blk n <= sum_blocks blk' n.
Proof.
  intros H. induction n as [|n IH]; simpl; [lia|].
  destruct (blk n) as [d|] eqn:E; [rewrite (H n d E); lia|].
  pose proof (block_len_nonneg (blk' n)). simpl. lia.
Qed.

Lemma data_part_blocks src P f blk blk' n :
  (forall i, blk i = blk' i) -> data_part src P f blk n -> data_part src P f blk' n.
Proof.
  intros E []. split; try done.
  - by rewrite dp_sum, (sum_blocks_ext _ _ _ E).
  - intros i Hi. rewrite <- E. by apply dp_bound.
  - intros i d. rewrite <- E. apply dp_blocks.
  - intros i d. rewrite <- E. apply dp_src.
Qed.

(** The advance of [last_valid_packet] stops at the first hole. *)
Lemma advance_valid_stop n packets i :
  0 <= i -> advance_valid n packets i = i + Z.of_nat n \/
  (received <$> packets) !! Z.to_nat (advance_valid n packets i) <> Some true.
Proof.
  revert i. induction n as [|n IH]; intros i Hi; simpl; [left; lia|].
  unfold get_at. replace (0 <=? i) with true by lia.
  destruct (packets !! Z.to_nat i) as [p|] eqn:Ep.
  - destruct (received p) eqn:Er.
    + destruct (IH (i + 1)) as [H|H]; [lia|left; lia|by right].
    + right. rewrite list_lookup_fmap, Ep. simpl. congruence.
  - right. by rewrite list_lookup_fmap, Ep.
Qed.

(** Closing a frame hands out exactly one frame, made from it. *)
Lemma close_frame_delivers `{FC : Chan Frame, PC : Chan BufSlot, CC : Chan ToStreamWorker}
    s index status f s' :
  r_frames s !! index = Some f -> close_frame s index status = Some s' ->
  exists t, r_delivered s' = r_delivered s ++ [make_frame t status f].
Proof.
  intros Hf. unfold close_frame. destruct (drain_commands_keep s) as [Hrest Hfr]. rewrite Hfr, Hf. simpl.
  set (s1 := close_counters _ status f).
  assert (r_delivered s1 = r_delivered s) as Hd.
  { unfold s1. match goal with |- context [close_counters ?t status f] =>
      destruct (close_counters_keep t status f) as [K1 _] end.
    unfold rest in K1, Hrest. injection K1 as _ _ _ _ K1 _. injection Hrest as _ _ _ _ Hrest _.
    rewrite K1, <- Hrest. by destruct (_ <=? _). }
  clearbody s1. destruct (fan_out _ _) as [[subs dropped] taken]. intros [= <-]. exists s1.
  rewrite <- Hd. destruct taken; by destruct (0 <? dropped).
Qed.

(** It remembers the block last, with its fingerprints. *)
Lemma close_frame_remembers `{FC : Chan Frame, PC : Chan BufSlot, CC : Chan ToStreamWorker} s index status f s' :
  r_frames s !! index = Some f -> close_frame s index status = Some s' ->
  r_last_frame_id s' = r_last_frame_id s /\ r_first_packet s' = r_first_packet s /\
  exists h, r_history s' = h ++ [{| cb_frame_id := f_frame_id f; cb_extended_ids := f_extended_ids f;
                                    cb_fingerprints := Some (f_fingerprints f) |}].
Proof.
  intros Hf. unfold close_frame. destruct (drain_commands_keep s) as [_ Hfr]. rewrite Hfr, Hf.
  pose proof (drain_commands_env s) as [= _ _ E1 E2]. rewrite <- E1, <- E2. cbn [mbind option_bind].
  destruct (fan_out _ _) as [[subs dropped] taken]. intros [= <-].
  destruct taken, (0 <? dropped); destruct status; unfold remember; simpl; destruct (_ <=? _); simpl; eauto.
Qed.

(** * What the packet handlers leave alone *)

Definition tag (f : FrameInFlight) :=
  (f_frame_id f, f_extended_ids f, f_fingerprints f, f_replay_of f, f_resend_disabled f).
Definition meta (f : FrameInFlight) := (f_leader f, f_last_packet_time f, tag f).

Lemma write_block_meta f off d f' : write_block f off d = Some f' -> meta f' = meta f.
Proof. unfold write_block. destruct (get_range _ _ _); [|discriminate]. by intros [= <-]. Qed.

Lemma place_meta f pid d st f' st' :
  FrameInFlight_place f pid d st = Some (f', st') -> meta f' = meta f.
Proof.
  unfold FrameInFlight_place. intros E. destruct (_ <? zlen d); [by injection E as <- _|].
  destruct (checked_sub pid 1); [|discriminate]. simpl in E.
  destruct (USIZE_MAX <? _); [by injection E as <- _|].
  destruct (_ <? saturating_add _ _).
  - destruct (checked_sub _ 2); [|discriminate]. simpl in E.
    destruct (_ <=? _); [by injection E as <- _|].
    destruct (write_block _ _ _) eqn:Ew; [|discriminate]. injection E as <- _.
    by eapply write_block_meta.
  - destruct (write_block _ _ _) eqn:Ew; [|discriminate]. injection E as <- _.
    by eapply write_block_meta.
Qed.

Lemma place_held_meta held f st f' st' : place_held held f st = Some (f', st') -> meta f' = meta f.
Proof.
  revert f st. induction held as [|[i d] held IH]; intros f st; simpl; [by intros [= <- _]|].
  destruct (f_error f); [by intros [= <- _]|]. destruct (_ <? i); [by intros [= <- _]|].
  destruct (FrameInFlight_place f i d st) as [[f1 st1]|] eqn:Ep; [|discriminate]. simpl.
  intros E. rewrite (IH _ _ E). by eapply place_meta.
Qed.

Lemma learn_block_meta P f d f' b : learn_block P f d = Some (f', b) -> meta f' = meta f.
Proof.
  unfold learn_block. set (g := match d with [] => _ | _ => _ end).
  assert (meta g = meta f) as Eg by (by destruct d). clearbody g. rewrite <- Eg.
  destruct (f_block_size g =? 0); [discriminate|]. destruct (negb _); [by intros [= <- _]|].
  destruct (_ <? _); by intros [= <- _].
Qed.

Section burst.
Context {FC : Chan Frame} {PC : Chan BufSlot} {CC : Chan ToStreamWorker} {HS : PacketHasher}.

(** The burst: its block id, its payload blocks and their common size. *)
Variables (id : Z) (ext : bool) (ds : list bytes) (bs P : Z).
Abbreviation K := (zlen ds).

Record burst_ok : Prop := {
  bk_P : 0 <= P <= I64_MAX;
  bk_bs : 0 < bs;
  bk_K : 1 <= K <= MAX_FRAME_PACKETS - 2;
  bk_len : forall k d, ds !! k = Some d ->
    0 < zlen d <= bs /\ ((S k < length ds)%nat \/ k = 0%nat -> zlen d = bs);
  bk_fit : zlen (concat ds) <= P }.
Hypothesis OK : burst_ok.

Definition burst_src (i k : Z) (d : bytes) : Prop := i = id /\ ds !! Z.to_nat (k - 1) = Some d.

(** Packet [k] of the burst. *)
Definition burst_view (k : Z) (v : GvspView) : Prop :=
  is_error (v_status v) = false /\ v_frame_id v = id /\ v_extended_ids v = ext /\ v_packet_id v = k /\
  ((k = 0 /\ v_content_type v = Leader /\ exists l, ImageLeader_parse (v_data v) = Some l /\
      il_payload_type l = PAYLOAD_TYPE_IMAGE) \/
   (1 <= k <= K /\ v_content_type v = Payload /\ ds !! Z.to_nat (k - 1) = Some (v_data v)) \/
   (k = K + 1 /\ v_content_type v = Trailer)).

(** The blocks of the packets in [qs]. *)
Definition got (qs : list Z) : blocks :=
  fun k => if decide (Z.of_nat k + 1 ∈ qs) then ds !! k else None.

Lemma concat_take_full k : (k < length ds)%nat -> zlen (concat (take k ds)) = Z.of_nat k * bs.
Proof.
  induction k as [|k IH]; intros Hk; [done|].
  destruct (lookup_lt_is_Some_2 ds k) as [d Hd]; [lia|].
  rewrite (take_S_r _ _ _ Hd), concat_app, zlen_app, IH by lia. simpl. rewrite app_nil_r.
  destruct (bk_len OK k d Hd) as [_ ->]; lia.
Qed.

(** Block [k] starts at [k * bs] and the last one ends the image. *)
Lemma block_end k d :
  ds !! k = Some d ->
  Z.of_nat k * bs + zlen d <= zlen (concat ds) /\
  (Z.of_nat k + 1 = K -> Z.of_nat k * bs + zlen d = zlen (concat ds)).
Proof.
  intros Hd. pose proof (lookup_lt_Some _ _ _ Hd) as Hk.
  assert (zlen (concat ds) = Z.of_nat k * bs + (zlen d + zlen (concat (drop (S k) ds)))) as ->.
  { rewrite <- (take_drop_middle ds k d Hd) at 1. rewrite concat_app, zlen_app, concat_take_full by done.
    simpl. by rewrite zlen_app. }
  pose proof (zlen_nonneg (concat (drop (S k) ds))). split; [lia|].
  intros E. rewrite (drop_ge ds) by (unfold zlen in E; lia). simpl. rewrite zlen_nil. lia.
Qed.

Lemma burst_fits : K <= div_ceil P bs /\ K <= P.
Proof.
  destruct (bk_K OK) as [HK _]. destruct (bk_P OK) as [HP _]. pose proof (bk_bs OK).
  destruct (lookup_lt_is_Some_2 ds (Z.to_nat (K - 1))) as [d Hd]; [unfold zlen in *; lia|].
  destruct (block_end _ d Hd) as [He _]. destruct (bk_len OK _ d Hd) as [Hl _]. pose proof (bk_fit OK).
  destruct (div_ceil_bounds P bs) as [Hc _]; [lia..|]. nia.
Qed.

Lemma got_cons qs k d :
  ds !! Z.to_nat (k - 1) = Some d -> 1 <= k ->
  forall i, got (k :: qs) i = set_block (got qs) (Z.to_nat (k - 1)) d i.
Proof.
  intros Hd Hk i. unfold got, set_block. rewrite (decide_ext _ (Z.of_nat i + 1 = k \/ Z.of_nat i + 1 ∈ qs))
    by apply elem_of_cons.
  destruct (decide (i = Z.to_nat (k - 1))) as [->|Hne].
  - case_decide as C; [done|]. exfalso. apply C. left. lia.
  - rewrite (decide_ext _ (Z.of_nat i + 1 ∈ qs)); [done|]. split; [intros [?|?]; [lia|done]|by right].
Qed.

Lemma got_other qs k : ~ (1 <= k <= K) -> forall i, got (k :: qs) i = got qs i.
Proof.
  intros Hk i. unfold got. rewrite (decide_ext _ (Z.of_nat i + 1 = k \/ Z.of_nat i + 1 ∈ qs)) by apply elem_of_cons.
  destruct (ds !! i) eqn:E; [|by repeat case_decide].
  apply lookup_lt_Some in E. unfold zlen in Hk.
  rewrite (decide_ext _ (Z.of_nat i + 1 ∈ qs)); [done|]. split; [intros [?|?]; [lia|done]|by right].
Qed.

Lemma got_none qs k : k ∉ qs -> 1 <= k -> got qs (Z.to_nat (k - 1)) = None.
Proof.
  intros Hk H1. unfold got. case_decide as E; [|done].
  by replace (Z.of_nat _ + 1) with k in E by lia.
Qed.

Lemma got_sum_le qs : sum_blocks (got qs) (length ds) <= zlen (concat ds).
Proof.
  rewrite <- sum_blocks_concat. apply sum_blocks_mono. intros i d. unfold got. by case_decide.
Qed.

(** * The frame after some of the burst *)

(** The burst's payload packets are among those received. *)
Variable src : Z -> Z -> bytes -> Prop.
Hypothesis burst_in_src : forall i k d, burst_src i k d -> src i k d.

Record binv (rc qs : list Z) (f : FrameInFlight) : Prop := {
  bi_id : f_frame_id f = id;
  bi_error : f_error f = None;
  bi_replay : f_replay_of f = None;
  bi_rcv : forall i, 0 <= i -> (rcv f i <-> i ∈ rc);
  bi_trailer : f_trailer_seen f = true <-> K + 1 ∈ qs;
  bi_known : f_block_known f = true <-> 1 ∈ qs;
  bi_n_trailer : K + 1 ∈ qs -> f_n_packets f = K + 2;
  bi_n : K + 2 <= f_n_packets f \/ ((1 ∉ qs) /\ (K + 1 ∉ qs));
  bi_n2 : 2 <= f_n_packets f;
  bi_data_known : 1 ∈ qs -> f_held f = [] /\ f_block_size f = bs /\
    (exists n, data_part src P f (got qs) n) /\ f_data_end f <= zlen (concat ds) /\
    (K ∈ qs -> zlen (concat ds) <= f_data_end f);
  bi_data_unknown : 1 ∉ qs ->
    (exists n, data_part src P f (fun _ => None) n) /\ f_data_end f = 0 /\
    f_held_bytes f = sum_blocks (got qs) (length ds) /\ NoDup (f_held f).*1 /\
    (forall k d, (k, d) ∈ f_held f <-> (k ∈ qs /\ 1 <= k <= K /\ ds !! Z.to_nat (k - 1) = Some d)) }.

Lemma held_ids qs f k :
  binv qs qs f -> 1 ∉ qs -> 1 <= k <= K -> (k ∈ (f_held f).*1 <-> k ∈ qs).
Proof.
  intros B H1 Hk. destruct (bi_data_unknown _ _ _ B H1) as (_ & _ & _ & _ & Hh).
  rewrite list_elem_of_fmap. split.
  - intros ([j d] & -> & Hin). by apply Hh in Hin as [? _].
  - intros Hin. destruct (lookup_lt_is_Some_2 ds (Z.to_nat (k - 1))) as [d Hd]; [unfold zlen in Hk; lia|].
    exists (k, d). split; [done|]. by apply Hh.
Qed.

(** Where one block of the burst goes. *)
Lemma place_block f blk n k d st :
  data_part src P f blk n -> f_error f = None -> f_frame_id f = id -> f_block_size f = bs ->
  1 <= k <= f_n_packets f - 2 -> blk (Z.to_nat (k - 1)) = None -> ds !! Z.to_nat (k - 1) = Some d ->
  f_data_end f <= zlen (concat ds) ->
  exists f' st', FrameInFlight_place f k d st = Some (f', st') /\ shape f' = shape f /\
    f_error f' = None /\ f_replay_of f' = f_replay_of f /\
    (exists n', data_part src P f' (set_block blk (Z.to_nat (k - 1)) d) n') /\
    f_data_end f <= f_data_end f' <= zlen (concat ds) /\ (k = K -> zlen (concat ds) <= f_data_end f').
Proof.
  intros HD He Hid Hbs Hk Hnone Hd Hend.
  destruct (block_end _ _ Hd) as [Hle Heq]. destruct (bk_len OK _ _ Hd) as [Hl _].
  pose proof (bk_fit OK). destruct (bk_P OK) as [HP0 HP].
  destruct (place_ok src P f blk n k d st) as (f' & st' & Hp & blk' & n' & HD' & Hsh & Ho & Hfit);
    [done..|by apply burst_in_src|].
  rewrite Z2Nat.id in Hle, Heq by lia. rewrite Hbs in Hfit.
  destruct Hfit as (He' & Hb' & Hde); [lia..|].
  exists f', st'. split_and!; [done|done|done| | |lia|lia|intros ->; lia].
  - clear -Hp. unfold FrameInFlight_place, write_block in Hp.
    repeat (case_match || simplify_option_eq); done.
  - exists n'. eapply data_part_blocks; [|exact HD']. intros i. unfold set_block.
    case_decide as Hi; [by rewrite Hi|by apply Ho].
Qed.

(** The packets held back all go where they belong. *)
Lemma place_held_burst held f blk n st :
  data_part src P f blk n -> f_error f = None -> f_frame_id f = id -> f_block_size f = bs ->
  NoDup held.*1 -> f_data_end f <= zlen (concat ds) ->
  (forall k d, (k, d) ∈ held -> 1 <= k <= f_n_packets f - 2 /\ blk (Z.to_nat (k - 1)) = None /\
                                ds !! Z.to_nat (k - 1) = Some d) ->
  exists f' st', place_held held f st = Some (f', st') /\ shape f' = shape f /\
    f_error f' = None /\ f_replay_of f' = f_replay_of f /\
    (exists n', data_part src P f'
       (fun i => if decide (Z.of_nat i + 1 ∈ held.*1) then ds !! i else blk i) n') /\
    f_data_end f <= f_data_end f' <= zlen (concat ds) /\ (K ∈ held.*1 -> zlen (concat ds) <= f_data_end f').
Proof.
  revert f blk n st. induction held as [|[k d] held IH]; intros f blk n st HD He Hid Hbs Hnd Hend Hin.
  { do 2 eexists. split; [done|]. split_and!; try done; [|by intros ?%elem_of_nil].
    exists n. eapply data_part_blocks; [|exact HD]. intros i. case_decide as C; [|done].
    by apply elem_of_nil in C. }
  simpl. rewrite He. destruct (Hin k d) as (Hk & Hnone & Hd); [by left|].
  rewrite fmap_cons in Hnd. apply NoDup_cons in Hnd as [Hni Hnd]. simpl in Hni.
  replace (saturating_sub _ _ <? k) with false by (unfold saturating_sub; lia).
  destruct (place_block f blk n k d st) as (f1 & st1 & -> & Hsh1 & He1 & Hr1 & [n1 HD1] & Hde1 & HK1);
    [done..|]. simpl.
  assert (f_n_packets f1 = f_n_packets f) as En by (by apply shape_n_packets).
  destruct (IH f1 _ n1 st1 HD1 He1) as (f2 & st2 & -> & Hsh2 & He2 & Hr2 & [n2 HD2] & Hde2 & HK2);
    [by rewrite (shape_frame_id _ _ Hsh1)|by injection Hsh1; congruence|done|lia| |].
  { intros j e Hj. destruct (Hin j e) as (Hj1 & Hj2 & Hj3); [by right|]. rewrite En.
    split_and!; [lia..| |done]. unfold set_block. case_decide as C; [|done].
    exfalso. apply Hni. replace k with j by lia. by apply (list_elem_of_fmap_2 fst _ (j, e)). }
  do 2 eexists. split; [done|]. split_and!; [congruence|done|congruence| |lia|lia|].
  - exists n2. eapply data_part_blocks; [|exact HD2]. intros i. simpl.
    rewrite (decide_ext (_ ∈ k :: _) (Z.of_nat i + 1 = k \/ Z.of_nat i + 1 ∈ held.*1)) by apply elem_of_cons.
    unfold set_block. destruct (decide (Z.of_nat i + 1 ∈ held.*1)) as [C|C].
    + case_decide as C'; [done|]. exfalso. apply C'. by right.
    + destruct (decide (i = Z.to_nat (k - 1))) as [->|Hne]; (case_decide as C'; [|]); try done.
      * exfalso. apply C'. left. lia.
      * destruct C'; [lia|done].
  - rewrite elem_of_cons. intros [E|HK']; [specialize (HK1 (eq_sym E))|specialize (HK2 HK')]; lia.
Qed.

(** * Absorbing one more packet *)

(** Membership facts about [k :: qs] for concrete [k]. *)
Ltac elems := rewrite ?elem_of_cons, ?not_elem_of_cons in *; intuition (lia || done).

(** A change that leaves the absorbed payload alone. *)
Lemma binv_same_payload rc qs k f g :
  binv rc qs f -> ~ (1 <= k <= K) -> data_core g = data_core f ->
  f_held g = f_held f -> f_held_bytes g = f_held_bytes f -> f_block_known g = f_block_known f ->
  f_error g = None -> f_replay_of g = None ->
  (forall i, 0 <= i -> (rcv g i <-> i ∈ rc)) ->
  (f_trailer_seen g = true <-> K + 1 ∈ k :: qs) ->
  (K + 1 ∈ k :: qs -> f_n_packets g = K + 2) -> 
  (K + 2 <= f_n_packets g \/ f_n_packets g = f_n_packets f) -> k < f_n_packets g -> 2 <= f_n_packets g ->
  binv rc (k :: qs) g.
Proof.
  intros B Hk Ec Eh Eb Ek Ee Er Hrcv Ht Hnt Hn _ Hn2.
  assert (1 ∈ k :: qs <-> 1 ∈ qs) as H1 by (destruct (bk_K OK); elems).
  assert (K ∈ k :: qs <-> K ∈ qs) as HK by (destruct (bk_K OK); elems).
  pose proof (bk_K OK). destruct B as [B1 B2 B3 B4 B5 B6 B7 B8 B9 B10 B11].
  assert (f_frame_id g = f_frame_id f /\ f_block_size g = f_block_size f /\ f_data_end g = f_data_end f)
    as (E1 & E2 & E3) by (unfold data_core in Ec; by injection Ec).
  split; rewrite ?E1, ?E2, ?E3, ?Eh, ?Eb, ?Ek, ?H1, ?HK; try done.
  - destruct Hn as [?|Hn]; [by left|]. rewrite Hn. destruct B8 as [?|[? Hq]]; [by left|].
    destruct (decide (K + 1 ∈ k :: qs)) as [C|C]; [left; rewrite <- Hn, (Hnt C); lia|by right].
  - intros Hin. destruct (B10 Hin) as (? & ? & [n HD] & ? & ?). split_and!; try done.
    exists n. eapply data_part_core; [symmetry; exact Ec|].
    eapply data_part_blocks; [|exact HD]. intros i. by rewrite got_other.
  - intros Hin. destruct (B11 Hin) as ([n HD] & ? & Hb & ? & Hh). split_and!; try done.
    + exists n. by eapply data_part_core; [symmetry; exact Ec|].
    + rewrite Hb. apply sum_blocks_ext. intros i. by rewrite got_other.
    + intros j d. rewrite Hh. elems.
Qed.

Lemma absorb_leader qs f v sys :
  binv qs qs f -> burst_view 0 v ->
  binv qs (0 :: qs) (process_leader f v sys) /\ 0 < f_n_packets (process_leader f v sys).
Proof.
  intros B (_ & _ & _ & Hid & _). unfold process_leader.
  rewrite (bi_error _ _ _ B), Hid. simpl. pose proof (bi_n2 _ _ _ B). pose proof (bk_K OK).
  split; [|simpl; lia].
  eapply (binv_same_payload _ _ _ f); try done; simpl; try lia; try apply B.
  - rewrite (bi_trailer _ _ _ B). elems.
  - intros Hin. apply B. elems.
Qed.

(** Resizing loses nothing when every received packet stays in range. *)
Lemma rcv_resize f m i :
  1 <= m -> (forall j, 0 <= j -> rcv f j -> j < m) -> 0 <= i ->
  (rcv (FrameInFlight_set_n_packets f m) i <-> rcv f i).
Proof.
  intros Hm Hall Hi. split; [|intros Hr; apply rcv_set_n_packets; [lia|split; [done|by apply Hall]|done]].
  unfold rcv. simpl. rewrite !list_lookup_fmap, resize_lookup by lia. case_decide; [|done].
  by destruct (slot_packets (f_slot f) !! Z.to_nat i).
Qed.

Lemma rcv_bound qs f m :
  binv qs qs f -> Forall (fun k => 0 <= k < m) qs -> forall j, 0 <= j -> rcv f j -> j < m.
Proof.
  intros B Hall j Hj Hr%(bi_rcv _ _ _ B); [|done].
  by pose proof (proj1 (Forall_forall _ _) Hall _ Hr) as [_ ?].
Qed.

(** Received packets of the burst come before the trailer. *)
Lemma not_contradicted qs f :
  binv qs qs f -> Forall (fun k => 0 <= k <= K) qs ->
  existsb received (drop (Z.to_nat (K + 1)) (slot_packets (f_slot f))) = false.
Proof.
  intros B Hall. pose proof (bk_K OK). apply not_true_iff_false. rewrite existsb_exists. intros (p & Hin & Hr).
  apply list_elem_of_In, list_elem_of_lookup_1 in Hin as [i Hi]. rewrite lookup_drop in Hi.
  assert (rcv f (K + 1 + Z.of_nat i)) as Hrcv.
  { unfold rcv. rewrite list_lookup_fmap. replace (Z.to_nat _) with (Z.to_nat (K + 1) + i)%nat by lia.
    rewrite Hi. simpl. by rewrite Hr. }
  apply (bi_rcv _ _ _ B) in Hrcv; [|lia].
  pose proof (proj1 (Forall_forall _ _) Hall _ Hrcv) as Hb. simpl in Hb. lia.
Qed.

Lemma absorb_trailer qs f v s :
  binv qs qs f -> burst_view (K + 1) v -> r_payload_size s = P ->
  Forall (fun k => 0 <= k <= K) qs ->
  exists f', process_trailer s f v = Some f' /\ binv qs (K + 1 :: qs) f' /\ K + 1 < f_n_packets f'.
Proof.
  intros B (_ & _ & _ & Hid & _) HPs Hall. unfold process_trailer.
  change (f_error _) with (f_error f). rewrite (bi_error _ _ _ B), Hid. simpl.
  pose proof (bk_K OK) as HK. destruct burst_fits as [F1 F2]. destruct (bk_P OK) as [HP0 HP].
  set (bd := if f_block_known f then _ else Some (packet_limit s)).
  assert (exists z, bd = Some z /\ K + 1 < z) as (z & -> & Hz).
  { unfold bd. destruct (f_block_known f) eqn:Ek.
    - apply (bi_known _ _ _ B) in Ek. destruct (bi_data_known _ _ _ B Ek) as (_ & -> & _).
      pose proof (bk_bs OK). replace (bs =? 0) with false by lia. eexists. split; [done|].
      rewrite HPs. lia.
    - eexists. split; [done|]. unfold packet_limit, saturating_add. rewrite HPs, MAX_FRAME_PACKETS_eq in *.
      width_lia. }
  simpl. rewrite (not_contradicted qs f) by done.
  replace (_ || _) with false by lia.
  set (g := if negb (f_n_packets f =? K + 1 + 1)
            then FrameInFlight_set_n_packets (f <| f_trailer_seen := true |>) (K + 1 + 1)
            else f <| f_trailer_seen := true |>).
  assert (f_n_packets g = K + 2) as Hn.
  { unfold g. destruct (negb _) eqn:En; simpl; lia. }
  exists g. split; [unfold g; by destruct (negb _)|]. split; [|lia].
  assert (forall i, 0 <= i -> (rcv g i <-> i ∈ qs)) as Hr.
  { intros i Hi. rewrite <- (bi_rcv _ _ _ B i Hi). unfold g. destruct (negb _); [|done].
    change (rcv f i) with (rcv (f <| f_trailer_seen := true |>) i).
    apply rcv_resize; [lia| |done].
    apply (rcv_bound qs f (K + 1 + 1) B). eapply Forall_impl; [exact Hall|]. simpl. lia. }
  eapply (binv_same_payload _ _ _ f); try done; try lia.
  1-6: unfold g; destruct (negb _); (done || apply B).
  split; [intros _; by left|]. intros _. unfold g. by destruct (negb _).
Qed.

(** The packet count once packet 1 has told the block size. *)
Lemma learned_count m :
  m = Z.min (div_ceil P bs + 2) MAX_FRAME_PACKETS -> K + 2 <= m /\ 1 <= m.
Proof. intros ->. destruct burst_fits as [F1 F2]. pose proof (bk_K OK). lia. Qed.

(** Packet 1 is placed, and with it everything that was waiting. *)
Lemma place_first qs f f1 d st :
  binv qs qs f -> 1 ∉ qs -> ds !! 0%nat = Some d ->
  data_part src P f1 (fun _ => None) 0 -> f_error f1 = None -> f_frame_id f1 = id -> f_block_size f1 = bs ->
  f_replay_of f1 = None -> f_data_end f1 = 0 -> f_held f1 = f_held f -> f_block_known f1 = true ->
  f_trailer_seen f1 = f_trailer_seen f ->
  (forall i, 0 <= i -> (rcv f1 i <-> i ∈ qs)) -> (K + 1 ∈ qs -> f_n_packets f1 = K + 2) ->
  K + 2 <= f_n_packets f1 ->
  exists f' st', place_all f1 1 d st = Some (f', st') /\ binv qs (1 :: qs) f' /\ 1 < f_n_packets f'.
Proof.
  intros B H1 Hd HD1 He Hid Hbs Hr Hde Hh Hk Ht Hrcv Hnt Hn. unfold place_all.
  pose proof (bk_K OK) as HK. pose proof (zlen_nonneg (concat ds)).
  destruct (place_block f1 (fun _ => None) 0 1 d st) as (f2 & st2 & -> & Hsh2 & He2 & Hr2 & [n2 HD2] & Hde2 & HK2);
    [done..|lia|done|done|lia|]. simpl.
  assert (f_held f2 = f_held f) as -> by (injection Hsh2; congruence).
  destruct (bi_data_unknown _ _ _ B H1) as (_ & _ & _ & Hnd & Hheld).
  assert (f_n_packets f2 = f_n_packets f1) as En by (by apply shape_n_packets).
  destruct (place_held_burst (f_held f) (f2 <| f_held := [] |>)
     (set_block (fun _ => None) (Z.to_nat (1 - 1)) d) n2 st2)
    as (f3 & st3 & -> & Hsh3 & He3 & Hr3 & [n3 HD3] & Hde3 & HK3);
    [by eapply data_part_core; [|exact HD2]|done|by simpl; rewrite (shape_frame_id _ _ Hsh2)
    |by simpl; injection Hsh2; congruence|done|simpl; lia| |].
  { intros j e Hj. apply Hheld in Hj as (Hq & Hj & Hje). simpl. rewrite En. split_and!; [lia..| |done].
    unfold set_block. case_decide as C; [|done]. exfalso. apply H1. by replace 1 with j by lia. }
  simpl. do 2 eexists. split; [done|].
  unfold shape in Hsh2, Hsh3. simpl in Hsh3. injection Hsh2 as S1 S2 S3 S4 S5 S6 S7 S8.
  injection Hsh3 as T1 T2 T3 T4 T5 T6 T7 T8. simpl in Hde3, Hr3.
  split; [|simpl; lia].
  split; simpl; rewrite ?T1, ?T3, ?T4, ?T6, ?T7, ?T8, ?S1, ?S3, ?S4, ?S7, ?S8; try done; try lia.
  - congruence.
  - intros i Hi. rewrite <- (Hrcv i Hi). unfold rcv. simpl. by rewrite T2, S2.
  - rewrite Ht, (bi_trailer _ _ _ B). elems.
  - rewrite Hk. elems.
  - intros Hin. apply Hnt. elems.
  - intros _. split_and!; [done..| |lia|].
    + exists n3. eapply data_part_core; [|eapply data_part_blocks; [|exact HD3]]; [done|].
      intros i. destruct (decide (i = 0%nat)) as [->|Hne].
      * unfold got. rewrite (decide_True (P := Z.of_nat 0 + 1 ∈ 1 :: qs)) by (by left).
        case_decide; [done|]. by unfold set_block; rewrite decide_True.
      * unfold got, set_block. rewrite (decide_False (P := i = _)) by lia.
        destruct (ds !! i) as [e|] eqn:Ei; [|by repeat case_decide].
        assert (1 <= Z.of_nat i + 1 <= K) as Hb
          by (apply lookup_lt_Some in Ei; unfold zlen; lia).
        rewrite (decide_ext (_ ∈ _.*1) (Z.of_nat i + 1 ∈ 1 :: qs)); [done|].
        rewrite (held_ids qs f) by done. elems.
    + intros Hin. apply elem_of_cons in Hin as [E|Hin]; [specialize (HK2 (eq_sym E)); lia|].
      apply HK3. apply (held_ids qs f); [done|done|lia|done].
  - intros Hin. exfalso. apply Hin. by left.
Qed.

(** With the block size known a payload packet goes straight to its place. *)
Lemma place_next qs f k d st :
  binv qs qs f -> 1 ∈ qs -> 2 <= k <= K -> k ∉ qs -> ds !! Z.to_nat (k - 1) = Some d ->
  exists f' st', place_all f k d st = Some (f', st') /\ binv qs (k :: qs) f' /\ k < f_n_packets f'.
Proof.
  intros B H1 Hk Hkq Hd. unfold place_all.
  destruct (bi_data_known _ _ _ B H1) as (Hh & Hbs & [n HD] & Hde & HKe).
  assert (K + 2 <= f_n_packets f) as Hn by (destruct (bi_n _ _ _ B) as [?|[? _]]; done).
  destruct (place_block f (got qs) n k d st)
    as (f1 & st1 & -> & Hsh & He1 & Hr1 & [n1 HD1] & Hde1 & HK1);
    [done|apply B|apply B|done|lia|apply got_none; [done|lia]|done|done|]. simpl.
  assert (f_held f1 = []) as -> by (injection Hsh; congruence). simpl.
  do 2 eexists. split; [done|]. unfold shape in Hsh. injection Hsh as S1 S2 S3 S4 S5 S6 S7 S8.
  destruct B as [B1 B2 B3 B4 B5 B6 B7 B8 B9 B10 B11].
  assert (K + 1 ∈ k :: qs <-> K + 1 ∈ qs) as ET by (rewrite elem_of_cons; intuition lia).
  assert (1 ∈ k :: qs) as E1 by (by right).
  split; [|simpl; lia].
  split; simpl; rewrite ?S1, ?S3, ?S4, ?S7, ?S8, ?ET; try done.
  - congruence.
  - intros i Hi. rewrite <- (B4 i Hi). unfold rcv. simpl. by rewrite S2.
  - rewrite B6. by split.
  - by left.
  - intros _. split_and!; [done..| |lia|].
    + exists n1. eapply data_part_core; [|eapply data_part_blocks; [|exact HD1]]; [done|].
      intros i. symmetry. apply got_cons; [done|lia].
    + intros Hin. apply elem_of_cons in Hin as [E|Hin]; [by apply HK1|specialize (HKe Hin); lia].
Qed.

Lemma got_sum_cons qs k d :
  ds !! Z.to_nat (k - 1) = Some d -> 1 <= k -> k ∉ qs ->
  sum_blocks (got (k :: qs)) (length ds) = zlen d + sum_blocks (got qs) (length ds).
Proof.
  intros Hd Hk Hkq. rewrite (sum_blocks_ext _ _ _ (got_cons qs k d Hd Hk)).
  rewrite sum_set_block; [lia|by apply got_none|]. by eapply lookup_lt_Some.
Qed.

(** Before packet 1 a payload packet waits. *)
Lemma hold_next qs f k d :
  binv qs qs f -> shape_inv f -> 1 ∉ qs -> 2 <= k <= K -> k ∉ qs -> ds !! Z.to_nat (k - 1) = Some d ->
  let g := (if f_n_packets f <? k + 2
            then FrameInFlight_set_n_packets (f <| f_held_bytes ::= Z.add (zlen d) |>) (k + 2)
            else f <| f_held_bytes ::= Z.add (zlen d) |>) <| f_held ::= fun h => h ++ [(k, d)] |> in
  binv qs (k :: qs) g /\ k < f_n_packets g.
Proof.
  intros B Hsh H1 Hk Hkq Hd g. pose proof B as [B1 B2 B3 B4 B5 B6 B7 B8 B9 _ B11].
  destruct (B11 H1) as ([n HD] & Hde & Hb & Hnd & Hh).
  assert (K + 1 ∈ k :: qs <-> K + 1 ∈ qs) as ET by (rewrite elem_of_cons; intuition lia).
  assert (1 ∉ k :: qs) as E1 by (rewrite not_elem_of_cons; split; [lia|done]).
  set (f1 := f <| f_held_bytes ::= Z.add (zlen d) |>).
  set (f2 := if f_n_packets f <? k + 2 then FrameInFlight_set_n_packets f1 (k + 2) else f1).
  assert (g = f2 <| f_held ::= fun h => h ++ [(k, d)] |>) as -> by done.
  assert (f_n_packets f <= f_n_packets f2 /\ k + 2 <= f_n_packets f2 /\
          (K + 1 ∈ qs -> f_n_packets f2 = K + 2)) as (Hn1 & Hn2 & Hn3).
  { unfold f2. destruct (f_n_packets f <? k + 2) eqn:E; simpl; split_and!; try lia; try done.
    intros Hin. rewrite (B7 Hin) in E. lia. }
  assert (forall i, 0 <= i -> (rcv f2 i <-> i ∈ qs)) as Hr.
  { intros i Hi. rewrite <- (B4 i Hi). unfold f2. destruct (_ <? _) eqn:E; [|done].
    change (rcv f i) with (rcv f1 i). apply rcv_resize; [lia| |done].
    intros j Hj Hrj. pose proof (rcv_in_range f j Hj Hrj). rewrite (fi_packets _ Hsh) in *. lia. }
  assert (data_core f2 = data_core f /\ f_error f2 = None /\ f_replay_of f2 = None /\
          f_trailer_seen f2 = f_trailer_seen f /\ f_block_known f2 = f_block_known f /\
          f_held f2 = f_held f /\ f_held_bytes f2 = zlen d + f_held_bytes f)
    as (G1 & G2 & G3 & G4 & G5 & G6 & G7) by (unfold f2; by destruct (_ <? _)).
  assert (f_frame_id f2 = f_frame_id f /\ f_data_end f2 = f_data_end f) as (G8 & G9)
    by (unfold data_core in G1; by injection G1).
  clearbody f2. split; [|simpl; lia]. split; simpl; rewrite ?ET, ?G4, ?G5, ?G6, ?G7, ?G8, ?G9.
  - done.
  - done.
  - done.
  - exact Hr.
  - done.
  - rewrite B6. by split.
  - done.
  - destruct B8 as [?|[? ?]]; [left; lia|by right].
  - lia.
  - done.
  - intros _. split_and!.
    + exists n. eapply data_part_core; [|exact HD]. by rewrite <- G1.
    + done.
    + rewrite (got_sum_cons qs k d) by (done || lia). lia.
    + rewrite fmap_app. apply NoDup_app. split_and!; [done| |apply NoDup_singleton].
      intros x Hx Hy. apply list_elem_of_singleton in Hy. simpl in Hy. subst x.
      apply (held_ids qs f) in Hx; [done|done|done|lia].
    + intros j e. rewrite elem_of_app, Hh, list_elem_of_singleton, elem_of_cons.
      split; [intros [(? & ? & ?)|[= -> ->]]; [by auto|split_and!; [by left|lia..|done]]|].
      intros ([->|?] & ? & ?); [right; congruence|by left].
Qed.

Lemma held_bytes_bound qs k d :
  ds !! Z.to_nat (k - 1) = Some d -> 1 <= k -> k ∉ qs ->
  zlen d + sum_blocks (got qs) (length ds) <= P.
Proof.
  intros Hd Hk Hkq. rewrite <- (got_sum_cons qs k d) by done.
  pose proof (got_sum_le (k :: qs)). pose proof (bk_fit OK). lia.
Qed.

(** Packet 1: learn the block size, then place. *)
Lemma absorb_first qs f v s :
  binv qs qs f -> burst_view 1 v -> r_payload_size s = P -> 1 ∉ qs ->
  Forall (fun j => 0 <= j <= K + 1) qs ->
  exists f' st', process_payload s f v = Some (f', st') /\ binv qs (1 :: qs) f' /\ 1 < f_n_packets f'.
Proof.
  intros B (_ & _ & _ & Hid & Hc) HPs H1 Hall. pose proof (bk_K OK) as HK. pose proof (bk_bs OK).
  destruct Hc as [[? _]|[(_ & _ & Hd)|[? _]]]; [lia| |lia].
  change (Z.to_nat (1 - 1)) with 0%nat in Hd. unfold process_payload.
  rewrite (bi_error _ _ _ B), Hid, HPs. simpl.
  assert (f_block_known f = false) as Hk
    by (apply not_true_is_false; rewrite (bi_known _ _ _ B); done).
  rewrite Hk. simpl. unfold learn_block.
  destruct (bk_len OK 0%nat _ Hd) as [Hl Hlen]. specialize (Hlen (or_intror eq_refl)).
  destruct (v_data v) as [|b l] eqn:Ev; [unfold zlen in Hl; simpl in Hl; lia|].
  rewrite <- Ev in *. simpl.
  rewrite Hlen. replace (bs =? 0) with false by lia.
  set (f0 := f <| f_block_known := true |> <| f_block_size := bs |>).
  destruct (bi_data_unknown _ _ _ B H1) as ([n HD] & Hde & _ & Hnd & Hh).
  assert (data_part src P f0 (fun _ => None) 0) as HD0.
  { destruct HD as [D1 D2 D3 D4 D5 D6 D7]. split; simpl; try done.
    rewrite D4. clear. induction n; simpl; lia. }
  destruct burst_fits as [F1 F2].
  (* The frame with its packet count settled. *)
  assert (exists f1, (if negb (f_trailer_seen f)
      then Some (FrameInFlight_set_n_packets f0 (Z.min (div_ceil P bs + 2) MAX_FRAME_PACKETS), true)
      else if div_ceil P bs + 2 <? f_n_packets f then Some (f0 <| f_error := Some WrongPacketId |>, false)
           else Some (f0, true)) = Some (f1, true) /\
    data_part src P f1 (fun _ => None) 0 /\ f_error f1 = None /\ f_frame_id f1 = id /\ f_block_size f1 = bs /\
    f_replay_of f1 = None /\ f_data_end f1 = 0 /\ f_held f1 = f_held f /\ f_block_known f1 = true /\
    f_trailer_seen f1 = f_trailer_seen f /\ (forall i, 0 <= i -> (rcv f1 i <-> i ∈ qs)) /\
    (K + 1 ∈ qs -> f_n_packets f1 = K + 2) /\ K + 2 <= f_n_packets f1)
    as (f1 & -> & Q1 & Q2 & Q3 & Q4 & Q5 & Q6 & Q7 & Q8 & Q9 & Q10 & Q11 & Q12).
  { destruct (f_trailer_seen f) eqn:Et; simpl.
    - pose proof (proj1 (bi_trailer _ _ _ B) Et) as Hin. rewrite (bi_n_trailer _ _ _ B Hin).
      replace (div_ceil P bs + 2 <? K + 2) with false by lia. exists f0.
      split_and!; try done; try apply B; try (simpl; rewrite (bi_n_trailer _ _ _ B Hin); lia).
    - assert (K + 1 ∉ qs) as Hni by (rewrite <- (bi_trailer _ _ _ B), Et; discriminate).
      set (m := Z.min _ _). destruct (learned_count m eq_refl) as [Hm Hm1].
      exists (FrameInFlight_set_n_packets f0 m). split_and!; try done; try apply B.
      + by eapply data_part_core; [|exact HD0].
      + intros i Hi. rewrite <- (bi_rcv _ _ _ B i Hi). change (rcv f i) with (rcv f0 i).
        apply rcv_resize; [lia| |done]. apply (rcv_bound qs f m B).
        eapply Forall_impl; [exact Hall|]. simpl. lia. }
  simpl. rewrite Q8. simpl. replace (_ <? 1) with false by (unfold saturating_sub; lia).
  apply (place_first qs f f1); done.
Qed.

Lemma absorb_payload qs f v s k :
  binv qs qs f -> shape_inv f -> burst_view k v -> 1 <= k <= K -> k ∉ qs -> r_payload_size s = P ->
  Forall (fun j => 0 <= j <= K + 1) qs ->
  exists f' st', process_payload s f v = Some (f', st') /\ binv qs (k :: qs) f' /\ k < f_n_packets f'.
Proof.
  intros B Hsh Hv Hk Hkq HPs Hall. destruct (decide (k = 1)) as [->|Hk1]; [by apply absorb_first|].
  destruct Hv as (_ & _ & _ & Hid & [[? _]|[(_ & _ & Hd)|[? _]]]); [lia| |lia].
  pose proof (bk_K OK) as HK. destruct burst_fits as [F1 F2]. destruct (bk_P OK) as [HP0 HP].
  unfold process_payload. rewrite (bi_error _ _ _ B), Hid, HPs.
  replace (k =? 1) with false by lia. simpl.
  destruct (f_block_known f) eqn:Ek; simpl.
  - assert (1 ∈ qs) as H1 by (by apply (bi_known _ _ _ B)).
    assert (K + 2 <= f_n_packets f) as Hn by (destruct (bi_n _ _ _ B) as [?|[? _]]; done).
    replace (_ || _) with false by (unfold saturating_sub; lia).
    apply place_next; (done || lia).
  - assert (1 ∉ qs) as H1 by (rewrite <- (bi_known _ _ _ B), Ek; discriminate).
    set (lp := if f_trailer_seen f then _ else _).
    assert (exists z, lp = Some z /\ K <= z) as (z & -> & Hz).
    { unfold lp. destruct (f_trailer_seen f) eqn:Et.
      - apply (bi_trailer _ _ _ B) in Et. rewrite (bi_n_trailer _ _ _ B Et). eexists. split; [done|].
        unfold saturating_sub. lia.
      - unfold packet_limit, saturating_add. rewrite HPs, checked_sub_ok by (rewrite MAX_FRAME_PACKETS_eq; width_lia).
        eexists. split; [done|]. rewrite MAX_FRAME_PACKETS_eq in *. width_lia. }
    simpl. replace (_ || _) with false by lia.
    destruct (bi_data_unknown _ _ _ B H1) as ([n HD] & _ & Hb & _).
    rewrite (dp_cap _ _ _ _ _ HD), Hb.
    pose proof (held_bytes_bound qs k _ Hd ltac:(lia) Hkq). unfold MAXIMUM_PACKET_SIZE.
    replace (P + _ <? _) with false by lia.
    do 2 eexists. split; [done|]. apply hold_next; (done || lia).
Qed.

Lemma process_payload_meta s f view f' st' :
  process_payload s f view = Some (f', st') -> meta f' = meta f.
Proof.
  unfold process_payload. destruct (f_error f); [by intros [= <- _]|].
  set (l := if _ : bool then learn_block _ _ _ else _).
  destruct l as [[f1 go]|] eqn:El; [|discriminate]. simpl. intros E.
  assert (meta f1 = meta f) as <-.
  { unfold l in El. destruct (_ && _); [by eapply learn_block_meta|]. by injection El as <- _. }
  clear El l. destruct go; simpl in E; [|by injection E as <- _].
  set (lp := if _ : bool then Some _ else checked_sub _ _) in E. destruct lp as [z|]; [|discriminate]. simpl in E.
  destruct (_ || _); [by injection E as <- _|]. destruct (negb _).
  - destruct (_ <? _); [by injection E as <- _|]. destruct (_ <? _); by injection E as <- _.
  - destruct (FrameInFlight_place _ _ _ _) as [[f2 st2]|] eqn:Ep; [|discriminate]. simpl in E.
    destruct (place_held _ _ _) as [[f3 st3]|] eqn:Eh; [|discriminate]. injection E as <- _.
    change (meta f3 = meta f1). rewrite (place_held_meta _ _ _ _ _ Eh).
    change (meta f2 = meta f1). by eapply place_meta.
Qed.

Lemma process_trailer_meta s f view f' : process_trailer s f view = Some f' -> meta f' = meta f.
Proof.
  unfold process_trailer. simpl. destruct (f_error f); [by intros [= <-]|]. intros E.
  set (bd := if _ : bool then (if _ =? 0 then _ else _) else Some _) in E. destruct bd; [|discriminate].
  simpl in E. destruct (_ || _); [by injection E as <-|]. destruct (negb _); by injection E as <-.
Qed.

(** * Absorbing a packet, at the worker *)

Variable ldr : ImageLeader.
(** What each packet carries. *)
Variable dat : Z -> bytes.

(** Packet [k] of the burst, whose leader announces [ldr]. *)
Definition burst_packet (k : Z) (v : GvspView) : Prop :=
  burst_view k v /\ (k = 0 -> ImageLeader_parse (v_data v) = Some ldr) /\ v_data v = dat k.

(** ** Fingerprints *)

(** The content byte of a packet with a fingerprint. *)
Definition content_byte (v : GvspView) : option Z :=
  match v_content_type v with Leader => Some 1 | Trailer => Some 2 | Payload => Some 3 | _ => None end.

(** The packet is not the one the fingerprints are of. *)
Definition differs (v : GvspView) (fps : Fingerprints) : Prop :=
  exists c, content_byte v = Some c /\
    if decide (v_content_type v = Trailer)
    then fp_trailer fps <> None /\ fp_trailer fps <> Some (v_packet_id v, packet_hash c (v_data v))
    else exists h, get_at (fp_head fps) (v_packet_id v) = Some (Some h) /\ h <> packet_hash c (v_data v).

Lemma record_differs self v fps : (Fingerprints_record self v (Some fps)).2 = true -> differs v fps.
Proof.
  unfold Fingerprints_record, differs, content_byte. destruct (v_content_type v) eqn:Ec; try done.
  2: { rewrite bool_decide_true by done. cbn [snd]. rewrite andb_true_iff, negb_true_iff, bool_decide_eq_true, bool_decide_eq_false.
    intros [[x Hx] Hn]. eexists. split; [done|]. rewrite decide_True by done. by rewrite Hx in *. }
  all: rewrite bool_decide_false by done; destruct (_ <? _); [|done]; cbn [snd].
  all: destruct (get_at _ _) as [[h|]|] eqn:E; try done.
  all: rewrite negb_true_iff, Z.eqb_neq; intros Hn; eexists; (split; [done|]); rewrite decide_False by done; eauto.
Qed.

(** What recording a packet changes. *)
Lemma record_entries fps v ref :
  let fps' := (Fingerprints_record fps v ref).1 in
  (forall e, fp_trailer fps' = Some e -> fp_trailer fps = Some e \/
     v_content_type v = Trailer /\ e = (v_packet_id v, packet_hash 2 (v_data v))) /\
  (forall i h, get_at (fp_head fps') i = Some (Some h) -> get_at (fp_head fps) i = Some (Some h) \/
     Z.to_nat (v_packet_id v) = Z.to_nat i /\ v_content_type v <> Trailer /\ exists c, content_byte v = Some c /\ h = packet_hash c (v_data v)).
Proof.
  unfold Fingerprints_record, content_byte. destruct (v_content_type v) eqn:Ec; cbn [fst]; try (split; by left).
  2: { rewrite bool_decide_true by done. cbn [fst fp_trailer fp_head]. split; [|by left]. intros e [= <-]. by right. }
  all: rewrite bool_decide_false by done; destruct (_ <? _); [|split; by left]; cbn [fst fp_trailer fp_head]; (split; [by left|]).
  all: intros i h; unfold get_at; destruct (0 <=? i) eqn:Ei; [|done].
  all: intros [(E & Eh & _)|[_ ?]]%list_lookup_insert_Some; [right|by left].
  all: injection Eh as <-; by eauto.
Qed.

(** No packet of the burst differs from the fingerprints. *)
Definition matches (fps : Fingerprints) : Prop :=
  forall k v, burst_packet k v -> 0 <= k <= K + 1 -> ~ differs v fps.

Lemma matches_default : matches Fingerprints_default.
Proof.
  intros k v _ _ (c & _ & H). destruct (decide _); [by destruct H|]. destruct H as (h & H & _). revert H.
  unfold get_at. destruct (0 <=? _); [|done]. by intros [[=] _]%lookup_replicate.
Qed.

(** Recording a packet of the burst keeps the match. *)
Lemma matches_record fps k v ref : matches fps -> burst_packet k v -> 0 <= k <= K + 1 ->
  matches (Fingerprints_record fps v ref).1.
Proof.
  intros M ((_ & _ & _ & Hk & Hc) & _ & Hd) Hkr k' v' B' Hkr' (c & Hcb & H). apply (M k' v' B' Hkr'). exists c. split; [done|].
  destruct B' as ((_ & _ & _ & Hk' & Hc') & _ & Hd'). destruct (record_entries fps v ref) as [Ht Hh].
  destruct (decide _) as [Et|Et].
  - destruct H as [H1 H2]. destruct (fp_trailer _) as [e|]; [|done]. destruct (Ht e eq_refl) as [->|[Ev ->]]; [done|].
    exfalso. apply H2. unfold content_byte in Hcb. rewrite Et in Hcb. injection Hcb as <-.
    destruct Hc as [(_ & E & _)|[(_ & E & _)|(E & _)]]; [congruence|congruence|].
    destruct Hc' as [(_ & E' & _)|[(_ & E' & _)|(E' & _)]]; [congruence|congruence|]. congruence.
  - destruct H as (h & H1 & H2). destruct (Hh _ _ H1) as [?|(E & Ev & c' & Hcb' & ->)]; [by eauto|]. exfalso. apply H2.
    assert (k = k') as <- by lia. rewrite Hd, Hd'. f_equal. unfold content_byte in *.
    destruct Hc as [(? & E1 & _)|[(? & E1 & _)|(_ & E1)]]; [| |congruence];
      (destruct Hc' as [(? & E2 & _)|[(? & E2 & _)|(_ & E2)]]; [| |congruence]); try lia; rewrite ?E1, ?E2 in *; congruence.
Qed.

(** The block is the newest one, and what the receiver remembers of its
    packets is what the burst has. *)
Record known (s : StreamRunner) (f : FrameInFlight) : Prop := {
  kn_first : r_first_packet s = false;
  kn_last : r_last_frame_id s = id;
  kn_ext : f_extended_ids f = ext;
  kn_prints : matches (f_fingerprints f) }.

Lemma known_same s t f g : env t = env s -> f_extended_ids g = f_extended_ids f -> f_fingerprints g = f_fingerprints f ->
  known s f -> known t g.
Proof. intros [= _ _ E1 E2] E3 E4 []. split; rewrite ?E1, ?E2, ?E3, ?E4; done. Qed.

(** The state with the frame of the burst, and no other, open. *)
Record burst_state (qs : list Z) (s : StreamRunner) (f : FrameInFlight) (now : Z) : Prop := {
  bt_frames : r_frames s = [f];
  bt_inv : binv qs qs f;
  bt_leader : 0 ∈ qs -> f_leader f = Some ldr;
  bt_time : f_last_packet_time f = now;
  bt_ids : Forall (fun k => 0 <= k <= K + 1) qs;
  bt_known : known s f }.

Lemma burst_view_ok k v : burst_view k v -> 0 <= k <= K + 1 -> view_ok src v.
Proof.
  intros (_ & Hid & _ & Hk & Hc) Hr. split; [lia|]. rewrite Hid, Hk. intros Hp. apply burst_in_src. split; [done|].
  destruct Hc as [(_ & E & _)|[(_ & _ & Hd)|(_ & E)]]; [congruence|done|congruence].
Qed.

Lemma dispatch_burst qs s f v k now sys ip :
  runner_inv src P ip s -> burst_state qs s f now -> burst_packet k v -> 0 <= k <= K + 1 -> k ∉ qs ->
  exists s' f', dispatch_packet s 0 v sys = Some (Some s') /\ r_frames s' = [f'] /\ env s' = env s /\
    binv qs (k :: qs) f' /\ k < f_n_packets f' /\ (0 ∈ k :: qs -> f_leader f' = Some ldr) /\
    f_last_packet_time f' = now /\ known s' f'.
Proof.
  intros Hinv [Hfr B Hl Ht Hall Hkn] (Hv & Hld & _) Hk Hkq. unfold dispatch_packet. rewrite Hfr. simpl.
  assert (shape_inv f) as Hsh.
  { assert (r_frames s !! 0%nat = Some f) as Hf by (by rewrite Hfr).
    destruct (runner_inv_lookup _ _ _ _ _ _ Hinv Hf) as [Hi _]. apply Hi. }
  pose proof (ri_payload _ _ _ _ Hinv) as HPs. pose proof Hv as (_ & _ & _ & Hid & Hc).
  destruct Hc as [(-> & -> & l & Hp & _)|[(Hkr & -> & Hd)|(-> & ->)]].
  - destruct (absorb_leader qs f v sys B Hv) as [B' Hn]. do 2 eexists. split; [done|].
    split; [simpl; by rewrite Hfr|]. split_and!; [done|done|done| | |].
    + intros _. unfold process_leader. rewrite (bi_error _ _ _ B), Hid. simpl. by rewrite Hld.
    + unfold process_leader. by rewrite (bi_error _ _ _ B), Hid.
    + unfold process_leader. rewrite (bi_error _ _ _ B), Hid. by eapply known_same; [| | |exact Hkn].
  - destruct (absorb_payload qs f v s k) as (f' & st' & Hpp & B' & Hn); [done..|].
    rewrite Hpp. simpl. pose proof (process_payload_meta _ _ _ _ _ Hpp) as Hm. injection Hm as M1 M2 _ M3 M4 _ _.
    do 2 eexists. split; [done|]. split; [simpl; by rewrite Hfr|].
    split_and!; [done|done|done| |congruence|by eapply known_same; [| | |exact Hkn]]. intros Hin. rewrite M1. apply Hl.
    apply elem_of_cons in Hin as [?|?]; [lia|done].
  - destruct (absorb_trailer qs f v s) as (f' & Hpp & B' & Hn); [done..| |].
    { apply Forall_forall. intros j Hj. pose proof (proj1 (Forall_forall _ _) Hall _ Hj). simpl in *.
      destruct (decide (j = K + 1)) as [->|]; [done|lia]. }
    rewrite Hpp. simpl. pose proof (process_trailer_meta _ _ _ _ Hpp) as Hm. injection Hm as M1 M2 _ M3 M4 _ _.
    do 2 eexists. split; [done|]. split; [simpl; by rewrite Hfr|].
    split_and!; [done|done|done| |congruence|by eapply known_same; [| | |exact Hkn]]. intros Hin. rewrite M1. apply Hl.
    pose proof (zlen_nonneg ds). apply elem_of_cons in Hin as [?|?]; [lia|done].
Qed.

(** Every packet of the frame has been received. *)
Definition all_in (qs : list Z) (n : Z) : Prop := forall j, 0 <= j < n -> j ∈ qs.

Lemma accept_burst qs s f v k now :
  r_frames s = [f] -> binv qs (k :: qs) f -> frame_inv_at src P k f -> v_packet_id v = k ->
  0 <= k < f_n_packets f -> (0 ∈ k :: qs -> f_leader f = Some ldr) -> f_last_packet_time f = now ->
  Forall (fun j => 0 <= j <= K + 1) (k :: qs) -> known s f -> burst_packet k v ->
  exists s' b f', accept_packet s 0 v = Some (s', b) /\ burst_state (k :: qs) s' f' now /\ env s' = env s /\
    (f_last_valid_packet f' = f_n_packets f' - 1 <-> all_in (k :: qs) (f_n_packets f')).
Proof.
  intros Hfr B Hi Hk Hkn Hl Ht Hall Hknown Hbp. unfold accept_packet. rewrite Hfr, Hk. simpl.
  replace (k <? f_n_packets f) with true by lia.
  pose proof (fi_shape _ _ _ _ Hi) as [Hlen Hn Hlvp Hpre].
  destruct (get_at_is_Some (slot_packets (f_slot f)) k) as [p ->]; [lia|]. simpl.
  set (mark := fun p : PacketState => _).
  set (g := packet_update f k mark).
  assert (forall p, received (mark p) = true) as Hm by done.
  assert (forall j, 0 <= j -> (rcv g j <-> j ∈ k :: qs)) as Hg.
  { intros j Hj. rewrite elem_of_cons, <- (bi_rcv _ _ _ B j Hj). unfold g. split.
    - destruct (decide (j = k)) as [->|Hne]; [by left|]. intros Hr. right. revert Hr.
      unfold rcv, packet_update. simpl. by rewrite !list_lookup_fmap, list_lookup_alter_ne by lia.
    - intros [->|Hr]; [apply rcv_mark_self; [done|lia]|by apply rcv_mark]. }
  assert (zlen (slot_packets (f_slot g)) = f_n_packets f) as Hlg by (unfold g; simpl; by rewrite zlen_alter).
  assert (matches (Fingerprints_record (f_fingerprints f) v (f_replay_of f)).1) as Hmt.
  { apply matches_record with k; [apply Hknown|done|]. by apply Forall_cons in Hall as [? _]. }
  change (f_fingerprints (packet_update f k mark)) with (f_fingerprints f).
  change (f_replay_of (packet_update f k mark)) with (f_replay_of f).
  destruct (Fingerprints_record _ _ _) as [fps b].
  set (v0 := f_last_valid_packet f) in *. set (cnt := Z.to_nat (f_n_packets f - (v0 + 1))).
  destruct (advance_valid_spec cnt (slot_packets (f_slot g)) (v0 + 1)) as [A1 A2]; [lia|lia|].
  pose proof (advance_valid_stop cnt (slot_packets (f_slot g)) (v0 + 1) ltac:(lia)) as A3.
  set (r := advance_valid cnt (slot_packets (f_slot g)) (v0 + 1)) in *.
  do 3 eexists. split; [done|]. split; [split|].
  - simpl. by rewrite Hfr.
  - destruct B as [B1 B2 B3 B4 B5 B6 B7 B8 B9 B10 B11]. split; simpl; try done.
    + intros Hin. destruct (B10 Hin) as (? & ? & [n HD] & ? & ?). split_and!; try done.
      exists n. by eapply data_part_core; [|exact HD].
    + intros Hin. destruct (B11 Hin) as ([n HD] & ? & ? & ? & ?). split_and!; try done.
      exists n. by eapply data_part_core; [|exact HD].
  - done.
  - done.
  - done.
  - by destruct Hknown.
  - split; [done|]. simpl. fold v0 cnt. change (advance_valid cnt _ (v0 + 1)) with r. split.
    + intros E j Hj. apply Hg; [lia|]. destruct (decide (j <= v0)).
      * apply rcv_mark; [done|]. apply Hpre. lia.
      * apply A2. lia.
    + intros Ha. destruct A3 as [->|A3]; [lia|]. destruct (decide (r = f_n_packets f)); [lia|].
      exfalso. apply A3. apply Hg; [lia|]. apply Ha. lia.
Qed.

(** * Completion *)

Lemma all_in_complete qs f : binv qs qs f -> all_in qs (f_n_packets f) ->
  f_n_packets f = K + 2 /\ forall j, 0 <= j <= K + 1 -> j ∈ qs.
Proof.
  intros B Ha. pose proof (bi_n2 _ _ _ B). pose proof (bk_K OK).
  assert (1 ∈ qs) as H1 by (apply Ha; lia).
  destruct (bi_n _ _ _ B) as [Hn|[? _]]; [|done].
  assert (K + 1 ∈ qs) as HK by (apply Ha; lia).
  pose proof (bi_n_trailer _ _ _ B HK). split; [done|]. intros j Hj. apply Ha. lia.
Qed.

(** Blocks that are the burst's and cover as much as the burst are all of it. *)
Lemma covering_blocks (es : list bytes) :
  (forall k d, es !! k = Some d -> ds !! k = Some d) -> zlen (concat es) = zlen (concat ds) ->
  concat es = concat ds.
Proof.
  intros Hsub Hlen. assert (es = take (length es) ds) as E.
  { apply list_eq. intros k. destruct (es !! k) as [d|] eqn:Ek.
    - rewrite lookup_take_lt by (by eapply lookup_lt_Some). symmetry. by apply Hsub.
    - symmetry. apply lookup_ge_None_2. apply lookup_ge_None_1 in Ek. rewrite length_take. lia. }
  rewrite <- (take_drop (length es) ds), concat_app, <- E.
  rewrite <- (take_drop (length es) ds), concat_app, <- E, zlen_app in Hlen.
  destruct (concat (drop (length es) ds)); [by rewrite app_nil_r|].
  rewrite zlen_cons in Hlen. pose proof (zlen_nonneg l). lia.
Qed.

(** With everything absorbed the buffer holds the image. *)
Lemma complete_data qs f :
  binv qs qs f -> (forall j, 0 <= j <= K + 1 -> j ∈ qs) ->
  f_received_size f = f_data_end f /\
  take (Z.to_nat (Z.min (f_data_end f) (zlen (slot_data (f_slot f))))) (slot_data (f_slot f)) = concat ds.
Proof.
  intros B Ha. pose proof (bk_K OK). pose proof (bk_fit OK). pose proof (bk_bs OK).
  destruct (bi_data_known _ _ _ B) as (_ & Hbs & [n HD] & Hle & Hge); [apply Ha; lia|].
  assert (f_data_end f = zlen (concat ds)) as Hde by (specialize (Hge (Ha K ltac:(lia))); lia).
  assert (forall i, got qs i = ds !! i) as Hgot.
  { intros i. unfold got. case_decide as C; [done|]. destruct (ds !! i) eqn:Ei; [|done].
    exfalso. apply C, Ha. apply lookup_lt_Some in Ei. unfold zlen. lia. }
  assert (f_received_size f = zlen (concat ds)) as Hrs.
  { pose proof (data_part_received _ _ _ _ _ HD). rewrite (dp_sum _ _ _ _ _ HD) in *.
    rewrite (sum_blocks_ext _ _ _ Hgot) in *. destruct (decide (length ds <= n)%nat).
    - rewrite (sum_blocks_extend _ (length ds) n), sum_blocks_concat in *; try done.
      all: intros; by apply lookup_ge_None_2.
    - exfalso. assert (ds !! n = None) as Hnone by (rewrite <- Hgot; by apply (dp_bound _ _ _ _ _ HD)).
      apply lookup_ge_None_1 in Hnone. lia. }
  split; [lia|]. rewrite (dp_cap _ _ _ _ _ HD), Z.min_l by (pose proof (dp_end _ _ _ _ _ HD); lia).
  destruct (blocks_tile (got qs) n bs (slot_data (f_slot f)) (f_data_end f)) as (es & Hcat & Hes).
  - done.
  - apply HD.
  - intros i d Hd. rewrite <- Hbs. by apply (dp_blocks _ _ _ _ _ HD).
  - rewrite <- (dp_sum _ _ _ _ _ HD). lia.
  - rewrite Hcat. apply covering_blocks; [intros k d Hk; rewrite <- Hgot; by apply Hes|].
    rewrite <- Hcat. unfold zlen at 1. rewrite length_take.
    pose proof (dp_cap _ _ _ _ _ HD). unfold zlen in *. lia.
Qed.

(** What the subscriber gets. *)
Definition burst_frame (fr : Frame) : Prop :=
  fr_status fr = Complete /\ fr_frame_id fr = id /\ Frame_data fr = concat ds /\
  fr_width fr = il_width ldr /\ fr_height fr = il_height ldr /\ fr_pixel_format fr = il_pixel_format ldr.

Definition visible (s : StreamRunner) := (r_cfg s, r_delivered s).

(** ** A finished block *)

(** An open frame that only repeats the block. *)
Record echo (g : FrameInFlight) : Prop := {
  ec_id : f_frame_id g = id;
  ec_disabled : f_resend_disabled g = true;
  ec_replay : exists fps, f_replay_of g = Some fps /\ matches fps }.

(** The block has been handed out and is the newest one: what comes of it now
    is late. *)
Record finished (s : StreamRunner) : Prop := {
  fn_first : r_first_packet s = false;
  fn_last : r_last_frame_id s = id;
  fn_history : exists h fps, matches fps /\
    r_history s = h ++ [{| cb_frame_id := id; cb_extended_ids := ext; cb_fingerprints := Some fps |}];
  fn_frames : r_frames s = [] \/ id = RESTART_BLOCK_ID /\ exists g, r_frames s = [g] /\ echo g }.

Definition delivered (s s' : StreamRunner) : Prop :=
  finished s' /\ exists fr, r_delivered s' = r_delivered s ++ [fr] /\ burst_frame fr.

(** Completion leaves an incomplete frame alone and delivers a complete one. *)
Lemma complete_burst qs s f now ip :
  runner_inv src P ip s -> burst_state qs s f now -> 0 < cfg_frame_retention (r_cfg s) ->
  (f_last_valid_packet f = f_n_packets f - 1 <-> all_in qs (f_n_packets f)) ->
  exists s', check_frame_completion s now (Some id) = Some s' /\
    ((~ (forall j, 0 <= j <= K + 1 -> j ∈ qs)) -> s' = s) /\
    ((forall j, 0 <= j <= K + 1 -> j ∈ qs) ->
       delivered s s').
Proof.
  intros Hinv [Hfr B Hl Ht Hall Hkn] Hret Hlvp. unfold check_frame_completion. rewrite Hfr. simpl.
  rewrite Hfr. simpl. unfold completion_step. rewrite Hfr. simpl. unfold is_provisional.
  rewrite (bi_replay _ _ _ B).
  pose proof (all_in_complete qs f B) as Hac.
  destruct (f_last_valid_packet f =? f_n_packets f - 1) eqn:E.
  - destruct (Hac (proj1 Hlvp ltac:(lia))) as [_ Hcov].
    destruct (complete_data qs f B Hcov) as [Hrs Hdata].
    assert (r_frames s !! 0%nat = Some f) as Hf by (by rewrite Hfr).
    assert (completion_status f = Complete) as Hst.
    { unfold completion_status. rewrite (bi_error _ _ _ B). simpl. by rewrite Hrs, Z.eqb_refl. }
    rewrite Hst. destruct (close_frame_ok src P ip s 0 f Complete Hinv Hf (fun _ => Hrs)) as (s1 & Hc & _ & Hfr1).
    destruct (close_frame_delivers s 0 Complete f s1 Hf Hc) as [t Hdel].
    rewrite Hc. simpl. rewrite Hfr in Hfr1. rewrite Hfr1. simpl. exists s1. split; [done|].
    split; [done|]. intros _. destruct (close_frame_remembers s 0 Complete f s1 Hf Hc) as (R1 & R2 & h & R3). split.
    { destruct Hkn as [K1 K2 K3 K4]. split; [congruence|congruence| |by left]. exists h, (f_fingerprints f). split; [done|].
      by rewrite R3, (bi_id _ _ _ B), K3. }
    eexists. split; [done|]. unfold burst_frame, Frame_data. simpl. rewrite (Hl (Hcov 0 ltac:(pose proof (bk_K OK); lia))).
    split_and!; try done. apply B.
  - assert (~ (forall j, 0 <= j <= K + 1 -> j ∈ qs)) as Hno.
    { intros Hcov. assert (f_n_packets f = K + 2) as Hn.
      { apply (bi_n_trailer _ _ _ B), Hcov. pose proof (bk_K OK). lia. }
      enough (f_last_valid_packet f = f_n_packets f - 1) by lia.
      apply Hlvp. intros j Hj. apply Hcov. lia. }
    simpl. rewrite andb_false_r. unfold duration_since. rewrite Ht, Z.sub_diag. simpl.
    replace (_ <=? 0) with false by lia. rewrite andb_false_r. rewrite (bi_id _ _ _ B).
    rewrite bool_decide_true by done. simpl. rewrite Hfr. simpl. exists s. by split.
Qed.

(** Resend bookkeeping does not touch what the burst says. *)
Lemma binv_kept rc qs f g : kept f = kept g -> binv rc qs f -> binv rc qs g.
Proof.
  intros Ek B. assert (data_core f = data_core g) as Ec by (unfold kept, core in Ek; congruence).
  unfold kept, core, data_core in Ek.
  injection Ek as C1 C2 C3 C4 C5 C6 C7 C8 C9 C10 C11 C12 C13 C14 C15 C16 _ _.
  destruct B as [B1 B2 B3 B4 B5 B6 B7 B8 B9 B10 B11].
  split; rewrite <- ?C1, <- ?C3, <- ?C4, <- ?C7, <- ?C8, <- ?C9, <- ?C11, <- ?C12, <- ?C13, <- ?C14; try done.
  - intros i Hi. rewrite <- (B4 i Hi). unfold rcv. by rewrite C6.
  - intros Hin. destruct (B10 Hin) as (? & ? & [n HD] & ? & ?). split_and!; try done.
    exists n. by eapply data_part_core.
  - intros Hin. destruct (B11 Hin) as ([n HD] & ? & ? & ? & ?). split_and!; try done.
    exists n. by eapply data_part_core.
Qed.

Definition covers (qs : list Z) : Prop := forall j, 0 <= j <= K + 1 -> j ∈ qs.

Lemma covers_dec qs : {covers qs} + {~ covers qs}.
Proof.
  destruct (decide (Forall (fun j => j ∈ qs) (seqZ 0 (K + 2)))) as [H|H]; [left|right].
  - intros j Hj. apply (proj1 (Forall_forall _ _) H), elem_of_seqZ. lia.
  - intros C. apply H, Forall_forall. intros j Hj%elem_of_seqZ. apply C. lia.
Qed.

(** The frame stays open with the packets of [qs]. *)
Definition absorbed (qs : list Z) (s s' : StreamRunner) (now : Z) : Prop :=
  ~ covers qs -> exists qs' f', burst_state qs' s' f' now /\
    (forall j, j ∈ qs' <-> j ∈ qs) /\ visible s' = visible s.

(** After a packet is accepted: the missing-packet check, then completion. *)
Lemma settle_burst qs s f k now ip :
  runner_inv src P ip s -> burst_state qs s f now -> 0 <= k -> 0 < cfg_frame_retention (r_cfg s) ->
  (f_last_valid_packet f = f_n_packets f - 1 <-> all_in qs (f_n_packets f)) ->
  exists s', (s ← missing_packet_check s 0 k now; f ← r_frames s !! 0%nat;
              check_frame_completion s now (Some (f_frame_id f))) = Some s' /\
    absorbed qs s s' now /\ (covers qs -> delivered s s').
Proof.
  intros H BS Hk Hret Hlvp.
  assert (r_frames s !! 0%nat = Some f) as Hf by (by rewrite (bt_frames _ _ _ _ BS)).
  destruct (missing_packet_check_ok src P ip s 0 f k now H Hf Hk) as (s3 & f3 & -> & H3 & Fr3 & Hkept & Henv).
  cbn [mbind option_bind].
  assert (r_frames s3 = [f3]) as Fr3' by (by rewrite Fr3, (bt_frames _ _ _ _ BS)).
  assert (burst_state qs s3 f3 now /\
          (f_last_valid_packet f3 = f_n_packets f3 - 1 <-> all_in qs (f_n_packets f3))) as [BS3 Hlvp3].
  { destruct BS as [_ B2 L2 T2 A2 Kn2]. pose proof (binv_kept _ _ _ _ (eq_sym Hkept) B2) as B3.
    unfold kept, core, data_core in Hkept.
    injection Hkept as C1 C2 C3 C4 C5 C6 C7 C8 C9 C10 C11 C12 C13 C14 C15 C16 C17 C18.
    split; [split; rewrite ?C15, ?C16; try done; by eapply known_same; [| | |exact Kn2]|]. by rewrite C7, C10. }
  rewrite Fr3'. simpl. rewrite (bi_id _ _ _ (bt_inv _ _ _ _ BS3)).
  assert (visible s3 = visible s) as Hvis by (unfold env in Henv; unfold visible; by injection Henv as -> -> _ _).
  pose proof Hvis as Hvis'. unfold visible in Hvis'. injection Hvis' as Hcfg Hdel.
  destruct (complete_burst qs s3 f3 now ip) as (s4 & -> & Hno & Hyes); [done|done|by rewrite Hcfg|done|].
  exists s4. split; [done|]. split.
  - intros Hn. rewrite (Hno Hn). exists qs, f3. by split_and!.
  - intros Hc. unfold delivered. rewrite <- Hdel. by apply Hyes.
Qed.

(** A packet of the burst, at the open frame. *)
Lemma in_frame_burst qs s f v k now sys ip :
  runner_inv src P ip s -> burst_state qs s f now -> burst_packet k v -> 0 <= k <= K + 1 ->
  0 < cfg_frame_retention (r_cfg s) ->
  exists s', process_in_frame s 0 v now sys = Some s' /\ runner_inv src P ip s' /\
    absorbed (k :: qs) s s' now /\ (covers (k :: qs) -> k ∉ qs -> delivered s s').
Proof.
  intros Hinv BS Hv Hk Hret. pose proof BS as [Hfr B Hl Ht Hall Hkn]. pose proof Hv as [Hvv _].
  pose proof Hvv as (Hne & Hvid & _ & Hvk & _).
  assert (r_frames s !! 0%nat = Some f) as Hf by (by rewrite Hfr).
  destruct (process_in_frame_ok src P ip (bk_P OK) s 0 f v now sys) as (s' & Hs' & Hinv');
    [done|done|by rewrite (bi_id _ _ _ B)|by eapply burst_view_ok|].
  exists s'. split; [done|]. split; [done|]. revert Hs'. unfold process_in_frame. rewrite Hf. simpl.
  unfold is_provisional. rewrite (bi_replay _ _ _ B), Hne, Hvk. simpl.
  destruct (match get_at _ _ with Some p => _ | None => _ end) eqn:Er.
  { (* A duplicate. *)
    assert (k ∈ qs) as Hkq.
    { apply (bi_rcv _ _ _ B); [lia|]. destruct (get_at _ k) as [p|] eqn:Eg; [|discriminate].
      by apply (get_at_rcv f k p Eg). }
    intros [= <-]. split; [|done]. intros _. exists qs, f.
    split; [split; try done; by eapply known_same; [| | |exact Hkn]|]. split; [|done].
    intros j. rewrite elem_of_cons. split; [by right|]. intros [->|?]; done. }
  assert (~ rcv f k) as Hnr by (by apply not_received_rcv; [lia|]).
  assert (k ∉ qs) as Hkq by (rewrite <- (bi_rcv _ _ _ B) by lia; done).
  destruct (dispatch_burst qs s f v k now sys ip) as (s1 & f1 & Hd & Hfr1 & Henv1 & B1 & Hn1 & Hl1 & Ht1 & Hkn1);
    [done..|]. 
  destruct (dispatch_packet_ok src P ip (bk_P OK) s 0 f v sys) as (r & Hd' & Hr);
    [done|done|by rewrite (bi_id _ _ _ B)|by eapply burst_view_ok|by rewrite Hvk|].
  rewrite Hd in Hd'. injection Hd' as <-. destruct (Hr s1 eq_refl) as (f1' & R1 & Fr1 & Hi1 & He1 & Hid1).
  rewrite Hfr, Hfr1 in Fr1. simpl in Fr1. injection Fr1 as <-. rewrite Hd. cbn [mbind option_bind].
  rewrite Hvk in Hi1.
  destruct (accept_burst qs s1 f1 v k now) as (s2 & b & f2 & Ha & BS2 & Henv2 & Hlvp); try done; [lia| |].
  { by constructor. }
  destruct (accept_packet_ok src P s1 0 v f1) as (s2' & b' & f2' & Ha' & R2 & Fr2 & Hg2 & Hid2);
    [by rewrite Hfr1|by rewrite Hvk|done|lia|].
  rewrite Ha in Ha'. injection Ha' as <- <-. rewrite Ha. cbn [mbind option_bind].
  assert (runner_inv src P ip s2) as H2.
  { eapply (runner_inv_update src P ip s s2 0 f f2'); [done|done|congruence| |done|congruence].
    rewrite Fr2, Hfr1, Hfr. done. }
  assert (visible s2 = visible s) as Hvis.
  { assert (env s2 = env s) as E by (rewrite Henv2; exact Henv1). clear -E.
    unfold env in E. unfold visible. by injection E as -> -> _ _. }
  pose proof Hvis as Hvis'. unfold visible in Hvis'. injection Hvis' as Hcfg Hdel.
  destruct (settle_burst (k :: qs) s2 f2 k now ip) as (s4 & -> & Hno & Hyes); [done|done|lia|by rewrite Hcfg|done|].
  intros [= <-]. unfold absorbed, delivered in *. rewrite Hvis in Hno. rewrite Hdel in Hyes. by split; [|intros ? _; apply Hyes].
Qed.

(** * Opening the frame *)

(** No frame open, a buffer free, and [id] is the next block (or the first,
    or a jump too far back to be late). *)
Record idle (s : StreamRunner) : Prop := {
  id_frames : r_frames s = [];
  id_slots : contents (r_pool s) <> [];
  id_packet : packet_protocol_overhead ext < r_scps_packet_size s;
  id_retention : 0 < cfg_frame_retention (r_cfg s);
  id_fresh : r_first_packet s = true \/
    let inc_ := block_id_distance id (r_last_frame_id s) ext in
    1 <= inc_ \/ inc_ <= - DISCARD_LATE_FRAME_THRESHOLD }.

Hypothesis id_width : u64_ok id /\ (ext = false -> u16_ok id).

Lemma mask_low m z : 0 <= m -> 0 <= z <= Z.ones m -> Z.land z (Z.ones m) = z.
Proof.
  intros Hm Hz. rewrite Z.land_ones by lia. apply Z.mod_small.
  rewrite Z.ones_equiv in Hz. lia.
Qed.

(** The first packet's block counts as the next one. *)
Lemma first_distance : block_id_distance id (wrap 64 (id - 1)) ext = 1.
Proof.
  unfold block_id_distance.
  set (max := if ext then U64_MAX else U16_MAX).
  assert (exists m, max = Z.ones m /\ 16 <= m <= 64 /\ 0 <= id <= max) as (m & Em & Hm & Hid).
  { destruct id_width as [H1 H2]. unfold max. destruct ext; [exists 64|exists 16];
      (split; [reflexivity|]; split; [lia|]); [width_lia|]. specialize (H2 eq_refl). width_lia. }
  rewrite Em in *. rewrite (mask_low m id) by lia.
  assert (Z.land (wrap 64 (id - 1)) (Z.ones m) = if id =? 0 then Z.ones m else id - 1) as ->.
  { destruct (id =? 0) eqn:E.
    - assert (id = 0) as -> by lia. change (wrap 64 (0 - 1)) with (Z.ones 64).
      apply Z.bits_inj'. intros n Hn. rewrite Z.land_spec, !Z.testbit_ones_nonneg by lia. lia.
    - rewrite wrap_small by (destruct id_width; width_lia). apply mask_low; lia. }
  assert (65535 <= Z.ones m).
  { rewrite Z.ones_equiv. pose proof (Z.pow_le_mono_r 2 16 m). change (2 ^ 16) with 65536 in *. lia. }
  destruct (id =? 0) eqn:E; simpl.
  - replace (id + (Z.ones m + 1) - Z.ones m) with 1 by lia.
    rewrite Z.mod_small by lia. replace (1 <=? _) with true; [done|].
    symmetry. apply Z.leb_le. apply Z.div_le_lower_bound; lia.
  - assert (forall M, M = Z.ones m \/ M = Z.ones m + 1 -> (id + M - (id - 1)) mod M = 1) as Hmod.
    { intros M HM. replace (id + M - (id - 1)) with (1 + 1 * M) by lia.
      rewrite Z.mod_add by lia. apply Z.mod_small. lia. }
    destruct (id - 1 =? 0); rewrite Hmod by lia; (replace (1 <=? _) with true; [done|]);
      symmetry; apply Z.leb_le, Z.div_le_lower_bound; lia.
Qed.

Lemma burst_count s v k :
  r_payload_size s = P -> 0 < block_estimate s v -> burst_view k v -> 0 <= k <= K + 1 ->
  2 <= compute_n_expected_packets s v.
Proof.
  intros HPs Hb (_ & _ & _ & Hk & Hc) Hr. unfold compute_n_expected_packets.
  replace (block_estimate s v =? 0) with false by lia. destruct (bk_P OK) as [HP0 _].
  rewrite HPs. pose proof (div_ceil_nonneg P (block_estimate s v) ltac:(lia) Hb).
  destruct Hc as [(_ & -> & l & Hl & Ht)|[(_ & -> & _)|(_ & ->)]].
  - rewrite Hl. simpl. rewrite Ht. simpl. rewrite MAX_FRAME_PACKETS_eq. lia.
  - rewrite MAX_FRAME_PACKETS_eq. lia.
  - destruct (_ && _) eqn:E; [lia|]. rewrite MAX_FRAME_PACKETS_eq. lia.
Qed.

Lemma create_burst s v k now inc_ ip :
  runner_inv src P ip s -> r_frames s = [] -> contents (r_pool s) <> [] -> 0 < block_estimate s v ->
  r_first_packet s = false -> burst_packet k v -> 0 <= k <= K + 1 ->
  exists s' f, create_frame s v now inc_ None = Some (s', Some 0%nat) /\ burst_state [] s' f now /\
    visible s' = visible s.
Proof.
  intros Hinv Hfr Hpool Hb Hfp [Hv _] Hk. unfold create_frame, discard_provisional. rewrite Hfr. simpl.
  unfold position. rewrite Hfr. simpl.
  pose proof (burst_count s v k (ri_payload _ _ _ _ Hinv) Hb Hv Hk) as Hn.
  replace (_ =? 0) with false by lia. unfold FramePool_try_claim.
  pose proof (try_recv_spec (r_pool s)) as Hr.
  destruct (try_recv (r_pool s)) as [[slot pool]|]; [|by rewrite Hr in Hpool].
  pose proof (ri_pool _ _ _ _ Hinv) as Hslots. rewrite Hr in Hslots.
  apply Forall_cons in Hslots as [Hslot _].
  destruct (compute_n_expected_bounds P (bk_P OK) s v) as [Hn2 _];
    [apply Hinv|by destruct Hv as (_ & _ & _ & -> & _); lia|lia|].
  set (t := if 1 <? inc_ then _ else _).
  assert (r_frames t = [] /\ visible t = visible s /\ block_estimate t v = block_estimate s v /\ r_first_packet t = false)
    as (T1 & T2 & T3 & T4) by (unfold t; by destruct (1 <? inc_)).
  clearbody t. simpl. rewrite T1. do 2 eexists. split; [done|]. split; [|by rewrite <- T2].
  destruct Hv as (_ & Hvid & Hvx & _).
  split; simpl; [by rewrite T1| | |done|constructor|].
  3: { split; try done. apply matches_default. }
  2: { intros Hin. by apply elem_of_nil in Hin. }
  split; simpl; try done.
  - intros i Hi. split; [|by intros Hin%elem_of_nil]. unfold rcv. simpl.
    rewrite list_lookup_fmap, resize_lookup by lia. by case_decide.
  - split; [done|]. by intros Hin%elem_of_nil.
  - split; [done|]. by intros Hin%elem_of_nil.
  - by intros Hin%elem_of_nil.
  - right. split; by intros Hin%elem_of_nil.
  - by intros Hin%elem_of_nil.
  - intros _. split_and!; [|done| |constructor|].
    + exists 0%nat. split; simpl; try done; [rewrite <- T3 in Hb; exact Hb|]. destruct (bk_P OK). lia.
    + symmetry. clear. induction (length ds) as [|n IH]; [done|]. simpl. by rewrite IH.
    + intros j e. split; [by intros Hin%elem_of_nil|]. intros [Hin%elem_of_nil _]. done.
Qed.

(** * A packet of the burst, at the worker *)

Lemma packet_open qs s f v k dg now0 now sys ip :
  runner_inv src P ip s -> burst_state qs s f now0 -> GvspView_parse dg = Some v -> burst_packet k v ->
  0 <= k <= K + 1 -> 0 < cfg_frame_retention (r_cfg s) ->
  exists s', process_packet s dg now sys = Some s' /\ runner_inv src P ip s' /\
    absorbed (k :: qs) s s' now /\ (covers (k :: qs) -> k ∉ qs -> delivered s s').
Proof.
  intros Hinv BS Hp Hv Hk Hret. unfold process_packet. rewrite Hp. cbn [mbind option_bind].
  set (s1 := if r_first_packet s then _ else s).
  assert (runner_inv src P ip s1 /\ r_frames s1 = r_frames s /\ visible s1 = visible s /\ env s1 = env s) as (Hinv1 & Hfr1 & Hvis1 & Henv1).
  { unfold s1. by rewrite (kn_first _ _ (bt_known _ _ _ _ BS)). }
  clearbody s1. destruct BS as [Hfr B Hl Ht Hall Hkn]. unfold find_or_create_frame. rewrite Hfr1, Hfr.
  pose proof Hv as [(_ & Hvid & _) _].
  assert (position (fun f => f_frame_id f =? v_frame_id v) [f] = Some 0%nat) as ->.
  { unfold position. simpl. rewrite (bi_id _ _ _ B), Hvid, Z.eqb_refl. done. }
  cbn [mbind option_bind].
  set (s2 := s1 <| r_frames ::= alter _ 0%nat |>). set (f2 := f <| f_last_packet_time := now |>).
  assert (burst_state qs s2 f2 now) as BS2.
  { split; try done; [simpl; by rewrite Hfr1, Hfr| |by eapply known_same; [exact Henv1| | |exact Hkn]].
    destruct B as [B1 B2 B3 B4 B5 B6 B7 B8 B9 B10 B11]. split; try done.
    - intros Hin. destruct (B10 Hin) as (? & ? & [n HD] & ? & ?). split_and!; try done.
      exists n. by eapply data_part_core; [|exact HD].
    - intros Hin. destruct (B11 Hin) as ([n HD] & ? & ? & ? & ?). split_and!; try done.
      exists n. by eapply data_part_core; [|exact HD]. }
  assert (runner_inv src P ip s2) as Hinv2.
  { assert (r_frames s1 !! 0%nat = Some f) as Hf by (by rewrite Hfr1, Hfr).
    eapply (runner_inv_update src P ip s1 s2 0 f f2); [done|done|done| | |done].
    - simpl. by rewrite Hfr1, Hfr.
    - eapply frame_good_core; [|by eapply runner_inv_lookup]. done. }
  injection Hvis1 as Hcfg Hdel.
  destruct (in_frame_burst qs s2 f2 v k now sys ip) as (s' & Hs' & Hinv' & Hab & Hdl);
    [done..|simpl; by rewrite Hcfg|].
  exists s'. split; [done|]. split; [done|]. unfold absorbed, delivered, visible in *. simpl in Hab, Hdl.
  rewrite Hcfg, Hdel in Hab. rewrite Hdel in Hdl. done.
Qed.

Lemma packet_idle s v k dg now sys ip :
  runner_inv src P ip s -> idle s -> GvspView_parse dg = Some v -> burst_packet k v -> 0 <= k <= K + 1 ->
  exists s', process_packet s dg now sys = Some s' /\ runner_inv src P ip s' /\
    absorbed [k] s s' now /\ (covers [k] -> delivered s s').
Proof.
  intros Hinv [Hfr Hpool Hscps Hret Hfresh] Hp Hv Hk. unfold process_packet. rewrite Hp. cbn [mbind option_bind].
  pose proof Hv as [(_ & Hvid & Hvext & _) _]. rewrite Hvid.
  set (s1 := if r_first_packet s then _ else s).
  assert (runner_inv src P ip s1 /\ r_frames s1 = [] /\ visible s1 = visible s /\ r_pool s1 = r_pool s /\
          block_estimate s1 v = block_estimate s v /\ r_first_packet s1 = false /\
          (1 <= block_id_distance id (r_last_frame_id s1) ext \/
           block_id_distance id (r_last_frame_id s1) ext <= - DISCARD_LATE_FRAME_THRESHOLD))
    as (Hinv1 & Hfr1 & Hvis1 & Hpool1 & Hbe1 & Hfp1 & Hf1).
  { unfold s1. destruct (r_first_packet s) eqn:Ef.
    - split_and!; try done; [by eapply runner_inv_ext; [| |exact Hinv]|]. left. simpl. by rewrite first_distance.
    - split_and!; try done. destruct Hfresh as [?|?]; [congruence|done]. }
  clearbody s1. unfold find_or_create_frame. unfold position. rewrite Hfr1. cbn [list_find fmap option_fmap option_map].
  rewrite Hvid, Hvext. unfold DISCARD_LATE_FRAME_THRESHOLD in *.
  replace (_ && _) with false by lia.
  destruct (create_burst s1 v k now (block_id_distance id (r_last_frame_id s1) ext) ip)
    as (s2 & f & Hc & BS & Hvis2); [done|done|by rewrite Hpool1| |done|done|done|].
  { rewrite Hbe1. unfold block_estimate, saturating_sub. rewrite Hvext. lia. }
  destruct (create_frame_ok src P ip (bk_P OK) s1 v now (block_id_distance id (r_last_frame_id s1) ext) None)
    as (s2' & found & Hc' & Hinv2 & _).
  { done. } { destruct Hv as [(_ & _ & _ & -> & _) _]. lia. } { rewrite Hfr1. by intros Hin%elem_of_nil. }
  rewrite Hc in Hc'. injection Hc' as <- <-. rewrite Hc. cbn [mbind option_bind].
  unfold visible in Hvis1, Hvis2. injection Hvis1 as C1 D1. injection Hvis2 as C2 D2.
  destruct (in_frame_burst [] s2 f v k now sys ip) as (s' & Hs' & Hinv' & Hab & Hdl);
    [done..|by rewrite C2, C1|].
  exists s'. split; [done|]. split; [done|]. unfold absorbed, delivered, visible in *.
  rewrite C2, C1, D2, D1 in Hab. rewrite D2, D1 in Hdl. split; [done|].
  intros Hcov. apply Hdl; [done|]. by intros Hin%elem_of_nil.
Qed.

(** * The whole burst *)

(** The datagram [r] from the device carries packet [k]. *)
Definition packet_input (ip k : Z) (r : RecvResult) : Prop :=
  exists dg drops now sys v, r = RecvDatagram ip dg drops now sys /\
    GvspView_parse dg = Some v /\ burst_packet k v /\ 0 <= k <= K + 1.

(** The counters a datagram bumps before it is processed. *)
Lemma drain_datagram ip s dg drops now sys input :
  r_device_ip s = ip ->
  exists s1, drain_socket s (RecvDatagram ip dg drops now sys :: input) =
      (s ← process_packet s1 dg now sys; drain_socket s input) /\
    rest s1 = rest s /\ r_frames s1 = r_frames s /\ r_cfg s1 = r_cfg s /\
    r_first_packet s1 = r_first_packet s /\ r_last_frame_id s1 = r_last_frame_id s /\
    r_scps_packet_size s1 = r_scps_packet_size s /\ r_resend_enabled s1 = r_resend_enabled s.
Proof.
  intros Hip. simpl. destruct drops; simpl; rewrite Hip, Z.eqb_refl; simpl;
    (eexists; split; [reflexivity|done]).
Qed.

Lemma burst_state_bump qs s s1 f t : r_frames s1 = r_frames s -> r_first_packet s1 = r_first_packet s ->
  r_last_frame_id s1 = r_last_frame_id s -> burst_state qs s f t -> burst_state qs s1 f t.
Proof. intros E1 E2 E3 [? ? ? ? ? []]. split; [congruence|done..|]. split; [congruence..|done|done]. Qed.

(** ** Late packets *)

(** Nothing but counters, buffers and open frames changes. *)
Definition still (s s' : StreamRunner) : Prop := env s' = env s /\ r_history s' = r_history s.

Lemma still_trans s1 s2 s3 : still s1 s2 -> still s2 s3 -> still s1 s3.
Proof. intros [] []. split; congruence. Qed.

Definition echoes (s : StreamRunner) : Prop := r_frames s = [] \/ exists g, r_frames s = [g] /\ echo g.

Lemma echo_tag g g' : f_frame_id g' = f_frame_id g -> f_replay_of g' = f_replay_of g ->
  f_resend_disabled g' = f_resend_disabled g -> echo g -> echo g'.
Proof. intros E1 E2 E3 [H1 H2 (fps & H3 & M)]. split; [congruence|congruence|]. exists fps. split; [congruence|done]. Qed.

Lemma look_echo s g now current s' : r_frames s = [g] -> echo g -> check_frame_completion s now current = Some s' ->
  still s s' /\ echoes s'.
Proof.
  intros Hg E. pose proof E as [_ _ (fps & Hf & _)]. unfold check_frame_completion, completion_step. rewrite ?Hg.
  cbn [length completion_loop]. rewrite ?Hg. cbn [length Nat.leb]. unfold completion_step, is_provisional. rewrite ?Hg.
  cbn [lookup list_lookup mbind option_bind]. rewrite Hf. destruct (_ || _).
  - unfold discard_frame. rewrite ?Hg. cbn [lookup list_lookup mbind option_bind]. simpl. rewrite ?Hg. simpl.
    intros [= <-]. split; [done|]. left. simpl. by rewrite ?Hg.
  - simpl. rewrite ?Hg. simpl. intros [= <-]. split; [done|]. right. by exists g.
Qed.

Lemma dispatch_echo s g v sys r : r_frames s = [g] -> echo g -> dispatch_packet s 0 v sys = Some r ->
  match r with None => True | Some s1 => still s s1 /\ exists g1, r_frames s1 = [g1] /\ echo g1 end.
Proof.
  intros Hg E. unfold dispatch_packet. rewrite Hg. cbn [lookup list_lookup mbind option_bind].
  assert (forall g1, tag g1 = tag g -> echo g1) as Htag by (intros g1 [= ? _ _ ? ?]; by apply (echo_tag g)).
  destruct (v_content_type v); try by intros [= <-].
  - intros [= <-]. split; [done|]. eexists. split; [simpl; by rewrite Hg|]. apply Htag. unfold process_leader.
    destruct (f_error g); [done|]. by destruct (negb _).
  - destruct (process_trailer s g v) as [g1|] eqn:Et; [|done]. intros [= <-]. split; [done|]. exists g1.
    split; [simpl; by rewrite Hg|]. apply Htag. pose proof (process_trailer_meta _ _ _ _ Et) as Hm. unfold meta in Hm. congruence.
  - destruct (process_payload s g v) as [[g1 st]|] eqn:Et; [|done]. intros [= <-]. split; [done|]. exists g1.
    split; [simpl; by rewrite Hg|]. apply Htag. pose proof (process_payload_meta _ _ _ _ _ Et) as Hm. unfold meta in Hm. congruence.
Qed.

(** A packet of the burst does not differ from what is remembered. *)
Lemma accept_echo s g v k s1 b : r_frames s = [g] -> echo g -> burst_packet k v -> 0 <= k <= K + 1 ->
  accept_packet s 0 v = Some (s1, b) -> still s s1 /\ b = false /\ exists g1, r_frames s1 = [g1] /\ echo g1.
Proof.
  intros Hg E Hv Hk. unfold accept_packet. rewrite Hg. cbn [lookup list_lookup mbind option_bind].
  set (marked := if _ <? _ then _ else _).
  assert (forall g1 st, marked = Some (g1, st) -> echo g1 /\ f_replay_of g1 = f_replay_of g) as Hm.
  { unfold marked. intros g1 st. destruct (_ <? _); [|by intros [= <- _]].
    destruct (get_at _ _); [|done]. intros [= <- _]. split; [|done]. by apply (echo_tag g). }
  destruct marked as [[g1 st]|]; [|done]. destruct (Hm g1 st eq_refl) as [E1 Er]. cbn [mbind option_bind]. 
  change (f_replay_of (g1 <| f_last_valid_packet ::= _ |>)) with (f_replay_of g1).
  destruct (Fingerprints_record _ _ _) as [fps diverged] eqn:Ef. intros [= <- <-]. split; [done|]. split.
  - destruct E1 as [_ _ (ref & Href & M)]. rewrite Href in Ef. destruct diverged; [|done]. exfalso. apply (M k v Hv Hk).
    eapply record_differs. by rewrite Ef.
  - eexists. split; [simpl; by rewrite Hg|]. by apply (echo_tag g1).
Qed.

Lemma late_in_frame s g v k now sys s' : r_frames s = [g] -> echo g -> burst_packet k v -> 0 <= k <= K + 1 ->
  process_in_frame s 0 v now sys = Some s' -> still s s' /\ echoes s'.
Proof.
  intros Hg E Hv Hk. pose proof E as [_ _ (fps & Hf & _)]. pose proof Hv as [(Hne & _) _]. unfold process_in_frame, is_provisional.
  rewrite Hg. cbn [lookup list_lookup mbind option_bind]. rewrite Hf, Hne.
  set (s1 := ignore_packet _). set (g1 := g <| f_absorbed ::= inc |>).
  assert (r_frames s1 = [g1]) as Hg1 by (unfold s1; simpl; by rewrite Hg).
  assert (still s s1) as S1 by done. assert (echo g1) as E1 by (by apply (echo_tag g)). clearbody s1 g1.
  destruct (match get_at _ _ with Some p => _ | None => _ end); [intros [= <-]; split; [done|]; right; by exists g1|].
  destruct (dispatch_packet s1 0 v sys) as [r|] eqn:Ed; [|done]. cbn [mbind option_bind].
  pose proof (dispatch_echo _ _ _ _ _ Hg1 E1 Ed) as Hd. destruct r as [s2|]; [|intros [= <-]; split; [done|]; right; by exists g1].
  destruct Hd as (S2 & g2 & Hg2 & E2). destruct (accept_packet s2 0 v) as [[s3 b]|] eqn:Ea; [|done]. cbn [mbind option_bind].
  destruct (accept_echo _ _ _ _ _ _ Hg2 E2 Hv Hk Ea) as (S3 & -> & g3 & Hg3 & E3). simpl.
  unfold missing_packet_check. rewrite Hg3. cbn [lookup list_lookup mbind option_bind].
  rewrite (ec_disabled _ E3), orb_true_r. simpl. rewrite Hg3. cbn [lookup list_lookup mbind option_bind].
  intros Hc. destruct (look_echo _ _ _ _ _ Hg3 E3 Hc) as [S4 E4]. split; [|done].
  by do 3 (eapply still_trans; [eassumption|]).
Qed.

Lemma distance_self : block_id_distance id id ext = 0.
Proof.
  unfold block_id_distance. set (max := if ext then U64_MAX else U16_MAX). set (x := Z.land id max).
  assert (0 < max) as Hmax by (unfold max, U64_MAX, U16_MAX; destruct ext; lia).
  set (m := max + _). assert (0 < m) as Hm by (unfold m; destruct (_ || _); lia).
  replace (x + m - x) with (0 + 1 * m) by lia. rewrite Z.mod_add, Z.mod_0_l by lia.
  replace (0 <=? m / 2) with true; [done|]. symmetry. apply Z.leb_le, Z.div_pos; lia.
Qed.

(** A packet of a finished block changes nothing that is handed out. *)
Lemma late_packet s v k dg now sys ip :
  runner_inv src P ip s -> finished s -> GvspView_parse dg = Some v -> burst_packet k v -> 0 <= k <= K + 1 ->
  exists s', process_packet s dg now sys = Some s' /\ runner_inv src P ip s' /\ finished s' /\ r_delivered s' = r_delivered s.
Proof.
  intros Hinv F Hp Hv Hk. destruct (process_packet_ok src P ip (bk_P OK) s dg now sys Hinv) as (s' & Hs' & Hinv').
  { intros v' Hv'. rewrite Hp in Hv'. injection Hv' as <-. destruct Hv as [Hvv _]. by eapply burst_view_ok. }
  exists s'. split; [done|]. split; [done|]. destruct F as [F1 F2 (h & fps & M & F3) F4].
  enough (still s s' /\ (echoes s' /\ (id = RESTART_BLOCK_ID \/ r_frames s' = []))) as ([E Eh] & Ec & Ei).
  { unfold env in E. injection E as _ E1 E2 E3. split; [|done]. split; [congruence|congruence| |].
    - exists h, fps. split; [done|congruence].
    - destruct Ec as [?|?]; [by left|]. destruct Ei as [?|?]; [by right|by left]. }
  pose proof Hv as [(_ & Hvid & Hvx & _) _]. revert Hs'. unfold process_packet. rewrite Hp, F1. unfold find_or_create_frame.
  destruct F4 as [Hfr|(Hid & g & Hfr & E)].
  - unfold position. rewrite Hfr. cbn [list_find fmap option_fmap option_map]. rewrite Hvid, Hvx, F2, distance_self.
    unfold DISCARD_LATE_FRAME_THRESHOLD. simpl (_ && _). cbn [mbind option_bind].
    unfold classify_behind. rewrite Hvid. destruct (id =? RESTART_BLOCK_ID) eqn:Eid; simpl (negb _); cbn [mbind option_bind].
    2: { intros [= <-]. split; [done|]. by split; [left|right]. }
    rewrite F3, reverse_snoc. cbn [List.find cb_frame_id cb_extended_ids cb_fingerprints]. rewrite Hvx, Z.eqb_refl, eqb_reflx.
    simpl (_ && _). cbn [mbind option_bind cb_fingerprints]. unfold create_frame. cbn [mbind option_bind].
    assert (id = RESTART_BLOCK_ID \/ r_frames s' = []) as Hor by (left; lia).
    destruct (_ =? 0); [intros [= <-]; by split; [|split; [left|]]|].
    destruct (FramePool_try_claim (r_pool s)) as [[slot pool]|]; [|intros [= <-]; by split; [|split; [left|]]].
    cbn [mbind option_bind]. simpl (r_frames (_ <| r_pool := _ |>)). rewrite Hfr. cbn [length]. intros Hs'.
    eapply late_in_frame in Hs' as [S E']; [by split; [|split]|simpl; by rewrite Hfr| |exact Hv|done].
    split; simpl; [done|done|]. by exists fps.
  - unfold position. rewrite Hfr. cbn [list_find]. rewrite decide_True by (rewrite (ec_id _ E), Hvid; apply Z.eqb_refl).
    cbn [fmap option_fmap option_map fst mbind option_bind]. intros Hs'.
    eapply late_in_frame in Hs' as [S E']; [by split; [|split; [|left]]|simpl; by rewrite Hfr| |exact Hv|done].
    by apply (echo_tag g).
Qed.

Lemma drain_late ks : forall rs s ip, runner_inv src P ip s -> finished s -> Forall2 (packet_input ip) ks rs ->
  exists s', drain_socket s rs = Some s' /\ runner_inv src P ip s' /\ finished s' /\ r_delivered s' = r_delivered s.
Proof.
  induction ks as [|k ks IH]; intros rs s ip Hinv F Hrs.
  - apply Forall2_nil_inv_l in Hrs as ->. by exists s.
  - apply Forall2_cons_inv_l in Hrs as (r & rs' & (dg & drops & now & sys & v & -> & Hp & Hv & Hk) & Hrs & ->).
    destruct (drain_datagram ip s dg drops now sys rs') as (s1 & -> & R & Fr & Cf & Ffp & Fl & _); [apply Hinv|].
    destruct (late_packet s1 v k dg now sys ip) as (s2 & -> & Hinv2 & F2 & D2); try done.
    + by eapply runner_inv_ext; [symmetry; exact R|symmetry; exact Fr|].
    + unfold rest in R. injection R as _ _ R _ _ _. destruct F. split; by rewrite ?R, ?Fr, ?Ffp, ?Fl.
    + cbn [mbind option_bind]. destruct (IH rs' s2 ip) as (s3 & -> & ? & ? & D3); [done..|].
      exists s3. split_and!; try done. unfold rest in R. congruence.
Qed.

(** ** Any order, any repeats *)

(** From here the burst is handed out once. *)
Lemma drain_burst_open ks : forall rs qs s f now0 ip,
  runner_inv src P ip s -> burst_state qs s f now0 -> 0 < cfg_frame_retention (r_cfg s) ->
  Forall2 (packet_input ip) ks rs -> ~ covers qs -> covers (ks ++ qs) ->
  exists s', drain_socket s rs = Some s' /\ runner_inv src P ip s' /\ delivered s s'.
Proof.
  induction ks as [|k ks IH]; intros rs qs s f now0 ip Hinv BS Hret Hrs Hnc Hcov; [done|].
  apply Forall2_cons_inv_l in Hrs as (r & rs' & (dg & drops & now & sys & v & -> & Hp & Hv & Hk) & Hrs & ->).
  destruct (drain_datagram ip s dg drops now sys rs') as (s1 & -> & R & Fr & Cf & Ffp & Fl & _); [apply Hinv|].
  assert (r_delivered s1 = r_delivered s) as Hd1 by (unfold rest in R; congruence).
  destruct (packet_open qs s1 f v k dg now0 now sys ip) as (s2 & -> & Hinv2 & Hab & Hdel); try done.
  { by eapply runner_inv_ext; [symmetry; exact R|symmetry; exact Fr|]. }
  { by apply (burst_state_bump qs s). }
  { by rewrite Cf. }
  cbn [mbind option_bind]. destruct (covers_dec (k :: qs)) as [Hc|Hc].
  - destruct Hdel as (F & fr & Hdl & B); [done| |].
    { intros Hkq. apply Hnc. intros j Hj. specialize (Hc j Hj). apply elem_of_cons in Hc as [->|?]; done. }
    destruct (drain_late ks rs' s2 ip) as (s3 & -> & Hinv3 & F3 & D3); [done..|].
    exists s3. split; [done|]. split; [done|]. split; [done|]. exists fr. split; [congruence|done].
  - destruct (Hab Hc) as (qs' & f' & BS' & Hq & Hvis). unfold visible in Hvis. injection Hvis as C2 D2.
    destruct (IH rs' qs' s2 f' now ip) as (s' & Hs' & Hinv' & F & Hdl); [done|done|by rewrite C2, Cf|done| | |].
    + intros H. apply Hc. intros j Hj. by apply Hq, H.
    + intros j Hj. specialize (Hcov j Hj). rewrite elem_of_app, Hq, elem_of_cons. rewrite elem_of_app, elem_of_cons in Hcov. tauto.
    + exists s'. split; [done|]. split; [done|]. split; [done|]. by rewrite <- Hd1, <- D2.
Qed.

(** From the first packet on. *)
Lemma drain_burst ks rs s ip :
  runner_inv src P ip s -> idle s -> Forall2 (packet_input ip) ks rs -> covers ks ->
  exists s', drain_socket s rs = Some s' /\ runner_inv src P ip s' /\ delivered s s'.
Proof.
  intros Hinv Hidle Hrs Hcov. pose proof (bk_K OK) as HK.
  destruct ks as [|k ks]; [exfalso; pose proof (Hcov 0 ltac:(lia)) as H0; by apply elem_of_nil in H0|].
  apply Forall2_cons_inv_l in Hrs as (r & rs' & (dg & drops & now & sys & v & -> & Hp & Hv & Hk) & Hrs & ->).
  destruct (drain_datagram ip s dg drops now sys rs') as (s1 & -> & R & Fr & Cf & Ffp & Fl & Fs & _); [apply Hinv|].
  assert (r_delivered s1 = r_delivered s /\ r_pool s1 = r_pool s) as [Hd Hpl] by (unfold rest in R; by injection R).
  destruct (packet_idle s1 v k dg now sys ip) as (s2 & -> & Hinv2 & Hab & _); try done.
  { by eapply runner_inv_ext; [symmetry; exact R|symmetry; exact Fr|]. }
  { destruct Hidle. split; by rewrite ?Fr, ?Hpl, ?Cf, ?Ffp, ?Fl, ?Fs. }
  cbn [mbind option_bind]. assert (~ covers [k]) as Hc.
  { intros Hc. pose proof (Hc 0 ltac:(lia)) as H0. pose proof (Hc 1 ltac:(lia)) as H1.
    apply list_elem_of_singleton in H0, H1. lia. }
  destruct (Hab Hc) as (qs' & f' & BS' & Hq & Hvis). unfold visible in Hvis. injection Hvis as C2 D2.
  destruct (drain_burst_open ks rs' qs' s2 f' now ip) as (s' & Hs' & Hinv' & F & Hdl); try done.
  - rewrite C2, Cf. apply Hidle.
  - intros H. apply Hc. intros j Hj. by apply Hq, H.
  - intros j Hj. specialize (Hcov j Hj). rewrite elem_of_app, Hq, list_elem_of_singleton. rewrite elem_of_cons in Hcov. tauto.
  - exists s'. split; [done|]. split; [done|]. split; [done|]. by rewrite <- Hd, <- D2.
Qed.
End burst.
