(* ===== verification/Text.v ===== *)
(** Text: Rust's [str] as a list of Unicode scalar values, and its UTF-8 form.

    [from_utf8_lossy] is the standard library's decoder (the device's string
    registers, the description file and the URL go through it): every maximal
    invalid prefix becomes one U+FFFD.  [trim] and the ASCII case functions
    are the ones the URL and expression parsers use. *)

From S2P Require Import Prelude.

Abbreviation text := (list Z).

(** A Unicode scalar value: any code point but the surrogates. *)
Definition scalar_ok (c : Z) : Prop := 0 <= c < 0xD800 \/ 0xE000 <= c < 0x110000.
Definition scalar_okb (c : Z) : bool :=
  ((0 <=? c) && (c <? 0xD800)) || ((0xE000 <=? c) && (c <? 0x110000)).

Definition utf8_char (c : Z) : bytes :=
  if c <? 0x80 then [c]
  else if c <? 0x800 then [0xC0 + c / 64; 0x80 + c mod 64]
  else if c <? 0x10000 then [0xE0 + c / 4096; 0x80 + c / 64 mod 64; 0x80 + c mod 64]
  else [0xF0 + c / 262144; 0x80 + c / 4096 mod 64; 0x80 + c / 64 mod 64; 0x80 + c mod 64].

(** [str::as_bytes]. *)
Definition as_bytes (s : text) : bytes := concat (utf8_char <$> s).

Definition is_cont (b : Z) : bool := (0x80 <=? b) && (b <=? 0xBF).
Definition between (lo b hi : Z) : bool := (lo <=? b) && (b <=? hi).

(** The second byte that may follow a three- or four-byte lead. *)
Definition second3 (a b : Z) : bool :=
  ((a =? 0xE0) && between 0xA0 b 0xBF) || (between 0xE1 a 0xEC && is_cont b)
  || ((a =? 0xED) && between 0x80 b 0x9F) || (between 0xEE a 0xEF && is_cont b).
Definition second4 (a b : Z) : bool :=
  ((a =? 0xF0) && between 0x90 b 0xBF) || (between 0xF1 a 0xF3 && is_cont b)
  || ((a =? 0xF4) && between 0x80 b 0x8F).

Definition REPLACEMENT : Z := 0xFFFD.

(** One step of the decoder: the character read (or U+FFFD) and how many
    bytes it took. *)
Definition utf8_step (l : bytes) : Z * nat :=
  match l with
  | [] => (REPLACEMENT, 1%nat)
  | a :: l =>
      if a <? 0x80 then (a, 1%nat)
      else if between 0xC2 a 0xDF then
        match l with
        | b :: _ => if is_cont b then ((a - 0xC0) * 64 + (b - 0x80), 2%nat) else (REPLACEMENT, 1%nat)
        | [] => (REPLACEMENT, 1%nat)
        end
      else if between 0xE0 a 0xEF then
        match l with
        | b :: l =>
            if negb (second3 a b) then (REPLACEMENT, 1%nat)
            else
              match l with
              | c :: _ => if is_cont c then ((a - 0xE0) * 4096 + (b - 0x80) * 64 + (c - 0x80), 3%nat)
                          else (REPLACEMENT, 2%nat)
              | [] => (REPLACEMENT, 2%nat)
              end
        | [] => (REPLACEMENT, 1%nat)
        end
      else if between 0xF0 a 0xF4 then
        match l with
        | b :: l =>
            if negb (second4 a b) then (REPLACEMENT, 1%nat)
            else
              match l with
              | c :: l =>
                  if negb (is_cont c) then (REPLACEMENT, 2%nat)
                  else
                    match l with
                    | d :: _ =>
                        if is_cont d
                        then ((a - 0xF0) * 262144 + (b - 0x80) * 4096 + (c - 0x80) * 64 + (d - 0x80), 4%nat)
                        else (REPLACEMENT, 3%nat)
                    | [] => (REPLACEMENT, 3%nat)
                    end
              | [] => (REPLACEMENT, 2%nat)
              end
        | [] => (REPLACEMENT, 1%nat)
        end
      else (REPLACEMENT, 1%nat)
  end.

Fixpoint utf8_decode_n (fuel : nat) (l : bytes) : text :=
  match fuel, l with
  | _, [] => []
  | O, _ => []
  | S fuel, _ => let '(c, n) := utf8_step l in c :: utf8_decode_n fuel (drop n l)
  end.

Definition from_utf8_lossy (l : bytes) : text := utf8_decode_n (length l) l.

(** * ASCII case, white space *)

Definition to_ascii_lowercase (s : text) : text :=
  (fun c => if between 65 c 90 then c + 32 else c) <$> s.

(** [char::is_whitespace]: the Unicode White_Space property. *)
Definition is_whitespace (c : Z) : bool :=
  between 9 c 13 || (c =? 32) || (c =? 133) || (c =? 160) || (c =? 5760) || between 8192 c 8202
  || (c =? 8232) || (c =? 8233) || (c =? 8239) || (c =? 8287) || (c =? 12288).

Fixpoint trim_start_by (p : Z -> bool) (s : text) : text :=
  match s with
  | [] => []
  | c :: s' => if p c then trim_start_by p s' else s
  end.

Definition trim_end_by (p : Z -> bool) (s : text) : text := reverse (trim_start_by p (reverse s)).
Definition trim_by (p : Z -> bool) (s : text) : text := trim_end_by p (trim_start_by p s).
Definition trim (s : text) : text := trim_by is_whitespace s.

Fixpoint starts_with (s prefix : text) {struct prefix} : bool :=
  match prefix, s with
  | [], _ => true
  | p :: prefix, c :: s => (p =? c) && starts_with s prefix
  | _ :: _, [] => false
  end.

Definition ends_with (s suffix : text) : bool := starts_with (reverse s) (reverse suffix).

(** [str::split(char)]. *)
Fixpoint split (sep : Z) (s : text) : list text :=
  match s with
  | [] => [[]]
  | c :: s =>
      if c =? sep then [] :: split sep s
      else match split sep s with
           | p :: ps => (c :: p) :: ps
           | [] => [[c]]
           end
  end.

(** A Rocq string literal as text. *)
Definition str (s : string) : text := (fun a => Z.of_N (Ascii.N_of_ascii a)) <$> String.list_ascii_of_string s.

(** * Round trips *)

Lemma utf8_step_char c l :
  scalar_ok c -> utf8_step (utf8_char c ++ l) = (c, length (utf8_char c)).
Proof.
  intros Hc. unfold utf8_char, scalar_ok in *.
  destruct (c <? 0x80) eqn:E1; [simpl; by rewrite E1|].
  destruct (c <? 0x800) eqn:E2.
  { unfold utf8_step, between, is_cont. cbn [app].
    assert (c / 64 < 32) by (apply Z.div_lt_upper_bound; lia).
    assert (2 <= c / 64) by (apply Z.div_le_lower_bound; lia).
    pose proof (Z.mod_pos_bound c 64 ltac:(lia)). pose proof (Z.div_mod c 64 ltac:(lia)).
    replace (_ <? 128) with false by lia. cbv iota.
    replace ((194 <=? _) && _) with true by lia. cbv iota.
    replace (_ && _) with true by lia. cbv iota. f_equal. lia. }
  destruct (c <? 0x10000) eqn:E3.
  { unfold utf8_step, between, is_cont, second3, between, is_cont. cbn [app].
    assert (c / 4096 < 16) by (apply Z.div_lt_upper_bound; lia).
    assert (0 <= c / 4096) by (apply Z.div_pos; lia).
    assert (c / 64 = c / 4096 * 64 + c / 64 mod 64) as H1.
    { pose proof (Z.div_mod (c / 64) 64 ltac:(lia)) as E. rewrite Z.div_div in E by lia.
      change (64 * 64) with 4096 in E. lia. }
    pose proof (Z.mod_pos_bound (c / 64) 64 ltac:(lia)).
    pose proof (Z.mod_pos_bound c 64 ltac:(lia)). pose proof (Z.div_mod c 64 ltac:(lia)).
    set (q := c / 4096) in *. set (r := c / 64 mod 64) in *. set (t := c mod 64) in *. clearbody q r t.
    replace (_ <? 128) with false by lia. cbv iota.
    replace ((194 <=? _) && _) with false by lia. cbv iota.
    replace ((224 <=? _) && _) with true by lia. cbv iota.
    match goal with |- context [negb ?b] => replace b with true by lia end. simpl negb. cbv iota.
    match goal with |- context [if ?b then _ else _] => replace b with true by lia end. f_equal. lia. }
  unfold utf8_step, between, is_cont, second4, between, is_cont. cbn [app].
  assert (c / 262144 < 5) by (apply Z.div_lt_upper_bound; lia).
  assert (0 <= c / 262144) by (apply Z.div_pos; lia).
  assert (c / 64 = c / 4096 * 64 + c / 64 mod 64) as H1.
  { pose proof (Z.div_mod (c / 64) 64 ltac:(lia)) as E. rewrite Z.div_div in E by lia.
      change (64 * 64) with 4096 in E. lia. }
  assert (c / 4096 = c / 262144 * 64 + c / 4096 mod 64) as H2.
  { pose proof (Z.div_mod (c / 4096) 64 ltac:(lia)) as E. rewrite Z.div_div in E by lia.
      change (4096 * 64) with 262144 in E. lia. }
  pose proof (Z.mod_pos_bound (c / 64) 64 ltac:(lia)). pose proof (Z.mod_pos_bound (c / 4096) 64 ltac:(lia)).
  pose proof (Z.mod_pos_bound c 64 ltac:(lia)). pose proof (Z.div_mod c 64 ltac:(lia)).
  set (p := c / 262144) in *. set (q := c / 4096 mod 64) in *.
  set (r := c / 64 mod 64) in *. set (t := c mod 64) in *. clearbody p q r t.
  replace (_ <? 128) with false by lia. cbv iota.
  replace ((194 <=? _) && _) with false by lia. cbv iota.
  replace ((224 <=? _) && _) with false by lia. cbv iota.
  replace ((240 <=? _) && (_ <=? 244)) with true by lia. cbv iota.
  match goal with |- context [negb ?b] => replace b with true by lia end. simpl negb. cbv iota.
  match goal with |- context [negb ?b] => replace b with true by lia end. simpl negb. cbv iota.
  match goal with |- context [if ?b then _ else _] => replace b with true by lia end. f_equal. lia.
Qed.

Lemma utf8_char_nonempty c : (1 <= length (utf8_char c))%nat.
Proof. unfold utf8_char. repeat case_match; simpl; lia. Qed.

Lemma utf8_decode_n_chars s fuel :
  Forall scalar_ok s -> (length (as_bytes s) <= fuel)%nat -> utf8_decode_n fuel (as_bytes s) = s.
Proof.
  revert fuel. induction s as [|c s IH]; intros fuel Hs Hf; [by destruct fuel|].
  apply Forall_cons in Hs as [Hc Hs]. unfold as_bytes in *. rewrite fmap_cons in *. simpl concat in *.
  rewrite length_app in Hf. pose proof (utf8_char_nonempty c).
  destruct fuel as [|fuel]; [lia|]. simpl.
  destruct (utf8_char c ++ concat (utf8_char <$> s)) as [|b l] eqn:E.
  { apply (f_equal length) in E. rewrite length_app in E. simpl in E. lia. }
  rewrite <- E. rewrite utf8_step_char by done. rewrite drop_app_length. f_equal. apply IH; [done|lia].
Qed.

(** Encoding text and decoding it gives the text back. *)
Lemma from_utf8_as_bytes s : Forall scalar_ok s -> from_utf8_lossy (as_bytes s) = s.
Proof. intros. by apply utf8_decode_n_chars. Qed.
