(* ===== verification/Bootstrap.v ===== *)
(** The bootstrap register map and the device description block: the model of
    [src/src/gige/proto/bootstrap.rs]. *)

From S2P Require Import Prelude Text.

Definition VERSION : Z := 0x0000.
Definition DEVICE_MODE : Z := 0x0004.
Definition DEVICE_MAC_HIGH : Z := 0x0008.
Definition DEVICE_MAC_LOW : Z := 0x000c.
Definition SUPPORTED_IP_CONFIG : Z := 0x0010.
Definition CURRENT_IP_CONFIG : Z := 0x0014.
Definition CURRENT_IP_ADDRESS : Z := 0x0024.
Definition CURRENT_SUBNET_MASK : Z := 0x0034.
Definition CURRENT_GATEWAY : Z := 0x0044.
Definition MANUFACTURER_NAME : Z := 0x0048.
Definition MANUFACTURER_NAME_SIZE : Z := 32.
Definition MODEL_NAME : Z := 0x0068.
Definition MODEL_NAME_SIZE : Z := 32.
Definition DEVICE_VERSION : Z := 0x0088.
Definition DEVICE_VERSION_SIZE : Z := 32.
Definition MANUFACTURER_INFO : Z := 0x00a8.
Definition MANUFACTURER_INFO_SIZE : Z := 48.
Definition SERIAL_NUMBER : Z := 0x00d8.
Definition SERIAL_NUMBER_SIZE : Z := 16.
Definition USER_DEFINED_NAME : Z := 0x00e8.
Definition USER_DEFINED_NAME_SIZE : Z := 16.
Definition DISCOVERY_DATA_SIZE : Z := 0xf8.
Definition XML_URL_0 : Z := 0x0200.
Definition XML_URL_1 : Z := 0x0400.
Definition XML_URL_SIZE : Z := 512.
Definition N_NETWORK_INTERFACES : Z := 0x0600.
Definition N_MESSAGE_CHANNELS : Z := 0x0900.
Definition N_STREAM_CHANNELS : Z := 0x0904.
Definition GVCP_CAPABILITY : Z := 0x0934.
Definition CAP_CONCATENATION : Z := Z.shiftl 1 0.
Definition CAP_WRITE_MEMORY : Z := Z.shiftl 1 1.
Definition CAP_PACKET_RESEND : Z := Z.shiftl 1 2.
Definition CAP_EVENT : Z := Z.shiftl 1 3.
Definition CAP_EVENT_DATA : Z := Z.shiftl 1 4.
Definition CAP_PENDING_ACK : Z := Z.shiftl 1 5.
Definition CAP_ACTION : Z := Z.shiftl 1 6.
Definition CAP_EXTENDED_STATUS_CODES : Z := Z.shiftl 1 22.
Definition CAP_HEARTBEAT_DISABLE : Z := Z.shiftl 1 29.
Definition HEARTBEAT_TIMEOUT : Z := 0x0938.
Definition TIMESTAMP_TICK_FREQUENCY_HIGH : Z := 0x093c.
Definition TIMESTAMP_TICK_FREQUENCY_LOW : Z := 0x0940.
Definition TIMESTAMP_CONTROL : Z := 0x0944.
Definition TIMESTAMP_LATCHED_HIGH : Z := 0x0948.
Definition TIMESTAMP_LATCHED_LOW : Z := 0x094c.
Definition CONTROL_CHANNEL_PRIVILEGE : Z := 0x0a00.
Definition CCP_CONTROL : Z := Z.shiftl 1 1.
Definition CCP_EXCLUSIVE : Z := Z.shiftl 1 0.
Definition MESSAGE_CHANNEL_PORT : Z := 0x0b00.
Definition MESSAGE_CHANNEL_DEST_ADDRESS : Z := 0x0b10.
Definition MESSAGE_CHANNEL_TRANSMISSION_TIMEOUT : Z := 0x0b14.
Definition MESSAGE_CHANNEL_RETRY_COUNT : Z := 0x0b18.
Definition MESSAGE_CHANNEL_SOURCE_PORT : Z := 0x0b1c.
Definition STREAM_CHANNEL_PORT : Z := 0x0d00.
Definition STREAM_CHANNEL_PACKET_SIZE : Z := 0x0d04.
Definition STREAM_CHANNEL_PACKET_DELAY : Z := 0x0d08.
Definition STREAM_CHANNEL_DEST_ADDRESS : Z := 0x0d18.
Definition STREAM_CHANNEL_SOURCE_PORT : Z := 0x0d1c.
Definition STREAM_CHANNEL_STRIDE : Z := 0x40.
Definition SCPS_PACKET_SIZE_MASK : Z := 0x0000ffff.
Definition SCPS_BIG_ENDIAN : Z := Z.shiftl 1 29.
Definition SCPS_DO_NOT_FRAGMENT : Z := Z.shiftl 1 30.
Definition SCPS_FIRE_TEST_PACKET : Z := Z.shiftl 1 31.

(** An IPv4 address is its 32-bit value. *)
Record DeviceInfo := {
  di_spec_version : Z * Z;
  di_device_mode : Z;
  di_mac : bytes;
  di_supported_ip_config : Z;
  di_current_ip_config : Z;
  di_ip : Z;
  di_subnet_mask : Z;
  di_gateway : Z;
  di_manufacturer : text;
  di_model : text;
  di_device_version : text;
  di_manufacturer_info : text;
  di_serial : text;
  di_user_defined_name : text }.

Definition reg (block : bytes) (offset : Z) : option Z :=
  be_decode <$> get_range block offset (offset + 4).

(** The bytes up to the first NUL. *)
Fixpoint until_nul (l : bytes) : bytes :=
  match l with
  | [] => []
  | b :: l => if b =? 0 then [] else b :: until_nul l
  end.

(** [None] is the slice panic. *)
Definition string_reg (block : bytes) (offset size : Z) : option text :=
  raw ← get_range block offset (offset + size);
  Some (from_utf8_lossy (until_nul raw)).

(** [None] outside is a panic, inside it is the source's [None]. *)
Definition DeviceInfo_parse (block : bytes) : option (option DeviceInfo) :=
  if zlen block <? DISCOVERY_DATA_SIZE then Some None
  else
    match reg block VERSION with
    | None => Some None
    | Some version =>
        mac ← get_range block 0x0a 0x10;
        match reg block DEVICE_MODE, reg block SUPPORTED_IP_CONFIG, reg block CURRENT_IP_CONFIG,
              reg block CURRENT_IP_ADDRESS, reg block CURRENT_SUBNET_MASK, reg block CURRENT_GATEWAY with
        | Some mode, Some sup, Some cur, Some ip, Some mask, Some gw =>
            manufacturer ← string_reg block MANUFACTURER_NAME MANUFACTURER_NAME_SIZE;
            model ← string_reg block MODEL_NAME MODEL_NAME_SIZE;
            device_version ← string_reg block DEVICE_VERSION DEVICE_VERSION_SIZE;
            info ← string_reg block MANUFACTURER_INFO MANUFACTURER_INFO_SIZE;
            serial ← string_reg block SERIAL_NUMBER SERIAL_NUMBER_SIZE;
            name ← string_reg block USER_DEFINED_NAME USER_DEFINED_NAME_SIZE;
            Some (Some {| di_spec_version := (wrap 16 (Z.shiftr version 16), wrap 16 version);
                          di_device_mode := mode; di_mac := mac; di_supported_ip_config := sup;
                          di_current_ip_config := cur; di_ip := ip; di_subnet_mask := mask;
                          di_gateway := gw; di_manufacturer := manufacturer; di_model := model;
                          di_device_version := device_version; di_manufacturer_info := info;
                          di_serial := serial; di_user_defined_name := name |})
        | _, _, _, _, _, _ => Some None
        end
    end.

(** * Lemmas *)

Lemma reg_is_Some block offset :
  0 <= offset -> offset + 4 <= zlen block -> exists v, reg block offset = Some v.
Proof. intros. unfold reg. rewrite get_range_is_Some by lia. simpl. eauto. Qed.

Lemma string_reg_is_Some block offset size :
  0 <= offset -> 0 <= size -> offset + size <= zlen block ->
  exists s, string_reg block offset size = Some s.
Proof. intros. unfold string_reg. rewrite get_range_is_Some by lia. simpl. eauto. Qed.

(** Every block of at least the description's size parses, and a shorter one
    is refused: the slices never run past the end. *)
Lemma DeviceInfo_parse_total block :
  (DISCOVERY_DATA_SIZE <= zlen block -> exists info, DeviceInfo_parse block = Some (Some info)) /\
  (zlen block < DISCOVERY_DATA_SIZE -> DeviceInfo_parse block = Some None).
Proof.
  unfold DeviceInfo_parse. split; intros H; [|by replace (_ <? _) with true by lia].
  replace (_ <? _) with false by lia. unfold DISCOVERY_DATA_SIZE in H.
  destruct (reg_is_Some block VERSION) as [? ->]; [unfold VERSION; lia..|].
  rewrite get_range_is_Some by lia. cbn [mbind option_bind].
  destruct (reg_is_Some block DEVICE_MODE) as [? ->]; [unfold DEVICE_MODE; lia..|].
  destruct (reg_is_Some block SUPPORTED_IP_CONFIG) as [? ->]; [unfold SUPPORTED_IP_CONFIG; lia..|].
  destruct (reg_is_Some block CURRENT_IP_CONFIG) as [? ->]; [unfold CURRENT_IP_CONFIG; lia..|].
  destruct (reg_is_Some block CURRENT_IP_ADDRESS) as [? ->]; [unfold CURRENT_IP_ADDRESS; lia..|].
  destruct (reg_is_Some block CURRENT_SUBNET_MASK) as [? ->]; [unfold CURRENT_SUBNET_MASK; lia..|].
  destruct (reg_is_Some block CURRENT_GATEWAY) as [? ->]; [unfold CURRENT_GATEWAY; lia..|].
  destruct (string_reg_is_Some block MANUFACTURER_NAME MANUFACTURER_NAME_SIZE) as [? ->];
    [unfold MANUFACTURER_NAME, MANUFACTURER_NAME_SIZE; lia..|].
  destruct (string_reg_is_Some block MODEL_NAME MODEL_NAME_SIZE) as [? ->];
    [unfold MODEL_NAME, MODEL_NAME_SIZE; lia..|].
  destruct (string_reg_is_Some block DEVICE_VERSION DEVICE_VERSION_SIZE) as [? ->];
    [unfold DEVICE_VERSION, DEVICE_VERSION_SIZE; lia..|].
  destruct (string_reg_is_Some block MANUFACTURER_INFO MANUFACTURER_INFO_SIZE) as [? ->];
    [unfold MANUFACTURER_INFO, MANUFACTURER_INFO_SIZE; lia..|].
  destruct (string_reg_is_Some block SERIAL_NUMBER SERIAL_NUMBER_SIZE) as [? ->];
    [unfold SERIAL_NUMBER, SERIAL_NUMBER_SIZE; lia..|].
  destruct (string_reg_is_Some block USER_DEFINED_NAME USER_DEFINED_NAME_SIZE) as [? ->];
    [unfold USER_DEFINED_NAME, USER_DEFINED_NAME_SIZE; lia..|].
  cbn [mbind option_bind]. eauto.
Qed.

Lemma until_nul_app l r : Forall (fun b => b <> 0) l -> until_nul (l ++ 0 :: r) = l.
Proof.
  induction 1 as [|b l Hb Hl IH]; simpl; [done|]. replace (b =? 0) with false by lia. by rewrite IH.
Qed.

Lemma until_nul_all l : Forall (fun b => b <> 0) l -> until_nul l = l.
Proof.
  induction 1 as [|b l Hb Hl IH]; simpl; [done|]. replace (b =? 0) with false by lia. by rewrite IH.
Qed.

Lemma until_nul_padded l n : Forall (fun b => b <> 0) l -> until_nul (l ++ replicate n 0) = l.
Proof.
  intros H. destruct n; simpl; [rewrite app_nil_r; by apply until_nul_all|by apply until_nul_app].
Qed.
