(* ===== verification/Zip.v ===== *)
(** The PKZIP reader for zipped descriptions: the model of
    [src/src/genicam/zip.rs], and the archive writer of the emulator
    ([build_stored_zip] of [src/src/emulator/mod.rs]).

    Inflating is [miniz_oxide]'s: it is the parameter [Inflate] of the reader,
    about which nothing is assumed. *)

From S2P Require Import Prelude Text.

Definition EOCD_MAGIC : Z := 0x06054b50.
Definition CENTRAL_MAGIC : Z := 0x02014b50.
Definition LOCAL_MAGIC : Z := 0x04034b50.
Definition METHOD_STORED : Z := 0.
Definition METHOD_DEFLATE : Z := 8.
Definition MAX_UNCOMPRESSED : Z := 64 * 1024 * 1024.

Inductive ZipError :=
| ZipNoEocd | ZipTruncated | ZipEmpty | ZipBadCentral | ZipTooLarge | ZipBadLocal
| ZipTruncatedData | ZipInflate | ZipMethod (method : Z)
| ZipLength (actual declared : Z) | ZipCrc.

Definition u16_at (buf : bytes) (pos : Z) : result ZipError Z :=
  ok_or (le_decode <$> get_range buf pos (pos + 2)) ZipTruncated.
Definition u32_at (buf : bytes) (pos : Z) : result ZipError Z :=
  ok_or (le_decode <$> get_range buf pos (pos + 4)) ZipTruncated.

(** [(0..=limit).map(|back| start - back).find(..)]. *)
Fixpoint find_back (zip : bytes) (start : Z) (back : Z) (n : nat) : option Z :=
  match n with
  | O => None
  | S n =>
      if match u32_at zip (start - back) with Ok m => m =? EOCD_MAGIC | Err _ => false end
      then Some (start - back) else find_back zip start (back + 1) n
  end.

Definition find_eocd (zip : bytes) : option Z :=
  if zlen zip <? 22 then None
  else let start := zlen zip - 22 in find_back zip start 0 (S (Z.to_nat (Z.min start 0xffff))).

(** The PKZIP (IEEE 802.3) CRC-32, bit by bit. *)
Definition crc_step (crc : Z) : Z :=
  let mask := wrap 32 (- Z.land crc 1) in
  Z.lxor (Z.shiftr crc 1) (Z.land 0xedb88320 mask).

Definition crc_byte (crc byte : Z) : Z := Nat.iter 8 crc_step (Z.lxor crc byte).

Definition crc32 (data : bytes) : Z :=
  Z.lxor (foldl crc_byte U32_MAX data) U32_MAX.

(** [decompress_to_vec_with_limit]: [None] is an error. *)
Class Inflate := decompress_to_vec_with_limit : bytes -> Z -> option bytes.

Section reader.
Context {IN : Inflate}.

Definition extract_first_file (zip : bytes) : result ZipError bytes :=
eocd ← ok_or (find_eocd zip) ZipNoEocd;
n_entries ← u16_at zip (eocd + 10);
central_offset ← u32_at zip (eocd + 16);
if n_entries =? 0 then Err ZipEmpty
else
  let entry := central_offset in
  magic ← u32_at zip entry;
  if negb (magic =? CENTRAL_MAGIC) then Err ZipBadCentral
  else
    method ← u16_at zip (entry + 10);
    crc ← u32_at zip (entry + 16);
    compressed_size ← u32_at zip (entry + 20);
    uncompressed_size ← u32_at zip (entry + 24);
    local_offset ← u32_at zip (entry + 42);
    if MAX_UNCOMPRESSED <? uncompressed_size then Err ZipTooLarge
    else
      lmagic ← u32_at zip local_offset;
      if negb (lmagic =? LOCAL_MAGIC) then Err ZipBadLocal
      else
        name_len ← u16_at zip (local_offset + 26);
        extra_len ← u16_at zip (local_offset + 28);
        let data_start := local_offset + 30 + name_len + extra_len in
        data ← ok_or (get_range zip data_start (data_start + compressed_size)) ZipTruncatedData;
        out ← (if method =? METHOD_STORED then Ok data
               else if method =? METHOD_DEFLATE
                    then ok_or (decompress_to_vec_with_limit data MAX_UNCOMPRESSED) ZipInflate
                    else Err (ZipMethod method));
        if negb (zlen out =? uncompressed_size) then Err (ZipLength (zlen out) uncompressed_size)
        else if negb (crc32 out =? crc) then Err ZipCrc
        else Ok out.
End reader.

(** * The emulator's archive *)

Definition ZIP_NAME : bytes := str "theater.xml".

Definition stored_local (content : bytes) : bytes :=
  le_encode 4 LOCAL_MAGIC ++ le_encode 2 20 ++ le_encode 2 0 ++ le_encode 2 0 ++ replicate 4 0 ++
  le_encode 4 (crc32 content) ++ le_encode 4 (wrap 32 (zlen content)) ++
  le_encode 4 (wrap 32 (zlen content)) ++ le_encode 2 (zlen ZIP_NAME) ++ le_encode 2 0 ++
  ZIP_NAME ++ content.

Definition stored_central (content : bytes) : bytes :=
  le_encode 4 CENTRAL_MAGIC ++ le_encode 2 20 ++ le_encode 2 20 ++ le_encode 2 0 ++ le_encode 2 0 ++
  replicate 4 0 ++ le_encode 4 (crc32 content) ++ le_encode 4 (wrap 32 (zlen content)) ++
  le_encode 4 (wrap 32 (zlen content)) ++ le_encode 2 (zlen ZIP_NAME) ++ replicate 12 0 ++
  replicate 4 0 ++ le_encode 4 0 ++ ZIP_NAME.

Definition stored_eocd (content : bytes) : bytes :=
  le_encode 4 EOCD_MAGIC ++ replicate 4 0 ++ le_encode 2 1 ++ le_encode 2 1 ++
  le_encode 4 (wrap 32 (zlen (stored_central content))) ++
  le_encode 4 (wrap 32 (zlen (stored_local content))) ++ le_encode 2 0.

Definition build_stored_zip (content : bytes) : bytes :=
  stored_local content ++ stored_central content ++ stored_eocd content.

(** * Reading back what was written *)

Lemma lxor_range a b n : 0 <= n -> 0 <= a < 2 ^ n -> 0 <= b < 2 ^ n -> 0 <= Z.lxor a b < 2 ^ n.
Proof.
  intros Hn Ha Hb. assert (0 <= Z.lxor a b) by (apply Z.lxor_nonneg; lia). split; [done|].
  apply bits_bound; [done..|]. intros m Hm. rewrite Z.lxor_spec.
  by rewrite (testbit_small a n), (testbit_small b n) by lia.
Qed.

Lemma crc_step_range crc : u32_ok crc -> u32_ok (crc_step crc).
Proof.
  intros H. unfold crc_step, u32_ok, U32_MAX in *.
  enough (0 <= Z.lxor (Z.shiftr crc 1) (Z.land 3988292384 (wrap 32 (- Z.land crc 1))) < 2 ^ 32) by lia.
  apply lxor_range; [lia| |].
  - rewrite Z.shiftr_div_pow2 by lia. split; [apply Z.div_pos; lia|]. apply Z.div_lt_upper_bound; lia.
  - assert (0 <= Z.land 3988292384 (wrap 32 (- Z.land crc 1))) by (apply Z.land_nonneg; lia).
    split; [done|]. apply bits_bound; [lia|done|]. intros m Hm. rewrite Z.land_spec.
    by rewrite (testbit_small 3988292384 32) by lia.
Qed.

Lemma crc_iter_range n crc : u32_ok crc -> u32_ok (Nat.iter n crc_step crc).
Proof. intros H. induction n as [|n IH]; simpl; [done|]. by apply crc_step_range. Qed.

Lemma crc32_range data : bytes_ok data -> u32_ok (crc32 data).
Proof.
  intros Hd. unfold crc32.
  assert (forall l c, u32_ok c -> bytes_ok l -> u32_ok (foldl crc_byte c l)) as Hfold.
  { induction l as [|b l IH]; intros c Hc Hl; simpl; [done|].
    apply bytes_ok_cons_inv in Hl as [Hb Hl]. apply IH; [|done]. unfold crc_byte.
    assert (u32_ok (Z.lxor c b)) as Hx.
    { pose proof (lxor_range c b 32 ltac:(lia)). unfold u8_ok, u32_ok, U32_MAX in *. lia. }
    by apply crc_iter_range. }
  pose proof (Hfold data U32_MAX ltac:(width_lia) Hd) as Hr.
  pose proof (lxor_range (foldl crc_byte U32_MAX data) U32_MAX 32 ltac:(lia)). width_lia.
Qed.

(** Reading past a prefix, and at the front. *)
Lemma u16_at_skip p l pos : zlen p <= pos -> u16_at (p ++ l) pos = u16_at l (pos - zlen p).
Proof. intros H. unfold u16_at. rewrite get_range_skip by lia. repeat f_equal. lia. Qed.
Lemma u32_at_skip p l pos : zlen p <= pos -> u32_at (p ++ l) pos = u32_at l (pos - zlen p).
Proof. intros H. unfold u32_at. rewrite get_range_skip by lia. repeat f_equal. lia. Qed.

Lemma u16_at_head v l pos : pos = 0 -> u16_ok v -> u16_at (le_encode 2 v ++ l) pos = Ok v.
Proof.
  intros -> Hv. unfold u16_at. rewrite (get_range_app [] (le_encode 2 v) l) by (by rewrite ?zlen_le_encode).
  simpl. rewrite le_decode_encode; [done|]. width_lia.
Qed.
Lemma u32_at_head v l pos : pos = 0 -> u32_ok v -> u32_at (le_encode 4 v ++ l) pos = Ok v.
Proof.
  intros -> Hv. unfold u32_at. rewrite (get_range_app [] (le_encode 4 v) l) by (by rewrite ?zlen_le_encode).
  simpl. rewrite le_decode_encode; [done|]. width_lia.
Qed.
Lemma u32_at_zeros l pos n : pos = 0 -> (4 <= n)%nat -> u32_at (replicate n 0 ++ l) pos = Ok 0.
Proof.
  intros -> Hn. unfold u32_at. assert (exists m, n = (4 + m)%nat) as [m ->] by (exists (n - 4)%nat; lia).
  rewrite replicate_add, <- app_assoc.
  rewrite (get_range_app [] (replicate 4 0) (replicate m 0 ++ l)) by (by rewrite ?zlen_replicate). reflexivity.
Qed.

(** Step over the fields before a position. *)
Ltac zlens := autorewrite with zlen; rewrite ?zlen_replicate; unfold ZIP_NAME, zlen; simpl length; lia.
Ltac skip16 := repeat rewrite u16_at_skip by zlens.
Ltac skip32 := repeat rewrite u32_at_skip by zlens.

Lemma zlen_stored content :
  zlen (stored_local content) = 41 + zlen content /\ zlen (stored_central content) = 61 /\
  zlen (stored_eocd content) = 22.
Proof.
  unfold stored_local, stored_central, stored_eocd.
  split_and!; autorewrite with zlen; rewrite ?zlen_replicate; change (zlen ZIP_NAME) with 11; lia.
Qed.

Section stored.
Variable content : bytes.
Hypothesis Hok : bytes_ok content.
Hypothesis Hlen : zlen content <= MAX_UNCOMPRESSED.
Let zip := build_stored_zip content.
Let central := 41 + zlen content.

Lemma stored_len_ok : u32_ok (zlen content) /\ wrap 32 (zlen content) = zlen content /\
  wrap 32 central = central /\ u32_ok central.
Proof.
  unfold central, MAX_UNCOMPRESSED in *. pose proof (zlen_nonneg content).
  rewrite !wrap_small by lia. width_lia.
Qed.

(** Positions in the three records. *)
Lemma stored_at_central pos : 0 <= pos ->
  u16_at zip (central + pos) = u16_at (stored_central content ++ stored_eocd content) pos /\
  u32_at zip (central + pos) = u32_at (stored_central content ++ stored_eocd content) pos.
Proof.
  intros. unfold zip, build_stored_zip. destruct (zlen_stored content) as (E & _ & _).
  rewrite u16_at_skip, u32_at_skip, E by (unfold central; lia). unfold central.
  by replace (41 + zlen content + pos - (41 + zlen content)) with pos by lia.
Qed.

Lemma stored_at_eocd pos : 0 <= pos ->
  u16_at zip (central + 61 + pos) = u16_at (stored_eocd content) pos /\
  u32_at zip (central + 61 + pos) = u32_at (stored_eocd content) pos.
Proof.
  intros Hp. rewrite <- Z.add_assoc. destruct (stored_at_central (61 + pos)) as [-> ->]; [lia|].
  destruct (zlen_stored content) as (_ & E & _). rewrite u16_at_skip, u32_at_skip, E by lia.
  by replace (61 + pos - 61) with pos by lia.
Qed.

Lemma stored_find_eocd : find_eocd zip = Some (central + 61).
Proof.
  unfold find_eocd. destruct (zlen_stored content) as (E1 & E2 & E3).
  assert (zlen zip = central + 61 + 22) as ->
    by (unfold zip, build_stored_zip, central; rewrite !zlen_app; lia).
  pose proof (zlen_nonneg content). replace (_ <? 22) with false by (unfold central; lia).
  replace (central + 61 + 22 - 22) with (central + 61) by lia. simpl find_back.
  rewrite Z.sub_0_r. destruct (stored_at_eocd 0) as [_ H0]; [lia|]. rewrite Z.add_0_r in H0.
  rewrite H0. unfold stored_eocd. rewrite u32_at_head by (done || const_range). by rewrite Z.eqb_refl.
Qed.

Lemma stored_eocd_fields :
  u16_at zip (central + 61 + 10) = Ok 1 /\ u32_at zip (central + 61 + 16) = Ok central.
Proof.
  destruct (stored_at_eocd 10) as [-> _]; [lia|]. destruct (stored_at_eocd 16) as [_ ->]; [lia|].
  destruct stored_len_ok as (_ & _ & H1 & H2). destruct (zlen_stored content) as (E1 & E2 & _).
  unfold stored_eocd. rewrite E1, E2. fold central. rewrite H1. skip16. skip32. split.
  - by apply u16_at_head; [zlens|const_range].
  - by apply u32_at_head; [zlens|].
Qed.

Lemma stored_central_fields :
  u32_at zip central = Ok CENTRAL_MAGIC /\ u16_at zip (central + 10) = Ok METHOD_STORED /\
  u32_at zip (central + 16) = Ok (crc32 content) /\ u32_at zip (central + 20) = Ok (zlen content) /\
  u32_at zip (central + 24) = Ok (zlen content) /\ u32_at zip (central + 42) = Ok 0.
Proof.
  destruct (stored_at_central 0) as [_ H0]; [lia|]. rewrite Z.add_0_r in H0. rewrite H0.
  destruct (stored_at_central 10) as [-> _]; [lia|]. destruct (stored_at_central 16) as [_ ->]; [lia|].
  destruct (stored_at_central 20) as [_ ->]; [lia|]. destruct (stored_at_central 24) as [_ ->]; [lia|].
  destruct (stored_at_central 42) as [_ ->]; [lia|].
  destruct stored_len_ok as (H1 & H2 & _). pose proof (crc32_range content Hok).
  unfold stored_central. rewrite H2, <- !app_assoc. split_and!.
  - apply u32_at_head; [done|const_range].
  - skip16. apply u16_at_head; [zlens|const_range].
  - skip32. apply u32_at_head; [zlens|done].
  - skip32. apply u32_at_head; [zlens|done].
  - skip32. apply u32_at_head; [zlens|done].
  - skip32. apply u32_at_zeros; [zlens|lia].
Qed.

Lemma stored_local_fields :
  u32_at zip 0 = Ok LOCAL_MAGIC /\ u16_at zip (0 + 26) = Ok 11 /\ u16_at zip (0 + 28) = Ok 0 /\
  get_range zip 41 (41 + zlen content) = Some content.
Proof.
  unfold zip, build_stored_zip, stored_local. rewrite <- !app_assoc. split_and!.
  - apply u32_at_head; [done|const_range].
  - skip16. apply u16_at_head; [zlens|const_range].
  - skip16. apply u16_at_head; [zlens|const_range].
  - repeat rewrite get_range_skip by zlens. apply (get_range_app []); autorewrite with zlen;
      rewrite ?zlen_replicate; change (zlen ZIP_NAME) with 11; lia.
Qed.
End stored.

(** The archive is read back. *)
Lemma stored_zip_read (IN : Inflate) (content : bytes) :
  bytes_ok content -> zlen content <= MAX_UNCOMPRESSED ->
  extract_first_file (build_stored_zip content) = Ok content.
Proof.
  intros Hok Hlen. unfold extract_first_file.
  rewrite stored_find_eocd by done. simpl.
  destruct (stored_eocd_fields content Hlen) as [-> ->].
  destruct (stored_central_fields content Hok Hlen) as (H1 & H2 & H3 & H4 & H5 & H6).
  destruct (stored_local_fields content) as (L1 & L2 & L3 & L4).
  cbn [mbind result_bind]. change (1 =? 0) with false. cbv iota. rewrite H1. cbn [mbind result_bind].
  rewrite Z.eqb_refl. cbn [negb]. rewrite H2, H3, H4, H5, H6. cbn [mbind result_bind].
  replace (MAX_UNCOMPRESSED <? zlen content) with false by lia.
  rewrite L1. cbn [mbind result_bind]. rewrite Z.eqb_refl. cbn [negb]. rewrite L2, L3. cbn [mbind result_bind].
  change (0 + 30 + 11 + 0) with 41. rewrite L4. cbn [mbind result_bind ok_or].
  change (METHOD_STORED =? METHOD_STORED) with true. cbv iota. cbn [mbind result_bind].
  by rewrite !Z.eqb_refl.
Qed.



(** The check values the CRC is known by. *)
Example crc32_check : crc32 (str "123456789") = 0xCBF43926.
Proof. reflexivity. Qed.
