(* ===== verification/Url.v ===== *)
(** The description URL of the bootstrap registers: the model of
    [src/src/genicam/url.rs]. *)

From S2P Require Import Prelude Text.

(** [u64::from_str_radix] (and [usize]'s, the same width). *)
Inductive ParseIntError := PieEmpty | PieInvalidDigit | PieOverflow.

(** [char::to_digit(16)]. *)
Definition to_digit16 (c : Z) : option Z :=
  if between 48 c 57 then Some (c - 48)
  else if between 97 c 102 then Some (c - 87)
  else if between 65 c 70 then Some (c - 55)
  else None.

Fixpoint digits16 (acc : Z) (s : text) : result ParseIntError Z :=
  match s with
  | [] => Ok acc
  | c :: s =>
      match to_digit16 c with
      | None => Err PieInvalidDigit
      | Some d => let acc := acc * 16 + d in
                  if U64_MAX <? acc then Err PieOverflow else digits16 acc s
      end
  end.

(** A lone sign is an invalid digit; a leading [+] is dropped; unsigned types
    take no [-]. *)
Definition from_str_radix16 (s : text) : result ParseIntError Z :=
  match s with
  | [] => Err PieEmpty
  | c :: s' =>
      if ((c =? 43) || (c =? 45)) && bool_decide (s' = []) then Err PieInvalidDigit
      else if c =? 43 then digits16 0 s' else digits16 0 s
  end.

Inductive XmlUrl :=
| Local_ (filename : text) (address size : Z)
| File (path : text)
| Http (url : text).

Inductive UrlError :=
| MissingAddress | MissingSize | BadAddress (e : ParseIntError) | BadSize (e : ParseIntError)
| Unrecognized (url : text).

Definition strip_scheme (url lower scheme : text) : option text :=
  if starts_with lower scheme then Some (drop (length scheme) url) else None.

(** [trim_start_matches("//")]: whole copies of the pattern. *)
Fixpoint trim_slashes (fuel : nat) (s : text) : text :=
  match fuel, s with
  | S fuel, a :: b :: s' => if (a =? 47) && (b =? 47) then trim_slashes fuel s' else s
  | _, _ => s
  end.

Definition XmlUrl_parse (url : text) : result UrlError XmlUrl :=
  let url := trim_by (fun c => c =? 0) (trim url) in
  let lower := to_ascii_lowercase url in
  match strip_scheme url lower (str "local:") with
  | Some rest =>
      match split 59 rest with
      | [] | [_] => Err MissingAddress
      | [_; _] => Err MissingSize
      | filename :: address :: size :: _ =>
          address ← map_err BadAddress (from_str_radix16 (trim address));
          size ← map_err BadSize (from_str_radix16 (trim size));
          Ok (Local_ (trim filename) address size)
      end
  | None =>
      match strip_scheme url lower (str "file:") with
      | Some rest => Ok (File (trim_slashes (length rest) rest))
      | None =>
          if starts_with lower (str "http://") || starts_with lower (str "https://")
          then Ok (Http url) else Err (Unrecognized url)
      end
  end.

Definition XmlUrl_is_zip (u : XmlUrl) : bool :=
  let name := match u with Local_ filename _ _ => filename | File path => path | Http url => url end in
  ends_with (to_ascii_lowercase name) (str ".zip").

Example parses_local_zip :
  XmlUrl_parse (str "local:OptoEngineering_Itala_GEV_v3.2.1.zip;FE800000;D967") =
  Ok (Local_ (str "OptoEngineering_Itala_GEV_v3.2.1.zip") 0xFE800000 0xD967).
Proof. reflexivity. Qed.

Example parses_uppercase_local_xml :
  XmlUrl_parse (str "Local:camera.xml;10000;1A2B" ++ [0; 0; 0]) = Ok (Local_ (str "camera.xml") 0x10000 0x1A2B).
Proof. reflexivity. Qed.

Example parses_file : XmlUrl_parse (str "File:///tmp/cam.xml") = Ok (File (str "/tmp/cam.xml")).
Proof. reflexivity. Qed.

(** * The writer: [format!(\x22Local:{name};{address:X};{size:X}\x22)] *)

Definition hex_digit (d : Z) : Z := if d <? 10 then d + 48 else d + 55.

(** [{:X}]: no leading zeros, [0] for zero. *)
Fixpoint hex_digits (fuel : nat) (n : Z) (acc : text) : text :=
  match fuel with
  | O => acc
  | S fuel => let acc := hex_digit (n mod 16) :: acc in
              if n / 16 =? 0 then acc else hex_digits fuel (n / 16) acc
  end.

Definition upper_hex (n : Z) : text := hex_digits 16 n [].

Definition local_url (name : text) (address size : Z) : text :=
  str "Local:" ++ name ++ str ";" ++ upper_hex address ++ str ";" ++ upper_hex size.

(** ** Hexadecimal round trip *)

Lemma to_digit_hex d : 0 <= d < 16 -> to_digit16 (hex_digit d) = Some d.
Proof.
  intros Hd. unfold hex_digit, to_digit16, between. destruct (d <? 10) eqn:E.
  - replace (_ && _) with true by lia. f_equal. lia.
  - replace (_ && _) with false by lia. replace ((97 <=? _) && _) with false by lia.
    replace (_ && _) with true by lia. f_equal. lia.
Qed.

Definition is_hex_char (c : Z) : bool := between 48 c 57 || between 65 c 70.

Lemma hex_digit_char d : 0 <= d < 16 -> is_hex_char (hex_digit d) = true.
Proof. intros. unfold is_hex_char, hex_digit, between. destruct (d <? 10) eqn:E; lia. Qed.

Lemma digits16_app s t acc v : digits16 acc s = Ok v -> digits16 acc (s ++ t) = digits16 v t.
Proof.
  revert acc. induction s as [|c s IH]; intros acc; simpl; [by intros [= ->]|].
  destruct (to_digit16 c); [|discriminate]. destruct (U64_MAX <? _); [discriminate|]. apply IH.
Qed.

(** Writing [n] in front of digits already written. *)
Lemma hex_digits_spec fuel n acc :
  0 <= n < 16 ^ Z.of_nat fuel -> n <= U64_MAX -> (0 < fuel)%nat ->
  exists s, hex_digits fuel n acc = s ++ acc /\ digits16 0 s = Ok n /\ s <> [] /\
    Forall (fun c => is_hex_char c = true) s.
Proof.
  revert n acc. induction fuel as [|fuel IH]; intros n acc Hn Hmax Hf; [lia|]. simpl.
  pose proof (Z.mod_pos_bound n 16 ltac:(lia)) as Hm. pose proof (Z.div_mod n 16 ltac:(lia)) as Hd.
  destruct (n / 16 =? 0) eqn:E.
  - exists [hex_digit (n mod 16)]. split_and!; [done| |done|].
    + simpl. rewrite to_digit_hex by lia. replace (U64_MAX <? _) with false by (width_lia). f_equal. lia.
    + apply Forall_singleton. by apply hex_digit_char.
  - rewrite Nat2Z.inj_succ, Z.pow_succ_r in Hn by lia.
    assert (0 <= n / 16 < 16 ^ Z.of_nat fuel) as Hq.
    { split; [apply Z.div_pos; lia|]. apply Z.div_lt_upper_bound; lia. }
    assert (0 < fuel)%nat by (destruct fuel; [simpl in Hq; lia|lia]).
    destruct (IH (n / 16) (hex_digit (n mod 16) :: acc) Hq) as (s & -> & Hs & Hne & Hall); [lia|done|].
    exists (s ++ [hex_digit (n mod 16)]). split_and!.
    + by rewrite <- app_assoc.
    + rewrite (digits16_app _ _ _ _ Hs). simpl. rewrite to_digit_hex by lia.
      replace (U64_MAX <? _) with false by (width_lia). f_equal. lia.
    + by destruct s.
    + apply Forall_app. split; [done|]. apply Forall_singleton. by apply hex_digit_char.
Qed.

Lemma upper_hex_spec n : u64_ok n ->
  from_str_radix16 (upper_hex n) = Ok n /\ Forall (fun c => is_hex_char c = true) (upper_hex n) /\
  upper_hex n <> [].
Proof.
  intros Hn. unfold upper_hex. destruct (hex_digits_spec 16 n []) as (s & -> & Hs & Hne & Hall);
    [width_lia|width_lia|lia|]. rewrite app_nil_r. split_and!; [|done|done].
  destruct s as [|c s]; [done|]. unfold from_str_radix16.
  pose proof (Forall_inv Hall) as Hc. simpl in Hc. unfold is_hex_char, between in Hc.
  replace (c =? 43) with false by lia. replace (c =? 45) with false by lia. done.
Qed.

(** ** Trimming and splitting *)

Lemma trim_start_id p c s : p c = false -> trim_start_by p (c :: s) = c :: s.
Proof. intros H. simpl. by rewrite H. Qed.

Lemma trim_end_snoc p s c : p c = false -> trim_end_by p (s ++ [c]) = s ++ [c].
Proof.
  intros H. unfold trim_end_by. rewrite reverse_snoc. rewrite trim_start_id by done.
  by rewrite reverse_cons, reverse_involutive.
Qed.

Lemma trim_start_replicate p c n s : p c = true -> trim_start_by p (replicate n c ++ s) = trim_start_by p s.
Proof. intros H. induction n; simpl; [done|]. by rewrite H. Qed.

Lemma reverse_replicate' {A} n (x : A) : reverse (replicate n x) = replicate n x.
Proof.
  induction n as [|n IH]; [done|]. simpl. rewrite reverse_cons, IH. symmetry.
  apply (replicate_cons_app n x).
Qed.

(** Text that neither starts nor ends with a trimmed character. *)
Definition bounded_by (p : Z -> bool) (s : text) : Prop :=
  (forall c, head s = Some c -> p c = false) /\ (forall c, last s = Some c -> p c = false).

Lemma trim_by_id p s : bounded_by p s -> trim_by p s = s.
Proof.
  intros [Hh Hl]. unfold trim_by. destruct s as [|c s]; [done|].
  rewrite trim_start_id by (by apply Hh).
  destruct (exists_last (l := c :: s)) as (l & x & E); [done|]. rewrite E in *.
  apply trim_end_snoc. apply Hl. apply last_snoc.
Qed.

Lemma trim_by_padded p s c n : bounded_by p s -> s <> [] -> p c = true ->
  trim_by p (s ++ replicate n c) = s.
Proof.
  intros [Hh Hl] Hne Hc. unfold trim_by. destruct s as [|x s]; [done|].
  simpl app. rewrite trim_start_id by (by apply Hh). unfold trim_end_by.
  change (x :: s ++ replicate n c) with ((x :: s) ++ replicate n c).
  rewrite reverse_app, reverse_replicate', trim_start_replicate by done.
  rewrite <- (trim_by_id p (x :: s)) at 2 by done. unfold trim_by.
  by rewrite trim_start_id by (by apply Hh).
Qed.

Lemma split_none sep s : sep ∉ s -> split sep s = [s].
Proof.
  induction s as [|c s IH]; intros H; simpl; [done|]. apply not_elem_of_cons in H as [H1 H2].
  replace (c =? sep) with false by lia. by rewrite IH.
Qed.

Lemma split_app sep s t : sep ∉ s -> split sep (s ++ sep :: t) = s :: split sep t.
Proof.
  induction s as [|c s IH]; intros H; simpl; [by rewrite Z.eqb_refl|].
  apply not_elem_of_cons in H as [H1 H2]. replace (c =? sep) with false by lia. by rewrite IH.
Qed.

Lemma hex_chars_bounded p s :
  Forall (fun c => is_hex_char c = true) s -> (forall c, is_hex_char c = true -> p c = false) -> bounded_by p s.
Proof.
  intros Hall Hp. split; intros c Hc; apply Hp; apply (proj1 (Forall_forall _ _) Hall).
  - by apply head_Some_elem_of.
  - by apply last_Some_elem_of.
Qed.

Lemma hex_chars_no_semi s : Forall (fun c => is_hex_char c = true) s -> 59 ∉ s.
Proof. intros Hall Hin. by pose proof (proj1 (Forall_forall _ _) Hall _ Hin). Qed.

Lemma hex_not_whitespace c : is_hex_char c = true -> is_whitespace c = false.
Proof. unfold is_hex_char, is_whitespace, between. lia. Qed.

Lemma hex_trim s : Forall (fun c => is_hex_char c = true) s -> trim s = s.
Proof. intros. apply trim_by_id, hex_chars_bounded; [done|apply hex_not_whitespace]. Qed.

Lemma last_app_nonempty {A} (l k : list A) : k <> [] -> last (l ++ k) = last k.
Proof.
  intros Hk. destruct (exists_last Hk) as (k' & x & ->). by rewrite app_assoc, !last_snoc.
Qed.

Lemma last_replicate {A} (x y : A) n : last (replicate n x) = Some y -> y = x.
Proof. intros H%last_Some_elem_of%elem_of_replicate. by destruct H. Qed.

Lemma strip_local rest :
  strip_scheme (str "Local:" ++ rest) (to_ascii_lowercase (str "Local:" ++ rest)) (str "local:") = Some rest.
Proof.
  change (str "Local:") with [76; 111; 99; 97; 108; 58]. change (str "local:") with [108; 111; 99; 97; 108; 58].
  unfold strip_scheme, to_ascii_lowercase. simpl app. rewrite !fmap_cons. reflexivity.
Qed.

(** The URL register is read back. *)
Lemma local_url_parses (name : text) (address size : Z) (pad : nat) :
  59 ∉ name -> bounded_by is_whitespace name -> u64_ok address -> u64_ok size ->
  XmlUrl_parse (local_url name address size ++ replicate pad 0) = Ok (Local_ name address size).
Proof.
  intros Hn Hb Ha Hs. destruct (upper_hex_spec address Ha) as (Pa & Xa & _).
  destruct (upper_hex_spec size Hs) as (Ps & Xs & Ns).
  set (u := local_url name address size).
  assert (last u = last (upper_hex size)) as Hlast.
  { unfold u, local_url. by rewrite !app_assoc, last_app_nonempty. }
  assert (forall c, last u = Some c -> is_hex_char c = true) as Hhex.
  { intros c. rewrite Hlast. intros Hc. apply (proj1 (Forall_forall _ _) Xs). by apply last_Some_elem_of. }
  unfold XmlUrl_parse. replace (trim (u ++ replicate pad 0)) with (u ++ replicate pad 0).
  2: { symmetry. apply trim_by_id. split; [by intros c [= <-]|]. intros c Hc. destruct pad as [|pad].
       - rewrite app_nil_r in Hc. by apply hex_not_whitespace, Hhex.
       - rewrite last_app_nonempty in Hc by done. by apply last_replicate in Hc as ->. }
  rewrite trim_by_padded; [| |done|done].
  2: { split; [by intros c [= <-]|]. intros c Hc%Hhex. unfold is_hex_char, between in Hc. lia. }
  assert (strip_scheme u (to_ascii_lowercase u) (str "local:") =
          Some (name ++ 59 :: upper_hex address ++ 59 :: upper_hex size)) as ->.
  { apply strip_local. }
  rewrite split_app, split_app, split_none by (done || by apply hex_chars_no_semi).
  rewrite (hex_trim (upper_hex address)), (hex_trim (upper_hex size)) by done. unfold trim. rewrite (trim_by_id _ name) by done.
  rewrite Pa, Ps. done.
Qed.

(** The URL a device publishes for a description in its own memory, NUL
    padded as the register stores it, parses back to the file name, address
    and size, whatever they are. *)
Theorem local_url_roundtrip (name : text) (address size : Z) (pad : nat) :
  59 ∉ name -> bounded_by is_whitespace name -> u64_ok address -> u64_ok size ->
  XmlUrl_parse (local_url name address size ++ replicate pad 0) = Ok (Local_ name address size).
Proof. apply local_url_parses. Qed.

Lemma local_url_roundtrip_witness :
  XmlUrl_parse (str "Local:theater.zip;8000;1A2B" ++ [0; 0]) = Ok (Local_ (str "theater.zip") 0x8000 0x1A2B).
Proof.
  apply (local_url_roundtrip (str "theater.zip") 0x8000 0x1A2B 2);
    [by apply (bool_decide_eq_true_1 _)|split; by intros c [= <-]|width_lia..].
Defined.
