(* ===== verification/Emulator.v ===== *)
(** The device side: the model of [src/src/emulator/mod.rs].

    [GigeDevice] is the register and memory image of an emulated camera with
    the reply cache for retransmitted commands.  An operation returns [None]
    where the source would panic (a slice out of range).  The description
    [GENICAM_XML] (EmulatedXml.v) is an argument of [seed]; 32-bit floats of
    the configuration are given by their bit patterns. *)

From S2P Require Import Prelude Gvcp Gvsp Text Bootstrap Zip Url.

Definition MEM_SIZE : Z := 0x10000.
Definition XML_ADDRESS : Z := 0x8000.
Definition WIDTH_REG : Z := 0x2000.
Definition HEIGHT_REG : Z := 0x2004.
Definition ACQ_REG : Z := 0x2008.
Definition ACQ_MODE_REG : Z := 0x200C.
Definition PIXEL_FORMAT_REG : Z := 0x2010.
Definition EXPOSURE_REG : Z := 0x2014.
Definition GAIN_REG : Z := 0x2018.

Record DeviceConfig := {
  dc_width : Z; dc_height : Z; dc_exposure_bits : Z; dc_gain_bits : Z;
  dc_manufacturer : text; dc_model : text; dc_device_version : text; dc_serial : text;
  dc_mac : bytes }.

Record ResendRequest := { rr_frame_id : Z; rr_first_packet : Z; rr_last_packet : Z }.

Record Reaction := {
  re_reply : option bytes;
  re_fire_test : option Z;
  re_acquisition_started : bool;
  re_resend : option ResendRequest }.

Definition Reaction_default : Reaction :=
  {| re_reply := None; re_fire_test := None; re_acquisition_started := false; re_resend := None |}.

Definition Reaction_reply (r : bytes) : Reaction :=
  {| re_reply := Some r; re_fire_test := None; re_acquisition_started := false; re_resend := None |}.

(** A socket address: IPv4 address and port. *)
Abbreviation SocketAddr := (Z * Z)%type.

Record GigeDevice := mkDevice {
  d_mem : bytes;
  d_ctrl_peer : option SocketAddr;
  d_last_reply : gmap SocketAddr (Z * Z * bytes);
  d_duplicates : Z;
  d_leader_timestamp_ns : Z;
  d_max_packet_size : option Z }.

Definition GigeDevice_eta (r : GigeDevice) : GigeDevice :=
  mkDevice (d_mem r) (d_ctrl_peer r) (d_last_reply r) (d_duplicates r) (d_leader_timestamp_ns r)
    (d_max_packet_size r).
#[export] Instance set_d_mem : Setter d_mem := ltac:(derive_setter GigeDevice_eta d_mem).
#[export] Instance set_d_ctrl_peer : Setter d_ctrl_peer := ltac:(derive_setter GigeDevice_eta d_ctrl_peer).
#[export] Instance set_d_last_reply : Setter d_last_reply := ltac:(derive_setter GigeDevice_eta d_last_reply).
#[export] Instance set_d_duplicates : Setter d_duplicates := ltac:(derive_setter GigeDevice_eta d_duplicates).
#[export] Instance set_d_leader_timestamp_ns : Setter d_leader_timestamp_ns := ltac:(derive_setter GigeDevice_eta d_leader_timestamp_ns).
#[export] Instance set_d_max_packet_size : Setter d_max_packet_size := ltac:(derive_setter GigeDevice_eta d_max_packet_size).

(** * Memory *)

(** [mem[a..a+len]] read and written. *)
Definition mem_read (d : GigeDevice) (a len : Z) : option bytes := get_range (d_mem d) a (a + len).

Definition mem_write (d : GigeDevice) (a : Z) (data : bytes) : option GigeDevice :=
  _ ← get_range (d_mem d) a (a + zlen data);
  Some (d <| d_mem ::= fun m => splice m a data |>).

Definition read_reg (d : GigeDevice) (addr : Z) : option Z := be_decode <$> mem_read d addr 4.
Definition write_reg (d : GigeDevice) (addr value : Z) : option GigeDevice :=
  mem_write d addr (be_encode 4 value).
Definition write_string (d : GigeDevice) (addr : Z) (s : text) : option GigeDevice :=
  mem_write d addr (as_bytes s).

Definition install_genicam_xml (d : GigeDevice) (xml : bytes) (address : Z) : option GigeDevice :=
  let zipped := build_stored_zip xml in
  let url := local_url (str "theater.zip") address (zlen zipped) in
  d ← mem_write d XML_URL_0 (replicate (Z.to_nat XML_URL_SIZE) 0);
  d ← mem_write d XML_URL_0 (as_bytes url);
  mem_write d address zipped.

Definition seed (xml : bytes) (ip : Z) (cfg : DeviceConfig) (d : GigeDevice) : option GigeDevice :=
  d ← write_reg d VERSION 0x00020000;
  d ← write_reg d GVCP_CAPABILITY
        (Z.lor (Z.lor CAP_WRITE_MEMORY CAP_CONCATENATION) CAP_HEARTBEAT_DISABLE);
  d ← write_reg d HEARTBEAT_TIMEOUT 3000;
  d ← write_reg d N_STREAM_CHANNELS 1;
  d ← write_reg d TIMESTAMP_TICK_FREQUENCY_LOW 1000000000;
  d ← write_reg d CURRENT_IP_ADDRESS ip;
  d ← write_reg d CURRENT_SUBNET_MASK 0xff000000;
  d ← mem_write d 0x0a (dc_mac cfg);
  d ← write_string d MANUFACTURER_NAME (dc_manufacturer cfg);
  d ← write_string d MODEL_NAME (dc_model cfg);
  d ← write_string d DEVICE_VERSION (dc_device_version cfg);
  d ← write_string d SERIAL_NUMBER (dc_serial cfg);
  d ← install_genicam_xml d xml XML_ADDRESS;
  d ← write_reg d WIDTH_REG (dc_width cfg);
  d ← write_reg d HEIGHT_REG (dc_height cfg);
  d ← write_reg d ACQ_MODE_REG 1;
  d ← write_reg d PIXEL_FORMAT_REG MONO8;
  d ← write_reg d EXPOSURE_REG (dc_exposure_bits cfg);
  write_reg d GAIN_REG (dc_gain_bits cfg).

Definition GigeDevice_new (xml : bytes) (ip : Z) (cfg : DeviceConfig) : option GigeDevice :=
  seed xml ip cfg (mkDevice (replicate (Z.to_nat MEM_SIZE) 0) None ∅ 0 0 None).

Definition width (d : GigeDevice) : option Z := read_reg d WIDTH_REG.
Definition height (d : GigeDevice) : option Z := read_reg d HEIGHT_REG.

(** * Where to send *)

Definition stream_dest (d : GigeDevice) : option (option SocketAddr) :=
  ip ← read_reg d STREAM_CHANNEL_DEST_ADDRESS;
  scp ← read_reg d STREAM_CHANNEL_PORT;
  let port := Z.land scp 0xffff in
  Some (if port =? 0 then None
        else if negb (ip =? 0) then Some (ip, port)
        else match d_ctrl_peer d with Some (peer, _) => Some (peer, port) | None => None end).

Definition message_dest (d : GigeDevice) : option (option SocketAddr) :=
  ip ← read_reg d MESSAGE_CHANNEL_DEST_ADDRESS;
  mcp ← read_reg d MESSAGE_CHANNEL_PORT;
  let port := Z.land mcp 0xffff in
  Some (if negb (ip =? 0) && negb (port =? 0) then Some (ip, port) else None).

(** * Settings *)

Definition set_capability (d : GigeDevice) (cap : Z) (supported : bool) : option GigeDevice :=
  caps ← read_reg d GVCP_CAPABILITY;
  write_reg d GVCP_CAPABILITY
    (if supported then Z.lor caps cap else Z.land caps (Z.lxor U32_MAX cap)).

Definition set_packet_resend (d : GigeDevice) := set_capability d CAP_PACKET_RESEND.
Definition set_concatenation (d : GigeDevice) := set_capability d CAP_CONCATENATION.
Definition set_event_support (d : GigeDevice) := set_capability d CAP_EVENT.
Definition set_max_packet_size (d : GigeDevice) (max : option Z) : GigeDevice :=
  d <| d_max_packet_size := max |>.
Definition set_leader_timestamp_ns (d : GigeDevice) (ns : Z) : GigeDevice :=
  d <| d_leader_timestamp_ns := ns |>.
Definition clear_acquisition (d : GigeDevice) : option GigeDevice := write_reg d ACQ_REG 0.

(** * Acknowledges *)

Definition ack (status answer ack_id : Z) (payload : bytes) : bytes :=
  be_encode 2 status ++ be_encode 2 answer ++ be_encode 2 (wrap 16 (zlen payload)) ++
  be_encode 2 ack_id ++ payload.

Definition nak (status answer ack_id : Z) : bytes := ack status answer ack_id [].

Definition pending_ack (req_id timeout_ms : Z) : bytes :=
  ack STATUS_SUCCESS PENDING_ACK req_id ([0; 0] ++ be_encode 2 timeout_ms).

Definition event_cmd (event_id block_id timestamp req_id : Z) (ack_required : bool) : bytes :=
  [PACKET_TYPE_CMD; if ack_required then FLAG_ACK_REQUIRED else 0] ++ be_encode 2 EVENT_CMD ++
  be_encode 2 16 ++ be_encode 2 req_id ++ be_encode 2 0 ++ be_encode 2 event_id ++
  be_encode 2 0 ++ be_encode 2 block_id ++ be_encode 8 timestamp.

(** * Commands *)

Fixpoint read_registers_values (d : GigeDevice) (chunks : list bytes) : option (option bytes) :=
  match chunks with
  | [] => Some (Some [])
  | chunk :: chunks =>
      let addr := be_decode chunk in
      if zlen (d_mem d) <? addr + 4 then Some None
      else
        v ← mem_read d addr 4;
        rest ← read_registers_values d chunks;
        Some (match rest with Some r => Some (v ++ r) | None => None end)
  end.

Definition read_registers (d : GigeDevice) (cmd : Cmd) : option bytes :=
  values ← read_registers_values d (chunks4 (cmd_payload cmd));
  Some (match values with
        | None => nak STATUS_INVALID_ADDRESS READ_REGISTER_ACK (cmd_req_id cmd)
        | Some values => ack STATUS_SUCCESS READ_REGISTER_ACK (cmd_req_id cmd) values
        end).

(** [as_chunks::<8>().0], each chunk as its two words. *)
Fixpoint chunks8 (l : bytes) : list (Z * Z) :=
  match l with
  | a :: b :: c :: d :: e :: f :: g :: h :: l =>
      (be_decode [a; b; c; d], be_decode [e; f; g; h]) :: chunks8 l
  | _ => []
  end.

(** The loop of [write_registers]: the device, and [None] inside on a bad
    address (earlier writes stay). *)
Fixpoint write_registers_loop (d : GigeDevice) (chunks : list (Z * Z)) (fire_test : option Z)
    (started : bool) : option (GigeDevice * option (option Z * bool)) :=
  match chunks with
  | [] => Some (d, Some (fire_test, started))
  | (addr, value) :: chunks =>
      if zlen (d_mem d) <? addr + 4 then Some (d, None)
      else
        let value :=
          if addr =? STREAM_CHANNEL_PACKET_SIZE then
            match d_max_packet_size d with
            | Some max =>
                let size := Z.min (Z.land value SCPS_PACKET_SIZE_MASK) max in
                Z.lor (Z.land value (Z.lxor U32_MAX SCPS_PACKET_SIZE_MASK)) size
            | None => value
            end
          else value in
        d ← write_reg d addr value;
        let fire_test :=
          if (addr =? STREAM_CHANNEL_PACKET_SIZE) && negb (Z.land value SCPS_FIRE_TEST_PACKET =? 0)
          then Some (wrap 16 (Z.land value SCPS_PACKET_SIZE_MASK)) else fire_test in
        let started := if (addr =? ACQ_REG) && (value =? 1) then true else started in
        write_registers_loop d chunks fire_test started
  end.

Definition write_registers (d : GigeDevice) (cmd : Cmd) : option (GigeDevice * Reaction) :=
  '((d, r) : GigeDevice * option (option Z * bool)) ← write_registers_loop d (chunks8 (cmd_payload cmd)) None false;
  Some (d, match r with
           | None => Reaction_reply (nak STATUS_INVALID_ADDRESS WRITE_REGISTER_ACK (cmd_req_id cmd))
           | Some (fire_test, started) =>
               {| re_reply := Some (ack STATUS_SUCCESS WRITE_REGISTER_ACK (cmd_req_id cmd)
                                      (be_encode 4 (wrap 32 (zlen (cmd_payload cmd) / 8))));
                  re_fire_test := fire_test; re_acquisition_started := started; re_resend := None |}
           end).

Definition word_at (payload : bytes) (i : Z) : option Z := be_decode <$> get_range payload i (i + 4).

(** Outside, [None] is a panic; inside, the source's [None]. *)
Definition packet_resend (d : GigeDevice) (cmd : Cmd) : option (option ResendRequest) :=
  caps ← read_reg d GVCP_CAPABILITY;
  let p := cmd_payload cmd in
  Some (if Z.land caps CAP_PACKET_RESEND =? 0 then None
        else if negb (Z.land (cmd_flags cmd) FLAG_EXTENDED_IDS =? 0) then
          id ← get_range p 12 20;
          first ← word_at p 4;
          last ← word_at p 8;
          Some {| rr_frame_id := be_decode id; rr_first_packet := first; rr_last_packet := last |}
        else
          id ← word_at p 0;
          first ← word_at p 4;
          last ← word_at p 8;
          Some {| rr_frame_id := Z.land id 0xffff; rr_first_packet := Z.land first PACKET_ID_MASK;
                  rr_last_packet := Z.land last PACKET_ID_MASK |}).

Definition read_memory (d : GigeDevice) (cmd : Cmd) : option bytes :=
  let p := cmd_payload cmd in
  match be_decode <$> get_to p 4, be_decode <$> get_range p 4 8 with
  | Some addr, Some count =>
      let count := Z.land count 0xffff in
      if (zlen (d_mem d) <? addr + count) || (DATA_SIZE_MAX <? count)
      then Some (nak STATUS_INVALID_ADDRESS READ_MEMORY_ACK (cmd_req_id cmd))
      else
        data ← mem_read d addr count;
        Some (ack STATUS_SUCCESS READ_MEMORY_ACK (cmd_req_id cmd) (be_encode 4 (wrap 32 addr) ++ data))
  | _, _ => Some (nak STATUS_INVALID_HEADER READ_MEMORY_ACK (cmd_req_id cmd))
  end.

Definition write_memory (d : GigeDevice) (cmd : Cmd) : option (GigeDevice * bytes) :=
  let p := cmd_payload cmd in
  match be_decode <$> get_to p 4 with
  | None => Some (d, nak STATUS_INVALID_HEADER WRITE_MEMORY_ACK (cmd_req_id cmd))
  | Some addr =>
      let data := default [] (get_from p 4) in
      if zlen (d_mem d) <? addr + zlen data
      then Some (d, nak STATUS_INVALID_ADDRESS WRITE_MEMORY_ACK (cmd_req_id cmd))
      else
        d ← mem_write d addr data;
        Some (d, ack STATUS_SUCCESS WRITE_MEMORY_ACK (cmd_req_id cmd) (be_encode 4 (wrap 32 (zlen data))))
  end.

Definition execute (d : GigeDevice) (cmd : Cmd) : option (GigeDevice * Reaction) :=
  let c := cmd_command cmd in
  if c =? DISCOVERY_CMD then
    block ← mem_read d 0 DISCOVERY_DATA_SIZE;
    Some (d, Reaction_reply (ack STATUS_SUCCESS DISCOVERY_ACK DISCOVERY_ID block))
  else if c =? READ_REGISTER_CMD then
    r ← read_registers d cmd; Some (d, Reaction_reply r)
  else if c =? WRITE_REGISTER_CMD then write_registers d cmd
  else if c =? READ_MEMORY_CMD then
    r ← read_memory d cmd; Some (d, Reaction_reply r)
  else if c =? WRITE_MEMORY_CMD then
    '((d, r) : GigeDevice * bytes) ← write_memory d cmd; Some (d, Reaction_reply r)
  else if c =? PACKET_RESEND_CMD then
    r ← packet_resend d cmd;
    Some (d, {| re_reply := None; re_fire_test := None; re_acquisition_started := false; re_resend := r |})
  else Some (d, Reaction_default).

Definition handle_datagram (d : GigeDevice) (data : bytes) (src : SocketAddr)
    : option (GigeDevice * Reaction) :=
  match Cmd_parse data with
  | None => Some (d, Reaction_default)
  | Some cmd =>
      let d := d <| d_ctrl_peer := Some src |> in
      let again :=
        match d_last_reply d !! src with
        | Some (command, req_id, reply) =>
            if (command =? cmd_command cmd) && (req_id =? cmd_req_id cmd) then Some reply else None
        | None => None
        end in
      match again with
      | Some reply => Some (d <| d_duplicates ::= Z.add 1 |>, Reaction_reply reply)
      | None =>
          '((d, reaction) : GigeDevice * Reaction) ← execute d cmd;
          match re_reply reaction with
          | Some reply =>
              if negb (cmd_command cmd =? DISCOVERY_CMD)
              then Some (d <| d_last_reply ::= <[src := (cmd_command cmd, cmd_req_id cmd, reply)]> |>, reaction)
              else Some (d, reaction)
          | None => Some (d, reaction)
          end
      end
  end.

(** * The stream *)

Definition gvsp_header (frame_id packet_id content : Z) : bytes :=
  be_encode 2 0 ++ be_encode 2 (wrap 16 frame_id) ++
  be_encode 4 (Z.lor (Z.shiftl content 24) (Z.land packet_id 0x00ffffff)).

Definition build_leader (frame_id width height timestamp : Z) : bytes :=
  gvsp_header frame_id 0 1 ++ be_encode 2 0 ++ be_encode 2 PAYLOAD_TYPE_IMAGE ++
  be_encode 8 timestamp ++ be_encode 4 MONO8 ++ be_encode 4 width ++ be_encode 4 height ++
  be_encode 4 0 ++ be_encode 4 0 ++ be_encode 2 0 ++ be_encode 2 0.

Definition build_payload (frame_id packet_id : Z) (block : bytes) : bytes :=
  gvsp_header frame_id packet_id 3 ++ block.

Definition build_trailer (frame_id packet_id : Z) : bytes :=
  gvsp_header frame_id packet_id 2 ++ be_encode 2 PAYLOAD_TYPE_IMAGE ++ be_encode 4 0.

(** [slice.chunks(n)]. *)
Fixpoint chunks_n (fuel : nat) (n : nat) (l : bytes) : list bytes :=
  match fuel, l with
  | _, [] => []
  | O, _ => []
  | S fuel, _ => take n l :: chunks_n fuel n (drop n l)
  end.
Definition chunks (n : Z) (l : bytes) : list bytes := chunks_n (length l) (Z.to_nat n) l.

Fixpoint payload_packets (frame_id i : Z) (blocks : list bytes) : list bytes :=
  match blocks with
  | [] => []
  | b :: blocks => build_payload frame_id (wrap 32 i + 1) b :: payload_packets frame_id (i + 1) blocks
  end.

Definition frame_packets (d : GigeDevice) (frame_id : Z) (mono8 : bytes) : option (list bytes) :=
  scps ← read_reg d STREAM_CHANNEL_PACKET_SIZE;
  let scps := Z.land scps 0xffff in
  let overhead := packet_protocol_overhead false in
  let block := Z.max (saturating_sub scps overhead) 1 in
  w ← width d;
  h ← height d;
  let blocks := chunks block mono8 in
  Some (build_leader frame_id w h (d_leader_timestamp_ns d) :: payload_packets frame_id 0 blocks ++
        [build_trailer frame_id (wrap 32 (zlen blocks) + 1)]).

Definition mark_resent (packet : bytes) : bytes :=
  if 2 <=? zlen packet then splice packet 0 (be_encode 2 STATUS_PACKET_RESEND) else packet.
