(* ===== verification/DeviceStream.v ===== *)
(** From the device to the subscriber: the packets an emulated device cuts an
    image into ([Emulator.frame_packets]) are a burst in the sense of [Burst],
    so the receiver puts the image together again whatever order they arrive
    in and however often they are repeated or resent. *)

From S2P Require Import Prelude Gvcp Gvsp Channel Float64 Frame Reassembly ReassemblyInv ReassemblySafe Burst Text Bootstrap Zip Url Emulator.

(** * Cutting into blocks *)

Lemma chunks_n_spec fuel n l :
  (0 < n)%nat -> (length l <= fuel)%nat ->
  concat (chunks_n fuel n l) = l /\
  forall k d, chunks_n fuel n l !! k = Some d ->
    (0 < length d <= n)%nat /\ ((S k < length (chunks_n fuel n l))%nat -> length d = n).
Proof.
  revert l. induction fuel as [|fuel IH]; intros l Hn Hl.
  { destruct l; [|simpl in Hl; lia]. split; [done|]. by intros k d Hd. }
  destruct l as [|x l]; [split; [done|]; by intros k d Hd|]. simpl chunks_n.
  change (match n with O => [] | S n0 => x :: take n0 l end) with (take n (x :: l)).
  change (match n with O => x :: l | S n0 => drop n0 l end) with (drop n (x :: l)).
  set (y := x :: l) in *. simpl in Hl. assert (length y = S (length l)) as Hy by done.
  destruct (IH (drop n y)) as [IH1 IH2]; [done|rewrite length_drop; lia|]. split.
  - simpl. by rewrite IH1, take_drop.
  - intros [|k] d Hd; simpl in Hd.
    + injection Hd as <-. rewrite length_take. split; [lia|]. simpl. intros Hk.
      destruct (decide (n < length y)%nat); [lia|]. rewrite drop_ge in Hk by lia.
      destruct fuel; simpl in Hk; lia.
    + destruct (IH2 k d Hd) as [H1 H2]. split; [done|]. simpl. intros. apply H2. lia.
Qed.

Lemma chunks_spec n l :
  0 < n -> concat (chunks n l) = l /\
  forall k d, chunks n l !! k = Some d ->
    0 < zlen d <= n /\ ((S k < length (chunks n l))%nat -> zlen d = n).
Proof.
  intros Hn. destruct (chunks_n_spec (length l) (Z.to_nat n) l) as [H1 H2]; [lia|lia|].
  split; [done|]. intros k d Hd. destruct (H2 k d Hd) as [H3 H4]. unfold zlen. split; [lia|].
  intros Hk. specialize (H4 Hk). lia.
Qed.

(** * The packets *)

Lemma header_std frame_id packet_id content data :
  u16_ok frame_id -> gvsp_header frame_id packet_id content ++ data = std_packet 0 frame_id packet_id content data.
Proof.
  intros H. unfold gvsp_header, std_packet. rewrite wrap_small by width_lia. by rewrite <- !app_assoc.
Qed.

(** A packet or its retransmission: only the status differs. *)
Definition sent (p dg : bytes) : Prop := dg = p \/ dg = mark_resent p.

Lemma splice_status a rest :
  splice (be_encode 2 a ++ rest) 0 (be_encode 2 STATUS_PACKET_RESEND) = be_encode 2 STATUS_PACKET_RESEND ++ rest.
Proof.
  unfold splice. rewrite length_be_encode. change (Z.to_nat 0) with 0%nat. rewrite take_0. simpl app at 1.
  by rewrite drop_app_length' by (by rewrite length_be_encode).
Qed.

Lemma sent_parse frame_id k content data dg :
  u16_ok frame_id -> 0 <= k < 2 ^ 24 -> 0 <= content < 128 ->
  sent (gvsp_header frame_id k content ++ data) dg ->
  exists status, is_error status = false /\
    GvspView_parse dg = Some {| v_status := status; v_extended_ids := false; v_frame_id := frame_id;
      v_packet_id := k; v_content_type := ContentType_from_bits content; v_data := data |}.
Proof.
  intros Hf Hk Hc. rewrite header_std by done. intros [-> | ->].
  - exists 0. split; [done|]. apply parse_std; (done || width_lia).
  - exists STATUS_PACKET_RESEND. split; [done|]. unfold mark_resent, std_packet.
    replace (2 <=? _) with true by (autorewrite with zlen; pose proof (zlen_nonneg data); lia).
    rewrite splice_status. apply parse_std; (done || const_range).
Qed.

Definition device_leader (w h timestamp : Z) : ImageLeader :=
  {| il_payload_type := PAYLOAD_TYPE_IMAGE; il_has_chunks := false; il_timestamp_ticks := timestamp;
     il_pixel_format := MONO8; il_width := w; il_height := h; il_x_offset := 0; il_y_offset := 0;
     il_x_padding := 0; il_y_padding := 0 |}.

Definition leader_data (w h timestamp : Z) : bytes :=
  be_encode 2 0 ++ be_encode 2 PAYLOAD_TYPE_IMAGE ++
  be_encode 8 timestamp ++ be_encode 4 MONO8 ++ be_encode 4 w ++ be_encode 4 h ++
  be_encode 4 0 ++ be_encode 4 0 ++ be_encode 2 0 ++ be_encode 2 0.

Lemma leader_parse w h timestamp :
  u32_ok w -> u32_ok h -> u64_ok timestamp ->
  ImageLeader_parse (leader_data w h timestamp) = Some (device_leader w h timestamp).
Proof.
  intros Hw Hh Ht. unfold ImageLeader_parse, field_at.
  assert (get_range (leader_data w h timestamp) 2 4 = Some (be_encode 2 PAYLOAD_TYPE_IMAGE)) as ->
    by (unfold leader_data; by read_field).
  assert (get_range (leader_data w h timestamp) 4 12 = Some (be_encode 8 timestamp)) as ->
    by (unfold leader_data; by read_field).
  assert (get_range (leader_data w h timestamp) 12 (12 + 4) = Some (be_encode 4 MONO8)) as ->
    by (unfold leader_data; by read_field).
  assert (get_range (leader_data w h timestamp) 16 (16 + 4) = Some (be_encode 4 w)) as ->
    by (unfold leader_data; by read_field).
  assert (get_range (leader_data w h timestamp) 20 (20 + 4) = Some (be_encode 4 h)) as ->
    by (unfold leader_data; by read_field).
  assert (get_range (leader_data w h timestamp) 24 (24 + 4) = Some (be_encode 4 0)) as ->
    by (unfold leader_data; by read_field).
  assert (get_range (leader_data w h timestamp) 28 (28 + 4) = Some (be_encode 4 0)) as ->
    by (unfold leader_data; by read_field).
  assert (get_range (leader_data w h timestamp) 32 (32 + 2) = Some (be_encode 2 0)) as ->
    by (unfold leader_data; by read_field).
  assert (get_range (leader_data w h timestamp) 34 (34 + 2) = Some (be_encode 2 0)) as ->
    by (unfold leader_data; by read_field).
  simpl. rewrite !be_decode_encode4, be_decode_encode8, !be_decode_encode2
    by (done || const_range). done.
Qed.

(** * The burst *)

Section device.
Context {FC : Chan Frame} {PC : Chan BufSlot} {CC : Chan ToStreamWorker} {HS : PacketHasher}.

Lemma payload_packets_lookup frame_id i blocks k d :
  0 <= i -> i + zlen blocks <= U32_MAX -> blocks !! k = Some d ->
  payload_packets frame_id i blocks !! k = Some (build_payload frame_id (i + Z.of_nat k + 1) d).
Proof.
  revert i k. induction blocks as [|b blocks IH]; intros i k Hi Hl Hd; [done|].
  rewrite zlen_cons in Hl. pose proof (zlen_nonneg blocks).
  destruct k as [|k]; cbn [lookup list_lookup payload_packets] in *.
  - injection Hd as ->. rewrite wrap_small by width_lia. by rewrite Z.add_0_r.
  - rewrite (IH (i + 1)) by (done || lia).
    by replace (i + 1 + Z.of_nat k + 1) with (i + Z.of_nat (S k) + 1) by lia.
Qed.

Lemma length_payload_packets frame_id i blocks : length (payload_packets frame_id i blocks) = length blocks.
Proof. revert i. induction blocks; intros i; simpl; [done|]. by rewrite IHblocks. Qed.

(** The device's packets, by index. *)
Definition burst_list (frame_id w h ts : Z) (ds : list bytes) : list bytes :=
  build_leader frame_id w h ts :: payload_packets frame_id 0 ds ++
    [build_trailer frame_id (wrap 32 (zlen ds) + 1)].

(** What packet [k] of the device carries. *)
Definition device_data (w h ts : Z) (ds : list bytes) (k : Z) : bytes :=
  if k =? 0 then leader_data w h ts
  else if k =? zlen ds + 1 then be_encode 2 PAYLOAD_TYPE_IMAGE ++ be_encode 4 0
  else default [] (ds !! Z.to_nat (k - 1)).

Lemma burst_list_packet frame_id w h ts ds k p dg :
  u16_ok frame_id -> u32_ok w -> u32_ok h -> u64_ok ts -> zlen ds <= MAX_FRAME_PACKETS - 2 ->
  burst_list frame_id w h ts ds !! k = Some p -> sent p dg ->
  exists v, GvspView_parse dg = Some v /\ 0 <= Z.of_nat k <= zlen ds + 1 /\
    burst_packet frame_id false ds (device_leader w h ts) (device_data w h ts ds) (Z.of_nat k) v.
Proof.
  intros Hf Hw Hh Ht HK Hp Hsent. rewrite MAX_FRAME_PACKETS_eq in HK. pose proof (zlen_nonneg ds) as Hn.
  unfold burst_list in Hp. destruct k as [|k].
  { injection Hp as <-. unfold build_leader in Hsent.
    destruct (sent_parse frame_id 0 1 (leader_data w h ts) dg) as (st & Hst & ->); [done|lia|lia|done|].
    eexists. split; [done|]. split; [lia|]. pose proof (leader_parse w h ts Hw Hh Ht) as Hl.
    split; [|by split]. unfold burst_view. simpl. split_and!; try done. left. split_and!; [done|done|].
    eexists. split; [done|done]. }
  simpl in Hp. apply lookup_app_Some in Hp as [Hp|[Hlen Hp]].
  - assert (k < length ds)%nat as Hk.
    { apply lookup_lt_Some in Hp. by rewrite length_payload_packets in Hp. }
    destruct (lookup_lt_is_Some_2 ds k Hk) as [d Hd].
    rewrite (payload_packets_lookup frame_id 0 ds k d) in Hp by (done || width_lia).
    injection Hp as <-. unfold build_payload in Hsent. unfold zlen in *.
    destruct (sent_parse frame_id (0 + Z.of_nat k + 1) 3 d dg) as (st & Hst & ->); [done|lia|lia|done|].
    eexists. split; [done|]. split; [lia|]. split; [|split; [lia|]].
    2: { unfold device_data. cbn [v_data]. replace (_ =? 0) with false by lia. unfold zlen. replace (_ =? _) with false by lia.
      replace (Z.to_nat _) with k by lia. by rewrite Hd. }
    unfold burst_view. simpl. split_and!; try done; [lia|]. right. left. split_and!; [lia|unfold zlen; lia|done|].
    rewrite <- Hd. f_equal. lia.
  - rewrite length_payload_packets in *. assert (k = length ds) as ->.
    { apply lookup_lt_Some in Hp. simpl in Hp. lia. }
    rewrite Nat.sub_diag in Hp. injection Hp as <-. unfold build_trailer in Hsent.
    rewrite wrap_small in Hsent by lia. unfold zlen in *.
    destruct (sent_parse frame_id (Z.of_nat (length ds) + 1) 2 (be_encode 2 PAYLOAD_TYPE_IMAGE ++ be_encode 4 0) dg)
      as (st & Hst & ->); [done|lia|lia|by rewrite app_assoc|].
    eexists. split; [done|]. split; [lia|]. split; [|split; [lia|]].
    2: { unfold device_data. cbn [v_data]. replace (_ =? 0) with false by lia. unfold zlen. by replace (_ =? _) with true by lia. }
    unfold burst_view. simpl. split_and!; try done; [lia|]. right. right. split; [unfold zlen; lia|done].
Qed.

Lemma read_reg_range d addr v : bytes_ok (d_mem d) -> read_reg d addr = Some v -> u32_ok v.
Proof.
  intros Hok. unfold read_reg, mem_read. intros H. apply fmap_Some in H as (b & Hb & ->).
  pose proof (get_range_ok _ _ _ _ Hb Hok) as Hb'. apply get_range_Some in Hb as (_ & _ & Hl & _).
  pose proof (be_decode_range b Hb'). replace (length b) with 4%nat in * by (unfold zlen in Hl; lia). width_lia.
Qed.

(** The device's image is a burst. *)
Lemma device_burst d frame_id image pk :
  frame_packets d frame_id image = Some pk ->
  exists w h bs, width d = Some w /\ height d = Some h /\ 0 < bs /\
    pk = burst_list frame_id w h (d_leader_timestamp_ns d) (chunks bs image).
Proof.
  unfold frame_packets. destruct (read_reg d STREAM_CHANNEL_PACKET_SIZE); [|discriminate]. simpl.
  destruct (width d) as [w|]; [|discriminate]. destruct (height d) as [h|]; [|discriminate]. simpl.
  intros [= <-]. do 3 eexists. split_and!; [done|done| |done]. lia.
Qed.

(** The block size the receiver learns: the length of the first block. *)
Lemma chunks_burst_ok bs image P :
  0 < bs -> image <> [] -> 0 <= P <= I64_MAX -> zlen image <= P ->
  zlen (chunks bs image) <= MAX_FRAME_PACKETS - 2 ->
  exists bs', burst_ok (chunks bs image) bs' P.
Proof.
  intros Hbs Hne HP Hfit HK. destruct (chunks_spec bs image Hbs) as [Hcat Hlen].
  destruct (chunks bs image) as [|d0 ds] eqn:E; [simpl in Hcat; congruence|].
  destruct (Hlen 0%nat d0 eq_refl) as [H0 H0']. exists (zlen d0). split.
  - done.
  - lia.
  - rewrite zlen_cons in *. pose proof (zlen_nonneg ds). lia.
  - intros k d Hd. destruct (Hlen k d Hd) as [Hk Hk']. destruct k as [|k].
    + injection Hd as <-. split; [lia|done].
    + assert (length ds <> 0)%nat by (apply lookup_lt_Some in Hd; simpl in Hd; lia).
      rewrite H0' by (simpl; lia). split; [done|]. intros [?|?]; [by apply Hk'|lia].
  - by rewrite Hcat.
Qed.

Lemma delivered_ok_mono (src src' : Z -> Z -> bytes -> Prop) P fr :
  (forall i k d, src i k d -> src' i k d) -> delivered_ok src P fr -> delivered_ok src' P fr.
Proof.
  intros H (H1 & H2 & H3 & H4). split_and!; try done; try lia. intros Hc.
  destruct (H4 Hc) as (ds & Hds & Hk). exists ds. split; [done|]. intros k d Hd.
  destruct (Hk k d Hd) as (d' & ? & ? & ?). eauto 10.
Qed.

Lemma runner_inv_mono (src src' : Z -> Z -> bytes -> Prop) P ip s :
  (forall i k d, src i k d -> src' i k d) -> r_frames s = [] -> runner_inv src P ip s -> runner_inv src' P ip s.
Proof.
  intros H Hf []. split; try done; [by rewrite Hf; constructor|].
  eapply Forall_impl; [done|]. intros fr. by apply delivered_ok_mono.
Qed.

(** The datagram [r] is packet [k] of the list, or its retransmission. *)
Definition carries (ip : Z) (pk : list bytes) (k : nat) (r : RecvResult) : Prop :=
  exists p dg drops now sys, pk !! k = Some p /\ sent p dg /\ r = RecvDatagram ip dg drops now sys.

(** The packets of one image are a burst. *)
Lemma device_packets (d : GigeDevice) (frame_id : Z) (image : bytes) (pk : list bytes) (P : Z) :
  bytes_ok (d_mem d) -> u64_ok (d_leader_timestamp_ns d) ->
  frame_packets d frame_id image = Some pk -> u16_ok frame_id ->
  image <> [] -> zlen image <= P -> zlen pk <= MAX_FRAME_PACKETS -> 0 <= P <= I64_MAX ->
  exists w h ds bs, width d = Some w /\ height d = Some h /\ concat ds = image /\ length pk = S (S (length ds)) /\
    burst_ok ds bs P /\ forall ip l rs, Forall2 (carries ip pk) l rs ->
      Forall2 (packet_input frame_id false ds (device_leader w h (d_leader_timestamp_ns d))
                 (device_data w h (d_leader_timestamp_ns d) ds) ip) (Z.of_nat <$> l) rs.
Proof.
  intros Hmem Hts Hpk Hid Hne Hfit HK HP.
  destruct (device_burst d frame_id image pk Hpk) as (w & h & bs & Hw & Hh & Hbs & ->).
  set (ds := chunks bs image) in *. set (ts := d_leader_timestamp_ns d) in *.
  assert (length (burst_list frame_id w h ts ds) = S (S (length ds))) as Hlen.
  { unfold burst_list. simpl. rewrite length_app, length_payload_packets. simpl. lia. }
  assert (zlen ds <= MAX_FRAME_PACKETS - 2) as HK' by (unfold zlen in *; lia).
  destruct (chunks_burst_ok bs image P) as [bs' OK]; try done.
  exists w, h, ds, bs'. split_and!; try done; [by apply chunks_spec|]. intros ip l rs Hl. apply Forall2_fmap_l.
  eapply Forall2_impl; [exact Hl|]. intros j r (p & dg & drops & now & sys & Hp & Hsent & ->).
  destruct (burst_list_packet frame_id w h ts ds j p dg) as (v & Hv & Hj & Hb);
    [done|by eapply read_reg_range|by eapply read_reg_range|done..|].
  by exists dg, drops, now, sys, v.
Qed.

Lemma elem_of_nats (l : list nat) j : 0 <= j -> j ∈ Z.of_nat <$> l <-> Z.to_nat j ∈ l.
Proof.
  intros Hj. rewrite list_elem_of_fmap. split; [intros (i & -> & Hi); by rewrite Nat2Z.id|].
  intros Hi. exists (Z.to_nat j). split; [lia|done].
Qed.

(** No frame is open, except that packets of the block a device restarts with,
    repeated after it was handed out, may wait to be told from a new one. *)
Definition quiet (frame_id : Z) (s : StreamRunner) : Prop :=
  r_frames s = [] \/ frame_id = RESTART_BLOCK_ID /\ exists g, r_frames s = [g] /\ is_provisional g = true.

Lemma finished_quiet frame_id ext ds ldr dat s : finished frame_id ext ds ldr dat s -> quiet frame_id s.
Proof.
  intros F. destruct (fn_frames _ _ _ _ _ _ F) as [?|(? & g & ? & E)]; [by left|right]. split; [done|].
  exists g. split; [done|]. unfold is_provisional. destruct (ec_replay _ _ _ _ _ _ E) as (fps & -> & _). done.
Qed.

(** The packets of one image, in any order, as one burst. *)
Lemma image_reassembled (d : GigeDevice) (frame_id : Z) (image : bytes) (pk : list bytes)
    (s : StreamRunner) (src : Z -> Z -> bytes -> Prop) (P ip : Z)
    (ks : list nat) (rs : list RecvResult) :
  bytes_ok (d_mem d) -> u64_ok (d_leader_timestamp_ns d) ->
  frame_packets d frame_id image = Some pk -> u16_ok frame_id ->
  image <> [] -> zlen image <= P -> zlen pk <= MAX_FRAME_PACKETS -> 0 <= P <= I64_MAX ->
  runner_inv src P ip s -> idle frame_id false s ->
  Forall2 (carries ip pk) ks rs -> (forall j, (j < length pk)%nat -> j ∈ ks) ->
  exists s' fr, drain_socket s rs = Some s' /\ quiet frame_id s' /\
    r_delivered s' = r_delivered s ++ [fr] /\ fr_status fr = Complete /\ fr_frame_id fr = frame_id /\
    Frame_data fr = image /\ width d = Some (fr_width fr) /\ height d = Some (fr_height fr).
Proof.
  intros Hmem Hts Hpk Hid Hne Hfit HK HP Hinv Hidle Hrs Hcov.
  destruct (device_packets d frame_id image pk P) as (w & h & ds & bs & Hw & Hh & Himg & Hlen & OK & Hin); try done.
  assert (u64_ok frame_id) as Hid64 by width_lia.
  pose (src' := fun i j e => src i j e \/ burst_src frame_id ds i j e).
  destruct (drain_burst frame_id false ds bs P OK src' (fun i j e H => or_intror H)
              (device_leader w h (d_leader_timestamp_ns d)) (device_data w h (d_leader_timestamp_ns d) ds)
              (conj Hid64 (fun _ => Hid)) (Z.of_nat <$> ks) rs s ip)
    as (s' & Hs' & _ & F & fr & Hdel & B1 & B2 & B3 & B4 & B5 & _).
  - eapply runner_inv_mono; [|apply Hidle|exact Hinv]. unfold src'. by left.
  - done.
  - by apply Hin.
  - intros j Hj. rewrite elem_of_nats by lia. apply Hcov. rewrite Hlen. unfold zlen in Hj. lia.
  - exists s', fr. split_and!; try done; [by eapply finished_quiet|by rewrite B3|by rewrite B4|by rewrite B5].
Qed.

End device.

(** * The theorems at a concrete receiver *)

(** Channels are the reference queues, the hash a sum. *)
#[local] Instance sum_hasher : PacketHasher := fun content data => foldr Z.add content data.

(** A device with all registers zero cuts images into one-byte blocks. *)
Definition ex_device : GigeDevice := mkDevice (replicate (Z.to_nat 8200) 0) None ∅ 0 0 None.
Definition ex_packets : list bytes := default [] (frame_packets ex_device 5 [7; 8]).
Definition ex_order : list nat := [3; 1; 1; 2; 0; 2; 3]%nat.
Definition ex_input : list RecvResult :=
  (fun j => RecvDatagram 9 (default [] (ex_packets !! j)) None 0 0) <$> ex_order.
Definition ex_runner : StreamRunner :=
  runner_new 9 (mkQueue [] None true : chan ToStreamWorker) (FramePool_new 1 4 : chan BufSlot)
    StreamConfig_new 100 4 true 0.

(** The whole burst twice, also for the block a device restarts with: one
    frame. *)
Example repeated_burst :
  (fun id => (fun s => zlen (r_delivered s)) <$>
     (pk ← frame_packets ex_device id [7; 8];
      drain_socket ex_runner ((fun p => RecvDatagram 9 p None 0 0) <$> pk ++ pk))) <$> [RESTART_BLOCK_ID; 5] = [Some 1; Some 1].
Proof. vm_compute. reflexivity. Qed.

