(* ===== verification/DeviceControl.v ===== *)
(** The control protocol end to end: what the emulated device does with the
    commands the driver encodes, and what the driver's parser reads in the
    acknowledges. *)

From S2P Require Import Prelude Gvcp Gvsp Text Bootstrap Zip Url Emulator.

(** * The device invariant *)

Record dev_ok (d : GigeDevice) : Prop := {
  dv_len : zlen (d_mem d) = MEM_SIZE;
  dv_bytes : bytes_ok (d_mem d);
  dv_max : forall m, d_max_packet_size d = Some m -> u16_ok m }.

Lemma mem_read_ok d a len : 0 <= a -> 0 <= len -> a + len <= zlen (d_mem d) ->
  exists b, mem_read d a len = Some b /\ zlen b = len.
Proof.
  intros. unfold mem_read. rewrite get_range_is_Some by lia. eexists. split; [done|].
  unfold zlen in *. rewrite length_take, length_drop. lia.
Qed.

Lemma splice_bytes_ok m a b : bytes_ok m -> bytes_ok b -> bytes_ok (splice m a b).
Proof.
  intros Hm Hb. unfold splice. apply Forall_app. split; [by apply Forall_take|].
  apply Forall_app. split; [done|by apply Forall_drop].
Qed.

Lemma mem_write_ok d a data :
  dev_ok d -> 0 <= a -> a + zlen data <= zlen (d_mem d) -> bytes_ok data ->
  mem_write d a data = Some (d <| d_mem ::= fun m => splice m a data |>) /\
  dev_ok (d <| d_mem ::= fun m => splice m a data |>).
Proof.
  intros [D1 D2 D3] Ha Hl Hb. unfold mem_write. pose proof (zlen_nonneg data).
  rewrite get_range_is_Some by lia. split; [done|]. split; simpl; [|by apply splice_bytes_ok|done].
  by rewrite zlen_splice by lia.
Qed.

Lemma write_reg_ok d a v :
  dev_ok d -> 0 <= a -> a + 4 <= zlen (d_mem d) ->
  exists d', write_reg d a v = Some d' /\ dev_ok d' /\ d_last_reply d' = d_last_reply d /\
    d_mem d' = splice (d_mem d) a (be_encode 4 v).
Proof.
  intros Hd Ha Hl. unfold write_reg.
  destruct (mem_write_ok d a (be_encode 4 v)) as [-> H]; [done|done|by rewrite zlen_be_encode|apply be_encode_ok|].
  eexists. by split_and!.
Qed.

(** A register holds what was last written to it. *)
Lemma read_write_reg d d' a v :
  0 <= a -> a + 4 <= zlen (d_mem d) -> u32_ok v ->
  d_mem d' = splice (d_mem d) a (be_encode 4 v) -> read_reg d' a = Some v.
Proof.
  intros Ha Hl Hv E. unfold read_reg, mem_read. rewrite E.
  pose proof (get_range_splice_same (d_mem d) (be_encode 4 v) a Ha) as H.
  rewrite zlen_be_encode in H. change (Z.of_nat 4) with 4 in H. rewrite H by done. simpl.
  by rewrite be_decode_encode4.
Qed.

Lemma read_write_reg_other d d' a b v :
  0 <= a -> a + 4 <= zlen (d_mem d) -> (b + 4 <= a \/ a + 4 <= b) ->
  d_mem d' = splice (d_mem d) a (be_encode 4 v) -> read_reg d' b = read_reg d b.
Proof.
  intros Ha Hl Hb E. unfold read_reg, mem_read. rewrite E.
  rewrite get_range_splice_other; [done|done|by rewrite zlen_be_encode|].
  rewrite zlen_be_encode. change (Z.of_nat 4) with 4. lia.
Qed.

(** * Decoding the payloads *)

Lemma chunks4_ok l : bytes_ok l -> Forall (fun c => bytes_ok c /\ length c = 4%nat) (chunks4 l).
Proof.
  remember (length l) as n eqn:Hn. revert l Hn.
  induction n as [n IH] using lt_wf_ind. intros l -> Hl.
  destruct l as [|a [|b [|c [|e l]]]]; simpl; try constructor.
  - split; [|done]. by apply (Forall_take _ 4) in Hl.
  - apply (IH (length l)); [simpl; lia|done|]. by apply (Forall_drop _ 4) in Hl.
Qed.

Lemma be_decode_4 c : bytes_ok c -> length c = 4%nat -> u32_ok (be_decode c).
Proof. intros H E. pose proof (be_decode_range c H). rewrite E in *. width_lia. Qed.

Lemma chunks8_ok l : bytes_ok l -> Forall (fun '(a, v) => u32_ok a /\ u32_ok v) (chunks8 l).
Proof.
  remember (length l) as n eqn:Hn. revert l Hn.
  induction n as [n IH] using lt_wf_ind. intros l -> Hl.
  destruct l as [|a [|b [|c [|e [|f [|g [|h [|i l]]]]]]]]; simpl; try constructor.
  - split; apply be_decode_4; try done; [by apply (Forall_take _ 4) in Hl|].
    apply (Forall_drop _ 4) in Hl. simpl in Hl. by apply (Forall_take _ 4) in Hl.
  - apply (IH (length l)); [simpl; lia|done|]. by apply (Forall_drop _ 8) in Hl.
Qed.

Lemma Cmd_parse_ok buf cmd :
  bytes_ok buf -> Cmd_parse buf = Some cmd -> bytes_ok (cmd_payload cmd) /\ u16_ok (cmd_req_id cmd).
Proof.
  intros Hok. unfold Cmd_parse, CmdHeader_from_prefix.
  destruct buf as [|t [|f [|c1 [|c0 [|l1 [|l0 [|i1 [|i0 rest]]]]]]]]; try discriminate.
  repeat (apply bytes_ok_cons_inv in Hok as [? Hok]).
  cbn -[be_decode get_to]. destruct (negb _); [discriminate|].
  destruct (get_to rest _) as [p|] eqn:Ep; [|discriminate]. intros [= <-]. simpl.
  split; [by eapply get_range_ok|by apply be_decode2_ok].
Qed.

(** * No command makes the device panic *)

Lemma read_registers_ok d cmd :
  dev_ok d -> bytes_ok (cmd_payload cmd) -> exists r, read_registers d cmd = Some r.
Proof.
  intros Hd Hp. unfold read_registers. pose proof (chunks4_ok _ Hp) as Hc.
  assert (exists v, read_registers_values d (chunks4 (cmd_payload cmd)) = Some v) as [v ->]; [|simpl; eauto].
  induction Hc as [|c l [Hc Hl] _ IH]; simpl; [eauto|].
  destruct (_ <? _) eqn:E; [eauto|]. pose proof (be_decode_4 c Hc Hl) as [? _].
  destruct (mem_read_ok d (be_decode c) 4) as (b & -> & _); [lia..|]. simpl.
  destruct IH as [r ->]. simpl. eauto.
Qed.

Lemma write_registers_loop_ok chunks d ft st :
  dev_ok d -> Forall (fun '(a, v) => u32_ok a /\ u32_ok v) chunks ->
  exists d' r, write_registers_loop d chunks ft st = Some (d', r) /\ dev_ok d'.
Proof.
  revert d ft st. induction chunks as [|[a v] chunks IH]; intros d ft st Hd Hc; simpl; [eauto|].
  apply Forall_cons in Hc as [[[Ha _] _] Hc]. destruct (_ <? _) eqn:E; [eauto|].
  match goal with |- context [write_reg d a ?w] =>
    destruct (write_reg_ok d a w) as (d' & -> & Hd' & _); [done|lia|lia|] end.
  simpl. by apply IH.
Qed.

Lemma execute_ok d cmd :
  dev_ok d -> bytes_ok (cmd_payload cmd) -> exists d' r, execute d cmd = Some (d', r) /\ dev_ok d'.
Proof.
  intros Hd Hp. unfold execute. pose proof (dv_len d Hd) as Hlen. unfold MEM_SIZE in Hlen.
  destruct (_ =? DISCOVERY_CMD).
  { destruct (mem_read_ok d 0 DISCOVERY_DATA_SIZE) as (b & -> & _); [lia|unfold DISCOVERY_DATA_SIZE; lia..|]. simpl. eauto. }
  destruct (_ =? READ_REGISTER_CMD).
  { destruct (read_registers_ok d cmd Hd Hp) as [r ->]. simpl. eauto. }
  destruct (_ =? WRITE_REGISTER_CMD).
  { unfold write_registers.
    destruct (write_registers_loop_ok (chunks8 (cmd_payload cmd)) d None false Hd (chunks8_ok _ Hp)) as (d' & r & -> & ?).
    simpl. eauto. }
  destruct (_ =? READ_MEMORY_CMD).
  { unfold read_memory. destruct (get_to _ 4) as [a|] eqn:Ea; simpl; [|eauto].
    destruct (get_range _ 4 8) as [c|] eqn:Ec; simpl; [|eauto].
    destruct (_ || _) eqn:E; [eauto|].
    pose proof (be_decode_range a (get_range_ok _ _ _ _ Ea Hp)) as [? _].
    assert (0 <= Z.land (be_decode c) 65535) by (apply Z.land_nonneg; lia).
    destruct (mem_read_ok d (be_decode a) (Z.land (be_decode c) 65535)) as (b & -> & _); [lia..|]. simpl. eauto. }
  destruct (_ =? WRITE_MEMORY_CMD).
  { unfold write_memory. destruct (get_to _ 4) as [a|] eqn:Ea; simpl; [|eauto].
    destruct (_ <? _) eqn:E; [simpl; eauto|].
    pose proof (be_decode_range a (get_range_ok _ _ _ _ Ea Hp)) as [? _].
    destruct (mem_write_ok d (be_decode a) (default [] (get_from (cmd_payload cmd) 4))) as [-> Hd'];
      [done|lia|lia| |simpl; eauto].
    destruct (get_from _ 4) eqn:Ef; simpl; [by eapply get_range_ok|constructor]. }
  destruct (_ =? PACKET_RESEND_CMD); [|eauto].
  unfold packet_resend, read_reg. destruct (mem_read_ok d GVCP_CAPABILITY 4) as (b & -> & _);
    [unfold GVCP_CAPABILITY; lia..|]. simpl. eauto.
Qed.

Lemma handle_datagram_ok d data src :
  dev_ok d -> bytes_ok data -> exists d' r, handle_datagram d data src = Some (d', r) /\ dev_ok d'.
Proof.
  intros Hd Hb. unfold handle_datagram. destruct (Cmd_parse data) as [cmd|] eqn:Ec; [|eauto].
  destruct (Cmd_parse_ok data cmd Hb Ec) as [Hp _].
  assert (dev_ok (d <| d_ctrl_peer := Some src |>)) as Hd1 by (by destruct Hd).
  destruct (match d_last_reply _ !! src with Some _ => _ | None => _ end).
  { do 2 eexists. split; [done|]. by destruct Hd. }
  destruct (execute_ok _ cmd Hd1 Hp) as (d' & r & -> & Hd'). simpl.
  destruct (re_reply r); [|eauto]. destruct (negb _); [|eauto].
  do 2 eexists. split; [done|]. by destruct Hd'.
Qed.

(** Datagram after datagram. *)
Fixpoint handle_all (d : GigeDevice) (input : list (bytes * SocketAddr)) : option (GigeDevice * list Reaction) :=
  match input with
  | [] => Some (d, [])
  | (data, src) :: input =>
      '((d, r) : GigeDevice * Reaction) ← handle_datagram d data src;
      '((d, rs) : GigeDevice * list Reaction) ← handle_all d input;
      Some (d, r :: rs)
  end.

(** C37: the device survives every sequence of datagrams from anyone: no command
    makes it read or write outside its memory, which keeps its size. *)
Theorem device_never_panics (d : GigeDevice) (input : list (bytes * SocketAddr)) :
  dev_ok d -> Forall (fun '(data, _) => bytes_ok data) input ->
  exists d' rs, handle_all d input = Some (d', rs) /\ dev_ok d' /\ length rs = length input.
Proof.
  intros Hd Hin. revert d Hd. induction Hin as [|[data src] input Hb _ IH]; intros d Hd; simpl; [by eauto 10|].
  destruct (handle_datagram_ok d data src Hd Hb) as (d1 & r & -> & Hd1). simpl.
  destruct (IH d1 Hd1) as (d2 & rs & -> & Hd2 & Hl). simpl. do 2 eexists. split_and!; [done..|]. simpl. lia.
Qed.

Definition blank_device : GigeDevice := mkDevice (replicate (Z.to_nat MEM_SIZE) 0) None ∅ 0 0 None.

Lemma blank_device_ok : dev_ok blank_device.
Proof.
  split; [|by apply Forall_replicate|discriminate].
  unfold blank_device. cbn [d_mem]. rewrite zlen_replicate. by apply Z2Nat.id.
Qed.

Lemma device_never_panics_witness :
  exists d' rs, handle_all blank_device [([0x42; 1; 0; 0x84; 0; 8; 0; 7; 0; 0; 255; 255; 0; 0; 0; 200], (1, 2))]
    = Some (d', rs) /\ dev_ok d' /\ length rs = 1%nat.
Proof.
  apply device_never_panics; [apply blank_device_ok|]. apply Forall_singleton. by apply bytes_ok_dec_true.
Defined.

(** The acknowledge of a command is remembered for its sender. *)
Lemma handle_remembers d data src cmd d1 r reply :
  Cmd_parse data = Some cmd -> cmd_command cmd <> DISCOVERY_CMD ->
  handle_datagram d data src = Some (d1, r) -> re_reply r = Some reply ->
  d_last_reply d1 !! src = Some (cmd_command cmd, cmd_req_id cmd, reply).
Proof.
  intros Hc Hd H Hr. unfold handle_datagram in H. rewrite Hc in H. simpl in H.
  assert (forall o, ('((d, reaction) : GigeDevice * Reaction) ← o;
             match re_reply reaction with
             | Some reply =>
                 if negb (cmd_command cmd =? DISCOVERY_CMD)
                 then Some (d <| d_last_reply ::= <[src := (cmd_command cmd, cmd_req_id cmd, reply)]> |>, reaction)
                 else Some (d, reaction)
             | None => Some (d, reaction)
             end) = Some (d1, r) ->
          d_last_reply d1 !! src = Some (cmd_command cmd, cmd_req_id cmd, reply)) as Hex.
  { intros [[d' r']|]; [|discriminate]. simpl. destruct (re_reply r') as [rp|] eqn:Erp; [|congruence].
    replace (negb _) with true by lia. intros [= <- <-]. rewrite Hr in Erp. injection Erp as ->.
    apply lookup_insert_eq. }
  destruct (d_last_reply d !! src) as [[[c i] rep]|] eqn:El; [|by apply Hex in H].
  destruct ((c =? cmd_command cmd) && (i =? cmd_req_id cmd)) eqn:Em; [|by apply Hex in H].
  injection H as <- <-. injection Hr as <-. simpl. rewrite El. repeat f_equal; lia.
Qed.

(** The device after [n] repetitions from [src]. *)
Definition repeated (d : GigeDevice) (src : SocketAddr) (n : Z) : GigeDevice :=
  d <| d_ctrl_peer := Some src |> <| d_duplicates ::= Z.add n |>.

Lemma handle_again d data src cmd reply :
  Cmd_parse data = Some cmd -> d_last_reply d !! src = Some (cmd_command cmd, cmd_req_id cmd, reply) ->
  handle_datagram d data src = Some (repeated d src 1, Reaction_reply reply).
Proof.
  intros Hc El. unfold handle_datagram. rewrite Hc. simpl. by rewrite El, !Z.eqb_refl.
Qed.

Lemma repeated_add d src m n : repeated (repeated d src m) src n = repeated d src (n + m).
Proof.
  destruct d as [mem peer last dups ts mx].
  change (mkDevice mem (Some src) last (n + (m + dups)) ts mx = mkDevice mem (Some src) last (n + m + dups) ts mx).
  f_equal. lia.
Qed.

Lemma handle_repetitions n d data src cmd reply :
  Cmd_parse data = Some cmd -> d_last_reply d !! src = Some (cmd_command cmd, cmd_req_id cmd, reply) ->
  handle_all d (replicate (S n) (data, src)) =
    Some (repeated d src (Z.of_nat (S n)), replicate (S n) (Reaction_reply reply)).
Proof.
  intros Hc. revert d. induction n as [|n IH]; intros d El.
  - simpl. by erewrite handle_again.
  - change (replicate (S (S n)) (data, src)) with ((data, src) :: replicate (S n) (data, src)). cbn [handle_all].
    erewrite handle_again by done. cbn [mbind option_bind]. rewrite IH by done. cbn [mbind option_bind].
    rewrite repeated_add. repeat f_equal. lia.
Qed.

(** C36: a command that was acknowledged and arrives again, however often (the
    driver sends it again because the acknowledge was late or lost), gets the
    same acknowledge each time and changes nothing but the count of
    duplicates: neither memory nor the acquisition state. *)
Theorem retransmission_idempotent (n : nat) (d d1 : GigeDevice) (data : bytes) (src : SocketAddr)
    (r : Reaction) (reply : bytes) (cmd : Cmd) :
  Cmd_parse data = Some cmd -> cmd_command cmd <> DISCOVERY_CMD ->
  handle_datagram d data src = Some (d1, r) -> re_reply r = Some reply ->
  handle_all d1 (replicate (S n) (data, src)) =
    Some (repeated d1 src (Z.of_nat (S n)), replicate (S n) (Reaction_reply reply)).
Proof.
  intros Hc Hd H Hr. eapply handle_repetitions; [done|]. by eapply handle_remembers.
Qed.

(** * The driver's commands *)

(** No cached acknowledge matches the command. *)
Definition fresh (d : GigeDevice) (src : SocketAddr) (c : HostCmd) (id : Z) : Prop :=
  forall reply, d_last_reply d !! src <> Some (HostCmd_opcode c, id, reply).

Definition host_cmd (c : HostCmd) (id : Z) : Cmd :=
  {| cmd_flags := HostCmd_flags c; cmd_command := HostCmd_opcode c; cmd_req_id := id;
     cmd_payload := HostCmd_payload c |}.

Lemma Cmd_parse_host c id :
  HostCmd_ok c -> u16_ok id -> Cmd_parse (HostCmd_encode c id) = Some (host_cmd c id).
Proof.
  intros Hc Hid. rewrite HostCmd_encode_shape.
  pose proof (Cmd_parse_encoded (HostCmd_opcode c) (HostCmd_flags c) id (HostCmd_payload c) []) as E.
  rewrite app_nil_r in E. rewrite E; [done|destruct c; const_range|done|by apply HostCmd_payload_fits].
Qed.

(** A fresh command is executed, and its acknowledge cached. *)
Lemma handle_fresh d src c id d' r reply :
  HostCmd_ok c -> u16_ok id -> fresh d src c id ->
  execute (d <| d_ctrl_peer := Some src |>) (host_cmd c id) = Some (d', r) -> re_reply r = Some reply ->
  handle_datagram d (HostCmd_encode c id) src =
    Some (d' <| d_last_reply ::= <[src := (HostCmd_opcode c, id, reply)]> |>, r).
Proof.
  intros Hc Hid Hf He Hr. unfold handle_datagram. rewrite Cmd_parse_host by done. simpl.
  assert (match d_last_reply d !! src with
          | Some (command, req_id, rep) =>
              if (command =? HostCmd_opcode c) && (req_id =? id) then Some rep else None
          | None => None end = None) as ->.
  { destruct (d_last_reply d !! src) as [[[cm i] rep]|] eqn:El; [|done].
    destruct (_ && _) eqn:E; [|done]. exfalso. apply (Hf rep). rewrite El. repeat f_equal; lia. }
  rewrite He. simpl. rewrite Hr.
  replace (negb (HostCmd_opcode c =? DISCOVERY_CMD)) with true by (by destruct c). done.
Qed.

Lemma Ack_parse_ack status answer id payload :
  u16_ok status -> u16_ok answer -> u16_ok id -> zlen payload <= U16_MAX ->
  Ack_parse (ack status answer id payload) =
  Some {| ack_status := status; ack_answer := answer; ack_id := id; ack_payload := payload |}.
Proof.
  intros Hs Ha Hi Hp. pose proof (Ack_parse_encoded status answer id payload [] Hs Ha Hi Hp) as E.
  rewrite app_nil_r in E. rewrite <- E. f_equal. unfold ack, AckHeader_as_bytes. simpl.
  pose proof (zlen_nonneg payload). rewrite wrap_small by width_lia. by rewrite <- !app_assoc.
Qed.

(** ** Registers *)

(** A register the device stores as written: in range, aligned, and not the
    packet-size register of a device that rounds packet sizes down. *)
Definition plain_reg (d : GigeDevice) (a : Z) : Prop :=
  0 <= a /\ a + 4 <= zlen (d_mem d) /\ a mod 4 = 0 /\
  (a <> STREAM_CHANNEL_PACKET_SIZE \/ d_max_packet_size d = None).

Lemma aligned_apart a b : a mod 4 = 0 -> b mod 4 = 0 -> a <> b -> b + 4 <= a \/ a + 4 <= b.
Proof. intros Ha Hb Hne. pose proof (Z.div_mod a 4). pose proof (Z.div_mod b 4). lia. Qed.

Lemma write_registers_loop_plain pairs d ft st :
  dev_ok d -> Forall (fun '(a, v) => plain_reg d a /\ u32_ok v) pairs -> NoDup pairs.*1 ->
  exists d' r, write_registers_loop d pairs ft st = Some (d', Some r) /\ dev_ok d' /\
    d_last_reply d' = d_last_reply d /\
    (forall a v, (a, v) ∈ pairs -> read_reg d' a = Some v) /\
    (forall b, b mod 4 = 0 -> b ∉ pairs.*1 -> read_reg d' b = read_reg d b).
Proof.
  revert d ft st. induction pairs as [|[a v] pairs IH]; intros d ft st Hd Hp Hnd.
  { do 2 eexists. split; [done|]. split_and!; try done. by intros a v ?%elem_of_nil. }
  apply Forall_cons in Hp as [[(Ha & Hl & Hm & Hs) Hv] Hp]. rewrite fmap_cons in Hnd.
  apply NoDup_cons in Hnd as [Hni Hnd]. simpl. simpl in Hni.
  replace (_ <? _) with false by lia.
  match goal with |- context [write_reg d a ?w] => assert (w = v) as -> end.
  { destruct (a =? _) eqn:E; [|done]. destruct Hs as [?|Hs]; [lia|by rewrite Hs]. }
  destruct (write_reg_ok d a v Hd Ha Hl) as (d1 & Hw & Hd1 & Hr1 & Hm1). rewrite Hw. cbn [mbind option_bind].
  assert (zlen (d_mem d1) = zlen (d_mem d) /\ d_max_packet_size d1 = d_max_packet_size d) as [E1 E2].
  { unfold write_reg, mem_write in Hw. destruct (get_range _ _ _); [|discriminate]. injection Hw as <-. simpl.
    split; [|done]. rewrite zlen_splice; [done|done|]. by rewrite zlen_be_encode. }
  match goal with |- context [write_registers_loop d1 pairs ?x ?y] =>
    destruct (IH d1 x y) as (d' & r & -> & Hd' & Hr' & Hin & Hout) end.
  - done.
  - eapply Forall_impl; [exact Hp|]. intros [b w] [(? & ? & ? & ?) ?]. split; [|done].
    unfold plain_reg. rewrite E1, E2. done.
  - done.
  - do 2 eexists. split; [done|]. split_and!; [done|congruence| |].
    + intros b w Hbw. apply elem_of_cons in Hbw as [[= -> ->]|Hbw]; [|by apply Hin].
      rewrite Hout by done. by eapply read_write_reg.
    + intros b Hb Hnb. apply not_elem_of_cons in Hnb as [Hab Hnb].
      rewrite Hout by done. eapply read_write_reg_other; [exact Ha|exact Hl| |exact Hm1].
      by apply aligned_apart.
Qed.

Lemma read_registers_values_ok d addrs vs :
  dev_ok d -> Forall (fun a => u32_ok a /\ a + 4 <= zlen (d_mem d)) addrs ->
  Forall2 (fun a v => read_reg d a = Some v) addrs vs ->
  read_registers_values d (chunks4 (addrs ≫= be_encode 4)) = Some (Some (vs ≫= be_encode 4)).
Proof.
  intros Hd Ha Hv. induction Hv as [|a v addrs vs Hav _ IH]; [done|].
  apply Forall_cons in Ha as [[Ha Hl] Hall]. rewrite !bind_cons, chunks4_be_encode_4.
  cbn [read_registers_values]. rewrite be_decode_encode4 by done. replace (_ <? _) with false by lia.
  unfold read_reg in Hav. apply fmap_Some in Hav as (b & Hb & ->). rewrite Hb, IH by done.
  cbn [mbind option_bind]. do 3 f_equal.
  apply get_range_Some in Hb as Hb'. destruct Hb' as (_ & _ & Hlen & _).
  pose proof (be_encode_decode b (get_range_ok _ _ _ _ Hb (dv_bytes d Hd))) as E.
  replace (length b) with 4%nat in E by (unfold zlen in Hlen; lia). by rewrite E.
Qed.

Lemma chunks8_pairs pairs :
  Forall (fun '(a, v) => u32_ok a /\ u32_ok v) pairs ->
  chunks8 (pairs ≫= fun '(a, v) => be_encode 4 a ++ be_encode 4 v) = pairs.
Proof.
  induction 1 as [|[a v] pairs [Ha Hv] _ IH]; [done|]. rewrite bind_cons.
  destruct (be_encode_4_shape a) as (a3 & a2 & a1 & a0 & Ea), (be_encode_4_shape v) as (v3 & v2 & v1 & v0 & Ev).
  pose proof (be_decode_encode4 a Ha) as Da. pose proof (be_decode_encode4 v Hv) as Dv.
  rewrite Ea, Ev in *. simpl. by rewrite Da, Dv, IH.
Qed.

(** A fresh READREG of registers inside the memory reports their values, and
    the driver's parser finds them. *)
Lemma handle_read_regs d src addrs vals id :
  dev_ok d -> Forall (fun a => 0 <= a /\ a + 4 <= MEM_SIZE) addrs -> Forall u32_ok vals ->
  Forall2 (fun a v => read_reg d a = Some v) addrs vals -> 4 * zlen addrs <= U16_MAX -> u16_ok id ->
  fresh d src (HReadReg addrs) id ->
  exists d2 reply p, handle_datagram d (encode_read_reg addrs id) src = Some (d2, Reaction_reply reply) /\
    Ack_parse reply = Some p /\ ack_status p = STATUS_SUCCESS /\ ack_answer p = READ_REGISTER_ACK /\
    ack_id p = id /\ register_values p = vals.
Proof.
  intros Hd Ha Hv Hr Hlen Hid Hf. pose proof (Forall2_length _ _ _ Hr) as Hl.
  assert (zlen (vals ≫= be_encode 4) <= U16_MAX) as Hfit by (rewrite zlen_bind_be4; unfold zlen in *; lia).
  set (reply := ack STATUS_SUCCESS READ_REGISTER_ACK id (vals ≫= be_encode 4)).
  do 3 eexists. split.
  { apply (handle_fresh d src (HReadReg addrs) id (d <| d_ctrl_peer := Some src |>) (Reaction_reply reply) reply); [|done..| |done].
    - split; [|done]. eapply Forall_impl; [exact Ha|]. unfold MEM_SIZE. intros; width_lia.
    - unfold execute, read_registers, host_cmd. simpl.
      rewrite (read_registers_values_ok _ addrs vals); [done|by destruct Hd| |exact Hr].
      eapply Forall_impl; [exact Ha|]. intros a [? ?]. simpl. rewrite (dv_len _ Hd). unfold MEM_SIZE in *. split; [width_lia|lia]. }
  split; [by apply Ack_parse_ack; [const_range|const_range|done|]|]. split_and!; [done..|].
  unfold register_values. simpl. rewrite <- (app_nil_r (_ ≫= _)), decode_words_bind by done. simpl. by rewrite app_nil_r.
Qed.

(** C39: registers written with one WRITEREG command read back with one READREG
    command, when they are distinct registers that the device stores as written
    ([plain_reg]), the values are 32 bits wide, the list fits a datagram and the
    device has not just answered this peer under the request id of the write:
    the device acknowledges both under the request ids of the commands, and the
    driver's parser finds exactly the values written. *)
Theorem registers_write_then_read (d : GigeDevice) (src : SocketAddr) (pairs : list (Z * Z)) (id1 id2 : Z) :
  dev_ok d -> Forall (fun '(a, v) => plain_reg d a /\ u32_ok v) pairs -> NoDup pairs.*1 ->
  8 * zlen pairs <= U16_MAX -> u16_ok id1 -> u16_ok id2 -> fresh d src (HWriteReg pairs) id1 ->
  exists d1 r1 a1 p1 d2 r2 a2 p2,
    handle_datagram d (encode_write_reg pairs id1) src = Some (d1, r1) /\ re_reply r1 = Some a1 /\
    Ack_parse a1 = Some {| ack_status := STATUS_SUCCESS; ack_answer := WRITE_REGISTER_ACK;
                           ack_id := id1; ack_payload := p1 |} /\
    handle_datagram d1 (encode_read_reg pairs.*1 id2) src = Some (d2, r2) /\ re_reply r2 = Some a2 /\
    Ack_parse a2 = Some p2 /\ ack_status p2 = STATUS_SUCCESS /\ ack_answer p2 = READ_REGISTER_ACK /\
    ack_id p2 = id2 /\ register_values p2 = pairs.*2.
Proof.
  intros Hd Hp Hnd Hlen Hid1 Hid2 Hf. pose proof (dv_len d Hd) as Hml.
  assert (Forall (fun '(a, v) => u32_ok a /\ u32_ok v) pairs) as Hw.
  { eapply Forall_impl; [exact Hp|]. unfold MEM_SIZE in Hml. intros [a v] [(? & ? & _) ?]. split; [width_lia|done]. }
  set (d0 := d <| d_ctrl_peer := Some src |>).
  assert (dev_ok d0) as Hd0 by (by destruct Hd).
  destruct (write_registers_loop_plain pairs d0 None false Hd0 Hp Hnd) as (d1 & [ft st] & Hloop & Hd1 & Hl1 & Hin & _).
  set (reply1 := ack STATUS_SUCCESS WRITE_REGISTER_ACK id1 (be_encode 4 (wrap 32 (zlen (HostCmd_payload (HWriteReg pairs)) / 8)))).
  set (d1' := d1 <| d_last_reply ::= <[src := (WRITE_REGISTER_CMD, id1, reply1)]> |>).
  assert (dev_ok d1') as Hd1' by (by destruct Hd1).
  destruct (handle_read_regs d1' src pairs.*1 pairs.*2 id2) as (d2 & reply2 & p2 & H2); [done| | | | |done| |].
  { apply Forall_fmap. eapply Forall_impl; [exact Hp|]. intros [a v] [(? & ? & _) _]. simpl. lia. }
  { apply Forall_fmap. eapply Forall_impl; [exact Hw|]. intros [a v] [_ ?]. done. }
  { apply Forall2_fmap, Forall_Forall2_diag, Forall_forall. intros [a v] Hav. by apply Hin. }
  { unfold zlen in *. rewrite length_fmap. lia. }
  { intros rep. unfold d1'. simpl. rewrite lookup_insert_eq. discriminate. }
  do 8 eexists. split.
  { apply (handle_fresh d src (HWriteReg pairs) id1 d1
      {| re_reply := Some reply1; re_fire_test := ft; re_acquisition_started := st; re_resend := None |} reply1); [done..| |done].
    unfold execute, write_registers, host_cmd. simpl. rewrite chunks8_pairs by done. fold d0. rewrite Hloop. done. }
  split; [done|]. split; [apply Ack_parse_ack; [const_range..|done|by rewrite zlen_be_encode]|].
  destruct H2 as (H2 & ?). split; [exact H2|]. by split.
Qed.

(** Two registers of a blank device: the stream channel's port and address. *)
Definition ex_pairs : list (Z * Z) := [(STREAM_CHANNEL_PORT, 40010); (STREAM_CHANNEL_DEST_ADDRESS, 0x0a000005)].

Lemma ex_pairs_plain : Forall (fun '(a, v) => plain_reg blank_device a /\ u32_ok v) ex_pairs.
Proof.
  unfold ex_pairs, plain_reg. rewrite (dv_len _ blank_device_ok).
  repeat apply Forall_cons_2; [| |constructor];
    (split; [split_and!; [done|by vm_compute|done|by right]|const_range]).
Qed.

Lemma registers_write_then_read_witness :
  exists d1 r1 a1 p1 d2 r2 a2 p2,
    handle_datagram blank_device (encode_write_reg ex_pairs 7) (1, 2) = Some (d1, r1) /\ re_reply r1 = Some a1 /\
    Ack_parse a1 = Some {| ack_status := STATUS_SUCCESS; ack_answer := WRITE_REGISTER_ACK;
                           ack_id := 7; ack_payload := p1 |} /\
    handle_datagram d1 (encode_read_reg ex_pairs.*1 8) (1, 2) = Some (d2, r2) /\ re_reply r2 = Some a2 /\
    Ack_parse a2 = Some p2 /\ ack_status p2 = STATUS_SUCCESS /\ ack_answer p2 = READ_REGISTER_ACK /\
    ack_id p2 = 8 /\ register_values p2 = [40010; 0x0a000005].
Proof.
  apply (registers_write_then_read blank_device (1, 2) ex_pairs 7 8);
    [apply blank_device_ok|apply ex_pairs_plain| |by vm_compute|const_range|const_range|].
  - by apply (bool_decide_eq_true_1 _).
  - by intros reply.
Defined.

Lemma retransmission_idempotent_witness :
  exists d1 reply, handle_all d1 (replicate 2 (encode_write_reg ex_pairs 7, (1, 2))) =
    Some (repeated d1 (1, 2) 2, replicate 2 (Reaction_reply reply)).
Proof.
  pose proof blank_device_ok as Hd.
  destruct (handle_datagram_ok blank_device (encode_write_reg ex_pairs 7) (1, 2) Hd) as (d1 & r & Hh & _).
  { by apply bytes_ok_dec_true. }
  assert (exists reply, re_reply r = Some reply) as [reply Hr].
  { revert Hh. unfold handle_datagram. change (encode_write_reg ex_pairs 7) with (HostCmd_encode (HWriteReg ex_pairs) 7).
    rewrite Cmd_parse_host; [|split; [|by vm_compute]|const_range].
    - cbn [d_last_reply blank_device set]. change (d_last_reply _ !! _) with (None (A := Z * Z * bytes)).
      cbv iota. unfold execute. cbn [cmd_command host_cmd HostCmd_opcode].
      change (WRITE_REGISTER_CMD =? DISCOVERY_CMD) with false. change (WRITE_REGISTER_CMD =? READ_REGISTER_CMD) with false.
      change (WRITE_REGISTER_CMD =? WRITE_REGISTER_CMD) with true. cbv iota. unfold write_registers.
      destruct (write_registers_loop _ _ _ _) as [[d' [[ft st]|]]|]; cbn [mbind option_bind]; [| |discriminate].
      + intros [= <- <-]. eauto.
      + intros [= <- <-]. eauto.
    - unfold ex_pairs. repeat apply Forall_cons_2; [| |constructor]; split; const_range. }
  exists d1, reply.
  eapply (retransmission_idempotent 1 blank_device d1 _ (1, 2) r reply (host_cmd (HWriteReg ex_pairs) 7)); [|done|exact Hh|exact Hr].
  change (encode_write_reg ex_pairs 7) with (HostCmd_encode (HWriteReg ex_pairs) 7).
  apply Cmd_parse_host; [split; [|by vm_compute]|const_range].
  unfold ex_pairs. repeat apply Forall_cons_2; [| |constructor]; split; const_range.
Defined.

(** ** Memory and resends *)

(** A block written with WRITEMEM reads back with READMEM: the acknowledge
    carries the address and exactly the bytes written. *)
Theorem memory_write_then_read (d : GigeDevice) (src : SocketAddr) (addr : Z) (data : bytes) (id1 id2 : Z) :
  dev_ok d -> 0 <= addr -> addr + zlen data <= zlen (d_mem d) -> bytes_ok data ->
  zlen data <= DATA_SIZE_MAX -> u16_ok id1 -> u16_ok id2 -> fresh d src (HWriteMem addr data) id1 ->
  exists d1 r1 a1 p1 d2 r2 a2,
    handle_datagram d (encode_write_mem addr data id1) src = Some (d1, r1) /\ re_reply r1 = Some a1 /\
    Ack_parse a1 = Some {| ack_status := STATUS_SUCCESS; ack_answer := WRITE_MEMORY_ACK;
                           ack_id := id1; ack_payload := p1 |} /\
    handle_datagram d1 (encode_read_mem addr (zlen data) id2) src = Some (d2, r2) /\ re_reply r2 = Some a2 /\
    Ack_parse a2 = Some {| ack_status := STATUS_SUCCESS; ack_answer := READ_MEMORY_ACK;
                           ack_id := id2; ack_payload := be_encode 4 addr ++ data |}.
Proof.
  intros Hd Ha Hl Hb Hs Hid1 Hid2 Hf. pose proof (dv_len d Hd) as Hml. unfold MEM_SIZE, DATA_SIZE_MAX in *.
  pose proof (zlen_nonneg data) as Hd0.
  assert (HostCmd_ok (HWriteMem addr data)) as Hc1 by (split; [width_lia|done]).
  assert (HostCmd_ok (HReadMem addr (zlen data))) as Hc2 by (split; width_lia).
  set (d0 := d <| d_ctrl_peer := Some src |>). assert (dev_ok d0) as Hd0k by (by destruct Hd).
  destruct (mem_write_ok d0 addr data Hd0k Ha Hl Hb) as [Hw Hd1].
  set (d1 := d0 <| d_mem ::= fun m => splice m addr data |>) in *.
  set (reply1 := ack STATUS_SUCCESS WRITE_MEMORY_ACK id1 (be_encode 4 (wrap 32 (zlen data)))).
  set (d1' := d1 <| d_last_reply ::= <[src := (WRITE_MEMORY_CMD, id1, reply1)]> |>).
  set (reply2 := ack STATUS_SUCCESS READ_MEMORY_ACK id2 (be_encode 4 addr ++ data)).
  assert (mem_read d1' addr (zlen data) = Some data) as Hread.
  { unfold mem_read. simpl. apply get_range_splice_same; [done|exact Hl]. }
  do 7 eexists. split.
  { apply (handle_fresh d src (HWriteMem addr data) id1 d1 (Reaction_reply reply1) reply1); [done..| |done].
    unfold execute, write_memory, host_cmd. cbn [cmd_command HostCmd_opcode HostCmd_payload cmd_payload].
    simpl. rewrite get_to_app by (by rewrite zlen_be_encode). simpl. rewrite be_decode_encode4 by width_lia.
    rewrite get_from_app by (by rewrite zlen_be_encode). simpl.
    replace (_ <? _) with false by lia. fold d0. rewrite Hw. done. }
  split; [done|]. split.
  { apply (Ack_parse_ack _ _ id1 (be_encode 4 _)); [const_range..|done|by rewrite zlen_be_encode]. }
  split.
  { apply (handle_fresh d1' src (HReadMem addr (zlen data)) id2 (d1' <| d_ctrl_peer := Some src |>)
             (Reaction_reply reply2) reply2); [done|done| | |done].
    - intros rep. unfold d1'. simpl. rewrite lookup_insert_eq. discriminate.
    - unfold execute, read_memory, host_cmd. simpl.
      rewrite get_to_app by (by rewrite zlen_be_encode). simpl. rewrite be_decode_encode4 by width_lia.
      pose proof (get_range_app (be_encode 4 addr) (be_encode 4 (zlen data)) [] 4 8) as Hr.
      rewrite app_nil_r, !zlen_be_encode in Hr. rewrite Hr by done. simpl. rewrite be_decode_encode4 by width_lia.
      change 65535 with (Z.ones 16). rewrite Z.land_ones, Z.mod_small by lia.
      replace (zlen (splice _ _ _)) with (zlen (d_mem d)) by (symmetry; apply zlen_splice; [done|exact Hl]).
      unfold DATA_SIZE_MAX. replace (_ || _) with false by lia.
      change (mem_read _ addr (zlen data)) with (mem_read d1' addr (zlen data)). rewrite Hread. simpl.
      rewrite wrap_small by lia. done. }
  split; [done|].
  apply (Ack_parse_ack _ _ id2 (be_encode 4 addr ++ data)); [const_range..|done|].
  rewrite zlen_app, zlen_be_encode. width_lia.
Qed.

Lemma memory_write_then_read_witness :
  exists d1 r1 a1 p1 d2 r2 a2,
    handle_datagram blank_device (encode_write_mem 0xfff0 [1; 2; 3] 7) (1, 2) = Some (d1, r1) /\ re_reply r1 = Some a1 /\
    Ack_parse a1 = Some {| ack_status := STATUS_SUCCESS; ack_answer := WRITE_MEMORY_ACK;
                           ack_id := 7; ack_payload := p1 |} /\
    handle_datagram d1 (encode_read_mem 0xfff0 3 9) (1, 2) = Some (d2, r2) /\ re_reply r2 = Some a2 /\
    Ack_parse a2 = Some {| ack_status := STATUS_SUCCESS; ack_answer := READ_MEMORY_ACK;
                           ack_id := 9; ack_payload := be_encode 4 0xfff0 ++ [1; 2; 3] |}.
Proof.
  apply (memory_write_then_read blank_device (1, 2) 0xfff0 [1; 2; 3] 7 9);
    [apply blank_device_ok|done|by rewrite (dv_len _ blank_device_ok)|by apply bytes_ok_dec_true|done|const_range|const_range|].
  by intros reply.
Defined.

(** A resend request the receiver sends reaches a device that supports
    resends as the same block and the same packet range, in both id layouts;
    it draws no acknowledge and changes nothing but the peer. *)
Theorem resend_request_understood (d : GigeDevice) (src : SocketAddr) (frame_id first last id caps : Z)
    (ext : bool) :
  dev_ok d -> HostCmd_ok (HResend frame_id first last ext) -> u16_ok id ->
  (ext = false -> u16_ok frame_id) -> fresh d src (HResend frame_id first last ext) id ->
  read_reg d GVCP_CAPABILITY = Some caps -> Z.testbit caps 2 = true ->
  exists r, handle_datagram d (encode_packet_resend frame_id first last ext id) src = Some (d <| d_ctrl_peer := Some src |>, r) /\
    re_resend r = Some {| rr_frame_id := frame_id; rr_first_packet := first; rr_last_packet := last |} /\
    re_reply r = None.
Proof.
  intros Hd Hc Hid Hf16 Hf Hcaps Hbit.
  pose proof (Cmd_parse_host (HResend frame_id first last ext) id Hc Hid) as Hp.
  unfold handle_datagram. cbn [HostCmd_encode] in Hp. rewrite Hp. simpl.
  assert (match d_last_reply d !! src with
          | Some (command, req_id, rep) =>
              if (command =? PACKET_RESEND_CMD) && (req_id =? id) then Some rep else None
          | None => None end = None) as ->.
  { destruct (d_last_reply d !! src) as [[[cm i] rep]|] eqn:El; [|done].
    destruct (_ && _) eqn:E; [|done]. exfalso. apply (Hf rep). rewrite El. repeat f_equal; simpl; lia. }
  unfold execute, packet_resend. simpl.
  change (read_reg _ GVCP_CAPABILITY) with (read_reg d GVCP_CAPABILITY). rewrite Hcaps. simpl.
  assert ((Z.land caps CAP_PACKET_RESEND =? 0) = false) as ->.
  { change CAP_PACKET_RESEND with (2 ^ 2). rewrite land_pow2_eqb by lia. by rewrite Hbit. }
  destruct ext; simpl; destruct Hc as (Hc1 & Hc2 & Hc3); unfold word_at.
  - set (p := be_encode 4 0 ++ _).
    assert (get_range p 12 20 = Some (be_encode 8 frame_id)) as -> by (unfold p; by read_field).
    assert (get_range p 4 (4 + 4) = Some (be_encode 4 first)) as -> by (unfold p; by read_field).
    assert (get_range p 8 (8 + 4) = Some (be_encode 4 last)) as -> by (unfold p; by read_field).
    simpl. rewrite !be_decode_encode4, be_decode_encode8 by done. eexists. by split_and!.
  - specialize (Hf16 eq_refl). change 0x00ffffff with (Z.ones 24). rewrite !Z.land_ones, !Z.mod_small by lia.
    rewrite wrap_small by width_lia. set (p := be_encode 4 frame_id ++ _).
    assert (get_range p 0 (0 + 4) = Some (be_encode 4 frame_id)) as -> by (unfold p; by read_field).
    assert (get_range p 4 (4 + 4) = Some (be_encode 4 first)) as -> by (unfold p; by read_field).
    assert (get_range p 8 (8 + 4) = Some (be_encode 4 last)) as -> by (unfold p; by read_field).
    simpl. rewrite !be_decode_encode4 by width_lia. unfold PACKET_ID_MASK.
    change 0x00ffffff with (Z.ones 24). change 65535 with (Z.ones 16).
    rewrite !Z.land_ones, !Z.mod_small by width_lia. eexists. by split_and!.
Qed.

Lemma resend_request_understood_witness :
  let d := blank_device <| d_mem := splice (replicate (Z.to_nat MEM_SIZE) 0) GVCP_CAPABILITY [0; 0; 0; 4] |> in
  exists r, handle_datagram d (encode_packet_resend 0x1234 5 9 false 65301) (1, 2) = Some (d <| d_ctrl_peer := Some (1, 2) |>, r) /\
    re_resend r = Some {| rr_frame_id := 0x1234; rr_first_packet := 5; rr_last_packet := 9 |} /\
    re_reply r = None.
Proof.
  intros d. apply (resend_request_understood d (1, 2) 0x1234 5 9 65301 4 false).
  - destruct (mem_write_ok blank_device GVCP_CAPABILITY [0; 0; 0; 4]) as [_ H]; [apply blank_device_ok|done| | |].
    + by rewrite (dv_len _ blank_device_ok).
    + by apply bytes_ok_dec_true.
    + destruct H. by split.
  - split_and!; width_lia.
  - const_range.
  - intros _. const_range.
  - by intros reply.
  - eapply (read_write_reg blank_device d GVCP_CAPABILITY 4); [done| |const_range|reflexivity].
    by rewrite (dv_len _ blank_device_ok).
  - reflexivity.
Defined.
