(* ===== verification/Errors.v ===== *)
(** The transport's error type: the model of [CameraError] of
    [src/src/error.rs].  Error texts are replaced by what they report. *)

From S2P Require Import Prelude Gvcp Text Zip Url.

(** The texts of [CameraError::Protocol] the crate makes. *)
Inductive ProtocolError :=
| ExpectedAck (expected got : Z)
| EmptyReadRegisterAck
| RegisterCount (got expected : Z)
| ShortReadMemoryAck
| EmptyReadMemoryAck
| OpPayloadMismatch
| ReadAddressUnaligned
| WriteUnaligned
| AddressBeyond32Bit (address : Z)
| ShortMemoryRead
| MockReadOutOfRange (address : Z)
| MockWriteOutOfRange (address : Z)
| PayloadSizeUnset
| ShortBootstrapRead
| NoGenicamUrl
| BadXmlUrl (what : UrlError)
| XmlAddressBeyond32Bit
| XmlSizeOutOfRange (size : Z)
| BadXmlArchive (what : ZipError).

Inductive CameraError :=
| Io
| ConnectTimeout
| Disconnected
| Timeout
| ControlDenied
| ControlLost
| Nak (command : Z) (status : GvcpStatus)
| Protocol (what : ProtocolError)
| Unsupported
| Spawn
| InvalidOption.
