(* ===== verification/Control.v ===== *)
(** The control worker: the model of [src/src/gige/runner.rs], of the response
    handles of [src/src/handle.rs] and of the shared state and event parser of
    [src/src/gige/mod.rs].

    Callers hold numbered handles; [Handles] is the store of their write-once
    cells.  The environment of a run is explicit: the datagrams and clock
    readings of every pass, the commands callers submit, and the outcome of
    every send ([w_io], empty meaning that sends succeed).  [w_sent] is the
    trace of datagrams the kernel took.  A result of [None] is a panic. *)

From stdpp Require Import gmap.
From S2P Require Import Prelude Gvcp Gvsp Channel Frame Bootstrap Errors.

(** * Response handles *)

(** The value types of the handles. *)
Inductive RespVal :=
| RvReg (v : Z)
| RvRegs (vs : list Z)
| RvUnit
| RvBytes (b : bytes).

Abbreviation Response := (result CameraError RespVal) (only parsing).
Abbreviation Handles := (gmap nat (result CameraError RespVal)) (only parsing).

(** [OnceLock::set]: the first value stays. *)
Definition fulfill (hs : Handles) (h : nat) (v : Response) : Handles :=
  match hs !! h with Some _ => hs | None => <[h := v]> hs end.

Definition fail (hs : Handles) (h : nat) (e : CameraError) : Handles := fulfill hs h (Err e).

Definition is_set (hs : Handles) (h : nat) : bool := bool_decide (is_Some (hs !! h)).

(** [ResponseHandle::get]. *)
Definition get (hs : Handles) (h : nat) : Response :=
  match hs !! h with Some v => v | None => Err Timeout end.

(** * Counters and events *)

Record LinkStats := mkLinkStats {
  ls_commands : Z;
  ls_acks : Z;
  ls_retries : Z;
  ls_timeouts : Z;
  ls_naks : Z;
  ls_pending_acks : Z;
  ls_heartbeats : Z;
  ls_events : Z;
  ls_unsolicited : Z }.
Definition LinkStats_eta (r : LinkStats) : LinkStats := mkLinkStats (ls_commands r) (ls_acks r)
  (ls_retries r) (ls_timeouts r) (ls_naks r) (ls_pending_acks r) (ls_heartbeats r) (ls_events r)
  (ls_unsolicited r).
#[export] Instance set_ls_commands : Setter ls_commands := ltac:(derive_setter LinkStats_eta ls_commands).
#[export] Instance set_ls_acks : Setter ls_acks := ltac:(derive_setter LinkStats_eta ls_acks).
#[export] Instance set_ls_retries : Setter ls_retries := ltac:(derive_setter LinkStats_eta ls_retries).
#[export] Instance set_ls_timeouts : Setter ls_timeouts := ltac:(derive_setter LinkStats_eta ls_timeouts).
#[export] Instance set_ls_naks : Setter ls_naks := ltac:(derive_setter LinkStats_eta ls_naks).
#[export] Instance set_ls_pending_acks : Setter ls_pending_acks := ltac:(derive_setter LinkStats_eta ls_pending_acks).
#[export] Instance set_ls_heartbeats : Setter ls_heartbeats := ltac:(derive_setter LinkStats_eta ls_heartbeats).
#[export] Instance set_ls_events : Setter ls_events := ltac:(derive_setter LinkStats_eta ls_events).
#[export] Instance set_ls_unsolicited : Setter ls_unsolicited := ltac:(derive_setter LinkStats_eta ls_unsolicited).

Definition LinkStats_default : LinkStats := mkLinkStats 0 0 0 0 0 0 0 0 0.

(** [counter += 1]. *)
Definition bump (z : Z) : Z := z + 1.

Record GvcpEvent := {
  ev_command : Z; ev_event_id : Z; ev_stream_channel : Z; ev_block_id : Z; ev_timestamp : Z;
  ev_data : bytes; ev_raw : bytes }.

Definition GvcpEvent_parse (command : Z) (payload : bytes) : GvcpEvent :=
  {| ev_command := command;
     ev_event_id := field_at 2 payload 2;
     ev_stream_channel := field_at 2 payload 4;
     ev_block_id := field_at 2 payload 6;
     ev_timestamp := field_at 8 payload 8;
     ev_data := default [] (get_from payload 16);
     ev_raw := payload |}.

(** * Configuration *)

Record GigeConfig := {
  gc_gvcp_timeout : Z;
  gc_retries : Z;
  gc_heartbeat_timeout_ms : Z }.

Definition millis (ms : Z) : Z := ms * 1000000.

(** The timing fields of [GigeConfig::new]. *)
Definition GigeConfig_new : GigeConfig :=
  {| gc_gvcp_timeout := millis 500; gc_retries := 4; gc_heartbeat_timeout_ms := 3000 |}.

Definition PENDING_ACK_BUDGET : Z := millis 120000.

Definition heartbeat_period (cfg : GigeConfig) : Z :=
  Z.min (millis (Z.max (gc_heartbeat_timeout_ms cfg / 3) 10)) (millis 1000).

(** * Transactions *)

Inductive Op :=
| OpReadReg (handle : nat)
| OpReadRegs (handle : nat) (addrs acc : list Z)
| OpWriteRegs (handle : nat) (pairs : list (Z * Z)) (done : Z)
| OpReadMem (handle : nat) (acc : bytes) (want next_addr : Z)
| OpWriteMem (handle : nat) (data : bytes) (offset base_addr : Z)
| OpHeartbeat.

Definition op_handle (op : Op) : option nat :=
  match op with
  | OpReadReg h | OpReadRegs h _ _ | OpWriteRegs h _ _ | OpReadMem h _ _ _ | OpWriteMem h _ _ _ => Some h
  | OpHeartbeat => None
  end.

Definition Op_fail (hs : Handles) (op : Op) (e : CameraError) : Handles :=
  match op_handle op with Some h => fail hs h e | None => hs end.

Definition expected_ack (op : Op) : Z :=
  match op with
  | OpReadReg _ | OpReadRegs _ _ _ | OpHeartbeat => READ_REGISTER_ACK
  | OpWriteRegs _ _ _ => WRITE_REGISTER_ACK
  | OpReadMem _ _ _ _ => READ_MEMORY_ACK
  | OpWriteMem _ _ _ _ => WRITE_MEMORY_ACK
  end.

Definition is_heartbeat (op : Op) : bool := match op with OpHeartbeat => true | _ => false end.

Inductive PendingSend :=
| PsReadRegs (addrs : list Z)
| PsReadRegsChunk
| PsWriteRegsChunk
| PsReadMemChunk
| PsWriteMemChunk.

Record Inflight := mkInflight {
  in_sent : bytes; in_id : Z; in_deadline : Z; in_pending_limit : Z; in_tries_left : Z; in_op : Op }.

Definition chunk_len (remaining : Z) : Z := Z.min remaining DATA_SIZE_MAX.

Section worker.
Context {EC : Chan GvcpEvent}.

Inductive ToWorker :=
| TwReadReg (addr : Z) (handle : nat)
| TwReadRegs (addrs : list Z) (handle : nat)
| TwWriteRegs (pairs : list (Z * Z)) (handle : nat)
| TwReadMem (addr len : Z) (handle : nat)
| TwWriteMem (addr : Z) (data : bytes) (handle : nat)
| TwSubscribeEvents (tx : chan GvcpEvent)
| TwShutdown.

Context {WC : Chan ToWorker}.

Record Runner := mkRunner {
  w_device_addr : Z * Z;
  w_rx : chan ToWorker;
  w_cfg : GigeConfig;
  w_concatenation : bool;
  w_shared_control_lost : bool;
  w_stats : LinkStats;
  w_link : LinkCounters;
  w_queue : list Op;
  w_queued_payloads : list PendingSend;
  w_inflight : option Inflight;
  w_next_id : Z;
  w_event_txs : list (chan GvcpEvent);
  w_heartbeat_period : Z;
  w_heartbeat_due : Z;
  w_control_lost : bool;
  w_handles : Handles;
  w_sent : list (bytes * (Z * Z) * bool);
  w_io : list bool;
  w_died : bool }.

Definition Runner_eta (r : Runner) : Runner := mkRunner (w_device_addr r) (w_rx r) (w_cfg r)
  (w_concatenation r) (w_shared_control_lost r) (w_stats r) (w_link r) (w_queue r) (w_queued_payloads r)
  (w_inflight r) (w_next_id r) (w_event_txs r) (w_heartbeat_period r) (w_heartbeat_due r) (w_control_lost
  r) (w_handles r) (w_sent r) (w_io r) (w_died r).
#[export] Instance set_w_device_addr : Setter w_device_addr := ltac:(derive_setter Runner_eta w_device_addr).
#[export] Instance set_w_rx : Setter w_rx := ltac:(derive_setter Runner_eta w_rx).
#[export] Instance set_w_cfg : Setter w_cfg := ltac:(derive_setter Runner_eta w_cfg).
#[export] Instance set_w_concatenation : Setter w_concatenation := ltac:(derive_setter Runner_eta w_concatenation).
#[export] Instance set_w_shared_control_lost : Setter w_shared_control_lost := ltac:(derive_setter Runner_eta w_shared_control_lost).
#[export] Instance set_w_stats : Setter w_stats := ltac:(derive_setter Runner_eta w_stats).
#[export] Instance set_w_link : Setter w_link := ltac:(derive_setter Runner_eta w_link).
#[export] Instance set_w_queue : Setter w_queue := ltac:(derive_setter Runner_eta w_queue).
#[export] Instance set_w_queued_payloads : Setter w_queued_payloads := ltac:(derive_setter Runner_eta w_queued_payloads).
#[export] Instance set_w_inflight : Setter w_inflight := ltac:(derive_setter Runner_eta w_inflight).
#[export] Instance set_w_next_id : Setter w_next_id := ltac:(derive_setter Runner_eta w_next_id).
#[export] Instance set_w_event_txs : Setter w_event_txs := ltac:(derive_setter Runner_eta w_event_txs).
#[export] Instance set_w_heartbeat_period : Setter w_heartbeat_period := ltac:(derive_setter Runner_eta w_heartbeat_period).
#[export] Instance set_w_heartbeat_due : Setter w_heartbeat_due := ltac:(derive_setter Runner_eta w_heartbeat_due).
#[export] Instance set_w_control_lost : Setter w_control_lost := ltac:(derive_setter Runner_eta w_control_lost).
#[export] Instance set_w_handles : Setter w_handles := ltac:(derive_setter Runner_eta w_handles).
#[export] Instance set_w_sent : Setter w_sent := ltac:(derive_setter Runner_eta w_sent).
#[export] Instance set_w_io : Setter w_io := ltac:(derive_setter Runner_eta w_io).
#[export] Instance set_w_died : Setter w_died := ltac:(derive_setter Runner_eta w_died).

Definition count (s : Runner) (f : LinkStats -> LinkStats) : Runner := s <| w_stats ::= f |>.

Definition fulfill_handle (s : Runner) (h : nat) (v : Response) : Runner :=
  s <| w_handles ::= fun hs => fulfill hs h v |>.

Definition fail_op (s : Runner) (op : Op) (e : CameraError) : Runner :=
  s <| w_handles ::= fun hs => Op_fail hs op e |>.

(** The next outcome of the environment decides whether the send is taken. *)
Definition send_to (s : Runner) (datagram : bytes) (dst : Z * Z) (retry : bool) : bool * Runner :=
  match w_io s with
  | false :: io => (false, s <| w_io := io |>)
  | true :: io => (true, s <| w_io := io |> <| w_sent ::= fun l => l ++ [(datagram, dst, retry)] |>)
  | [] => (true, s <| w_sent ::= fun l => l ++ [(datagram, dst, retry)] |>)
  end.

Definition regs_per_command (s : Runner) (remaining : Z) : Z :=
  if w_concatenation s then remaining else Z.min remaining 1.

(** [a - b] on [usize]: [None] is the overflow panic. *)
Definition usize_sub (a b : Z) : option Z := if b <=? a then Some (a - b) else None.

(** The datagram for an operation; inside, [None] when the operation and the
    queued payload do not fit. *)
Definition encode_op (s : Runner) (op : Op) (send : PendingSend) (id : Z) : option (option bytes) :=
  match op, send with
  | _, PsReadRegs addrs => Some (Some (encode_read_reg addrs id))
  | OpReadRegs _ addrs acc, PsReadRegsChunk =>
      remaining ← usize_sub (zlen addrs) (zlen acc);
      let take := regs_per_command s remaining in
      part ← get_range addrs (zlen acc) (zlen acc + take);
      Some (Some (encode_read_reg part id))
  | OpWriteRegs _ pairs done, PsWriteRegsChunk =>
      remaining ← usize_sub (zlen pairs) done;
      let take := regs_per_command s remaining in
      part ← get_range pairs done (done + take);
      Some (Some (encode_write_reg part id))
  | OpReadMem _ acc want next_addr, PsReadMemChunk =>
      remaining ← usize_sub want (zlen acc);
      let count := chunk_len (next_multiple_of remaining 4) in
      Some (Some (encode_read_mem next_addr (wrap 16 count) id))
  | OpWriteMem _ data offset base_addr, PsWriteMemChunk =>
      remaining ← usize_sub (zlen data) offset;
      let take := chunk_len remaining in
      part ← get_range data offset (offset + take);
      Some (Some (encode_write_mem (wrap 32 (base_addr + wrap 32 offset)) part id))
  | _, _ => Some None
  end.

Definition send_op (s : Runner) (op : Op) (send : PendingSend) (now : Z) : option Runner :=
  let s := s <| w_next_id ::= next_id |> in
  let id := w_next_id s in
  encoded ← encode_op s op send id;
  match encoded with
  | None => Some (fail_op s op (Protocol OpPayloadMismatch))
  | Some datagram =>
      let '(ok, s) := send_to s datagram (w_device_addr s) false in
      if negb ok then Some (fail_op s op Io)
      else
        let s := count s (set ls_commands bump) in
        Some (s <| w_inflight := Some {|
                     in_sent := datagram; in_id := id;
                     in_deadline := now + gc_gvcp_timeout (w_cfg s);
                     in_pending_limit := now + PENDING_ACK_BUDGET;
                     in_tries_left := gc_retries (w_cfg s); in_op := op |} |>)
  end.

Definition enqueue (s : Runner) (op : Op) (send : PendingSend) : Runner :=
  s <| w_queue ::= fun q => q ++ [op] |> <| w_queued_payloads ::= fun q => q ++ [send] |>.

(** [VecDeque::insert(1, x)] panics on an empty deque. *)
Definition insert1 {A} (l : list A) (x : A) : option (list A) :=
  match l with y :: l => Some (y :: x :: l) | [] => None end.

Definition continue_op (s : Runner) (op : Op) (send : PendingSend) (now : Z) : option Runner :=
  match w_queue s with
  | OpHeartbeat :: _ =>
      queue ← insert1 (w_queue s) op;
      payloads ← insert1 (w_queued_payloads s) send;
      Some (s <| w_queue := queue |> <| w_queued_payloads := payloads |>)
  | _ => send_op s op send now
  end.

Definition pump (s : Runner) (now : Z) : option Runner :=
  match w_inflight s with
  | Some _ => Some s
  | None =>
      match w_queue s, w_queued_payloads s with
      | op :: queue, send :: payloads =>
          send_op (s <| w_queue := queue |> <| w_queued_payloads := payloads |>) op send now
      | _, _ => Some (s <| w_queue ::= tail |> <| w_queued_payloads ::= tail |>)
      end
  end.

(** ** Acknowledges *)

(** The last part of [on_ack]: the operation's own handling. *)
Definition finish_ack (s : Runner) (op : Op) (a : Ack) (now : Z) : option Runner :=
  match op with
  | OpReadReg h =>
      Some (match register_values a with
            | v :: _ => fulfill_handle s h (Ok (RvReg v))
            | [] => fulfill_handle s h (Err (Protocol EmptyReadRegisterAck))
            end)
  | OpReadRegs h addrs acc =>
      remaining ← usize_sub (zlen addrs) (zlen acc);
      let want := regs_per_command s remaining in
      let acc' := acc ++ register_values a in
      let got := zlen (register_values a) in
      if negb (got =? want) then Some (fulfill_handle s h (Err (Protocol (RegisterCount got want))))
      else if zlen acc' =? zlen addrs then Some (fulfill_handle s h (Ok (RvRegs acc')))
      else continue_op s (OpReadRegs h addrs acc') PsReadRegsChunk now
  | OpWriteRegs h pairs done =>
      remaining ← usize_sub (zlen pairs) done;
      let done := done + regs_per_command s remaining in
      if zlen pairs <=? done then Some (fulfill_handle s h (Ok RvUnit))
      else continue_op s (OpWriteRegs h pairs done) PsWriteRegsChunk now
  | OpReadMem h acc want next_addr =>
      match get_from (ack_payload a) 4 with
      | None => Some (fulfill_handle s h (Err (Protocol ShortReadMemoryAck)))
      | Some data =>
          room ← usize_sub want (zlen acc);
          let n := Z.min (zlen data) room in
          let acc := acc ++ take (Z.to_nat n) data in
          if want <=? zlen acc then Some (fulfill_handle s h (Ok (RvBytes acc)))
          else if zlen data =? 0 then Some (fulfill_handle s h (Err (Protocol EmptyReadMemoryAck)))
          else continue_op s (OpReadMem h acc want (wrap 32 (next_addr + wrap 32 n))) PsReadMemChunk now
      end
  | OpWriteMem h data offset base_addr =>
      remaining ← usize_sub (zlen data) offset;
      let offset := offset + chunk_len remaining in
      if zlen data <=? offset then Some (fulfill_handle s h (Ok RvUnit))
      else continue_op s (OpWriteMem h data offset base_addr) PsWriteMemChunk now
  | OpHeartbeat =>
      let s := count s (set ls_heartbeats bump) in
      let lost := match register_values a with
                  | ccp :: _ => Z.land ccp CCP_CONTROL =? 0
                  | [] => true
                  end in
      Some (if lost then s <| w_control_lost := true |> else s)
  end.

Definition on_ack (s : Runner) (f : Inflight) (a : Ack) (now : Z) : option Runner :=
  let s := count s (set ls_acks bump) in
  let op := in_op f in
  if is_error (ack_status a) then
    let s := count s (set ls_naks bump) in
    if is_heartbeat op then Some (s <| w_control_lost := true |>)
    else Some (fail_op s op (Nak (wrap 16 (expected_ack op - 1)) (ack_status a)))
  else if negb (ack_answer a =? expected_ack op) then
    Some (fail_op s op (Protocol (ExpectedAck (expected_ack op) (ack_answer a))))
  else finish_ack s op a now.

(** Deliver an event to every subscriber; disconnected ones are dropped. *)
Fixpoint event_fan_out (txs : list (chan GvcpEvent)) (e : GvcpEvent) : list (chan GvcpEvent) :=
  match txs with
  | [] => []
  | tx :: txs =>
      let '(outcome, tx) := try_send tx e in
      match outcome with
      | Channel.Disconnected => event_fan_out txs e
      | _ => tx :: event_fan_out txs e
      end
  end.

Definition on_event (s : Runner) (datagram : bytes) (src : Z * Z) : Runner :=
  match Cmd_parse datagram with
  | None => s
  | Some cmd =>
      if negb (cmd_command cmd =? EVENT_CMD) && negb (cmd_command cmd =? EVENTDATA_CMD) then s
      else
        let s := if negb (Z.land (cmd_flags cmd) FLAG_ACK_REQUIRED =? 0)
                 then snd (send_to s (encode_event_ack (cmd_command cmd) (cmd_req_id cmd)) src false)
                 else s in
        let s := count s (set ls_events bump) in
        s <| w_event_txs ::= fun txs => event_fan_out txs (GvcpEvent_parse (cmd_command cmd) (cmd_payload cmd)) |>
  end.

Definition on_datagram (s : Runner) (datagram : bytes) (src : Z * Z) (now : Z) : option Runner :=
  if is_cmd datagram then Some (on_event s datagram src)
  else
    match Ack_parse datagram with
    | None => Some s
    | Some a =>
        match w_inflight s with
        | None => Some (count s (set ls_unsolicited bump))
        | Some f =>
            if negb (ack_id a =? in_id f) then Some (count s (set ls_unsolicited bump))
            else
              match pending_ack_timeout_ms a with
              | Some ms =>
                  let extended := now + millis ms in
                  let deadline := Z.min extended (Z.max (in_pending_limit f) (in_deadline f)) in
                  let s := s <| w_inflight := Some (mkInflight (in_sent f) (in_id f) deadline
                                                      (in_pending_limit f) (in_tries_left f) (in_op f)) |> in
                  Some (count s (set ls_pending_acks bump))
              | None => on_ack (s <| w_inflight := None |>) f a now
              end
        end
    end.

(** What the receive call reports for one datagram, with the clock at that
    time. *)
Inductive Recv :=
| CtlDatagram (from : Z * Z) (datagram : bytes) (now : Z)
| CtlWouldBlock
| CtlInterrupted
| CtlReset
| CtlFailed.

Fixpoint ctl_drain_socket (s : Runner) (input : list Recv) : option Runner :=
  match input with
  | [] => Some s
  | CtlDatagram from datagram now :: input =>
      if negb (fst from =? fst (w_device_addr s)) then ctl_drain_socket s input
      else s ← on_datagram s datagram from now; ctl_drain_socket s input
  | CtlWouldBlock :: _ => Some s
  | CtlInterrupted :: input | CtlReset :: input => ctl_drain_socket s input
  | CtlFailed :: _ => Some s
  end.

(** ** Commands *)

(** One message; [true] asks for the shutdown.  Lengths are [u32]s. *)
Definition on_command (s : Runner) (msg : ToWorker) : bool * Runner :=
  match msg with
  | TwReadReg addr h => (false, enqueue s (OpReadReg h) (PsReadRegs [addr]))
  | TwReadRegs addrs h => (false, enqueue s (OpReadRegs h addrs []) PsReadRegsChunk)
  | TwWriteRegs pairs h => (false, enqueue s (OpWriteRegs h pairs 0) PsWriteRegsChunk)
  | TwReadMem addr len h => (false, enqueue s (OpReadMem h [] (wrap 32 len) addr) PsReadMemChunk)
  | TwWriteMem addr data h => (false, enqueue s (OpWriteMem h data 0 addr) PsWriteMemChunk)
  | TwSubscribeEvents tx => (false, s <| w_event_txs ::= fun l => l ++ [tx] |>)
  | TwShutdown => (true, s)
  end.

Fixpoint ctl_drain_commands_n (n : nat) (s : Runner) : bool * Runner :=
  match n with
  | O => (false, s)
  | S n =>
      match try_recv (w_rx s) with
      | None => (false, s)
      | Some (msg, rx) =>
          let '(stop, s) := on_command (s <| w_rx := rx |>) msg in
          if stop : bool then (true, s) else ctl_drain_commands_n n s
      end
  end.

Definition ctl_drain_commands (s : Runner) : bool * Runner :=
  ctl_drain_commands_n (length (contents (w_rx s))) s.

(** ** Timers *)

(** [now] and [now'] are the two clock readings of the function. *)
Definition check_inflight_deadline (s : Runner) (now now' : Z) : Runner :=
  match w_inflight s with
  | None => s
  | Some f =>
      if now <? in_deadline f then s
      else if 0 <? in_tries_left f then
        let s := s <| w_inflight := Some (mkInflight (in_sent f) (in_id f) (now' + gc_gvcp_timeout (w_cfg s))
                                            (in_pending_limit f) (in_tries_left f - 1) (in_op f)) |> in
        let s := count s (set ls_retries bump) in
        let s := s <| w_link ::= link_retransmit |> in
        snd (send_to s (in_sent f) (w_device_addr s) true)
      else
        let s := count s (set ls_timeouts bump) in
        let s := s <| w_inflight := None |> in
        if is_heartbeat (in_op f) then s <| w_control_lost := true |>
        else fail_op s (in_op f) Timeout
  end.

Definition pending_heartbeat (s : Runner) : bool :=
  match w_inflight s with Some f => is_heartbeat (in_op f) | None => false end
  || existsb is_heartbeat (w_queue s).

Definition check_heartbeat (s : Runner) (now now' : Z) : Runner :=
  if now <? w_heartbeat_due s then s
  else
    let s := s <| w_heartbeat_due := now' + w_heartbeat_period s |> in
    if pending_heartbeat s then s
    else s <| w_queue ::= cons OpHeartbeat |>
           <| w_queued_payloads ::= cons (PsReadRegs [CONTROL_CHANNEL_PRIVILEGE]) |>.

(** ** Shutdown *)

Definition clone_err (e : CameraError) : CameraError :=
  match e with ControlLost => ControlLost | _ => Disconnected end.

Definition fail_message (hs : Handles) (msg : ToWorker) (e : CameraError) : Handles :=
  match msg with
  | TwReadReg _ h | TwReadRegs _ h | TwWriteRegs _ h | TwReadMem _ _ h | TwWriteMem _ _ h => fail hs h e
  | TwSubscribeEvents _ | TwShutdown => hs
  end.

(** ** The submission side

    [ControlPort::send] and [submit]: a message the channel refuses fails its
    handle. *)

Definition submit (s : Runner) (msg : ToWorker) : Runner :=
  let '(outcome, rx) := try_send (w_rx s) msg in
  let s := s <| w_rx := rx |> in
  match outcome with
  | Sent => s
  | _ => s <| w_handles ::= fun hs => fail_message hs msg Disconnected |>
  end.

Definition port_read_register (s : Runner) (addr : Z) (h : nat) : Runner := submit s (TwReadReg addr h).
Definition port_read_registers (s : Runner) (addrs : list Z) (h : nat) : Runner := submit s (TwReadRegs addrs h).
Definition port_write_register (s : Runner) (addr value : Z) (h : nat) : Runner :=
  submit s (TwWriteRegs [(addr, value)] h).
Definition port_write_registers (s : Runner) (pairs : list (Z * Z)) (h : nat) : Runner :=
  submit s (TwWriteRegs pairs h).

Definition port_read_memory (s : Runner) (addr len : Z) (h : nat) : Runner :=
  if negb (addr mod 4 =? 0) then fulfill_handle s h (Err (Protocol ReadAddressUnaligned))
  else submit s (TwReadMem addr len h).

Definition port_write_memory (s : Runner) (addr : Z) (data : bytes) (h : nat) : Runner :=
  if negb (addr mod 4 =? 0) || negb (zlen data mod 4 =? 0)
  then fulfill_handle s h (Err (Protocol WriteUnaligned))
  else submit s (TwWriteMem addr data h).

(** ** Teardown *)

(** [late] are the messages callers send after the worker has left its loop
    and before its last look at the channel. *)
Definition shutdown (s : Runner) (late : list ToWorker) : Runner :=
  let err := if w_control_lost s then ControlLost else Disconnected in
  let s := if w_control_lost s then s <| w_shared_control_lost := true |> else s in
  let s := match w_inflight s with
           | Some f => fail_op (s <| w_inflight := None |>) (in_op f) (clone_err err)
           | None => s
           end in
  let s := foldl (fun s op => fail_op s op (clone_err err)) s (w_queue s) in
  let s := s <| w_queue := [] |> <| w_queued_payloads := [] |> in
  let s := if negb (w_control_lost s) then
             let s := s <| w_next_id ::= next_id |> in
             snd (send_to s (encode_write_reg [(CONTROL_CHANNEL_PRIVILEGE, 0)] (w_next_id s)) (w_device_addr s) false)
           else s in
  let s := s <| w_event_txs := [] |> <| w_died := true |> in
  let s := foldl submit s late in
  let '(msgs, rx) := recv_all (w_rx s) in
  s <| w_rx := rx |> <| w_handles ::= fun hs => foldl (fun hs m => fail_message hs m (clone_err err)) hs msgs |>.

(** ** The loop *)

Record CtlPass := {
  cp_commands : list ToWorker;
  cp_input : list Recv;
  cp_deadline : Z * Z;
  cp_heartbeat : Z * Z;
  cp_pump : Z }.

(** One turn of the loop; [false] leaves it. *)
Definition ctl_pass (s : Runner) (p : CtlPass) : option (bool * Runner) :=
  s ← ctl_drain_socket s (cp_input p);
  let '(stop, s) := ctl_drain_commands s in
  if stop then Some (false, s)
  else
    let s := check_inflight_deadline s (fst (cp_deadline p)) (snd (cp_deadline p)) in
    let s := check_heartbeat s (fst (cp_heartbeat p)) (snd (cp_heartbeat p)) in
    s ← pump s (cp_pump p);
    Some (negb (w_control_lost s), s).

(** The loop until a shutdown, a loss of control or the end of [passes] (the
    owner asks the thread to stop), then the teardown, which also sees the
    commands callers had still to send. *)
Fixpoint ctl_run (s : Runner) (passes : list CtlPass) (late : list ToWorker) : option Runner :=
  match passes with
  | [] => Some (shutdown s late)
  | p :: passes =>
      '((again, s) : bool * Runner) ← ctl_pass (foldl submit s (cp_commands p)) p;
      if again then ctl_run s passes late
      else Some (shutdown s (concat (cp_commands <$> passes) ++ late))
  end.

Definition Runner_new (device_addr : Z * Z) (rx : chan ToWorker) (cfg : GigeConfig) (concatenation : bool)
    (now : Z) (handles : Handles) (io : list bool) : Runner :=
  {| w_device_addr := device_addr; w_rx := rx; w_cfg := cfg; w_concatenation := concatenation;
     w_shared_control_lost := false; w_stats := LinkStats_default; w_link := LinkCounters_default;
     w_queue := []; w_queued_payloads := []; w_inflight := None; w_next_id := 0; w_event_txs := [];
     w_heartbeat_period := heartbeat_period cfg; w_heartbeat_due := now + heartbeat_period cfg;
     w_control_lost := false; w_handles := handles; w_sent := []; w_io := io; w_died := false |}.

(** The sums of a clock reading and a duration that the worker may compute are
    instants: the acknowledge timeout, the budget of pending acknowledges, the
    heartbeat period, and the extension a pending acknowledge asks for (16
    bits of milliseconds). *)
Definition ctl_clock_ok (cfg : GigeConfig) (now : Z) : bool :=
  forallb (fun d => now + d <=? INSTANT_MAX)
    [gc_gvcp_timeout cfg; PENDING_ACK_BUDGET; heartbeat_period cfg; millis U16_MAX].

(** The clock readings of a turn. *)
Definition pass_clocks (p : CtlPass) : list Z :=
  omap (fun r => match r with CtlDatagram _ _ now => Some now | _ => None end) (cp_input p) ++
  [fst (cp_deadline p); snd (cp_deadline p); fst (cp_heartbeat p); snd (cp_heartbeat p); cp_pump p].

(** The worker from its start to its end.  A sum past the last instant panics:
    the model takes a run in which one of the sums above would pass it as
    panicking, whether or not it is computed. *)
Definition ctl_thread (device_addr : Z * Z) (rx : chan ToWorker) (cfg : GigeConfig) (concatenation : bool)
    (now : Z) (handles : Handles) (io : list bool) (passes : list CtlPass) (late : list ToWorker) : option Runner :=
  if forallb (ctl_clock_ok cfg) (now :: concat (pass_clocks <$> passes))
  then ctl_run (Runner_new device_addr rx cfg concatenation now handles io) passes late else None.
End worker.
