(* ===== verification/ControlInv.v ===== *)
(** The control worker never panics and answers every handle.

    [worker_inv] is the invariant of the worker: the queue of operations and
    the queue of payloads stay in step, the progress counters of the chunked
    operations stay within their bounds, and there is at most one heartbeat.
    [covered] says that a handle is answered or still owed an answer by
    something the worker holds.  Every step keeps both; the teardown leaves
    nothing owed. *)

From stdpp Require Import gmap.
From S2P Require Import Prelude Gvcp Gvsp Channel Frame Bootstrap Errors Control.

(** * Handles *)

Lemma fulfill_mono hs h v : hs ⊆ fulfill hs h v.
Proof.
  unfold fulfill. destruct (hs !! h) eqn:E; [done|]. by apply insert_subseteq.
Qed.

Lemma fulfill_set hs h v : is_Some (fulfill hs h v !! h).
Proof. unfold fulfill. destruct (hs !! h) eqn:E; [by eauto|]. rewrite lookup_insert_eq. eauto. Qed.

Lemma fulfill_fresh hs h v : hs !! h = None -> fulfill hs h v !! h = Some v.
Proof. intros H. unfold fulfill. rewrite H. apply lookup_insert_eq. Qed.

Lemma set_mono (hs hs' : Handles) h : hs ⊆ hs' -> is_Some (hs !! h) -> is_Some (hs' !! h).
Proof. intros H [v Hv]. exists v. by eapply lookup_weaken. Qed.

Lemma Op_fail_mono hs op e : hs ⊆ Op_fail hs op e.
Proof. unfold Op_fail. destruct (op_handle op); [apply fulfill_mono|done]. Qed.

Lemma Op_fail_set hs op e h : op_handle op = Some h -> is_Some (Op_fail hs op e !! h).
Proof. intros H. unfold Op_fail. rewrite H. apply fulfill_set. Qed.

Section inv.
Context {EC : Chan GvcpEvent} {WC : Chan ToWorker}.

Definition msg_handle (m : ToWorker) : option nat :=
  match m with
  | TwReadReg _ h | TwReadRegs _ h | TwWriteRegs _ h | TwReadMem _ _ h | TwWriteMem _ _ h => Some h
  | TwSubscribeEvents _ | TwShutdown => None
  end.

Lemma fail_message_mono hs m e : hs ⊆ fail_message hs m e.
Proof. destruct m; simpl; try apply fulfill_mono; done. Qed.

Lemma fail_message_set hs m e h : msg_handle m = Some h -> is_Some (fail_message hs m e !! h).
Proof. destruct m; simpl; intros; simplify_eq; apply fulfill_set. Qed.

(** * The invariant *)

(** Progress of a chunked operation. *)
Definition op_ok (op : Op) : Prop :=
  match op with
  | OpReadReg _ | OpHeartbeat => True
  | OpReadRegs _ addrs acc => zlen acc <= zlen addrs
  | OpWriteRegs _ pairs done => 0 <= done <= zlen pairs
  | OpReadMem _ acc want _ => zlen acc <= want
  | OpWriteMem _ data offset _ => 0 <= offset <= zlen data
  end.

(** The payload queued beside an operation is the one it needs. *)
Definition fits (op : Op) (send : PendingSend) : Prop :=
  op_ok op /\
  match op, send with
  | (OpReadReg _ | OpHeartbeat), PsReadRegs _ => True
  | OpReadRegs _ _ _, PsReadRegsChunk => True
  | OpWriteRegs _ _ _, PsWriteRegsChunk => True
  | OpReadMem _ _ _ _, PsReadMemChunk => True
  | OpWriteMem _ _ _ _, PsWriteMemChunk => True
  | _, _ => False
  end.

Definition beats (ops : list Op) : nat := length (filter (fun op => is_heartbeat op = true) ops).

Lemma beats_cons op ops : beats (op :: ops) = ((if is_heartbeat op then 1 else 0) + beats ops)%nat.
Proof. unfold beats. rewrite filter_cons. by destruct (is_heartbeat op); case_decide. Qed.

Lemma beats_app ops ops' : beats (ops ++ ops') = (beats ops + beats ops')%nat.
Proof. unfold beats. by rewrite filter_app, length_app. Qed.

Definition held_ops (s : Runner) : list Op :=
  match w_inflight s with Some f => [in_op f] | None => [] end ++ w_queue s.

Record worker_inv (s : Runner) : Prop := {
  wi_queue : Forall2 fits (w_queue s) (w_queued_payloads s);
  wi_inflight : forall f, w_inflight s = Some f -> op_ok (in_op f);
  wi_beats : (beats (held_ops s) <= 1)%nat }.

(** What the worker holds for handle [h]. *)
Definition waiting (s : Runner) (h : nat) : Prop :=
  (exists op, op ∈ held_ops s /\ op_handle op = Some h) \/
  (exists m, m ∈ contents (w_rx s) /\ msg_handle m = Some h).

Definition covered (s : Runner) (h : nat) : Prop := is_Some (w_handles s !! h) \/ waiting s h.

(** Answers stay and no handle is forgotten. *)
Definition keeps (s t : Runner) : Prop :=
  w_handles s ⊆ w_handles t /\ forall h, covered s h -> covered t h.

Global Instance keeps_preorder : PreOrder keeps.
Proof.
  split; [by intros s|]. intros s t u [H1 H2] [H3 H4]. split; [by etrans|]. auto.
Qed.

(** The fields the invariant reads. *)
Definition view (s : Runner) :=
  (w_handles s, w_inflight s, w_queue s, w_queued_payloads s, w_rx s).

Lemma same_view s t : view t = view s -> worker_inv s -> worker_inv t /\ keeps s t.
Proof.
  unfold view. intros [= E1 E2 E3 E4 E5] [H1 H2 H3]. split.
  - split; unfold held_ops in *; rewrite ?E2, ?E3, ?E4; done.
  - split; [by rewrite E1|]. intros h. unfold covered, waiting, held_ops. by rewrite E1, E2, E3, E5.
Qed.

Lemma send_to_view s datagram dst retry ok t :
  send_to s datagram dst retry = (ok, t) ->
  view t = view s /\ w_concatenation t = w_concatenation s /\ w_next_id t = w_next_id s /\
  w_cfg t = w_cfg s /\ w_device_addr t = w_device_addr s.
Proof. unfold send_to. destruct (w_io s) as [|[] io]; by intros [= _ <-]. Qed.

(** Answering moves a handle from owed to answered. *)
Lemma keeps_fulfill s t h v :
  w_handles t = fulfill (w_handles s) h v ->
  (forall h', waiting s h' -> waiting t h' \/ h' = h) -> keeps s t.
Proof.
  intros E Hw. split; [rewrite E; apply fulfill_mono|]. intros h' [Hs|Hh].
  - left. rewrite E. eapply set_mono; [apply fulfill_mono|done].
  - apply Hw in Hh as [Hh| ->]; [by right|left]. rewrite E. apply fulfill_set.
Qed.

(** * Sending *)

(** The operation in hand, taken from the flight or the queue. *)
Definition hands_on (s : Runner) (op : Op) (t : Runner) : Prop :=
  w_handles s ⊆ w_handles t /\ forall h, covered s h \/ op_handle op = Some h -> covered t h.

Lemma usize_sub_ok a b : b <= a -> usize_sub a b = Some (a - b).
Proof. intros H. unfold usize_sub. by replace (b <=? a) with true by lia. Qed.

Lemma regs_per_command_bounds s n : 0 <= n -> 0 <= regs_per_command s n <= n.
Proof. intros H. unfold regs_per_command. destruct (w_concatenation s); lia. Qed.

Lemma chunk_len_bounds n : 0 <= n -> 0 <= chunk_len n <= n.
Proof. unfold chunk_len, DATA_SIZE_MAX. lia. Qed.

Lemma encode_op_ok s op send id : fits op send -> exists d, encode_op s op send id = Some (Some d).
Proof.
  intros [Hok Hf]. destruct op, send; try done; simpl in *; try (by eauto).
  - rewrite usize_sub_ok by done. cbn [mbind option_bind]. pose proof (zlen_nonneg acc).
    pose proof (regs_per_command_bounds s (zlen addrs - zlen acc) ltac:(lia)).
    rewrite get_range_is_Some by lia. eauto.
  - rewrite usize_sub_ok by lia. cbn [mbind option_bind].
    pose proof (regs_per_command_bounds s (zlen pairs - done) ltac:(lia)).
    rewrite get_range_is_Some by lia. eauto.
  - rewrite usize_sub_ok by lia. cbn [mbind option_bind]. eauto.
  - rewrite usize_sub_ok by lia. cbn [mbind option_bind].
    pose proof (chunk_len_bounds (zlen data - offset) ltac:(lia)).
    rewrite get_range_is_Some by lia. eauto.
Qed.

Lemma fail_op_ok s op e :
  w_inflight s = None -> worker_inv s -> worker_inv (fail_op s op e) /\ hands_on s op (fail_op s op e).
Proof.
  intros Hf [H1 H2 H3]. split; [by split|]. split; [apply Op_fail_mono|]. intros h [[Hs|Hw]|Hh].
  - left. eapply set_mono; [apply Op_fail_mono|done].
  - by right.
  - left. by apply Op_fail_set.
Qed.

Lemma send_op_ok s op send now :
  fits op send -> w_inflight s = None -> worker_inv s -> (beats (op :: w_queue s) <= 1)%nat ->
  exists t, send_op s op send now = Some t /\ worker_inv t /\ hands_on s op t.
Proof.
  intros Hfit Hnone Hinv Hb. unfold send_op.
  set (s1 := s <| w_next_id ::= next_id |>).
  destruct (encode_op_ok s1 op send (w_next_id s1) Hfit) as [d Hd]. rewrite Hd. cbn [mbind option_bind].
  destruct (send_to s1 d (w_device_addr s1) false) as [ok t] eqn:Hs.
  destruct (send_to_view _ _ _ _ _ _ Hs) as [Hv _]. change (view s1) with (view s) in Hv.
  destruct (same_view _ _ Hv Hinv) as [Hinvt [Hm Hk]].
  injection Hv as E1 E2 E3 E4 E5. destruct ok; cbn [negb].
  - eexists. split; [reflexivity|]. split.
    + destruct Hinvt as [Hq _ _]. split; [done| |].
      * intros f [= <-]. apply Hfit.
      * unfold held_ops. cbn. by rewrite E3.
    + split; [done|]. intros h [[Hh|[(o & Ho & Hoh)|Hr]]|Hh].
      * left. by eapply set_mono.
      * right. left. exists o. split; [|done]. unfold held_ops in *. rewrite Hnone in Ho. cbn in *. rewrite E3. set_solver.
      * right. right. cbn. by rewrite E5.
      * right. left. exists op. split; [|done]. unfold held_ops. cbn. set_solver.
  - eexists. split; [reflexivity|]. rewrite Hnone in E2.
    destruct (fail_op_ok t op Io E2 Hinvt) as [Hi [Hm' Hk']]. split; [done|]. split; [by etrans|].
    intros h [Hh|Hh]; apply Hk'; [left; by apply Hk|by right].
Qed.

Lemma continue_op_ok s op send now :
  fits op send -> is_heartbeat op = false -> w_inflight s = None -> worker_inv s ->
  exists t, continue_op s op send now = Some t /\ worker_inv t /\ hands_on s op t.
Proof.
  intros Hfit Hnb Hnone Hinv. unfold continue_op.
  assert (beats (op :: w_queue s) <= 1)%nat as Hb.
  { destruct Hinv as [_ _ Hb]. unfold held_ops, beats in *. rewrite Hnone in Hb. rewrite filter_cons_False; [done|]. by rewrite Hnb. }
  destruct (w_queue s) as [|o q] eqn:Eq.
  { rewrite <- Eq in Hb. by apply send_op_ok. }
  destruct (is_heartbeat o) eqn:Ho; [|destruct o; try discriminate; rewrite <- Eq in Hb; by apply send_op_ok].
  destruct o; try discriminate. destruct Hinv as [Hq Hf Hbe]. rewrite Eq in Hq.
  destruct (w_queued_payloads s) as [|p ps] eqn:Ep; [by inversion Hq|]. apply Forall2_cons in Hq as [Hp Hq].
  cbn [insert1 mbind option_bind]. eexists. split; [reflexivity|]. split.
  - split; [constructor; [done|by constructor]|done|]. unfold held_ops in *. cbn. rewrite Hnone in *. rewrite Eq in Hbe.
    unfold beats in *. cbn [app] in *. rewrite filter_cons_True in * by done.
    rewrite filter_cons_False; [done|]. by rewrite Hnb.
  - split; [done|]. unfold covered, waiting, held_ops. cbn. rewrite Hnone, Eq. intros h [[Hh|[(x & Hx & Hxh)|Hh]]|Hh].
    + by left.
    + right. left. exists x. split; [|done]. cbn [app] in *.
      apply elem_of_cons in Hx as [-> |Hx]; apply elem_of_cons; [by left|right]. by apply elem_of_cons; right.
    + right. by right.
    + right. left. exists op. split; [|done]. cbn [app]. set_solver.
Qed.

(** * Acknowledges *)

Lemma fulfill_handle_ok s op h v :
  op_handle op = Some h -> worker_inv s ->
  worker_inv (fulfill_handle s h v) /\ hands_on s op (fulfill_handle s h v).
Proof.
  intros Hop [H1 H2 H3]. split; [by split|]. split; [apply fulfill_mono|]. intros h' [[Hs|Hw]|Hh].
  - left. eapply set_mono; [apply fulfill_mono|done].
  - by right.
  - left. assert (h' = h) as -> by congruence. apply fulfill_set.
Qed.

Lemma register_values_nonneg a : 0 <= zlen (register_values a).
Proof. apply zlen_nonneg. Qed.

(** Handing on a later stage of an operation hands on the operation. *)
Lemma hands_on_stage s op op' t : op_handle op' = op_handle op -> hands_on s op' t -> hands_on s op t.
Proof. intros E [H1 H2]. split; [done|]. intros h. rewrite <- E. apply H2. Qed.

Lemma finish_ack_ok s op a now :
  op_ok op -> w_inflight s = None -> worker_inv s ->
  exists t, finish_ack s op a now = Some t /\ worker_inv t /\ hands_on s op t.
Proof.
  intros Hok Hnone Hinv.
  assert (forall h v, op_handle op = Some h -> exists t, Some (fulfill_handle s h v) = Some t /\ worker_inv t /\ hands_on s op t)
    as Hful by (intros h v Hh; eexists; split; [reflexivity|]; by apply fulfill_handle_ok).
  assert (forall op' send, op_handle op' = op_handle op -> fits op' send -> is_heartbeat op' = false ->
            exists t, continue_op s op' send now = Some t /\ worker_inv t /\ hands_on s op t) as Hcont.
  { intros op' send He Hf Hb. destruct (continue_op_ok s op' send now Hf Hb Hnone Hinv) as (t & Ht & Hi & Hh).
    exists t. split_and!; [done|done|]. by eapply hands_on_stage. }
  destruct op as [h|h addrs acc|h pairs n|h acc want next|h data offset base|]; cbn [finish_ack op_ok] in *.
  - destruct (register_values a); by apply Hful.
  - rewrite usize_sub_ok by done. cbn [mbind option_bind].
    pose proof (regs_per_command_bounds s (zlen addrs - zlen acc) ltac:(lia)).
    destruct (Z.eqb_spec (zlen (register_values a)) (regs_per_command s (zlen addrs - zlen acc))); cbn [negb]; [|by apply Hful].
    destruct (_ =? _) eqn:E; [by apply Hful|]. apply Hcont; [done| |done]. split; [|done]. cbn. rewrite zlen_app. lia.
  - rewrite usize_sub_ok by lia. cbn [mbind option_bind].
    pose proof (regs_per_command_bounds s (zlen pairs - n) ltac:(lia)).
    destruct (_ <=? _) eqn:E; [by apply Hful|]. apply Hcont; [done| |done]. split; [|done]. cbn. lia.
  - destruct (get_from (ack_payload a) 4) as [data|]; [|by apply Hful]. rewrite usize_sub_ok by done. cbn [mbind option_bind].
    destruct (_ <=? _) eqn:E; [by apply Hful|]. destruct (_ =? 0); [by apply Hful|].
    apply Hcont; [done| |done]. split; [|done]. cbn. lia.
  - rewrite usize_sub_ok by lia. cbn [mbind option_bind].
    pose proof (chunk_len_bounds (zlen data - offset) ltac:(lia)).
    destruct (_ <=? _) eqn:E; [by apply Hful|]. apply Hcont; [done| |done]. split; [|done]. cbn. lia.
  - eexists. split; [reflexivity|].
    match goal with |- worker_inv ?t /\ _ => assert (view t = view s) as Hv by (by repeat case_match) end.
    destruct (same_view _ _ Hv Hinv) as [Hi [Hm Hk]]. split; [done|]. split; [done|].
    intros h [Hh|[=]]. by apply Hk.
Qed.

(** Taking the operation out of the flight. *)
Lemma take_inflight s f :
  w_inflight s = Some f -> worker_inv s ->
  let t := s <| w_inflight := None |> in
  worker_inv t /\ op_ok (in_op f) /\ forall u, hands_on t (in_op f) u -> keeps s u.
Proof.
  intros Hf [H1 H2 H3]. cbn. split_and!.
  - split; [done|done|]. unfold held_ops in *. rewrite Hf in H3. cbn [app] in H3. rewrite beats_cons in H3.
    change (beats (w_queue s) <= 1)%nat. lia.
  - by apply H2.
  - intros u [Hm Hk]. split; [done|]. intros h [Hh|[(o & Ho & Hoh)|Hr]]; apply Hk.
    + by left; left.
    + unfold held_ops in Ho. rewrite Hf in Ho. cbn in Ho. apply elem_of_cons in Ho as [-> |Ho]; [by right|].
      left. right. left. by exists o.
    + left. right. by right.
Qed.

Lemma on_ack_ok s f a now :
  w_inflight s = None -> op_ok (in_op f) -> worker_inv s ->
  exists t, on_ack s f a now = Some t /\ worker_inv t /\ hands_on s (in_op f) t.
Proof.
  intros Hnone Hok Hinv. unfold on_ack. set (s1 := count s (set ls_acks bump)).
  assert (worker_inv s1 /\ keeps s s1) as [Hi1 [Hm1 Hk1]] by (by apply same_view).
  assert (forall t, hands_on s1 (in_op f) t -> hands_on s (in_op f) t) as Hup.
  { intros t [Hm Hk]. split; [by etrans|]. intros h [Hh|Hh]; apply Hk; [left; by apply Hk1|by right]. }
  destruct (is_error _).
  - set (s2 := count s1 (set ls_naks bump)). assert (worker_inv s2 /\ keeps s1 s2) as [Hi2 [Hm2 Hk2]] by (by apply same_view).
    destruct (is_heartbeat (in_op f)) eqn:Hb.
    + eexists. split; [reflexivity|]. assert (worker_inv (s2 <| w_control_lost := true |>) /\ keeps s2 (s2 <| w_control_lost := true |>)) as [Hi3 [Hm3 Hk3]] by (by apply same_view).
      split; [done|]. apply Hup. split; [by do 2 etrans|]. intros h [Hh|Hh]; [by apply Hk3, Hk2|].
      by destruct (in_op f).
    + eexists. split; [reflexivity|].
      destruct (fail_op_ok s2 (in_op f) (Nak (wrap 16 (expected_ack (in_op f) - 1)) (ack_status a)) Hnone Hi2) as [Hi3 [Hm3 Hk3]].
      split; [done|]. apply Hup. split; [by etrans|]. intros h [Hh|Hh]; apply Hk3; [left; by apply Hk2|by right].
  - destruct (negb _).
    + eexists. split; [reflexivity|]. edestruct (fail_op_ok s1 (in_op f)) as [Hi3 Hh3]; [done|done|]. split; [exact Hi3|]. by apply Hup.
    + destruct (finish_ack_ok s1 (in_op f) a now Hok Hnone Hi1) as (t & Ht & Hit & Hht). exists t. split_and!; [done|done|]. by apply Hup.
Qed.

Lemma on_event_view s datagram src : view (on_event s datagram src) = view s.
Proof.
  unfold on_event. destruct (Cmd_parse datagram) as [cmd|]; [|done]. destruct (_ && _); [done|].
  destruct (negb _); [|done]. destruct (send_to _ _ _ _) as [ok t] eqn:E. by apply send_to_view in E as [E _].
Qed.

Lemma on_datagram_ok s datagram src now :
  worker_inv s -> exists t, on_datagram s datagram src now = Some t /\ worker_inv t /\ keeps s t.
Proof.
  intros Hinv. unfold on_datagram.
  assert (forall t, view t = view s -> exists u, Some t = Some u /\ worker_inv u /\ keeps s u) as Hsame.
  { intros t Hv. exists t. split; [done|]. by apply same_view. }
  destruct (is_cmd datagram); [apply Hsame, on_event_view|].
  destruct (Ack_parse datagram) as [a|]; [|by apply Hsame].
  destruct (w_inflight s) as [f|] eqn:Hf; [|by apply Hsame].
  destruct (negb _); [by apply Hsame|]. destruct (pending_ack_timeout_ms a) as [ms|].
  - eexists. split; [reflexivity|]. destruct Hinv as [H1 H2 H3]. split.
    + split; [done| |].
      * intros f' [= <-]. by apply H2 in Hf.
      * unfold held_ops in *. cbn. by rewrite Hf in H3.
    + split; [done|]. intros h. unfold covered, waiting, held_ops. cbn. by rewrite Hf.
  - destruct (take_inflight s f Hf Hinv) as (Hi & Hok & Hk).
    destruct (on_ack_ok (s <| w_inflight := None |>) f a now) as (t & Ht & Hit & Hht); [done..|].
    exists t. split_and!; [done|done|by apply Hk].
Qed.

Lemma ctl_drain_socket_ok s input :
  worker_inv s -> exists t, ctl_drain_socket s input = Some t /\ worker_inv t /\ keeps s t.
Proof.
  revert s. induction input as [|[from d now| | | |] input IH]; intros s Hinv; simpl; try (by apply IH); try (eexists; by split_and!).
  destruct (negb (_ =? _)); [by apply IH|].
  destruct (on_datagram_ok s d from now Hinv) as (t & -> & Hit & Hkt). cbn [mbind option_bind].
  destruct (IH t Hit) as (u & Hu & Hiu & Hku). exists u. split_and!; [done|done|by etrans].
Qed.

(** * Commands *)

Lemma enqueue_ok s op send :
  fits op send -> is_heartbeat op = false -> worker_inv s ->
  worker_inv (enqueue s op send) /\ hands_on s op (enqueue s op send).
Proof.
  intros Hf Hb [H1 H2 H3]. split.
  - split; [by apply Forall2_app; [|constructor]|done|].
    assert (held_ops (enqueue s op send) = held_ops s ++ [op]) as -> by apply app_assoc.
    rewrite beats_app, beats_cons, Hb. change (beats []) with 0%nat. lia.
  - split; [done|]. unfold covered, waiting, held_ops. cbn. intros h [[Hh|[(o & Ho & Hoh)|Hr]]|Hh].
    + by left.
    + right. left. exists o. split; [|done]. rewrite app_assoc. apply elem_of_app. by left.
    + right. by right.
    + right. left. exists op. split; [|done]. rewrite app_assoc. apply elem_of_app. right. by constructor.
Qed.

(** Reading a message off the channel and acting on it. *)
Lemma on_command_ok s msg rx stop t :
  worker_inv s -> contents (w_rx s) = msg :: contents rx ->
  on_command (s <| w_rx := rx |>) msg = (stop, t) ->
  worker_inv t /\ keeps s t /\ w_rx t = rx.
Proof.
  intros Hinv Hrx Hc. set (s1 := s <| w_rx := rx |>) in *.
  assert (worker_inv s1) as Hi1 by (by destruct Hinv; split).
  assert (forall u, w_handles s ⊆ w_handles u ->
            (forall h, covered s1 h \/ msg_handle msg = Some h -> covered u h) -> keeps s u) as Hup.
  { intros u Hm Hk. split; [done|]. intros h [Hh|[Ho|(m & Hm' & Hmh)]]; apply Hk.
    - by left; left.
    - left. right. by left.
    - rewrite Hrx in Hm'. apply elem_of_cons in Hm' as [-> |Hm']; [by right|]. left. right. right. by exists m. }
  assert (forall op send h, fits op send -> is_heartbeat op = false -> op_handle op = Some h -> msg_handle msg = Some h ->
            worker_inv (enqueue s1 op send) /\ keeps s (enqueue s1 op send) /\ w_rx (enqueue s1 op send) = rx) as Hen.
  { intros op send h Hf Hb Hoh Hmh. destruct (enqueue_ok s1 op send Hf Hb Hi1) as [Hi [Hm Hk]].
    split_and!; [done| |done]. apply Hup; [done|]. intros h' [Hh|Hh]; apply Hk; [by left|right; congruence]. }
  destruct msg; cbn [on_command] in Hc; injection Hc as <- <-; try (by eapply Hen).
  - eapply Hen; [|done..]. split; [|done]. cbn. apply zlen_nonneg.
  - eapply Hen; [|done..]. split; [|done]. cbn. pose proof (zlen_nonneg pairs). lia.
  - eapply Hen; [|done..]. split; [|done]. cbn. apply (wrap_range 32 len). lia.
  - eapply Hen; [|done..]. split; [|done]. cbn. pose proof (zlen_nonneg data). lia.
  - split_and!; [by destruct Hi1|apply Hup; [done|by intros h [Hh|[=]]]|done].
  - split_and!; [done|apply Hup; [done|by intros h [Hh|[=]]]|done].
Qed.

Lemma drain_commands_n_ok n s stop t :
  worker_inv s -> ctl_drain_commands_n n s = (stop, t) -> worker_inv t /\ keeps s t.
Proof.
  revert s. induction n as [|n IH]; intros s Hinv; cbn [ctl_drain_commands_n]; [by intros [= _ <-]|].
  pose proof (try_recv_spec (w_rx s)) as Hrx. destruct (try_recv (w_rx s)) as [[msg rx]|]; [|by intros [= _ <-]].
  destruct (on_command (s <| w_rx := rx |>) msg) as [stop' s'] eqn:Hc.
  destruct (on_command_ok s msg rx stop' s' Hinv Hrx Hc) as (Hi & Hk & _).
  destruct stop'; [by intros [= _ <-]|]. intros H. destruct (IH s' Hi H) as [Hi' Hk']. split; [done|by etrans].
Qed.

Lemma submit_ok s msg :
  worker_inv s -> worker_inv (submit s msg) /\ keeps s (submit s msg) /\
  forall h, msg_handle msg = Some h -> covered (submit s msg) h.
Proof.
  intros Hinv. unfold submit. pose proof (try_send_contents (w_rx s) msg) as Hc.
  destruct (try_send (w_rx s) msg) as [outcome rx]. cbn [fst snd] in Hc.
  assert (worker_inv (s <| w_rx := rx |>)) as Hi by (by destruct Hinv; split).
  assert (forall m, m ∈ contents (w_rx s) -> m ∈ contents rx) as Hin by (intros m Hm; rewrite Hc; apply elem_of_app; by left).
  assert (keeps s (s <| w_rx := rx |>)) as Hk.
  { split; [done|]. intros h [Hh|[Ho|(m & Hm & Hmh)]]; [by left|by right; left|]. right. right. exists m. split; [by apply Hin|done]. }
  assert (keeps s (s <| w_rx := rx |> <| w_handles ::= fun hs => fail_message hs msg Disconnected |>) /\
          forall h, msg_handle msg = Some h ->
            covered (s <| w_rx := rx |> <| w_handles ::= fun hs => fail_message hs msg Disconnected |>) h) as [Hk' Hc'].
  { split.
    - split; [apply fail_message_mono|]. intros h Hh. apply Hk in Hh as [Hh|Hh]; [left|by right].
      eapply set_mono; [apply fail_message_mono|done].
    - intros h Hh. left. by apply fail_message_set. }
  destruct outcome; (split; [by destruct Hinv|]); (split; [done|]); [|done|done].
  intros h Hh. right. right. exists msg. split; [|done]. cbn. rewrite Hc. apply elem_of_app. right. by constructor.
Qed.

Lemma submit_all_ok msgs s :
  worker_inv s -> worker_inv (foldl submit s msgs) /\ keeps s (foldl submit s msgs) /\
  forall m h, m ∈ msgs -> msg_handle m = Some h -> covered (foldl submit s msgs) h.
Proof.
  revert s. induction msgs as [|m msgs IH]; intros s Hinv; simpl.
  - split_and!; [done|done|]. by intros m h Hm%elem_of_nil.
  - destruct (submit_ok s m Hinv) as (Hi & Hk & Hc). destruct (IH _ Hi) as (Hi' & Hk' & Hc').
    split_and!; [done|by etrans|]. intros m' h [-> |Hm]%elem_of_cons Hh; [|by eapply Hc']. apply Hk'. by apply Hc.
Qed.

(** * Timers *)

Lemma check_inflight_deadline_ok s now now' :
  worker_inv s -> worker_inv (check_inflight_deadline s now now') /\ keeps s (check_inflight_deadline s now now').
Proof.
  intros Hinv. unfold check_inflight_deadline. destruct (w_inflight s) as [f|] eqn:Hf; [|done].
  destruct (now <? in_deadline f); [done|]. destruct (0 <? in_tries_left f).
  - match goal with |- context [snd (send_to ?u ?d ?a ?r)] =>
      destruct (send_to u d a r) as [ok t] eqn:E; set (u' := u) in *; cbn [snd] end.
    apply send_to_view in E as [E _].
    assert (worker_inv u' /\ keeps s u') as [Hi Hk].
    { destruct Hinv as [H1 H2 H3]. split.
      - split; [done| |].
        + intros f' [= <-]. by apply H2 in Hf.
        + unfold held_ops in *. cbn. by rewrite Hf in H3.
      - split; [done|]. intros h. unfold covered, waiting, held_ops. cbn. by rewrite Hf. }
    destruct (same_view _ _ E Hi) as [Hi' Hk']. split; [done|by etrans].
  - set (s1 := count s (set ls_timeouts bump)). change (w_inflight s) with (w_inflight s1) in Hf.
    assert (worker_inv s1 /\ keeps s s1) as [Hi1 Hk1] by (by apply same_view).
    destruct (take_inflight s1 f Hf Hi1) as (Hi & Hok & Hk).
    destruct (is_heartbeat (in_op f)) eqn:Hb.
    + assert (worker_inv (s1 <| w_inflight := None |> <| w_control_lost := true |>)) as Hi2 by (by destruct Hi).
      split; [done|]. etrans; [exact Hk1|]. apply Hk. split; [done|]. intros h [Hh|Hh]; [done|]. by destruct (in_op f).
    + destruct (fail_op_ok (s1 <| w_inflight := None |>) (in_op f) Timeout) as [Hi2 Hh2]; [done|done|].
      split; [done|]. etrans; [exact Hk1|]. by apply Hk.
Qed.

Lemma check_heartbeat_ok s now now' :
  worker_inv s -> worker_inv (check_heartbeat s now now') /\ keeps s (check_heartbeat s now now').
Proof.
  intros Hinv. unfold check_heartbeat. destruct (now <? w_heartbeat_due s); [done|].
  set (s1 := s <| w_heartbeat_due := _ |>). assert (worker_inv s1 /\ keeps s s1) as [Hi1 Hk1] by (by apply same_view).
  destruct (pending_heartbeat s1) eqn:Hp; [done|]. destruct Hi1 as [H1 H2 H3]. split.
  - split; [by constructor|done|].
    apply orb_false_iff in Hp as [Hpf Hpq].
    assert (beats (held_ops s1) = 0)%nat as H0.
    { unfold held_ops. rewrite beats_app.
      assert (beats (w_queue s1) = 0%nat) as ->.
      { clear -Hpq. induction (w_queue s1) as [|o q IH]; [done|]. cbn in Hpq. apply orb_false_iff in Hpq as [Ho Hq].
        rewrite beats_cons, Ho. by apply IH. }
      destruct (w_inflight s1); [|done]. by rewrite beats_cons, Hpf. }
    unfold held_ops in H0.
    change (beats (match w_inflight s1 with Some f => [in_op f] | None => [] end ++ OpHeartbeat :: w_queue s1) <= 1)%nat.
    rewrite beats_app in *. rewrite beats_cons. cbn [is_heartbeat]. lia.
  - etrans; [exact Hk1|]. split; [done|]. unfold covered, waiting, held_ops. cbn. intros h [Hh|[(o & Ho & Hoh)|Hr]].
    + by left.
    + right. left. exists o. split; [|done]. rewrite elem_of_app, elem_of_cons in *. tauto.
    + right. by right.
Qed.

Lemma pump_ok s now :
  worker_inv s -> exists t, pump s now = Some t /\ worker_inv t /\ keeps s t.
Proof.
  intros Hinv. unfold pump. destruct (w_inflight s) as [f|] eqn:Hf; [by exists s; split_and!|].
  destruct Hinv as [H1 H2 H3]. destruct (w_queue s) as [|op q] eqn:Eq.
  { apply Forall2_nil_inv_l in H1. eexists. split; [reflexivity|]. apply same_view; [|by split; rewrite ?Eq, ?H1].
    unfold view. cbn. by rewrite Eq, H1. }
  destruct (w_queued_payloads s) as [|p ps] eqn:Ep; [by inversion H1|]. apply Forall2_cons in H1 as [Hp Hq].
  unfold held_ops in H3. rewrite Hf, Eq in H3. cbn [app] in H3.
  set (s1 := s <| w_queue := q |> <| w_queued_payloads := ps |>).
  assert (worker_inv s1) as Hi1.
  { split; [done|by cbn; rewrite Hf|]. rewrite beats_cons in H3.
    change (beats (match w_inflight s with Some f => [in_op f] | None => [] end ++ q) <= 1)%nat.
    rewrite Hf. cbn [app]. lia. }
  destruct (send_op_ok s1 op p now) as (t & Ht & Hit & Hmt & Hkt); [done|done|done|done|].
  exists t. split_and!; [done|done|]. split; [done|]. intros h [Hh|[(o & Ho & Hoh)|Hr]]; apply Hkt.
  - by left; left.
  - unfold held_ops in Ho. rewrite Hf, Eq in Ho. cbn [app] in Ho. apply elem_of_cons in Ho as [-> |Ho]; [by right|].
    left. right. left. exists o. split; [|done]. unfold held_ops. cbn. by rewrite Hf.
  - left. right. by right.
Qed.

(** * Teardown *)

Lemma fail_queue_ok e ops s :
  let t := foldl (fun s op => fail_op s op e) s ops in
  w_handles s ⊆ w_handles t /\ (forall op h, op ∈ ops -> op_handle op = Some h -> is_Some (w_handles t !! h)) /\
  w_inflight t = w_inflight s /\ w_queue t = w_queue s /\ w_rx t = w_rx s /\ w_control_lost t = w_control_lost s.
Proof.
  revert s. induction ops as [|op ops IH]; intros s; simpl.
  - split_and!; [done| |done..]. by intros op h H%elem_of_nil.
  - destruct (IH (fail_op s op e)) as (Hm & Hs & E1 & E2 & E3 & E4). split_and!; [|..|done|done|done|done].
    + etrans; [apply Op_fail_mono|exact Hm].
    + intros o h [-> |Ho]%elem_of_cons Hh; [|by eapply Hs]. eapply set_mono; [exact Hm|]. by apply Op_fail_set.
Qed.

Lemma fail_messages_ok e msgs (hs : Handles) :
  let hs' := foldl (fun hs m => fail_message hs m e) hs msgs in
  hs ⊆ hs' /\ forall m h, m ∈ msgs -> msg_handle m = Some h -> is_Some (hs' !! h).
Proof.
  revert hs. induction msgs as [|m msgs IH]; intros hs; simpl.
  - split; [done|]. by intros m h H%elem_of_nil.
  - destruct (IH (fail_message hs m e)) as [Hm Hs]. split; [etrans; [apply fail_message_mono|exact Hm]|].
    intros m' h [-> |Hm']%elem_of_cons Hh; [|by eapply Hs]. eapply set_mono; [exact Hm|]. by apply fail_message_set.
Qed.

(** The part of [shutdown] before the last look at the channel: everything
    the worker held is failed. *)
Lemma shutdown_held s e :
  let s1 := match w_inflight s with
            | Some f => fail_op (s <| w_inflight := None |>) (in_op f) e
            | None => s
            end in
  let s2 := (foldl (fun s op => fail_op s op e) s1 (w_queue s1)) <| w_queue := [] |> <| w_queued_payloads := [] |> in
  worker_inv s2 /\ keeps s s2 /\ held_ops s2 = [] /\ w_control_lost s2 = w_control_lost s.
Proof.
  intros s1 s2.
  assert (w_inflight s1 = None) as Hn by (unfold s1; by destruct (w_inflight s) eqn:E).
  assert (w_queue s1 = w_queue s /\ w_rx s1 = w_rx s /\ w_control_lost s1 = w_control_lost s) as (Eq & Er & Ec)
    by (unfold s1; by destruct (w_inflight s)).
  assert (w_handles s ⊆ w_handles s1) as Hm1 by (unfold s1; destruct (w_inflight s); [apply Op_fail_mono|done]).
  destruct (fail_queue_ok e (w_queue s1) s1) as (Hm & Hs & E1 & E2 & E3 & E4).
  assert (held_ops s2 = []) as Hh by (unfold held_ops; cbn; by rewrite E1, Hn).
  split_and!; [|split|done|by rewrite <- Ec].
  - split; [by apply (Forall2_nil fits)|cbn; rewrite E1, Hn; done|rewrite Hh; by apply Nat.le_0_l].
  - by etrans.
  - intros h [Hh'|[(o & Ho & Hoh)|(m & Hmm & Hmh)]].
    + left. eapply set_mono; [|exact Hh']. by etrans.
    + left. unfold held_ops in Ho. apply elem_of_app in Ho as [Ho|Ho].
      * destruct (w_inflight s) as [f|] eqn:Ef; [|by apply elem_of_nil in Ho]. apply list_elem_of_singleton in Ho as ->.
        eapply set_mono; [exact Hm|]. unfold s1. by apply Op_fail_set.
      * eapply Hs; [|done]. by rewrite Eq.
    + right. right. exists m. split; [|done]. cbn. by rewrite E3, Er.
Qed.

Lemma shutdown_ok s late :
  let t := shutdown s late in
  w_handles s ⊆ w_handles t /\ w_died t = true /\
  (forall h, covered s h -> is_Some (w_handles t !! h)) /\
  forall m h, m ∈ late -> msg_handle m = Some h -> is_Some (w_handles t !! h).
Proof.
  unfold shutdown. set (err := if w_control_lost s then ControlLost else Disconnected).
  set (s0 := if w_control_lost s then _ else s).
  assert (keeps s s0) as Hk0 by (unfold s0; by destruct (w_control_lost s)).
  pose proof (shutdown_held s0 (clone_err err)) as Hheld. cbv zeta in Hheld.
  set (s1 := match w_inflight s0 with Some f => _ | None => s0 end) in *. cbv zeta.
  set (s2 := (foldl _ s1 (w_queue s1)) <| w_queue := [] |> <| w_queued_payloads := [] |>) in *.
  destruct Hheld as (Hi2 & Hk2 & Hh2 & _).
  set (s3 := if negb (w_control_lost s2) then _ else s2).
  assert (view s3 = view s2) as Hv3.
  { unfold s3. destruct (negb _); [|done].
    match goal with |- context [send_to ?u ?d ?a ?r] => destruct (send_to u d a r) as [ok u'] eqn:E end.
    by apply send_to_view in E as [E _]. }
  set (s4 := s3 <| w_event_txs := [] |> <| w_died := true |>).
  assert (view s4 = view s2) as Hv4 by (by rewrite <- Hv3).
  destruct (same_view _ _ Hv4 Hi2) as [Hi4 Hk4].
  destruct (submit_all_ok late s4 Hi4) as (Hi5 & Hk5 & Hc5). set (s5 := foldl submit s4 late) in *.
  assert (held_ops s5 = [] /\ w_died s5 = true) as [Hh5 Hd5].
  { assert (held_ops s4 = [] /\ w_died s4 = true) as H4.
    { split; [|done]. injection Hv4 as _ E1 E2 _ _. unfold held_ops in *.
      change (w_inflight s4) with (w_inflight s3). change (w_queue s4) with (w_queue s3). by rewrite E1, E2. }
    unfold s5. clear -H4. revert H4. generalize s4. induction late as [|m late IH]; intros u Hu; [done|]. simpl. apply IH.
    unfold submit. destruct (try_send _ _) as [[] rx]; done. }
  pose proof (recv_all_spec (w_rx s5)) as [Hr1 Hr2]. destruct (recv_all (w_rx s5)) as [msgs rx]. cbn [fst snd] in *.
  destruct (fail_messages_ok (clone_err err) msgs (w_handles s5)) as [Hm6 Hs6].
  assert (forall h, covered s5 h -> is_Some (foldl (fun hs m => fail_message hs m (clone_err err)) (w_handles s5) msgs !! h)) as Hfin.
  { intros h [Hh|[(o & Ho & _)|(m & Hmm & Hmh)]].
    - by eapply set_mono.
    - rewrite Hh5 in Ho. by apply elem_of_nil in Ho.
    - eapply Hs6; [|done]. by rewrite Hr1. }
  split_and!.
  - cbn. etrans; [|exact Hm6]. etrans; [apply Hk0|]. etrans; [apply Hk2|]. etrans; [apply Hk4|]. apply Hk5.
  - done.
  - intros h Hh. cbn. apply Hfin, Hk5, Hk4, Hk2, Hk0, Hh.
  - intros m h Hm Hh. cbn. apply Hfin. by eapply Hc5.
Qed.

(** * The run *)

Lemma pass_ok s p :
  worker_inv s -> exists again t, ctl_pass s p = Some (again, t) /\ worker_inv t /\ keeps s t.
Proof.
  intros Hinv. unfold ctl_pass. destruct (ctl_drain_socket_ok s (cp_input p) Hinv) as (t & -> & Hi1 & Hk1).
  cbn [mbind option_bind]. unfold ctl_drain_commands.
  destruct (ctl_drain_commands_n _ t) as [stop u] eqn:E. destruct (drain_commands_n_ok _ _ _ _ Hi1 E) as [Hi2 Hk2].
  destruct stop; [do 2 eexists; split; [reflexivity|]; split; [done|by etrans]|].
  destruct (check_inflight_deadline_ok u (fst (cp_deadline p)) (snd (cp_deadline p)) Hi2) as [Hi3 Hk3].
  destruct (check_heartbeat_ok _ (fst (cp_heartbeat p)) (snd (cp_heartbeat p)) Hi3) as [Hi4 Hk4].
  destruct (pump_ok _ (cp_pump p) Hi4) as (v & Hv & Hi5 & Hk5).
  rewrite Hv. cbn [mbind option_bind]. do 2 eexists. split; [reflexivity|]. split; [done|].
  etrans; [exact Hk1|]. etrans; [exact Hk2|]. etrans; [exact Hk3|]. etrans; [exact Hk4|exact Hk5].
Qed.

Lemma ctl_run_ok passes s late :
  worker_inv s -> exists t, ctl_run s passes late = Some t /\ w_handles s ⊆ w_handles t /\ w_died t = true /\
    (forall h, covered s h -> is_Some (w_handles t !! h)) /\
    forall m h, m ∈ concat (cp_commands <$> passes) ++ late -> msg_handle m = Some h -> is_Some (w_handles t !! h).
Proof.
  revert s. induction passes as [|p passes IH]; intros s Hinv; simpl.
  - eexists. split; [reflexivity|]. apply shutdown_ok.
  - destruct (submit_all_ok (cp_commands p) s Hinv) as (Hi1 & Hk1 & Hc1).
    destruct (pass_ok _ p Hi1) as (again & t & -> & Hi2 & Hk2). cbn [mbind option_bind].
    assert (exists u, (if again then ctl_run t passes late else Some (shutdown t (concat (cp_commands <$> passes) ++ late))) = Some u /\
              w_handles t ⊆ w_handles u /\ w_died u = true /\ (forall h, covered t h -> is_Some (w_handles u !! h)) /\
              forall m h, m ∈ concat (cp_commands <$> passes) ++ late -> msg_handle m = Some h -> is_Some (w_handles u !! h))
      as (u & Hu & Hmu & Hdu & Hcu & Hlu).
    { destruct again; [by apply IH|]. eexists. split; [reflexivity|]. apply shutdown_ok. }
    exists u. split_and!; [done| |done| |].
    + etrans; [apply Hk1|]. etrans; [apply Hk2|done].
    + intros h Hh. apply Hcu, Hk2, Hk1, Hh.
    + intros m h Hm Hh. rewrite <- app_assoc in Hm. apply elem_of_app in Hm as [Hm|Hm]; [|by eapply Hlu].
      apply Hcu, Hk2. by eapply Hc1.
Qed.

(** C10: whatever datagrams arrive and whatever sends fail, with clock readings
    to which the worker's durations can be added, the worker (built without
    debug assertions) never panics, and when it has shut down every response
    handle ever given to it is answered: those waiting in its channel, those
    of every command submitted while it ran, and those that arrive during the
    teardown.  An answer given once is never changed. *)
Theorem every_handle_answered (device_addr : Z * Z) (rx : chan ToWorker) (cfg : GigeConfig)
    (concatenation : bool) (now : Z) (handles : Handles) (io : list bool)
    (passes : list CtlPass) (late : list ToWorker) :
  Forall (fun t => ctl_clock_ok cfg t) (now :: concat (pass_clocks <$> passes)) ->
  exists t, ctl_thread device_addr rx cfg concatenation now handles io passes late = Some t /\
    w_died t = true /\
    (forall h v, handles !! h = Some v -> w_handles t !! h = Some v) /\
    forall m h, m ∈ contents rx ++ concat (cp_commands <$> passes) ++ late -> msg_handle m = Some h ->
      is_Some (w_handles t !! h).
Proof.
  intros Hclock. unfold ctl_thread.
  replace (forallb (ctl_clock_ok cfg) (now :: concat (pass_clocks <$> passes))) with true
    by (symmetry; by apply Is_true_true, forallb_True).
  set (s := Runner_new device_addr rx cfg concatenation now handles io).
  assert (worker_inv s) as Hinv by (split; [constructor|done|by vm_compute; lia]).
  destruct (ctl_run_ok passes s late Hinv) as (t & Ht & Hm & Hd & Hc & Hl). exists t. split_and!; [done|done| |].
  - intros h v Hv. by eapply lookup_weaken.
  - intros m h Hin Hh. apply elem_of_app in Hin as [Hin|Hin]; [|by eapply Hl].
    apply Hc. right. right. by exists m.
Qed.
End inv.

(** A read that nobody answers, and one that comes during the teardown. *)
Definition ex_silent : list CtlPass :=
  [{| cp_commands := [TwReadReg 0 0]; cp_input := [CtlDatagram (9, GVCP_PORT) [1; 2; 3] 0]; cp_deadline := (1, 1);
      cp_heartbeat := (2, 2); cp_pump := 3 |}].

Definition ex_silent_rx : chan ToWorker := mkQueue [] None true.

Lemma every_handle_answered_witness :
  exists t, ctl_thread (9, GVCP_PORT) ex_silent_rx GigeConfig_new true 0 ∅ [] ex_silent [TwReadReg 4 1] = Some t /\
    is_Some (w_handles t !! 0%nat) /\ is_Some (w_handles t !! 1%nat).
Proof.
  destruct (every_handle_answered (9, GVCP_PORT) ex_silent_rx GigeConfig_new true 0 ∅ [] ex_silent [TwReadReg 4 1])
    as (t & E & _ & _ & H); [by repeat constructor|].
  exists t. split; [exact E|]. split; [apply (H (TwReadReg 0 0))|apply (H (TwReadReg 4 1))]; try reflexivity.
  - apply elem_of_app. right. apply elem_of_app. left. by left.
  - apply elem_of_app. right. apply elem_of_app. right. by left.
Defined.
