(* ===== verification/Register.v ===== *)
(** The register codec: the model of the free functions at the end of
    [src/src/genicam/node.rs] that turn register bytes into integers and
    floats and back.

    A register is at most eight bytes; a masked register selects the bits
    between an LSB and an MSB, which big-endian registers number from the most
    significant end.  NaN has one value here, so its payload bits are not
    kept. *)

From Stdlib Require Import SpecFloat.
From S2P Require Import Prelude Float64.

Inductive Endianness := Little | Big.
Inductive Sign := Signed | Unsigned.

Global Instance Endianness_eq_dec : EqDecision Endianness.
Proof. solve_decision. Defined.
Global Instance Sign_eq_dec : EqDecision Sign.
Proof. solve_decision. Defined.

(** The source's messages, by what they report. *)
Inductive CodecError :=
| UnsupportedIntLength (length : Z)
| BadBitRange (lsb msb : option Z) (length : Z)
| UnsupportedFloatLength (length : Z).

(** * Operations *)

(** [value = (value << 8) | b]. *)
Definition shift_in (value b : Z) : Z := Z.lor (wrap 64 (Z.shiftl value 8)) b.

Definition load_u64 (bs : bytes) (endianness : Endianness) : Z :=
  match endianness with
  | Big => foldl shift_in 0 bs
  | Little => foldl shift_in 0 (reverse bs)
  end.

Definition store_u64 (value : Z) (length : Z) (endianness : Endianness) : bytes :=
  let le := le_encode 8 value in
  match endianness with
  | Little => take (Z.to_nat length) le
  | Big => reverse (take (Z.to_nat length) le)
  end.

(** [Option::or]. *)
Definition or_else {A} (a b : option A) : option A := match a with Some _ => a | None => b end.

Definition checked_u32_sub (a b : Z) : option Z := if b <=? a then Some (a - b) else None.

Definition bit_range (bits : Z) (register_lsb register_msb : option Z) (endianness : Endianness)
    : option (Z * Z) :=
  '((lsb, msb) : Z * Z) ←
    match register_lsb, register_msb, endianness with
    | None, None, _ => Some (0, bits - 1)
    | lsb, msb, Little => Some (default 0 lsb, default (default 0 lsb) msb)
    | lsb, msb, Big =>
        let l := default 0 (or_else lsb msb) in
        let m := default 0 (or_else msb lsb) in
        l ← checked_u32_sub (bits - 1) l;
        m ← checked_u32_sub (bits - 1) m;
        Some (l, m)
    end;
  if (lsb <=? msb) && (msb <? bits) then Some (lsb, msb) else None.

Definition bad_length (length : Z) : bool := (length =? 0) || (8 <? length).

(** [if width >= 64 { u64::MAX } else { ((1 << width) - 1) << lsb }]. *)
Definition field_mask (lsb width : Z) : Z :=
  if 64 <=? width then U64_MAX else wrap 64 (Z.shiftl (Z.shiftl 1 width - 1) lsb).

Definition extract_int (bs : bytes) (sign : Sign) (endianness : Endianness)
    (register_lsb register_msb : option Z) : result CodecError Z :=
  let length := zlen bs in
  if bad_length length then Err (UnsupportedIntLength length)
  else
    let value := load_u64 bs endianness in
    '((lsb, msb) : Z * Z) ← ok_or (bit_range (8 * length) register_lsb register_msb endianness)
                              (BadBitRange register_lsb register_msb length);
    let width := msb - lsb + 1 in
    let mask := field_mask lsb width in
    let value := Z.shiftr (Z.land value mask) lsb in
    let value :=
      if bool_decide (sign = Signed) && (width <? 64)
         && negb (Z.land value (Z.shiftl 1 (width - 1)) =? 0)
      then Z.lor value (Z.lxor U64_MAX (Z.shiftr mask lsb)) else value in
    Ok (swrap 64 value).

Definition insert_int (current : bytes) (v : Z) (sign : Sign) (endianness : Endianness)
    (register_lsb register_msb : option Z) : result CodecError bytes :=
  let length := zlen current in
  if bad_length length then Err (UnsupportedIntLength length)
  else
    let value := load_u64 current endianness in
    '((lsb, msb) : Z * Z) ← ok_or (bit_range (8 * length) register_lsb register_msb endianness)
                              (BadBitRange register_lsb register_msb length);
    let width := msb - lsb + 1 in
    let mask := field_mask lsb width in
    let value := Z.lor (Z.land value (Z.lxor U64_MAX mask))
                   (Z.land (wrap 64 (Z.shiftl (wrap 64 v) lsb)) mask) in
    Ok (store_u64 value length endianness).

Definition encode_int (v length : Z) (endianness : Endianness) : result CodecError bytes :=
  if bad_length length then Err (UnsupportedIntLength length)
  else Ok (store_u64 (wrap 64 v) length endianness).

Definition extract_float (bs : bytes) (endianness : Endianness) : result CodecError f64 :=
  if zlen bs =? 4 then Ok (f64_of_f32 (f32_from_bits (wrap 32 (load_u64 bs endianness))))
  else if zlen bs =? 8 then Ok (f64_from_bits (load_u64 bs endianness))
  else Err (UnsupportedFloatLength (zlen bs)).

Definition encode_float (v : f64) (length : Z) (endianness : Endianness) : result CodecError bytes :=
  if length =? 4 then Ok (store_u64 (f32_to_bits (f32_of_f64 v)) 4 endianness)
  else if length =? 8 then Ok (store_u64 (f64_to_bits v) 8 endianness)
  else Err (UnsupportedFloatLength length).

(** * Loading and storing *)

(** The bytes from the least significant on. *)
Definition le_order (endianness : Endianness) (bs : bytes) : bytes :=
  match endianness with Little => bs | Big => reverse bs end.

Lemma shift_in_step v b : 0 <= v < 2 ^ 56 -> u8_ok b -> shift_in v b = b + 256 * v.
Proof.
  intros Hv Hb. unfold shift_in. rewrite wrap_small by (rewrite Z.shiftl_mul_pow2; lia).
  rewrite lor_shiftl_add; [lia|lia|exact Hb].
Qed.

Lemma foldl_reverse {A B} (f : A -> B -> A) a l : foldl f a (reverse l) = foldr (fun b v => f v b) a l.
Proof. induction l as [|b l IH]; [done|]. rewrite reverse_cons, foldl_app. simpl. by rewrite IH. Qed.

Lemma load_le_order bs e :
  bytes_ok bs -> (length bs <= 8)%nat -> load_u64 bs e = le_decode (le_order e bs).
Proof.
  assert (forall l, bytes_ok l -> (length l <= 8)%nat -> foldr (fun b v => shift_in v b) 0 l = le_decode l) as H.
  { intros l Hl. induction Hl as [|b l Hb Hl IH]; intros Hlen; [done|]. cbn [foldr le_decode length] in *.
    rewrite IH by lia. apply shift_in_step; [|done]. pose proof (le_decode_range l Hl) as [? ?].
    split; [lia|]. eapply Z.lt_le_trans; [eassumption|]. change (2 ^ 56) with (256 ^ 7).
    apply Z.pow_le_mono_r; lia. }
  intros Hok Hlen. unfold load_u64. destruct e; simpl.
  - rewrite foldl_reverse. by apply H.
  - rewrite <- (reverse_involutive bs) at 1. rewrite foldl_reverse. apply H.
    + by apply Forall_reverse.
    + by rewrite length_reverse.
Qed.

Lemma take_le_encode n m z : (n <= m)%nat -> take n (le_encode m z) = le_encode n z.
Proof.
  revert m z. induction n as [|n IH]; intros [|m] z H; try done; [lia|].
  cbn [le_encode firstn]. f_equal. apply IH. lia.
Qed.

Lemma store_le_order v len e :
  0 <= len <= 8 -> le_order e (store_u64 v len e) = le_encode (Z.to_nat len) v.
Proof.
  intros H. unfold store_u64. destruct e; simpl le_order; rewrite ?reverse_involutive; apply take_le_encode; lia.
Qed.

Lemma zlen_le_order e bs : zlen (le_order e bs) = zlen bs.
Proof. unfold zlen. destruct e; simpl; by rewrite ?length_reverse. Qed.

Lemma store_shape v len e :
  0 <= len <= 8 -> bytes_ok (store_u64 v len e) /\ zlen (store_u64 v len e) = len.
Proof.
  intros H. split.
  - assert (bytes_ok (le_order e (store_u64 v len e))) as Hok by (rewrite store_le_order by done; apply le_encode_ok).
    destruct e; simpl in Hok; [done|]. apply Forall_reverse in Hok. by rewrite reverse_involutive in Hok.
  - rewrite <- (zlen_le_order e), store_le_order, zlen_le_encode by done. lia.
Qed.

Lemma load_store v len e :
  0 <= len <= 8 -> 0 <= v < 2 ^ (8 * len) -> load_u64 (store_u64 v len e) e = v.
Proof.
  intros Hl Hv. destruct (store_shape v len e Hl) as [Hok Hlen].
  rewrite load_le_order by (try done; unfold zlen in Hlen; lia).
  rewrite store_le_order by done. apply le_decode_encode. rewrite Z2Nat.id by lia.
  change 256 with (2 ^ 8). rewrite <- Z.pow_mul_r by lia. done.
Qed.

Lemma load_range bs e : bytes_ok bs -> zlen bs <= 8 -> 0 <= load_u64 bs e < 2 ^ (8 * zlen bs).
Proof.
  intros Hok Hl. unfold zlen in *. rewrite load_le_order by (try done; lia).
  assert (bytes_ok (le_order e bs)) as H by (destruct e; simpl; [done|by apply Forall_reverse]).
  apply le_decode_range in H. rewrite (Z.pow_mul_r 2 8) by lia. change (2 ^ 8) with 256.
  assert (length (le_order e bs) = length bs) as E by (destruct e; simpl; by rewrite ?length_reverse).
  by rewrite E in H.
Qed.

Lemma bit_range_valid bits l m e lsb msb :
  0 < bits -> (forall z, l = Some z \/ m = Some z -> 0 <= z) ->
  bit_range bits l m e = Some (lsb, msb) -> 0 <= lsb <= msb /\ msb < bits.
Proof.
  intros Hb Hpos. unfold bit_range, checked_u32_sub. pose proof (Hpos (default 0 l)) as Hl.
  pose proof (Hpos (default 0 m)) as Hm.
  assert (0 <= default 0 l) by (destruct l; simpl in *; [apply Hl; by left|lia]).
  assert (0 <= default 0 m) by (destruct m; simpl in *; [apply Hm; by right|lia]). clear Hl Hm Hpos.
  destruct l as [l|], m as [m|], e; cbn [or_else default mbind option_bind from_option id] in *; repeat case_match;
    cbn [mbind option_bind] in *; intros; simplify_eq/=; repeat case_match; simplify_eq; lia.
Qed.

(** * Bit fields of a loaded value *)

Lemma ones_U64 : U64_MAX = Z.ones 64.
Proof. reflexivity. Qed.

Lemma field_mask_spec lsb width :
  0 <= lsb -> 0 < width -> lsb + width <= 64 -> field_mask lsb width = Z.shiftl (Z.ones width) lsb.
Proof.
  intros Hl Hw H. unfold field_mask. destruct (Z.leb_spec 64 width).
  - by replace lsb with 0 by lia; replace width with 64 by lia.
  - change (Z.shiftl 1 width - 1) with (Z.pred (Z.shiftl 1 width)). fold (Z.ones width). apply wrap_small.
    rewrite Z.shiftl_mul_pow2, Z.ones_equiv by lia.
    assert (2 ^ width * 2 ^ lsb <= 2 ^ 64) by (rewrite <- Z.pow_add_r by lia; apply Z.pow_le_mono_r; lia).
    assert (0 < 2 ^ width) by lia. assert (0 < 2 ^ lsb) by lia. nia.
Qed.

Lemma field_bits lsb width n :
  0 <= lsb -> 0 < width -> lsb + width <= 64 -> 0 <= n ->
  Z.testbit (field_mask lsb width) n = (lsb <=? n) && (n <? lsb + width).
Proof.
  intros Hl Hw H Hn. rewrite field_mask_spec, Z.shiftl_spec by lia.
  destruct (Z.leb_spec lsb n); simpl.
  - rewrite Z.testbit_ones by lia. lia.
  - by rewrite Z.testbit_neg_r by lia.
Qed.

(** What a field of [width] bits holding [u] means. *)
Definition field_value (sign : Sign) (width u : Z) : Z :=
  match sign with Signed => swrap width u | Unsigned => swrap 64 u end.

Lemma sign_extension sign width u :
  0 < width <= 64 -> 0 <= u < 2 ^ width ->
  swrap 64 (if bool_decide (sign = Signed) && (width <? 64) && negb (Z.land u (Z.shiftl 1 (width - 1)) =? 0)
            then Z.lor u (Z.lxor U64_MAX (Z.ones width)) else u) = field_value sign width u.
Proof.
  intros Hw Hu. unfold field_value. destruct sign; simpl; [|done].
  rewrite Z.shiftl_1_l, land_pow2_eqb, negb_involutive by lia.
  assert (2 ^ width = 2 * 2 ^ (width - 1)) as Hpow by (rewrite <- Z.pow_succ_r by lia; f_equal; lia).
  destruct (Z.ltb_spec width 64) as [Hlt|]; simpl; [|by replace width with 64 by lia].
  assert (2 ^ width <= 2 ^ 63) by (apply Z.pow_le_mono_r; lia).
  assert (Z.testbit u (width - 1) = (2 ^ (width - 1) <=? u)) as ->.
  { rewrite Z.testbit_eqb by lia. destruct (Z.leb_spec (2 ^ (width - 1)) u).
    - replace (u / 2 ^ (width - 1)) with 1; [done|]. apply (Z.div_unique_pos _ _ _ (u - 2 ^ (width - 1))); lia.
    - by rewrite Z.div_small by lia. }
  destruct (Z.leb_spec (2 ^ (width - 1)) u).
  - assert (Z.lxor U64_MAX (Z.ones width) = Z.shiftl (Z.ones (64 - width)) width) as ->.
    { apply Z.bits_inj'. intros n Hn. rewrite ones_U64, Z.lxor_spec, Z.shiftl_spec, !Z.testbit_ones by lia. lia. }
    rewrite Z.lor_comm, lor_shiftl_add, Z.ones_equiv by lia.
    assert (2 ^ 64 = 2 ^ (64 - width) * 2 ^ width) as E by (rewrite <- Z.pow_add_r by lia; f_equal; lia).
    unfold swrap. change (2 ^ (64 - 1)) with (2 ^ 63).
    replace (Z.pred (2 ^ (64 - width)) * 2 ^ width + u + 2 ^ 63) with ((u - 2 ^ width + 2 ^ 63) + 1 * 2 ^ 64) by lia.
    rewrite Z.mod_add, Z.mod_small by lia.
    replace (u + 2 ^ (width - 1)) with ((u - 2 ^ (width - 1)) + 1 * 2 ^ width) by lia.
    rewrite Z.mod_add, Z.mod_small by lia. lia.
  - rewrite !swrap_small by lia. done.
Qed.

(** [extract_int] reads the field and gives it its sign. *)
Lemma extract_int_field bs sign e l m lsb msb :
  bytes_ok bs -> 1 <= zlen bs <= 8 -> bit_range (8 * zlen bs) l m e = Some (lsb, msb) ->
  0 <= lsb <= msb -> msb < 8 * zlen bs ->
  extract_int bs sign e l m =
    Ok (field_value sign (msb - lsb + 1) (Z.shiftr (load_u64 bs e) lsb mod 2 ^ (msb - lsb + 1))).
Proof.
  intros Hok Hlen Hr H1 H2. unfold extract_int, bad_length. replace (_ || _) with false by lia.
  rewrite Hr. cbn [ok_or mbind result_bind]. f_equal. rewrite field_mask_spec by lia.
  rewrite land_field, Z.shiftr_shiftl_l, Z.sub_diag, Z.shiftl_0_r by lia.
  apply sign_extension; [lia|]. apply Z.mod_pos_bound. lia.
Qed.

(** Values a field can hold. *)
Definition in_field (sign : Sign) (width v : Z) : bool :=
  match sign with
  | Signed => (- 2 ^ (width - 1) <=? v) && (v <? 2 ^ (width - 1))
  | Unsigned => (64 <=? width) || (0 <=? v) && (v <? 2 ^ width)
  end.

Lemma field_value_mod sign width v :
  0 < width <= 64 -> i64_ok v -> in_field sign width v = true ->
  field_value sign width (v mod 2 ^ width) = v.
Proof.
  intros Hw Hv Hin. unfold i64_ok, I64_MIN, I64_MAX in Hv.
  assert (forall w, 0 < w -> - 2 ^ (w - 1) <= v < 2 ^ (w - 1) -> swrap w (v mod 2 ^ w) = v) as Hs.
  { intros w Hw0 H. unfold swrap. rewrite Z.add_mod_idemp_l by lia. by apply swrap_small. }
  destruct sign; simpl in *; [apply Hs; lia|].
  destruct (Z.leb_spec 64 width).
  - replace width with 64 by lia. apply Hs; lia.
  - rewrite Z.mod_small by lia. apply swrap_small; lia.
Qed.

(** * Writing a field *)

(** The value [insert_int] stores: [v]'s bits inside the field, the old bits
    outside. *)
Definition spliced (value v lsb width : Z) : Z :=
  Z.lor (Z.land value (Z.lxor U64_MAX (field_mask lsb width)))
    (Z.land (wrap 64 (Z.shiftl (wrap 64 v) lsb)) (field_mask lsb width)).

Lemma spliced_bits value v lsb width n :
  0 <= value < 2 ^ 64 -> 0 <= lsb -> 0 < width -> lsb + width <= 64 -> 0 <= n ->
  Z.testbit (spliced value v lsb width) n =
    if (lsb <=? n) && (n <? lsb + width) then Z.testbit v (n - lsb) else Z.testbit value n.
Proof.
  intros Hv Hl Hw H Hn. unfold spliced.
  rewrite Z.lor_spec, !Z.land_spec, Z.lxor_spec, field_bits by lia.
  destruct (Z.leb_spec 64 n).
  { rewrite (testbit_small value 64 n) by lia.
    replace ((lsb <=? n) && (n <? lsb + width)) with false by lia. simpl. by rewrite andb_false_r. }
  rewrite ones_U64, Z.testbit_ones by lia. replace ((0 <=? n) && (n <? 64)) with true by lia.
  destruct ((lsb <=? n) && (n <? lsb + width)) eqn:E; simpl; rewrite ?andb_false_r, ?andb_true_r; simpl; [|apply orb_false_r].
  unfold wrap. rewrite Z.mod_pow2_bits_low, Z.shiftl_spec, Z.mod_pow2_bits_low by lia. done.
Qed.

Lemma spliced_range value v lsb width bits :
  0 <= value < 2 ^ bits -> 0 <= bits <= 64 -> 0 <= lsb -> 0 < width -> lsb + width <= bits ->
  0 <= spliced value v lsb width < 2 ^ bits.
Proof.
  intros Hv Hb Hl Hw H. assert (2 ^ bits <= 2 ^ 64) by (apply Z.pow_le_mono_r; lia).
  assert (spliced value v lsb width = spliced value v lsb width mod 2 ^ bits) as ->.
  { apply Z.bits_inj'. intros n Hn. destruct (Z.ltb_spec n bits).
    - by rewrite Z.mod_pow2_bits_low by lia.
    - rewrite Z.mod_pow2_bits_high, spliced_bits by lia. replace (_ && _) with false by lia.
      apply (testbit_small _ bits); lia. }
  apply Z.mod_pos_bound. lia.
Qed.

Lemma spliced_field value v lsb width :
  0 <= value < 2 ^ 64 -> 0 <= lsb -> 0 < width -> lsb + width <= 64 ->
  Z.shiftr (spliced value v lsb width) lsb mod 2 ^ width = v mod 2 ^ width.
Proof.
  intros Hv Hl Hw H. apply Z.bits_inj'. intros n Hn. destruct (Z.ltb_spec n width).
  - rewrite !Z.mod_pow2_bits_low, Z.shiftr_spec, spliced_bits by lia.
    replace (_ && _) with true by lia. f_equal. lia.
  - by rewrite !Z.mod_pow2_bits_high by lia.
Qed.

Lemma insert_then_extract (current : bytes) (v : Z) (sign : Sign) (e : Endianness)
    (l m : option Z) (lsb msb : Z) :
  bytes_ok current -> 1 <= zlen current <= 8 -> i64_ok v ->
  (forall z, l = Some z \/ m = Some z -> 0 <= z) ->
  bit_range (8 * zlen current) l m e = Some (lsb, msb) ->
  in_field sign (msb - lsb + 1) v = true ->
  exists new, insert_int current v sign e l m = Ok new /\ zlen new = zlen current /\ bytes_ok new /\
    extract_int new sign e l m = Ok v /\
    forall n, 0 <= n -> n < lsb \/ msb < n ->
      Z.testbit (load_u64 new e) n = Z.testbit (load_u64 current e) n.
Proof.
  intros Hok Hlen Hv Hpos Hr Hin. assert (0 < 8 * zlen current) as Hbits by lia.
  destruct (bit_range_valid _ _ _ _ _ _ Hbits Hpos Hr) as [H1 H2].
  set (value := load_u64 current e). pose proof (load_range current e Hok ltac:(lia)) as Hval. fold value in Hval.
  set (stored := spliced value v lsb (msb - lsb + 1)).
  assert (2 ^ (8 * zlen current) <= 2 ^ 64) by (apply Z.pow_le_mono_r; lia).
  assert (0 <= stored < 2 ^ (8 * zlen current)) as Hst by (apply spliced_range; lia).
  destruct (store_shape stored (zlen current) e ltac:(lia)) as [Hnok Hnlen].
  pose proof (load_store stored (zlen current) e ltac:(lia) Hst) as Hload.
  exists (store_u64 stored (zlen current) e). split_and!; [|done|done| |].
  - unfold insert_int, bad_length. replace (_ || _) with false by lia. by rewrite Hr.
  - rewrite (extract_int_field _ _ _ _ _ lsb msb) by (rewrite ?Hnlen; done).
    rewrite Hload. unfold stored. rewrite spliced_field by lia. f_equal. apply field_value_mod; [lia|done|done].
  - intros n Hn Hout. rewrite Hload. unfold stored. rewrite spliced_bits by lia. by replace (_ && _) with false by lia.
Qed.

(** An unmasked write followed by a read. *)
Lemma encode_then_extract (v len : Z) (sign : Sign) (e : Endianness) :
  1 <= len <= 8 -> i64_ok v -> in_field sign (8 * len) v = true ->
  exists new, encode_int v len e = Ok new /\ zlen new = len /\ bytes_ok new /\
    extract_int new sign e None None = Ok v.
Proof.
  intros Hlen Hv Hin. destruct (store_shape (wrap 64 v) len e ltac:(lia)) as [Hok Hz].
  exists (store_u64 (wrap 64 v) len e). split_and!; [|done|done|].
  - unfold encode_int, bad_length. by replace (_ || _) with false by lia.
  - rewrite (extract_int_field _ _ _ _ _ 0 (8 * len - 1)); rewrite ?Hz; try lia; [|done|].
    2:{ unfold bit_range. cbn [mbind option_bind]. by replace (_ && _) with true by lia. }
    replace (8 * len - 1 - 0 + 1) with (8 * len) by lia. rewrite Z.shiftr_0_r.
    rewrite load_le_order by (try done; unfold zlen in Hz; lia). rewrite store_le_order by lia.
    rewrite le_decode_encode_mod, Z2Nat.id by lia. change 256 with (2 ^ 8). rewrite <- Z.pow_mul_r by lia.
    unfold wrap. rewrite Z.mod_mod by lia. rewrite Z.mod_mod_divide.
    + f_equal. by apply field_value_mod; [lia|..].
    + exists (2 ^ (64 - 8 * len)). rewrite <- Z.pow_add_r by lia. f_equal. lia.
Qed.

(** C35: writing an integer that fits a (possibly masked) register of one to
    eight bytes succeeds and keeps the register's length; reading the same
    field back gives the integer, whatever its sign and the byte order, and
    every bit outside the field keeps its value. *)
Theorem masked_write_then_read (current : bytes) (v : Z) (sign : Sign) (e : Endianness)
    (l m : option Z) (lsb msb : Z) :
  bytes_ok current -> 1 <= zlen current <= 8 -> i64_ok v ->
  (forall z, l = Some z \/ m = Some z -> 0 <= z) ->
  bit_range (8 * zlen current) l m e = Some (lsb, msb) ->
  in_field sign (msb - lsb + 1) v = true ->
  exists new, insert_int current v sign e l m = Ok new /\ zlen new = zlen current /\ bytes_ok new /\
    extract_int new sign e l m = Ok v /\
    forall n, 0 <= n -> n < lsb \/ msb < n ->
      Z.testbit (load_u64 new e) n = Z.testbit (load_u64 current e) n.
Proof. apply insert_then_extract. Qed.

Lemma masked_write_then_read_witness :
  exists new, insert_int [0x12; 0xff; 0x56; 0x78] (-3) Signed Big (Some 15) (Some 8) = Ok new /\
    zlen new = 4 /\ bytes_ok new /\ extract_int new Signed Big (Some 15) (Some 8) = Ok (-3) /\
    forall n, 0 <= n -> n < 16 \/ 23 < n ->
      Z.testbit (load_u64 new Big) n = Z.testbit (load_u64 [0x12; 0xff; 0x56; 0x78] Big) n.
Proof.
  apply (masked_write_then_read [0x12; 0xff; 0x56; 0x78] (-3) Signed Big (Some 15) (Some 8) 16 23).
  - by apply bytes_ok_dec_true.
  - const_range.
  - const_range.
  - intros z [[= <-]|[= <-]]; lia.
  - reflexivity.
  - reflexivity.
Defined.

(** * Bit numbering *)

Lemma le_decode_testbit bs n :
  bytes_ok bs -> 0 <= n ->
  Z.testbit (le_decode bs) n = Z.testbit (default 0 (bs !! Z.to_nat (n / 8))) (n mod 8).
Proof.
  intros Hok. revert n. induction Hok as [|b bs Hb Hok IH]; intros n Hn.
  - cbn [le_decode]. change ([] !! Z.to_nat (n / 8)) with (@None Z). by rewrite !Z.bits_0.
  - cbn [le_decode]. replace (b + 256 * le_decode bs) with (Z.lor (Z.shiftl (le_decode bs) 8) b)
      by (rewrite lor_shiftl_add; [lia|lia|exact Hb]).
    rewrite Z.lor_spec, Z.shiftl_spec by lia. destruct (Z.ltb_spec n 8).
    + rewrite Z.testbit_neg_r by lia. rewrite Z.div_small, Z.mod_small by lia. done.
    + rewrite (testbit_small b 8 n) by (unfold u8_ok in Hb; lia). rewrite orb_false_r, IH by lia.
      replace n with ((n - 8) + 1 * 8) at 3 4 by lia. rewrite Z.div_add, Z.mod_add by lia.
      replace (Z.to_nat ((n - 8) / 8 + 1)) with (S (Z.to_nat ((n - 8) / 8))); [done|].
      assert (0 <= (n - 8) / 8) by (apply Z.div_pos; lia). lia.
Qed.

(** The bit a one-bit masked register selects.  Little-endian registers
    number bits from the least significant bit of the first byte;
    big-endian ones count bit 0 as the most significant bit of the first
    byte. *)
Theorem single_bit_numbering (bs : bytes) (e : Endianness) (p : Z) (b : Z) :
  bytes_ok bs -> 1 <= zlen bs <= 8 -> 0 <= p < 8 * zlen bs -> bs !! Z.to_nat (p / 8) = Some b ->
  extract_int bs Unsigned e (Some p) (Some p) =
    Ok (Z.b2z (Z.testbit b (match e with Little => p mod 8 | Big => 7 - p mod 8 end))).
Proof.
  intros Hok Hlen Hp Hb.
  set (q := match e with Little => p | Big => 8 * zlen bs - 1 - p end).
  assert (bit_range (8 * zlen bs) (Some p) (Some p) e = Some (q, q)) as Hr.
  { unfold bit_range, checked_u32_sub, q. destruct e; cbn [or_else default mbind option_bind from_option id];
      [|replace (p <=? 8 * zlen bs - 1) with true by lia; cbn [mbind option_bind]];
      by replace (_ && _) with true by lia. }
  assert (0 <= q < 8 * zlen bs) as Hq by (unfold q; destruct e; lia).
  rewrite (extract_int_field _ _ _ _ _ q q) by (done || lia). replace (q - q + 1) with 1 by lia. f_equal.
  change (2 ^ 1) with 2. rewrite <- Z.bit0_mod, Z.shiftr_spec by lia.
  unfold field_value. rewrite swrap_small by (try match goal with |- context [Z.b2z ?x] => destruct x end; simpl; lia). f_equal.
  rewrite Z.add_0_l, load_le_order, le_decode_testbit;
    [|destruct e; simpl; [done|by apply Forall_reverse]|lia|done|unfold zlen in Hlen; lia].
  pose proof (Z.div_mod p 8 ltac:(lia)) as Ep. pose proof (Z.mod_pos_bound p 8 ltac:(lia)) as Hm8.
  destruct e; unfold q; cbn [le_order]; [by rewrite Hb|].
  assert ((8 * zlen bs - 1 - p) / 8 = zlen bs - 1 - p / 8) as ->
    by (symmetry; apply (Z.div_unique_pos _ _ _ (7 - p mod 8)); lia).
  assert ((8 * zlen bs - 1 - p) mod 8 = 7 - p mod 8) as ->
    by (symmetry; apply (Z.mod_unique_pos _ _ (zlen bs - 1 - p / 8)); lia).
  unfold zlen in *. rewrite reverse_lookup by lia.
  replace (length bs - S (Z.to_nat (Z.of_nat (length bs) - 1 - p / 8)))%nat with (Z.to_nat (p / 8)) by lia.
  by rewrite Hb.
Qed.

Lemma single_bit_numbering_witness :
  extract_int [0; 0; 0; 0x04] Unsigned Big (Some 29) (Some 29) = Ok (Z.b2z (Z.testbit 0x04 2)).
Proof.
  apply (single_bit_numbering [0; 0; 0; 0x04] Big 29 0x04).
  - by apply bytes_ok_dec_true.
  - const_range.
  - split; [by vm_compute|reflexivity].
  - reflexivity.
Defined.

(** * Float registers *)

(** An eight-byte float register gives back exactly the number written to
    it, in either byte order: zeros with their sign, subnormals and infinities
    included. *)
Theorem float_register_roundtrip (v : f64) (e : Endianness) :
  valid_binary prec64 emax64 v = true -> v <> S754_nan ->
  exists bs, encode_float v 8 e = Ok bs /\ zlen bs = 8 /\ extract_float bs e = Ok v.
Proof.
  intros Hv Hn. destruct (f64_bits_inverse v Hv Hn) as [Hinv Hr].
  destruct (store_shape (f64_to_bits v) 8 e ltac:(lia)) as [_ Hlen].
  exists (store_u64 (f64_to_bits v) 8 e). split_and!; [done|done|].
  unfold extract_float. rewrite Hlen. simpl. by rewrite load_store, Hinv by lia.
Qed.

Lemma float_register_roundtrip_witness :
  exists bs, encode_float (f64_of_decimal 1 (-1)) 8 Big = Ok bs /\ zlen bs = 8 /\
    extract_float bs Big = Ok (f64_of_decimal 1 (-1)).
Proof. by apply (float_register_roundtrip (f64_of_decimal 1 (-1)) Big); [vm_compute|vm_compute; discriminate]. Defined.
