(* ===== verification/Evaluator.v ===== *)
(** The formula evaluator of SwissKnife and Converter nodes: the model of
    [src/src/genicam/evaluator.rs].

    A formula is compiled once, by a single pass over its bytes that tokenizes
    and runs the shunting-yard algorithm, into reverse Polish notation, and
    evaluated on a stack.  The transcendental functions, whose results Rust
    leaves to the platform, are a parameter ([FloatLib]). *)

From Stdlib Require Import SpecFloat.
From S2P Require Import Prelude Float64 Text.

(** * Values *)

Inductive Value := I (v : Z) | F (v : f64).

Definition as_i64 (x : Value) : Z :=
  match x with I v => v | F v => f64_to_i64 (f64_round v) end.

Definition as_f64 (x : Value) : f64 :=
  match x with I v => f64_of_Z v | F v => v end.

Definition truthy (x : Value) : bool :=
  match x with I v => negb (v =? 0) | F v => negb (f64_eqb v f64_zero) end.

(** * Operators *)

Inductive Op :=
| ConstI (v : Z) | ConstF (v : f64) | Var (i : Z)
| TernaryColon | Ternary
| Or | And | BitOr | BitXor | BitAnd
| Eq | Ne | Le | Ge | Lt | Gt
| Shr | Shl | Sub | Add | Rem | Div | Mul | Pow
| UnaryMinus | UnaryPlus | BitNot
| Sin | Cos | Sgn | NegFn | Atan | Tan | Abs | Exp | Ln | Lg | Sqrt
| Trunc | Round | Floor | Ceil | Asin | Acos.

(** [(precedence, right_associative)]. *)
Definition binding (op : Op) : Z * bool :=
  match op with
  | Ternary | TernaryColon => (5, true)
  | Or => (10, false)
  | And => (20, false)
  | BitOr => (40, false)
  | BitXor => (50, false)
  | BitAnd => (60, false)
  | Eq | Ne => (70, false)
  | Le | Ge | Lt | Gt => (80, false)
  | Shr | Shl => (90, false)
  | Sub | Add => (100, false)
  | Rem | Div | Mul => (110, false)
  | Pow => (120, true)
  | UnaryMinus | UnaryPlus | BitNot => (130, true)
  | _ => (200, false)
  end.

Inductive EvalError :=
| UnbalancedParenthesis
| UnexpectedCharacter (c : Z)
| BadHexLiteral | BadFloatLiteral | BadIntLiteral
| Unbound (name : text)
| StackUnderflow
| Malformed
| RemainderByZero
| DivisionByZero
| NanInComparison
| OperandInOperatorPosition
| OutOfFuel.

Record Expr := mkExpr { rpn : list Op; variables : list text }.

(** * Literals *)

Definition is_ascii_digit (c : Z) : bool := between 48 c 57.
Definition is_ascii_alphabetic (c : Z) : bool := between 65 c 90 || between 97 c 122.
Definition is_ascii_alphanumeric (c : Z) : bool := is_ascii_digit c || is_ascii_alphabetic c.
Definition is_ascii_hexdigit (c : Z) : bool := is_ascii_digit c || between 65 c 70 || between 97 c 102.
(** Space, tab, line feed, form feed, carriage return. *)
Definition is_ascii_whitespace (c : Z) : bool :=
  (c =? 32) || (c =? 9) || (c =? 10) || (c =? 12) || (c =? 13).

(** The longest prefix of characters that satisfy [p], and the rest. *)
Fixpoint span (p : Z -> bool) (s : text) : text * text :=
  match s with
  | [] => ([], [])
  | c :: s' => if p c then let '(a, b) := span p s' in (c :: a, b) else ([], s)
  end.

Definition digit_value (c : Z) : Z :=
  if between 48 c 57 then c - 48 else if between 97 c 102 then c - 87 else c - 55.

Definition digits_value (radix : Z) (s : text) : Z :=
  foldl (fun acc c => acc * radix + digit_value c) 0 s.

(** [i64::from_str_radix] on a string of digits: empty and too large strings
    are errors. *)
Definition parse_i64 (radix : Z) (s : text) : option Z :=
  match s with
  | [] => None
  | _ => let v := digits_value radix s in if I64_MAX <? v then None else Some v
  end.

(** [str::parse::<f64>] on a string of digits, dots and exponents. *)
Definition parse_f64 (s : text) : option f64 :=
  let '(int, s1) := span is_ascii_digit s in
  let '(frac, s2) := match s1 with 46 :: s' => span is_ascii_digit s' | _ => ([], s1) end in
  let m := digits_value 10 (int ++ frac) in
  if bool_decide (int ++ frac = []) then None
  else
    match s2 with
    | [] => Some (f64_of_decimal m (- zlen frac))
    | c :: s3 =>
        if (c =? 101) || (c =? 69) then
          let '(neg, s4) := match s3 with 45 :: s' => (true, s') | 43 :: s' => (false, s') | _ => (false, s3) end in
          let '(ex, s5) := span is_ascii_digit s4 in
          if bool_decide (ex = []) || negb (bool_decide (s5 = [])) then None
          else
            let x := digits_value 10 ex in
            Some (f64_of_decimal m ((if neg : bool then - x else x) - zlen frac))
        else None
    end.

(** The scan of a decimal literal: its length and whether it is a float. *)
Fixpoint scan_number (fuel : nat) (s : text) (end_ : nat) (is_float : bool) : nat * bool :=
  match fuel, s with
  | S fuel, c :: s' =>
      if is_ascii_digit c then scan_number fuel s' (S end_) is_float
      else if c =? 46 then scan_number fuel s' (S end_) true
      else if (c =? 101) || (c =? 69) then
        match s' with
        | d :: s'' =>
            if is_ascii_digit d || (d =? 45) || (d =? 43) then scan_number fuel s'' (S (S end_)) true
            else (end_, is_float)
        | [] => (end_, is_float)
        end
      else (end_, is_float)
  | _, _ => (end_, is_float)
  end.

Definition parse_number (src : text) : result EvalError (Op * nat) :=
  if (2 <? zlen src) && (starts_with src (str "0x") || starts_with src (str "0X")) then
    let '(ds, _) := span is_ascii_hexdigit (drop 2 src) in
    v ← ok_or (parse_i64 16 ds) BadHexLiteral;
    Ok (ConstI v, (length ds + 2)%nat)
  else
    let '(end_, is_float) := scan_number (length src) src 0 false in
    if is_float then
      v ← ok_or (parse_f64 (take end_ src)) BadFloatLiteral;
      Ok (ConstF v, end_)
    else
      v ← ok_or (parse_i64 10 (take end_ src)) BadIntLiteral;
      Ok (ConstI v, end_).

(** * Names *)

Definition to_ascii_uppercase (s : text) : text :=
  (fun c => if between 97 c 122 then c - 32 else c) <$> s.

Definition functions : list (text * Op) :=
  [(str "SIN", Sin); (str "COS", Cos); (str "SGN", Sgn); (str "NEG", NegFn); (str "ATAN", Atan);
   (str "TAN", Tan); (str "ABS", Abs); (str "EXP", Exp); (str "LN", Ln); (str "LG", Lg);
   (str "SQRT", Sqrt); (str "TRUNC", Trunc); (str "ROUND", Round); (str "FLOOR", Floor);
   (str "CEIL", Ceil); (str "ASIN", Asin); (str "ACOS", Acos)].

Definition function_named (word : text) : option Op :=
  snd <$> List.find (fun '(n, _) => bool_decide (n = to_ascii_uppercase word)) functions.

Definition PI : f64 := f64_from_bits 0x400921FB54442D18.
Definition E : f64 := f64_from_bits 0x4005BF0A8B145769.

(** [iter().position(|v| v == name)], or push a new entry. *)
Definition variable_index (vars : list text) (name : text) : Z * list text :=
  match fst <$> list_find (fun v => v = name) vars with
  | Some i => (Z.of_nat i, vars)
  | None => (Z.of_nat (length vars), vars ++ [name])
  end.

(** * Compilation *)

(** [None] on the stack is a left parenthesis; the head is its top. *)
Abbreviation OpStack := (list (option Op)) (only parsing).

Definition pops (op top : Op) : bool :=
  let '(precedence, right_assoc) := binding op in
  let '(top_precedence, _) := binding top in
  if right_assoc : bool then precedence <? top_precedence else precedence <=? top_precedence.

Fixpoint push_operator (op : Op) (stack : OpStack) (output : list Op) : OpStack * list Op :=
  match stack with
  | Some top :: stack' =>
      if pops op top then push_operator op stack' (output ++ [top]) else (Some op :: stack, output)
  | _ => (Some op :: stack, output)
  end.

(** The loop at a right parenthesis. *)
Fixpoint close_paren (stack : OpStack) (output : list Op) : result EvalError (OpStack * list Op) :=
  match stack with
  | Some op :: stack => close_paren stack (output ++ [op])
  | None :: stack => Ok (stack, output)
  | [] => Err UnbalancedParenthesis
  end.

(** The operators left when the source ends. *)
Fixpoint drain_stack (stack : OpStack) (output : list Op) : result EvalError (list Op) :=
  match stack with
  | Some op :: stack => drain_stack stack (output ++ [op])
  | None :: _ => Err UnbalancedParenthesis
  | [] => Ok output
  end.

Definition two_char_op (two : text) : option Op :=
  if bool_decide (two = str "||") then Some Or
  else if bool_decide (two = str "&&") then Some And
  else if bool_decide (two = str "<>") then Some Ne
  else if bool_decide (two = str "<=") then Some Le
  else if bool_decide (two = str ">=") then Some Ge
  else if bool_decide (two = str "<<") then Some Shl
  else if bool_decide (two = str ">>") then Some Shr
  else if bool_decide (two = str "**") then Some Pow
  else None.

Definition one_char_op (c : Z) (prev_was_operand : bool) : result EvalError Op :=
  if c =? 63 then Ok Ternary                 (* ? *)
  else if c =? 58 then Ok TernaryColon       (* : *)
  else if c =? 124 then Ok BitOr             (* | *)
  else if c =? 94 then Ok BitXor             (* ^ *)
  else if c =? 38 then Ok BitAnd             (* & *)
  else if c =? 61 then Ok Eq                 (* = *)
  else if c =? 60 then Ok Lt                 (* < *)
  else if c =? 62 then Ok Gt                 (* > *)
  else if (c =? 43) && negb prev_was_operand then Ok UnaryPlus
  else if (c =? 45) && negb prev_was_operand then Ok UnaryMinus
  else if c =? 43 then Ok Add                (* + *)
  else if c =? 45 then Ok Sub                (* - *)
  else if c =? 37 then Ok Rem                (* % *)
  else if c =? 47 then Ok Div                (* / *)
  else if c =? 42 then Ok Mul                (* * *)
  else if c =? 126 then Ok BitNot            (* ~ *)
  else Err (UnexpectedCharacter c).

Definition operator_at (s : text) (prev_was_operand : bool) : result EvalError (Op * nat) :=
  match two_char_op (take 2 s), s with
  | Some op, _ => Ok (op, 2%nat)
  | None, c :: _ => op ← one_char_op c prev_was_operand; Ok (op, 1%nat)
  | None, [] => Err OutOfFuel
  end.

Record Compiler := mkCompiler {
  c_variables : list text; c_output : list Op; c_stack : OpStack; c_prev : bool }.

Definition is_word_char (c : Z) : bool := is_ascii_alphanumeric c || (c =? 95) || (c =? 46).

(** A word: a function, a constant or a variable. *)
Definition compile_word (c : Compiler) (word : text) : Compiler :=
  match function_named word with
  | Some op =>
      let '(stack, output) := push_operator op (c_stack c) (c_output c) in
      mkCompiler (c_variables c) output stack (c_prev c)
  | None =>
      if bool_decide (word = str "PI") then
        mkCompiler (c_variables c) (c_output c ++ [ConstF PI]) (c_stack c) true
      else if bool_decide (word = str "E") then
        mkCompiler (c_variables c) (c_output c ++ [ConstF E]) (c_stack c) true
      else
        let '(index, vars) := variable_index (c_variables c) word in
        mkCompiler vars (c_output c ++ [Var (wrap 16 index)]) (c_stack c) true
  end.

(** One turn of the loop at a non-empty rest [ch :: s]. *)
Definition compile_step (c : Compiler) (ch : Z) (s : text) : result EvalError (Compiler * text) :=
  let src := ch :: s in
  if is_ascii_whitespace ch then Ok (c, s)
  else if is_ascii_digit ch || ((ch =? 46) && match s with d :: _ => is_ascii_digit d | [] => false end) then
    '((value, len) : Op * nat) ← parse_number src;
    Ok (mkCompiler (c_variables c) (c_output c ++ [value]) (c_stack c) true, drop len src)
  else if is_ascii_alphabetic ch || (ch =? 95) then
    let '(word, rest) := span is_word_char src in
    Ok (compile_word c word, rest)
  else if ch =? 40 then
    Ok (mkCompiler (c_variables c) (c_output c) (None :: c_stack c) false, s)
  else if ch =? 41 then
    '((stack, output) : OpStack * list Op) ← close_paren (c_stack c) (c_output c);
    Ok (mkCompiler (c_variables c) output stack true, s)
  else
    '((op, len) : Op * nat) ← operator_at src (c_prev c);
    let '(stack, output) := push_operator op (c_stack c) (c_output c) in
    Ok (mkCompiler (c_variables c) output stack false, drop len src).

Fixpoint compile (fuel : nat) (c : Compiler) (s : text) : result EvalError Compiler :=
  match s, fuel with
  | [], _ => Ok c
  | _ :: _, O => Err OutOfFuel
  | ch :: s, S fuel => '((c, s) : Compiler * text) ← compile_step c ch s; compile fuel c s
  end.

Definition Expr_parse (src : text) : result EvalError Expr :=
  c ← compile (length src) (mkCompiler [] [] [] false) src;
  output ← drain_stack (c_stack c) (c_output c);
  Ok (mkExpr output (c_variables c)).

(** * Evaluation *)

(** The functions of [f64] whose result the platform decides. *)
Class FloatLib := {
  fl_sin : f64 -> f64; fl_cos : f64 -> f64; fl_tan : f64 -> f64;
  fl_asin : f64 -> f64; fl_acos : f64 -> f64; fl_atan : f64 -> f64;
  fl_exp : f64 -> f64; fl_ln : f64 -> f64; fl_log10 : f64 -> f64; fl_powf : f64 -> f64 -> f64 }.

(** The operand stack, top first. *)
Abbreviation Stack := (list Value) (only parsing).

Definition pop (stack : Stack) : result EvalError (Value * Stack) :=
  match stack with v :: stack => Ok (v, stack) | [] => Err StackUnderflow end.

Definition binary (stack : Stack) : result EvalError (Value * Value * Stack) :=
  '((b, stack) : Value * Stack) ← pop stack;
  '((a, stack) : Value * Stack) ← pop stack;
  Ok (a, b, stack).

Definition i64_from (b : bool) : Z := if b then 1 else 0.

Definition int_binop (stack : Stack) (f : Z -> Z -> Z) : result EvalError (Value * Stack) :=
  '((a, b, stack) : Value * Value * Stack) ← binary stack;
  Ok (I (f (as_i64 a) (as_i64 b)), stack).

Definition arith (stack : Stack) (int_f : Z -> Z -> Z) (float_f : f64 -> f64 -> f64)
    : result EvalError (Value * Stack) :=
  '((a, b, stack) : Value * Value * Stack) ← binary stack;
  Ok (match a, b with
      | I x, I y => I (int_f x y)
      | _, _ => F (float_f (as_f64 a) (as_f64 b))
      end, stack).

Definition value_compare (a b : Value) : option comparison :=
  match a, b with
  | I x, I y => Some (x ?= y)
  | _, _ => f64_partial_cmp (as_f64 a) (as_f64 b)
  end.

Definition compare_values (stack : Stack) (f : comparison -> bool) : result EvalError (Value * Stack) :=
  '((a, b, stack) : Value * Value * Stack) ← binary stack;
  ordering ← ok_or (value_compare a b) NanInComparison;
  Ok (I (i64_from (f ordering)), stack).

Definition wrapping_shl (a b : Z) : Z := swrap 64 (Z.shiftl a (Z.land (wrap 32 b) 63)).
Definition wrapping_shr (a b : Z) : Z := Z.shiftr a (Z.land (wrap 32 b) 63).

Section eval.
Context {FL : FloatLib}.

Definition float_fn (stack : Stack) (f : f64 -> f64) : result EvalError (Value * Stack) :=
  '((a, stack) : Value * Stack) ← pop stack;
  Ok (F (f (as_f64 a)), stack).

Definition unary (stack : Stack) (f : Value -> Value) : result EvalError (Value * Stack) :=
  '((a, stack) : Value * Stack) ← pop stack;
  Ok (f a, stack).

Definition apply_op (op : Op) (stack : Stack) : result EvalError (Value * Stack) :=
  match op with
  | Or => '((a, b, stack) : Value * Value * Stack) ← binary stack;
          Ok (I (i64_from (truthy a || truthy b)), stack)
  | And => '((a, b, stack) : Value * Value * Stack) ← binary stack;
           Ok (I (i64_from (truthy a && truthy b)), stack)
  | BitOr => int_binop stack Z.lor
  | BitXor => int_binop stack Z.lxor
  | BitAnd => int_binop stack Z.land
  | Shl => int_binop stack wrapping_shl
  | Shr => int_binop stack wrapping_shr
  | Rem => '((a, b, stack) : Value * Value * Stack) ← binary stack;
           let divisor := as_i64 b in
           if divisor =? 0 then Err RemainderByZero else Ok (I (Z.rem (as_i64 a) divisor), stack)
  | Eq => compare_values stack (fun o => bool_decide (o = Datatypes.Eq))
  | Ne => compare_values stack (fun o => negb (bool_decide (o = Datatypes.Eq)))
  | Le => compare_values stack (fun o => negb (bool_decide (o = Datatypes.Gt)))
  | Ge => compare_values stack (fun o => negb (bool_decide (o = Datatypes.Lt)))
  | Lt => compare_values stack (fun o => bool_decide (o = Datatypes.Lt))
  | Gt => compare_values stack (fun o => bool_decide (o = Datatypes.Gt))
  | Add => arith stack (fun a b => swrap 64 (a + b)) f64_add
  | Sub => arith stack (fun a b => swrap 64 (a - b)) f64_sub
  | Mul => arith stack (fun a b => swrap 64 (a * b)) f64_mul
  | Div => '((a, b, stack) : Value * Value * Stack) ← binary stack;
           match a, b with
           | I x, I y => if y =? 0 then Err DivisionByZero else Ok (I (swrap 64 (Z.quot x y)), stack)
           | _, _ => Ok (F (f64_div (as_f64 a) (as_f64 b)), stack)
           end
  | Pow => '((a, b, stack) : Value * Value * Stack) ← binary stack;
           Ok (F (fl_powf (as_f64 a) (as_f64 b)), stack)
  | UnaryMinus | NegFn =>
      unary stack (fun a => match a with I v => I (swrap 64 (- v)) | F v => F (f64_neg v) end)
  | UnaryPlus => unary stack (fun a => a)
  | BitNot => unary stack (fun a => I (Z.lnot (as_i64 a)))
  | Sgn => unary stack (fun a =>
      match a with
      | I v => I (Z.sgn v)
      | F v => I (if f64_ltb f64_zero v then 1 else if f64_ltb v f64_zero then -1 else 0)
      end)
  | Abs => unary stack (fun a => match a with I v => I (swrap 64 (Z.abs v)) | F v => F (f64_abs v) end)
  | Sin => float_fn stack fl_sin
  | Cos => float_fn stack fl_cos
  | Tan => float_fn stack fl_tan
  | Asin => float_fn stack fl_asin
  | Acos => float_fn stack fl_acos
  | Atan => float_fn stack fl_atan
  | Exp => float_fn stack fl_exp
  | Ln => float_fn stack fl_ln
  | Lg => float_fn stack fl_log10
  | Sqrt => float_fn stack f64_sqrt
  | Trunc => float_fn stack f64_trunc
  | Round => float_fn stack f64_round
  | Floor => float_fn stack f64_floor
  | Ceil => float_fn stack f64_ceil
  | ConstI _ | ConstF _ | Var _ | TernaryColon | Ternary => Err OperandInOperatorPosition
  end.

(** One element of the reverse Polish form. *)
Definition eval_op (e : Expr) (vars : list Value) (op : Op) (stack : Stack) : result EvalError Stack :=
  match op with
  | ConstI v => Ok (I v :: stack)
  | ConstF v => Ok (F v :: stack)
  | Var i => v ← ok_or (vars !! Z.to_nat i) (Unbound (default [] (variables e !! Z.to_nat i)));
             Ok (v :: stack)
  | TernaryColon => Ok stack
  | Ternary =>
      '((c, stack) : Value * Stack) ← pop stack;
      '((b, stack) : Value * Stack) ← pop stack;
      '((a, stack) : Value * Stack) ← pop stack;
      Ok ((if truthy a then b else c) :: stack)
  | _ => '((v, stack) : Value * Stack) ← apply_op op stack; Ok (v :: stack)
  end.

Fixpoint eval_rpn (e : Expr) (vars : list Value) (ops : list Op) (stack : Stack) : result EvalError Stack :=
  match ops with
  | [] => Ok stack
  | op :: ops => stack ← eval_op e vars op stack; eval_rpn e vars ops stack
  end.

Definition Expr_eval (e : Expr) (vars : list Value) : result EvalError Value :=
  stack ← eval_rpn e vars (rpn e) [];
  if negb (length stack =? 1)%nat then Err Malformed
  else '((v, _) : Value * Stack) ← pop stack; Ok v.
End eval.

(** The tests of the source, on a library that has no transcendental
    functions. *)
#[local] Instance no_float_lib : FloatLib := {|
  fl_sin := id; fl_cos := id; fl_tan := id; fl_asin := id; fl_acos := id; fl_atan := id;
  fl_exp := id; fl_ln := id; fl_log10 := id; fl_powf := fun a _ => a |}.

Definition eval_int (src : string) : result EvalError Z :=
  e ← Expr_parse (str src); v ← Expr_eval e []; Ok (as_i64 v).

Example eval_tests :
  eval_int <$> ["1+2*3"; "(1+2)*3"; "10-4-3"; "1+2<<3"; "7%3"; "7/2"; "-3+5"; "4*-2"; "~0";
                "0xff & 0x0f"; "1|2|4"; "5^1"; "1<<16"; "1=1"; "1<>1"; "2>=3"; "2<3 && 3<4"; "0||0";
                "1?2:3"; "0?2:3"; "1?2:0?3:4"; "0?2:0?3:4"; "ABS(-5)"; "SGN(-3)"; "SQRT(16)";
                "ROUND(2.5)"; "TRUNC(2.9)"; "0x10 + 0X0F"; "1.5E2"; ".5 * 4"]%string
  = Ok <$> [7; 9; 3; 24; 1; 3; 2; -8; -1; 15; 7; 4; 65536; 1; 0; 0; 1; 0; 2; 3; 2; 4; 5; -1; 4; 3; 2; 31; 150; 2].
Proof. vm_compute. reflexivity. Qed.
