(* ===== verification/Formula.v ===== *)
(** Formulas mean what the grammar says.

    [spells p t s] is the grammar of formulas: [s] is a way of writing the
    term [t] where a term that binds at least as tightly as [p] is wanted,
    with any white space and any number of parentheses.  [sem] is the meaning
    of a term.  The theorem is that the one-pass compiler accepts every
    formula of the grammar and that the stack evaluation of its output is the
    term's meaning.  The middle operand of a conditional must bind tighter
    than a conditional (so a conditional there needs parentheses): without
    them the compiler reads the formula differently from C, see
    [nested_conditional]. *)

From Stdlib Require Import SpecFloat.
From S2P Require Import Prelude Float64 Text Evaluator.

(** * Terms and their meaning *)

Inductive term :=
| TInt (v : Z)
| TFloat (v : f64)
| TVar (name : text)
| TApp1 (op : Op) (a : term)
| TApp2 (op : Op) (a b : term)
| TCond (a b c : term).

Section sem.
Context {FL : FloatLib}.
Variable env : text -> Value.

Definition apply1 (op : Op) (a : Value) : result EvalError Value := fst <$> apply_op op [a].
Definition apply2 (op : Op) (a b : Value) : result EvalError Value := fst <$> apply_op op [b; a].

(** Operands are evaluated from left to right, the unused branch of a
    conditional included. *)
Fixpoint sem (t : term) : result EvalError Value :=
  match t with
  | TInt v => Ok (I v)
  | TFloat v => Ok (F v)
  | TVar name => Ok (env name)
  | TApp1 op a => a ← sem a; apply1 op a
  | TApp2 op a b => a ← sem a; b ← sem b; apply2 op a b
  | TCond a b c => a ← sem a; b ← sem b; c ← sem c; Ok (if truthy a then b else c)
  end.
End sem.

(** * The grammar *)

Definition prec (op : Op) : Z := fst (binding op).

(** The binary operators and how they are written. *)
Definition binary_symbol (op : Op) : option text :=
  match op with
  | Or => Some (str "||") | And => Some (str "&&") | BitOr => Some (str "|") | BitXor => Some (str "^")
  | BitAnd => Some (str "&") | Eq => Some (str "=") | Ne => Some (str "<>") | Le => Some (str "<=")
  | Ge => Some (str ">=") | Lt => Some (str "<") | Gt => Some (str ">") | Shr => Some (str ">>")
  | Shl => Some (str "<<") | Sub => Some (str "-") | Add => Some (str "+") | Rem => Some (str "%")
  | Div => Some (str "/") | Mul => Some (str "*") | Pow => Some (str "**")
  | _ => None
  end.

Definition prefix_symbol (op : Op) : option Z :=
  match op with UnaryMinus => Some 45 | UnaryPlus => Some 43 | BitNot => Some 126 | _ => None end.

Definition left_level (op : Op) : Z := let '(q, rassoc) := binding op in if rassoc : bool then q + 1 else q.
Definition right_level (op : Op) : Z := let '(q, rassoc) := binding op in if rassoc : bool then q else q + 1.

Definition blank (w : text) : Prop := Forall (fun c => is_ascii_whitespace c = true) w.

(** A word starts with a letter or an underscore. *)
Definition is_word (word : text) : Prop :=
  Forall (fun c => is_word_char c = true) word /\
  match word with c :: _ => is_ascii_alphabetic c || (c =? 95) = true | [] => False end.

Definition is_digits (s : text) : Prop := Forall (fun c => is_ascii_digit c = true) s.
Definition is_hex (s : text) : Prop := Forall (fun c => is_ascii_hexdigit c = true) s.

(** Literals: decimal and hexadecimal integers that fit, and decimal
    fractions. *)
Inductive literal : text -> term -> Prop :=
| lit_dec s : s <> [] -> is_digits s -> digits_value 10 s <= I64_MAX -> literal s (TInt (digits_value 10 s))
| lit_hex x s : x = 120 \/ x = 88 -> s <> [] -> is_hex s -> digits_value 16 s <= I64_MAX ->
    literal (48 :: x :: s) (TInt (digits_value 16 s))
| lit_frac a b : a <> [] \/ b <> [] -> is_digits a -> is_digits b ->
    literal (a ++ 46 :: b) (TFloat (f64_of_decimal (digits_value 10 (a ++ b)) (- zlen b))).

Inductive spells : Z -> term -> text -> Prop :=
| sp_literal p s t : literal s t -> spells p t s
| sp_pi p : spells p (TFloat PI) (str "PI")
| sp_e p : spells p (TFloat E) (str "E")
| sp_var p name : is_word name -> function_named name = None -> name <> str "PI" -> name <> str "E" ->
    spells p (TVar name) name
| sp_blank p t c s : is_ascii_whitespace c = true -> spells p t s -> spells p t (c :: s)
| sp_paren p t s w : spells 0 t s -> blank w -> spells p t (40 :: s ++ w ++ [41])
| sp_call p f a word w s w' : p <= 131 -> is_word word -> function_named word = Some f ->
    blank w -> spells 0 a s -> blank w' ->
    spells p (TApp1 f a) (word ++ w ++ 40 :: s ++ w' ++ [41])
| sp_prefix p op sym a s : prefix_symbol op = Some sym -> p <= prec op -> spells (prec op) a s ->
    spells p (TApp1 op a) (sym :: s)
| sp_binary p op sym a b s w s' : binary_symbol op = Some sym -> p <= prec op ->
    spells (left_level op) a s -> blank w -> spells (right_level op) b s' ->
    spells p (TApp2 op a b) (s ++ w ++ sym ++ s')
| sp_cond p a b c s w s' w' s'' : p <= 5 -> spells 6 a s -> blank w -> spells 6 b s' -> blank w' ->
    spells 5 c s'' -> spells p (TCond a b c) (s ++ w ++ 63 :: s' ++ w' ++ 58 :: s'').

(** * The compiler as a transition system *)

Definition step (x y : Compiler * text) : Prop :=
  exists ch s, snd x = ch :: s /\ compile_step (fst x) ch s = Ok y.

Definition steps : Compiler * text -> Compiler * text -> Prop := rtc step.

Lemma steps_trans x y z : steps x y -> steps y z -> steps x z.
Proof. unfold steps. intros. by etrans. Qed.

Lemma step_intro c ch s y : compile_step c ch s = Ok y -> step (c, ch :: s) y.
Proof. intros H. by exists ch, s. Qed.

Lemma span_app p a b : Forall (fun c => p c = true) a -> match b with [] => True | c :: _ => p c = false end ->
  span p (a ++ b) = (a, b).
Proof.
  intros Ha Hb. induction Ha as [|c a Hc _ IH]; simpl.
  - destruct b as [|c b]; [done|]. simpl. by rewrite Hb.
  - by rewrite Hc, IH.
Qed.

Lemma span_split p s : s = (span p s).1 ++ (span p s).2.
Proof.
  induction s as [|c s IH]; [done|]. simpl. destruct (p c); [|done]. destruct (span p s) as [a b].
  simpl in *. by rewrite IH at 1.
Qed.

(** ** Every turn of the loop reads something *)

Lemma scan_number_grows fuel s n b : (n <= (scan_number fuel s n b).1)%nat.
Proof.
  revert s n b. induction fuel as [|fuel IH]; intros [|c s] n b; simpl; try lia.
  destruct (is_ascii_digit c); [specialize (IH s (S n) b); lia|].
  destruct (c =? 46); [specialize (IH s (S n) true); lia|].
  destruct ((c =? 101) || (c =? 69)); [|simpl; lia]. destruct s as [|d s]; [simpl; lia|].
  destruct (_ || _); [specialize (IH s (S (S n)) true); lia|simpl; lia].
Qed.

Lemma parse_number_len ch s op len :
  is_ascii_digit ch = true \/ ch = 46 -> parse_number (ch :: s) = Ok (op, len) -> (0 < len)%nat.
Proof.
  intros Hch. unfold parse_number. destruct (_ && _).
  - destruct (span _ _) as [ds r]. destruct (parse_i64 16 ds); simpl; [|discriminate]. intros [= _ <-]. lia.
  - assert (0 < (scan_number (length (ch :: s)) (ch :: s) 0 false).1)%nat as Hpos.
    { simpl. destruct (is_ascii_digit ch) eqn:E.
      - pose proof (scan_number_grows (length s) s 1 false). lia.
      - destruct Hch as [|Hch]; [done|]. rewrite (proj2 (Z.eqb_eq ch 46) Hch).
        pose proof (scan_number_grows (length s) s 1 true). lia. }
    destruct (scan_number _ _ _ _) as [end_ []]; simpl in Hpos.
    + destruct (parse_f64 _); simpl; [|discriminate]. by intros [= _ <-].
    + destruct (parse_i64 _ _); simpl; [|discriminate]. by intros [= _ <-].
Qed.

Lemma operator_len s b op len : operator_at s b = Ok (op, len) -> (0 < len)%nat.
Proof.
  unfold operator_at. destruct (two_char_op _); [intros [= _ <-]; lia|]. destruct s; [discriminate|].
  destruct (one_char_op _ _); simpl; [|discriminate]. intros [= _ <-]. lia.
Qed.

Lemma step_shrinks c ch s c' s' : compile_step c ch s = Ok (c', s') -> (length s' <= length s)%nat.
Proof.
  assert (forall len, (0 < len)%nat -> (length (drop len (ch :: s)) <= length s)%nat) as Hdrop.
  { intros len Hlen. rewrite length_drop. simpl. lia. }
  unfold compile_step. destruct (is_ascii_whitespace ch); [by intros [= _ <-]|].
  destruct (is_ascii_digit ch || _) eqn:Hd.
  { destruct (parse_number (ch :: s)) as [[v len]|] eqn:Hp; simpl; [|discriminate]. intros [= _ <-].
    apply Hdrop. eapply parse_number_len; [|exact Hp].
    destruct (is_ascii_digit ch); [by left|]. right. simpl in Hd. lia. }
  destruct (is_ascii_alphabetic ch || _) eqn:Ha.
  { pose proof (span_split is_word_char (ch :: s)) as Hs. cbn [span] in *.
    assert (is_word_char ch = true) as Hw.
    { unfold is_word_char, is_ascii_alphanumeric. destruct (is_ascii_alphabetic ch); [|simpl in Ha; rewrite Ha].
      - by rewrite orb_true_r.
      - by rewrite !orb_true_r. }
    rewrite Hw in *. destruct (span is_word_char s) as [a b]. intros [= _ <-]. simpl in Hs.
    injection Hs as ->. rewrite length_app. lia. }
  destruct (ch =? 40); [by intros [= _ <-]|]. destruct (ch =? 41).
  { destruct (close_paren _ _) as [[st o]|]; simpl; [by intros [= _ <-]|discriminate]. }
  destruct (operator_at _ _) as [[op len]|] eqn:Ho; simpl; [|discriminate].
  destruct (push_operator _ _ _). intros [= _ <-]. apply Hdrop. by eapply operator_len.
Qed.

Lemma steps_compile c s c' :
  steps (c, s) (c', []) -> forall fuel, (length s <= fuel)%nat -> compile fuel c s = Ok c'.
Proof.
  intros H. remember (c, s) as x eqn:Ex. remember (c', []) as y eqn:Ey. revert c s Ex.
  induction H as [x|x [c1 s1] y (ch & s0 & Hs & Hstep) Hrest IH]; intros c s ->.
  - injection Ey as -> ->. by intros [|fuel].
  - simpl in Hs. subst s. simpl in Hstep. intros [|fuel] Hf; [simpl in Hf; lia|]. simpl.
    rewrite Hstep. simpl. apply IH; [done|done|]. apply step_shrinks in Hstep. simpl in Hf. lia.
Qed.

(** * The output for a term *)

Definition index_of (tbl : list text) (name : text) : Z :=
  match fst <$> list_find (fun v => v = name) tbl with Some i => Z.of_nat i | None => 0 end.

Fixpoint postfix (tbl : list text) (t : term) : list Op :=
  match t with
  | TInt v => [ConstI v]
  | TFloat v => [ConstF v]
  | TVar name => [Var (wrap 16 (index_of tbl name))]
  | TApp1 op a => postfix tbl a ++ [op]
  | TApp2 op a b => postfix tbl a ++ postfix tbl b ++ [op]
  | TCond a b c => postfix tbl a ++ postfix tbl b ++ postfix tbl c ++ [TernaryColon; Ternary]
  end.

Fixpoint names (t : term) : list text :=
  match t with
  | TInt _ | TFloat _ => []
  | TVar name => [name]
  | TApp1 _ a => names a
  | TApp2 _ a b => names a ++ names b
  | TCond a b c => names a ++ names b ++ names c
  end.

Definition knows (tbl : list text) (t : term) : Prop := Forall (fun n => n ∈ tbl) (names t).

Lemma find_known (tbl : list text) (name : text) : name ∈ tbl -> exists i, list_find (fun v => v = name) tbl = Some (i, name).
Proof.
  intros H. destruct (list_find_elem_of (fun v => v = name) tbl name H eq_refl) as [[i x] Hf].
  pose proof Hf as Hf'. apply list_find_Some in Hf' as (_ & -> & _). by exists i.
Qed.

Lemma index_of_mono tbl more name : name ∈ tbl -> index_of (tbl ++ more) name = index_of tbl name.
Proof.
  intros H. unfold index_of. destruct (find_known _ _ H) as [i Hi]. rewrite Hi.
  by rewrite (list_find_app_l _ _ _ _ _ Hi).
Qed.

Lemma postfix_mono tbl more t : knows tbl t -> postfix (tbl ++ more) t = postfix tbl t.
Proof.
  unfold knows. induction t as [v|v|name|op a IHa|op a IHa b IHb|a IHa b IHb c IHc]; simpl;
    rewrite ?Forall_app; intros H; [done|done| | | |].
  - apply Forall_cons in H as [H _]. by rewrite (index_of_mono _ _ _ H).
  - by rewrite IHa.
  - destruct H. by rewrite IHa, IHb.
  - destruct H as (? & ? & ?). by rewrite IHa, IHb, IHc.
Qed.

Lemma knows_mono tbl more t : knows tbl t -> knows (tbl ++ more) t.
Proof. intros H. eapply Forall_impl; [exact H|]. intros n Hn. apply elem_of_app. by left. Qed.

(** * Pushing operators *)

Definition stop (op : Op) (base : list (option Op)) : Prop :=
  match base with Some top :: _ => pops op top = false | _ => True end.

Definition admits (p : Z) (base : list (option Op)) : Prop :=
  match base with
  | Some top :: _ => prec top < p \/ (prec top = p /\ snd (binding top) = true)
  | _ => True
  end.

Lemma right_assoc_levels op :
  snd (binding op) = ((prec op =? 5) || (prec op =? 120) || (prec op =? 130)).
Proof. by destruct op. Qed.

Lemma pops_spec op top :
  pops op top = if snd (binding op) then prec op <? prec top else prec op <=? prec top.
Proof. unfold pops, prec. by destruct (binding op) as [q []], (binding top) as [q' r]. Qed.

Lemma admits_stop p op base : p <= prec op -> admits p base -> stop op base.
Proof.
  unfold admits, stop. destruct base as [|[top|] base]; [done| |done]. intros Hp [H|[H Hr]].
  - rewrite pops_spec. destruct (snd (binding op)); lia.
  - rewrite pops_spec. rewrite right_assoc_levels in *. rewrite H in Hr.
    destruct ((prec op =? 5) || (prec op =? 120) || (prec op =? 130)) eqn:E; lia.
Qed.

Lemma admits_mono p q base : p <= q -> admits p base -> admits q base.
Proof.
  unfold admits. destruct base as [|[top|] base]; [done| |done]. intros Hpq [H|[H Hr]]; [left; lia|].
  destruct (decide (p = q)) as [->|]; [by right|left; lia].
Qed.

Lemma push_flush op ops base out :
  Forall (fun o => pops op o = true) ops -> stop op base ->
  push_operator op ((Some <$> ops) ++ base) out = (Some op :: base, out ++ ops).
Proof.
  intros Hops Hb. revert out. induction Hops as [|o ops Ho _ IH]; intros out; simpl.
  - rewrite app_nil_r. destruct base as [|[top|] base]; [done| |done]. simpl in *. by rewrite Hb.
  - by rewrite Ho, IH, <- app_assoc.
Qed.

Lemma push_stop op base out : stop op base -> push_operator op base out = (Some op :: base, out).
Proof. destruct base as [|[top|] base]; [done| |done]. simpl. by intros ->. Qed.

Lemma close_flush ops base out :
  close_paren ((Some <$> ops) ++ None :: base) out = Ok (base, out ++ ops).
Proof.
  revert out. induction ops as [|o ops IH]; intros out; simpl; [by rewrite app_nil_r|].
  by rewrite IH, <- app_assoc.
Qed.

Lemma drain_flush ops out : drain_stack (Some <$> ops) out = Ok (out ++ ops).
Proof.
  revert out. induction ops as [|o ops IH]; intros out; simpl; [by rewrite app_nil_r|].
  by rewrite IH, <- app_assoc.
Qed.

(** * Tokens *)

(** What may follow a literal or a word. *)
Definition delim (s : text) : Prop := match s with [] => True | c :: _ => is_word_char c = false end.

Lemma delim_blank w s : blank w -> delim s -> delim (w ++ s).
Proof.
  intros Hw Hs. destruct w as [|c w]; [done|]. apply Forall_cons in Hw as [Hc _]. simpl.
  unfold is_ascii_whitespace, is_word_char, is_ascii_alphanumeric, is_ascii_digit, is_ascii_alphabetic, between in *.
  lia.
Qed.

Lemma step_blank c w s : blank w -> steps (c, w ++ s) (c, s).
Proof.
  intros Hw. induction Hw as [|ch w Hc _ IH]; [apply rtc_refl|]. eapply rtc_l; [|exact IH].
  apply step_intro. unfold compile_step. by rewrite Hc.
Qed.

(** Characters an operand can start with: none of them makes a two-character
    operator with the operator before it. *)
Definition starts_operand (s : text) : Prop :=
  match s with
  | c :: _ => c <> 124 /\ c <> 38 /\ c <> 62 /\ c <> 61 /\ c <> 60 /\ c <> 42
  | [] => False
  end.

Ltac char_lia :=
  unfold is_word, is_ascii_hexdigit, is_ascii_whitespace, is_word_char, is_ascii_alphanumeric, is_ascii_digit,
    is_ascii_alphabetic, between in *; lia.

Lemma is_digits_cons c s : is_digits (c :: s) -> is_ascii_digit c = true /\ is_digits s.
Proof. intros H. by apply Forall_cons in H. Qed.

Lemma spells_start p t s rest : spells p t s -> starts_operand (s ++ rest).
Proof.
  intros H. revert rest.
  assert (forall c s', is_ascii_alphabetic c || (c =? 95) = true -> starts_operand (c :: s')) as Hword
    by (intros; simpl; split_and!; char_lia).
  induction H as [p s t Hl|p|p|p name [_ Hn] _ _ _|p t c s Hc _ IH|p t s w _ IH _|p f a word w s w' _ [_ Hw] _ _ _ _ _
                 |p op sym a s Hs _ _ _|p op sym a b s w s' _ _ _ IH _ _ _|p a b c s w s' w' s'' _ _ IH _ _ _ _ _ _];
    intros rest.
  - destruct Hl as [s Hne Hd _|x s Hx _ _ _|a b Hne Ha Hb].
    + destruct s as [|c s]; [done|]. apply is_digits_cons in Hd as [Hd _]. simpl. split_and!; char_lia.
    + simpl. split_and!; lia.
    + destruct a as [|c a]; simpl; [split_and!; lia|]. apply is_digits_cons in Ha as [Ha _]. split_and!; char_lia.
  - simpl. split_and!; lia.
  - simpl. split_and!; lia.
  - destruct name as [|c name]; [done|]. by apply Hword.
  - simpl. split_and!; char_lia.
  - simpl. split_and!; lia.
  - destruct word as [|c word]; [done|]. by apply Hword.
  - destruct op; simplify_eq/=; split_and!; lia.
  - rewrite <- app_assoc. apply IH.
  - rewrite <- app_assoc. apply IH.
Qed.

(** ** Literals *)

Lemma scan_digits ds fuel s n b :
  is_digits ds -> scan_number (length ds + fuel) (ds ++ s) n b = scan_number fuel s (n + length ds) b.
Proof.
  intros Hd. revert n. induction Hd as [|c ds Hc _ IH]; intros n; simpl; [by rewrite Nat.add_0_r|].
  rewrite Hc, IH. f_equal. lia.
Qed.

Lemma scan_stop fuel s n b : delim s -> scan_number fuel s n b = (n, b).
Proof.
  destruct fuel as [|fuel], s as [|c s]; try done. simpl. intros Hd.
  replace (is_ascii_digit c) with false by char_lia. replace (c =? 46) with false by char_lia.
  by replace ((c =? 101) || (c =? 69)) with false by char_lia.
Qed.

Lemma not_hex src :
  match src with _ :: x :: _ => x <> 120 /\ x <> 88 | _ => True end ->
  (2 <? zlen src) && (starts_with src (str "0x") || starts_with src (str "0X")) = false.
Proof.
  destruct src as [|c [|x s]]; intros H.
  - done.
  - reflexivity.
  - change (str "0x") with [48; 120]. change (str "0X") with [48; 88]. cbn [starts_with].
    rewrite (proj2 (Z.eqb_neq 120 x)), (proj2 (Z.eqb_neq 88 x)) by lia. by rewrite !andb_false_r.
Qed.

Lemma second_digit a s :
  is_digits a -> a <> [] ->
  match s with x :: _ => x <> 120 /\ x <> 88 | [] => True end ->
  match a ++ s with _ :: x :: _ => x <> 120 /\ x <> 88 | _ => True end.
Proof.
  intros Ha Hne Hs. destruct a as [|c [|d a]]; [done| |].
  - simpl. by destruct s.
  - apply is_digits_cons in Ha as [_ Ha]. apply is_digits_cons in Ha as [Hd _]. simpl. split; char_lia.
Qed.

Lemma delim_not_x s : delim s -> match s with x :: _ => x <> 120 /\ x <> 88 | [] => True end.
Proof. destruct s as [|c s]; [done|]. simpl. intros H. split; intros ->; by vm_compute in H. Qed.

Lemma take_app_exact {A} (s rest : list A) : take (length s) (s ++ rest) = s.
Proof. by rewrite take_app_length. Qed.

Lemma parse_i64_digits radix s : s <> [] -> digits_value radix s <= I64_MAX -> parse_i64 radix s = Some (digits_value radix s).
Proof. intros Hne Hv. unfold parse_i64. destruct s; [done|]. by replace (I64_MAX <? _) with false by lia. Qed.

Lemma digits_stop (p : Z -> bool) s :
  (forall c, p c = true -> is_word_char c = true) -> delim s ->
  match s with [] => True | c :: _ => p c = false end.
Proof.
  intros Hp. destruct s as [|c s]; [done|]. simpl. intros H. destruct (p c) eqn:E; [|done].
  apply Hp in E. congruence.
Qed.

Lemma parse_f64_frac a b :
  a <> [] \/ b <> [] -> is_digits a -> is_digits b ->
  parse_f64 (a ++ 46 :: b) = Some (f64_of_decimal (digits_value 10 (a ++ b)) (- zlen b)).
Proof.
  intros Hne Ha Hb. unfold parse_f64. rewrite span_app by done. cbn beta iota.
  rewrite <- (app_nil_r b) at 1. rewrite span_app by done. cbn beta iota.
  rewrite bool_decide_eq_false_2; [done|]. intros [-> ->]%app_nil. by destruct Hne.
Qed.

(** A literal is one token. *)
Lemma literal_token s t rest :
  literal s t -> delim rest ->
  exists op, parse_number (s ++ rest) = Ok (op, length s) /\ forall tbl, postfix tbl t = [op].
Proof.
  intros Hl Hr. destruct Hl as [s Hne Hd Hv|x s Hx Hne Hd Hv|a b Hne Ha Hb].
  - exists (ConstI (digits_value 10 s)). split; [|done]. unfold parse_number.
    rewrite not_hex by (apply second_digit, delim_not_x; done).
    rewrite length_app, scan_digits, scan_stop by done. cbn [plus]. rewrite take_app_exact.
    by rewrite parse_i64_digits.
  - exists (ConstI (digits_value 16 s)). split; [|done]. unfold parse_number.
    replace (_ && _) with true.
    2: { destruct s as [|c s]; [done|]. cbn [app]. autorewrite with zlen.
         pose proof (zlen_nonneg s). pose proof (zlen_nonneg rest). replace (2 <? _) with true by lia. by destruct Hx as [-> | ->]. }
    cbn [app]. change (drop 2 (48 :: x :: s ++ rest)) with (s ++ rest).
    rewrite span_app; [|done|].
    + rewrite parse_i64_digits by done. cbn [ok_or mbind result_bind]. do 2 f_equal. simpl. lia.
    + apply digits_stop; [|done]. intros c Hc. char_lia.
  - eexists. split; [|done]. unfold parse_number. rewrite <- app_assoc. cbn [app].
    rewrite not_hex.
    2: { destruct a as [|c a]; [|apply second_digit; done]. simpl. destruct b as [|d b]; simpl.
         - by apply delim_not_x in Hr.
         - apply is_digits_cons in Hb as [Hd _]. split; char_lia. }
    rewrite length_app, scan_digits by done. cbn [length scan_number].
    change (is_ascii_digit 46) with false. change (46 =? 46) with true. cbv iota.
    rewrite length_app, scan_digits, scan_stop by done.
    replace (S (0 + length a) + length b)%nat with (length (a ++ 46 :: b)) by (rewrite length_app; simpl; lia).
    change (a ++ 46 :: b ++ rest) with (a ++ (46 :: b) ++ rest). rewrite app_assoc, take_app_exact.
    by rewrite parse_f64_frac.
Qed.

Lemma literal_first s t rest :
  literal s t -> exists ch s', s ++ rest = ch :: s' /\ is_ascii_whitespace ch = false /\
    is_ascii_digit ch || ((ch =? 46) && match s' with d :: _ => is_ascii_digit d | [] => false end) = true.
Proof.
  intros Hl. destruct Hl as [s Hne Hd Hv|x s Hx Hne Hd Hv|a b Hne Ha Hb].
  - destruct s as [|c s]; [done|]. exists c, (s ++ rest). apply is_digits_cons in Hd as [Hd _].
    rewrite Hd. split_and!; [done|char_lia|done].
  - by exists 48, (x :: s ++ rest).
  - destruct a as [|c a].
    + destruct b as [|d b]; [by destruct Hne|]. exists 46, (d :: b ++ rest).
      apply is_digits_cons in Hb as [Hd _]. by rewrite Hd.
    + exists c, ((a ++ 46 :: b) ++ rest). apply is_digits_cons in Ha as [Hd _].
      rewrite Hd. split_and!; [done|char_lia|done].
Qed.

Lemma step_literal s t rest tbl out base prev :
  literal s t -> delim rest ->
  steps (mkCompiler tbl out base prev, s ++ rest) (mkCompiler tbl (out ++ postfix tbl t) base true, rest).
Proof.
  intros Hl Hr. destruct (literal_token s t rest Hl Hr) as (op & Hp & ->).
  destruct (literal_first s t rest Hl) as (ch & s' & E & Hw & Hd). rewrite E in *.
  apply rtc_once, step_intro. unfold compile_step. rewrite Hw, Hd, Hp. cbn [mbind result_bind].
  rewrite <- E. by rewrite drop_app_length.
Qed.

(** ** Words and operators *)

Lemma step_word word rest c :
  is_word word -> delim rest -> step (c, word ++ rest) (compile_word c word, rest).
Proof.
  intros [Hall Hfirst] Hr. destruct word as [|ch word]; [done|].
  apply (step_intro c ch (word ++ rest)). unfold compile_step. cbv zeta.
  replace (is_ascii_whitespace ch) with false by char_lia.
  replace (is_ascii_digit ch || _) with false.
  2: { replace (is_ascii_digit ch) with false by char_lia. by replace (ch =? 46) with false by char_lia. }
  rewrite Hfirst. change (ch :: word ++ rest) with ((ch :: word) ++ rest).
  by rewrite span_app by done.
Qed.

Lemma step_open c s : step (c, 40 :: s) (mkCompiler (c_variables c) (c_output c) (None :: c_stack c) false, s).
Proof. by apply step_intro. Qed.

Lemma step_close tbl out ops base prev s :
  step (mkCompiler tbl out ((Some <$> ops) ++ None :: base) prev, 41 :: s) (mkCompiler tbl (out ++ ops) base true, s).
Proof. apply step_intro. unfold compile_step. simpl c_stack. rewrite close_flush. done. Qed.

(** An operator token: what it is popped against decides the new stack. *)
Lemma step_operator c (sym s : text) op stack output :
  match sym with
  | ch :: _ => is_ascii_whitespace ch || is_ascii_digit ch || (ch =? 46) || is_ascii_alphabetic ch
               || (ch =? 95) || (ch =? 40) || (ch =? 41) = false
  | [] => False
  end ->
  operator_at (sym ++ s) (c_prev c) = Ok (op, length sym) ->
  push_operator op (c_stack c) (c_output c) = (stack, output) ->
  step (c, sym ++ s) (mkCompiler (c_variables c) output stack false, s).
Proof.
  intros Hch Hop Hpush. destruct sym as [|ch sym]; [done|].
  apply (step_intro c ch (sym ++ s)). unfold compile_step. cbv zeta.
  change (ch :: sym ++ s) with ((ch :: sym) ++ s).
  rewrite !orb_false_iff in Hch. destruct Hch as [[[[[[H1 H2] H3] H4] H5] H6] H7].
  rewrite H1, H2, H3, H4, H5, H6, H7. simpl andb. cbn [orb]. cbv iota. rewrite Hop. cbn [mbind result_bind].
  rewrite Hpush. by rewrite drop_app_length.
Qed.

Lemma operator_binary op sym s :
  binary_symbol op = Some sym -> starts_operand s -> operator_at (sym ++ s) true = Ok (op, length sym).
Proof.
  intros Hs Ho. destruct s as [|c s]; [done|]. destruct Ho as (H1 & H2 & H3 & H4 & H5 & H6).
  assert (forall a, two_char_op [a; c] = None) as Htwo.
  { intros a. unfold two_char_op.
    by rewrite !bool_decide_eq_false_2 by (intros Heq; vm_compute in Heq; congruence). }
  destruct op; vm_compute in Hs; simplify_eq; try reflexivity; unfold operator_at;
    cbn [app firstn length]; rewrite Htwo; reflexivity.
Qed.

Lemma operator_prefix op sym s :
  prefix_symbol op = Some sym -> operator_at (sym :: s) false = Ok (op, 1%nat).
Proof.
  intros Hs. unfold operator_at. replace (two_char_op (take 2 (sym :: s))) with (@None Op).
  - destruct op; vm_compute in Hs; simplify_eq; reflexivity.
  - symmetry. unfold two_char_op.
    rewrite !bool_decide_eq_false_2; [done| | | | | | | |];
      (destruct op; vm_compute in Hs; simplify_eq; destruct s; by vm_compute).
Qed.

Lemma operator_cond sym op s prev :
  (sym, op) = (63, Ternary) \/ (sym, op) = (58, TernaryColon) -> operator_at (sym :: s) prev = Ok (op, 1%nat).
Proof.
  intros H. unfold operator_at. replace (two_char_op (take 2 (sym :: s))) with (@None Op).
  - by destruct H as [[= -> ->]|[= -> ->]].
  - symmetry. unfold two_char_op. destruct H as [[= -> ->]|[= -> ->]];
      (rewrite !bool_decide_eq_false_2; [done| | | | | | | |]; (destruct s; by vm_compute)).
Qed.

(** * Reading a term *)

(** From a state that wants an operand, the compiler reads [s], keeps the
    stack below and leaves the operators of the term's right edge on it. *)
Definition reads (p : Z) (t : term) (s : text) : Prop :=
  forall tbl out base rest, admits p base -> delim rest ->
  exists ops tbl' out',
    steps (mkCompiler tbl out base false, s ++ rest) (mkCompiler tbl' out' ((Some <$> ops) ++ base) true, rest) /\
    out' ++ ops = out ++ postfix tbl' t /\ Forall (fun o => p <= prec o) ops /\
    (exists more, tbl' = tbl ++ more) /\ knows tbl' t.

Lemma reads_atom p t s :
  (forall tbl out base rest, delim rest -> exists more,
     steps (mkCompiler tbl out base false, s ++ rest)
       (mkCompiler (tbl ++ more) (out ++ postfix (tbl ++ more) t) base true, rest) /\
     knows (tbl ++ more) t) ->
  reads p t s.
Proof.
  intros H tbl out base rest _ Hr. destruct (H tbl out base rest Hr) as (more & Hs & Hk).
  exists [], (tbl ++ more), (out ++ postfix (tbl ++ more) t).
  split_and!; [done|by rewrite app_nil_r|constructor|by exists more|done].
Qed.

Lemma reads_literal p s t : literal s t -> reads p t s.
Proof.
  intros Hl. apply reads_atom. intros tbl out base rest Hr. exists []. rewrite app_nil_r.
  split; [by apply step_literal|]. destruct Hl; constructor.
Qed.

Lemma variable_index_spec tbl name :
  exists more, variable_index tbl name = (index_of (tbl ++ more) name, tbl ++ more) /\ name ∈ tbl ++ more.
Proof.
  unfold variable_index, index_of. destruct (list_find _ tbl) as [[i x]|] eqn:Hf; simpl.
  - exists []. rewrite app_nil_r, Hf. simpl. split; [done|]. apply list_find_Some in Hf as (Hi & -> & _).
    by eapply list_elem_of_lookup_2.
  - exists [name]. split; [|apply elem_of_app; right; by constructor].
    rewrite list_find_app_r by done. simpl. rewrite decide_True by done. simpl. do 2 f_equal; lia.
Qed.

Lemma reads_var p name :
  is_word name -> function_named name = None -> name <> str "PI" -> name <> str "E" -> reads p (TVar name) name.
Proof.
  intros Hw Hf Hpi He. apply reads_atom. intros tbl out base rest Hr.
  destruct (variable_index_spec tbl name) as (more & Hv & Hin). exists more.
  split; [|by constructor]. apply rtc_once.
  assert (compile_word (mkCompiler tbl out base false) name =
          mkCompiler (tbl ++ more) (out ++ postfix (tbl ++ more) (TVar name)) base true) as <-; [|by apply step_word].
  unfold compile_word. rewrite Hf, !bool_decide_eq_false_2 by done. cbn [c_variables c_output c_stack].
  by rewrite Hv.
Qed.

Lemma reads_const p word v :
  is_word word -> (forall c, compile_word c word = mkCompiler (c_variables c) (c_output c ++ [ConstF v]) (c_stack c) true) ->
  reads p (TFloat v) word.
Proof.
  intros Hw Hc. apply reads_atom. intros tbl out base rest Hr. exists []. rewrite app_nil_r.
  split; [|constructor]. apply rtc_once. pose proof (Hc (mkCompiler tbl out base false)) as E.
  cbn [c_variables c_output c_stack] in E. cbn [postfix]. rewrite <- E. by apply step_word.
Qed.

Lemma reads_blank p t c s : is_ascii_whitespace c = true -> reads p t s -> reads p t (c :: s).
Proof.
  intros Hc H tbl out base rest Ha Hr. destruct (H tbl out base rest Ha Hr) as (ops & tbl' & out' & Hs & Hrest).
  exists ops, tbl', out'. split; [|done]. eapply steps_trans; [|exact Hs].
  apply (step_blank _ [c]). by constructor.
Qed.

(** A parenthesised term after whatever is on the stack. *)
Lemma reads_group t s w tbl out base prev rest :
  reads 0 t s -> blank w ->
  exists tbl', steps (mkCompiler tbl out base prev, (40 :: s ++ w ++ [41]) ++ rest)
    (mkCompiler tbl' (out ++ postfix tbl' t) base true, rest) /\
    (exists more, tbl' = tbl ++ more) /\ knows tbl' t.
Proof.
  intros H Hw.
  destruct (H tbl out (None :: base) (w ++ [41] ++ rest)) as (ops & tbl' & out' & Hs & Ho & _ & Hm & Hk);
    [done|by apply delim_blank|].
  exists tbl'. split_and!; [|done|done]. cbn [app]. rewrite <- !app_assoc.
  eapply rtc_l; [apply step_open|]. eapply steps_trans; [exact Hs|].
  eapply steps_trans; [by apply step_blank|]. rewrite <- Ho. apply rtc_once. apply step_close.
Qed.

Lemma reads_paren p t s w : reads 0 t s -> blank w -> reads p t (40 :: s ++ w ++ [41]).
Proof.
  intros H Hw tbl out base rest _ _.
  destruct (reads_group t s w tbl out base false rest H Hw) as (tbl' & Hs & Hm & Hk).
  exists [], tbl', (out ++ postfix tbl' t). split_and!; [done|by rewrite app_nil_r|constructor|done|done].
Qed.

Lemma function_prec word f : function_named word = Some f -> binding f = (200, false).
Proof.
  unfold function_named. intros H. apply fmap_Some in H as ([n op] & Hf & ->).
  apply List.find_some in Hf as [Hin _]. simpl in *. by repeat destruct Hin as [[= _ <-]|Hin].
Qed.

Lemma reads_call p f a word w s w' :
  p <= 131 -> is_word word -> function_named word = Some f -> blank w -> reads 0 a s -> blank w' ->
  reads p (TApp1 f a) (word ++ w ++ 40 :: s ++ w' ++ [41]).
Proof.
  intros Hp Hword Hf Hw H Hw' tbl out base rest Ha Hr. pose proof (function_prec word f Hf) as Hb.
  destruct (reads_group a s w' tbl out (Some f :: base) false rest H Hw') as (tbl' & Hs & Hm & Hk).
  exists [f], tbl', (out ++ postfix tbl' a). split_and!; [| |by repeat constructor; unfold prec; rewrite Hb; simpl; lia|done|done].
  - rewrite <- !app_assoc. eapply rtc_l.
    + apply step_word; [done|]. by apply delim_blank.
    + unfold compile_word. rewrite Hf. cbn [c_stack c_output c_variables c_prev].
      rewrite push_stop by (apply (admits_stop p); [unfold prec; rewrite Hb; simpl; lia|done]).
      eapply steps_trans; [by apply step_blank|]. exact Hs.
  - simpl. by rewrite <- app_assoc.
Qed.

Lemma reads_prefix p op sym a s :
  prefix_symbol op = Some sym -> p <= prec op -> reads (prec op) a s -> reads p (TApp1 op a) (sym :: s).
Proof.
  intros Hsym Hp H tbl out base rest Ha Hr.
  destruct (H tbl out (Some op :: base) rest) as (ops & tbl' & out' & Hs & Ho & Hops & Hm & Hk); [|done|].
  { right. split; [done|]. by destruct op. }
  exists (ops ++ [op]), tbl', out'. split_and!; [| | |done|done].
  - rewrite fmap_app, <- app_assoc. eapply rtc_l; [|exact Hs].
    apply (step_operator (mkCompiler tbl out base false) [sym] (s ++ rest) op).
    + destruct op; vm_compute in Hsym; simplify_eq; done.
    + by apply operator_prefix.
    + apply push_stop. by apply (admits_stop p).
  - simpl. by rewrite app_assoc, Ho, <- app_assoc.
  - apply Forall_app. split; [|by constructor]. eapply Forall_impl; [exact Hops|]. simpl. lia.
Qed.

(** After an operand read at [q], operator [op] takes the operand's pending
    operators and the stack wants the next operand. *)
Lemma reads_then_operator q p op (sym : text) t s w s' tbl out base :
  reads q t s -> blank w -> p <= q -> p <= prec op ->
  (forall o, q <= prec o -> pops op o = true) ->
  match sym with
  | ch :: _ => is_ascii_whitespace ch || is_ascii_digit ch || (ch =? 46) || is_ascii_alphabetic ch
               || (ch =? 95) || (ch =? 40) || (ch =? 41) = false
  | [] => False
  end ->
  operator_at (sym ++ s') true = Ok (op, length sym) -> admits p base ->
  exists tbl', steps (mkCompiler tbl out base false, s ++ w ++ sym ++ s')
    (mkCompiler tbl' (out ++ postfix tbl' t) (Some op :: base) false, s') /\
    (exists more, tbl' = tbl ++ more) /\ knows tbl' t.
Proof.
  intros H Hw Hpq Hp Hpops Hsym Hop Ha.
  destruct (H tbl out base (w ++ sym ++ s')) as (ops & tbl' & out' & Hs & Ho & Hops & Hm & Hk).
  { by apply (admits_mono p). }
  { apply delim_blank; [done|]. destruct sym as [|ch sym]; [done|]. simpl. char_lia. }
  exists tbl'. split_and!; [|done|done]. eapply steps_trans; [exact Hs|].
  eapply steps_trans; [by apply step_blank|]. apply rtc_once. rewrite <- Ho.
  apply (step_operator (mkCompiler tbl' out' ((Some <$> ops) ++ base) true) sym s' op); [done|done|].
  apply push_flush; [|by apply (admits_stop p)]. eapply Forall_impl; [exact Hops|]. done.
Qed.

Lemma reads_binary p op sym a b s w s' :
  binary_symbol op = Some sym -> p <= prec op -> spells (right_level op) b s' ->
  reads (left_level op) a s -> blank w -> reads (right_level op) b s' ->
  reads p (TApp2 op a b) (s ++ w ++ sym ++ s').
Proof.
  intros Hsym Hp Hsp Ha Hw Hb tbl out base rest Had Hr.
  destruct (reads_then_operator (left_level op) p op sym a s w (s' ++ rest) tbl out base)
    as (tbl1 & Hs1 & [more1 Hm1] & Hk1); [done|done| |done| | | |done|].
  { unfold left_level, prec in *. destruct (binding op) as [q []]; simpl in *; lia. }
  { intros o Ho. rewrite pops_spec. unfold left_level, prec in *. destruct (binding op) as [q []]; simpl in *; lia. }
  { destruct op; vm_compute in Hsym; simplify_eq; done. }
  { apply operator_binary; [done|]. by eapply spells_start. }
  destruct (Hb tbl1 (out ++ postfix tbl1 a) (Some op :: base) rest)
    as (ops & tbl' & out' & Hs & Ho & Hops & [more Hm] & Hk); [|done|].
  { unfold right_level, prec. unfold admits, prec. destruct (binding op) as [q []]; simpl; [by right|left; lia]. }
  exists (ops ++ [op]), tbl', out'. split_and!.
  - rewrite fmap_app, <- !app_assoc. eapply steps_trans; [exact Hs1|exact Hs].
  - simpl. subst tbl'. rewrite postfix_mono by done. by rewrite app_assoc, Ho, <- !app_assoc.
  - apply Forall_app. split; [|by constructor]. eapply Forall_impl; [exact Hops|]. simpl.
    unfold right_level, prec in *. destruct (binding op) as [q []]; simpl in *; lia.
  - exists (more1 ++ more). subst. by rewrite app_assoc.
  - unfold knows. simpl. apply Forall_app. split; [|done]. subst tbl'. by apply knows_mono.
Qed.

Lemma reads_cond p a b c s w s' w' s'' :
  p <= 5 -> reads 6 a s -> blank w -> reads 6 b s' -> blank w' -> reads 5 c s'' ->
  reads p (TCond a b c) (s ++ w ++ 63 :: s' ++ w' ++ 58 :: s'').
Proof.
  intros Hp Ha Hw Hb Hw' Hc tbl out base rest Had Hr.
  assert (forall op o, (op = Ternary \/ op = TernaryColon) -> 6 <= prec o -> pops op o = true) as Hpops.
  { intros op o Hop Ho. rewrite pops_spec. destruct Hop as [-> | ->]; simpl; unfold prec in *; simpl; lia. }
  destruct (reads_then_operator 6 p Ternary [63] a s w (s' ++ w' ++ [58] ++ s'' ++ rest) tbl out base)
    as (tbl1 & Hs1 & [more1 Hm1] & Hk1); [done|done|lia|done|intros; apply Hpops; tauto|done| |done|].
  { apply operator_cond. by left. }
  destruct (reads_then_operator 6 5 TernaryColon [58] b s' w' (s'' ++ rest) tbl1 (out ++ postfix tbl1 a) (Some Ternary :: base))
    as (tbl2 & Hs2 & [more2 Hm2] & Hk2); [done|done|lia|done|intros; apply Hpops; tauto|done| |by right|].
  { apply operator_cond. by right. }
  destruct (Hc tbl2 ((out ++ postfix tbl1 a) ++ postfix tbl2 b) (Some TernaryColon :: Some Ternary :: base) rest)
    as (ops & tbl' & out' & Hs & Ho & Hops & [more Hm] & Hk); [by right|done|].
  exists (ops ++ [TernaryColon; Ternary]), tbl', out'. split_and!.
  - rewrite fmap_app, <- !app_assoc. cbn [app]. rewrite <- !app_assoc. cbn [app].
    eapply steps_trans; [exact Hs1|]. eapply steps_trans; [exact Hs2|]. exact Hs.
  - simpl. subst tbl' tbl2. rewrite (postfix_mono _ more b), (postfix_mono _ more a), (postfix_mono _ more2 a)
      by (done || by apply knows_mono). by rewrite app_assoc, Ho, <- !app_assoc.
  - apply Forall_app. split; [eapply Forall_impl; [exact Hops|]; simpl; lia|].
    repeat constructor; unfold prec; simpl; lia.
  - exists (more1 ++ more2 ++ more). subst. by rewrite !app_assoc.
  - unfold knows. simpl. subst tbl' tbl2. rewrite !Forall_app. split_and!; [|by apply knows_mono|done].
    by apply knows_mono, knows_mono.
Qed.

Lemma spells_reads p t s : spells p t s -> reads p t s.
Proof.
  induction 1; try (by eauto using reads_literal, reads_var, reads_blank, reads_paren, reads_call, reads_prefix,
    reads_binary, reads_cond); (apply reads_const; [split; [repeat constructor|done]|done]).
Qed.

(** ** The table of variables stays small *)

Lemma step_budget x y :
  step x y -> (length (c_variables y.1) + length y.2 <= length (c_variables x.1) + length x.2)%nat.
Proof.
  destruct x as [c s0], y as [c' s']. intros (ch & s & Hs & Hstep). simpl in *. subst s0. simpl.
  enough (length (c_variables c') <= S (length (c_variables c)))%nat by (apply step_shrinks in Hstep; lia).
  unfold compile_step in Hstep. destruct (is_ascii_whitespace ch); [by injection Hstep as <- _; lia|].
  destruct (is_ascii_digit ch || _).
  { destruct (parse_number _) as [[v len]|]; simplify_eq/=. lia. }
  destruct (is_ascii_alphabetic ch || _).
  { destruct (span _ _) as [word rest]. injection Hstep as <- _. unfold compile_word.
    destruct (function_named word); [destruct (push_operator _ _ _); simpl; lia|].
    destruct (bool_decide _); [simpl; lia|]. destruct (bool_decide _); [simpl; lia|].
    unfold variable_index. destruct (fst <$> _); simpl; [lia|]. rewrite length_app. simpl. lia. }
  destruct (ch =? 40); [by injection Hstep as <- _; simpl; lia|]. destruct (ch =? 41).
  { destruct (close_paren _ _) as [[st o]|]; simplify_eq/=. lia. }
  destruct (operator_at _ _) as [[op len]|]; [|discriminate]. cbn [mbind result_bind] in Hstep.
  destruct (push_operator _ _ _). simplify_eq/=. lia.
Qed.

Lemma steps_budget x y :
  steps x y -> (length (c_variables y.1) + length y.2 <= length (c_variables x.1) + length x.2)%nat.
Proof. induction 1 as [|x y z Hxy _ IH]; [done|]. apply step_budget in Hxy. lia. Qed.

(** * Evaluating the output *)

Definition unary_op (op : Op) : bool :=
  match op with
  | UnaryMinus | UnaryPlus | BitNot | Sin | Cos | Sgn | NegFn | Atan | Tan | Abs | Exp | Ln | Lg | Sqrt
  | Trunc | Round | Floor | Ceil | Asin | Acos => true
  | _ => false
  end.

Fixpoint well_formed (t : term) : Prop :=
  match t with
  | TInt _ | TFloat _ | TVar _ => True
  | TApp1 op a => unary_op op = true /\ well_formed a
  | TApp2 op a b => is_Some (binary_symbol op) /\ well_formed a /\ well_formed b
  | TCond a b c => well_formed a /\ well_formed b /\ well_formed c
  end.

Lemma function_unary word f : function_named word = Some f -> unary_op f = true.
Proof.
  unfold function_named. intros H. apply fmap_Some in H as ([n op] & Hf & ->).
  apply List.find_some in Hf as [Hin _]. simpl in *. by repeat destruct Hin as [[= _ <-]|Hin].
Qed.

Lemma spells_well_formed p t s : spells p t s -> well_formed t.
Proof.
  induction 1 as [? ? ? Hl| | | | | | |? op ? ? ? Hs| |]; simpl; eauto using function_unary.
  - by destruct Hl.
  - split; [|done]. by destruct op.
Qed.

Section meaning.
Context {FL : FloatLib}.

Lemma eval_unary e vars op a stack :
  unary_op op = true ->
  eval_op e vars op (a :: stack) = (v ← apply1 op a; Ok (v :: stack)).
Proof. intros H. by destruct op. Qed.

Lemma eval_binary e vars op a b stack :
  is_Some (binary_symbol op) ->
  eval_op e vars op (b :: a :: stack) = (v ← apply2 op a b; Ok (v :: stack)).
Proof.
  intros H. destruct op; try (by destruct H); unfold eval_op, apply2, apply_op;
    cbn [binary pop mbind result_bind int_binop arith compare_values]; try done.
  all: cbn [fmap result_fmap fst]; repeat case_match; try done;
    destruct (value_compare a b); done.
Qed.

Lemma eval_rpn_bind e vars ops stack op :
  eval_rpn e vars (op :: ops) stack = (st ← eval_op e vars op stack; eval_rpn e vars ops st).
Proof. done. Qed.

Lemma eval_postfix env tbl t ops stack :
  zlen tbl <= 65536 -> knows tbl t -> well_formed t ->
  let e := mkExpr [] tbl in
  eval_rpn e (env <$> tbl) (postfix tbl t ++ ops) stack =
    (v ← sem env t; eval_rpn e (env <$> tbl) ops (v :: stack)).
Proof.
  intros Hlen Hk Hwf e. revert ops stack.
  induction t as [v|v|name|op a IHa|op a IHa b IHb|a IHa b IHb c IHc]; intros ops stack; unfold knows in Hk; simpl in *.
  - done.
  - done.
  - apply Forall_cons in Hk as [Hk _]. destruct (find_known _ _ Hk) as [i Hi].
    pose proof Hi as Hi'. apply list_find_Some in Hi' as (Hl & _ & _). unfold index_of. rewrite Hi. cbn [fmap option_fmap option_map fst].
    pose proof (lookup_lt_Some _ _ _ Hl) as Hlt. rewrite wrap_small by (unfold zlen in Hlen; change (2 ^ 16) with 65536; lia).
    rewrite Nat2Z.id, list_lookup_fmap, Hl. done.
  - destruct Hwf as [Hop Hwf]. rewrite <- app_assoc, IHa by done.
    destruct (sem env a) as [va|]; [|done]. cbn [mbind result_bind app]. rewrite eval_rpn_bind, eval_unary by done.
    by destruct (apply1 op va).
  - destruct Hwf as (Hop & Hwa & Hwb). apply Forall_app in Hk as [Hka Hkb]. rewrite <- !app_assoc, IHa by done.
    destruct (sem env a) as [va|]; [|done]. cbn [mbind result_bind]. rewrite IHb by done.
    destruct (sem env b) as [vb|]; [|done]. cbn [mbind result_bind app]. rewrite eval_rpn_bind, eval_binary by done.
    by destruct (apply2 op va vb).
  - destruct Hwf as (Hwa & Hwb & Hwc). rewrite !Forall_app in Hk. destruct Hk as (Hka & Hkb & Hkc).
    rewrite <- !app_assoc, IHa by done.
    destruct (sem env a) as [va|]; [|done]. cbn [mbind result_bind]. rewrite IHb by done.
    destruct (sem env b) as [vb|]; [|done]. cbn [mbind result_bind]. rewrite IHc by done.
    by destruct (sem env c) as [vc|].
Qed.

(** C29: every formula the grammar spells, in at most 65536 bytes, compiles, and
    evaluating the result, with the value of each variable at its place in
    the variable table, gives the meaning of the term: the value, or the
    error the first failing operation reports. *)
Theorem formula_meaning (t : term) (s w : text) :
  spells 0 t s -> blank w -> zlen (s ++ w) <= 65536 ->
  exists e, Expr_parse (s ++ w) = Ok e /\ Forall (fun n => n ∈ variables e) (names t) /\
    forall env, Expr_eval e (env <$> variables e) = sem env t.
Proof.
  intros Hsp Hw Hlen.
  destruct (spells_reads 0 t s Hsp [] [] [] w) as (ops & tbl & out & Hs & Ho & _ & _ & Hk); [done|rewrite <- (app_nil_r w); by apply delim_blank|].
  rewrite app_nil_r in Hs. assert (steps (mkCompiler [] [] [] false, s ++ w) (mkCompiler tbl out (Some <$> ops) true, [])) as Hall.
  { eapply steps_trans; [exact Hs|]. rewrite <- (app_nil_r w) at 1. by apply step_blank. }
  exists (mkExpr (out ++ ops) tbl). split_and!; [|done|].
  - unfold Expr_parse. rewrite (steps_compile _ _ _ Hall) by done. cbn [mbind result_bind c_stack c_output c_variables].
    by rewrite drain_flush.
  - intros env. apply steps_budget in Hall. unfold zlen in Hlen. simpl in Hall.
    assert (forall stack ops', eval_rpn (mkExpr (out ++ ops) tbl) (env <$> tbl) ops' stack =
                               eval_rpn (mkExpr [] tbl) (env <$> tbl) ops' stack) as Hvars.
    { intros stack ops'. revert stack. induction ops' as [|o ops' IH]; intros stack; [done|]. simpl.
      assert (eval_op (mkExpr (out ++ ops) tbl) (env <$> tbl) o stack = eval_op (mkExpr [] tbl) (env <$> tbl) o stack) as ->
        by (by destruct o). by destruct (eval_op _ _ _ _) as [st|]; [apply IH|]. }
    unfold Expr_eval. cbn [rpn variables]. rewrite Hvars, Ho, app_nil_l, <- (app_nil_r (postfix tbl t)).
    rewrite (eval_postfix env tbl t [] []); [|unfold zlen; lia|done|by eapply spells_well_formed].
    by destruct (sem env t).
Qed.
End meaning.

(** * Termination *)

Lemma compile_terminates fuel c s : (length s <= fuel)%nat -> compile fuel c s <> Err OutOfFuel.
Proof.
  revert c s. induction fuel as [|fuel IH]; intros c [|ch s] Hf; simpl in *; try done; [lia|].
  destruct (compile_step c ch s) as [[c' s']|err] eqn:Hstep; simpl.
  - apply IH. apply step_shrinks in Hstep. lia.
  - intros [= ->]. revert Hstep. unfold compile_step. destruct (is_ascii_whitespace ch); [discriminate|].
    destruct (is_ascii_digit ch || _).
    { unfold parse_number. destruct (_ && _).
      - destruct (span _ _). by destruct (parse_i64 _ _).
      - destruct (scan_number _ _ _ _) as [n []]; [by destruct (parse_f64 _)|by destruct (parse_i64 _ _)]. }
    destruct (is_ascii_alphabetic ch || _); [by destruct (span _ _)|].
    destruct (ch =? 40); [discriminate|]. destruct (ch =? 41).
    { assert (forall st o, close_paren st o <> Err OutOfFuel) as Hc by (intros st; induction st as [|[?|] st IHst]; simpl; done).
      destruct (close_paren _ _) as [[st o]|e] eqn:E; simpl; [discriminate|]. intros [= ->]. by apply Hc in E. }
    destruct (operator_at _ _) as [[op len]|e] eqn:E; simpl; [by destruct (push_operator _ _ _)|]. intros [= ->].
    revert E. unfold operator_at, one_char_op. destruct (two_char_op _); [discriminate|].
    repeat (case_match; try discriminate); simplify_eq/=.
Qed.

(** A computation that does not run out of turns. *)
Definition returns {A} (r : result EvalError A) : Prop := r <> Err OutOfFuel.

(** Compilation returns for every input: the loop is never out of input to
    read, so the source text bounds the number of turns. *)
Theorem compilation_terminates (src : text) : returns (Expr_parse src).
Proof.
  unfold returns, Expr_parse. pose proof (compile_terminates (length src) (mkCompiler [] [] [] false) src ltac:(done)) as Hc.
  destruct (compile _ _ src) as [c|err]; simpl; [|congruence].
  assert (forall st o, drain_stack st o <> Err OutOfFuel) as Hd by (intros st; induction st as [|[?|] st IHst]; simpl; done).
  pose proof (Hd (c_stack c) (c_output c)). by destruct (drain_stack _ _); simpl; [|congruence].
Qed.

(** * A concrete formula *)

#[local] Instance plain_floats : FloatLib := {|
  fl_sin := id; fl_cos := id; fl_tan := id; fl_asin := id; fl_acos := id; fl_atan := id;
  fl_exp := id; fl_ln := id; fl_log10 := id; fl_powf := fun a _ => a |}.

(** [1 + 2 * ABS(x)]. *)
Definition ex_term : term := TApp2 Add (TInt 1) (TApp2 Mul (TInt 2) (TApp1 Abs (TVar (str "x")))).
Definition ex_text : text := str "1 +2*ABS(x)".

Lemma digit_spells p d v : digits_value 10 [d] = v -> is_ascii_digit d = true -> spells p (TInt v) [d].
Proof.
  intros <- Hd. apply sp_literal, lit_dec; [done|by constructor|]. change (0 * 10 + digit_value d <= I64_MAX).
  unfold digit_value, I64_MAX. unfold is_ascii_digit in Hd. rewrite Hd. char_lia.
Qed.

Lemma ex_spells : spells 0 ex_term ex_text.
Proof.
  apply (sp_binary 0 Add (str "+") _ _ [49] [32] (str "2*ABS(x)")); [done|unfold prec; simpl; lia| |by constructor|].
  - by apply digit_spells.
  - apply (sp_binary _ Mul (str "*") _ _ [50] [] (str "ABS(x)"));
      [done|unfold prec; vm_compute; discriminate|by apply digit_spells|constructor|].
    apply (sp_call _ Abs _ (str "ABS") [] (str "x") []);
      [vm_compute; discriminate|split; [repeat constructor|done]|done|constructor| |constructor].
    apply sp_var; [split; [repeat constructor|done]|done|done|done].
Qed.

Lemma formula_meaning_witness :
  exists e, Expr_parse (ex_text ++ []) = Ok e /\ Forall (fun n => n ∈ variables e) (names ex_term) /\
    forall env, Expr_eval e (env <$> variables e) = sem env ex_term.
Proof. apply (formula_meaning ex_term ex_text []); [apply ex_spells|constructor|by vm_compute]. Defined.

(** A conditional as the middle operand, without parentheses, is not read as
    C reads it: the first condition is lost. *)
Example nested_conditional :
  eval_int "1?2?3:4:5" = Ok 2 /\ eval_int "1?(2?3:4):5" = Ok 3 /\
  eval_int "0?2?3:4:5" = Ok 4 /\ eval_int "0?(2?3:4):5" = Ok 5.
Proof. vm_compute. done. Qed.

(** * Integer results fit *)

Lemma i64_ok_shiftr x : i64_ok x <-> Z.shiftr x 63 = 0 \/ Z.shiftr x 63 = -1.
Proof.
  rewrite Z.shiftr_div_pow2 by lia. unfold i64_ok, I64_MIN, I64_MAX. change (2 ^ 63) with 9223372036854775808.
  pose proof (Z.div_mod x 9223372036854775808 ltac:(lia)).
  pose proof (Z.mod_pos_bound x 9223372036854775808 ltac:(lia)). lia.
Qed.

Lemma i64_ok_bitwise x y :
  i64_ok x -> i64_ok y -> i64_ok (Z.lor x y) /\ i64_ok (Z.land x y) /\ i64_ok (Z.lxor x y).
Proof.
  rewrite !i64_ok_shiftr, Z.shiftr_lor, Z.shiftr_land, Z.shiftr_lxor.
  intros [-> | ->] [-> | ->]; repeat split; vm_compute; auto.
Qed.

Lemma swrap64_ok z : i64_ok (swrap 64 z).
Proof.
  pose proof (swrap_range 64 z ltac:(lia)) as H. change (2 ^ (64 - 1)) with 9223372036854775808 in H.
  unfold i64_ok, I64_MIN, I64_MAX. lia.
Qed.

Lemma shiftr_ok x n : i64_ok x -> 0 <= n -> i64_ok (Z.shiftr x n).
Proof.
  intros Hx Hn. apply i64_ok_shiftr. rewrite Z.shiftr_shiftr, Z.add_comm, <- Z.shiftr_shiftr by lia.
  apply i64_ok_shiftr in Hx as [-> | ->]; [left; apply Z.shiftr_0_l|right].
  apply Z.bits_inj'. intros m Hm. by rewrite Z.shiftr_spec, !Z.bits_m1 by lia.
Qed.

Definition value_ok (x : Value) : Prop := match x with I v => i64_ok v | F _ => True end.

Lemma as_i64_ok x : value_ok x -> i64_ok (as_i64 x).
Proof. destruct x; [done|]. intros _. apply f64_to_i64_range. Qed.

Lemma i64_from_ok b : i64_ok (i64_from b).
Proof. destruct b; const_range. Qed.

Lemma lnot_ok x : i64_ok x -> i64_ok (Z.lnot x).
Proof. unfold i64_ok, I64_MIN, I64_MAX, Z.lnot. lia. Qed.

Lemma rem_ok x y : i64_ok x -> y <> 0 -> i64_ok (Z.rem x y).
Proof.
  unfold i64_ok, I64_MIN, I64_MAX. intros Hx Hy. pose proof (Z.rem_bound_abs x y Hy).
  destruct (Z.le_ge_cases 0 x).
  - pose proof (Z.rem_nonneg x y Hy ltac:(lia)). pose proof (Z.rem_le x (Z.abs y) ltac:(lia) ltac:(lia)).
    rewrite Z.rem_abs_r in * by done. lia.
  - pose proof (Z.rem_nonpos x y Hy ltac:(lia)).
    pose proof (Z.rem_le (- x) (Z.abs y) ltac:(lia) ltac:(lia)). rewrite Z.rem_abs_r, Z.rem_opp_l in * by done. lia.
Qed.

Lemma shift_amount_nonneg b : 0 <= Z.land (wrap 32 b) 63.
Proof. apply Z.land_nonneg. right. lia. Qed.

Lemma sgn_ok b : i64_ok (Z.sgn b).
Proof. destruct b; const_range. Qed.

Ltac value_solve :=
  cbn [value_ok];
  first
    [ exact Logic.I | assumption | simple apply swrap64_ok | unfold wrapping_shl; simple apply swrap64_ok | simple apply i64_from_ok | simple apply sgn_ok
    | simple apply lnot_ok; simple apply as_i64_ok; assumption
    | unfold wrapping_shr; simple apply shiftr_ok; [simple apply as_i64_ok; assumption|simple apply shift_amount_nonneg]
    | simple apply rem_ok; [simple apply as_i64_ok; assumption|lia]
    | apply i64_ok_bitwise; simple apply as_i64_ok; assumption ].

Lemma unary_ok `{FloatLib} op b stack v stack' :
  unary_op op = true -> value_ok b -> apply_op op (b :: stack) = Ok (v, stack') -> value_ok v /\ stack' = stack.
Proof.
  intros Hu Hb H1.
  destruct op; try discriminate Hu; unfold apply_op, unary, float_fn in H1; cbn [pop mbind result_bind] in H1;
    injection H1 as <- <-; (split; [|reflexivity]); try value_solve; destruct b as [b|b]; try value_solve.
  cbn [value_ok]. destruct (f64_ltb f64_zero b); [const_range|]. destruct (f64_ltb b f64_zero); const_range.
Qed.

Lemma binary_ok `{FloatLib} op a b stack v stack' :
  is_Some (binary_symbol op) -> value_ok a -> value_ok b ->
  apply_op op (b :: a :: stack) = Ok (v, stack') -> value_ok v /\ stack' = stack.
Proof.
  intros Hop Ha Hb H1.
  destruct op; try (by destruct Hop); unfold apply_op, int_binop, arith, compare_values in H1;
    cbn [binary pop mbind result_bind] in H1;
    try (injection H1 as <- <-; split; [|reflexivity]; try value_solve; destruct a, b; value_solve).
  all: try (destruct (value_compare a b); cbn [ok_or mbind result_bind] in H1; [|discriminate];
            injection H1 as <- <-; split; [value_solve|reflexivity]).
  - cbv zeta in H1. destruct (Z.eqb_spec (as_i64 b) 0); [discriminate|]. injection H1 as <- <-. split; [value_solve|reflexivity].
  - destruct a as [a|a], b as [b|b]; try (injection H1 as <- <-; split; [value_solve|reflexivity]).
    destruct (b =? 0); [discriminate|]. injection H1 as <- <-. split; [value_solve|reflexivity].
Qed.

Lemma eval_op_ok `{FloatLib} e vars op stack stack' :
  Forall value_ok vars -> (forall v, op = ConstI v -> i64_ok v) -> Forall value_ok stack ->
  eval_op e vars op stack = Ok stack' -> Forall value_ok stack'.
Proof.
  intros Hvars Hc Hs H1.
  destruct (unary_op op) eqn:Hu.
  { destruct stack as [|b stack]; [by destruct op|]. apply Forall_cons in Hs as [Hb Hs].
    rewrite eval_unary in H1 by done. unfold apply1 in H1.
    destruct (apply_op op [b]) as [[v st]|] eqn:E; [|discriminate]. injection H1 as <-.
    apply unary_ok in E as [Hv _]; [|done|done]. by constructor. }
  destruct (binary_symbol op) as [sym|] eqn:Hsym.
  { destruct stack as [|b [|a stack]]; [by destruct op|by destruct op|]. rewrite !Forall_cons in Hs.
    destruct Hs as (Hb & Ha & Hs). rewrite eval_binary in H1 by (rewrite Hsym; eauto). unfold apply2 in H1.
    destruct (apply_op op [b; a]) as [[v st]|] eqn:E; [|discriminate]. injection H1 as <-.
    apply binary_ok in E as [Hv _]; [|rewrite Hsym; eauto|done|done]. by constructor. }
  destruct op; try discriminate; cbn [eval_op] in H1.
  - injection H1 as <-. constructor; [by apply Hc|done].
  - injection H1 as <-. by constructor.
  - destruct (vars !! Z.to_nat i) as [v|] eqn:Hv; [|discriminate]. injection H1 as <-.
    constructor; [|done]. exact (Forall_lookup_1 _ _ _ _ Hvars Hv).
  - by injection H1 as <-.
  - destruct stack as [|c [|b [|a stack]]]; try discriminate. injection H1 as <-. rewrite !Forall_cons in Hs.
    destruct Hs as (? & ? & ? & ?). constructor; [by destruct (truthy a)|done].
Qed.

(** Integer constants of compiled code. *)
Definition const_ok (op : Op) : Prop := forall v, op = ConstI v -> i64_ok v.

Definition entry_ok (o : option Op) : Prop := match o with Some op => const_ok op | None => True end.

Definition compiler_ok (c : Compiler) : Prop :=
  Forall const_ok (c_output c) /\ Forall entry_ok (c_stack c).

Lemma const_ok_other op : (forall v, op <> ConstI v) -> const_ok op.
Proof. intros H v E. by apply H in E. Qed.

Lemma digits_value_nonneg radix s :
  0 <= radix -> Forall (fun c => 0 <= digit_value c) s -> 0 <= digits_value radix s.
Proof.
  intros Hr Hs. unfold digits_value.
  enough (forall acc, 0 <= acc -> 0 <= foldl (fun acc c => acc * radix + digit_value c) acc s) as H by (by apply H).
  induction Hs as [|c s Hc _ IH]; intros acc Ha; simpl; [done|]. apply IH. nia.
Qed.

Lemma parse_i64_ok radix s v :
  0 <= radix -> Forall (fun c => 0 <= digit_value c) s -> parse_i64 radix s = Some v -> i64_ok v.
Proof.
  intros Hr Hs H. pose proof (digits_value_nonneg radix s Hr Hs). unfold parse_i64 in H.
  destruct s; [done|]. cbv zeta in H. destruct (Z.ltb_spec I64_MAX (digits_value radix (z :: s))); [done|].
  injection H as <-. unfold i64_ok, I64_MIN. lia.
Qed.

Lemma span_all p s : Forall (fun c => p c = true) (span p s).1.
Proof. induction s as [|c s IH]; simpl; [done|]. destruct (p c) eqn:E; [|done]. destruct (span p s). by constructor. Qed.

Lemma scan_all fuel s n :
  (scan_number fuel s n false).2 = false -> is_digits (take ((scan_number fuel s n false).1 - n)%nat s).
Proof.
  assert (forall fuel s n, (scan_number fuel s n true).2 = true) as Htrue.
  { intros fuel0. induction fuel0 as [|f IH]; intros [|c s0] m; simpl; try done. repeat case_match; auto. }
  assert (forall s n, is_digits (take ((n, false).1 - n)%nat s)) as Hnil.
  { intros s0 m. cbn [fst]. rewrite Nat.sub_diag. constructor. }
  revert s n. induction fuel as [|fuel IH]; intros [|c s] n; cbn [scan_number]; try (intros _; apply Hnil).
  destruct (is_ascii_digit c) eqn:Hc.
  - intros H. specialize (IH s (S n) H). pose proof (scan_number_grows fuel s (S n) false).
    replace ((scan_number fuel s (S n) false).1 - n)%nat with (S ((scan_number fuel s (S n) false).1 - S n)) by lia.
    simpl. by constructor.
  - destruct (c =? 46); [by rewrite Htrue|]. destruct ((c =? 101) || (c =? 69)); [|intros _; apply Hnil].
    destruct s as [|d s]; [intros _; apply Hnil|].
    destruct (_ || _ || _); [by rewrite Htrue|intros _; apply Hnil].
Qed.

Lemma parse_number_ok src op len : parse_number src = Ok (op, len) -> const_ok op.
Proof.
  unfold parse_number. destruct (_ && _).
  - pose proof (span_all is_ascii_hexdigit (drop 2 src)) as Hall. destruct (span _ _) as [ds r]. simpl in Hall.
    destruct (parse_i64 16 ds) as [v|] eqn:E; simpl; [|discriminate]. intros [= <- _] v' [= <-].
    eapply parse_i64_ok; [| |exact E]; [lia|]. eapply Forall_impl; [exact Hall|].
    intros c Hc. unfold digit_value. destruct (between 48 c 57) eqn:E1; [unfold between in *; lia|].
    destruct (between 97 c 102) eqn:E2; [unfold between in *; lia|]. simpl in Hc. char_lia.
  - pose proof (scan_all (length src) src 0) as Hall.
    destruct (scan_number _ _ _ _) as [n []]; simpl in Hall.
    + destruct (parse_f64 _); simpl; [|discriminate]. intros [= <- _]. by apply const_ok_other.
    + destruct (parse_i64 _ _) as [v|] eqn:E; simpl; [|discriminate]. intros [= <- _] v' [= <-].
      eapply parse_i64_ok; [| |exact E]; [lia|]. rewrite Nat.sub_0_r in Hall. eapply Forall_impl; [by apply Hall|].
      intros c Hc. unfold is_ascii_digit in Hc. unfold digit_value. rewrite Hc. unfold between in Hc. lia.
Qed.

Lemma push_operator_ok op stack out :
  const_ok op -> Forall const_ok out -> Forall entry_ok stack ->
  Forall entry_ok (push_operator op stack out).1 /\ Forall const_ok (push_operator op stack out).2.
Proof.
  intros Hop. revert out. induction stack as [|[top|] stack IH]; intros out Ho Hs; simpl.
  - split; [by constructor|done].
  - apply Forall_cons in Hs as [Ht Hs]. destruct (pops op top).
    + apply IH; [|done]. apply Forall_app. split; [done|by constructor].
    + split; [|done]. constructor; [exact Hop|]. by constructor.
  - split; [|done]. by constructor.
Qed.

Lemma close_paren_ok stack out stack' out' :
  Forall const_ok out -> Forall entry_ok stack -> close_paren stack out = Ok (stack', out') ->
  Forall entry_ok stack' /\ Forall const_ok out'.
Proof.
  revert out. induction stack as [|[top|] stack IH]; intros out Ho Hs; simpl; [done| |].
  - apply Forall_cons in Hs as [Ht Hs]. apply IH; [|done]. apply Forall_app. split; [done|by constructor].
  - apply Forall_cons in Hs as [_ Hs]. by intros [= <- <-].
Qed.

Lemma drain_stack_ok stack out out' :
  Forall const_ok out -> Forall entry_ok stack -> drain_stack stack out = Ok out' -> Forall const_ok out'.
Proof.
  revert out. induction stack as [|[top|] stack IH]; intros out Ho Hs; simpl; [by intros [= <-]| |done].
  apply Forall_cons in Hs as [Ht Hs]. apply IH; [|done]. apply Forall_app. split; [done|by constructor].
Qed.

Lemma compile_word_ok c word : compiler_ok c -> compiler_ok (compile_word c word).
Proof.
  intros [Ho Hs]. unfold compile_word. destruct (function_named word) as [op|] eqn:Hf.
  - assert (const_ok op) as Hop by (apply const_ok_other; intros v ->; by apply function_unary in Hf).
    destruct (push_operator_ok op (c_stack c) (c_output c) Hop Ho Hs). by destruct (push_operator _ _ _).
  - assert (forall op, (forall v, op <> ConstI v) -> Forall const_ok (c_output c ++ [op])) as Hadd.
    { intros op Hop. apply Forall_app. split; [done|]. constructor; [by apply const_ok_other|done]. }
    destruct (bool_decide _); [by split; [apply Hadd|]|]. destruct (bool_decide _); [by split; [apply Hadd|]|].
    destruct (variable_index _ _). by split; [apply Hadd|].
Qed.

Lemma operator_at_const s b op len : operator_at s b = Ok (op, len) -> const_ok op.
Proof.
  unfold operator_at. intros H. apply const_ok_other. intros v ->.
  destruct (two_char_op _) as [op|] eqn:E.
  - injection H as -> _. revert E. unfold two_char_op. by repeat (case_match; [discriminate|]).
  - destruct s as [|c s]; [discriminate|]. destruct (one_char_op c b) as [op|] eqn:E1; [|discriminate].
    injection H as -> _. revert E1. unfold one_char_op. by repeat (case_match; [discriminate|]).
Qed.

Lemma compile_step_ok c ch s c' s' : compiler_ok c -> compile_step c ch s = Ok (c', s') -> compiler_ok c'.
Proof.
  intros Hc. unfold compile_step. destruct (is_ascii_whitespace ch); [by intros [= <- _]|].
  destruct (is_ascii_digit ch || _).
  { destruct (parse_number _) as [[v len]|] eqn:E; [|discriminate]. intros [= <- _]. destruct Hc as [Ho Hs].
    split; [|done]. apply Forall_app. split; [done|]. constructor; [|done]. by eapply parse_number_ok. }
  destruct (is_ascii_alphabetic ch || _).
  { destruct (span _ _). intros [= <- _]. by apply compile_word_ok. }
  destruct Hc as [Ho Hs]. destruct (ch =? 40); [intros [= <- _]; split; [done|by constructor]|]. destruct (ch =? 41).
  { destruct (close_paren _ _) as [[st o]|] eqn:E; [|discriminate]. intros [= <- _].
    apply close_paren_ok in E as [? ?]; [|done|done]. by split. }
  destruct (operator_at _ _) as [[op len]|] eqn:E; [|discriminate]. cbn [mbind result_bind].
  apply operator_at_const in E. destruct (push_operator_ok op (c_stack c) (c_output c) E Ho Hs).
  destruct (push_operator _ _ _). intros [= <- _]. by split.
Qed.

Lemma Expr_parse_ok src e : Expr_parse src = Ok e -> Forall const_ok (rpn e).
Proof.
  unfold Expr_parse. generalize (length src). intros fuel.
  assert (compiler_ok (mkCompiler [] [] [] false)) as Hc by done. revert Hc.
  generalize (mkCompiler [] [] [] false). intros c Hc H.
  apply result_bind_ok in H as (c' & Hcomp & H). apply result_bind_ok in H as (out & Hd & [= <-]).
  enough (compiler_ok c') as [Ho Hs] by (by eapply drain_stack_ok).
  clear out Hd. revert c src Hc Hcomp. induction fuel as [|fuel IH]; intros c [|ch s] Hc; simpl; try done;
    try (by intros [= <-]).
  intros H. apply result_bind_ok in H as ([c1 s1] & H1 & H2). eapply IH; [|exact H2].
  by eapply compile_step_ok.
Qed.

Lemma Expr_eval_ok `{FloatLib} src e vars v :
  Expr_parse src = Ok e -> Forall value_ok vars -> Expr_eval e vars = Ok v -> value_ok v.
Proof.
  intros Hp Hvars Hev. apply Expr_parse_ok in Hp.
  unfold Expr_eval in Hev. apply result_bind_ok in Hev as (stack & Hst & Hres).
  enough (Forall value_ok stack) as Hok.
  { destruct (negb _); [done|]. destruct stack as [|x stack]; [done|]. injection Hres as <-. by apply Forall_cons in Hok as [? _]. }
  clear Hres v. assert (Forall value_ok []) as Hnil by done. revert Hst Hnil. generalize (@nil Value).
  induction Hp as [|op ops Hop _ IH]; intros st Hst Hok; simpl in Hst; [injection Hst as ->; exact Hok|].
  apply result_bind_ok in Hst as (st1 & H1 & H2). eapply IH; [exact H2|]. exact (eval_op_ok e vars op st st1 Hvars Hop Hok H1).
Qed.

(** An integer a formula evaluates to fits 64 bits, for any source text
    and any variables that fit: overflowing operations wrap, shifts use the
    low six bits of their count and casts from floats saturate. *)
Theorem formula_fits_i64 `{FloatLib} (src : text) (e : Expr) (vars : list Value) (v : Value) :
  Expr_parse src = Ok e -> Forall value_ok vars -> Expr_eval e vars = Ok v -> i64_ok (as_i64 v).
Proof. intros Hp Hvars Hev. apply as_i64_ok. by eapply Expr_eval_ok. Qed.

Lemma formula_fits_i64_witness :
  exists e v, Expr_parse (str "9223372036854775807*x") = Ok e /\ Expr_eval e [I 2] = Ok v /\ i64_ok (as_i64 v).
Proof.
  exists (mkExpr [ConstI 9223372036854775807; Var 0; Mul] [str "x"]), (I (-2)).
  split; [reflexivity|]. split; [reflexivity|].
  apply (formula_fits_i64 (str "9223372036854775807*x") (mkExpr [ConstI 9223372036854775807; Var 0; Mul] [str "x"]) [I 2]).
  - reflexivity.
  - constructor; [const_range|constructor].
  - reflexivity.
Defined.
