(* ===== verification/NodeGraph.v ===== *)
(** The GenICam node graph: the model of [src/src/genicam/node.rs] (the arena
    of typed nodes and the engine that chases value links down to register
    reads and writes) and of the port interface of [src/src/genicam/port.rs].

    An operation of [Genicam] takes the graph and the port and returns
    [None] when it panics (an index out of range) or when the recursion of the
    model runs out of fuel, and otherwise the new graph and port with a
    result; a failed operation keeps the changes made before the failure, as
    in the source.  The four entry points that push the visit stack
    ([int_value], [set_int_value], [float_value], [set_float_value]) are the
    only recursive ones: the functions between them take these four as a
    record of operations ([Ops]), and [engine] ties the knot. *)

From stdpp Require Import gmap.
From S2P Require Import Prelude Float64 Text Bootstrap Register Evaluator Errors.

(** * Errors *)

Inductive FormulaError :=
| CodecFailed (e : CodecError)
| EvalFailed (e : EvalError)
| UnboundVariable (name : text).

Inductive EntryName := ByName (entry : text) | ByValue (v : Z).

Inductive XmlError :=
| XmlSyntax
| NotLoaded
| NegativePayloadSize.

Inductive GenicamError :=
| NotFound (name : text)
| WrongType (name : text)
| Access (name : text)
| Dangling (name : text)
| Circular (name : text)
| FormulaErr (name : text) (e : FormulaError)
| NoSuchEntry (name : text) (entry : EntryName)
| OutOfRange (name : text) (value min max : Z)
| Xml (e : XmlError)
| FrameTimeout
| Camera (e : CameraError).

(** * Nodes *)

Definition MAX_REGISTER_LENGTH : Z := Z.shiftl 16 20.

(** A [NodeId] is an index into the arena. *)
Inductive Link := LName (name : text) | LId (id : nat).

Record Indexed (V : Type) := mkIndexed {
  ix_index : Link; ix_entries : list (Z * V); ix_default : V }.
Arguments mkIndexed {V}.
Arguments ix_index {V}.
Arguments ix_entries {V}.
Arguments ix_default {V}.

Inductive ValueRef :=
| VNone
| LitInt (v : Z)
| LitFloat (v : f64)
| LitStr (s : text)
| VLink (l : Link)
| VIndexed (ix : Indexed ValueRef).

Definition is_none (vr : ValueRef) : bool := match vr with VNone => true | _ => false end.

Definition pick (ix : Indexed ValueRef) (index : Z) : ValueRef :=
  default (ix_default ix) (snd <$> List.find (fun '(at_, _) => at_ =? index) (ix_entries ix)).

Inductive AccessMode := RO | WO | RW.
Inductive Cachable := NoCache | WriteThrough | WriteAround.
Inductive NodeKind :=
| KCategory | KInteger | KFloat | KBoolean | KString | KEnumeration | KCommand | KOther.

Global Instance AccessMode_eq_dec : EqDecision AccessMode.
Proof. solve_decision. Defined.
Global Instance Cachable_eq_dec : EqDecision Cachable.
Proof. solve_decision. Defined.

Record RegisterCommon := mkRegisterCommon {
  address_terms : list ValueRef;
  rc_length : ValueRef;
  access : AccessMode;
  cachable : Cachable;
  cache : option bytes }.
Definition RegisterCommon_eta (r : RegisterCommon) : RegisterCommon :=
  mkRegisterCommon (address_terms r) (rc_length r) (access r) (cachable r) (cache r).
#[export] Instance set_access : Setter access := ltac:(derive_setter RegisterCommon_eta access).
#[export] Instance set_cache : Setter cache := ltac:(derive_setter RegisterCommon_eta cache).

Inductive RegKind :=
| KRaw
| KInt (sign : Sign) (endianness : Endianness) (lsb msb : option Z)
| KFloatReg (endianness : Endianness)
| KText.

Record FormulaSlot := mkFormulaSlot { fs_src : text; fs_compiled : option Expr }.
Definition FormulaSlot_new (src : text) : FormulaSlot := mkFormulaSlot src None.

Inductive Node :=
| NCategory (features : list Link)
| NInteger (value min max inc : ValueRef)
| NFloat (value min max : ValueRef)
| NBoolean (value : ValueRef) (on_value off_value : Z)
| NString (value : ValueRef)
| NEnumeration (value : ValueRef) (entries : list (text * Z))
| NCommand (value command_value : ValueRef)
| NRegister (common : RegisterCommon) (kind : RegKind)
| NConverter (value : ValueRef) (formula_to formula_from : FormulaSlot) (variables : list (text * Link))
| NSwissKnife (formula : FormulaSlot) (variables : list (text * Link))
| NPort.

Record NodeData := mkNodeData { nd_name : text; nd_node : Node }.

(** [visit] has the node entered last at its head. *)
Record Genicam := mkGenicam {
  nodes : list NodeData;
  by_name : gmap text nat;
  invalidates : gmap nat (list nat);
  visit : list nat }.
Definition Genicam_eta (g : Genicam) : Genicam :=
  mkGenicam (nodes g) (by_name g) (invalidates g) (visit g).
#[export] Instance set_nodes : Setter nodes := ltac:(derive_setter Genicam_eta nodes).
#[export] Instance set_visit : Setter visit := ltac:(derive_setter Genicam_eta visit).

Definition from_parts (nodes : list NodeData) (by_name : gmap text nat)
    (invalidates : gmap nat (list nat)) : Genicam := mkGenicam nodes by_name invalidates [].

(** * The port

    [PortIo::read] fills the whole buffer it is given with bytes; a port may
    keep state of its own, [port_ok] is what its implementation maintains. *)
Class PortIo (P : Type) := {
  port_read : P -> Z -> nat -> P * result CameraError bytes;
  port_write : P -> Z -> bytes -> P * result CameraError unit;
  port_ok : P -> Prop;
  port_read_ok p a n :
    port_ok p -> port_ok (port_read p a n).1 /\
                 forall b, (port_read p a n).2 = Ok b -> length b = n /\ bytes_ok b;
  port_write_ok p a data :
    port_ok p -> bytes_ok data -> port_ok (port_write p a data).1 }.

(** * Effects *)

Record World (P : Type) := mkWorld { w_graph : Genicam; w_port : P }.
Arguments mkWorld {P}.
Arguments w_graph {P}.
Arguments w_port {P}.

Definition M (P A : Type) : Type := World P -> option (World P * result GenicamError A).

Section effects.
Context {P : Type}.

Global Instance M_ret : MRet (M P) := fun A a w => Some (w, Ok a).
Global Instance M_bind : MBind (M P) := fun A B f m w =>
  match m w with
  | Some (w, Ok a) => f a w
  | Some (w, Err e) => Some (w, Err e)
  | None => None
  end.

Definition raise {A} (e : GenicamError) : M P A := fun w => Some (w, Err e).
Definition stuck {A} : M P A := fun _ => None.

Definition lift {A} (r : result GenicamError A) : M P A := fun w => Some (w, r).

(** [self.nodes[id]]. *)
Definition node_data (id : nat) : M P NodeData := fun w =>
  d ← nodes (w_graph w) !! id; Some (w, Ok d).

Definition node_of (id : nat) : M P Node := d ← node_data id; mret (nd_node d).
Definition name_of (id : nat) : M P text := d ← node_data id; mret (nd_name d).

Definition map_graph (f : Genicam -> Genicam) (w : World P) : World P :=
  mkWorld (f (w_graph w)) (w_port w).

Definition gets {A} (f : Genicam -> A) : M P A := fun w => Some (w, Ok (f (w_graph w))).
Definition modify (f : Genicam -> Genicam) : M P unit := fun w => Some (map_graph f w, Ok tt).

Definition update_node (f : Node -> Node) (d : NodeData) : NodeData :=
  mkNodeData (nd_name d) (f (nd_node d)).

Definition alter_node (id : nat) (f : Node -> Node) (g : Genicam) : Genicam :=
  g <| nodes ::= alter (update_node f) id |>.

(** [if let ... = &mut self.nodes[id].node { ... }]: [f] is the identity on
    the nodes the pattern does not match. *)
Definition modify_node (id : nat) (f : Node -> Node) : M P unit :=
  _ ← node_data id; modify (alter_node id f).

Definition wrong_type {A} (id : nat) : M P A := name ← name_of id; raise (WrongType name).
Definition no_access {A} (id : nat) : M P A := name ← name_of id; raise (Access name).

(** [.map_err(|e| GenicamError::Formula(name, e))]. *)
Definition or_formula {A} (id : nat) (r : result FormulaError A) : M P A :=
  match r with
  | Ok a => mret a
  | Err e => name ← name_of id; raise (FormulaErr name e)
  end.

(** * The visit stack *)

Definition enter (id : nat) : M P unit := fun w =>
  let g := w_graph w in
  if bool_decide (id ∈ visit g) then
    (name ← name_of id; raise (Circular name)) (map_graph (fun g => g <| visit := [] |>) w)
  else Some (map_graph (fun g => g <| visit := id :: visit g |>) w, Ok tt).

Definition leave (w : World P) : World P := map_graph (fun g => g <| visit := tail (visit g) |>) w.

(** [enter(id)?; let result = body; leave(); result]. *)
Definition leaving {A} (body : M P A) : M P A := fun w =>
  '((w, r) : World P * result GenicamError A) ← body w; Some (leave w, r).
Definition entered {A} (id : nat) (body : M P A) : M P A := _ ← enter id; leaving body.

Definition resolve (link : Link) : M P nat :=
  match link with LId id => mret id | LName name => raise (Dangling name) end.

(** * The node caches *)

Definition with_cache (c : option bytes) (n : Node) : Node :=
  match n with NRegister common kind => NRegister (common <| cache := c |>) kind | _ => n end.

Definition invalidate_caches (g : Genicam) : Genicam :=
  g <| nodes ::= fmap (update_node (with_cache None)) |>.

Definition store_compiled_from (id : nat) (slot : FormulaSlot) : M P unit :=
  modify_node id (fun n => match n with NConverter v to _ vars => NConverter v to slot vars | _ => n end).
Definition store_compiled_to (id : nat) (slot : FormulaSlot) : M P unit :=
  modify_node id (fun n => match n with NConverter v _ from vars => NConverter v slot from vars | _ => n end).
Definition store_compiled_swissknife (id : nat) (slot : FormulaSlot) : M P unit :=
  modify_node id (fun n => match n with NSwissKnife _ vars => NSwissKnife slot vars | _ => n end).
End effects.

(** * Evaluation *)

(** The recursive operations, as the functions between them use them. *)
Record Ops (P : Type) := mkOps {
  int_of : nat -> M P Z;
  float_of : nat -> M P f64;
  set_int_of : nat -> Z -> M P unit;
  set_float_of : nat -> f64 -> M P unit }.
Arguments mkOps {P}.
Arguments int_of {P}.
Arguments float_of {P}.
Arguments set_int_of {P}.
Arguments set_float_of {P}.

Section engine.
Context {FL : FloatLib} {P : Type} {PIO : PortIo P}.

Section step.
Context (rec : Ops P).

Definition selected_index (ix : Indexed ValueRef) : M P Z :=
  index ← resolve (ix_index ix); int_of rec index.

Definition selected (ix : Indexed ValueRef) : M P ValueRef :=
  at_ ← selected_index ix; mret (pick ix at_).

(** In [ref_int] and [ref_float] the inner loop is [pick] followed by the
    recursive call ([ref_int_indexed], [ref_float_indexed]). *)
Fixpoint ref_int (vr : ValueRef) : M P Z :=
  match vr with
  | LitInt v => mret v
  | LitFloat v => mret (f64_to_i64 (f64_round v))
  | VLink link => id ← resolve link; int_of rec id
  | VIndexed ix =>
      at_ ← selected_index ix;
      (fix find_entry (es : list (Z * ValueRef)) : M P Z :=
         match es with
         | [] => ref_int (ix_default ix)
         | (k, v) :: es => if k =? at_ then ref_int v else find_entry es
         end) (ix_entries ix)
  | VNone | LitStr _ => raise (WrongType (str "<value reference>"))
  end.

Fixpoint ref_float (vr : ValueRef) : M P f64 :=
  match vr with
  | LitInt v => mret (f64_of_Z v)
  | LitFloat v => mret v
  | VLink link => id ← resolve link; float_of rec id
  | VIndexed ix =>
      at_ ← selected_index ix;
      (fix find_entry (es : list (Z * ValueRef)) : M P f64 :=
         match es with
         | [] => ref_float (ix_default ix)
         | (k, v) :: es => if k =? at_ then ref_float v else find_entry es
         end) (ix_entries ix)
  | VNone | LitStr _ => raise (WrongType (str "<value reference>"))
  end.

(** A node that evaluates as a float in formulas and converters. *)
Definition is_float_target (n : Node) : bool :=
  match n with NFloat _ _ _ | NRegister _ (KFloatReg _) => true | _ => false end.

Definition target_value (target : nat) : M P Value :=
  n ← node_of target;
  if is_float_target n then v ← float_of rec target; mret (F v)
  else v ← int_of rec target; mret (I v).

(** * Registers *)

Definition register_length (id : nat) (len : ValueRef) : M P nat :=
  if is_none len then mret 4%nat
  else
    value ← ref_int len;
    if (0 <=? value) && (value <=? MAX_REGISTER_LENGTH) then mret (Z.to_nat value)
    else name ← name_of id; raise (OutOfRange name value 0 MAX_REGISTER_LENGTH).

Fixpoint sum_terms (address : Z) (terms : list ValueRef) : M P Z :=
  match terms with
  | [] => mret address
  | term :: terms => v ← ref_int term; sum_terms (swrap 64 (address + v)) terms
  end.

Definition register_address (id : nat) : M P (Z * nat) :=
  n ← node_of id;
  match n with
  | NRegister common _ =>
      address ← sum_terms 0 (address_terms common);
      len ← register_length id (rc_length common);
      mret (wrap 64 address, len)
  | _ => wrong_type id
  end.

(** [port.read(address, &mut buf)?] and [port.write(address, data)?]. *)
Definition do_read (address : Z) (len : nat) : M P bytes := fun w =>
  let '(p, r) := port_read (w_port w) address len in
  Some (mkWorld (w_graph w) p, map_err Camera r).
Definition do_write (address : Z) (data : bytes) : M P unit := fun w =>
  let '(p, r) := port_write (w_port w) address data in
  Some (mkWorld (w_graph w) p, map_err Camera r).

Definition cache_after_read (buf : bytes) (n : Node) : Node :=
  match n with
  | NRegister common _ => if bool_decide (cachable common = NoCache) then n else with_cache (Some buf) n
  | _ => n
  end.

Definition register_read (id : nat) : M P bytes :=
  n ← node_of id;
  match n with
  | NRegister common _ =>
      if bool_decide (access common = WO) then no_access id
      else
        match (if bool_decide (cachable common = NoCache) then None else cache common) with
        | Some cached => mret cached
        | None =>
            '((address, len) : Z * nat) ← register_address id;
            buf ← do_read address len;
            _ ← modify_node id (cache_after_read buf);
            mret buf
        end
  | _ => wrong_type id
  end.

Definition cache_after_write (data : bytes) (n : Node) : Node :=
  match n with
  | NRegister common _ =>
      with_cache (match cachable common with WriteThrough => Some data | _ => None end) n
  | _ => n
  end.

(** [for dep in dependents { if let Node::Register ... cache = None }]. *)
Fixpoint invalidate_all (deps : list nat) : M P unit :=
  match deps with
  | [] => mret tt
  | dep :: deps => _ ← modify_node dep (with_cache None); invalidate_all deps
  end.

Definition register_write (id : nat) (data : bytes) : M P unit :=
  n ← node_of id;
  match n with
  | NRegister common _ =>
      if bool_decide (access common = RO) then no_access id
      else
        '((address, _) : Z * nat) ← register_address id;
        _ ← do_write address data;
        _ ← modify_node id (cache_after_write data);
        deps ← gets (fun g => default [] (invalidates g !! id));
        invalidate_all deps
  | _ => wrong_type id
  end.

(** * Formulas *)

Definition compiled_formula (id : nat) (formula : FormulaSlot) : M P (Expr * FormulaSlot) :=
  match fs_compiled formula with
  | Some e => mret (e, formula)
  | None =>
      e ← or_formula id (map_err EvalFailed (Expr_parse (fs_src formula)));
      mret (e, mkFormulaSlot (fs_src formula) (Some e))
  end.

(** [iter().find(|(n, _)| n == name)]. *)
Definition assoc {A} (name : text) (l : list (text * A)) : option A :=
  snd <$> List.find (fun '(n, _) => bool_decide (n = name)) l.

Definition variable_link (vars : list (text * Link)) (g : Genicam) (name : text) : option Link :=
  match assoc name vars with
  | Some link => Some link
  | None => LId <$> by_name g !! name
  end.

Definition variable_value (id : nat) (vars : list (text * Link)) (builtins : list (text * Value))
    (name : text) : M P Value :=
  match assoc name builtins with
  | Some v => mret v
  | None =>
      link ← gets (fun g => variable_link vars g name);
      match link with
      | Some link => target ← resolve link; target_value target
      | None => or_formula id (Err (UnboundVariable name))
      end
  end.

(** The [for name in expr.variables()] loop. *)
Fixpoint variable_values (id : nat) (vars : list (text * Link)) (builtins : list (text * Value))
    (names : list text) : M P (list Value) :=
  match names with
  | [] => mret []
  | name :: names =>
      v ← variable_value id vars builtins name;
      vs ← variable_values id vars builtins names;
      mret (v :: vs)
  end.

Definition eval_formula (id : nat) (formula : FormulaSlot) (vars : list (text * Link))
    (builtins : list (text * Value)) : M P (Value * FormulaSlot) :=
  '((e, formula) : Expr * FormulaSlot) ← compiled_formula id formula;
  values ← variable_values id vars builtins (variables e);
  v ← or_formula id (map_err EvalFailed (Expr_eval e values));
  mret (v, formula).

Definition converter_raw (value : ValueRef) : M P Value :=
  match value with
  | VLink link => target ← resolve link; target_value target
  | other => v ← ref_int other; mret (I v)
  end.

Definition eval_converter (id : nat) (value : ValueRef) (formula : FormulaSlot)
    (vars : list (text * Link)) : M P (Value * FormulaSlot) :=
  value ← match value with VIndexed ix => selected ix | other => mret other end;
  raw ← converter_raw value;
  eval_formula id formula vars [(str "TO", raw)].

Definition eval_to (id : nat) (formula : FormulaSlot) (vars : list (text * Link)) (from : Value)
    : M P (Value * FormulaSlot) :=
  eval_formula id formula vars [(str "FROM", from)].

(** The user value of a converter, its compiled formula stored back. *)
Definition converter_value (id : nat) (value : ValueRef) (formula_from : FormulaSlot)
    (vars : list (text * Link)) : M P Value :=
  '((v, formula) : Value * FormulaSlot) ← eval_converter id value formula_from vars;
  _ ← store_compiled_from id formula;
  mret v.

Definition swissknife_value (id : nat) (formula : FormulaSlot) (vars : list (text * Link)) : M P Value :=
  '((v, formula) : Value * FormulaSlot) ← eval_formula id formula vars [];
  _ ← store_compiled_swissknife id formula;
  mret v.

(** * Integer and float access *)

Definition int_value_inner (id : nat) : M P Z :=
  n ← node_of id;
  match n with
  | NInteger value _ _ _ | NBoolean value _ _ | NEnumeration value _ => ref_int value
  | NRegister _ (KInt sign endianness lsb msb) =>
      bs ← register_read id;
      or_formula id (map_err CodecFailed (extract_int bs sign endianness lsb msb))
  | NConverter value _ formula_from vars =>
      v ← converter_value id value formula_from vars; mret (as_i64 v)
  | NSwissKnife formula vars => v ← swissknife_value id formula vars; mret (as_i64 v)
  | NFloat value _ _ => v ← ref_float value; mret (f64_to_i64 (f64_round v))
  | _ => wrong_type id
  end.

Definition float_value_inner (id : nat) : M P f64 :=
  n ← node_of id;
  match n with
  | NFloat value _ _ => ref_float value
  | NInteger value _ _ _ => v ← ref_int value; mret (f64_of_Z v)
  | NRegister _ (KFloatReg endianness) =>
      bs ← register_read id;
      or_formula id (map_err CodecFailed (extract_float bs endianness))
  | NConverter value _ formula_from vars =>
      v ← converter_value id value formula_from vars; mret (as_f64 v)
  | NSwissKnife formula vars => v ← swissknife_value id formula vars; mret (as_f64 v)
  | _ => wrong_type id
  end.

(** [*value = ValueRef::LitInt(v)] on the nodes that have an integer value. *)
Definition with_int_literal (v : Z) (n : Node) : Node :=
  match n with
  | NInteger _ min max inc => NInteger (LitInt v) min max inc
  | NBoolean _ on off => NBoolean (LitInt v) on off
  | NEnumeration _ entries => NEnumeration (LitInt v) entries
  | NCommand _ command_value => NCommand (LitInt v) command_value
  | _ => n
  end.

Definition set_ref_int (id : nat) (vr : ValueRef) (v : Z) : M P unit :=
  match vr with
  | VLink link => target ← resolve link; set_int_of rec target v
  | LitInt _ => modify_node id (with_int_literal v)
  | VIndexed ix =>
      entry ← selected ix;
      match entry with
      | VLink link => target ← resolve link; set_int_of rec target v
      | _ => no_access id
      end
  | _ => no_access id
  end.

(** The link case of [set_ref_value]. *)
Definition set_link_value (link : Link) (v : Value) : M P unit :=
  target ← resolve link;
  n ← node_of target;
  if is_float_target n then set_float_of rec target (as_f64 v)
  else set_int_of rec target (as_i64 v).

Definition set_ref_value (id : nat) (vr : ValueRef) (v : Value) : M P unit :=
  match vr with
  | VLink link => set_link_value link v
  | VIndexed ix =>
      entry ← selected ix;
      match entry with
      | VLink link => set_link_value link v
      | _ => no_access id
      end
  | _ => no_access id
  end.

Definition set_converter (id : nat) (value : ValueRef) (formula_to : FormulaSlot)
    (vars : list (text * Link)) (v : Value) : M P unit :=
  '((out, formula) : Value * FormulaSlot) ← eval_to id formula_to vars v;
  _ ← store_compiled_to id formula;
  set_ref_value id value out.

Definition set_int_value_inner (id : nat) (v : Z) : M P unit :=
  n ← node_of id;
  match n with
  | NInteger value _ _ _ | NBoolean value _ _ | NEnumeration value _ | NCommand value _ =>
      set_ref_int id value v
  | NRegister common (KInt sign endianness lsb msb) =>
      len ← register_length id (rc_length common);
      bs ← match lsb, msb with
           | None, None => or_formula id (map_err CodecFailed (encode_int v (Z.of_nat len) endianness))
           | _, _ =>
               current ← register_read id;
               or_formula id (map_err CodecFailed (insert_int current v sign endianness lsb msb))
           end;
      register_write id bs
  | NConverter value formula_to _ vars => set_converter id value formula_to vars (I v)
  | _ => wrong_type id
  end.

Definition with_float_literal (v : f64) (n : Node) : Node :=
  match n with NFloat _ min max => NFloat (LitFloat v) min max | _ => n end.

Definition set_float_value_inner (id : nat) (v : f64) : M P unit :=
  n ← node_of id;
  match n with
  | NFloat value _ _ =>
      match value with
      | VLink link => target ← resolve link; set_float_of rec target v
      | LitFloat _ => modify_node id (with_float_literal v)
      | VIndexed ix =>
          entry ← selected ix;
          match entry with
          | VLink link => target ← resolve link; set_float_of rec target v
          | _ => no_access id
          end
      | _ => no_access id
      end
  | NInteger _ _ _ _ => set_int_value_inner id (f64_to_i64 (f64_round v))
  | NRegister common (KFloatReg endianness) =>
      len ← register_length id (rc_length common);
      bs ← or_formula id (map_err CodecFailed (encode_float v (Z.of_nat len) endianness));
      register_write id bs
  | NConverter value formula_to _ vars => set_converter id value formula_to vars (F v)
  | _ => wrong_type id
  end.

Definition ops_step : Ops P := {|
  int_of := fun id => entered id (int_value_inner id);
  float_of := fun id => entered id (float_value_inner id);
  set_int_of := fun id v => entered id (set_int_value_inner id v);
  set_float_of := fun id v => entered id (set_float_value_inner id v) |}.
End step.

Fixpoint engine (fuel : nat) : Ops P :=
  match fuel with
  | O => {| int_of := fun _ => stuck; float_of := fun _ => stuck;
            set_int_of := fun _ _ => stuck; set_float_of := fun _ _ => stuck |}
  | S fuel => ops_step (engine fuel)
  end.

(** Every node is entered at most once, so one level per node and one for the
    call that finds the stack full are enough. *)
Definition levels (w : World P) : nat := S (length (nodes (w_graph w))).

Definition with_engine {A} (f : Ops P -> M P A) : M P A := fun w => f (engine (levels w)) w.

Definition int_value (id : nat) : M P Z := with_engine (fun o => int_of o id).
Definition set_int_value (id : nat) (v : Z) : M P unit := with_engine (fun o => set_int_of o id v).
Definition float_value (id : nat) : M P f64 := with_engine (fun o => float_of o id).
Definition set_float_value (id : nat) (v : f64) : M P unit := with_engine (fun o => set_float_of o id v).

(** * Strings, enumerations, commands *)

Definition entry_named (name entry : text) (entries : list (text * Z)) : result GenicamError Z :=
  ok_or (assoc entry entries) (NoSuchEntry name (ByName entry)).

Definition entry_valued (name : text) (v : Z) (entries : list (text * Z)) : result GenicamError text :=
  ok_or (fst <$> List.find (fun '(_, value) => value =? v) entries) (NoSuchEntry name (ByValue v)).

Fixpoint string_value_n (fuel : nat) (id : nat) : M P text :=
  match fuel with
  | O => stuck
  | S fuel =>
      n ← node_of id;
      match n with
      | NString value =>
          match value with
          | LitStr s => mret s
          | VLink link => target ← resolve link; entered id (string_value_n fuel target)
          | _ => wrong_type id
          end
      | NRegister _ KText =>
          bs ← with_engine (fun o => register_read o id);
          mret (from_utf8_lossy (until_nul bs))
      | NEnumeration _ _ =>
          v ← int_value id;
          n ← node_of id;
          match n with
          | NEnumeration _ entries => name ← name_of id; lift (entry_valued name v entries)
          | _ => wrong_type id
          end
      | _ => wrong_type id
      end
  end.

Definition string_value (id : nat) : M P text := fun w => string_value_n (levels w) id w.

Definition enum_entries (id : nat) : M P (list text) :=
  n ← node_of id;
  match n with
  | NEnumeration _ entries => mret (fst <$> entries)
  | _ => wrong_type id
  end.

Definition set_enum_entry (id : nat) (entry : text) : M P unit :=
  n ← node_of id;
  match n with
  | NEnumeration _ entries =>
      name ← name_of id;
      value ← lift (entry_named name entry entries);
      set_int_value id value
  | _ => wrong_type id
  end.

(** [bytes[..n].copy_from_slice(&s.as_bytes()[..n])] on a zeroed buffer. *)
Definition padded (len : nat) (s : bytes) : bytes :=
  take len s ++ replicate (len - length s) 0.

Definition with_str_literal (s : text) (n : Node) : Node :=
  match n with NString _ => NString (LitStr s) | _ => n end.

Fixpoint set_string_value_n (fuel : nat) (id : nat) (s : text) : M P unit :=
  match fuel with
  | O => stuck
  | S fuel =>
      n ← node_of id;
      match n with
      | NString value =>
          match value with
          | LitStr _ => modify_node id (with_str_literal s)
          | VLink link => target ← resolve link; entered id (set_string_value_n fuel target s)
          | _ => no_access id
          end
      | NRegister common KText =>
          len ← with_engine (fun o => register_length o id (rc_length common));
          with_engine (fun o => register_write o id (padded len (as_bytes s)))
      | NEnumeration _ _ => set_enum_entry id s
      | _ => wrong_type id
      end
  end.

Definition set_string_value (id : nat) (s : text) : M P unit := fun w => set_string_value_n (levels w) id s w.

Definition execute (id : nat) : M P unit :=
  n ← node_of id;
  match n with
  | NCommand value command_value =>
      v ← (if is_none command_value then mret 1 else with_engine (fun o => ref_int o command_value));
      with_engine (fun o => set_ref_int o id value v)
  | _ => wrong_type id
  end.

(** * Bounds *)

(** [if vr.is_none() { fallback } else { self.ref_int(&vr, port)? }]. *)
Definition int_or (fallback : Z) (vr : ValueRef) : M P Z :=
  if is_none vr then mret fallback else with_engine (fun o => ref_int o vr).
Definition float_or (fallback : f64) (vr : ValueRef) : M P f64 :=
  if is_none vr then mret fallback else with_engine (fun o => ref_float o vr).

Definition int_bounds (id : nat) : M P (Z * Z) :=
  n ← node_of id;
  match n with
  | NInteger _ min max _ =>
      lo ← int_or I64_MIN min;
      hi ← int_or I64_MAX max;
      mret (lo, hi)
  | NRegister _ (KInt _ _ _ _) => mret (I64_MIN, I64_MAX)
  | _ => wrong_type id
  end.

Definition int_increment (id : nat) : M P Z :=
  n ← node_of id;
  match n with
  | NInteger _ _ _ inc => int_or 1 inc
  | _ => wrong_type id
  end.

Definition F64_MAX : f64 := f64_from_bits 0x7fefffffffffffff.
Definition F64_MIN : f64 := f64_neg F64_MAX.

Definition float_bounds (id : nat) : M P (f64 * f64) :=
  n ← node_of id;
  match n with
  | NFloat _ min max =>
      lo ← float_or F64_MIN min;
      hi ← float_or F64_MAX max;
      mret (lo, hi)
  | _ => wrong_type id
  end.

(** * Booleans *)

Definition bool_value (id : nat) : M P bool :=
  n ← node_of id;
  match n with
  | NBoolean value on_value _ =>
      v ← with_engine (fun o => ref_int o value); mret (v =? on_value)
  | _ => v ← int_value id; mret (negb (v =? 0))
  end.

Definition set_bool_value (id : nat) (v : bool) : M P unit :=
  n ← node_of id;
  match n with
  | NBoolean _ on_value off_value => set_int_value id (if v then on_value else off_value)
  | _ => set_int_value id (i64_from v)
  end.
End engine.

(** * Inspection *)

Definition lookup_name (g : Genicam) (name : text) : result GenicamError nat :=
  ok_or (by_name g !! name) (NotFound name).

Definition node_names (g : Genicam) : list text := nd_name <$> nodes g.

Definition node_kind (n : Node) : NodeKind :=
  match n with
  | NCategory _ => KCategory
  | NInteger _ _ _ _ => KInteger
  | NFloat _ _ _ => KFloat
  | NBoolean _ _ _ => KBoolean
  | NString _ => KString
  | NEnumeration _ _ => KEnumeration
  | NCommand _ _ => KCommand
  | NConverter _ _ _ _ | NSwissKnife _ _ => KFloat
  | NRegister _ _ | NPort => KOther
  end.

Definition kind_of (g : Genicam) (id : nat) : option NodeKind :=
  d ← nodes g !! id; Some (node_kind (nd_node d)).

Definition category_features (g : Genicam) (id : nat) : option (list nat) :=
  d ← nodes g !! id;
  Some (match nd_node d with
        | NCategory features =>
            omap (fun link => match link with LId id => Some id | LName name => by_name g !! name end) features
        | _ => []
        end).

(** The entry an indexed value selects when its index is a constant. *)
Definition static_entry (g : Genicam) (vr : ValueRef) : option ValueRef :=
  match vr with
  | VIndexed ix =>
      match ix_index ix with
      | LId index =>
          d ← nodes g !! index;
          Some (match nd_node d with
                | NInteger (LitInt at_) _ _ _ => pick ix at_
                | _ => ix_default ix
                end)
      | LName _ => Some (ix_default ix)
      end
  | _ => Some vr
  end.

(** One turn of the loop of [access_mode]: a verdict, or the next node. *)
Definition access_step (g : Genicam) (id : nat) : option (AccessMode + nat) :=
  d ← nodes g !! id;
  match nd_node d with
  | NRegister common _ => Some (inl (access common))
  | NSwissKnife _ _ => Some (inl RO)
  | NInteger value _ _ _ | NFloat value _ _ | NBoolean value _ _ | NEnumeration value _
  | NConverter value _ _ _ =>
      entry ← static_entry g value;
      Some (match entry with
            | VLink (LId next) => inr next
            | LitInt _ | LitFloat _ => inl RW
            | _ => inl RO
            end)
  | NCommand _ _ => Some (inl WO)
  | _ => Some (inl RO)
  end.

Fixpoint access_loop (turns : nat) (g : Genicam) (id : nat) : option AccessMode :=
  match turns with
  | O => Some RO
  | S turns =>
      r ← access_step g id;
      match r with inl mode => Some mode | inr next => access_loop turns g next end
  end.

Definition access_mode (g : Genicam) (id : nat) : option AccessMode :=
  access_loop (S (length (nodes g))) g id.

(** * The in-memory port of the source's tests *)

Record MockPort := mkMockPort { mem : bytes }.

Definition MockPort_new (size : nat) : MockPort := mkMockPort (replicate size 0).

Definition mock_read (p : MockPort) (address : Z) (len : nat) : MockPort * result CameraError bytes :=
  (p, ok_or (get_range (mem p) address (address + Z.of_nat len)) (Protocol (MockReadOutOfRange address))).

Definition mock_write (p : MockPort) (address : Z) (data : bytes) : MockPort * result CameraError unit :=
  match get_range (mem p) address (address + zlen data) with
  | Some _ => (mkMockPort (splice (mem p) address data), Ok tt)
  | None => (p, Err (Protocol (MockWriteOutOfRange address)))
  end.

Lemma mock_read_ok p a n :
  bytes_ok (mem p) -> bytes_ok (mem (mock_read p a n).1) /\
                      forall b, (mock_read p a n).2 = Ok b -> length b = n /\ bytes_ok b.
Proof.
  intros Hp. split; [exact Hp|]. intros b Hb. cbn in Hb.
  destruct (get_range _ _ _) as [l|] eqn:E; simplify_eq/=. split; [|by eapply get_range_ok].
  apply get_range_Some in E. destruct E as (? & ? & ? & ?). unfold zlen in *. lia.
Qed.

Lemma mock_write_ok p a data :
  bytes_ok (mem p) -> bytes_ok data -> bytes_ok (mem (mock_write p a data).1).
Proof.
  intros Hp Hd. unfold mock_write. destruct (get_range _ _ _) as [l|] eqn:E; [|exact Hp].
  cbn. unfold splice, bytes_ok in *. repeat apply Forall_app_2; auto using Forall_take, Forall_drop.
Qed.

#[export] Instance MockPort_io : PortIo MockPort := {|
  port_read := mock_read; port_write := mock_write; port_ok := fun p => bytes_ok (mem p);
  port_read_ok := mock_read_ok; port_write_ok := mock_write_ok |}.
