(* ===== verification/NodeTotal.v ===== *)
(** Totality of the node engine.

    A graph is well formed ([graph_ok]) when its resolved links stay inside
    the arena, its integer literals fit 64 bits, its compiled formulas are the
    compilations of their sources and its caches hold bytes.  On such a graph
    every operation returns, whatever cycles the description has, keeps the
    graph well formed and leaves the visit stack as it found it (empty after a
    cycle was reported).  [safe] is the specification all lemmas here share:
    total correctness of an operation of the engine monad, with a bound on the
    nodes that may still be entered. *)

From stdpp Require Import gmap.
From S2P Require Import Prelude Float64 Text Bootstrap Register Evaluator Errors Formula NodeGraph.

(** * Well-formed graphs *)

Definition link_ok (n : nat) (l : Link) : Prop := match l with LId id => (id < n)%nat | LName _ => True end.

Fixpoint ref_ok (n : nat) (vr : ValueRef) : Prop :=
  match vr with
  | VNone | LitFloat _ | LitStr _ => True
  | LitInt v => i64_ok v
  | VLink l => link_ok n l
  | VIndexed ix =>
      link_ok n (ix_index ix) /\ ref_ok n (ix_default ix) /\
      (fix entries_ok (es : list (Z * ValueRef)) : Prop :=
         match es with [] => True | (_, v) :: es => ref_ok n v /\ entries_ok es end) (ix_entries ix)
  end.

(** Induction on value references reaches the entries of indexed ones. *)
Lemma ValueRef_nested_ind (Q : ValueRef -> Prop) :
  Q VNone -> (forall v, Q (LitInt v)) -> (forall v, Q (LitFloat v)) -> (forall s, Q (LitStr s)) ->
  (forall l, Q (VLink l)) ->
  (forall ix, Forall (fun e => Q e.2) (ix_entries ix) -> Q (ix_default ix) -> Q (VIndexed ix)) ->
  forall vr, Q vr.
Proof.
  intros H0 H1 H2 H3 H4 H5. fix IH 1. intros [|v|v|s|l|[index es d]]; [auto..|].
  apply H5; simpl; [|apply IH].
  induction es as [|[k v] es IHes]; [constructor|]. constructor; [apply IH|exact IHes].
Qed.

Lemma ref_ok_indexed n ix :
  ref_ok n (VIndexed ix) <->
  link_ok n (ix_index ix) /\ ref_ok n (ix_default ix) /\ Forall (fun e => ref_ok n e.2) (ix_entries ix).
Proof.
  cbn [ref_ok]. destruct ix as [index es d]; cbn [ix_index ix_entries ix_default].
  enough (forall l : list (Z * ValueRef), (fix entries_ok es : Prop := match es with [] => True | (_, v) :: es => ref_ok n v /\ entries_ok es end) l
            <-> Forall (fun e => ref_ok n e.2) l) as -> by done.
  intros l. induction l as [|[k v] l IH]; [by rewrite Forall_nil|]. by rewrite Forall_cons, IH.
Qed.

Definition slot_ok (s : FormulaSlot) : Prop :=
  match fs_compiled s with Some e => Expr_parse (fs_src s) = Ok e | None => True end.

Definition links_ok {A} (n : nat) (l : list (A * Link)) : Prop := Forall (fun e => link_ok n e.2) l.

Definition common_ok (n : nat) (c : RegisterCommon) : Prop :=
  Forall (ref_ok n) (address_terms c) /\ ref_ok n (rc_length c) /\
  match cache c with Some b => bytes_ok b | None => True end.

Definition node_ok (n : nat) (nd : Node) : Prop :=
  match nd with
  | NCategory features => Forall (link_ok n) features
  | NInteger value min max inc => ref_ok n value /\ ref_ok n min /\ ref_ok n max /\ ref_ok n inc
  | NFloat value min max => ref_ok n value /\ ref_ok n min /\ ref_ok n max
  | NBoolean value on off => ref_ok n value /\ i64_ok on /\ i64_ok off
  | NString value => ref_ok n value
  | NEnumeration value entries => ref_ok n value /\ Forall (fun e => i64_ok e.2) entries
  | NCommand value command_value => ref_ok n value /\ ref_ok n command_value
  | NRegister common _ => common_ok n common
  | NConverter value to from vars => ref_ok n value /\ slot_ok to /\ slot_ok from /\ links_ok n vars
  | NSwissKnife formula vars => slot_ok formula /\ links_ok n vars
  | NPort => True
  end.

Record graph_ok (g : Genicam) : Prop := {
  gk_nodes : Forall (fun d => node_ok (length (nodes g)) (nd_node d)) (nodes g);
  gk_by_name : map_Forall (fun _ id => (id < length (nodes g))%nat) (by_name g);
  gk_invalidates : map_Forall (fun _ deps => Forall (fun id => (id < length (nodes g))%nat) deps) (invalidates g);
  gk_visit : NoDup (visit g) /\ Forall (fun id => (id < length (nodes g))%nat) (visit g) }.

Section total.
Context {FL : FloatLib} {P : Type} {PIO : PortIo P}.
Implicit Types (w : World P) (n k id : nat).

Definition good n w : Prop :=
  graph_ok (w_graph w) /\ port_ok (w_port w) /\ length (nodes (w_graph w)) = n.

(** The nodes that may still be entered. *)
Definition room w : nat := length (nodes (w_graph w)) - length (visit (w_graph w)).

(** What every operation leaves alone. *)
Definition same_names w w' : Prop :=
  nd_name <$> nodes (w_graph w') = nd_name <$> nodes (w_graph w) /\
  by_name (w_graph w') = by_name (w_graph w) /\ invalidates (w_graph w') = invalidates (w_graph w).

Definition outcome_ok {A} (R : A -> Prop) w w' (r : result GenicamError A) : Prop :=
  match r with
  | Ok a => R a /\ visit (w_graph w') = visit (w_graph w)
  | Err _ => visit (w_graph w') = visit (w_graph w) \/ visit (w_graph w') = []
  end.

(** Run on a good world of [n] nodes with room for fewer than [k] more visits,
    [m] returns in a good world; its value satisfies [R]. *)
Definition safe n k {A} (R : A -> Prop) (m : M P A) : Prop :=
  forall w, good n w -> (room w < k)%nat ->
  exists w' r, m w = Some (w', r) /\ good n w' /\ same_names w w' /\ outcome_ok R w w' r.

Definition top {A} (_ : A) : Prop := True.

Lemma same_names_refl w : same_names w w.
Proof. done. Qed.

Lemma same_names_trans w1 w2 w3 : same_names w1 w2 -> same_names w2 w3 -> same_names w1 w3.
Proof. intros (? & ? & ?) (? & ? & ?). split_and!; congruence. Qed.

(** * Rules of the monad *)

Lemma safe_bind n k {A B} (R : A -> Prop) (S : B -> Prop) (m : M P A) (f : A -> M P B) :
  safe n k R m -> (forall a, R a -> safe n k S (f a)) -> safe n k S (m ≫= f).
Proof.
  intros Hm Hf w Hw Hk. destruct (Hm w Hw Hk) as (w1 & [a|e] & E1 & Hw1 & Hs1 & Hr1).
  - destruct Hr1 as [Ha Hv1]. assert (room w1 = room w) as Hroom.
    { unfold room. rewrite Hv1. destruct Hw as (_ & _ & ->), Hw1 as (_ & _ & ->). done. }
    destruct (Hf a Ha w1 Hw1 ltac:(lia)) as (w2 & r & E2 & Hw2 & Hs2 & Hr2). exists w2, r.
    unfold mbind, M_bind. rewrite E1. split_and!; [done|done|by eapply same_names_trans|].
    unfold outcome_ok in *. by rewrite Hv1 in Hr2.
  - exists w1, (Err e). unfold mbind, M_bind. by rewrite E1.
Qed.

Lemma safe_weaken n k {A} (R S : A -> Prop) (m : M P A) :
  safe n k R m -> (forall a, R a -> S a) -> safe n k S m.
Proof.
  intros Hm HRS w Hw Hk. destruct (Hm w Hw Hk) as (w1 & r & E1 & Hw1 & Hs1 & Hr1).
  exists w1, r. split_and!; [done..|]. destruct r; [|done]. destruct Hr1. split; auto.
Qed.

Lemma safe_pure n k {A} (R : A -> Prop) (m : M P A) (r : result GenicamError A) :
  (forall w, good n w -> m w = Some (w, r)) -> (forall a, r = Ok a -> R a) -> safe n k R m.
Proof.
  intros Hm HR w Hw _. exists w, r. split_and!; [by apply Hm|done|done|]. destruct r; simpl; auto.
Qed.

Lemma safe_ret n k {A} (R : A -> Prop) a : R a -> safe n k R (mret a).
Proof. intros. eapply (safe_pure _ _ _ _ (Ok a)); [done|]. by intros ? [= <-]. Qed.

Lemma safe_raise n k {A} (R : A -> Prop) e : safe n k R (raise e).
Proof. by eapply (safe_pure _ _ _ _ (Err e)). Qed.

Lemma safe_lift n k {A} (R : A -> Prop) r : (forall a, r = Ok a -> R a) -> safe n k R (lift r).
Proof. intros. by eapply (safe_pure _ _ _ _ r). Qed.

Lemma good_node n w id d : good n w -> nodes (w_graph w) !! id = Some d -> node_ok n (nd_node d).
Proof.
  intros (Hg & _ & Hn) Hd. pose proof (Forall_lookup_1 _ _ _ _ (gk_nodes _ Hg) Hd) as H. by rewrite Hn in H.
Qed.

Lemma safe_node_data n k id : (id < n)%nat -> safe n k (fun d => node_ok n (nd_node d)) (node_data id).
Proof.
  intros Hid w Hw _. destruct (lookup_lt_is_Some_2 (nodes (w_graph w)) id) as [d Hd].
  { by destruct Hw as (_ & _ & ->). }
  exists w, (Ok d). unfold node_data. rewrite Hd. split_and!; [done..|]. split; [by eapply good_node|done].
Qed.

Lemma safe_node_of n k id : (id < n)%nat -> safe n k (node_ok n) (node_of id).
Proof.
  intros Hid. eapply safe_bind; [by apply safe_node_data|]. intros d Hd. by apply safe_ret.
Qed.

Lemma safe_name_of n k id : (id < n)%nat -> safe n k top (name_of id).
Proof. intros Hid. eapply safe_bind; [by apply safe_node_data|]. intros d Hd. by apply safe_ret. Qed.

Lemma safe_named_error n k {A} (R : A -> Prop) id (e : text -> GenicamError) :
  (id < n)%nat -> safe n k R (name ← name_of id; raise (e name)).
Proof. intros Hid. eapply safe_bind; [by apply safe_name_of|]. intros. apply safe_raise. Qed.

Lemma safe_wrong_type n k {A} (R : A -> Prop) id : (id < n)%nat -> safe n k R (wrong_type id).
Proof. apply (safe_named_error n k R id WrongType). Qed.
Lemma safe_no_access n k {A} (R : A -> Prop) id : (id < n)%nat -> safe n k R (no_access id).
Proof. apply (safe_named_error n k R id Access). Qed.

Lemma safe_or_formula n k {A} (R : A -> Prop) id r :
  (id < n)%nat -> (forall a, r = Ok a -> R a) -> safe n k R (or_formula id r).
Proof.
  intros Hid HR. destruct r as [a|e]; [by apply safe_ret, HR|].
  apply (safe_named_error n k R id (fun name => FormulaErr name e)). done.
Qed.

Lemma safe_resolve n k link : link_ok n link -> safe n k (fun id => (id < n)%nat) (resolve link).
Proof. destruct link as [name|id]; intros H; [apply safe_raise|by apply safe_ret]. Qed.

Lemma safe_gets n k {A} (R : A -> Prop) (f : Genicam -> A) :
  (forall g, graph_ok g -> length (nodes g) = n -> R (f g)) -> safe n k R (gets f).
Proof.
  intros HR w Hw _. exists w, (Ok (f (w_graph w))). split_and!; [done..|]. split; [|done].
  destruct Hw as (Hg & _ & Hn). by apply HR.
Qed.

Lemma graph_ok_alter id (f : Node -> Node) g :
  graph_ok g -> (forall nd, node_ok (length (nodes g)) nd -> node_ok (length (nodes g)) (f nd)) ->
  graph_ok (alter_node id f g).
Proof.
  intros [Hn Hb Hi Hv] Hf.
  assert (length (nodes (alter_node id f g)) = length (nodes g)) as Hlen by apply length_alter.
  constructor; rewrite ?Hlen; [|done..].
  apply Forall_lookup. intros j d Hj. cbn in Hj. destruct (decide (id = j)) as [<-|Hne].
  - rewrite list_lookup_alter_eq in Hj. destruct (nodes g !! id) as [d0|] eqn:Hd; simplify_eq/=.
    apply Hf. exact (Forall_lookup_1 _ _ _ _ Hn Hd).
  - rewrite list_lookup_alter_ne in Hj by done. exact (Forall_lookup_1 _ _ _ _ Hn Hj).
Qed.

Lemma names_alter id f g : nd_name <$> nodes (alter_node id f g) = nd_name <$> nodes g.
Proof.
  apply list_eq. intros j. cbn. rewrite !list_lookup_fmap. destruct (decide (id = j)) as [<-|Hne].
  - rewrite list_lookup_alter_eq. by destruct (nodes g !! id).
  - by rewrite list_lookup_alter_ne.
Qed.

Lemma safe_modify_node n k id (f : Node -> Node) :
  (id < n)%nat -> (forall nd, node_ok n nd -> node_ok n (f nd)) -> safe n k top (modify_node id f).
Proof.
  intros Hid Hf. eapply safe_bind; [by apply safe_node_data|]. intros d _ w (Hg & Hp & Hn) _.
  exists (map_graph (alter_node id f) w), (Ok tt). split_and!; [done| | |done].
  - split_and!; [|done|]; cbn.
    + apply graph_ok_alter; [done|]. by rewrite Hn.
    + by rewrite length_alter.
  - split_and!; [|done..]. apply names_alter.
Qed.

(** * The visit stack *)

Lemma visit_room n w id : good n w -> (id < n)%nat -> id ∉ visit (w_graph w) -> (0 < room w)%nat.
Proof.
  intros (Hg & _ & Hn) Hid Hfresh. destruct (gk_visit _ Hg) as [Hnd Hall]. unfold room. rewrite Hn in *.
  enough (length (id :: visit (w_graph w)) <= n)%nat by (simpl in *; lia).
  rewrite <- (length_seq n 0). apply submseteq_length, NoDup_submseteq; [by constructor|].
  intros x. rewrite elem_of_cons, elem_of_seq. rewrite Forall_forall in Hall. intros [->|Hx]; [lia|].
  specialize (Hall x Hx). lia.
Qed.

Lemma safe_entered n k {A} (R : A -> Prop) id (body : M P A) :
  (id < n)%nat -> safe n k R body -> safe n (S k) R (entered id body).
Proof.
  intros Hid Hbody w Hw Hk. unfold entered, mbind, M_bind, enter.
  destruct (bool_decide_reflect (id ∈ visit (w_graph w))) as [Hin|Hfresh].
  - set (w0 := map_graph (fun g => g <| visit := [] |>) w).
    assert (good n w0) as Hw0.
    { destruct Hw as ([] & Hp & Hn). split_and!; [|done|done]. constructor; try done. split; constructor. }
    assert (room w0 < S (room w0))%nat as Hr by lia.
    destruct (safe_named_error n (S (room w0)) R id Circular Hid w0 Hw0 Hr) as (w1 & r & E1 & Hw1 & Hs1 & Hr1).
    destruct (safe_name_of n (S (room w0)) id Hid w0 Hw0 Hr) as (w2 & r2 & E2 & Hw2 & Hs2 & Hr2).
    unfold mbind, M_bind in *. rewrite E2 in *. destruct r2 as [name|e]; unfold raise in *; simplify_eq;
      (eexists _, (Err _); split_and!; [reflexivity|done|by destruct Hs2 as (?&?&?)|]); right;
      destruct Hr1 as [-> | ->]; done.
  - set (w0 := map_graph (fun g => g <| visit := id :: visit g |>) w). cbn [mbind].
    pose proof (visit_room n w id Hw Hid Hfresh) as Hroom.
    assert (good n w0) as Hw0.
    { destruct Hw as ([Hn Hb Hi [Hv1 Hv2]] & Hp & Hlen). split_and!; [|done|done]. constructor; try done.
      cbn. split; [by constructor|]. constructor; [|done]. lia. }
    destruct (Hbody w0 Hw0) as (w1 & r & E1 & Hw1 & Hs1 & Hr1).
    { unfold room in *. cbn. lia. }
    exists (leave w1), r. unfold leaving. rewrite E1. split; [done|]. split; [|split; [exact Hs1|]].
    + destruct Hw1 as ([Hn Hb Hi [Hv1 Hv2]] & Hp & Hlen). split_and!; [|done|done]. constructor; try done.
      cbn. destruct (visit (w_graph w1)) as [|x l]; [done|].
      apply NoDup_cons in Hv1 as [_ ?]. by apply Forall_cons in Hv2 as [_ ?].
    + destruct r as [a|e]; cbn in *.
      * destruct Hr1 as [? ->]. done.
      * destruct Hr1 as [-> | ->]; auto.
Qed.

(** * The functions between two entries *)

Record ops_safe n k (rec : Ops P) : Prop := {
  os_int id : (id < n)%nat -> safe n k i64_ok (int_of rec id);
  os_float id : (id < n)%nat -> safe n k top (float_of rec id);
  os_set_int id v : (id < n)%nat -> i64_ok v -> safe n k top (set_int_of rec id v);
  os_set_float id v : (id < n)%nat -> safe n k top (set_float_of rec id v) }.

Section step.
Context (rec : Ops P) (n k : nat) (Hrec : ops_safe n k rec).

Lemma ref_int_indexed ix w : ref_int rec (VIndexed ix) w = (entry ← selected rec ix; ref_int rec entry) w.
Proof.
  unfold selected. cbn [ref_int]. unfold mbind, M_bind, mret, M_ret.
  destruct (selected_index rec ix w) as [[w1 [at_|e]]|]; [|done..].
  unfold pick. induction (ix_entries ix) as [|[key v] es IH]; [done|]. simpl. by destruct (key =? at_).
Qed.

Lemma ref_float_indexed ix w : ref_float rec (VIndexed ix) w = (entry ← selected rec ix; ref_float rec entry) w.
Proof.
  unfold selected. cbn [ref_float]. unfold mbind, M_bind, mret, M_ret.
  destruct (selected_index rec ix w) as [[w1 [at_|e]]|]; [|done..].
  unfold pick. induction (ix_entries ix) as [|[key v] es IH]; [done|]. simpl. by destruct (key =? at_).
Qed.

Lemma pick_case (Q : ValueRef -> Prop) ix at_ :
  Q (ix_default ix) -> Forall (fun e => Q e.2) (ix_entries ix) -> Q (pick ix at_).
Proof.
  intros Hd He. unfold pick. destruct (List.find _ _) as [[key v]|] eqn:E; [|done].
  apply find_some in E as [Hin _]. rewrite Forall_forall in He. by apply (He (key, v)), list_elem_of_In.
Qed.

Lemma safe_selected ix :
  ref_ok n (VIndexed ix) -> safe n k (fun vr => ref_ok n vr /\ exists at_, vr = pick ix at_) (selected rec ix).
Proof.
  intros (Hl & Hd & He)%ref_ok_indexed. unfold selected, selected_index.
  eapply safe_bind.
  - eapply safe_bind; [by apply safe_resolve|]. intros id Hid. by apply (os_int _ _ _ Hrec).
  - intros at_ _. apply safe_ret. split; [by apply pick_case|eauto].
Qed.

Lemma safe_ref_int vr : ref_ok n vr -> safe n k i64_ok (ref_int rec vr).
Proof.
  induction vr as [|v|v|s|l|ix IHe IHd] using ValueRef_nested_ind; intros Hok; try apply safe_raise.
  - by apply safe_ret.
  - apply safe_ret, f64_to_i64_range.
  - eapply safe_bind; [by apply safe_resolve|]. intros id Hid. by apply (os_int _ _ _ Hrec).
  - intros w. rewrite ref_int_indexed. revert w. change (safe n k i64_ok (entry ← selected rec ix; ref_int rec entry)).
    eapply safe_bind; [by apply safe_selected|]. intros vr [Hvr [at_ ->]]. revert Hvr.
    by apply (pick_case (fun vr => ref_ok n vr -> safe n k i64_ok (ref_int rec vr))).
Qed.

Lemma safe_ref_float vr : ref_ok n vr -> safe n k top (ref_float rec vr).
Proof.
  induction vr as [|v|v|s|l|ix IHe IHd] using ValueRef_nested_ind; intros Hok; try apply safe_raise.
  - by apply safe_ret.
  - by apply safe_ret.
  - eapply safe_bind; [by apply safe_resolve|]. intros id Hid. by apply (os_float _ _ _ Hrec).
  - intros w. rewrite ref_float_indexed. revert w. change (safe n k top (entry ← selected rec ix; ref_float rec entry)).
    eapply safe_bind; [by apply safe_selected|]. intros vr [Hvr [at_ ->]]. revert Hvr.
    by apply (pick_case (fun vr => ref_ok n vr -> safe n k top (ref_float rec vr))).
Qed.

Lemma safe_target_value id : (id < n)%nat -> safe n k value_ok (target_value rec id).
Proof.
  intros Hid. eapply safe_bind; [by apply safe_node_of|]. intros nd _. destruct (is_float_target nd).
  - eapply safe_bind; [by apply (os_float _ _ _ Hrec)|]. intros v _. by apply safe_ret.
  - eapply safe_bind; [by apply (os_int _ _ _ Hrec)|]. intros v Hv. by apply safe_ret.
Qed.

(** ** Registers *)

Lemma safe_register_length id vr : (id < n)%nat -> ref_ok n vr -> safe n k top (register_length rec id vr).
Proof.
  intros Hid Hok. unfold register_length. destruct (is_none vr); [by apply safe_ret|].
  eapply safe_bind; [by apply safe_ref_int|]. intros v _. destruct (_ && _); [by apply safe_ret|].
  by apply (safe_named_error n k top id (fun name => OutOfRange name v 0 MAX_REGISTER_LENGTH)).
Qed.

Lemma safe_sum_terms terms a : Forall (ref_ok n) terms -> safe n k top (sum_terms rec a terms).
Proof.
  intros H. revert a. induction H as [|t terms Ht _ IH]; intros a; [by apply safe_ret|].
  eapply safe_bind; [by apply safe_ref_int|]. intros v _. apply IH.
Qed.

Lemma safe_register_address id : (id < n)%nat -> safe n k top (register_address rec id).
Proof.
  intros Hid. eapply safe_bind; [by apply safe_node_of|]. intros nd Hnd.
  destruct nd; try by apply safe_wrong_type. destruct Hnd as (Ht & Hl & _).
  eapply safe_bind; [by apply safe_sum_terms|]. intros a _.
  eapply safe_bind; [by apply safe_register_length|]. intros len _. by apply safe_ret.
Qed.

Lemma safe_do_read a len : safe n k bytes_ok (do_read a len : M P bytes).
Proof.
  intros w (Hg & Hp & Hn) _. unfold do_read. destruct (port_read_ok (w_port w) a len Hp) as [Hp' Hb].
  destruct (port_read (w_port w) a len) as [p r]. exists (mkWorld (w_graph w) p), (map_err Camera r).
  split_and!; [done| |done|]; [by split_and!|]. destruct r as [b|e]; simpl; [|auto]. split; [|done]. by apply Hb.
Qed.

Lemma safe_do_write a data : bytes_ok data -> safe n k top (do_write a data : M P unit).
Proof.
  intros Hd w (Hg & Hp & Hn) _. unfold do_write. pose proof (port_write_ok (w_port w) a data Hp Hd) as Hp'.
  destruct (port_write (w_port w) a data) as [p r]. exists (mkWorld (w_graph w) p), (map_err Camera r).
  split_and!; [done| |done|]; [by split_and!|]. destruct r as [b|e]; simpl; [done|auto].
Qed.

Lemma with_cache_ok c nd :
  match c with Some b => bytes_ok b | None => True end -> node_ok n nd -> node_ok n (with_cache c nd).
Proof. intros Hc Hnd. destruct nd; try done. destruct Hnd as (? & ? & _). by split_and!. Qed.

Lemma safe_register_read id : (id < n)%nat -> safe n k bytes_ok (register_read rec id).
Proof.
  intros Hid. eapply safe_bind; [by apply safe_node_of|]. intros nd Hnd.
  destruct nd as [| | | | | | |common kind| | |]; try by apply safe_wrong_type.
  case_bool_decide; [by apply safe_no_access|].
  assert (safe n k bytes_ok ('((address, len) : Z * nat) ← register_address rec id;
     buf ← do_read address len;
     _ ← modify_node id (cache_after_read buf);
     mret buf)) as Hread.
  { eapply safe_bind; [by apply safe_register_address|]. intros [a len] _.
    eapply safe_bind; [apply safe_do_read|]. intros buf Hbuf. eapply safe_bind; [|intros _ _; by apply safe_ret].
    apply safe_modify_node; [done|]. intros nd Hok. destruct nd; try done. unfold cache_after_read.
    case_bool_decide; [done|]. by apply with_cache_ok. }
  case_bool_decide; [exact Hread|]. destruct Hnd as (_ & _ & Hc). destruct (cache common) as [b|]; [|exact Hread].
  by apply safe_ret.
Qed.

Lemma safe_invalidate_all deps : Forall (fun id => (id < n)%nat) deps -> safe n k top (invalidate_all deps : M P unit).
Proof.
  induction 1 as [|dep deps Hd _ IH]; [by apply safe_ret|]. eapply safe_bind; [|intros _ _; exact IH].
  apply safe_modify_node; [done|]. intros nd. by apply with_cache_ok.
Qed.

Lemma safe_register_write id data : (id < n)%nat -> bytes_ok data -> safe n k top (register_write rec id data).
Proof.
  intros Hid Hd. eapply safe_bind; [by apply safe_node_of|]. intros nd Hnd.
  destruct nd as [| | | | | | |common kind| | |]; try by apply safe_wrong_type.
  case_bool_decide; [by apply safe_no_access|].
  eapply safe_bind; [by apply safe_register_address|]. intros [a len] _.
  eapply safe_bind; [by apply safe_do_write|]. intros _ _.
  eapply safe_bind.
  { apply safe_modify_node; [done|]. intros nd Hok. destruct nd; try done. apply with_cache_ok; [|done].
    by destruct (cachable _). }
  intros _ _. eapply (safe_bind _ _ (Forall (fun id => (id < n)%nat))); [|apply safe_invalidate_all].
  apply safe_gets. intros g Hg <-. destruct (invalidates g !! id) as [deps|] eqn:E; [|constructor].
  exact (gk_invalidates _ Hg _ _ E).
Qed.

(** ** Formulas *)

Lemma safe_compiled_formula id slot :
  (id < n)%nat -> slot_ok slot ->
  safe n k (fun '(e, slot') => Expr_parse (fs_src slot) = Ok e /\ slot_ok slot') (compiled_formula id slot : M P _).
Proof.
  intros Hid Hs. unfold compiled_formula. unfold slot_ok in Hs. destruct (fs_compiled slot) as [e|] eqn:Hc.
  - apply safe_ret. split; [done|]. unfold slot_ok. by rewrite Hc.
  - eapply (safe_bind _ _ (fun e => Expr_parse (fs_src slot) = Ok e)).
    + apply safe_or_formula; [done|]. intros e He. destruct (Expr_parse (fs_src slot)); by simplify_eq/=.
    + intros e He. by apply safe_ret.
Qed.

Lemma assoc_Forall {A} (Q : A -> Prop) name (l : list (text * A)) a :
  Forall (fun e => Q e.2) l -> assoc name l = Some a -> Q a.
Proof.
  intros Hl. unfold assoc. destruct (List.find _ _) as [[x y]|] eqn:E; [|discriminate]. intros [= <-].
  apply find_some in E as [Hin _]. rewrite Forall_forall in Hl. by apply (Hl (x, y)), list_elem_of_In.
Qed.

Lemma safe_variable_value id vars builtins name :
  (id < n)%nat -> links_ok n vars -> Forall (fun e => value_ok e.2) builtins ->
  safe n k value_ok (variable_value rec id vars builtins name).
Proof.
  intros Hid Hv Hb. unfold variable_value. destruct (assoc name builtins) as [v|] eqn:Ea.
  { apply safe_ret. by eapply assoc_Forall. }
  eapply (safe_bind _ _ (fun l => match l with Some l => link_ok n l | None => True end)).
  - apply safe_gets. intros g Hg <-. unfold variable_link. destruct (assoc name vars) as [l|] eqn:El.
    + by eapply assoc_Forall.
    + destruct (by_name g !! name) as [j|] eqn:Ej; [|done]. exact (gk_by_name _ Hg _ _ Ej).
  - intros [l|] Hl; [|by apply safe_or_formula].
    eapply safe_bind; [by apply safe_resolve|]. apply safe_target_value.
Qed.

Lemma safe_variable_values id vars builtins names :
  (id < n)%nat -> links_ok n vars -> Forall (fun e => value_ok e.2) builtins ->
  safe n k (Forall value_ok) (variable_values rec id vars builtins names).
Proof.
  intros Hid Hv Hb. induction names as [|name names IH]; [by apply safe_ret|].
  eapply safe_bind; [by apply safe_variable_value|]. intros v Hval.
  eapply safe_bind; [exact IH|]. intros vs Hvs. apply safe_ret. by constructor.
Qed.

Lemma safe_eval_formula id slot vars builtins :
  (id < n)%nat -> slot_ok slot -> links_ok n vars -> Forall (fun e => value_ok e.2) builtins ->
  safe n k (fun '(v, slot') => value_ok v /\ slot_ok slot') (eval_formula rec id slot vars builtins).
Proof.
  intros Hid Hs Hv Hb. eapply safe_bind; [by apply safe_compiled_formula|]. intros [e slot'] [He Hs'].
  eapply safe_bind; [by apply safe_variable_values|]. intros vs Hvs.
  eapply (safe_bind _ _ value_ok).
  - apply safe_or_formula; [done|]. intros v Hev. destruct (Expr_eval e vs) eqn:E; simplify_eq/=.
    by eapply Expr_eval_ok.
  - intros v Hval. by apply safe_ret.
Qed.

Lemma safe_converter_raw vr : ref_ok n vr -> safe n k value_ok (converter_raw rec vr).
Proof.
  intros Hok. assert (safe n k value_ok (v ← ref_int rec vr; mret (I v))) as H.
  { eapply safe_bind; [by apply safe_ref_int|]. intros v Hv. by apply safe_ret. }
  destruct vr; try exact H. eapply safe_bind; [by apply safe_resolve|]. apply safe_target_value.
Qed.

Lemma safe_converter_value id vr slot vars :
  (id < n)%nat -> ref_ok n vr -> slot_ok slot -> links_ok n vars ->
  safe n k value_ok (converter_value rec id vr slot vars).
Proof.
  intros Hid Hr Hs Hv. eapply (safe_bind _ _ (fun '(v, slot') => value_ok v /\ slot_ok slot')).
  - eapply (safe_bind _ _ (ref_ok n)).
    + destruct vr; try by apply safe_ret. eapply safe_weaken; [by apply safe_selected|]. by intros ? [? _].
    + intros vr' Hr'. eapply safe_bind; [by apply safe_converter_raw|]. intros raw Hraw.
      apply safe_eval_formula; try done. by repeat constructor.
  - intros [v slot'] [Hval Hs']. eapply safe_bind; [|intros _ _; by apply safe_ret].
    apply safe_modify_node; [done|]. intros nd Hnd. destruct nd; try done. destruct Hnd as (? & ? & ? & ?). by split_and!.
Qed.

Lemma safe_swissknife_value id slot vars :
  (id < n)%nat -> slot_ok slot -> links_ok n vars -> safe n k value_ok (swissknife_value rec id slot vars).
Proof.
  intros Hid Hs Hv. eapply safe_bind; [by apply safe_eval_formula|].
  intros [v slot'] [Hval Hs']. eapply safe_bind; [|intros _ _; by apply safe_ret].
  apply safe_modify_node; [done|]. intros nd Hnd. destruct nd; try done. destruct Hnd as (? & ?). by split_and!.
Qed.

(** ** Integers and floats *)

Lemma extract_int_ok bs sign e l m v : extract_int bs sign e l m = Ok v -> i64_ok v.
Proof.
  unfold extract_int. destruct (bad_length _); [discriminate|]. destruct (bit_range _ _ _ _) as [[lo hi]|]; [|discriminate].
  intros [= <-]. apply swrap64_ok.
Qed.

Lemma insert_int_ok bs v sign e l m b : insert_int bs v sign e l m = Ok b -> bytes_ok b /\ zlen b = zlen bs.
Proof.
  unfold insert_int. destruct (bad_length _) eqn:Hb; [discriminate|]. destruct (bit_range _ _ _ _) as [[lo hi]|]; [|discriminate].
  intros [= <-]. unfold bad_length in Hb. pose proof (zlen_nonneg bs). apply store_shape. lia.
Qed.

Lemma encode_int_ok v len e b : 0 <= len -> encode_int v len e = Ok b -> bytes_ok b /\ zlen b = len.
Proof.
  intros ?. unfold encode_int. destruct (bad_length _) eqn:Hb; [discriminate|]. intros [= <-].
  unfold bad_length in Hb. apply store_shape. lia.
Qed.

Lemma encode_float_ok v len e b : encode_float v len e = Ok b -> bytes_ok b /\ zlen b = len.
Proof.
  unfold encode_float. destruct (len =? 4) eqn:H4; [|destruct (len =? 8) eqn:H8; [|discriminate]];
    intros [= <-]; replace len with (if len =? 4 then 4 else 8) by (rewrite ?H4; lia); rewrite ?H4;
    apply store_shape; lia.
Qed.

Lemma map_err_ok {E E' A} (f : E -> E') (r : result E A) a : map_err f r = Ok a -> r = Ok a.
Proof. destruct r; [|discriminate]. by intros [= ->]. Qed.

Lemma safe_int_value_inner id : (id < n)%nat -> safe n k i64_ok (int_value_inner rec id).
Proof.
  intros Hid. eapply safe_bind; [by apply safe_node_of|]. intros nd Hnd.
  destruct nd as [|value min max inc|value min max|value on off|s|value entries| |common kind|value to from vars|formula vars|];
    try by apply safe_wrong_type.
  - by apply safe_ref_int, Hnd.
  - eapply safe_bind; [by apply safe_ref_float, Hnd|]. intros v _. apply safe_ret, f64_to_i64_range.
  - by apply safe_ref_int, Hnd.
  - by apply safe_ref_int, Hnd.
  - destruct kind; try by apply safe_wrong_type.
    eapply safe_bind; [by apply safe_register_read|]. intros bs _. apply safe_or_formula; [done|].
    intros v Hv%map_err_ok. by eapply extract_int_ok.
  - destruct Hnd as (? & ? & ? & ?). eapply safe_bind; [by apply safe_converter_value|].
    intros v Hv. by apply safe_ret, as_i64_ok.
  - destruct Hnd as (? & ?). eapply safe_bind; [by apply safe_swissknife_value|].
    intros v Hv. by apply safe_ret, as_i64_ok.
Qed.

Lemma safe_float_value_inner id : (id < n)%nat -> safe n k top (float_value_inner rec id).
Proof.
  intros Hid. eapply safe_bind; [by apply safe_node_of|]. intros nd Hnd.
  destruct nd as [|value min max inc|value min max|value on off|s|value entries| |common kind|value to from vars|formula vars|];
    try by apply safe_wrong_type.
  - eapply safe_bind; [by apply safe_ref_int, Hnd|]. intros v _. by apply safe_ret.
  - by apply safe_ref_float, Hnd.
  - destruct kind; try by apply safe_wrong_type.
    eapply safe_bind; [by apply safe_register_read|]. intros bs _. by apply safe_or_formula.
  - destruct Hnd as (? & ? & ? & ?). eapply safe_bind; [by apply safe_converter_value|].
    intros v Hv. by apply safe_ret.
  - destruct Hnd as (? & ?). eapply safe_bind; [by apply safe_swissknife_value|].
    intros v Hv. by apply safe_ret.
Qed.

(** ** Writes *)

(** Writing through an indexed value: the entry selected decides. *)
Lemma safe_through_entry id ix (f : Link -> M P unit) :
  (id < n)%nat -> ref_ok n (VIndexed ix) -> (forall l, link_ok n l -> safe n k top (f l)) ->
  safe n k top (entry ← selected rec ix; match entry with VLink l => f l | _ => no_access id end).
Proof.
  intros Hid Hix Hf. eapply safe_bind; [by apply safe_selected|]. intros vr [Hvr _].
  destruct vr; try by apply safe_no_access. by apply Hf.
Qed.

Lemma safe_set_ref_int id vr v :
  (id < n)%nat -> ref_ok n vr -> i64_ok v -> safe n k top (set_ref_int rec id vr v).
Proof.
  intros Hid Hok Hv.
  assert (forall l, link_ok n l -> safe n k top (target ← resolve l; set_int_of rec target v)) as Hlink.
  { intros l Hl. eapply safe_bind; [by apply safe_resolve|]. intros t Ht. by apply (os_set_int _ _ _ Hrec). }
  destruct vr; try by apply safe_no_access.
  - apply safe_modify_node; [done|]. intros nd Hnd. destruct nd; try done; cbn in *; intuition.
  - by apply Hlink.
  - by apply safe_through_entry.
Qed.

Lemma safe_set_link_value l v : link_ok n l -> value_ok v -> safe n k top (set_link_value rec l v).
Proof.
  intros Hl Hv. eapply safe_bind; [by apply safe_resolve|]. intros t Ht.
  eapply safe_bind; [by apply safe_node_of|]. intros nd _. destruct (is_float_target nd).
  - by apply (os_set_float _ _ _ Hrec).
  - apply (os_set_int _ _ _ Hrec); [done|]. by apply as_i64_ok.
Qed.

Lemma safe_set_ref_value id vr v :
  (id < n)%nat -> ref_ok n vr -> value_ok v -> safe n k top (set_ref_value rec id vr v).
Proof.
  intros Hid Hok Hv. destruct vr; try by apply safe_no_access.
  - by apply safe_set_link_value.
  - apply safe_through_entry; [done|done|]. intros. by apply safe_set_link_value.
Qed.

Lemma safe_set_converter id vr slot vars v :
  (id < n)%nat -> ref_ok n vr -> slot_ok slot -> links_ok n vars -> value_ok v ->
  safe n k top (set_converter rec id vr slot vars v).
Proof.
  intros Hid Hr Hs Hl Hv. eapply safe_bind.
  { apply safe_eval_formula; try done. by repeat constructor. }
  intros [out slot'] [Hout Hs']. eapply safe_bind; [|intros _ _; by apply safe_set_ref_value].
  apply safe_modify_node; [done|]. intros nd Hnd. destruct nd; try done. destruct Hnd as (? & ? & ? & ?). by split_and!.
Qed.

Lemma safe_set_int_value_inner id v : (id < n)%nat -> i64_ok v -> safe n k top (set_int_value_inner rec id v).
Proof.
  intros Hid Hv. eapply safe_bind; [by apply safe_node_of|]. intros nd Hnd.
  destruct nd as [|value min max inc|value min max|value on off|s|value entries|value cv|common kind|value to from vars|formula vars|];
    try by apply safe_wrong_type.
  all: try (apply safe_set_ref_int; [done|apply Hnd|done]).
  - destruct kind as [|sign e l m| |]; try by apply safe_wrong_type.
    eapply safe_bind; [by apply safe_register_length, Hnd|]. intros len _.
    eapply (safe_bind _ _ bytes_ok); [|intros bs Hbs; by apply safe_register_write].
    assert (safe n k bytes_ok (current ← register_read rec id;
              or_formula id (map_err CodecFailed (insert_int current v sign e l m)))) as Hmasked.
    { eapply safe_bind; [by apply safe_register_read|]. intros cur _. apply safe_or_formula; [done|].
      intros b Hb%map_err_ok. by eapply insert_int_ok. }
    destruct l, m; try exact Hmasked. apply safe_or_formula; [done|].
    intros b Hb%map_err_ok. eapply encode_int_ok; [|exact Hb]. lia.
  - destruct Hnd as (? & ? & ? & ?). by apply safe_set_converter.
Qed.

Lemma safe_set_float_value_inner id v : (id < n)%nat -> safe n k top (set_float_value_inner rec id v).
Proof.
  intros Hid. eapply safe_bind; [by apply safe_node_of|]. intros nd Hnd.
  assert (forall l, link_ok n l -> safe n k top (target ← resolve l; set_float_of rec target v)) as Hlink.
  { intros l Hl. eapply safe_bind; [by apply safe_resolve|]. intros t Ht. by apply (os_set_float _ _ _ Hrec). }
  destruct nd as [|value min max inc|value min max|value on off|s|value entries|value cv|common kind|value to from vars|formula vars|];
    try by apply safe_wrong_type.
  - apply safe_set_int_value_inner; [done|]. apply f64_to_i64_range.
  - destruct Hnd as (Hr & ? & ?). destruct value; try by apply safe_no_access.
    + apply safe_modify_node; [done|]. intros nd Hnd. destruct nd; try done. destruct Hnd as (? & ? & ?). by split_and!.
    + by apply Hlink.
    + by apply safe_through_entry.
  - destruct kind as [| |e|]; try by apply safe_wrong_type.
    eapply safe_bind; [by apply safe_register_length, Hnd|]. intros len _.
    eapply (safe_bind _ _ bytes_ok); [|intros bs Hbs; by apply safe_register_write].
    apply safe_or_formula; [done|]. intros b Hb%map_err_ok. by eapply encode_float_ok.
  - destruct Hnd as (? & ? & ? & ?). by apply safe_set_converter.
Qed.

Lemma ops_step_safe : ops_safe n (S k) (ops_step rec).
Proof.
  constructor; intros; apply safe_entered; try done.
  - by apply safe_int_value_inner.
  - by apply safe_float_value_inner.
  - by apply safe_set_int_value_inner.
  - by apply safe_set_float_value_inner.
Qed.
End step.

Lemma engine_safe n fuel : ops_safe n fuel (engine fuel).
Proof.
  induction fuel as [|fuel IH]; [|by apply ops_step_safe].
  constructor; intros; intros w Hw Hk; lia.
Qed.

(** * The public operations *)

Lemma safe_any n k {A} (R : A -> Prop) (m : M P A) : safe n (S n) R m -> safe n k R m.
Proof.
  intros Hm w Hw _. apply Hm; [done|]. destruct Hw as (_ & _ & Hn). unfold room. lia.
Qed.

Lemma safe_with_engine n k {A} (R : A -> Prop) (f : Ops P -> M P A) :
  (forall rec, ops_safe n (S n) rec -> safe n (S n) R (f rec)) -> safe n k R (with_engine f).
Proof.
  intros Hf. apply safe_any. intros w Hw Hk. unfold with_engine, levels.
  assert (length (nodes (w_graph w)) = n) as -> by apply Hw. apply Hf; [apply engine_safe|done..].
Qed.

Lemma safe_int_value n k id : (id < n)%nat -> safe n k i64_ok (int_value id).
Proof. intros Hid. apply safe_with_engine. intros rec Hrec. by apply (os_int _ _ _ Hrec). Qed.
Lemma safe_float_value n k id : (id < n)%nat -> safe n k top (float_value id).
Proof. intros Hid. apply safe_with_engine. intros rec Hrec. by apply (os_float _ _ _ Hrec). Qed.
Lemma safe_set_int_value n k id v : (id < n)%nat -> i64_ok v -> safe n k top (set_int_value id v).
Proof. intros Hid Hv. apply safe_with_engine. intros rec Hrec. by apply (os_set_int _ _ _ Hrec). Qed.
Lemma safe_set_float_value n k id v : (id < n)%nat -> safe n k top (set_float_value id v).
Proof. intros Hid. apply safe_with_engine. intros rec Hrec. by apply (os_set_float _ _ _ Hrec). Qed.

Lemma safe_string_value_n n fuel id : (id < n)%nat -> safe n fuel top (string_value_n fuel id).
Proof.
  revert id. induction fuel as [|fuel IH]; intros id Hid; [intros w Hw Hk; lia|].
  eapply safe_bind; [by apply safe_node_of|]. intros nd Hnd.
  destruct nd as [| | | |value|value entries| |common kind| | |]; try by apply safe_wrong_type.
  - destruct value; try by apply safe_wrong_type.
    + by apply safe_ret.
    + eapply safe_bind; [by apply safe_resolve|]. intros t Ht. apply safe_entered; [done|]. by apply IH.
  - eapply safe_bind; [by apply safe_int_value|]. intros v _.
    eapply safe_bind; [by apply safe_node_of|]. intros nd _. destruct nd; try by apply safe_wrong_type.
    eapply safe_bind; [by apply safe_name_of|]. intros name _. by apply safe_lift.
  - destruct kind; try by apply safe_wrong_type.
    eapply safe_bind; [|intros bs _; by apply safe_ret].
    apply safe_with_engine. intros rec Hrec. by apply safe_register_read.
Qed.

Lemma safe_string_value n k id : (id < n)%nat -> safe n k top (string_value id).
Proof.
  intros Hid. apply safe_any. intros w Hw Hk. unfold string_value, levels.
  assert (length (nodes (w_graph w)) = n) as -> by apply Hw. by apply safe_string_value_n.
Qed.

Lemma safe_enum_entries n k id : (id < n)%nat -> safe n k top (enum_entries id : M P _).
Proof.
  intros Hid. eapply safe_bind; [by apply safe_node_of|]. intros nd _.
  destruct nd; try by apply safe_wrong_type. by apply safe_ret.
Qed.

Lemma safe_set_enum_entry n k id entry : (id < n)%nat -> safe n k top (set_enum_entry id entry).
Proof.
  intros Hid. eapply safe_bind; [by apply safe_node_of|]. intros nd Hnd.
  destruct nd as [| | | | |value entries| | | | |]; try by apply safe_wrong_type.
  eapply safe_bind; [by apply safe_name_of|]. intros name _.
  eapply (safe_bind _ _ i64_ok); [|intros v Hv; by apply safe_set_int_value].
  apply safe_lift. intros v. unfold entry_named. destruct (assoc entry entries) as [x|] eqn:E; [|discriminate].
  intros [= <-]. eapply assoc_Forall; [apply Hnd|exact E].
Qed.

Lemma utf8_char_ok c : scalar_ok c -> bytes_ok (utf8_char c).
Proof.
  intros Hc. unfold utf8_char, bytes_ok. unfold scalar_ok in Hc.
  pose proof (Z.mod_pos_bound c 64 ltac:(lia)). pose proof (Z.mod_pos_bound (c / 64) 64 ltac:(lia)).
  pose proof (Z.mod_pos_bound (c / 4096) 64 ltac:(lia)).
  pose proof (Z.div_mod c 64 ltac:(lia)). pose proof (Z.div_mod c 4096 ltac:(lia)). pose proof (Z.div_mod c 262144 ltac:(lia)).
  pose proof (Z.mod_pos_bound c 4096 ltac:(lia)). pose proof (Z.mod_pos_bound c 262144 ltac:(lia)).
  repeat case_match; repeat constructor; unfold u8_ok; lia.
Qed.

Lemma as_bytes_ok s : Forall scalar_ok s -> bytes_ok (as_bytes s).
Proof.
  induction 1 as [|c s Hc _ IH]; [constructor|]. apply Forall_app_2; [by apply utf8_char_ok|exact IH].
Qed.

Lemma padded_ok len s : bytes_ok s -> bytes_ok (padded len s) /\ length (padded len s) = len.
Proof.
  intros Hs. unfold padded. split.
  - apply Forall_app_2; [by apply Forall_take|]. apply Forall_replicate. done.
  - rewrite length_app, length_take, length_replicate. lia.
Qed.

Lemma safe_set_string_value_n n fuel id s :
  (id < n)%nat -> Forall scalar_ok s -> safe n fuel top (set_string_value_n fuel id s).
Proof.
  intros Hid Hs. revert id Hid. induction fuel as [|fuel IH]; intros id Hid; [intros w Hw Hk; lia|].
  eapply safe_bind; [by apply safe_node_of|]. intros nd Hnd.
  destruct nd as [| | | |value|value entries| |common kind| | |]; try by apply safe_wrong_type.
  - destruct value; try by apply safe_no_access.
    + apply safe_modify_node; [done|]. intros nd Hok. by destruct nd.
    + eapply safe_bind; [by apply safe_resolve|]. intros t Ht. apply safe_entered; [done|]. by apply IH.
  - by apply safe_set_enum_entry.
  - destruct kind; try by apply safe_wrong_type. eapply safe_bind.
    + apply safe_with_engine. intros rec Hrec. apply safe_register_length; [done|done|apply Hnd].
    + intros len _. apply safe_with_engine. intros rec Hrec. apply safe_register_write; [done|done|].
      by apply padded_ok, as_bytes_ok.
Qed.

Lemma safe_set_string_value n k id s :
  (id < n)%nat -> Forall scalar_ok s -> safe n k top (set_string_value id s).
Proof.
  intros Hid Hs. apply safe_any. intros w Hw Hk. unfold set_string_value, levels.
  assert (length (nodes (w_graph w)) = n) as -> by apply Hw. by apply safe_set_string_value_n.
Qed.

Lemma safe_int_or n k fallback vr : ref_ok n vr -> i64_ok fallback -> safe n k i64_ok (int_or fallback vr).
Proof.
  intros Hok Hf. unfold int_or. destruct (is_none vr); [by apply safe_ret|].
  apply safe_with_engine. intros rec Hrec. by apply safe_ref_int.
Qed.

Lemma safe_float_or n k fallback vr : ref_ok n vr -> safe n k top (float_or fallback vr).
Proof.
  intros Hok. unfold float_or. destruct (is_none vr); [by apply safe_ret|].
  apply safe_with_engine. intros rec Hrec. by apply safe_ref_float.
Qed.

Lemma safe_execute n k id : (id < n)%nat -> safe n k top (execute id).
Proof.
  intros Hid. eapply safe_bind; [by apply safe_node_of|]. intros nd Hnd.
  destruct nd as [| | | | | |value cv| | | |]; try by apply safe_wrong_type. destruct Hnd as [Hv Hc].
  eapply (safe_bind _ _ i64_ok); [apply (safe_int_or n k 1 cv Hc); const_range|].
  intros v Hval. apply safe_with_engine. intros rec Hrec. by apply safe_set_ref_int.
Qed.

Lemma safe_int_bounds n k id : (id < n)%nat -> safe n k (fun '(lo, hi) => i64_ok lo /\ i64_ok hi) (int_bounds id).
Proof.
  intros Hid. eapply safe_bind; [by apply safe_node_of|]. intros nd Hnd.
  destruct nd as [|value min max inc| | | | | |common kind| | |]; try by apply safe_wrong_type.
  - destruct Hnd as (_ & Hmin & Hmax & _). eapply safe_bind; [apply safe_int_or; [exact Hmin|const_range]|].
    intros lo Hlo. eapply safe_bind; [apply safe_int_or; [exact Hmax|const_range]|]. intros hi Hhi. by apply safe_ret.
  - destruct kind; try by apply safe_wrong_type. apply safe_ret. split; const_range.
Qed.

Lemma safe_int_increment n k id : (id < n)%nat -> safe n k i64_ok (int_increment id).
Proof.
  intros Hid. eapply safe_bind; [by apply safe_node_of|]. intros nd Hnd.
  destruct nd; try by apply safe_wrong_type. apply safe_int_or; [apply Hnd|const_range].
Qed.

Lemma safe_float_bounds n k id : (id < n)%nat -> safe n k top (float_bounds id).
Proof.
  intros Hid. eapply safe_bind; [by apply safe_node_of|]. intros nd Hnd.
  destruct nd; try by apply safe_wrong_type. destruct Hnd as (_ & Hmin & Hmax).
  eapply safe_bind; [by apply safe_float_or|]. intros lo _. eapply safe_bind; [by apply safe_float_or|].
  intros hi _. by apply safe_ret.
Qed.

Lemma safe_bool_value n k id : (id < n)%nat -> safe n k top (bool_value id).
Proof.
  intros Hid. eapply safe_bind; [by apply safe_node_of|]. intros nd Hnd.
  assert (safe n k top (v ← int_value id; mret (negb (v =? 0)))) as H.
  { eapply safe_bind; [by apply safe_int_value|]. intros v _. by apply safe_ret. }
  destruct nd; try exact H. eapply safe_bind; [|intros v _; by apply safe_ret].
  apply safe_with_engine. intros rec Hrec. apply safe_ref_int; [done|apply Hnd].
Qed.

Lemma safe_set_bool_value n k id v : (id < n)%nat -> safe n k top (set_bool_value id v).
Proof.
  intros Hid. eapply safe_bind; [by apply safe_node_of|]. intros nd Hnd.
  assert (safe n k top (set_int_value id (i64_from v))) as H by (apply safe_set_int_value; [done|apply i64_from_ok]).
  destruct nd; try exact H. apply safe_set_int_value; [done|]. destruct v; apply Hnd.
Qed.
End total.
