(* ===== verification/Camera.v ===== *)
(** The feature layer: the model of [GenICamera] and [Features] of
    [src/src/genicam/mod.rs] and of the connection state of [GigECamera]
    ([src/src/gige/mod.rs]) they use.

    A camera is an optional connection; a connection holds the register port,
    whether its worker is alive, and the node graph once it is loaded.  The
    liveness flags are what the worker thread last set. *)

From stdpp Require Import gmap.
From S2P Require Import Prelude Float64 Text Bootstrap Register Evaluator Errors Formula NodeGraph NodeTotal.

Record Connection (P : Type) := mkConnection {
  cn_port : P;
  cn_alive : bool;
  cn_control_lost : bool;
  cn_genicam : option Genicam }.
Arguments mkConnection {P}.
Arguments cn_port {P}.
Arguments cn_alive {P}.
Arguments cn_control_lost {P}.
Arguments cn_genicam {P}.

Definition GigECamera (P : Type) : Type := option (Connection P).

(** An operation of the camera; [None] is a panic, or a model out of fuel. *)
Definition Cam (P A : Type) : Type := GigECamera P -> option (GigECamera P * result GenicamError A).

Section camera.
Context {FL : FloatLib} {P : Type} {PIO : PortIo P}.
Implicit Types (cam : GigECamera P) (name : text).

Global Instance Cam_ret : MRet (Cam P) := fun A a cam => Some (cam, Ok a).
Global Instance Cam_bind : MBind (Cam P) := fun A B f m cam =>
  match m cam with
  | Some (cam, Ok a) => f a cam
  | Some (cam, Err e) => Some (cam, Err e)
  | None => None
  end.

Definition cam_lift {A} (r : result GenicamError A) : Cam P A := fun cam => Some (cam, r).

(** * The connection *)

Definition conn cam : result CameraError (Connection P) :=
  match cam with
  | None => Err Disconnected
  | Some c =>
      if negb (cn_alive c) then Err (if cn_control_lost c then ControlLost else Disconnected)
      else Ok c
  end.

Definition is_connected cam : bool := match cam with Some c => cn_alive c | None => false end.

(** The graph and the port, or why there is none. *)
Definition genicam_parts cam : result GenicamError (Genicam * Connection P) :=
  c ← map_err Camera (conn cam);
  match cn_genicam c with
  | Some g => Ok (g, c)
  | None => Err (Xml NotLoaded)
  end.

Definition genicam_graph cam : result GenicamError Genicam :=
  '((g, _) : Genicam * Connection P) ← genicam_parts cam; Ok g.

Definition genicam_ref cam : option Genicam := c ← cam; cn_genicam c.

(** Run an operation of the graph on the camera's connection. *)
Definition on_graph {A} (f : M P A) : Cam P A := fun cam =>
  match genicam_parts cam with
  | Err e => Some (cam, Err e)
  | Ok (g, c) =>
      '((w, r) : World P * result GenicamError A) ← f (mkWorld g (cn_port c));
      Some (Some (mkConnection (w_port w) (cn_alive c) (cn_control_lost c) (Some (w_graph w))), r)
  end.

Definition lookup_feature name : M P nat := fun w => Some (w, lookup_name (w_graph w) name).

Definition with_graph {A} name (f : nat -> M P A) : Cam P A := on_graph (id ← lookup_feature name; f id).

(** A read of the graph that may panic on an index. *)
Definition inspect {A} (f : Genicam -> option A) : M P A := fun w =>
  a ← f (w_graph w); Some (w, Ok a).

(** * Features *)

Definition has_feature cam name : bool :=
  match genicam_ref cam with Some g => is_ok (lookup_name g name) | None => false end.

Definition feature_names : Cam P (list text) := on_graph (inspect (fun g => Some (node_names g))).
Definition feature_kind name : Cam P NodeKind := with_graph name (fun id => inspect (fun g => kind_of g id)).
Definition features_of_category name : Cam P (list text) :=
  with_graph name (fun id => inspect (fun g =>
    ids ← category_features g id;
    mapM (fun f => d ← nodes g !! f; Some (nd_name d)) ids)).

Definition get_integer name : Cam P Z := with_graph name int_value.
Definition set_integer name (v : Z) : Cam P unit := with_graph name (fun id => set_int_value id v).
Definition integer_bounds name : Cam P (Z * Z) := with_graph name int_bounds.
Definition integer_increment name : Cam P Z := with_graph name int_increment.
Definition get_float name : Cam P f64 := with_graph name float_value.
Definition set_float name (v : f64) : Cam P unit := with_graph name (fun id => set_float_value id v).
Definition feature_float_bounds name : Cam P (f64 * f64) := with_graph name float_bounds.
Definition get_boolean name : Cam P bool := with_graph name bool_value.
Definition set_boolean name (v : bool) : Cam P unit := with_graph name (fun id => set_bool_value id v).
Definition get_string name : Cam P text := with_graph name string_value.
Definition set_string name (s : text) : Cam P unit := with_graph name (fun id => set_string_value id s).
Definition get_enum name : Cam P text := with_graph name string_value.
Definition set_enum name (entry : text) : Cam P unit := with_graph name (fun id => set_enum_entry id entry).
Definition feature_enum_entries name : Cam P (list text) := with_graph name enum_entries.
Definition execute_feature name : Cam P unit := with_graph name execute.
Definition feature_access_mode name : Cam P AccessMode :=
  with_graph name (fun id => inspect (fun g => access_mode g id)).
Definition drop_caches : Cam P unit := on_graph (modify invalidate_caches).

(** [usize::try_from(get_integer("PayloadSize")?)] when the configuration has
    no payload size. *)
Definition fill_payload_size (payload_size : option Z) : Cam P (option Z) :=
  match payload_size with
  | Some n => mret (Some n)
  | None =>
      v ← get_integer (str "PayloadSize");
      cam_lift (if 0 <=? v then Ok (Some v) else Err (Xml NegativePayloadSize))
  end.

(** * Any call of the feature interface *)

Inductive FeatureCall :=
| CallNames | CallKind (name : text) | CallCategory (name : text)
| CallGetInteger (name : text) | CallSetInteger (name : text) (v : Z)
| CallIntegerBounds (name : text) | CallIntegerIncrement (name : text)
| CallGetFloat (name : text) | CallSetFloat (name : text) (v : f64) | CallFloatBounds (name : text)
| CallGetBoolean (name : text) | CallSetBoolean (name : text) (v : bool)
| CallGetString (name : text) | CallSetString (name : text) (s : text)
| CallSetEnum (name : text) (entry : text) | CallEnumEntries (name : text)
| CallExecute (name : text) | CallAccessMode (name : text) | CallDropCaches.

Inductive Answer :=
| AnsUnit | AnsInt (v : Z) | AnsInts (lo hi : Z) | AnsFloat (v : f64) | AnsFloats (lo hi : f64)
| AnsBool (b : bool) | AnsText (s : text) | AnsTexts (l : list text)
| AnsKind (k : NodeKind) | AnsMode (m : AccessMode).

Definition answer {A} (f : A -> Answer) (m : Cam P A) : Cam P Answer := a ← m; mret (f a).

Definition call (c : FeatureCall) : Cam P Answer :=
  match c with
  | CallNames => answer AnsTexts feature_names
  | CallKind name => answer AnsKind (feature_kind name)
  | CallCategory name => answer AnsTexts (features_of_category name)
  | CallGetInteger name => answer AnsInt (get_integer name)
  | CallSetInteger name v => answer (fun _ => AnsUnit) (set_integer name v)
  | CallIntegerBounds name => answer (fun '(lo, hi) => AnsInts lo hi) (integer_bounds name)
  | CallIntegerIncrement name => answer AnsInt (integer_increment name)
  | CallGetFloat name => answer AnsFloat (get_float name)
  | CallSetFloat name v => answer (fun _ => AnsUnit) (set_float name v)
  | CallFloatBounds name => answer (fun '(lo, hi) => AnsFloats lo hi) (feature_float_bounds name)
  | CallGetBoolean name => answer AnsBool (get_boolean name)
  | CallSetBoolean name v => answer (fun _ => AnsUnit) (set_boolean name v)
  | CallGetString name => answer AnsText (get_string name)
  | CallSetString name s => answer (fun _ => AnsUnit) (set_string name s)
  | CallSetEnum name entry => answer (fun _ => AnsUnit) (set_enum name entry)
  | CallEnumEntries name => answer AnsTexts (feature_enum_entries name)
  | CallExecute name => answer (fun _ => AnsUnit) (execute_feature name)
  | CallAccessMode name => answer AnsMode (feature_access_mode name)
  | CallDropCaches => answer (fun _ => AnsUnit) drop_caches
  end.

(** A session: calls one after the other, failed ones included. *)
Fixpoint run_calls (cs : list FeatureCall) cam : option (GigECamera P * list (result GenicamError Answer)) :=
  match cs with
  | [] => Some (cam, [])
  | c :: cs =>
      '((cam, r) : GigECamera P * result GenicamError Answer) ← call c cam;
      '((cam, rs) : GigECamera P * list (result GenicamError Answer)) ← run_calls cs cam;
      Some (cam, r :: rs)
  end.

(** * Totality *)

Definition cam_good cam : Prop :=
  match cam with
  | Some c => port_ok (cn_port c) /\
              match cn_genicam c with Some g => graph_ok g /\ visit g = [] | None => True end
  | None => True
  end.

Definition returns_good {A} (R : A -> Prop) (m : Cam P A) : Prop :=
  forall cam, cam_good cam ->
  exists cam' r, m cam = Some (cam', r) /\ cam_good cam' /\ forall a, r = Ok a -> R a.

Lemma on_graph_good {A} (R : A -> Prop) (f : M P A) :
  (forall n, safe n (S n) R f) -> returns_good R (on_graph f).
Proof.
  intros Hf cam Hcam. unfold on_graph, genicam_parts.
  destruct (conn cam) as [c|e] eqn:Hc; cbn; [|by exists cam, (Err (Camera e))].
  assert (cam = Some c) as ->.
  { unfold conn in Hc. destruct cam as [c'|]; [|done]. destruct (cn_alive c'); simplify_eq/=; done. }
  pose proof Hcam as [Hp Hg].
  destruct (cn_genicam c) as [g|] eqn:Eg; [|by exists (Some c), (Err (Xml NotLoaded))].
  destruct Hg as [Hg Hv]. set (w := mkWorld g (cn_port c)).
  destruct (Hf (length (nodes g)) w) as (w' & r & E & Hw' & _ & Hr); [by split_and!|unfold room; simpl; lia|].
  rewrite E. eexists _, r. split_and!; [reflexivity| |].
  - destruct Hw' as (Hg' & Hp' & _). split; [exact Hp'|]. split; [exact Hg'|].
    destruct r; cbn in Hr; rewrite Hv in Hr; [by destruct Hr|by destruct Hr].
  - intros a ->. by destruct Hr.
Qed.

Lemma safe_lookup n k name : safe n k (fun id => (id < n)%nat) (lookup_feature name).
Proof.
  intros w Hw _. exists w, (lookup_name (w_graph w) name). split_and!; [done..|].
  unfold lookup_name. destruct (by_name (w_graph w) !! name) as [id|] eqn:E; cbn; [|auto].
  destruct Hw as (Hg & _ & <-). split; [|done]. exact (gk_by_name _ Hg _ _ E).
Qed.

Lemma with_graph_good {A} (R : A -> Prop) name (f : nat -> M P A) :
  (forall n k id, (id < n)%nat -> safe n k R (f id)) -> returns_good R (with_graph name f).
Proof.
  intros Hf. apply on_graph_good. intros n. eapply safe_bind; [apply safe_lookup|]. intros id Hid. by apply Hf.
Qed.

Lemma safe_inspect n k {A} (f : Genicam -> option A) :
  (forall g, graph_ok g -> length (nodes g) = n -> is_Some (f g)) -> safe n k top (inspect f).
Proof.
  intros Hf w Hw _. destruct (Hf (w_graph w)) as [a Ha]; [apply Hw..|].
  exists w, (Ok a). unfold inspect. rewrite Ha. split_and!; done.
Qed.

Lemma kind_of_total g id : (id < length (nodes g))%nat -> is_Some (kind_of g id).
Proof. intros Hid. unfold kind_of. apply lookup_lt_is_Some_2 in Hid as [d ->]. cbn. eauto. Qed.

Lemma static_entry_ok g vr :
  ref_ok (length (nodes g)) vr ->
  exists entry, static_entry g vr = Some entry /\ ref_ok (length (nodes g)) entry.
Proof.
  intros Hok. unfold static_entry. destruct vr as [| | | | |ix]; eauto.
  apply ref_ok_indexed in Hok as (Hl & Hd & He). destruct (ix_index ix) as [name|i]; [eauto|].
  apply lookup_lt_is_Some_2 in Hl as [d ->]. cbn. eexists; split; [reflexivity|].
  destruct (nd_node d); try done. destruct value; try done. by apply pick_case.
Qed.

Lemma access_step_ok g id :
  graph_ok g -> (id < length (nodes g))%nat ->
  exists r, access_step g id = Some r /\ match r with inr next => (next < length (nodes g))%nat | inl _ => True end.
Proof.
  intros Hg Hid. unfold access_step. apply lookup_lt_is_Some_2 in Hid as [d Hd].
  pose proof (Forall_lookup_1 _ _ _ _ (gk_nodes _ Hg) Hd) as Hnd. cbn beta in Hnd. rewrite Hd. cbn.
  assert (forall value, ref_ok (length (nodes g)) value -> exists r : AccessMode + nat,
    (entry ← static_entry g value;
     Some (match entry with VLink (LId next) => inr next | LitInt _ | LitFloat _ => inl RW | _ => inl RO end)) = Some r
    /\ match r with inr next => (next < length (nodes g))%nat | inl _ => True end) as Hvalue.
  { intros value Hok. destruct (static_entry_ok g value Hok) as (entry & -> & He). cbn.
    eexists; split; [reflexivity|]. by destruct entry as [| | | |[|]|]. }
  destruct (nd_node d); try (eexists; split; [reflexivity|done]); apply Hvalue; apply Hnd.
Qed.

Lemma access_loop_total turns g id : graph_ok g -> (id < length (nodes g))%nat -> is_Some (access_loop turns g id).
Proof.
  intros Hg. revert id. induction turns as [|turns IH]; intros id Hid; [cbn; eauto|]. cbn.
  destruct (access_step_ok g id Hg Hid) as ([mode|next] & -> & Hr); cbn; [eauto|]. by apply IH.
Qed.

Lemma category_features_ok g id :
  graph_ok g -> (id < length (nodes g))%nat ->
  exists ids, category_features g id = Some ids /\ Forall (fun i => (i < length (nodes g))%nat) ids.
Proof.
  intros Hg Hid. unfold category_features. apply lookup_lt_is_Some_2 in Hid as [d Hd].
  pose proof (Forall_lookup_1 _ _ _ _ (gk_nodes _ Hg) Hd) as Hnd. cbn beta in Hnd. rewrite Hd. cbn.
  eexists; split; [reflexivity|]. destruct (nd_node d); try constructor. cbn in Hnd.
  apply Forall_forall. intros i (link & Hin & Hi)%list_elem_of_omap. rewrite Forall_forall in Hnd.
  specialize (Hnd link Hin). destruct link as [name|j]; simplify_eq/=; [|done]. exact (gk_by_name _ Hg _ _ Hi).
Qed.

Lemma names_total g ids :
  Forall (fun i => (i < length (nodes g))%nat) ids -> is_Some (mapM (fun f => d ← nodes g !! f; Some (nd_name d)) ids).
Proof.
  intros H. apply mapM_is_Some_2. eapply Forall_impl; [exact H|]. intros i Hi. cbn.
  apply lookup_lt_is_Some_2 in Hi as [d ->]. cbn. eauto.
Qed.

(** What the caller's types guarantee of the arguments. *)
Definition call_ok (c : FeatureCall) : Prop :=
  match c with
  | CallSetInteger _ v => i64_ok v
  | CallSetString _ s => Forall scalar_ok s
  | _ => True
  end.

Definition answer_ok (a : Answer) : Prop :=
  match a with
  | AnsInt v => i64_ok v
  | AnsInts lo hi => i64_ok lo /\ i64_ok hi
  | _ => True
  end.

Lemma answer_good {A} (R : A -> Prop) (f : A -> Answer) (m : Cam P A) :
  returns_good R m -> (forall a, R a -> answer_ok (f a)) -> returns_good answer_ok (answer f m).
Proof.
  intros Hm Hf cam Hcam. destruct (Hm cam Hcam) as (cam' & r & E & Hc & Hr).
  unfold answer, mbind, Cam_bind. rewrite E. destruct r as [a|e].
  - exists cam', (Ok (f a)). split_and!; [done..|]. intros ? [= <-]. by apply Hf, Hr.
  - by exists cam', (Err e).
Qed.

Lemma safe_drop_caches n k : safe n k top (modify invalidate_caches : M P unit).
Proof.
  intros w (Hg & Hp & Hn) _. eexists _, (Ok tt). split_and!; [reflexivity| | |done].
  - assert (length (nodes (invalidate_caches (w_graph w))) = n) as Hlen by (cbn; by rewrite length_fmap).
    split_and!; [|done|done]. destruct Hg as [H1 H2 H3 H4].
    constructor; cbn -[nodes]; fold (invalidate_caches (w_graph w)); rewrite Hlen, <- Hn; [|done..].
    cbn. apply Forall_fmap. eapply Forall_impl; [exact H1|]. intros d Hd. by apply with_cache_ok.
  - split_and!; [|done..]. cbn. rewrite <- list_fmap_compose. by apply list_fmap_ext.
Qed.

Lemma call_good c : call_ok c -> returns_good answer_ok (call c).
Proof.
  intros Hc. destruct c; cbn [call]; cbn in Hc.
  - eapply (answer_good top); [|done]. apply on_graph_good. intros n. apply safe_inspect. eauto.
  - eapply (answer_good top); [|done]. apply with_graph_good. intros. apply safe_inspect. intros g Hg <-.
    by apply kind_of_total.
  - eapply (answer_good top); [|done]. apply with_graph_good. intros. apply safe_inspect. intros g Hg <-.
    destruct (category_features_ok g id Hg) as (ids & -> & Hids); [done|]. by apply names_total.
  - apply (answer_good i64_ok); [|done]. apply with_graph_good, safe_int_value.
  - apply (answer_good top); [|done]. apply with_graph_good. intros. by apply safe_set_int_value.
  - eapply answer_good; [apply with_graph_good, safe_int_bounds|]. by intros [].
  - apply (answer_good i64_ok); [|done]. apply with_graph_good, safe_int_increment.
  - apply (answer_good top); [|done]. apply with_graph_good, safe_float_value.
  - apply (answer_good top); [|done]. apply with_graph_good. intros. by apply safe_set_float_value.
  - apply (answer_good top); [|by intros []]. apply with_graph_good, safe_float_bounds.
  - apply (answer_good top); [|done]. apply with_graph_good, safe_bool_value.
  - apply (answer_good top); [|done]. apply with_graph_good. intros. by apply safe_set_bool_value.
  - apply (answer_good top); [|done]. apply with_graph_good, safe_string_value.
  - apply (answer_good top); [|done]. apply with_graph_good. intros. by apply safe_set_string_value.
  - apply (answer_good top); [|done]. apply with_graph_good. intros. by apply safe_set_enum_entry.
  - apply (answer_good top); [|done]. apply with_graph_good, safe_enum_entries.
  - apply (answer_good top); [|done]. apply with_graph_good, safe_execute.
  - eapply (answer_good top); [|done]. apply with_graph_good. intros. apply safe_inspect. intros g Hg <-.
    by apply access_loop_total.
  - apply (answer_good top); [|done]. apply on_graph_good. intros n. apply safe_drop_caches.
Qed.

(** C30: any session of feature calls on a camera whose graph is well formed
    returns, whatever cycles, dangling links and formulas the description has
    and whatever the port answers: no call panics or recurses for ever, every
    call has an answer or an error, integers fit 64 bits, and the graph is
    well formed again with its visit stack empty. *)
Theorem feature_calls_total (cs : list FeatureCall) (cam : GigECamera P) :
  cam_good cam -> Forall call_ok cs ->
  exists cam' answers, run_calls cs cam = Some (cam', answers) /\ cam_good cam' /\
    length answers = length cs /\ Forall (fun r => forall a, r = Ok a -> answer_ok a) answers.
Proof.
  intros Hcam Hcs. revert cam Hcam. induction Hcs as [|c cs Hc _ IH]; intros cam Hcam; [by exists cam, []|].
  destruct (call_good c Hc cam Hcam) as (cam1 & r & E & Hcam1 & Hr).
  destruct (IH cam1 Hcam1) as (cam2 & rs & E2 & Hcam2 & Hlen & Hrs).
  exists cam2, (r :: rs). cbn [run_calls]. rewrite E. cbn. rewrite E2. cbn. split_and!; [done|done|lia|by constructor].
Qed.
End camera.

(** * A small description *)

(** A library without transcendental functions. *)
Definition plain_float_lib : FloatLib := {|
  fl_sin := id; fl_cos := id; fl_tan := id; fl_asin := id; fl_acos := id; fl_atan := id;
  fl_exp := id; fl_ln := id; fl_log10 := id; fl_powf := fun a _ => a |}.

Definition named (name : string) (n : Node) : NodeData := mkNodeData (str name) n.

Definition int_link (id : nat) : Node := NInteger (VLink (LId id)) VNone VNone VNone.

Definition int_register (address : Z) (c : Cachable) (kind : RegKind) : Node :=
  NRegister (mkRegisterCommon [LitInt address] (LitInt 4) RW c None) kind.

(** Two integers that refer to each other, a masked register behind a feature
    and a formula over it. *)
Definition ex_nodes : list NodeData :=
  [named "Loop" (int_link 1); named "Back" (int_link 0);
   named "Gain" (int_link 3);
   named "GainReg" (int_register 4 WriteAround (KInt Signed Big (Some 31) (Some 16)));
   named "Twice" (NSwissKnife (FormulaSlot_new (str "2*G")) [(str "G", LId 2%nat)]);
   named "Lost" (NInteger (VLink (LName (str "Nowhere"))) VNone VNone VNone)].

Definition ex_graph : Genicam :=
  from_parts ex_nodes (list_to_map (imap (fun i d => (nd_name d, i)) ex_nodes)) ∅.

Definition ex_camera : GigECamera MockPort := Some (mkConnection (MockPort_new 16) true false (Some ex_graph)).

Lemma ex_graph_ok : graph_ok ex_graph.
Proof.
  constructor; [change (length (nodes ex_graph)) with 6%nat|cbn..].
  - assert (forall z, i64_ok z -> ref_ok 6 (LitInt z)) as Hlit by done.
    repeat (apply List.Forall_cons; [cbn [node_ok nd_node named int_link int_register]|]); [..|apply List.Forall_nil].
    all: repeat (apply conj); try apply List.Forall_cons; try apply List.Forall_nil; try (apply Hlit; const_range);
      cbn; try lia; try exact Logic.I.
  - repeat (apply map_Forall_insert_2; [lia|]). apply map_Forall_empty.
  - apply map_Forall_empty.
  - split; constructor.
Qed.

Lemma ex_camera_good : cam_good ex_camera.
Proof. split; [apply Forall_replicate; done|]. split; [apply ex_graph_ok|done]. Qed.

Definition ex_calls : list FeatureCall :=
  [CallGetInteger (str "Loop"); CallSetInteger (str "Gain") (-5); CallGetInteger (str "Twice");
   CallGetInteger (str "Lost"); CallGetInteger (str "Offset"); CallAccessMode (str "Loop")].

Example ex_session :
  snd <$> run_calls (FL := plain_float_lib) ex_calls ex_camera =
  Some [Err (Circular (str "Loop")); Ok AnsUnit; Ok (AnsInt (-10)); Err (Dangling (str "Nowhere"));
        Err (NotFound (str "Offset")); Ok (AnsMode RO)].
Proof. vm_compute. reflexivity. Qed.

Lemma feature_calls_total_witness :
  cam_good ex_camera /\ Forall call_ok ex_calls /\
  exists cam' answers, run_calls (FL := plain_float_lib) ex_calls ex_camera = Some (cam', answers) /\ cam_good cam' /\
    length answers = length ex_calls /\ Forall (fun r => forall a, r = Ok a -> answer_ok a) answers.
Proof.
  assert (Forall call_ok ex_calls) as Hcs by (repeat constructor; vm_compute; discriminate).
  split; [apply ex_camera_good|]. split; [exact Hcs|].
  apply (feature_calls_total (FL := plain_float_lib) ex_calls ex_camera); [apply ex_camera_good|exact Hcs].
Defined.
