(* ===== verification/NodeAccess.v ===== *)
(** Value chains of the node graph.

    A feature is usually an integer, boolean or enumeration node that refers to
    another node, down to a register.  [chain] names such a path.  Reading or
    writing the head of a chain is reading or writing its last node; a chain
    that comes back to itself is reported as circular and touches no register;
    and what is written through a chain to an integer register of a port that
    keeps its contents is read back through it, for every caching mode. *)

From stdpp Require Import gmap.
From S2P Require Import Prelude Float64 Text Bootstrap Register Evaluator Errors Formula NodeGraph NodeTotal Camera.

(** [id] is a node whose integer value is that of [next]. *)
Definition follows (g : Genicam) (id next : nat) : Prop :=
  exists d, nodes g !! id = Some d /\
    match nd_node d with
    | NInteger v _ _ _ | NBoolean v _ _ | NEnumeration v _ => v = VLink (LId next)
    | _ => False
    end.

(** [path] leads from its head to [last]. *)
Fixpoint chain (g : Genicam) (path : list nat) (last : nat) : Prop :=
  match path with
  | [] => True
  | id :: path => follows g id (hd last path) /\ chain g path last
  end.

Section access.
Context {FL : FloatLib} {P : Type} {PIO : PortIo P}.
Implicit Types (w : World P) (id last : nat) (path : list nat).

(** [w] with the nodes of [path] entered, in order. *)
Definition entering path w : World P := map_graph (fun g => g <| visit := reverse path ++ visit g |>) w.

Lemma entering_nil w : entering [] w = w.
Proof. by destruct w as [[] p]. Qed.

Lemma entering_cons id path w : entering path (entering [id] w) = entering (id :: path) w.
Proof. unfold entering, map_graph. rewrite (reverse_cons path id), <- app_assoc. done. Qed.

Lemma entered_fresh {A} id (body : M P A) w :
  id ∉ visit (w_graph w) -> entered id body w = leaving body (entering [id] w).
Proof.
  intros Hid. unfold entered, mbind, M_bind, enter. by rewrite bool_decide_false.
Qed.

Lemma leaving_some {A} (body : M P A) w w' r : body w = Some (w', r) -> leaving body w = Some (leave w', r).
Proof. intros E. unfold leaving. by rewrite E. Qed.

Lemma node_of_lookup id w d : nodes (w_graph w) !! id = Some d -> node_of id w = Some (w, Ok (nd_node d)).
Proof. intros Hd. unfold node_of, mbind, M_bind, node_data. by rewrite Hd. Qed.

Lemma bind_ok {A B} (m : M P A) (f : A -> M P B) w w' a : m w = Some (w', Ok a) -> (m ≫= f) w = f a w'.
Proof. intros E. unfold mbind, M_bind. by rewrite E. Qed.

Lemma bind_err {A B} (m : M P A) (f : A -> M P B) w w' e : m w = Some (w', Err e) -> (m ≫= f) w = Some (w', Err e).
Proof. intros E. unfold mbind, M_bind. by rewrite E. Qed.

(** One link of a chain, read and written. *)
Lemma int_value_inner_follows rec id next w :
  follows (w_graph w) id next -> int_value_inner rec id w = int_of rec next w.
Proof.
  intros (d & Hd & Hn). unfold int_value_inner. rewrite (bind_ok _ _ _ _ _ (node_of_lookup _ _ _ Hd)).
  destruct (nd_node d); subst; done.
Qed.

Lemma set_int_value_inner_follows rec id next v w :
  follows (w_graph w) id next -> set_int_value_inner rec id v w = set_int_of rec next v w.
Proof.
  intros (d & Hd & Hn). unfold set_int_value_inner. rewrite (bind_ok _ _ _ _ _ (node_of_lookup _ _ _ Hd)).
  destruct (nd_node d); subst; done.
Qed.

Lemma follows_visit g l id next : follows g id next <-> follows (g <| visit := l |>) id next.
Proof. done. Qed.

Lemma chain_visit g l path last : chain g path last -> chain (g <| visit := l |>) path last.
Proof. induction path as [|id path IH]; [done|]. intros [H1 H2]. split; [exact H1|by apply IH]. Qed.

(** [leave] once per node of the path. *)
Definition leaving_all path w : World P := Nat.iter (length path) leave w.

Lemma leaving_all_cons id path w : leaving_all (id :: path) w = leave (leaving_all path w).
Proof. done. Qed.

(** Reading the head of a chain reads its last node, with the path entered. *)
Lemma int_of_chain fuel path last w :
  chain (w_graph w) path last -> NoDup path -> Forall (fun id => id ∉ visit (w_graph w)) path ->
  int_of (engine (length path + fuel)) (hd last path) w =
  '((w', r) : World P * result GenicamError Z) ← int_of (engine fuel) last (entering path w);
  Some (leaving_all path w', r).
Proof.
  revert w. induction path as [|id path IH]; intros w Hc Hnd Hv.
  - rewrite entering_nil. cbn [length Nat.add hd]. by destruct (int_of (engine fuel) last _) as [[]|].
  - destruct Hc as [Hf Hc]. apply NoDup_cons in Hnd as [Hid Hnd]. apply Forall_cons in Hv as [Hid' Hv].
    cbn [length Nat.add engine ops_step int_of hd]. rewrite entered_fresh by done.
    unfold leaving. rewrite (int_value_inner_follows _ id (hd last path)) by exact Hf.
    rewrite IH.
    + rewrite entering_cons.
      destruct (int_of (engine fuel) last _) as [[w1 r]|]; done.
    + by apply chain_visit.
    + done.
    + apply Forall_forall. intros x Hx. cbn. rewrite not_elem_of_cons. rewrite Forall_forall in Hv.
      split; [|by apply Hv]. intros ->. done.
Qed.

Lemma set_int_of_chain fuel path last v w :
  chain (w_graph w) path last -> NoDup path -> Forall (fun id => id ∉ visit (w_graph w)) path ->
  set_int_of (engine (length path + fuel)) (hd last path) v w =
  '((w', r) : World P * result GenicamError unit) ← set_int_of (engine fuel) last v (entering path w);
  Some (leaving_all path w', r).
Proof.
  revert w. induction path as [|id path IH]; intros w Hc Hnd Hv.
  - rewrite entering_nil. cbn [length Nat.add hd]. by destruct (set_int_of (engine fuel) last v _) as [[]|].
  - destruct Hc as [Hf Hc]. apply NoDup_cons in Hnd as [Hid Hnd]. apply Forall_cons in Hv as [Hid' Hv].
    cbn [length Nat.add engine ops_step set_int_of hd]. rewrite entered_fresh by done.
    unfold leaving. rewrite (set_int_value_inner_follows _ id (hd last path)) by exact Hf.
    rewrite IH.
    + rewrite entering_cons.
      destruct (set_int_of (engine fuel) last v _) as [[w1 r]|]; done.
    + by apply chain_visit.
    + done.
    + apply Forall_forall. intros x Hx. cbn. rewrite not_elem_of_cons. rewrite Forall_forall in Hv.
      split; [|by apply Hv]. intros ->. done.
Qed.

(** * Circular chains *)

Lemma levels_split path w :
  Forall (fun id => (id < length (nodes (w_graph w)))%nat) path -> NoDup path ->
  exists k, levels w = (length path + S k)%nat.
Proof.
  intros Hall Hnd. assert (length path <= length (nodes (w_graph w)))%nat as Hle.
  { rewrite <- (length_seq (length (nodes (w_graph w))) 0). apply submseteq_length, NoDup_submseteq; [done|].
    intros x Hx. rewrite Forall_forall in Hall. specialize (Hall x Hx). rewrite elem_of_seq. lia. }
  exists (length (nodes (w_graph w)) - length path)%nat. unfold levels. lia.
Qed.

Lemma chain_range g path last : chain g path last -> Forall (fun id => (id < length (nodes g))%nat) path.
Proof.
  induction path as [|id path IH]; [constructor|]. intros [(d & Hd & _) Hc].
  constructor; [by eapply lookup_lt_Some|by apply IH].
Qed.

Lemma entered_again {A} id (body : M P A) w d :
  id ∈ visit (w_graph w) -> nodes (w_graph w) !! id = Some d ->
  entered id body w = Some (map_graph (fun g => g <| visit := [] |>) w, Err (Circular (nd_name d))).
Proof.
  intros Hin Hd. unfold entered. apply bind_err. unfold enter. rewrite bool_decide_true by done.
  unfold name_of. rewrite (bind_ok _ _ _ (map_graph (fun g => g <| visit := [] |>) w) (nd_name d)); [done|].
  unfold mbind, M_bind, node_data. cbn. by rewrite Hd.
Qed.

Lemma leaving_all_empty path w : visit (w_graph w) = [] -> leaving_all path w = w.
Proof.
  intros Hv. induction path as [|id path IH]; [done|]. rewrite leaving_all_cons, IH. destruct w as [[] p]; cbn in *.
  by subst.
Qed.

Lemma cleared path w : visit (w_graph w) = [] -> map_graph (fun g => g <| visit := [] |>) (entering path w) = w.
Proof. destruct w as [[] p]; cbn. by intros ->. Qed.

(** C33: an integer feature whose value links lead back to a node already on
    the way is reported as circular, naming that node, whether it is read or
    written; the graph, its caches and the device are untouched, and the visit
    stack is empty again so that the next access starts afresh. *)
Theorem circular_reported (path : list nat) (last : nat) (w : World P) (d : NodeData) (v : Z) :
  visit (w_graph w) = [] -> chain (w_graph w) path last -> NoDup path -> last ∈ path ->
  nodes (w_graph w) !! last = Some d ->
  int_value (hd last path) w = Some (w, Err (Circular (nd_name d))) /\
  set_int_value (hd last path) v w = Some (w, Err (Circular (nd_name d))).
Proof.
  intros Hv Hc Hnd Hin Hd.
  destruct (levels_split path w (chain_range _ _ _ Hc) Hnd) as [k Hk].
  assert (Forall (fun id => id ∉ visit (w_graph w)) path) as Hfresh
    by (rewrite Hv; apply Forall_forall; intros; apply not_elem_of_nil).
  assert (last ∈ visit (w_graph (entering path w))) as Hin' by (cbn; set_solver).
  unfold int_value, set_int_value, with_engine. rewrite Hk.
  rewrite int_of_chain, set_int_of_chain by done. cbn [engine ops_step int_of set_int_of].
  rewrite !(entered_again last _ (entering path w) d) by done. rewrite !cleared by done.
  cbn. by rewrite !leaving_all_empty.
Qed.

(** * Registers with a literal layout *)

Fixpoint literal_sum (address : Z) (terms : list ValueRef) : option Z :=
  match terms with
  | [] => Some (wrap 64 address)
  | LitInt v :: terms => literal_sum (swrap 64 (address + v)) terms
  | _ => None
  end.

Definition literal_length (vr : ValueRef) : option nat :=
  match vr with
  | VNone => Some 4%nat
  | LitInt v => if (0 <=? v) && (v <=? MAX_REGISTER_LENGTH) then Some (Z.to_nat v) else None
  | _ => None
  end.

(** Where a register with literal address terms and length lies. *)
Definition layout (c : RegisterCommon) : option (Z * nat) :=
  a ← literal_sum 0 (address_terms c); len ← literal_length (rc_length c); Some (a, len).

(** The graph changed in caches only. *)
Definition cache_only (w w' : World P) : Prop :=
  forall i, exists c, nodes (w_graph w') !! i = update_node (with_cache c) <$> nodes (w_graph w) !! i.

Definition reg_at w id (name : text) (c : RegisterCommon) (kind : RegKind) : Prop :=
  nodes (w_graph w) !! id = Some (mkNodeData name (NRegister c kind)).

Lemma with_cache_twice c c' n : with_cache c (with_cache c' n) = with_cache c n.
Proof. by destruct n. Qed.

Lemma with_cache_same n : exists c, with_cache c n = n.
Proof. destruct n as [| | | | | | |c| | |]; try by exists None. exists (cache c). by destruct c. Qed.

Lemma cache_only_refl w : cache_only w w.
Proof.
  intros i. destruct (nodes (w_graph w) !! i) as [[name n]|]; [|by exists None].
  destruct (with_cache_same n) as [c Hc]. exists c. unfold update_node. cbn. by rewrite Hc.
Qed.

Lemma cache_only_trans w1 w2 w3 : cache_only w1 w2 -> cache_only w2 w3 -> cache_only w1 w3.
Proof.
  intros H1 H2 i. destruct (H1 i) as [c1 E1], (H2 i) as [c2 E2]. exists c2. rewrite E2, E1.
  destruct (nodes (w_graph w1) !! i) as [[]|]; [|done]. unfold update_node. cbn. by rewrite with_cache_twice.
Qed.

Lemma cache_only_alter w id f p :
  (forall d, nodes (w_graph w) !! id = Some d -> exists c, f (nd_node d) = with_cache c (nd_node d)) ->
  cache_only w (mkWorld (alter_node id f (w_graph w)) p).
Proof.
  intros Hf i. cbn. destruct (decide (id = i)) as [<-|Hne].
  - rewrite list_lookup_alter_eq. destruct (nodes (w_graph w) !! id) as [d|] eqn:Hd; [|by exists None].
    destruct (Hf d eq_refl) as [c Hc]. exists c. unfold update_node. cbn. by rewrite Hc.
  - rewrite list_lookup_alter_ne by done. apply cache_only_refl.
Qed.

Lemma cache_only_reg w w' id name c kind :
  cache_only w w' -> reg_at w id name c kind -> exists c', reg_at w' id name (c <| cache := c' |>) kind.
Proof. intros H Hr. destruct (H id) as [c' E]. exists c'. unfold reg_at in *. rewrite E, Hr. done. Qed.

Lemma cache_only_chain w w' path last : cache_only w w' -> chain (w_graph w) path last -> chain (w_graph w') path last.
Proof.
  intros H. induction path as [|id path IH]; [done|]. intros [(d & Hd & Hm) Hc]. split; [|by apply IH].
  destruct (H id) as [c E]. rewrite Hd in E. cbn in E. eexists; split; [exact E|]. destruct d as [name n]. cbn in *.
  by destruct n.
Qed.

Lemma layout_cache c b : layout (c <| cache := b |>) = layout c.
Proof. done. Qed.

Lemma sum_terms_literal rec terms a0 a w : literal_sum a0 terms = Some a ->
  exists s, sum_terms rec a0 terms w = Some (w, Ok s) /\ wrap 64 s = a.
Proof.
  revert a0. induction terms as [|t terms IH]; intros a0; cbn.
  - intros [= <-]. by exists a0.
  - destruct t; try discriminate. intros H. destruct (IH _ H) as (s & E & Hs). exists s. split; [|done].
    unfold mbind, M_bind. cbn. done.
Qed.

Lemma register_length_literal rec id vr len w :
  literal_length vr = Some len -> register_length rec id vr w = Some (w, Ok len).
Proof.
  unfold literal_length, register_length. destruct vr; try discriminate; cbn; [by intros [= <-]|].
  unfold mbind, M_bind. cbn. destruct (_ && _); [|discriminate]. by intros [= <-].
Qed.

Lemma register_address_literal rec id w name c kind a len :
  reg_at w id name c kind -> layout c = Some (a, len) -> register_address rec id w = Some (w, Ok (a, len)).
Proof.
  intros Hr Hl. unfold layout in Hl. destruct (literal_sum 0 (address_terms c)) as [a'|] eqn:Hs; [|discriminate].
  cbn in Hl. destruct (literal_length (rc_length c)) as [len'|] eqn:Hn; [|discriminate]. injection Hl as -> ->.
  unfold register_address. rewrite (bind_ok _ _ _ _ _ (node_of_lookup _ _ _ Hr)). cbn.
  destruct (sum_terms_literal rec _ _ _ w Hs) as (s & E & <-). rewrite (bind_ok _ _ _ _ _ E).
  by rewrite (bind_ok _ _ _ _ _ (register_length_literal rec id _ _ w Hn)).
Qed.

(** Modifying a node that exists. *)
Lemma modify_node_at id f w d :
  nodes (w_graph w) !! id = Some d -> modify_node id f w = Some (map_graph (alter_node id f) w, Ok tt).
Proof. intros Hd. unfold modify_node, mbind, M_bind, node_data. by rewrite Hd. Qed.

Definition camera_error (e : GenicamError) : Prop := exists ce, e = Camera ce.

(** Reading a register: the bytes are its length, only caches change. *)
Lemma register_read_spec rec id w name c kind a len :
  reg_at w id name c kind -> layout c = Some (a, len) -> access c = RW -> port_ok (w_port w) ->
  (forall b, cache c = Some b -> length b = len /\ bytes_ok b) ->
  exists w' r, register_read rec id w = Some (w', r) /\ port_ok (w_port w') /\ cache_only w w' /\
    invalidates (w_graph w') = invalidates (w_graph w) /\
    match r with Ok b => length b = len /\ bytes_ok b | Err e => camera_error e end.
Proof.
  intros Hr Hl Ha Hp Hc. unfold register_read. rewrite (bind_ok _ _ _ _ _ (node_of_lookup _ _ _ Hr)). cbn [nd_node].
  rewrite bool_decide_false by (rewrite Ha; discriminate).
  destruct (if bool_decide (cachable c = NoCache) then None else cache c) as [b|] eqn:Hcache.
  { exists w, (Ok b). split_and!; try done; [apply cache_only_refl|apply Hc..]; by case_bool_decide. }
  rewrite (bind_ok _ _ _ _ _ (register_address_literal rec id w name c kind a len Hr Hl)).
  unfold mbind at 1, M_bind at 1. unfold do_read.
  destruct (port_read_ok (w_port w) a len Hp) as [Hp' Hb]. destruct (port_read (w_port w) a len) as [p [b|ce]]; cbn in *.
  - rewrite (bind_ok _ _ _ _ _ (modify_node_at id (cache_after_read b) (mkWorld (w_graph w) p) _ Hr)).
    eexists _, (Ok b). split_and!; [reflexivity|done| |done|by apply Hb..].
    apply (cache_only_alter w id (cache_after_read b) p). intros d Hd. unfold reg_at in Hr. rewrite Hr in Hd.
    injection Hd as <-. cbn. case_bool_decide; [|by eexists]. exists (cache c). by destruct c.
  - exists (mkWorld (w_graph w) p), (Err (Camera ce)). split_and!; try done; [exact (cache_only_refl w)|by exists ce].
Qed.

Lemma invalidate_all_caches deps w :
  Forall (fun id => (id < length (nodes (w_graph w)))%nat) deps ->
  exists w', invalidate_all deps w = Some (w', Ok tt) /\ cache_only w w' /\ w_port w' = w_port w /\
    forall id name c kind, reg_at w id name c kind ->
      exists c', reg_at w' id name (c <| cache := c' |>) kind /\ (c' = cache c \/ c' = None).
Proof.
  revert w. induction deps as [|dep deps IH]; intros w Hall.
  { exists w. split_and!; [done|apply cache_only_refl|done|]. intros id name c kind Hr. exists (cache c).
    split; [|by left]. by destruct c. }
  apply Forall_cons in Hall as [Hd Hall]. apply lookup_lt_is_Some_2 in Hd as [d Hd].
  cbn [invalidate_all]. rewrite (bind_ok _ _ _ _ _ (modify_node_at dep (with_cache None) w d Hd)).
  set (w1 := map_graph (alter_node dep (with_cache None)) w).
  destruct (IH w1) as (w2 & E & Hc & Hp & Hreg). { cbn. by rewrite length_alter. }
  assert (cache_only w w1) as Hc1 by (apply (cache_only_alter w dep (with_cache None) (w_port w)); eauto).
  exists w2. split_and!; [done|by eapply cache_only_trans|done|]. intros id name c kind Hr.
  assert (exists c1, reg_at w1 id name (c <| cache := c1 |>) kind /\ (c1 = cache c \/ c1 = None)) as (c1 & Hr1 & Hc1').
  { unfold reg_at in *. cbn. destruct (decide (dep = id)) as [->|Hne].
    - exists None. rewrite list_lookup_alter_eq, Hr. by auto.
    - exists (cache c). rewrite list_lookup_alter_ne, Hr by done. split; [by destruct c|by left]. }
  destruct (Hreg _ _ _ _ Hr1) as (c2 & Hr2 & Hc2). exists c2. split; [done|]. destruct Hc2 as [-> | ->]; [done|by right].
Qed.

(** The nodes a write to [id] invalidates exist. *)
Definition deps_ok w id : Prop :=
  Forall (fun i => (i < length (nodes (w_graph w)))%nat) (default [] (invalidates (w_graph w) !! id)).

Lemma good_deps n w id : good n w -> deps_ok w id.
Proof.
  intros (Hg & _ & _). unfold deps_ok. destruct (invalidates (w_graph w) !! id) as [deps|] eqn:Hd; [|constructor].
  exact (gk_invalidates _ Hg _ _ Hd).
Qed.

Lemma cache_only_length w w' : cache_only w w' -> length (nodes (w_graph w')) = length (nodes (w_graph w)).
Proof.
  intros H. assert (forall i, is_Some (nodes (w_graph w') !! i) <-> is_Some (nodes (w_graph w) !! i)) as Hi.
  { intros i. destruct (H i) as [c ->]. by rewrite fmap_is_Some. }
  apply Nat.le_antisymm; apply Nat.nlt_ge; intros Hlt.
  - assert (is_Some (nodes (w_graph w') !! length (nodes (w_graph w)))) as [x Hx]%Hi by by apply lookup_lt_is_Some_2.
    apply lookup_lt_Some in Hx. lia.
  - assert (is_Some (nodes (w_graph w) !! length (nodes (w_graph w')))) as [x Hx]%Hi by by apply lookup_lt_is_Some_2.
    apply lookup_lt_Some in Hx. lia.
Qed.

(** Writing a register: the port has the bytes, the register's cache has them
    or nothing, only caches change. *)
Lemma register_write_spec rec id w name c kind a len data :
  reg_at w id name c kind -> layout c = Some (a, len) -> access c = RW -> deps_ok w id ->
  exists w' r, register_write rec id data w = Some (w', r) /\
    match r with
    | Ok _ => port_write (w_port w) a data = (w_port w', Ok tt) /\ cache_only w w' /\
              exists b, reg_at w' id name (c <| cache := b |>) kind /\ (b = None \/ b = Some data)
    | Err e => camera_error e
    end.
Proof.
  intros Hr Hl Ha Hg. unfold register_write. rewrite (bind_ok _ _ _ _ _ (node_of_lookup _ _ _ Hr)). cbn [nd_node].
  rewrite bool_decide_false by (rewrite Ha; discriminate).
  rewrite (bind_ok _ _ _ _ _ (register_address_literal rec id w name c kind a len Hr Hl)).
  unfold mbind at 1, M_bind at 1. unfold do_write. destruct (port_write (w_port w) a data) as [p [[]|ce]] eqn:Hw; cbn -[mbind].
  2:{ eexists _, _. split; [reflexivity|]. by exists ce. }
  set (w0 := mkWorld (w_graph w) p). rewrite (bind_ok _ _ w0 _ _ (modify_node_at id (cache_after_write data) w0 _ Hr)).
  set (w1 := map_graph (alter_node id (cache_after_write data)) w0).
  rewrite (bind_ok _ _ w1 w1 (default [] (invalidates (w_graph w1) !! id))) by done.
  destruct (invalidate_all_caches (default [] (invalidates (w_graph w1) !! id)) w1) as (w2 & E & Hc2 & Hp2 & Hreg).
  { cbn. rewrite length_alter. exact Hg. }
  rewrite E. exists w2, (Ok tt). split; [done|]. rewrite Hp2. split; [done|].
  assert (cache_only w w1) as Hc1.
  { apply (cache_only_alter w id (cache_after_write data) p). intros d Hd. unfold reg_at in Hr. rewrite Hr in Hd. injection Hd as <-. by eexists. }
  split; [by eapply cache_only_trans|].
  assert (reg_at w1 id name (c <| cache := match cachable c with WriteThrough => Some data | _ => None end |>) kind) as Hr1.
  { unfold reg_at in *. cbn. by rewrite list_lookup_alter_eq, Hr. }
  destruct (Hreg _ _ _ _ Hr1) as (b & Hr2 & Hb). exists b. split; [done|].
  cbn in Hb. destruct (cachable c), Hb as [-> | ->]; auto.
Qed.

(** * Writing and reading back *)

(** The bytes a register write stores for [v]: those whose field is [v]. *)
Definition holds (data : bytes) (len : nat) (sign : Sign) (e : Endianness) (l m : option Z) (v : Z) : Prop :=
  length data = len /\ bytes_ok data /\ extract_int data sign e l m = Ok v.

Record fits (len : nat) (sign : Sign) (e : Endianness) (l m : option Z) (v : Z) : Prop := {
  fit_len : 1 <= Z.of_nat len <= 8;
  fit_v : i64_ok v;
  fit_pos : forall z, l = Some z \/ m = Some z -> 0 <= z;
  fit_range : exists lo hi, bit_range (8 * Z.of_nat len) l m e = Some (lo, hi) /\ in_field sign (hi - lo + 1) v = true }.

Lemma insert_holds current len sign e l m v :
  fits len sign e l m v -> length current = len -> bytes_ok current ->
  exists data, insert_int current v sign e l m = Ok data /\ holds data len sign e l m v.
Proof.
  intros [Hlen Hv Hpos (lo & hi & Hr & Hin)] <- Hok.
  destruct (insert_then_extract current v sign e l m lo hi) as (data & E & Hz & Hd & Hx & _); try done.
  exists data. split; [done|]. split_and!; try done. unfold zlen in Hz. lia.
Qed.

Lemma encode_holds len sign e v :
  fits len sign e None None v ->
  exists data, encode_int v (Z.of_nat len) e = Ok data /\ holds data len sign e None None v.
Proof.
  intros [Hlen Hv Hpos (lo & hi & Hr & Hin)].
  destruct (encode_then_extract v (Z.of_nat len) sign e) as (data & E & Hz & Hd & Hx); try done.
  { unfold bit_range in Hr. cbn [mbind option_bind] in Hr. destruct (_ && _); [|discriminate]. injection Hr as <- <-.
    replace (8 * Z.of_nat len) with (8 * Z.of_nat len - 1 - 0 + 1) by lia. exact Hin. }
  exists data. split; [done|]. split_and!; try done. unfold zlen in Hz. lia.
Qed.

(** The outcome of a register write: the port holds [v] in the field, the
    register's cache has the bytes or nothing; or the port failed. *)
Definition stored w id name c sign e l m a len v w' (r : result GenicamError unit) : Prop :=
  match r with
  | Ok _ => exists p data b, port_ok p /\ holds data len sign e l m v /\
              port_write p a data = (w_port w', Ok tt) /\ cache_only w w' /\
              reg_at w' id name (c <| cache := b |>) (KInt sign e l m) /\ (b = None \/ b = Some data)
  | Err e => camera_error e
  end.

Lemma set_register_spec rec id w name c sign e l m a len v :
  reg_at w id name c (KInt sign e l m) -> layout c = Some (a, len) -> access c = RW -> deps_ok w id ->
  port_ok (w_port w) -> (forall b, cache c = Some b -> length b = len /\ bytes_ok b) -> fits len sign e l m v ->
  exists w' r, set_int_value_inner rec id v w = Some (w', r) /\ stored w id name c sign e l m a len v w' r.
Proof.
  intros Hr Hl Ha Hd Hp Hc Hfit. unfold set_int_value_inner.
  rewrite (bind_ok _ _ _ _ _ (node_of_lookup _ _ _ Hr)). cbn [nd_node].
  assert (literal_length (rc_length c) = Some len) as Hlen.
  { unfold layout in Hl. destruct (literal_sum _ _); [|discriminate]. cbn in Hl.
    destruct (literal_length _); [|discriminate]. by injection Hl as _ ->. }
  rewrite (bind_ok _ _ _ _ _ (register_length_literal rec id _ _ w Hlen)).
  assert (forall w0 data, cache_only w w0 -> port_ok (w_port w0) -> deps_ok w0 id -> holds data len sign e l m v ->
    exists w' r, register_write rec id data w0 = Some (w', r) /\ stored w id name c sign e l m a len v w' r) as Hwrite.
  { intros w0 data Hc0 Hp0 Hd0 Hh. destruct (cache_only_reg _ _ _ _ _ _ Hc0 Hr) as [b0 Hr0].
    destruct (register_write_spec rec id w0 name _ _ a len data Hr0 Hl Ha Hd0) as (w' & r & E & Hres).
    exists w', r. split; [done|]. destruct r as [[]|]; [|done]. destruct Hres as (Hpw & Hc1 & b & Hr1 & Hb).
    exists (w_port w0), data, b. split_and!; try done. by eapply cache_only_trans. }
  assert (exists w' r, (bs ← (current ← register_read rec id;
              or_formula id (map_err CodecFailed (insert_int current v sign e l m))); register_write rec id bs) w = Some (w', r) /\ stored w id name c sign e l m a len v w' r) as Hmasked.
  { destruct (register_read_spec rec id w name c _ a len Hr Hl Ha Hp Hc) as (w0 & [cur|e0] & E & Hp0 & Hc0 & Hi0 & Hres).
    - destruct Hres as [Hcl Hcok]. destruct (insert_holds cur len sign e l m v Hfit Hcl Hcok) as (data & Ei & Hh).
      assert ((current ← register_read rec id;
        or_formula id (map_err CodecFailed (insert_int current v sign e l m))) w = Some (w0, Ok data)) as E1.
      { rewrite (bind_ok _ _ _ _ _ E). rewrite Ei. done. }
      rewrite (bind_ok _ _ _ _ _ E1). apply Hwrite; try done. unfold deps_ok.
      by rewrite Hi0, (cache_only_length _ _ Hc0).
    - exists w0, (Err e0). split; [|done]. apply bind_err. by apply bind_err. }
  destruct l as [l|], m as [m|]; try exact Hmasked.
  destruct (encode_holds len sign e v Hfit) as (data & Ee & Hh).
  rewrite (bind_ok _ _ w w data) by (rewrite Ee; done). by apply Hwrite; [apply cache_only_refl|..].
Qed.

(** A register whose cache is empty or holds the bytes of the port. *)
Lemma read_back rec id w name c sign e l m a len data v p :
  reg_at w id name c (KInt sign e l m) -> layout c = Some (a, len) -> access c = RW ->
  (cache c = None \/ cache c = Some data) -> holds data len sign e l m v ->
  port_read (w_port w) a len = (p, Ok data) ->
  exists w', int_value_inner rec id w = Some (w', Ok v).
Proof.
  intros Hr Hl Ha Hc (_ & _ & Hx) Hp. unfold int_value_inner.
  rewrite (bind_ok _ _ _ _ _ (node_of_lookup _ _ _ Hr)). cbn [nd_node].
  assert (exists w', register_read rec id w = Some (w', Ok data)) as [w' E].
  { unfold register_read. rewrite (bind_ok _ _ _ _ _ (node_of_lookup _ _ _ Hr)). cbn [nd_node].
    rewrite bool_decide_false by (rewrite Ha; discriminate).
    destruct (if bool_decide (cachable c = NoCache) then None else cache c) as [b|] eqn:Hcache.
    { exists w. case_bool_decide; [discriminate|]. destruct Hc as [Hc|Hc]; rewrite Hc in Hcache; by simplify_eq. }
    rewrite (bind_ok _ _ _ _ _ (register_address_literal rec id w name c _ a len Hr Hl)).
    assert (do_read a len w = Some (mkWorld (w_graph w) p, Ok data)) as E1 by (unfold do_read; by rewrite Hp).
    rewrite (bind_ok _ _ _ _ _ E1).
    rewrite (bind_ok _ _ _ _ _ (modify_node_at id (cache_after_read data) (mkWorld (w_graph w) p) _ Hr)). by eexists. }
  exists w'. rewrite (bind_ok _ _ _ _ _ E). rewrite Hx. done.
Qed.

(** The world in which the last node of a chain is accessed from an empty
    visit stack. *)
Definition at_end path last w : World P := entering [last] (entering path w).

Lemma chain_fresh path last w :
  visit (w_graph w) = [] -> NoDup (path ++ [last]) ->
  NoDup path /\ Forall (fun id => id ∉ visit (w_graph w)) path /\ last ∉ visit (w_graph (entering path w)).
Proof.
  intros Hv Hnd. apply NoDup_app in Hnd as (Hnd & Hlast & _). cbn. rewrite Hv. split_and!; [done| |].
  - apply Forall_forall. intros. apply not_elem_of_nil.
  - rewrite app_nil_r, elem_of_reverse. intros Hin. by apply (Hlast last Hin), list_elem_of_singleton.
Qed.

Lemma int_value_at_end path last w (Q : World P -> result GenicamError Z -> Prop) :
  visit (w_graph w) = [] -> chain (w_graph w) path last -> NoDup (path ++ [last]) ->
  (forall rec, exists w1 r, int_value_inner rec last (at_end path last w) = Some (w1, r) /\ Q w1 r) ->
  exists w1 r, int_value (hd last path) w = Some (leaving_all path (leave w1), r) /\ Q w1 r.
Proof.
  intros Hv Hc Hnd HQ. destruct (chain_fresh path last w Hv Hnd) as (Hnd' & Hfresh & Hlast).
  destruct (levels_split path w (chain_range _ _ _ Hc) Hnd') as [k Hk].
  destruct (HQ (engine k)) as (w1 & r & E & Hq). exists w1, r. split; [|done].
  unfold int_value, with_engine. rewrite Hk, int_of_chain by done. cbn [engine ops_step int_of].
  rewrite entered_fresh by done. fold (at_end path last w). by rewrite (leaving_some _ _ _ _ E).
Qed.

Lemma set_int_value_at_end path last v w (Q : World P -> result GenicamError unit -> Prop) :
  visit (w_graph w) = [] -> chain (w_graph w) path last -> NoDup (path ++ [last]) ->
  (forall rec, exists w1 r, set_int_value_inner rec last v (at_end path last w) = Some (w1, r) /\ Q w1 r) ->
  exists w1 r, set_int_value (hd last path) v w = Some (leaving_all path (leave w1), r) /\ Q w1 r.
Proof.
  intros Hv Hc Hnd HQ. destruct (chain_fresh path last w Hv Hnd) as (Hnd' & Hfresh & Hlast).
  destruct (levels_split path w (chain_range _ _ _ Hc) Hnd') as [k Hk].
  destruct (HQ (engine k)) as (w1 & r & E & Hq). exists w1, r. split; [|done].
  unfold set_int_value, with_engine. rewrite Hk, set_int_of_chain by done. cbn [engine ops_step set_int_of].
  rewrite entered_fresh by done. fold (at_end path last w). by rewrite (leaving_some _ _ _ _ E).
Qed.

Lemma leaving_all_graph path w :
  nodes (w_graph (leaving_all path w)) = nodes (w_graph w) /\ w_port (leaving_all path w) = w_port w.
Proof. induction path as [|id path IH]; [done|]. rewrite leaving_all_cons. exact IH. Qed.

Lemma chain_nodes g g' path last : nodes g' = nodes g -> chain g path last -> chain g' path last.
Proof.
  intros Hn. induction path as [|id path IH]; [done|]. intros [(d & Hd & Hm) Hc]. split; [|by apply IH].
  exists d. by rewrite Hn.
Qed.
End access.

(** What a port that keeps its contents promises in a range. *)
Class MemoryPort (P : Type) {PIO : PortIo P} := {
  plain : Z -> nat -> Prop;
  port_write_read p a data p' :
    port_ok p -> bytes_ok data -> plain a (length data) -> port_write p a data = (p', Ok tt) ->
    exists p'', port_read p' a (length data) = (p'', Ok data) }.

Lemma mock_write_read p a data p' :
  bytes_ok (mem p) -> bytes_ok data -> True -> mock_write p a data = (p', Ok tt) ->
  exists p'', mock_read p' a (length data) = (p'', Ok data).
Proof.
  intros _ _ _ H. unfold mock_write in H.
  destruct (get_range _ _ _) as [old|] eqn:E; [|discriminate]. injection H as <-.
  apply get_range_Some in E as (? & ? & _). exists (mkMockPort (splice (mem p) a data)). unfold mock_read. cbn.
  change (Z.of_nat (length data)) with (zlen data). rewrite get_range_splice_same by lia. done.
Qed.

#[export] Instance MockPort_memory : MemoryPort MockPort := {|
  plain := fun _ _ => True; port_write_read := mock_write_read |}.

Section roundtrip.
Context {FL : FloatLib} {P : Type} {PIO : PortIo P} {MP : MemoryPort P}.
Implicit Types (w : World P).

(** An integer register at the end of a chain, that [v] fits. *)
Inductive int_feature w (path : list nat) (last : nat) (v : Z) : Prop :=
| int_feature_intro name c sign e l m a len :
    chain (w_graph w) path last -> NoDup (path ++ [last]) ->
    reg_at w last name c (KInt sign e l m) -> layout c = Some (a, len) -> access c = RW ->
    (forall b, cache c = Some b -> length b = len) ->
    fits len sign e l m v -> plain a len -> int_feature w path last v.

Lemma chain_head w path last d :
  chain (w_graph w) path last -> nodes (w_graph w) !! last = Some d ->
  (hd last path < length (nodes (w_graph w)))%nat.
Proof.
  intros Hc Hd. destruct path as [|x path]; cbn; [by eapply lookup_lt_Some|].
  destruct Hc as [(d' & Hd' & _) _]. by eapply lookup_lt_Some.
Qed.

Lemma set_int_value_unvisited w id v w' r :
  good (length (nodes (w_graph w))) w -> visit (w_graph w) = [] -> (id < length (nodes (w_graph w)))%nat -> i64_ok v ->
  set_int_value id v w = Some (w', r) -> visit (w_graph w') = [].
Proof.
  intros Hg Hv Hid Hi E.
  destruct (safe_set_int_value (length (nodes (w_graph w))) (levels w) id v Hid Hi w Hg) as (w2 & r2 & E2 & _ & _ & Ho);
    [unfold room, levels; lia|]. rewrite E in E2. injection E2 as <- <-.
  destruct r; cbn in Ho; rewrite Hv in Ho; by destruct Ho.
Qed.

(** C31: writing an integer feature that leads, through a chain of value links
    without repeats, to a register that may be read and written, whose address
    and length are literals of the description and whose bytes the port keeps
    as they are written: when the value fits the register's field, the write
    either fails with the port's error or succeeds, and then reading the feature
    gives the integer back: for masked and whole registers, both byte orders
    and signs, every caching mode, whatever stale bytes the cache held and
    whatever the write invalidates. *)
Theorem feature_write_then_read (w : World P) (path : list nat) (last : nat) (v : Z) :
  graph_ok (w_graph w) -> port_ok (w_port w) -> visit (w_graph w) = [] -> int_feature w path last v ->
  exists w' r, set_int_value (hd last path) v w = Some (w', r) /\
    match r with
    | Ok _ => exists w'', int_value (hd last path) w' = Some (w'', Ok v)
    | Err e => camera_error e
    end.
Proof.
  intros Hg Hp Hv [name c sign e l m a len Hch Hnd Hr Hl Ha Hc Hfit Hpl].
  assert (good (length (nodes (w_graph w))) w) as Hgood by by split_and!.
  assert (Hc0 : forall b, cache c = Some b -> length b = len /\ bytes_ok b).
  { intros b Hb. split; [by apply Hc|]. pose proof (good_node _ _ _ _ Hgood Hr) as (_ & _ & Hbytes). by rewrite Hb in Hbytes. }
  destruct (set_int_value_at_end path last v w (stored (at_end path last w) last name c sign e l m a len v))
    as (w1 & r & Hset & Hres); [done..| |].
  { intros rec. apply set_register_spec; try done. exact (good_deps _ w last Hgood). }
  exists (leaving_all path (leave w1)), r. split; [exact Hset|]. destruct r as [[]|]; [|exact Hres].
  destruct Hres as (p & data & b & Hpok & Hh & Hpw & Hco & Hr1 & Hb).
  pose proof (set_int_value_unvisited _ _ _ _ _ Hgood Hv (chain_head _ _ _ _ Hch Hr) (fit_v _ _ _ _ _ _ Hfit) Hset) as Hv2.
  destruct (leaving_all_graph path (leave w1)) as [Hn2 Hp2]. set (w2 := leaving_all path (leave w1)) in *.
  destruct (port_write_read p a data (w_port w1)) as [p'' Hpr]; [done|apply Hh| |done|].
  { destruct Hh as (-> & _). exact Hpl. }
  destruct (int_value_at_end path last w2 (fun _ r => r = Ok v)) as (w3 & r & E3 & ->); [done| |done| |by eexists].
  - apply (chain_nodes (w_graph w1)); [done|]. eapply cache_only_chain; [exact Hco|]. by apply chain_visit, chain_visit.
  - intros rec. destruct (read_back rec last (at_end path last w2) name (c <| cache := b |>) sign e l m a len data v p'')
      as [w4 E4]; try done; [| |by exists w4, (Ok v)].
    + unfold reg_at in *. cbn. by rewrite Hn2.
    + cbn. rewrite Hp2. destruct Hh as (<- & _). exact Hpr.
Qed.
End roundtrip.

Definition ex_world : World MockPort := mkWorld ex_graph (MockPort_new 16).

Lemma circular_reported_witness :
  int_value (FL := plain_float_lib) 0 ex_world = Some (ex_world, Err (Circular (str "Loop"))).
Proof.
  apply (circular_reported (FL := plain_float_lib) [0; 1]%nat 0 ex_world (named "Loop" (int_link 1)) 7).
  - reflexivity.
  - split; [by eexists|]. split; [by eexists|done].
  - constructor; [set_solver|]. constructor; [set_solver|]. constructor.
  - by left.
  - reflexivity.
Defined.

Lemma feature_write_then_read_witness :
  exists w' r, set_int_value (FL := plain_float_lib) 2 (-5) ex_world = Some (w', r) /\
    match r with
    | Ok _ => exists w'', int_value (FL := plain_float_lib) 2 w' = Some (w'', Ok (-5))
    | Err e => camera_error e
    end.
Proof.
  apply (feature_write_then_read (FL := plain_float_lib) ex_world [2%nat] 3 (-5)).
  - apply ex_graph_ok.
  - apply Forall_replicate. done.
  - reflexivity.
  - eapply (int_feature_intro _ _ _ _ (str "GainReg") _ Signed Big (Some 31) (Some 16) 4 4).
    + split; [by eexists|done].
    + constructor; [set_solver|]. constructor; [set_solver|]. constructor.
    + reflexivity.
    + reflexivity.
    + reflexivity.
    + discriminate.
    + constructor; [done|const_range| |].
      * intros z [[= <-]|[= <-]]; lia.
      * by exists 0, 15.
    + exact Logic.I.
Defined.
