(* ===== verification/XmlGraph.v ===== *)
(** From the device description to the node graph: the model of
    [src/src/genicam/xml.rs].

    The XML parser is an external crate ([roxmltree]); [XmlNode] is the part
    of its tree the source looks at (elements with attributes and children,
    text, anything else) and [xml_document] its parser, a parameter.  Building
    the graph is two passes: [walk] appends a node per element with links held
    as names, [finish] resolves the names and reverses the invalidators. *)

From stdpp Require Import gmap.
From S2P Require Import Prelude Float64 Text Url Register Evaluator Errors NodeGraph.

(** * The document *)

Inductive XmlNode :=
| XElement (tag : text) (attributes : list (text * text)) (children : list XmlNode)
| XText (s : text)
| XOther.

Class XmlLib := { xml_document : text -> option XmlNode }.

Definition children (x : XmlNode) : list XmlNode :=
  match x with XElement _ _ cs => cs | _ => [] end.
Definition is_element (x : XmlNode) : bool := match x with XElement _ _ _ => true | _ => false end.
Definition tag_name (x : XmlNode) : text := match x with XElement tag _ _ => tag | _ => [] end.
Definition attribute (x : XmlNode) (name : text) : option text :=
  match x with XElement _ attrs _ => assoc name attrs | _ => None end.

(** [Node::text]: of an element, the text it starts with. *)
Definition node_text (x : XmlNode) : option text :=
  match x with
  | XElement _ _ (XText s :: _) => Some s
  | XText s => Some s
  | _ => None
  end.

Definition tag_is (x : XmlNode) (tag : string) : bool := bool_decide (tag_name x = str tag).
Definition is_child (tag : string) (x : XmlNode) : bool := is_element x && tag_is x tag.

Definition child_text (el : XmlNode) (tag : string) : option text :=
  c ← List.find (is_child tag) (children el); trim <$> node_text c.

Definition child_texts (el : XmlNode) (tag : string) : list text :=
  trim <$> omap node_text (List.filter (is_child tag) (children el)).

(** * Numbers *)

Fixpoint dec_digits (acc : Z) (s : text) : option Z :=
  match s with
  | [] => Some acc
  | c :: s => if between 48 c 57 then dec_digits (acc * 10 + (c - 48)) s else None
  end.

(** [str::parse::<i64>]: an optional sign, then digits; the value must fit. *)
Definition parse_dec_i64 (s : text) : option Z :=
  let '(sign, ds) := match s with 45 :: s' => (-1, s') | 43 :: s' => (1, s') | _ => (1, s) end in
  if bool_decide (ds = []) then None
  else
    v ← dec_digits 0 ds;
    if between I64_MIN (sign * v) I64_MAX then Some (sign * v) else None.

Definition xml_i64 (s : text) : option Z :=
  if starts_with s (str "0x") || starts_with s (str "0X") then
    match from_str_radix16 (drop 2 s) with Ok v => Some (swrap 64 v) | Err _ => None end
  else parse_dec_i64 s.

Definition is_word_of (s : text) (word : string) : bool := bool_decide (to_ascii_lowercase s = str word).

(** [str::parse::<f64>]: a sign, then a number, [inf], [infinity] or [nan] in
    any case. *)
Definition xml_f64 (s : text) : option f64 :=
  let '(negative, body) := match s with 45 :: s' => (true, s') | 43 :: s' => (false, s') | _ => (false, s) end in
  v ← (if is_word_of body "inf" || is_word_of body "infinity" then Some (SpecFloat.S754_infinity false)
       else if is_word_of body "nan" then Some SpecFloat.S754_nan
       else parse_f64 body);
  Some (if negative : bool then f64_neg v else v).

Definition int_text (el : XmlNode) (tag : string) : option Z := child_text el tag ≫= xml_i64.

Definition int_literal (t : text) : option ValueRef := LitInt <$> xml_i64 t.
Definition float_literal (t : text) : option ValueRef :=
  match xml_f64 t with Some v => Some (LitFloat v) | None => int_literal t end.

(** * Values *)

Definition name_link (t : text) : ValueRef := VLink (LName t).

(** One child of a [pIndex] value. *)
Definition indexed_entry (literal : text -> option ValueRef) (child : XmlNode) : option (Z * ValueRef) :=
  at_ ← attribute child (str "Index") ≫= xml_i64;
  body ← trim <$> node_text child;
  if tag_is child "pValueIndexed" then Some (at_, name_link body)
  else if tag_is child "ValueIndexed" then v ← literal body; Some (at_, v)
  else None.

Definition indexed (el : XmlNode) (literal : text -> option ValueRef) : option ValueRef :=
  index ← child_text el "pIndex";
  let entries := omap (indexed_entry literal) (List.filter is_element (children el)) in
  let default_entry :=
    match child_text el "pValueDefault", child_text el "ValueDefault" with
    | Some p, _ => name_link p
    | None, Some t => default VNone (literal t)
    | None, None => VNone
    end in
  Some (VIndexed (mkIndexed (LName index) entries default_entry)).

(** [int_value_ref] and [float_value_ref]. *)
Definition value_ref (literal : text -> option ValueRef) (el : XmlNode) (lit pointer : string) : ValueRef :=
  match (if bool_decide (pointer = "pValue"%string) then indexed el literal else None) with
  | Some ix => ix
  | None =>
      match child_text el pointer with
      | Some p => name_link p
      | None => default VNone (child_text el lit ≫= literal)
      end
  end.
Definition int_value_ref : XmlNode -> string -> string -> ValueRef := value_ref int_literal.
Definition float_value_ref : XmlNode -> string -> string -> ValueRef := value_ref float_literal.

Definition string_value_ref (el : XmlNode) : ValueRef :=
  match child_text el "Value", child_text el "pValue" with
  | _, Some p => name_link p
  | Some v, None => LitStr v
  | None, None => VNone
  end.

Definition variable_of (c : XmlNode) : option (text * Link) :=
  var ← attribute c (str "Name"); target ← node_text c; Some (var, LName (trim target)).

Definition xml_variables (el : XmlNode) : list (text * Link) :=
  omap variable_of (List.filter (is_child "pVariable") (children el)).

Definition enum_entry (entry : XmlNode) : option (text * Z) :=
  name ← attribute entry (str "Name"); value ← int_text entry "Value"; Some (name, value).

Definition xml_enum_entries (el : XmlNode) : list (text * Z) :=
  omap enum_entry (List.filter (is_child "EnumEntry") (children el)).

Definition xml_access_mode (el : XmlNode) : option AccessMode :=
  t ← child_text el "AccessMode";
  if bool_decide (t = str "RO") then Some RO
  else if bool_decide (t = str "WO") then Some WO
  else if bool_decide (t = str "RW") then Some RW
  else None.

Definition endianness (el : XmlNode) : Endianness :=
  if bool_decide (child_text el "Endianess" = Some (str "BigEndian")) then Big else Little.

Definition sign (el : XmlNode) : Sign :=
  if bool_decide (child_text el "Sign" = Some (str "Signed")) then Signed else Unsigned.

Definition xml_cachable (el : XmlNode) : Cachable :=
  if bool_decide (child_text el "Cachable" = Some (str "NoCache")) then NoCache
  else if bool_decide (child_text el "Cachable" = Some (str "WriteThrough")) then WriteThrough
  else WriteAround.

Definition bit_text (el : XmlNode) (tag : string) : option Z := wrap 32 <$> int_text el tag.

Definition masked_int_kind (el : XmlNode) : RegKind :=
  let bit := bit_text el "Bit" in
  KInt (sign el) (endianness el) (or_else (bit_text el "LSB") bit) (or_else (bit_text el "MSB") bit).

(** * The builder *)

Record Builder := mkBuilder {
  b_nodes : list NodeData;
  b_by_name : gmap text nat;
  b_invalidators : list (nat * list text);
  b_anon : Z }.
Definition Builder_new : Builder := mkBuilder [] ∅ [] 0.

(** [NodeId(self.nodes.len() as u32)]. *)
Definition push (b : Builder) (name : text) (node : Node) : Builder * nat :=
  let id := Z.to_nat (wrap 32 (zlen (b_nodes b))) in
  (mkBuilder (b_nodes b ++ [mkNodeData name node]) (<[name := id]> (b_by_name b)) (b_invalidators b) (b_anon b), id).

Definition collect_invalidators (b : Builder) (id : nat) (el : XmlNode) : Builder :=
  let names := child_texts el "pInvalidator" in
  if bool_decide (names = []) then b
  else mkBuilder (b_nodes b) (b_by_name b) (b_invalidators b ++ [(id, names)]) (b_anon b).

Fixpoint dec_text (fuel : nat) (n : Z) (acc : text) : text :=
  match fuel with
  | O => acc
  | S fuel => let acc := (48 + n mod 10) :: acc in
              if n / 10 =? 0 then acc else dec_text fuel (n / 10) acc
  end.

(** The [Name] attribute, or a fresh name. *)
Definition element_name (b : Builder) (el : XmlNode) : Builder * text :=
  match attribute el (str "Name") with
  | Some name => (b, name)
  | None =>
      let anon := b_anon b + 1 in
      (mkBuilder (b_nodes b) (b_by_name b) (b_invalidators b) anon,
       str "__anonymous_" ++ tag_name el ++ str "_" ++ dec_text 10 anon [])
  end.

(** One child of a register element: what it adds to the address. *)
Definition address_term (add : XmlNode -> Builder -> Builder * option nat) (child : XmlNode) (b : Builder)
    : Builder * list ValueRef :=
  if tag_is child "Address" then
    (b, match node_text child with
        | Some t => match xml_i64 (trim t) with Some v => [LitInt v] | None => [] end
        | None => []
        end)
  else if tag_is child "pAddress" then
    (b, match node_text child with Some t => [name_link (trim t)] | None => [] end)
  else if tag_is child "IntSwissKnife" then
    let '(b, id) := add child b in
    (b, match id with Some id => [VLink (LId id)] | None => [] end)
  else (b, []).

Fixpoint register_terms (add : XmlNode -> Builder -> Builder * option nat) (cs : list XmlNode) (b : Builder)
    : Builder * list ValueRef :=
  match cs with
  | [] => (b, [])
  | child :: cs =>
      let '(b, terms) := if is_element child then address_term add child b else (b, []) in
      let '(b, rest) := register_terms add cs b in
      (b, terms ++ rest)
  end.

(** [cs] are the children of [el]. *)
Definition register_common (add : XmlNode -> Builder -> Builder * option nat) (el : XmlNode)
    (cs : list XmlNode) (b : Builder) : Builder * RegisterCommon :=
  let '(b, terms) := register_terms add cs b in
  (b, mkRegisterCommon terms (int_value_ref el "Length" "pLength")
        (default RW (xml_access_mode el)) (xml_cachable el) None).

(** [iter().all(|c| c.tag_name().name() != tag)]. *)
Definition lacks (entry : XmlNode) (tag : string) : bool :=
  forallb (fun c => negb (tag_is c tag)) (children entry).

Definition struct_entry_kind (el entry : XmlNode) : RegKind :=
  match masked_int_kind entry with
  | KInt s e lsb msb =>
      KInt (if lacks entry "Sign" then sign el else s)
           (if lacks entry "Endianess" then endianness el else e) lsb msb
  | kind => kind
  end.

Definition add_struct_entry (el : XmlNode) (common : RegisterCommon) (b : Builder) (entry : XmlNode) : Builder :=
  match attribute entry (str "Name") with
  | None => b
  | Some name =>
      let common := match xml_access_mode entry with
                    | Some mode => common <| access := mode |>
                    | None => common
                    end in
      let '(b, id) := push b name (NRegister common (struct_entry_kind el entry)) in
      collect_invalidators b id entry
  end.

Definition formula_slot (el : XmlNode) (tag : string) : FormulaSlot :=
  FormulaSlot_new (default [] (child_text el tag)).

(** The node of an element whose construction adds no other node. *)
Definition plain_node (el : XmlNode) : option Node :=
  if tag_is el "Category" then Some (NCategory (LName <$> child_texts el "pFeature"))
  else if tag_is el "Integer" then
    Some (NInteger (int_value_ref el "Value" "pValue") (int_value_ref el "Min" "pMin")
            (int_value_ref el "Max" "pMax") (int_value_ref el "Inc" "pInc"))
  else if tag_is el "Float" then
    Some (NFloat (float_value_ref el "Value" "pValue") (float_value_ref el "Min" "pMin")
            (float_value_ref el "Max" "pMax"))
  else if tag_is el "Boolean" then
    Some (NBoolean (int_value_ref el "Value" "pValue") (default 1 (int_text el "OnValue"))
            (default 0 (int_text el "OffValue")))
  else if tag_is el "String" then Some (NString (string_value_ref el))
  else if tag_is el "Enumeration" then
    Some (NEnumeration (int_value_ref el "Value" "pValue") (xml_enum_entries el))
  else if tag_is el "Command" then
    Some (NCommand (int_value_ref el "Value" "pValue") (int_value_ref el "CommandValue" "pCommandValue"))
  else if tag_is el "Converter" || tag_is el "IntConverter" then
    Some (NConverter (int_value_ref el "Value" "pValue") (formula_slot el "FormulaTo")
            (formula_slot el "FormulaFrom") (xml_variables el))
  else if tag_is el "SwissKnife" || tag_is el "IntSwissKnife" then
    Some (NSwissKnife (formula_slot el "Formula") (xml_variables el))
  else if tag_is el "Port" then Some NPort
  else None.

(** The kind of a register element. *)
Definition register_kind (el : XmlNode) : option RegKind :=
  if tag_is el "Register" then Some KRaw
  else if tag_is el "IntReg" then Some (KInt (sign el) (endianness el) None None)
  else if tag_is el "MaskedIntReg" then Some (masked_int_kind el)
  else if tag_is el "FloatReg" then Some (KFloatReg (endianness el))
  else if tag_is el "StringReg" then Some KText
  else None.

Fixpoint add_element (el : XmlNode) (b : Builder) : Builder * option nat :=
  match el with
  | XElement _ _ cs =>
      let '(b, name) := element_name b el in
      match register_kind el, plain_node el with
      | Some kind, _ =>
          let '(b, common) := register_common add_element el cs b in
          let '(b, id) := push b name (NRegister common kind) in
          (collect_invalidators b id el, Some id)
      | None, Some node =>
          let '(b, id) := push b name node in
          (collect_invalidators b id el, Some id)
      | None, None =>
          if tag_is el "StructReg" then
            let '(b, common) := register_common add_element el cs b in
            (foldl (add_struct_entry el common) b (List.filter (is_child "StructEntry") cs), None)
          else (b, None)
      end
  | _ => (b, None)
  end.

(** [Group]s are transparent. *)
Fixpoint walk (el : XmlNode) (b : Builder) : Builder :=
  match el with
  | XElement _ _ cs =>
      (fix visit_children (cs : list XmlNode) (b : Builder) : Builder :=
         match cs with
         | [] => b
         | child :: cs =>
             visit_children cs
               (if is_element child
                then if tag_is child "Group" then walk child b else fst (add_element child b)
                else b)
         end) cs b
  | _ => b
  end.

(** * Resolution *)

Definition resolve_link (by_name : gmap text nat) (l : Link) : Link :=
  match l with
  | LName name => match by_name !! name with Some id => LId id | None => l end
  | LId _ => l
  end.

Fixpoint resolve_value_ref (by_name : gmap text nat) (vr : ValueRef) : ValueRef :=
  match vr with
  | VLink l => VLink (resolve_link by_name l)
  | VIndexed ix =>
      VIndexed (mkIndexed (resolve_link by_name (ix_index ix))
        ((fix go (es : list (Z * ValueRef)) : list (Z * ValueRef) :=
            match es with [] => [] | (at_, v) :: es => (at_, resolve_value_ref by_name v) :: go es end) (ix_entries ix))
        (resolve_value_ref by_name (ix_default ix)))
  | _ => vr
  end.

Definition resolve_node (by_name : gmap text nat) (n : Node) : Node :=
  let r := resolve_value_ref by_name in
  let vars (l : list (text * Link)) := prod_map id (resolve_link by_name) <$> l in
  match n with
  | NCategory features => NCategory (resolve_link by_name <$> features)
  | NInteger value min max inc => NInteger (r value) (r min) (r max) (r inc)
  | NFloat value min max => NFloat (r value) (r min) (r max)
  | NBoolean value on off => NBoolean (r value) on off
  | NString value => NString (r value)
  | NEnumeration value entries => NEnumeration (r value) entries
  | NCommand value command_value => NCommand (r value) (r command_value)
  | NRegister common kind =>
      NRegister (mkRegisterCommon (r <$> address_terms common) (r (rc_length common)) (access common)
                   (cachable common) (cache common)) kind
  | NConverter value to from vs => NConverter (r value) to from (vars vs)
  | NSwissKnife formula vs => NSwissKnife formula (vars vs)
  | NPort => NPort
  end.

(** [invalidates.entry(source).or_default().push(node)]. *)
Definition add_dependent (m : gmap nat (list nat)) (source node : nat) : gmap nat (list nat) :=
  <[source := default [] (m !! source) ++ [node]]> m.

Definition reverse_invalidators (by_name : gmap text nat) (invalidators : list (nat * list text))
    : gmap nat (list nat) :=
  foldl (fun m '(node, names) =>
           foldl (fun m name => match by_name !! name with
                                | Some source => add_dependent m source node
                                | None => m
                                end) m names) ∅ invalidators.

Definition finish (b : Builder) : Genicam :=
  from_parts (update_node (resolve_node (b_by_name b)) <$> b_nodes b) (b_by_name b)
    (reverse_invalidators (b_by_name b) (b_invalidators b)).

(** * Parsing *)

Definition quoted (s : string) : text := [34] ++ str s ++ [34].

Definition DEFAULT_NODES : list (text * text) :=
  [(str "TLParamsLocked",
    str "<Integer Name=" ++ quoted "TLParamsLocked" ++
    str "><Value>0</Value><Min>0</Min><Max>1</Max></Integer>");
   (str "GevSCPSPacketSize",
    str "<MaskedIntReg Name=" ++ quoted "GevSCPSPacketSize" ++
    str ">
             <Address>0xd04</Address><Length>4</Length><AccessMode>RW</AccessMode>
             <pPort>Device</pPort><Cachable>NoCache</Cachable>
             <LSB>31</LSB><MSB>16</MSB><Endianess>BigEndian</Endianess>
           </MaskedIntReg>");
   (str "GevTimestampTickFrequency",
    str "<IntReg Name=" ++ quoted "GevTimestampTickFrequency" ++
    str ">
             <Address>0x93c</Address><Length>8</Length><AccessMode>RO</AccessMode>
             <pPort>Device</pPort><Endianess>BigEndian</Endianess>
           </IntReg>")].

Section parse.
Context {XL : XmlLib}.

(** The loop over the fallback definitions. *)
Fixpoint add_defaults (defaults : list (text * text)) (b : Builder) : result GenicamError Builder :=
  match defaults with
  | [] => Ok b
  | (name, snippet) :: defaults =>
      if bool_decide (is_Some (b_by_name b !! name)) then add_defaults defaults b
      else
        root ← ok_or (xml_document snippet) (Xml XmlSyntax);
        add_defaults defaults (fst (add_element root b))
  end.

Definition parse_xml (xml : text) : result GenicamError Genicam :=
  root ← ok_or (xml_document xml) (Xml XmlSyntax);
  b ← add_defaults DEFAULT_NODES (walk root Builder_new);
  Ok (finish b).
End parse.
