(* ===== verification/Description.v ===== *)
(** Every device description builds a well-formed graph.

    Whatever tree the XML parser returns, the builder appends nodes whose
    resolved links stay inside the arena, and resolution keeps them there, so
    the engine's totality ([NodeTotal], [Camera]) applies to any description a
    device may serve.  Elements with a name are found under it, and the
    features the acquisition code relies on are always present. *)

From stdpp Require Import gmap.
From S2P Require Import Prelude Float64 Text Url Register Evaluator Errors Formula NodeGraph NodeTotal Camera XmlGraph.

(** * Literals *)

Lemma xml_i64_ok s v : xml_i64 s = Some v -> i64_ok v.
Proof.
  unfold xml_i64. destruct (_ || _).
  - destruct (from_str_radix16 _); [|discriminate]. intros [= <-]. apply swrap64_ok.
  - unfold parse_dec_i64. destruct (match s with 45 :: s' => _ | _ => _ end) as [sg ds].
    case_bool_decide; [discriminate|]. destruct (dec_digits 0 ds) as [z|]; [|discriminate]. cbn.
    destruct (between _ _ _) eqn:E; [|discriminate]. intros [= <-]. unfold between in E. unfold i64_ok. lia.
Qed.

Lemma int_text_ok el tag v : int_text el tag = Some v -> i64_ok v.
Proof. unfold int_text. destruct (child_text el tag); [|discriminate]. apply xml_i64_ok. Qed.

(** A value reference that is well formed in every arena: names and literals. *)
Definition closed_ref (vr : ValueRef) : Prop := forall n, ref_ok n vr.
Definition closed_literal (literal : text -> option ValueRef) : Prop :=
  forall t vr, literal t = Some vr -> closed_ref vr.

Lemma int_literal_closed : closed_literal int_literal.
Proof.
  intros t vr. unfold int_literal. destruct (xml_i64 t) as [v|] eqn:E; [|discriminate]. intros [= <-] n.
  by eapply xml_i64_ok.
Qed.

Lemma float_literal_closed : closed_literal float_literal.
Proof.
  intros t vr. unfold float_literal. destruct (xml_f64 t); [by intros [= <-]|apply int_literal_closed].
Qed.

Lemma default_closed literal t : closed_literal literal -> closed_ref (default VNone (literal t)).
Proof. intros H n. destruct (literal t) as [vr|] eqn:E; [|done]. by eapply H. Qed.

Lemma indexed_closed el literal vr : closed_literal literal -> indexed el literal = Some vr -> closed_ref vr.
Proof.
  intros Hl. unfold indexed. destruct (child_text el "pIndex") as [index|]; [|discriminate]. intros [= <-] n.
  apply ref_ok_indexed. split_and!; [done| |].
  - cbn. destruct (child_text el "pValueDefault"); [done|]. destruct (child_text el "ValueDefault") as [t|]; [|done].
    by apply default_closed.
  - apply Forall_forall. intros [at_ v] (child & _ & Hc)%list_elem_of_omap. cbn. revert Hc. unfold indexed_entry.
    destruct (attribute child _ ≫= xml_i64) as [i|]; [|discriminate]. cbn.
    destruct (trim <$> node_text child) as [body|]; [|discriminate]. cbn.
    destruct (tag_is child "pValueIndexed"); [by intros [= <- <-]|].
    destruct (tag_is child "ValueIndexed"); [|discriminate].
    destruct (literal body) as [lv|] eqn:E; [|discriminate]. intros [= <- <-]. by eapply Hl.
Qed.

Lemma value_ref_closed literal el lit pointer : closed_literal literal -> closed_ref (value_ref literal el lit pointer).
Proof.
  intros Hl n. unfold value_ref.
  destruct (if bool_decide (pointer = _) then indexed el literal else None) as [ix|] eqn:E.
  - case_bool_decide; [|discriminate]. by eapply indexed_closed.
  - destruct (child_text el pointer); [done|]. destruct (child_text el lit) as [t|]; [|done]. by apply default_closed.
Qed.

Lemma int_ref_closed el lit pointer : closed_ref (int_value_ref el lit pointer).
Proof. apply value_ref_closed, int_literal_closed. Qed.

Lemma float_ref_closed el lit pointer : closed_ref (float_value_ref el lit pointer).
Proof. apply value_ref_closed, float_literal_closed. Qed.

Lemma default_int_ok el tag d : i64_ok d -> i64_ok (default d (int_text el tag)).
Proof. intros Hd. destruct (int_text el tag) as [v|] eqn:E; [|done]. by eapply int_text_ok. Qed.

Lemma xml_variables_ok n el : links_ok n (xml_variables el).
Proof.
  apply Forall_forall. intros [var l] (c & _ & Hc)%list_elem_of_omap. revert Hc. unfold variable_of.
  destruct (attribute c _); [|discriminate]. cbn. destruct (node_text c); [|discriminate]. by intros [= <- <-].
Qed.

Lemma xml_enum_entries_ok el : Forall (fun e => i64_ok e.2) (xml_enum_entries el).
Proof.
  apply Forall_forall. intros [name v] (c & _ & Hc)%list_elem_of_omap. revert Hc. unfold enum_entry.
  destruct (attribute c _); [|discriminate]. cbn. destruct (int_text c "Value") as [z|] eqn:E; [|discriminate].
  intros [= <- <-]. by eapply int_text_ok.
Qed.

Lemma plain_node_ok n el node : plain_node el = Some node -> node_ok n node.
Proof.
  unfold plain_node. repeat case_match; intros [= <-]; cbn; split_and?;
    first [by apply int_ref_closed | by apply float_ref_closed | by apply xml_variables_ok | by apply xml_enum_entries_ok
          | (apply default_int_ok; const_range) | done | idtac].
  - apply Forall_fmap, Forall_true. done.
  - unfold string_value_ref. repeat case_match; done.
Qed.

(** * The builder *)

Record b_ok (b : Builder) : Prop := {
  bk_nodes : Forall (fun d => node_ok (length (b_nodes b)) (nd_node d)) (b_nodes b);
  bk_by_name : map_Forall (fun _ id => (id < length (b_nodes b))%nat) (b_by_name b);
  bk_invalidators : Forall (fun e => (e.1 < length (b_nodes b))%nat) (b_invalidators b) }.

Definition size (b : Builder) : nat := length (b_nodes b).

Lemma link_ok_mono n n' l : (n <= n')%nat -> link_ok n l -> link_ok n' l.
Proof. destruct l; simpl; lia. Qed.

Lemma ref_ok_mono n n' vr : (n <= n')%nat -> ref_ok n vr -> ref_ok n' vr.
Proof.
  intros Hn. induction vr as [|v|v|s|l|ix IHe IHd] using ValueRef_nested_ind; try done.
  - by apply link_ok_mono.
  - rewrite !ref_ok_indexed. intros (Hl & Hd & He). split_and!; [by eapply link_ok_mono|by apply IHd|].
    rewrite Forall_forall in *. intros e Hin. apply IHe; [done|]. by apply He.
Qed.

Lemma links_ok_mono {A} n n' (l : list (A * Link)) : (n <= n')%nat -> links_ok n l -> links_ok n' l.
Proof. intros Hn H. eapply Forall_impl; [exact H|]. intros e. by apply link_ok_mono. Qed.

Lemma common_ok_mono n n' c : (n <= n')%nat -> common_ok n c -> common_ok n' c.
Proof.
  intros Hn (H1 & H2 & H3). split_and!; [|by eapply ref_ok_mono|done].
  eapply Forall_impl; [exact H1|]. intros e. by apply ref_ok_mono.
Qed.

Lemma node_ok_mono n n' nd : (n <= n')%nat -> node_ok n nd -> node_ok n' nd.
Proof.
  intros Hn. destruct nd; cbn; try (intros (? & ? & ? & ?)); try (intros (? & ? & ?)); try (intros (? & ?)); try done;
    intros; split_and?; try done.
  all: try (by eapply ref_ok_mono). all: try (by eapply links_ok_mono).
  - eapply Forall_impl; [eassumption|]. intros e. by apply link_ok_mono.
  - by eapply common_ok_mono.
Qed.

(** Every name leads to a node of that name. *)
Definition named_ok (b : Builder) : Prop :=
  map_Forall (fun name id => exists d, b_nodes b !! id = Some d /\ nd_name d = name) (b_by_name b).

Definition known (b : Builder) (name : text) : Prop := is_Some (b_by_name b !! name).

(** [b'] is a well-formed extension of [b].  Node numbers are 32 bits wide:
    names stay right as long as the arena fits. *)
Definition grown (b b' : Builder) : Prop :=
  b_ok b' /\ (size b <= size b')%nat /\ (forall name, known b name -> known b' name) /\
  (named_ok b -> Z.of_nat (size b') <= 2 ^ 32 -> named_ok b').

Lemma grown_refl b : b_ok b -> grown b b.
Proof. by intros. Qed.

Lemma grown_trans b1 b2 b3 : grown b1 b2 -> grown b2 b3 -> grown b1 b3.
Proof.
  intros (_ & Hs1 & Hk1 & Hn1) (Hb2 & Hs2 & Hk2 & Hn2). split_and!; [done|lia|by auto|].
  intros Hn Hs. apply Hn2; [|done]. apply Hn1; [done|lia].
Qed.

Lemma push_ok b name node :
  b_ok b -> node_ok (size b) node ->
  grown b (push b name node).1 /\ ((push b name node).2 < size (push b name node).1)%nat.
Proof.
  intros [H1 H2 H3] Hn. assert (size (push b name node).1 = S (size b)) as Hs.
  { unfold size. cbn. rewrite length_app. cbn. lia. }
  assert ((push b name node).2 < S (size b))%nat as Hid.
  { cbn. unfold wrap. pose proof (zlen_nonneg (b_nodes b)).
    pose proof (Z.mod_le (zlen (b_nodes b)) (2 ^ 32) ltac:(lia) ltac:(lia)). unfold size, zlen in *. lia. }
  split; [|by rewrite Hs]. split_and!; [|lia| |].
  2:{ intros x Hx. unfold known. cbn. apply lookup_insert_is_Some'. by right. }
  2:{ rewrite Hs. intros Hnamed Hbound. apply map_Forall_insert_2.
      - exists (mkNodeData name node). split; [|done].
        replace (Z.to_nat _) with (length (b_nodes b)); [by apply list_lookup_middle|].
        unfold wrap, zlen, size in *. rewrite Z.mod_small by lia. lia.
      - intros x id Hx. destruct (Hnamed x id Hx) as (d & Hd & Hdn). exists d. split; [|done].
        by apply lookup_app_l_Some. }
  constructor; fold (size (push b name node).1); rewrite Hs.
  - apply Forall_app_2.
    + eapply Forall_impl; [exact H1|]. intros d. apply node_ok_mono. unfold size. lia.
    + repeat constructor. eapply node_ok_mono; [|exact Hn]. lia.
  - apply map_Forall_insert_2; [exact Hid|]. intros i id Hi. specialize (H2 i id Hi). cbn in H2. unfold size. lia.
  - eapply Forall_impl; [exact H3|]. cbn. unfold size. intros. lia.
Qed.

Lemma collect_ok b id el : b_ok b -> (id < size b)%nat -> grown b (collect_invalidators b id el).
Proof.
  intros Hb Hid. unfold collect_invalidators. case_bool_decide; [by apply grown_refl|].
  destruct Hb. split_and!; try done. constructor; [done|done|]. cbn. apply Forall_app_2; [done|]. by repeat constructor.
Qed.

Lemma element_name_ok b el : b_ok b -> grown b (element_name b el).1.
Proof.
  intros Hb. unfold element_name. destruct (attribute el _); [by apply grown_refl|]. destruct Hb. by split_and!.
Qed.

(** Pushing a node and collecting its invalidators. *)
Lemma push_collect_ok b name node el :
  b_ok b -> node_ok (size b) node ->
  grown b (collect_invalidators (push b name node).1 (push b name node).2 el) /\
  ((push b name node).2 < size (collect_invalidators (push b name node).1 (push b name node).2 el))%nat.
Proof.
  intros Hb Hn. destruct (push_ok b name node Hb Hn) as [Hg Hid].
  pose proof (collect_ok _ _ el (proj1 Hg) Hid) as Hg2. split; [by eapply grown_trans|].
  eapply Nat.lt_le_trans; [exact Hid|apply Hg2].
Qed.

(** What adding an element promises. *)
Definition adds_ok (add : XmlNode -> Builder -> Builder * option nat) (el : XmlNode) : Prop :=
  forall b, b_ok b -> grown b (add el b).1 /\ forall id, (add el b).2 = Some id -> (id < size (add el b).1)%nat.

Lemma address_term_ok add child b :
  adds_ok add child -> b_ok b ->
  grown b (address_term add child b).1 /\
  Forall (ref_ok (size (address_term add child b).1)) (address_term add child b).2.
Proof.
  intros Hadd Hb. unfold address_term. destruct (tag_is child "Address").
  { split; [by apply grown_refl|]. cbn. destruct (node_text child) as [t|]; [|constructor].
    destruct (xml_i64 _) as [v|] eqn:E; [|constructor]. repeat constructor; by eapply xml_i64_ok. }
  destruct (tag_is child "pAddress").
  { split; [by apply grown_refl|]. cbn. destruct (node_text child); by repeat constructor. }
  destruct (tag_is child "IntSwissKnife"); [|split; [by apply grown_refl|constructor]].
  destruct (Hadd b Hb) as [Hg Hid]. destruct (add child b) as [b' id]. cbn in *. split; [done|].
  destruct id; [|constructor]. repeat constructor. by apply Hid.
Qed.

Lemma register_terms_ok add cs b :
  Forall (adds_ok add) cs -> b_ok b ->
  grown b (register_terms add cs b).1 /\
  Forall (ref_ok (size (register_terms add cs b).1)) (register_terms add cs b).2.
Proof.
  intros Hcs. revert b. induction Hcs as [|child cs Hadd _ IH]; intros b Hb.
  { split; [by apply grown_refl|constructor]. }
  cbn [register_terms].
  assert (exists b1 terms, (if is_element child then address_term add child b else (b, [])) = (b1, terms) /\
            grown b b1 /\ Forall (ref_ok (size b1)) terms) as (b1 & terms & -> & Hg1 & Ht1).
  { destruct (is_element child); [|exists b, []; by split_and!; [|apply grown_refl|constructor]].
    destruct (address_term_ok add child b Hadd Hb). destruct (address_term add child b). eauto. }
  destruct (IH b1 (proj1 Hg1)) as [Hg2 Ht2]. destruct (register_terms add cs b1) as [b2 rest]. cbn in *.
  split; [by eapply grown_trans|]. apply Forall_app_2; [|done].
  eapply Forall_impl; [exact Ht1|]. intros t. apply ref_ok_mono, Hg2.
Qed.

Lemma register_common_ok add el cs b :
  Forall (adds_ok add) cs -> b_ok b ->
  grown b (register_common add el cs b).1 /\
  common_ok (size (register_common add el cs b).1) (register_common add el cs b).2.
Proof.
  intros Hcs Hb. unfold register_common. destruct (register_terms_ok add cs b Hcs Hb) as [Hg Ht].
  destruct (register_terms add cs b) as [b' terms]. cbn in *. split; [done|]. split_and!; [done|apply int_ref_closed|done].
Qed.

Lemma struct_entry_ok el common b entry :
  b_ok b -> common_ok (size b) common -> grown b (add_struct_entry el common b entry).
Proof.
  intros Hb Hc. unfold add_struct_entry. destruct (attribute entry _) as [name|]; [|by apply grown_refl].
  set (c := match xml_access_mode entry with Some mode => _ | None => _ end).
  assert (common_ok (size b) c) as Hc' by (subst c; by destruct (xml_access_mode entry)).
  pose proof (push_collect_ok b name (NRegister c (struct_entry_kind el entry)) entry Hb Hc') as [Hg _].
  by destruct (push b name _).
Qed.

Lemma struct_entries_ok el common entries b :
  b_ok b -> common_ok (size b) common -> grown b (foldl (add_struct_entry el common) b entries).
Proof.
  revert b. induction entries as [|e entries IH]; intros b Hb Hc; [by apply grown_refl|]. cbn.
  pose proof (struct_entry_ok el common b e Hb Hc) as Hg. eapply grown_trans; [exact Hg|].
  apply IH; [apply Hg|]. eapply common_ok_mono; [apply Hg|done].
Qed.

Lemma XmlNode_nested_ind (Q : XmlNode -> Prop) :
  (forall tag attrs cs, Forall Q cs -> Q (XElement tag attrs cs)) -> (forall s, Q (XText s)) -> Q XOther -> forall x, Q x.
Proof.
  intros H1 H2 H3. fix IH 1. intros [tag attrs cs|s|]; [|apply H2|apply H3]. apply H1.
  induction cs as [|c cs IHcs]; [constructor|]. constructor; [apply IH|exact IHcs].
Qed.

Lemma add_element_ok el : adds_ok add_element el.
Proof.
  induction el as [tag attrs cs IH|s|] using XmlNode_nested_ind; intros b Hb; [|by split; [apply grown_refl|]..].
  cbn [add_element]. set (el := XElement tag attrs cs).
  pose proof (element_name_ok b el Hb) as Hg1. destruct (element_name b el) as [b1 name]. cbn in Hg1.
  assert (forall b2 node, grown b b2 -> node_ok (size b2) node ->
    let r := (let '(b3, id) := push b2 name node in (collect_invalidators b3 id el, Some id)) in
    grown b r.1 /\ forall id, r.2 = Some id -> (id < size r.1)%nat) as Hpush.
  { intros b2 node Hg2 Hn. destruct (push_collect_ok b2 name node el (proj1 Hg2) Hn) as [Hg3 Hid].
    destruct (push b2 name node) as [b3 id]. cbn in *. split; [by eapply grown_trans|]. by intros ? [= <-]. }
  destruct (register_kind el) as [kind|].
  { destruct (register_common_ok add_element el cs b1 IH (proj1 Hg1)) as [Hg2 Hc].
    destruct (register_common add_element el cs b1) as [b2 common]. apply Hpush; [by eapply grown_trans|done]. }
  destruct (plain_node el) as [node|] eqn:Hn; [by apply Hpush, (plain_node_ok _ _ _ Hn)|].
  destruct (tag_is el "StructReg"); [|by split].
  destruct (register_common_ok add_element el cs b1 IH (proj1 Hg1)) as [Hg2 Hc].
  destruct (register_common add_element el cs b1) as [b2 common]. cbn in *. split; [|done].
  eapply grown_trans; [exact Hg1|]. eapply grown_trans; [exact Hg2|]. apply struct_entries_ok; [apply Hg2|done].
Qed.

Lemma walk_ok el b : b_ok b -> grown b (walk el b).
Proof.
  revert b. induction el as [tag attrs cs IH|s|] using XmlNode_nested_ind; intros b Hb; [|by apply grown_refl..].
  cbn [walk]. revert b Hb. induction IH as [|c cs Hc _ IHcs]; intros b Hb; [by apply grown_refl|].
  assert (grown b (if is_element c then if tag_is c "Group" then walk c b else (add_element c b).1 else b)) as Hg.
  { destruct (is_element c); [|by apply grown_refl]. destruct (tag_is c "Group"); [by apply Hc|by apply add_element_ok]. }
  eapply grown_trans; [exact Hg|]. apply IHcs, Hg.
Qed.

(** * Resolution *)

Section resolution.
Context (n : nat) (by_name : gmap text nat) (Hnames : map_Forall (fun _ id => (id < n)%nat) by_name).

Lemma resolve_link_ok l : link_ok n l -> link_ok n (resolve_link by_name l).
Proof.
  destruct l as [name|id]; [|done]. intros _. cbn. destruct (by_name !! name) as [id|] eqn:E; [|done]. exact (Hnames _ _ E).
Qed.

Lemma resolve_entries es :
  (fix go (es : list (Z * ValueRef)) : list (Z * ValueRef) :=
     match es with [] => [] | (at_, v) :: es => (at_, resolve_value_ref by_name v) :: go es end) es
  = prod_map id (resolve_value_ref by_name) <$> es.
Proof. induction es as [|[at_ v] es IH]; [done|]. cbn. by rewrite IH. Qed.

Lemma resolve_ref_ok vr : ref_ok n vr -> ref_ok n (resolve_value_ref by_name vr).
Proof.
  induction vr as [|v|v|s|l|ix IHe IHd] using ValueRef_nested_ind; try done.
  - apply resolve_link_ok.
  - rewrite ref_ok_indexed. intros (Hl & Hd & He). cbn [resolve_value_ref]. apply ref_ok_indexed. cbn. split_and!.
    + by apply resolve_link_ok.
    + by apply IHd.
    + rewrite resolve_entries. apply Forall_fmap. rewrite Forall_forall in *. intros e Hin. cbn. by apply IHe, He.
Qed.

Lemma resolve_links_ok {A} (l : list (A * Link)) : links_ok n l -> links_ok n (prod_map id (resolve_link by_name) <$> l).
Proof. intros H. apply Forall_fmap. eapply Forall_impl; [exact H|]. intros e. apply resolve_link_ok. Qed.

Lemma resolve_node_ok nd : node_ok n nd -> node_ok n (resolve_node by_name nd).
Proof.
  destruct nd; cbn; try (intros (? & ? & ? & ?)); try (intros (? & ? & ?)); try (intros (? & ?)); try done;
    intros; split_and?; try done; try by apply resolve_ref_ok.
  all: try by apply resolve_links_ok.
  - apply Forall_fmap. eapply Forall_impl; [eassumption|]. intros l. apply resolve_link_ok.
  - split_and!; [|by apply resolve_ref_ok|done]. apply Forall_fmap. eapply Forall_impl; [eassumption|]. intros l. apply resolve_ref_ok.
Qed.

Definition deps_in (m : gmap nat (list nat)) : Prop :=
  map_Forall (fun _ deps => Forall (fun id => (id < n)%nat) deps) m.

Lemma add_dependent_ok m source node : deps_in m -> (node < n)%nat -> deps_in (add_dependent m source node).
Proof.
  intros Hm Hn. apply map_Forall_insert_2; [|done]. apply Forall_app_2; [|by repeat constructor].
  destruct (m !! source) as [deps|] eqn:E; [|constructor]. exact (Hm _ _ E).
Qed.

Lemma reverse_invalidators_ok invs :
  Forall (fun e => (e.1 < n)%nat) invs -> deps_in (reverse_invalidators by_name invs).
Proof.
  intros Hinvs. unfold reverse_invalidators. assert (deps_in ∅) as H0 by apply map_Forall_empty. revert H0.
  generalize (∅ : gmap nat (list nat)). induction Hinvs as [|[node names] invs Hn _ IH]; intros m Hm; [exact Hm|]. cbn.
  apply IH. clear IH. cbn in Hn. clear invs. revert m Hm. induction names as [|name names IH]; intros m Hm; [exact Hm|]. cbn.
  apply IH.
  destruct (by_name !! name); [by apply add_dependent_ok|done].
Qed.
End resolution.

Lemma finish_ok b : b_ok b -> graph_ok (finish b) /\ visit (finish b) = [].
Proof.
  intros [H1 H2 H3]. split; [|done].
  assert (length (nodes (finish b)) = length (b_nodes b)) as Hlen by (cbn; by rewrite length_fmap).
  constructor; rewrite Hlen.
  - cbn. apply Forall_fmap. eapply Forall_impl; [exact H1|]. intros d. by apply resolve_node_ok.
  - exact H2.
  - by apply reverse_invalidators_ok.
  - split; constructor.
Qed.

Lemma Builder_new_ok : b_ok Builder_new.
Proof. constructor; [constructor|apply map_Forall_empty|constructor]. Qed.

Section parse.
Context {XL : XmlLib}.

Lemma add_defaults_ok defaults b b' : b_ok b -> add_defaults defaults b = Ok b' -> grown b b'.
Proof.
  revert b. induction defaults as [|[name snippet] defaults IH]; intros b Hb; [intros [= <-]; by apply grown_refl|].
  cbn. case_bool_decide; [by apply IH|]. destruct (xml_document snippet) as [root|]; [|discriminate]. cbn. intros E.
  destruct (add_element_ok root b Hb) as [Hg _]. eapply grown_trans; [exact Hg|]. by apply IH; [apply Hg|].
Qed.

Lemma parse_builder xml g : parse_xml xml = Ok g -> exists root b,
  xml_document xml = Some root /\ add_defaults DEFAULT_NODES (walk root Builder_new) = Ok b /\ b_ok b /\ g = finish b.
Proof.
  unfold parse_xml. destruct (xml_document xml) as [root|]; [|discriminate]. cbn [ok_or mbind result_bind].
  destruct (add_defaults _ _) as [b|] eqn:E; [|discriminate]. intros [= <-]. exists root, b. split_and!; [done..| |done].
  eapply add_defaults_ok; [|exact E]. apply walk_ok, Builder_new_ok.
Qed.

(** ** Names *)

(** An element that becomes a node. *)
Definition makes_node (el : XmlNode) : Prop := is_Some (register_kind el) \/ is_Some (plain_node el).

(** The elements [walk] adds: children, and those of nested groups. *)
Inductive reached : XmlNode -> XmlNode -> Prop :=
| reached_child tag attrs cs el :
    el ∈ cs -> is_element el = true -> tag_is el "Group" = false -> reached (XElement tag attrs cs) el
| reached_group tag attrs cs grp el :
    grp ∈ cs -> is_element grp = true -> tag_is grp "Group" = true -> reached grp el ->
    reached (XElement tag attrs cs) el.

Lemma known_push b name node el :
  known (collect_invalidators (push b name node).1 (push b name node).2 el) name.
Proof.
  unfold known, collect_invalidators. case_bool_decide; cbn; rewrite lookup_insert_eq; eauto.
Qed.

Lemma add_element_known el b name :
  makes_node el -> attribute el (str "Name") = Some name -> known (add_element el b).1 name.
Proof.
  intros Hm Hname. destruct el as [tag attrs cs|s|]; [|done..]. cbn [add_element]. set (el := XElement tag attrs cs) in *.
  unfold element_name. rewrite Hname.
  destruct (register_kind el) as [kind|] eqn:Hk.
  - destruct (register_common add_element el cs b) as [b1 common].
    pose proof (known_push b1 name (NRegister common kind) el) as H. by destruct (push b1 name _).
  - destruct (plain_node el) as [node|] eqn:Hn; [|destruct Hm as [[? ?]|[? ?]]; congruence].
    pose proof (known_push b name node el) as H. by destruct (push b name _).
Qed.

Definition walk_child (b : Builder) (c : XmlNode) : Builder :=
  if is_element c then if tag_is c "Group" then walk c b else (add_element c b).1 else b.

Lemma walk_fold tag attrs cs b : walk (XElement tag attrs cs) b = foldl walk_child b cs.
Proof. cbn [walk]. revert b. induction cs as [|c cs IH]; intros b; [done|]. cbn [foldl]. by rewrite <- IH. Qed.

Lemma walk_child_ok b c : b_ok b -> grown b (walk_child b c).
Proof.
  intros Hb. unfold walk_child. destruct (is_element c); [|by apply grown_refl].
  destruct (tag_is c "Group"); [by apply walk_ok|by apply add_element_ok].
Qed.

Lemma walk_children_ok cs b : b_ok b -> grown b (foldl walk_child b cs).
Proof.
  revert b. induction cs as [|c cs IH]; intros b Hb; [by apply grown_refl|]. cbn.
  pose proof (walk_child_ok b c Hb) as Hg. eapply grown_trans; [exact Hg|]. apply IH, Hg.
Qed.

(** What one child adds stays known. *)
Lemma walk_children_known cs c b name :
  b_ok b -> c ∈ cs -> (forall b, b_ok b -> known (walk_child b c) name) -> known (foldl walk_child b cs) name.
Proof.
  intros Hb Hc Hk. apply list_elem_of_split in Hc as (pre & post & ->). rewrite foldl_app. cbn.
  pose proof (walk_children_ok pre b Hb) as [Hpre _].
  pose proof (walk_child_ok _ c Hpre) as [Hmid _].
  destruct (walk_children_ok post _ Hmid) as (_ & _ & Hkeep & _). by apply Hkeep, Hk.
Qed.

Lemma walk_known root el b name :
  reached root el -> makes_node el -> attribute el (str "Name") = Some name -> b_ok b -> known (walk root b) name.
Proof.
  intros Hr Hm Hname. revert b. induction Hr as [tag attrs cs el Hin He Hg|tag attrs cs grp el Hin He Hg _ IH];
    intros b Hb; rewrite walk_fold.
  - apply (walk_children_known cs el); [done..|]. intros b' _. unfold walk_child. rewrite He, Hg. by apply add_element_known.
  - apply (walk_children_known cs grp); [done..|]. intros b' Hb'. unfold walk_child. rewrite He, Hg. by apply IH.
Qed.

(** [name] leads to a node called [name]. *)
Definition found (g : Genicam) (name : text) : Prop :=
  exists id d, lookup_name g name = Ok id /\ nodes g !! id = Some d /\ nd_name d = name.

Lemma finish_found b name :
  named_ok b -> known b name -> found (finish b) name.
Proof.
  intros Hn [id Hid]. destruct (Hn name id Hid) as (d & Hd & Hdn).
  exists id, (update_node (resolve_node (b_by_name b)) d). split_and!; [| |done].
  2:{ change (nodes (finish b)) with (update_node (resolve_node (b_by_name b)) <$> b_nodes b).
      by rewrite list_lookup_fmap, Hd. }
  unfold lookup_name. cbn. by rewrite Hid.
Qed.

Lemma parse_named xml g :
  parse_xml xml = Ok g -> zlen (nodes g) <= 2 ^ 32 -> exists root b,
  xml_document xml = Some root /\ add_defaults DEFAULT_NODES (walk root Builder_new) = Ok b /\ g = finish b /\ named_ok b.
Proof.
  intros (root & b & Hx & Hd & Hb & ->)%parse_builder Hlen. exists root, b. split_and!; [done..|].
  assert (Z.of_nat (size b) <= 2 ^ 32) as Hsize by (unfold zlen in Hlen; cbn in Hlen; rewrite length_fmap in Hlen; exact Hlen).
  destruct (walk_ok root Builder_new Builder_new_ok) as (Hwb & _ & _ & Hw).
  destruct (add_defaults_ok _ _ _ Hwb Hd) as (_ & Hs & _ & Hdn). apply Hdn; [|done]. apply Hw; [apply map_Forall_empty|lia].
Qed.

(** C34: every named element of the description that describes a node, at the
    top or inside any nesting of groups, is found in the graph under its
    name. *)
Theorem description_features_found (xml : text) (g : Genicam) (root el : XmlNode) (name : text) :
  parse_xml xml = Ok g -> zlen (nodes g) <= 2 ^ 32 -> xml_document xml = Some root ->
  reached root el -> makes_node el -> attribute el (str "Name") = Some name -> found g name.
Proof.
  intros Hp Hlen Hx Hr Hm Hname. destruct (parse_named xml g Hp Hlen) as (root' & b & Hx' & Hd & -> & Hn).
  rewrite Hx in Hx'. injection Hx' as <-. apply finish_found; [done|].
  destruct (walk_ok root Builder_new Builder_new_ok) as (Hwb & _).
  destruct (add_defaults_ok _ _ _ Hwb Hd) as (_ & _ & Hk & _). apply Hk.
  by eapply walk_known; [..|apply Builder_new_ok].
Qed.

(** The parser reads the fallback definitions as they are written: an element
    that describes a node of the given name. *)
Definition reads_defaults : Prop :=
  Forall (fun '(name, snippet) => exists root, xml_document snippet = Some root /\ makes_node root /\
            attribute root (str "Name") = Some name) DEFAULT_NODES.

Lemma add_defaults_known defaults b b' :
  Forall (fun '(name, snippet) => exists root, xml_document snippet = Some root /\ makes_node root /\
            attribute root (str "Name") = Some name) defaults ->
  b_ok b -> add_defaults defaults b = Ok b' -> Forall (fun '(name, _) => known b' name) defaults.
Proof.
  intros H. revert b. induction H as [|[name snippet] defaults (root & Hx & Hm & Hname) _ IH]; intros b Hb; [constructor|].
  cbn. case_bool_decide as Hk.
  - intros E. constructor; [|by eapply IH]. by apply (add_defaults_ok _ _ _ Hb E).
  - rewrite Hx. cbn. intros E. destruct (add_element_ok root b Hb) as [Hg _].
    constructor; [|by eapply IH; [apply Hg|]]. apply (add_defaults_ok _ _ _ (proj1 Hg) E). by apply add_element_known.
Qed.

(** Whatever the description leaves out, the features the acquisition code
    uses (TLParamsLocked, the packet size and the tick frequency) are in the
    graph. *)
Theorem default_features_present (xml : text) (g : Genicam) (name : text) :
  reads_defaults -> parse_xml xml = Ok g -> zlen (nodes g) <= 2 ^ 32 ->
  name ∈ DEFAULT_NODES.*1 -> found g name.
Proof.
  intros Hdef Hp Hlen Hin. destruct (parse_named xml g Hp Hlen) as (root & b & _ & Hd & -> & Hn).
  apply finish_found; [done|]. destruct (walk_ok root Builder_new Builder_new_ok) as [Hwb _].
  pose proof (add_defaults_known _ _ _ Hdef Hwb Hd) as Hk. apply list_elem_of_fmap in Hin as ([name' snippet] & -> & Hin).
  rewrite Forall_forall in Hk. exact (Hk _ Hin).
Qed.

(** C32: every description that parses gives a well-formed graph, whatever its
    elements: resolved links point into the arena, literals fit 64 bits and
    the visit stack is empty, so that every later feature access returns. *)
Theorem description_well_formed (xml : text) (g : Genicam) :
  parse_xml xml = Ok g -> graph_ok g /\ visit g = [].
Proof. intros (root & b & _ & _ & Hb & ->)%parse_builder. by apply finish_ok. Qed.
End parse.

(** * A description with a group, an inline address formula and a struct *)

Definition leaf (tag : string) (body : string) : XmlNode := XElement (str tag) [] [XText (str body)].
Definition elem (tag name : string) (cs : list XmlNode) : XmlNode :=
  XElement (str tag) [(str "Name", str name)] cs.

Definition ex_doc : XmlNode :=
  XElement (str "RegisterDescription") []
    [XText (str " ");
     XElement (str "Group") []
       [elem "Integer" "Width" [leaf "pValue" " WidthReg "];
        elem "MaskedIntReg" "WidthReg"
          [XElement (str "IntSwissKnife") [] [leaf "Formula" "4*2"];
           leaf "Address" "0x4"; leaf "Length" "4"; leaf "LSB" "15"; leaf "MSB" "0";
           leaf "Endianess" "BigEndian"; leaf "pInvalidator" "Mode"]];
     elem "StructReg" "Flags"
       [leaf "Address" "0"; leaf "Length" "4"; leaf "Endianess" "BigEndian";
        elem "StructEntry" "Mode" [leaf "Bit" "31"]];
     elem "Enumeration" "Shape"
       [elem "EnumEntry" "Flat" [leaf "Value" "0"]; elem "EnumEntry" "Round" [leaf "Value" "1"];
        leaf "pValue" "Mode"]].

Definition ex_xml : text := str "<RegisterDescription>...</RegisterDescription>".

(** The fallback definitions as trees. *)
Definition default_docs : list XmlNode :=
  [elem "Integer" "TLParamsLocked" [leaf "Value" "0"; leaf "Min" "0"; leaf "Max" "1"];
   elem "MaskedIntReg" "GevSCPSPacketSize"
     [leaf "Address" "0xd04"; leaf "Length" "4"; leaf "AccessMode" "RW"; leaf "pPort" "Device";
      leaf "Cachable" "NoCache"; leaf "LSB" "31"; leaf "MSB" "16"; leaf "Endianess" "BigEndian"];
   elem "IntReg" "GevTimestampTickFrequency"
     [leaf "Address" "0x93c"; leaf "Length" "8"; leaf "AccessMode" "RO"; leaf "pPort" "Device";
      leaf "Endianess" "BigEndian"]].

(** A parser that knows these documents. *)
Definition ex_xml_lib : XmlLib := {|
  xml_document := fun t => assoc t ((ex_xml, ex_doc) :: zip (DEFAULT_NODES.*2) default_docs) |}.

Definition ex_parsed : Genicam := match parse_xml (XL := ex_xml_lib) ex_xml with Ok g => g | Err _ => from_parts [] ∅ ∅ end.

Lemma ex_parses : parse_xml (XL := ex_xml_lib) ex_xml = Ok ex_parsed.
Proof. vm_compute. reflexivity. Qed.

(** The register address is the sum of the formula and the literal. *)
Example ex_described_session :
  snd <$> run_calls (FL := plain_float_lib)
    [CallSetInteger (str "Width") 640; CallGetInteger (str "Width"); CallSetEnum (str "Shape") (str "Round");
     CallGetString (str "Shape"); CallGetInteger (str "TLParamsLocked"); CallSetInteger (str "TLParamsLocked") 1;
     CallGetInteger (str "TLParamsLocked"); CallNames]
    (Some (mkConnection (MockPort_new 16) true false (Some ex_parsed))) =
  Some [Ok AnsUnit; Ok (AnsInt 640); Ok AnsUnit; Ok (AnsText (str "Round")); Ok (AnsInt 0); Ok AnsUnit; Ok (AnsInt 1);
        Ok (AnsTexts (str <$> ["Width"; "__anonymous_IntSwissKnife_1"; "WidthReg"; "Mode"; "Shape"; "TLParamsLocked";
                               "GevSCPSPacketSize"; "GevTimestampTickFrequency"]%string))].
Proof. vm_compute. reflexivity. Qed.

Lemma description_well_formed_witness : graph_ok ex_parsed /\ visit ex_parsed = [].
Proof. apply (description_well_formed (XL := ex_xml_lib) ex_xml). apply ex_parses. Defined.

Lemma description_features_found_witness : found ex_parsed (str "Width").
Proof.
  apply (description_features_found (XL := ex_xml_lib) ex_xml ex_parsed ex_doc
           (elem "Integer" "Width" [leaf "pValue" " WidthReg "])).
  - apply ex_parses.
  - vm_compute. discriminate.
  - vm_compute. reflexivity.
  - eapply reached_group; [by right; left|done|done|]. apply reached_child; [by left|done|done].
  - right. by eexists.
  - reflexivity.
Defined.

Lemma default_features_present_witness : found ex_parsed (str "TLParamsLocked").
Proof.
  apply (default_features_present (XL := ex_xml_lib) ex_xml).
  - repeat constructor; eexists; (split; [vm_compute; reflexivity|]); (split; [|reflexivity]).
    + right. by eexists.
    + left. by eexists.
    + left. by eexists.
  - apply ex_parses.
  - vm_compute. discriminate.
  - by left.
Defined.
