(* ===== verification/DeviceSpec.v ===== *)
(** What the emulated device promises its controller, as functions on its
    memory: [dev_serve] gives the memory after a command and the content of
    the acknowledge.  [execute_serve] shows that the emulator does just that,
    on the success and the error branches of every command. *)

From S2P Require Import Prelude Gvcp Gvsp Text Bootstrap Zip Url Emulator DeviceControl.

(** * Memory *)

Definition block (m : bytes) (a n : Z) : bytes := default [] (get_range m a (a + n)).
Definition word (m : bytes) (a : Z) : Z := be_decode (block m a 4).
Definition in_mem (m : bytes) (a n : Z) : bool := a + n <=? zlen m.

(** The value the device stores: a device with a largest packet size rounds
    the size field of the packet-size register down to it. *)
Definition clamp (mx : option Z) (a v : Z) : Z :=
  match mx with
  | Some max =>
      if a =? STREAM_CHANNEL_PACKET_SIZE
      then Z.lor (Z.land v (Z.lxor U32_MAX SCPS_PACKET_SIZE_MASK)) (Z.min (Z.land v SCPS_PACKET_SIZE_MASK) max)
      else v
  | None => v
  end.

(** Writes in order up to the first address outside the memory; [false] when
    there is one. *)
Fixpoint write_pairs (mx : option Z) (m : bytes) (pairs : list (Z * Z)) : bytes * bool :=
  match pairs with
  | [] => (m, true)
  | (a, v) :: pairs =>
      if in_mem m a 4 then write_pairs mx (splice m a (be_encode 4 (clamp mx a v))) pairs else (m, false)
  end.

(** * The contract of a command *)

(** The memory after the command, the status and the payload of its
    acknowledge.  Resend requests draw none and are not here. *)
Definition dev_serve (mx : option Z) (m : bytes) (c : HostCmd) : bytes * (Z * bytes) :=
  match c with
  | HReadReg addrs =>
      (m, if forallb (fun a => in_mem m a 4) addrs
          then (STATUS_SUCCESS, (word m <$> addrs) ≫= be_encode 4)
          else (STATUS_INVALID_ADDRESS, []))
  | HWriteReg pairs =>
      let '(m', ok) := write_pairs mx m pairs in
      (m', if ok : bool then (STATUS_SUCCESS, be_encode 4 (zlen pairs)) else (STATUS_INVALID_ADDRESS, []))
  | HReadMem a n =>
      (m, if in_mem m a n && (n <=? DATA_SIZE_MAX) then (STATUS_SUCCESS, be_encode 4 a ++ block m a n)
          else (STATUS_INVALID_ADDRESS, []))
  | HWriteMem a data =>
      if in_mem m a (zlen data) then (splice m a data, (STATUS_SUCCESS, be_encode 4 (zlen data)))
      else (m, (STATUS_INVALID_ADDRESS, []))
  | HResend _ _ _ _ => (m, (STATUS_SUCCESS, []))
  end.

Definition answer_of (c : HostCmd) : Z :=
  match c with
  | HReadReg _ => READ_REGISTER_ACK
  | HWriteReg _ => WRITE_REGISTER_ACK
  | HReadMem _ _ => READ_MEMORY_ACK
  | HWriteMem _ _ => WRITE_MEMORY_ACK
  | HResend _ _ _ _ => PACKET_RESEND_CMD
  end.

(** The commands the control worker sends. *)
Definition worker_cmd (c : HostCmd) : Prop :=
  HostCmd_ok c /\
  match c with HWriteMem _ data => bytes_ok data | HResend _ _ _ _ => False | _ => True end.

(** * The emulator keeps the contract *)

Lemma block_read m a n : 0 <= a -> 0 <= n -> a + n <= zlen m -> get_range m a (a + n) = Some (block m a n).
Proof. intros. unfold block. by rewrite get_range_is_Some by lia. Qed.

Lemma zlen_block m a n : 0 <= a -> 0 <= n -> a + n <= zlen m -> zlen (block m a n) = n.
Proof. intros. pose proof (block_read m a n) as E. apply get_range_Some in E as (_ & _ & E & _); lia. Qed.

Lemma block_ok m a n : bytes_ok m -> bytes_ok (block m a n).
Proof.
  intros H. unfold block. destruct (get_range m a (a + n)) eqn:E; [|by constructor]. by eapply get_range_ok.
Qed.

Lemma word_range m a : bytes_ok m -> 0 <= a -> a + 4 <= zlen m -> u32_ok (word m a).
Proof.
  intros Hm Ha Hl. pose proof (zlen_block m a 4 Ha ltac:(lia) Hl) as E. apply be_decode_4; [by apply block_ok|].
  unfold zlen in E. lia.
Qed.

Lemma word_block m a : bytes_ok m -> 0 <= a -> a + 4 <= zlen m -> be_encode 4 (word m a) = block m a 4.
Proof.
  intros Hm Ha Hl. pose proof (zlen_block m a 4 Ha ltac:(lia) Hl) as E.
  pose proof (be_encode_decode (block m a 4) (block_ok m a 4 Hm)) as H.
  replace (length (block m a 4)) with 4%nat in H by (unfold zlen in E; lia). done.
Qed.

Lemma read_registers_values_word d addrs :
  dev_ok d -> Forall u32_ok addrs ->
  read_registers_values d (chunks4 (addrs ≫= be_encode 4)) =
    Some (if forallb (fun a => in_mem (d_mem d) a 4) addrs
          then Some ((word (d_mem d) <$> addrs) ≫= be_encode 4) else None).
Proof.
  intros Hd. induction 1 as [|a addrs Ha _ IH]; [done|].
  rewrite bind_cons, chunks4_be_encode_4. cbn [read_registers_values]. rewrite be_decode_encode4 by done.
  cbn [forallb]. unfold in_mem at 1. destruct (_ <? _) eqn:E; [by replace (_ <=? _) with false by lia|].
  replace (_ <=? _) with true by lia. cbn [andb]. unfold mem_read.
  rewrite block_read by width_lia. rewrite IH. cbn [mbind option_bind]. destruct (forallb _ addrs); [|done].
  rewrite fmap_cons, bind_cons, word_block; [done|by destruct Hd|width_lia|lia].
Qed.

Lemma d_mem_id (d : GigeDevice) : d <| d_mem := d_mem d |> = d.
Proof. by destruct d. Qed.

Lemma write_pairs_ok mx m pairs :
  bytes_ok m -> Forall (fun '(a, v) => u32_ok a /\ u32_ok v) pairs ->
  bytes_ok (write_pairs mx m pairs).1 /\ zlen (write_pairs mx m pairs).1 = zlen m.
Proof.
  intros Hm Hp. revert m Hm. induction Hp as [|[a v] pairs [Ha _] _ IH]; intros m Hm; [done|]. simpl.
  destruct (in_mem m a 4) eqn:E; [|done]. unfold in_mem in E.
  destruct (IH (splice m a (be_encode 4 (clamp mx a v)))) as [H1 H2].
  { apply splice_bytes_ok; [done|apply be_encode_ok]. }
  split; [done|]. rewrite H2. apply zlen_splice; [width_lia|]. rewrite zlen_be_encode. lia.
Qed.

Lemma write_registers_loop_pairs pairs d ft st :
  dev_ok d -> Forall (fun '(a, v) => u32_ok a /\ u32_ok v) pairs ->
  exists ft' st', write_registers_loop d pairs ft st =
    Some (d <| d_mem := (write_pairs (d_max_packet_size d) (d_mem d) pairs).1 |>,
          if (write_pairs (d_max_packet_size d) (d_mem d) pairs).2 then Some (ft', st') else None).
Proof.
  intros Hd Hp. revert d ft st Hd. induction Hp as [|[a v] pairs [Ha Hv] _ IH]; intros d ft st Hd.
  { exists ft, st. simpl. by rewrite d_mem_id. }
  simpl. unfold in_mem. destruct (_ <? _) eqn:E.
  { replace (_ <=? _) with false by lia. exists ft, st. simpl. by rewrite d_mem_id. }
  replace (_ <=? _) with true by lia.
  match goal with |- context [write_reg d a ?w] => assert (w = clamp (d_max_packet_size d) a v) as -> end.
  { unfold clamp. destruct (a =? _), (d_max_packet_size d); done. }
  set (v' := clamp _ _ _). unfold write_reg.
  destruct (mem_write_ok d a (be_encode 4 v')) as [-> Hd'];
    [done|width_lia|rewrite zlen_be_encode; lia|apply be_encode_ok|].
  cbn [mbind option_bind].
  match goal with |- context [write_registers_loop ?d1 pairs ?x ?y] => destruct (IH d1 x y Hd') as (ft' & st' & ->) end.
  exists ft', st'. done.
Qed.

(** A command of the worker is executed as the contract says. *)
Lemma execute_serve d c id m' status payload :
  dev_ok d -> worker_cmd c -> u16_ok id ->
  dev_serve (d_max_packet_size d) (d_mem d) c = (m', (status, payload)) ->
  exists r, execute d (host_cmd c id) = Some (d <| d_mem := m' |>, r) /\
    re_reply r = Some (ack status (answer_of c) id payload).
Proof.
  intros Hd [Hc Hb] Hid. pose proof (dv_len d Hd) as Hlen. unfold MEM_SIZE in Hlen.
  destruct c as [addrs|pairs|a n|a data|]; [..|done]; unfold execute, host_cmd;
    cbn -[be_encode get_range get_to get_from Z.land MEM_SIZE DATA_SIZE_MAX].
  - intros [= <- E]. unfold read_registers. cbn [cmd_payload cmd_req_id].
    rewrite read_registers_values_word by (done || apply Hc). cbn [mbind option_bind]. eexists. rewrite d_mem_id. split; [done|].
    destruct (forallb _ _); injection E as <- <-; done.
  - destruct (write_pairs _ _ pairs) as [m1 ok] eqn:Ew. intros [= <- E]. unfold write_registers. cbn [cmd_payload cmd_req_id].
    rewrite chunks8_pairs by apply Hc.
    destruct (write_registers_loop_pairs pairs d None false Hd (proj1 Hc)) as (ft & st & ->). cbn [mbind option_bind].
    rewrite Ew. cbn [fst snd]. eexists. split; [done|]. destruct ok; injection E as <- <-; [|done].
    cbn [re_reply]. rewrite zlen_bind_pairs. do 3 f_equal. rewrite Z.mul_comm, Z.div_mul by done.
    apply wrap_small. destruct Hc as [_ Hc]. pose proof (zlen_nonneg pairs). width_lia.
  - intros [= <- E]. unfold read_memory. cbn [cmd_payload cmd_req_id].
    rewrite get_to_app by (by rewrite zlen_be_encode). cbn [fmap option_fmap option_map].
    rewrite be_decode_encode4 by apply Hc.
    pose proof (get_range_app (be_encode 4 a) (be_encode 4 n) [] 4 8) as Hr.
    rewrite app_nil_r, !zlen_be_encode in Hr. rewrite Hr by done. cbn [fmap option_fmap option_map].
    destruct Hc as [Ha Hn]. rewrite be_decode_encode4 by width_lia.
    change 65535 with (Z.ones 16). rewrite Z.land_ones, Z.mod_small by width_lia.
    unfold in_mem in E. replace ((a + n <=? zlen (d_mem d)) && (n <=? DATA_SIZE_MAX))
      with (negb ((zlen (d_mem d) <? a + n) || (DATA_SIZE_MAX <? n))) in E by lia.
    destruct (_ || _) eqn:Eb; cbn [negb] in E; injection E as <- <-.
    + cbn [mbind option_bind]. eexists. by rewrite d_mem_id.
    + unfold mem_read. rewrite block_read by width_lia. cbn [mbind option_bind]. eexists. rewrite d_mem_id. split; [done|].
      cbn [re_reply Reaction_reply]. do 3 f_equal. f_equal. apply wrap_small. width_lia.
  - destruct Hc as [Ha Hn]. unfold write_memory. cbn [cmd_payload cmd_req_id].
    rewrite get_to_app by (by rewrite zlen_be_encode). cbn [fmap option_fmap option_map].
    rewrite be_decode_encode4 by done. rewrite get_from_app by (by rewrite zlen_be_encode).
    change (default [] (Some data)) with data. unfold in_mem. destruct (_ <? _) eqn:E.
    + replace (_ <=? _) with false by lia. intros [= <- <- <-]. cbn [mbind option_bind]. eexists. by rewrite d_mem_id.
    + replace (_ <=? _) with true by lia. intros [= <- <- <-].
      destruct (mem_write_ok d a data) as [E2 _]; [done|width_lia|lia|done|].
      rewrite E2. cbn [mbind option_bind]. eexists. split; [done|].
      cbn [re_reply Reaction_reply]. do 3 f_equal. apply wrap_small. pose proof (zlen_nonneg data). unfold DATA_SIZE_MAX in Hn. lia.
Qed.

(** The contract keeps the memory well formed. *)
Lemma dev_serve_ok d c m' a :
  dev_ok d -> worker_cmd c -> dev_serve (d_max_packet_size d) (d_mem d) c = (m', a) -> dev_ok (d <| d_mem := m' |>).
Proof.
  intros [D1 D2 D3] [Hc Hb] E. assert (bytes_ok m' /\ zlen m' = zlen (d_mem d)) as [H1 H2]; [|split; [by rewrite <- D1|done|done]].
  destruct c as [addrs|pairs|x n|x data|]; simpl in E; try (by simplify_eq).
  - destruct (write_pairs _ _ pairs) as [m1 ok] eqn:Ew. injection E as <- _.
    pose proof (write_pairs_ok (d_max_packet_size d) (d_mem d) pairs D2 (proj1 Hc)) as H. by rewrite Ew in H.
  - unfold in_mem in E. destruct (_ <=? _) eqn:El; injection E as <- _; [|done].
    split; [by apply splice_bytes_ok|]. apply zlen_splice; [destruct Hc; width_lia|lia].
Qed.

Lemma zlen_bind_words (m : bytes) addrs : zlen ((word m <$> addrs) ≫= be_encode 4) = 4 * zlen addrs.
Proof. rewrite zlen_bind_be4. unfold zlen. by rewrite length_fmap. Qed.

(** The acknowledge of a command parses as the contract's answer. *)
Lemma dev_serve_payload_fits mx m c :
  worker_cmd c -> zlen (dev_serve mx m c).2.2 <= U16_MAX /\ u16_ok (dev_serve mx m c).2.1.
Proof.
  intros [Hc _]. assert (u16_ok STATUS_SUCCESS /\ u16_ok STATUS_INVALID_ADDRESS) as [Hs He] by (split; const_range).
  destruct c as [addrs|pairs|a n|a data|]; simpl; unfold in_mem.
  - destruct (forallb _ _); simpl; [|by rewrite zlen_nil]. rewrite zlen_bind_words. by destruct Hc.
  - destruct (write_pairs _ _ _) as [m1 []]; simpl; [by rewrite zlen_be_encode|by rewrite zlen_nil].
  - destruct (_ && _) eqn:E; simpl; [|by rewrite zlen_nil]. rewrite zlen_app, zlen_be_encode. split; [|done].
    unfold block. destruct (get_range m a (a + n)) eqn:Eg; simpl; [|rewrite zlen_nil; width_lia].
    apply get_range_Some in Eg as (_ & _ & Eg & _). destruct Hc. unfold DATA_SIZE_MAX in *. width_lia.
  - destruct (_ <=? _); simpl; [by rewrite zlen_be_encode|by rewrite zlen_nil].
  - by rewrite zlen_nil.
Qed.

(** * Memory in pieces *)

Lemma block_split m a n k :
  0 <= a -> 0 <= n -> 0 <= k -> a + n + k <= zlen m -> block m a (n + k) = block m a n ++ block m (a + n) k.
Proof.
  intros. unfold block. rewrite !get_range_is_Some by lia. simpl. unfold id.
  replace (Z.to_nat (a + (n + k) - a)) with (Z.to_nat n + Z.to_nat k)%nat by lia.
  rewrite <- take_take_drop, drop_drop. repeat f_equal; lia.
Qed.

Lemma block_take m a n k :
  0 <= a -> 0 <= k <= n -> a + n <= zlen m -> take (Z.to_nat k) (block m a n) = block m a k.
Proof.
  intros. replace n with (k + (n - k)) by lia. rewrite block_split by lia.
  rewrite take_app_le, take_ge; [done|..]; pose proof (zlen_block m a k); unfold zlen in *; lia.
Qed.

Lemma splice_nil {A} (l : list A) i : splice l i [] = l.
Proof. unfold splice. simpl. rewrite Nat.add_0_r. apply take_drop. Qed.

(** Two neighbouring pieces are one. *)
Lemma splice_splice {A} (l p q : list A) i :
  0 <= i -> i + zlen p + zlen q <= zlen l -> splice (splice l i p) (i + zlen p) q = splice l i (p ++ q).
Proof.
  intros Hi Hl. pose proof (zlen_nonneg p). pose proof (zlen_nonneg q). apply list_eq. intros k.
  rewrite !splice_lookup; rewrite ?zlen_splice, ?zlen_app by lia; [|lia..]. unfold zlen in *.
  repeat case_decide; try lia; [by rewrite lookup_app_r by lia; f_equal; lia|by rewrite lookup_app_l by lia|done].
Qed.

Lemma write_pairs_app mx m l k :
  write_pairs mx m (l ++ k) =
  if (write_pairs mx m l).2 then write_pairs mx (write_pairs mx m l).1 k else ((write_pairs mx m l).1, false).
Proof.
  revert m. induction l as [|[a v] l IH]; intros m; [done|]. simpl. destruct (in_mem m a 4); [apply IH|done].
Qed.

Lemma word_splice_other m a b data :
  0 <= a -> a + zlen data <= zlen m -> b + 4 <= a \/ a + zlen data <= b -> word (splice m a data) b = word m b.
Proof. intros Ha Hl Hb. unfold word, block. by rewrite get_range_splice_other. Qed.

Lemma word_write_pairs mx m pairs b :
  Forall (fun '(a, v) => u32_ok a /\ u32_ok v) pairs -> Forall (fun '(a, _) => b + 4 <= a \/ a + 4 <= b) pairs ->
  word (write_pairs mx m pairs).1 b = word m b.
Proof.
  intros Hp Hb. revert m. induction Hp as [|[a v] pairs [Ha _] _ IH]; intros m; [done|]. simpl.
  apply Forall_cons in Hb as [Hab Hb]. unfold in_mem. destruct (_ <=? _) eqn:E; [|done].
  rewrite IH by done. apply word_splice_other; rewrite ?zlen_be_encode; [width_lia|lia..].
Qed.

Lemma in_mem_range m addrs : forallb (fun a => in_mem m a 4) addrs = true -> Forall (fun a => a + 4 <= zlen m) addrs.
Proof.
  intros H. apply Forall_forall. intros a Ha. rewrite forallb_forall in H. unfold in_mem in H.
  apply list_elem_of_In, H in Ha. lia.
Qed.

(** The parser finds the words of a register acknowledge. *)
Lemma decode_words m addrs :
  bytes_ok m -> Forall u32_ok addrs -> forallb (fun a => in_mem m a 4) addrs = true ->
  be_decode <$> chunks4 ((word m <$> addrs) ≫= be_encode 4) = word m <$> addrs.
Proof.
  intros Hm Ha Hin. rewrite <- (app_nil_r (_ ≫= _)), decode_words_bind; [simpl; by rewrite app_nil_r|].
  apply Forall_fmap. apply in_mem_range in Hin. eapply Forall_impl; [apply Forall_and; split; [exact Ha|exact Hin]|].
  intros a [? ?]. simpl. apply word_range; [done|width_lia|done].
Qed.
