(* ===== verification/ControlLink.v ===== *)
(** The control worker and the device across a lossy network.

    [hop] is one turn of the worker's loop ([Control.ctl_pass]) with the
    network in between: callers submit commands, the datagrams the worker has
    put on the wire reach the device or not, and its answers reach the worker
    or not.
    [contract] says what each request promises its caller, without datagrams,
    request ids, chunks, retries or heartbeats.  [control_link_refines]: every
    run with no more losses in a row than the worker has retries carries out
    the requests one after the other as the contract says. *)

From stdpp Require Import gmap.
From S2P Require Import Prelude Gvcp Gvsp Channel Frame Text Bootstrap Zip Url Emulator DeviceControl.
From S2P Require Import Errors Control ControlInv DeviceSpec.

(** * The network *)

(** What happens to the datagrams on the wire: they arrive and so do the
    answers, they arrive and the answers are lost, or they are lost. *)
Inductive Net := NetDeliver | NetDropReply | NetDropRequest.

Record Hop := { hp_commands : list ToWorker; hp_net : Net; hp_now : Z }.

(** [l_host] is the address of the worker's socket, [l_addr] the device's;
    [l_seen] counts the datagrams sent that the network is done with. *)
Record CtlLink := mkLink {
  l_worker : Runner; l_device : GigeDevice; l_host : Z * Z; l_addr : Z * Z; l_seen : nat }.

(** What the worker has sent and the network still has. *)
Definition wire (l : CtlLink) : list (bytes * (Z * Z) * bool) := drop (l_seen l) (w_sent (l_worker l)).

(** The network carries datagrams to the device, as far as they are addressed
    to it, and brings back its answers. *)
Fixpoint carry (host addr : Z * Z) (net : Net) (now : Z) (d : GigeDevice) (dgs : list (bytes * (Z * Z) * bool))
    : option (GigeDevice * list Recv) :=
  match dgs with
  | [] => Some (d, [])
  | (datagram, dst, _) :: dgs =>
      match net with
      | NetDropRequest => carry host addr net now d dgs
      | _ =>
          if bool_decide (dst = addr) then
            '((d, r) : GigeDevice * Reaction) ← handle_datagram d datagram host;
            '((d, back) : GigeDevice * list Recv) ← carry host addr net now d dgs;
            Some (d, match net, re_reply r with
                     | NetDeliver, Some reply => CtlDatagram addr reply now :: back
                     | _, _ => back
                     end)
          else carry host addr net now d dgs
      end
  end.

(** The network empties the wire, then the worker makes a turn of its loop.
    [None]: a panic, or the worker left its loop. *)
Definition hop (l : CtlLink) (p : Hop) : option CtlLink :=
  '((d, input) : GigeDevice * list Recv) ← carry (l_host l) (l_addr l) (hp_net p) (hp_now p) (l_device l) (wire l);
  '((again, w) : bool * Runner) ← ctl_pass (foldl submit (l_worker l) (hp_commands p))
    {| cp_commands := hp_commands p; cp_input := input; cp_deadline := (hp_now p, hp_now p);
       cp_heartbeat := (hp_now p, hp_now p); cp_pump := hp_now p |};
  if again : bool then Some (mkLink w d (l_host l) (l_addr l) (length (w_sent (l_worker l)))) else None.

Fixpoint hops (l : CtlLink) (ps : list Hop) : option CtlLink :=
  match ps with [] => Some l | p :: ps => l ← hop l p; hops l ps end.

Definition is_deliver (p : Hop) : bool := match hp_net p with NetDeliver => true | _ => false end.
(** The hop carries something. *)
Definition carries_any (l : CtlLink) : bool := match wire l with [] => false | _ => true end.

(** The losses in a row still allowed after a hop. *)
Definition left_after (retries left : Z) (l : CtlLink) (p : Hop) : Z :=
  if carries_any l then (if is_deliver p then retries else left - 1) else left.

(** Never more than [retries] losses in a row along the run; [left] are those
    still allowed. *)
Fixpoint patient (retries left : Z) (l : CtlLink) (ps : list Hop) : bool :=
  match ps with
  | [] => true
  | p :: ps =>
      (negb (carries_any l) || is_deliver p || (0 <? left)) &&
      match hop l p with Some l' => patient retries (left_after retries left l p) l' ps | None => true end
  end.

(** How often along the run something is on the wire and gets through. *)
Fixpoint deliveries (l : CtlLink) (ps : list Hop) : Z :=
  match ps with
  | [] => 0
  | p :: ps =>
      (if carries_any l && is_deliver p then 1 else 0) +
      match hop l p with Some l' => deliveries l' ps | None => 0 end
  end.

(** The clock at the last turn. *)
Definition last_now (t : Z) (ps : list Hop) : Z := foldl (fun _ p => hp_now p) t ps.
Definition submitted (ps : list Hop) : list ToWorker := concat (hp_commands <$> ps).

(** * The contract *)

Definition refused {A} (command : Z) : result CameraError A := Err (Nak command STATUS_INVALID_ADDRESS).

(** A block is written in chunks; when it does not fit, the chunks that do
    are written. *)
Definition spec_write (m : bytes) (a : Z) (data : bytes) : bytes * Response :=
  let room := zlen m - a in
  if zlen data <=? room then (splice m a data, Ok RvUnit)
  else (splice m a (take (Z.to_nat (room / DATA_SIZE_MAX * DATA_SIZE_MAX)) data), refused WRITE_MEMORY_CMD).

(** The memory after a request and the answer of its handle. *)
Definition contract (mx : option Z) (m : bytes) (msg : ToWorker) : bytes * option (nat * Response) :=
  match msg with
  | TwReadReg a h =>
      (m, Some (h, if in_mem m a 4 then Ok (RvReg (word m a)) else refused READ_REGISTER_CMD))
  | TwReadRegs addrs h =>
      (m, Some (h, if forallb (fun a => in_mem m a 4) addrs then Ok (RvRegs (word m <$> addrs))
                   else refused READ_REGISTER_CMD))
  | TwWriteRegs pairs h =>
      let '(m', ok) := write_pairs mx m pairs in
      (m', Some (h, if ok : bool then Ok RvUnit else refused WRITE_REGISTER_CMD))
  | TwReadMem a len h =>
      (m, Some (h, if in_mem m a (next_multiple_of len 4) then Ok (RvBytes (block m a len))
                   else refused READ_MEMORY_CMD))
  | TwWriteMem a data h => let '(m', v) := spec_write m a data in (m', Some (h, v))
  | TwSubscribeEvents _ | TwShutdown => (m, None)
  end.

Definition answer (hs : Handles) (a : option (nat * Response)) : Handles :=
  match a with Some (h, v) => fulfill hs h v | None => hs end.

(** Requests one after the other. *)
Fixpoint contract_all (mx : option Z) (m : bytes) (hs : Handles) (msgs : list ToWorker) : bytes * Handles :=
  match msgs with
  | [] => (m, hs)
  | msg :: msgs => let '(m', a) := contract mx m msg in contract_all mx m' (answer hs a) msgs
  end.

(** Exchanges a request takes. *)
Definition chunks_of (n per : Z) : Z := Z.max 1 (div_ceil n per).
Definition msg_exchanges (concatenation : bool) (msg : ToWorker) : Z :=
  match msg with
  | TwReadReg _ _ => 1
  | TwReadRegs addrs _ => if concatenation then 1 else chunks_of (zlen addrs) 1
  | TwWriteRegs pairs _ => if concatenation then 1 else chunks_of (zlen pairs) 1
  | TwReadMem _ len _ => chunks_of len DATA_SIZE_MAX
  | TwWriteMem _ data _ => chunks_of (zlen data) DATA_SIZE_MAX
  | TwSubscribeEvents _ | TwShutdown => 0
  end.
Definition exchanges (concatenation : bool) (msgs : list ToWorker) : Z :=
  foldr Z.add 0 (msg_exchanges concatenation <$> msgs).

(** The requests the theorem is about: arguments of their widths, register
    lists that fit a datagram, and no write to the privilege register the
    heartbeat watches. *)
Definition apart (a n : Z) : Prop := a + n <= CONTROL_CHANNEL_PRIVILEGE \/ CONTROL_CHANNEL_PRIVILEGE + 4 <= a.

Definition request_ok (msg : ToWorker) : Prop :=
  match msg with
  | TwReadReg a _ => u32_ok a
  | TwReadRegs addrs _ => Forall u32_ok addrs /\ 4 * zlen addrs <= U16_MAX
  | TwWriteRegs pairs _ =>
      Forall (fun '(a, v) => u32_ok a /\ u32_ok v) pairs /\ 8 * zlen pairs <= U16_MAX /\
      Forall (fun '(a, _) => apart a 4) pairs
  | TwReadMem a len _ => u32_ok a /\ u32_ok len
  | TwWriteMem a data _ => u32_ok a /\ bytes_ok data /\ zlen data <= U32_MAX /\ apart a (zlen data)
  | TwSubscribeEvents _ | TwShutdown => False
  end.

(** * The device's half of an exchange *)

(** The command in flight has or has not yet been executed; [am] is the
    memory before it. *)
Inductive serving (d : GigeDevice) (host : Z * Z) (c : HostCmd) (id : Z) (am : bytes) : Prop :=
| unserved : d_mem d = am -> fresh d host c id -> serving d host c id am
| served m' status payload :
    dev_serve (d_max_packet_size d) am c = (m', (status, payload)) -> d_mem d = m' ->
    d_last_reply d !! host = Some (HostCmd_opcode c, id, ack status (answer_of c) id payload) ->
    serving d host c id am.

Lemma handle_serving d host c id am m' status payload :
  dev_ok d -> worker_cmd c -> u16_ok id -> serving d host c id am ->
  dev_serve (d_max_packet_size d) am c = (m', (status, payload)) ->
  exists d' r, handle_datagram d (HostCmd_encode c id) host = Some (d', r) /\
    re_reply r = Some (ack status (answer_of c) id payload) /\ dev_ok d' /\ d_mem d' = m' /\
    d_max_packet_size d' = d_max_packet_size d /\
    d_last_reply d' !! host = Some (HostCmd_opcode c, id, ack status (answer_of c) id payload).
Proof.
  intros Hd Hc Hid [<- Hf|m1 st1 pl1 Hs1 Hm1 Hl] Hs.
  - set (d0 := d <| d_ctrl_peer := Some host |>).
    assert (dev_ok d0) as Hd0 by (by destruct Hd).
    destruct (execute_serve d0 c id m' status payload Hd0 Hc Hid Hs) as (r & Hx & Hr).
    exists (d0 <| d_mem := m' |> <| d_last_reply ::= <[host := (HostCmd_opcode c, id, ack status (answer_of c) id payload)]> |>), r.
    split_and!; [|done| |done|done|apply lookup_insert_eq].
    + apply handle_fresh; [by destruct Hc|done..].
    + pose proof (dev_serve_ok d0 c m' _ Hd0 Hc Hs) as []. by split.
  - rewrite Hs in Hs1. injection Hs1 as <- <- <-.
    exists (repeated d host 1), (Reaction_reply (ack status (answer_of c) id payload)).
    split_and!; [|done| |done|done|done].
    + apply (handle_again _ _ _ (host_cmd c id)); [apply Cmd_parse_host; [by destruct Hc|done]|done].
    + by destruct Hd.
Qed.

(** * Operations in progress

    [op_spec] is the contract of a partly done operation: what is still to
    happen, and the answer it will get. *)

Definition op_spec (mx : option Z) (m : bytes) (op : Op) (send : PendingSend) : bytes * option (nat * Response) :=
  match op, send with
  | OpReadReg h, PsReadRegs (a :: _) => contract mx m (TwReadReg a h)
  | OpReadRegs h addrs acc, _ =>
      let rest := drop (length acc) addrs in
      (m, Some (h, if forallb (fun a => in_mem m a 4) rest then Ok (RvRegs (acc ++ (word m <$> rest)))
                   else refused READ_REGISTER_CMD))
  | OpWriteRegs h pairs n, _ => contract mx m (TwWriteRegs (drop (Z.to_nat n) pairs) h)
  | OpReadMem h acc want next, _ =>
      let rem := want - zlen acc in
      (m, Some (h, if in_mem m next (next_multiple_of rem 4) then Ok (RvBytes (acc ++ block m next rem))
                   else refused READ_MEMORY_CMD))
  | OpWriteMem h data offset base, _ => contract mx m (TwWriteMem (base + offset) (drop (Z.to_nat offset) data) h)
  | _, _ => (m, None)
  end.

(** The command of the next exchange. *)
Definition per_command (conc : bool) (n : Z) : Z := if conc then n else Z.min n 1.

Definition stage_cmd (conc : bool) (op : Op) (send : PendingSend) : HostCmd :=
  match op, send with
  | OpReadRegs _ addrs acc, _ =>
      HReadReg (take (Z.to_nat (per_command conc (zlen addrs - zlen acc))) (drop (length acc) addrs))
  | OpWriteRegs _ pairs n, _ =>
      HWriteReg (take (Z.to_nat (per_command conc (zlen pairs - n))) (drop (Z.to_nat n) pairs))
  | OpReadMem _ acc want next, _ => HReadMem next (chunk_len (next_multiple_of (want - zlen acc) 4))
  | OpWriteMem _ data offset base, _ =>
      HWriteMem (base + offset) (take (Z.to_nat (chunk_len (zlen data - offset))) (drop (Z.to_nat offset) data))
  | _, PsReadRegs addrs => HReadReg addrs
  | _, _ => HReadReg []
  end.

(** Exchanges left. *)
Definition op_exchanges (conc : bool) (op : Op) : Z :=
  match op with
  | OpReadReg _ => 1
  | OpReadRegs _ addrs acc => if conc then 1 else chunks_of (zlen addrs - zlen acc) 1
  | OpWriteRegs _ pairs n => if conc then 1 else chunks_of (zlen pairs - n) 1
  | OpReadMem _ acc want _ => chunks_of (want - zlen acc) DATA_SIZE_MAX
  | OpWriteMem _ data offset _ => chunks_of (zlen data - offset) DATA_SIZE_MAX
  | OpHeartbeat => 0
  end.

Definition item_ok (op : Op) (send : PendingSend) : Prop :=
  fits op send /\
  match op with
  | OpReadReg _ => exists a, send = PsReadRegs [a] /\ u32_ok a
  | OpHeartbeat => send = PsReadRegs [CONTROL_CHANNEL_PRIVILEGE]
  | OpReadRegs _ addrs _ => Forall u32_ok addrs /\ 4 * zlen addrs <= U16_MAX
  | OpWriteRegs _ pairs _ =>
      Forall (fun '(a, v) => u32_ok a /\ u32_ok v) pairs /\ 8 * zlen pairs <= U16_MAX /\
      Forall (fun '(a, _) => apart a 4) pairs
  | OpReadMem _ _ _ next => u32_ok next
  | OpWriteMem _ data offset base =>
      u32_ok (base + offset) /\ bytes_ok data /\ u32_ok (zlen data) /\ apart base (zlen data)  /\ 0 <= base
  end.

(** The heartbeat finds the controller's privilege. *)
Definition controlled (m : bytes) : Prop := Z.land (word m CONTROL_CHANNEL_PRIVILEGE) CCP_CONTROL <> 0.

Lemma per_command_bounds conc n : 0 <= n -> 0 <= per_command conc n <= n.
Proof. unfold per_command. destruct conc; lia. Qed.

Lemma next_multiple_4 n : 0 <= n -> n <= next_multiple_of n 4 < n + 4 /\ next_multiple_of n 4 mod 4 = 0.
Proof.
  intros H. split; [by apply div_ceil_bounds|]. apply Z.mod_mul. lia.
Qed.

Lemma encode_stage s op send id :
  item_ok op send ->
  encode_op s op send id = Some (Some (HostCmd_encode (stage_cmd (w_concatenation s) op send) id)) /\
  worker_cmd (stage_cmd (w_concatenation s) op send).
Proof.
  intros [[Hop Hs] Hi]. destruct op as [h|h addrs acc|h pairs n|h acc want next|h data offset base|]; destruct send; try done;
    cbn [encode_op stage_cmd op_ok] in *.
  - destruct Hi as (a & [= ->] & Ha). split; [done|]. split; [split; [by constructor|done]|done].
  - destruct Hi as [Ha Hl]. pose proof (per_command_bounds (w_concatenation s) (zlen addrs - zlen acc) ltac:(lia)).
    pose proof (zlen_nonneg acc). rewrite usize_sub_ok by done. cbn [mbind option_bind].
    change (regs_per_command s) with (per_command (w_concatenation s)).
    rewrite get_range_is_Some by lia. cbn [mbind option_bind]. split.
    + cbn [HostCmd_encode]. repeat f_equal; unfold zlen in *; lia.
    + split; [|done]. split; [by apply Forall_take, Forall_drop|]. unfold zlen in *. rewrite length_take, length_drop. lia.
  - destruct Hi as (Ha & Hl & _). pose proof (per_command_bounds (w_concatenation s) (zlen pairs - n) ltac:(lia)).
    rewrite usize_sub_ok by lia. cbn [mbind option_bind].
    change (regs_per_command s) with (per_command (w_concatenation s)).
    rewrite get_range_is_Some by lia. cbn [mbind option_bind]. split.
    + cbn [HostCmd_encode]. repeat f_equal; lia.
    + split; [|done]. split; [by apply Forall_take, Forall_drop|]. unfold zlen in *. rewrite length_take, length_drop. lia.
  - rewrite usize_sub_ok by done. cbn [mbind option_bind]. pose proof (next_multiple_4 (want - zlen acc) ltac:(lia)).
    unfold chunk_len, DATA_SIZE_MAX. rewrite wrap_small by lia. split; [done|]. split; [|done]. split; [done|width_lia].
  - destruct Hi as (Hb & Hd & Hl & _ & Hbase). pose proof (chunk_len_bounds (zlen data - offset) ltac:(lia)).
    rewrite usize_sub_ok by lia. cbn [mbind option_bind]. rewrite get_range_is_Some by lia. cbn [mbind option_bind]. split.
    + rewrite (wrap_small 32 offset), wrap_small by width_lia. cbn [HostCmd_encode]. repeat f_equal; lia.
    + split; [|by apply Forall_take, Forall_drop]. split; [done|]. unfold chunk_len, zlen, DATA_SIZE_MAX in *.
      rewrite length_take, length_drop. lia.
  - injection Hi as ->. split; [done|]. split; [|done]. split; [apply Forall_cons; split; [const_range|constructor]|done].
Qed.

(** * The worker's half of an exchange *)

(** What an acknowledge does to the operation in flight. *)
Inductive StageOut :=
| SDone (a : option (nat * Response))
| SNext (op : Op) (send : PendingSend).

Definition apply_out (s : Runner) (out : StageOut) (now : Z) : option Runner :=
  match out with
  | SDone None => Some s
  | SDone (Some (h, v)) => Some (fulfill_handle s h v)
  | SNext op send => continue_op s op send now
  end.

(** The outcome agrees with the contract: the operation is answered as
    promised, or what is left of it promises the same from the new memory and
    takes fewer exchanges. *)
Definition out_ok (mx : option Z) (conc : bool) (am m' : bytes) (op : Op) (send : PendingSend) (out : StageOut) : Prop :=
  match out with
  | SDone a => op_spec mx am op send = (m', a) /\ (is_heartbeat op = true \/ 1 <= op_exchanges conc op)
  | SNext op' send' =>
      item_ok op' send' /\ is_heartbeat op' = false /\ op_spec mx m' op' send' = op_spec mx am op send /\
      1 <= op_exchanges conc op' /\ op_exchanges conc op' + 1 <= op_exchanges conc op
  end.

Definition acked (c : HostCmd) (id status : Z) (payload : bytes) : Ack :=
  {| ack_status := status; ack_answer := answer_of c; ack_id := id; ack_payload := payload |}.

(** The statement of the stage lemmas. *)
Definition stage_ok (s : Runner) (f : Inflight) (send : PendingSend) (mx : option Z) (am : bytes) (now : Z) : Prop :=
  let conc := w_concatenation s in
  let c := stage_cmd conc (in_op f) send in
  let '(m', (status, payload)) := dev_serve mx am c in
  exists stats out, on_ack s f (acked c (in_id f) status payload) now = apply_out (s <| w_stats := stats |>) out now /\
    ls_heartbeats stats = ls_heartbeats (w_stats s) + (if is_heartbeat (in_op f) then 1 else 0) /\
    out_ok mx conc am m' (in_op f) send out.

Lemma on_ack_refused s f a now h :
  ack_status a = STATUS_INVALID_ADDRESS -> op_handle (in_op f) = Some h ->
  exists stats, ls_heartbeats stats = ls_heartbeats (w_stats s) /\
    on_ack s f a now = apply_out (s <| w_stats := stats |>) (SDone (Some (h, refused (wrap 16 (expected_ack (in_op f) - 1))))) now.
Proof.
  intros Hs Hh. unfold on_ack. rewrite Hs. change (is_error STATUS_INVALID_ADDRESS) with true. cbv iota.
  destruct (in_op f); try discriminate; cbn [is_heartbeat op_handle] in *; simplify_eq;
    (eexists; split; [|reflexivity]; done).
Qed.

Lemma on_ack_success s f c id payload now :
  expected_ack (in_op f) = answer_of c ->
  on_ack s f (acked c id STATUS_SUCCESS payload) now =
  finish_ack (count s (set ls_acks bump)) (in_op f) (acked c id STATUS_SUCCESS payload) now.
Proof. intros H. unfold on_ack, acked. cbn [ack_status ack_answer]. by rewrite H, Z.eqb_refl. Qed.

Lemma chunks_of_pos n per : 1 <= chunks_of n per.
Proof. unfold chunks_of. lia. Qed.

(** One chunk less. *)
Lemma chunks_of_step n per : 0 < per -> per < n -> chunks_of (n - per) per + 1 <= chunks_of n per.
Proof.
  intros Hp Hn. unfold chunks_of, div_ceil.
  replace (n - per + per - 1) with (n + per - 1 + (-1) * per) by lia. rewrite Z.div_add by lia.
  assert (2 <= (n + per - 1) / per); [|lia]. apply Z.div_le_lower_bound; lia.
Qed.

Lemma stage_read_reg s f send mx am now h :
  in_op f = OpReadReg h -> bytes_ok am -> item_ok (OpReadReg h) send -> stage_ok s f send mx am now.
Proof.
  intros Hop Hm Hi. destruct Hi as [_ (a & -> & Ha)]. unfold stage_ok. rewrite Hop. cbn [stage_cmd dev_serve forallb].
  rewrite andb_true_r. destruct (in_mem am a 4) eqn:E.
  - exists (set ls_acks bump (w_stats s)). eexists (SDone (Some (h, Ok (RvReg (word am a))))).
    rewrite on_ack_success by (by rewrite Hop). rewrite Hop. split; [|split; [simpl; lia|split; [|right; simpl; lia]]].
    + unfold finish_ack, register_values, acked. cbn [ack_payload].
      rewrite (decode_words am [a]); [done|done|by constructor|by cbn; rewrite E].
    + cbn. by rewrite E.
  - destruct (on_ack_refused s f (acked (HReadReg [a]) (in_id f) STATUS_INVALID_ADDRESS []) now h) as (stats & Hs & He);
      [done|by rewrite Hop|].
    rewrite He. do 2 eexists. split; [reflexivity|]. split; [simpl; lia|]. rewrite Hop. split; [|right; simpl; lia].
    cbn. by rewrite E.
Qed.

Lemma stage_heartbeat s f send mx am now :
  in_op f = OpHeartbeat -> bytes_ok am -> zlen am = MEM_SIZE -> controlled am -> item_ok OpHeartbeat send ->
  stage_ok s f send mx am now.
Proof.
  intros Hop Hm Hl Hc [_ Hi]. simpl in Hi. subst send. unfold stage_ok. rewrite Hop. cbn [stage_cmd dev_serve].
  assert (forallb (fun a => in_mem am a 4) [CONTROL_CHANNEL_PRIVILEGE] = true) as E by (cbn; unfold in_mem; by rewrite Hl).
  rewrite E. exists (set ls_heartbeats bump (set ls_acks bump (w_stats s))), (SDone None).
  rewrite on_ack_success by (by rewrite Hop). rewrite Hop. split; [|split; [done|split; [done|by left]]].
  unfold finish_ack, register_values, acked. cbn [ack_payload].
  rewrite (decode_words am [_]); [|done|constructor; [const_range|constructor]|done]. cbn [fmap list_fmap].
  unfold controlled in Hc. destruct (Z.eqb_spec (Z.land (word am CONTROL_CHANNEL_PRIVILEGE) CCP_CONTROL) 0); [done|]. done.
Qed.

Lemma op_exchanges_regs_step (conc : bool) (rem : Z) :
  0 <= rem -> per_command conc rem <> rem ->
  1 <= (if conc then 1 else chunks_of (rem - per_command conc rem) 1) /\
  (if conc then 1 else chunks_of (rem - per_command conc rem) 1) + 1 <= (if conc then 1 else chunks_of rem 1).
Proof.
  intros H0 H. unfold per_command in *. destruct conc; [done|]. assert (1 < rem) by lia. replace (Z.min rem 1) with 1 by lia.
  split; [apply chunks_of_pos|]. apply chunks_of_step; lia.
Qed.

Lemma op_exchanges_regs_pos (conc : bool) (n : Z) : 1 <= if conc then 1 else chunks_of n 1.
Proof. destruct conc; [done|]. apply chunks_of_pos. Qed.

Lemma stage_read_regs s f send mx am now h addrs acc :
  in_op f = OpReadRegs h addrs acc -> bytes_ok am -> item_ok (OpReadRegs h addrs acc) send -> stage_ok s f send mx am now.
Proof.
  intros Hop Hm [[Hok Hfit] [Ha Hl]]. simpl in Hok. unfold stage_ok. rewrite Hop. cbn [stage_cmd dev_serve].
  set (conc := w_concatenation s). set (rem := zlen addrs - zlen acc).
  pose proof (per_command_bounds conc rem ltac:(unfold rem; lia)) as Hp.
  set (part := take _ _). set (rest := drop (length acc) addrs) in *.
  assert (rest = part ++ drop (Z.to_nat (per_command conc rem)) rest) as Hsplit by (symmetry; apply take_drop).
  assert (zlen part = per_command conc rem) as Hpl.
  { unfold part, rest, zlen in *. rewrite length_take, length_drop. lia. }
  destruct (forallb (fun a => in_mem am a 4) part) eqn:E.
  - set (acc' := acc ++ (word am <$> part)).
    assert (zlen acc' = zlen acc + per_command conc rem) as Hacc.
    { unfold acc'. rewrite zlen_app, <- Hpl. unfold zlen. by rewrite length_fmap. }
    exists (set ls_acks bump (w_stats s)).
    exists (if per_command conc rem =? rem then SDone (Some (h, Ok (RvRegs acc'))) else SNext (OpReadRegs h addrs acc') PsReadRegsChunk).
    rewrite on_ack_success by (by rewrite Hop). rewrite Hop. split; [|split; [simpl; lia|]].
    + unfold finish_ack, register_values, acked. cbn [ack_payload]. rewrite usize_sub_ok by done. cbn [mbind option_bind].
      rewrite (decode_words am part); [|done|by apply Forall_take, Forall_drop|done]. fold acc'.
      change (regs_per_command _) with (per_command conc). fold rem.
      replace (zlen (word am <$> part)) with (per_command conc rem) by (rewrite <- Hpl; unfold zlen; by rewrite length_fmap).
      rewrite Z.eqb_refl. cbn [negb]. rewrite Hacc.
      replace (zlen acc + per_command conc rem =? zlen addrs) with (per_command conc rem =? rem) by (unfold rem; lia).
      by destruct (_ =? _).
    + assert (drop (length acc') addrs = drop (Z.to_nat (per_command conc rem)) rest) as Hd.
      { unfold rest. rewrite drop_drop. f_equal. unfold zlen in Hacc. lia. }
      destruct (Z.eqb_spec (per_command conc rem) rem) as [He|He].
      * split; [|right; apply op_exchanges_regs_pos]. cbn [op_spec]. fold rest.
        assert (part = rest) as Hpr.
        { unfold part. apply take_ge. unfold rest, rem, zlen in *. rewrite length_drop. lia. }
        rewrite <- Hpr. by rewrite E.
      * destruct (op_exchanges_regs_step conc rem) as [H1 H2]; [unfold rem; lia|done|].
        cbn [out_ok op_exchanges]. fold conc. rewrite Hacc. replace (zlen addrs - (zlen acc + per_command conc rem)) with (rem - per_command conc rem) by (unfold rem; lia).
        split_and!; [|done| |done|done].
        -- split; [|done]. split; [|done]. cbn [op_ok]. rewrite Hacc. unfold rem in Hp |- *. lia.
        -- cbn [op_spec]. fold rest. rewrite Hd. set (tl := drop _ rest) in *. rewrite Hsplit, forallb_app, E, fmap_app. cbn [andb].
           unfold acc'. by rewrite app_assoc.
  - destruct (on_ack_refused s f (acked (HReadReg part) (in_id f) STATUS_INVALID_ADDRESS []) now h) as (stats & Hs & He);
      [done|by rewrite Hop|].
    rewrite He. do 2 eexists. split; [reflexivity|]. split; [simpl; lia|]. rewrite Hop. split; [|right; apply op_exchanges_regs_pos].
    cbn [op_spec]. fold rest. rewrite Hsplit, forallb_app, E. done.
Qed.

Lemma stage_write_regs s f send mx am now h pairs n :
  in_op f = OpWriteRegs h pairs n -> item_ok (OpWriteRegs h pairs n) send -> stage_ok s f send mx am now.
Proof.
  intros Hop [[Hok Hfit] (Ha & Hl & Hap)]. simpl in Hok. unfold stage_ok. rewrite Hop. cbn [stage_cmd dev_serve].
  set (conc := w_concatenation s). set (rem := zlen pairs - n).
  pose proof (per_command_bounds conc rem ltac:(unfold rem; lia)) as Hp.
  set (part := take _ _). set (rest := drop (Z.to_nat n) pairs) in *.
  assert (rest = part ++ drop (Z.to_nat (per_command conc rem)) rest) as Hsplit by (symmetry; apply take_drop).
  pose proof (write_pairs_app mx am part (drop (Z.to_nat (per_command conc rem)) rest)) as Happ. rewrite <- Hsplit in Happ.
  destruct (write_pairs mx am part) as [m1 ok] eqn:E. cbn [fst snd] in Happ. destruct ok.
  - exists (set ls_acks bump (w_stats s)).
    exists (if per_command conc rem =? rem then SDone (Some (h, Ok RvUnit)) else SNext (OpWriteRegs h pairs (n + per_command conc rem)) PsWriteRegsChunk).
    rewrite on_ack_success by (by rewrite Hop). rewrite Hop. split; [|split; [simpl; lia|]].
    + unfold finish_ack. rewrite usize_sub_ok by lia. cbn [mbind option_bind].
      change (regs_per_command _) with (per_command conc). fold rem.
      replace (zlen pairs <=? n + per_command conc rem) with (per_command conc rem =? rem) by (unfold rem in *; lia).
      by destruct (_ =? _).
    + destruct (Z.eqb_spec (per_command conc rem) rem) as [He|He].
      * split; [|right; apply op_exchanges_regs_pos]. cbn [op_spec contract]. fold rest. rewrite Happ, drop_ge; [done|].
        unfold rest, rem, zlen in *. rewrite length_drop. lia.
      * destruct (op_exchanges_regs_step conc rem) as [H1 H2]; [unfold rem; lia|done|].
        cbn [out_ok op_exchanges]. fold conc. replace (zlen pairs - (n + per_command conc rem)) with (rem - per_command conc rem) by (unfold rem; lia).
        split_and!; [|done| |done|done].
        -- split; [|done]. split; [|done]. cbn [op_ok]. unfold rem in Hp |- *. lia.
        -- cbn [op_spec contract]. fold rest. rewrite Happ. unfold rest. rewrite drop_drop.
           by replace (Z.to_nat n + Z.to_nat (per_command conc rem))%nat with (Z.to_nat (n + per_command conc rem)) by lia.
  - destruct (on_ack_refused s f (acked (HWriteReg part) (in_id f) STATUS_INVALID_ADDRESS []) now h) as (stats & Hs & He);
      [done|by rewrite Hop|].
    rewrite He. do 2 eexists. split; [reflexivity|]. split; [simpl; lia|]. rewrite Hop. split; [|right; apply op_exchanges_regs_pos].
    cbn [op_spec contract]. fold rest. by rewrite Happ.
Qed.

(** Reading and writing memory: a chunk that is not the last has full size. *)

Lemma next_multiple_sub n : next_multiple_of (n - DATA_SIZE_MAX) 4 = next_multiple_of n 4 - DATA_SIZE_MAX.
Proof.
  unfold next_multiple_of, div_ceil, DATA_SIZE_MAX. replace (n - 512 + 4 - 1) with (n + 4 - 1 + (-128) * 4) by lia.
  rewrite Z.div_add by lia. lia.
Qed.

Lemma read_chunk_last rem :
  0 <= rem -> rem <= chunk_len (next_multiple_of rem 4) -> chunk_len (next_multiple_of rem 4) = next_multiple_of rem 4.
Proof.
  intros H0 H. destruct (next_multiple_4 rem H0) as [H1 H2]. unfold chunk_len, DATA_SIZE_MAX in *.
  pose proof (Z.div_mod (next_multiple_of rem 4) 4). lia.
Qed.

Lemma read_chunk_full rem :
  0 <= rem -> chunk_len (next_multiple_of rem 4) < rem -> chunk_len (next_multiple_of rem 4) = DATA_SIZE_MAX.
Proof. intros H0 H. destruct (next_multiple_4 rem H0) as [H1 H2]. unfold chunk_len, DATA_SIZE_MAX in *. lia. Qed.

Lemma stage_read_mem s f send mx am now h acc want next :
  in_op f = OpReadMem h acc want next -> zlen am = MEM_SIZE -> item_ok (OpReadMem h acc want next) send ->
  stage_ok s f send mx am now.
Proof.
  intros Hop Hlen [[Hok Hfit] Hn]. simpl in Hok. unfold stage_ok. rewrite Hop. cbn [stage_cmd dev_serve].
  set (rem := want - zlen acc). set (cnt := chunk_len _).
  assert (0 <= rem) as Hrem by (unfold rem; lia). destruct (next_multiple_4 rem Hrem) as [Hm4 _].
  assert (0 <= cnt <= DATA_SIZE_MAX /\ cnt <= next_multiple_of rem 4) as [Hc Hc4] by (unfold cnt, chunk_len, DATA_SIZE_MAX; lia).
  replace (cnt <=? DATA_SIZE_MAX) with true by lia. rewrite andb_true_r. destruct (in_mem am next cnt) eqn:E.
  - unfold in_mem in E. set (n := Z.min cnt rem). set (acc' := acc ++ block am next n).
    assert (zlen (block am next cnt) = cnt) as Hbl by (apply zlen_block; width_lia).
    assert (zlen acc' = zlen acc + n) as Hacc by (unfold acc'; rewrite zlen_app, zlen_block; width_lia).
    exists (set ls_acks bump (w_stats s)).
    exists (if rem <=? cnt then SDone (Some (h, Ok (RvBytes acc'))) else SNext (OpReadMem h acc' want (next + DATA_SIZE_MAX)) PsReadMemChunk).
    rewrite on_ack_success by (by rewrite Hop). rewrite Hop. split; [|split; [simpl; lia|]].
    + unfold finish_ack, acked. cbn [ack_payload]. rewrite get_from_app by (by rewrite zlen_be_encode).
      rewrite usize_sub_ok by lia. cbn [mbind option_bind]. fold rem. rewrite Hbl. fold n.
      rewrite block_take by width_lia. fold acc'. rewrite Hacc.
      replace (want <=? zlen acc + n) with (rem <=? cnt) by (unfold n, rem; lia).
      destruct (rem <=? cnt) eqn:Er; [done|]. pose proof (read_chunk_full rem Hrem ltac:(lia)) as Hfull. fold cnt in Hfull.
      replace n with DATA_SIZE_MAX by lia. replace (cnt =? 0) with false by (unfold DATA_SIZE_MAX in *; lia).
      unfold MEM_SIZE, DATA_SIZE_MAX in *. rewrite (wrap_small 32 512), wrap_small by width_lia. done.
    + destruct (rem <=? cnt) eqn:Er.
      * split; [|right; apply chunks_of_pos]. cbn [op_spec]. fold rem. unfold in_mem.
        rewrite <- (read_chunk_last rem Hrem) by (fold cnt; lia). fold cnt. replace (_ <=? _) with true by lia.
        unfold acc'. by replace n with rem by lia.
      * pose proof (read_chunk_full rem Hrem ltac:(lia)) as Hfull. fold cnt in Hfull.
        assert (n = DATA_SIZE_MAX) as Hnn by lia. cbn [out_ok op_exchanges]. fold rem. rewrite Hacc, Hnn.
        replace (want - (zlen acc + DATA_SIZE_MAX)) with (rem - DATA_SIZE_MAX) by (unfold rem; lia).
        split_and!; [| done| |apply chunks_of_pos|apply chunks_of_step; [done|lia]].
        -- split; [split; [|done]|]; cbn [op_ok]; [lia|]. unfold MEM_SIZE, DATA_SIZE_MAX in *. width_lia.
        -- cbn [op_spec]. fold rem. rewrite Hacc, Hnn. replace (want - (zlen acc + DATA_SIZE_MAX)) with (rem - DATA_SIZE_MAX) by (unfold rem; lia).
           rewrite next_multiple_sub. unfold in_mem.
           replace (next + DATA_SIZE_MAX + (next_multiple_of rem 4 - DATA_SIZE_MAX)) with (next + next_multiple_of rem 4) by lia.
           destruct (next + next_multiple_of rem 4 <=? zlen am) eqn:Ein; [|done]. unfold acc'. rewrite Hnn, <- app_assoc, <- block_split by (unfold DATA_SIZE_MAX in *; width_lia).
           by replace (DATA_SIZE_MAX + (rem - DATA_SIZE_MAX)) with rem by lia.
  - destruct (on_ack_refused s f (acked (HReadMem next cnt) (in_id f) STATUS_INVALID_ADDRESS []) now h) as (stats & Hs & He);
      [done|by rewrite Hop|].
    rewrite He. do 2 eexists. split; [reflexivity|]. split; [simpl; lia|]. rewrite Hop. split; [|right; apply chunks_of_pos].
    cbn [op_spec]. fold rem. unfold in_mem in *. by replace (_ <=? _) with false by lia.
Qed.

(** Writing in chunks promises what writing at once does. *)
Lemma spec_write_chunk m a data :
  0 <= a -> DATA_SIZE_MAX < zlen data -> a + DATA_SIZE_MAX <= zlen m ->
  let part := take (Z.to_nat DATA_SIZE_MAX) data in
  spec_write (splice m a part) (a + DATA_SIZE_MAX) (drop (Z.to_nat DATA_SIZE_MAX) data) = spec_write m a data.
Proof.
  intros Ha Hd Hr part.
  assert (zlen part = DATA_SIZE_MAX) as Hp by (unfold part, zlen, DATA_SIZE_MAX in *; rewrite length_take; lia).
  set (rest := drop _ data). assert (zlen rest = zlen data - DATA_SIZE_MAX) as Hrl.
  { unfold rest, zlen, DATA_SIZE_MAX in *. rewrite length_drop. lia. }
  assert (data = part ++ rest) as Hsp by (symmetry; apply take_drop).
  unfold spec_write. rewrite zlen_splice by lia. rewrite Hrl.
  replace (zlen data - DATA_SIZE_MAX <=? zlen m - (a + DATA_SIZE_MAX)) with (zlen data <=? zlen m - a) by lia.
  destruct (_ <=? _) eqn:E.
  - f_equal. rewrite <- Hp at 1. rewrite splice_splice by lia. by rewrite <- Hsp.
  - f_equal. set (room := zlen m - a). replace (zlen m - (a + DATA_SIZE_MAX)) with (room + (-1) * DATA_SIZE_MAX) by (unfold room; lia).
    rewrite Z.div_add by done. set (k := room / DATA_SIZE_MAX).
    assert (1 <= k) as Hk by (apply Z.div_le_lower_bound; unfold room, DATA_SIZE_MAX in *; lia).
    assert (k * DATA_SIZE_MAX <= room) as Hkr by (unfold k; rewrite Z.mul_comm; by apply Z.mul_div_le).
    replace (Z.to_nat (k * DATA_SIZE_MAX)) with (Z.to_nat DATA_SIZE_MAX + Z.to_nat ((k + -1) * DATA_SIZE_MAX))%nat by (unfold DATA_SIZE_MAX; lia).
    rewrite <- take_take_drop. fold part rest. rewrite <- Hp at 1. rewrite splice_splice; [done|done|].
    unfold room, zlen, DATA_SIZE_MAX in *. rewrite length_take. lia.
Qed.

Lemma stage_write_mem s f send mx am now h data offset base :
  in_op f = OpWriteMem h data offset base -> zlen am = MEM_SIZE -> item_ok (OpWriteMem h data offset base) send ->
  stage_ok s f send mx am now.
Proof.
  intros Hop Hlen [[Hok Hfit] (Hb & Hd & Hdl & Hap & Hbase)]. simpl in Hok. unfold stage_ok. rewrite Hop. cbn [stage_cmd dev_serve].
  set (a := base + offset). set (rest := drop (Z.to_nat offset) data). set (len := zlen data - offset).
  assert (zlen rest = len) as Hrl by (unfold rest, len, zlen in *; rewrite length_drop; lia).
  assert (0 <= len) as Hlen0 by (unfold len; lia). set (part := take _ rest).
  assert (zlen part = chunk_len len) as Hp by (unfold part, chunk_len, zlen, DATA_SIZE_MAX in *; rewrite length_take; lia).
  assert (0 <= a) as Ha by (unfold a; lia). rewrite Hp. destruct (in_mem am a (chunk_len len)) eqn:E.
  - unfold in_mem in E. exists (set ls_acks bump (w_stats s)).
    exists (if len <=? DATA_SIZE_MAX then SDone (Some (h, Ok RvUnit)) else SNext (OpWriteMem h data (offset + DATA_SIZE_MAX) base) PsWriteMemChunk).
    rewrite on_ack_success by (by rewrite Hop). rewrite Hop. split; [|split; [simpl; lia|]].
    + unfold finish_ack. rewrite usize_sub_ok by lia. cbn [mbind option_bind]. fold len.
      replace (zlen data <=? offset + chunk_len len) with (len <=? DATA_SIZE_MAX) by (unfold chunk_len, len, DATA_SIZE_MAX; lia).
      destruct (len <=? DATA_SIZE_MAX) eqn:Er; [done|]. by replace (chunk_len len) with DATA_SIZE_MAX by (unfold chunk_len; lia).
    + destruct (len <=? DATA_SIZE_MAX) eqn:Er.
      * split; [|right; apply chunks_of_pos]. cbn [op_spec contract]. fold rest a. unfold spec_write. rewrite Hrl.
        replace (chunk_len len) with len in * by (unfold chunk_len; lia). replace (len <=? zlen am - a) with true by lia.
        unfold part. rewrite take_ge; [done|]. unfold chunk_len, zlen in *. lia.
      * replace (chunk_len len) with DATA_SIZE_MAX in * by (unfold chunk_len; lia).
        cbn [out_ok op_exchanges]. fold len. replace (zlen data - (offset + DATA_SIZE_MAX)) with (len - DATA_SIZE_MAX) by (unfold len; lia).
        split_and!; [|done| |apply chunks_of_pos|apply chunks_of_step; [done|lia]].
        -- split; [split; [|done]|]; cbn [op_ok]; [unfold len, DATA_SIZE_MAX in *; lia|]. split_and!; [|done..].
           unfold a, MEM_SIZE, DATA_SIZE_MAX in *. width_lia.
        -- cbn [op_spec contract]. fold a rest. replace (base + (offset + DATA_SIZE_MAX)) with (a + DATA_SIZE_MAX) by (unfold a; lia).
           replace (drop (Z.to_nat (offset + DATA_SIZE_MAX)) data) with (drop (Z.to_nat DATA_SIZE_MAX) rest)
             by (unfold rest; rewrite drop_drop; f_equal; unfold DATA_SIZE_MAX; lia).
           unfold part. replace (chunk_len len) with DATA_SIZE_MAX by (unfold chunk_len; lia). by rewrite spec_write_chunk by lia.
  - destruct (on_ack_refused s f (acked (HWriteMem a part) (in_id f) STATUS_INVALID_ADDRESS []) now h) as (stats & Hs & He);
      [done|by rewrite Hop|].
    rewrite He. do 2 eexists. split; [reflexivity|]. split; [simpl; lia|]. rewrite Hop. split; [|right; apply chunks_of_pos].
    cbn [op_spec contract]. fold a rest. unfold spec_write, in_mem in *. rewrite Hrl.
    assert (zlen am - a < chunk_len len) as Hr by lia. unfold chunk_len in Hr.
    replace (len <=? zlen am - a) with false by lia.
    assert ((zlen am - a) / DATA_SIZE_MAX <= 0) by (apply Z.lt_succ_r, Z.div_lt_upper_bound; unfold DATA_SIZE_MAX in *; lia).
    replace (Z.to_nat _) with 0%nat by (unfold DATA_SIZE_MAX in *; lia). by rewrite take_0, splice_nil.
Qed.

Lemma stage s f send mx am now :
  bytes_ok am -> zlen am = MEM_SIZE -> controlled am -> item_ok (in_op f) send -> stage_ok s f send mx am now.
Proof.
  intros Hm Hl Hc Hi. destruct (in_op f) eqn:Hop.
  - by eapply stage_read_reg.
  - by eapply stage_read_regs.
  - by eapply stage_write_regs.
  - by eapply stage_read_mem.
  - by eapply stage_write_mem.
  - by eapply stage_heartbeat.
Qed.

(** No exchange touches the privilege register. *)
Lemma stage_controlled conc mx m op send :
  item_ok op send -> controlled m -> controlled (dev_serve mx m (stage_cmd conc op send)).1.
Proof.
  intros [[Hok Hfit] Hi] Hc. unfold controlled.
  destruct op as [h|h addrs acc|h pairs n|h acc want next|h data offset base|]; destruct send; try done; cbn [stage_cmd dev_serve].
  - set (part := take _ _). destruct (write_pairs mx m part) as [m1 ok] eqn:E. simpl.
    destruct Hi as (H1 & _ & H2). pose proof (word_write_pairs mx m part CONTROL_CHANNEL_PRIVILEGE) as H. rewrite E in H. simpl in H.
    rewrite H; [done|by apply Forall_take, Forall_drop|]. apply Forall_take, Forall_drop. eapply Forall_impl; [exact H2|].
    intros [a v]. unfold apart. lia.
  - simpl in Hok. destruct Hi as (H1 & _ & _ & H2 & H3). set (part := take _ _). unfold in_mem.
    assert (zlen part <= zlen data - offset) by (unfold part, zlen in *; rewrite length_take, length_drop; lia).
    destruct (_ <=? _) eqn:E; simpl; [|done]. pose proof (zlen_nonneg part).
    rewrite word_splice_other; [done|width_lia|lia|]. unfold apart in H2. lia.
Qed.
