(* ===== verification/ControlRefine.v ===== *)
(** The control link carries out the contract.

    The simulation: [work] is everything the worker still has to do (the
    exchange in flight, its queue, the channel), [am] the device's memory
    before the exchange in flight.  [link_inv] relates them to a link, and
    every hop keeps what [abs_run] promises for them. *)

From stdpp Require Import gmap.
From S2P Require Import Prelude Gvcp Gvsp Channel Frame Text Bootstrap Zip Url Emulator DeviceControl.
From S2P Require Import Errors Control ControlInv DeviceSpec ControlLink.

(** * Work and what it promises *)

Abbreviation Item := (Op * PendingSend)%type.

Definition msg_item (msg : ToWorker) : Item :=
  match msg with
  | TwReadReg a h => (OpReadReg h, PsReadRegs [a])
  | TwReadRegs addrs h => (OpReadRegs h addrs [], PsReadRegsChunk)
  | TwWriteRegs pairs h => (OpWriteRegs h pairs 0, PsWriteRegsChunk)
  | TwReadMem a len h => (OpReadMem h [] (wrap 32 len) a, PsReadMemChunk)
  | TwWriteMem a data h => (OpWriteMem h data 0 a, PsWriteMemChunk)
  | TwSubscribeEvents _ | TwShutdown => (OpHeartbeat, PsReadRegs [])
  end.

Fixpoint abs_run (mx : option Z) (m : bytes) (hs : Handles) (work : list Item) : bytes * Handles :=
  match work with
  | [] => (m, hs)
  | (op, send) :: work => abs_run mx (op_spec mx m op send).1 (answer hs (op_spec mx m op send).2) work
  end.

Definition work_exchanges (conc : bool) (work : list Item) : Z :=
  foldr Z.add 0 ((fun i => op_exchanges conc i.1) <$> work).

Lemma work_exchanges_app conc w1 w2 : work_exchanges conc (w1 ++ w2) = work_exchanges conc w1 + work_exchanges conc w2.
Proof.
  unfold work_exchanges. induction w1 as [|i w1 IH]; [done|]. cbn [app]. rewrite !fmap_cons. cbn [foldr]. lia.
Qed.

Lemma work_exchanges_cons conc i work : work_exchanges conc (i :: work) = op_exchanges conc i.1 + work_exchanges conc work.
Proof. done. Qed.

(** Heartbeats promise nothing. *)
Lemma abs_run_heartbeat mx m hs w1 send w2 : abs_run mx m hs (w1 ++ (OpHeartbeat, send) :: w2) = abs_run mx m hs (w1 ++ w2).
Proof. revert m hs. induction w1 as [|[op s] w1 IH]; intros m hs; simpl; [done|apply IH]. Qed.

Definition item (i : Item) : Prop := item_ok i.1 i.2.

Lemma op_exchanges_bounds conc op send :
  item_ok op send -> if is_heartbeat op then op_exchanges conc op = 0 else 1 <= op_exchanges conc op.
Proof.
  intros _. destruct op; simpl; try done; try apply op_exchanges_regs_pos; apply chunks_of_pos.
Qed.

Lemma work_exchanges_nonneg conc work : Forall item work -> 0 <= work_exchanges conc work.
Proof.
  induction 1 as [|[op send] work Hi _ IH]; [done|]. rewrite work_exchanges_cons.
  pose proof (op_exchanges_bounds conc op send Hi). simpl in *. destruct (is_heartbeat op); lia.
Qed.

(** No exchange is left: nothing more is promised. *)
Lemma work_done mx m hs conc work :
  Forall item work -> work_exchanges conc work = 0 ->
  abs_run mx m hs work = (m, hs) /\ Forall (fun i => is_heartbeat i.1 = true) work.
Proof.
  induction 1 as [|[op send] work Hi Hw IH]; [done|]. rewrite work_exchanges_cons. intros H0.
  pose proof (op_exchanges_bounds conc op send Hi) as Hb. pose proof (work_exchanges_nonneg conc work Hw). simpl in *.
  destruct (is_heartbeat op) eqn:E; [|lia]. destruct IH as [IH1 IH2]; [lia|].
  split; [|by constructor]. destruct op; try discriminate. done.
Qed.

Lemma msg_item_ok msg : request_ok msg -> item (msg_item msg).
Proof.
  destruct msg as [a h|addrs h|pairs h|a len h|a data h| |]; cbn [request_ok]; intros H; try done; unfold item, item_ok; simpl.
  - split; [done|by exists a].
  - split; [split; [apply zlen_nonneg|done]|done].
  - destruct H as (H1 & H2 & H3). split; [split; [pose proof (zlen_nonneg pairs); simpl; lia|done]|done].
  - destruct H as [H1 H2]. split; [|done]. split; [|done]. simpl. rewrite zlen_nil. by apply wrap_range.
  - destruct H as (H1 & H2 & H3 & H4). pose proof (zlen_nonneg data). split; [split; [simpl; lia|done]|].
    split_and!; [by rewrite Z.add_0_r|done|width_lia|done|width_lia].
Qed.

Lemma msg_item_spec mx m msg : request_ok msg -> op_spec mx m (msg_item msg).1 (msg_item msg).2 = contract mx m msg.
Proof.
  destruct msg as [a h|addrs h|pairs h|a len h|a data h| |]; cbn [request_ok]; intros H; try done; simpl.
  - rewrite zlen_nil, Z.sub_0_r, wrap_small by width_lia. done.
  - by rewrite Z.add_0_r.
Qed.

Lemma msg_item_exchanges conc msg : request_ok msg -> op_exchanges conc (msg_item msg).1 = msg_exchanges conc msg.
Proof.
  destruct msg as [a h|addrs h|pairs h|a len h|a data h| |]; cbn [request_ok]; intros H; try done; simpl.
  - by rewrite zlen_nil, Z.sub_0_r.
  - by rewrite Z.sub_0_r.
  - rewrite zlen_nil, Z.sub_0_r, wrap_small by width_lia. done.
  - by rewrite Z.sub_0_r.
Qed.

(** The requests' contract is the promise of their work. *)
Lemma abs_run_msgs mx m hs msgs :
  Forall request_ok msgs -> abs_run mx m hs (msg_item <$> msgs) = contract_all mx m hs msgs.
Proof.
  intros H. revert m hs. induction H as [|msg msgs Hm _ IH]; intros m hs; [done|].
  rewrite fmap_cons. pose proof (msg_item_spec mx m msg Hm) as E. destruct (msg_item msg) as [op send]. cbn [abs_run contract_all fst snd] in *.
  rewrite E. destruct (contract mx m msg) as [m' a]. apply IH.
Qed.

Lemma work_exchanges_msgs conc msgs :
  Forall request_ok msgs -> work_exchanges conc (msg_item <$> msgs) = exchanges conc msgs.
Proof.
  induction 1 as [|msg msgs Hm _ IH]; [done|]. rewrite fmap_cons, work_exchanges_cons, IH.
  by rewrite msg_item_exchanges.
Qed.

(** * The invariant *)

Definition hb (w : Runner) : Z := ls_heartbeats (w_stats w).

Section refine.
(** No clock reading of the run is later than [T]. *)
Variable T : Z.

(** What the network has: nothing, or the command in flight, and then one loss
    is still to be made good by a retry. *)
Definition on_wire (seen : nat) (w : Runner) (f : Inflight) (left : Z) : Prop :=
  drop seen (w_sent w) = [] /\ left + 1 <= in_tries_left f \/
  (exists retry, drop seen (w_sent w) = [(in_sent f, w_device_addr w, retry)]) /\ left <= in_tries_left f.

(** The exchange in flight: not begun, or sent, and executed or not. *)
Definition flight (seen : nat) (w : Runner) (d : GigeDevice) (host : Z * Z) (am : bytes) (fl : list Item) (left : Z) : Prop :=
  match w_inflight w with
  | None =>
      fl = [] /\ d_mem d = am /\ (forall c i r, d_last_reply d !! host = Some (c, i, r) -> i = w_next_id w) /\
      drop seen (w_sent w) = []
  | Some f =>
      exists send, fl = [(in_op f, send)] /\ in_id f = w_next_id w /\ on_wire seen w f left /\
        in_sent f = HostCmd_encode (stage_cmd (w_concatenation w) (in_op f) send) (in_id f) /\
        serving d host (stage_cmd (w_concatenation w) (in_op f) send) (in_id f) am /\
        in_deadline f <= T + gc_gvcp_timeout (w_cfg w)
  end.

Record link_inv (seen : nat) (w : Runner) (d : GigeDevice) (host : Z * Z) (am : bytes) (work : list Item) (left : Z) : Prop := {
  li_seen : (seen <= length (w_sent w))%nat;
  li_capacity : q_capacity (w_rx w) = None;
  li_receiver : q_receiver (w_rx w) = true;
  li_io : w_io w = [];
  li_lost : w_control_lost w = false;
  li_timeout : 0 < gc_gvcp_timeout (w_cfg w);
  li_id : 0 <= w_next_id w <= 0xfffe;
  li_dev : dev_ok d;
  li_am : bytes_ok am;
  li_len : zlen am = MEM_SIZE;
  li_ctl : controlled am;
  li_left : 0 <= left <= gc_retries (w_cfg w);
  li_queue : length (w_queue w) = length (w_queued_payloads w);
  li_items : Forall item work;
  li_work : exists fl, flight seen w d host am fl left /\
    work = fl ++ zip (w_queue w) (w_queued_payloads w) ++ (msg_item <$> q_items (w_rx w)) }.

(** One step of the simulation: the promise stays; with [k] the exchanges it
    completes, heartbeats counted apart. *)
Record simulates (mx : option Z) (w : Runner) (am : bytes) (work : list Item)
    (w' : Runner) (am' : bytes) (work' : list Item) (k : Z) : Prop := {
  sm_cfg : w_cfg w' = w_cfg w;
  sm_conc : w_concatenation w' = w_concatenation w;
  sm_addr : w_device_addr w' = w_device_addr w;
  sm_abs : abs_run mx am' (w_handles w') work' = abs_run mx am (w_handles w) work;
  sm_less : work_exchanges (w_concatenation w) work' <= work_exchanges (w_concatenation w) work;
  sm_step : work_exchanges (w_concatenation w) work' + k <= work_exchanges (w_concatenation w) work + (hb w' - hb w) }.

Lemma simulates_refl mx w am work : simulates mx w am work w am work 0.
Proof. split; try done; lia. Qed.

Lemma simulates_trans mx w am work w1 am1 work1 w2 am2 work2 k1 k2 :
  simulates mx w am work w1 am1 work1 k1 -> simulates mx w1 am1 work1 w2 am2 work2 k2 ->
  simulates mx w am work w2 am2 work2 (k1 + k2).
Proof.
  intros [A1 A2 A3 A4 A5 A6] [B1 B2 B3 B4 B5 B6]. rewrite A2 in *. split; try congruence; lia.
Qed.

(** The work of an idle worker is its queue and its channel. *)
Lemma idle_work seen w d host am work left :
  link_inv seen w d host am work left -> w_inflight w = None ->
  d_mem d = am /\ work = zip (w_queue w) (w_queued_payloads w) ++ (msg_item <$> q_items (w_rx w)) /\
  (forall c i r, d_last_reply d !! host = Some (c, i, r) -> i = w_next_id w) /\ drop seen (w_sent w) = [].
Proof.
  intros Hi Hn. destruct (li_work _ _ _ _ _ _ _ Hi) as (fl & Hf & ->). unfold flight in Hf. rewrite Hn in Hf.
  by destruct Hf as (-> & ? & ? & ?).
Qed.

(** Without an exchange in flight the number of losses still allowed is free. *)
Lemma idle_left seen w d host am work left left' :
  link_inv seen w d host am work left -> w_inflight w = None -> 0 <= left' <= gc_retries (w_cfg w) ->
  link_inv seen w d host am work left'.
Proof.
  intros [] Hn Hl. split; try done. destruct li_work0 as (fl & Hf & Hw). exists fl. split; [|done].
  unfold flight in *. by rewrite Hn in *.
Qed.

(** * The steps of a pass *)

(** What is in flight and what was sent. *)
Definition wires (w : Runner) := (w_inflight w, w_sent w).

(** The fields the simulation reads and most steps leave alone. *)
Definition face (w : Runner) := (w_cfg w, w_concatenation w, w_device_addr w, w_handles w, hb w).

Lemma simulates_face mx w am work w' work' :
  face w' = face w -> (forall hs, abs_run mx am hs work' = abs_run mx am hs work) ->
  work_exchanges (w_concatenation w) work' = work_exchanges (w_concatenation w) work ->
  simulates mx w am work w' am work' 0.
Proof. unfold face. intros [= E1 E2 E3 E4 E5] Ha Hx. split; try done; [by rewrite E4|lia|lia]. Qed.

Lemma next_id_fresh id : 0 <= id <= 0xfffe -> next_id id <> id.
Proof. unfold next_id. intros. destruct (_ <=? _) eqn:E; lia. Qed.

Lemma send_op_sim seen w d host am work left op send now :
  link_inv seen w d host am work left -> w_inflight w = None -> item_ok op send -> now <= T ->
  exists w' f, send_op w op send now = Some w' /\ link_inv seen w' d host am ((op, send) :: work) (gc_retries (w_cfg w)) /\
    face w' = face w /\ w_inflight w' = Some f /\ now < in_deadline f /\ w_rx w' = w_rx w.
Proof.
  intros Hi Hn Hit HT. destruct (idle_work _ _ _ _ _ _ _ Hi Hn) as (Hm & Hw & Hcache & Hwire). destruct Hi.
  unfold send_op. set (s1 := w <| w_next_id ::= next_id |>).
  pose proof (next_id_range (w_next_id w) ltac:(lia)) as Hid.
  destruct (encode_stage s1 op send (w_next_id s1) Hit) as [-> Hc]. cbn [mbind option_bind].
  unfold send_to. change (w_io s1) with (w_io w). rewrite li_io0. cbn [negb].
  do 2 eexists. split; [reflexivity|]. split; [|split_and!; [done|reflexivity|simpl; lia|done]].
  split; try done; [simpl; rewrite length_app; lia|simpl; lia|simpl; lia|by apply Forall_cons|]. exists [(op, send)]. split; [|by rewrite Hw].
  exists send. split_and!; [done|done| |done| |simpl; lia].
  { right. split; [|simpl; lia]. exists false. cbn. by rewrite drop_app_le, Hwire by done. }
  apply unserved; [done|].
  intros reply Hr. apply Hcache in Hr. change (w_next_id s1) with (next_id (w_next_id w)) in Hr.
  by apply (next_id_fresh (w_next_id w)).
Qed.

(** Commands submitted join the work. *)
Lemma submit_sim msgs seen w d host am work left :
  link_inv seen w d host am work left -> Forall request_ok msgs ->
  let w' := foldl submit w msgs in
  link_inv seen w' d host am (work ++ (msg_item <$> msgs)) left /\ face w' = face w /\ wires w' = wires w /\
  q_items (w_rx w') = q_items (w_rx w) ++ msgs.
Proof.
  intros Hi Hms. revert w work Hi. induction Hms as [|msg msgs Hm _ IH]; intros w work Hi; cbv zeta.
  { cbn [foldl fmap list_fmap]. by rewrite !app_nil_r. }
  cbn [foldl]. set (w1 := submit w msg).
  assert (link_inv seen w1 d host am (work ++ [msg_item msg]) left /\ face w1 = face w /\ wires w1 = wires w /\
          q_items (w_rx w1) = q_items (w_rx w) ++ [msg]) as (Hi1 & Hf1 & Hn1 & Hq1).
  { destruct Hi. unfold w1, submit. cbn [try_send queue_chan]. unfold queue_try_send. rewrite li_receiver0, li_capacity0. cbn [negb].
    split; [|done]. split; try done.
    - apply Forall_app. split; [done|]. constructor; [by apply msg_item_ok|done].
    - destruct li_work0 as (fl & Hf & ->). exists fl. split; [exact Hf|].
      cbn [q_items w_rx set set_w_rx]. rewrite fmap_app, <- !app_assoc. done. }
  destruct (IH w1 _ Hi1) as (Hi2 & Hf2 & Hn2 & Hq2). split_and!; [|by rewrite Hf2|by rewrite Hn2|by rewrite Hq2, Hq1, <- app_assoc].
  rewrite fmap_cons. by rewrite <- app_assoc in Hi2.
Qed.

(** The channel is emptied into the queue; the work stays. *)
Lemma zip_app_same {A B} (l l' : list A) (k k' : list B) :
  length l = length k -> zip (l ++ l') (k ++ k') = zip l k ++ zip l' k'.
Proof. intros H. by apply zip_with_app. Qed.

Lemma on_command_request w msg :
  request_ok msg -> on_command w msg = (false, enqueue w (msg_item msg).1 (msg_item msg).2).
Proof. destruct msg; done. Qed.

Lemma drain_commands_sim n seen w d host am work left :
  link_inv seen w d host am work left -> Forall request_ok (q_items (w_rx w)) -> n = length (q_items (w_rx w)) ->
  exists w', ctl_drain_commands_n n w = (false, w') /\ link_inv seen w' d host am work left /\ face w' = face w /\
    wires w' = wires w /\ q_items (w_rx w') = [].
Proof.
  revert w. induction n as [|n IH]; intros w Hi Hr Hn.
  { exists w. cbn [ctl_drain_commands_n]. split_and!; try done. by destruct (q_items (w_rx w)). }
  destruct (q_items (w_rx w)) as [|msg items] eqn:Eq; [discriminate|]. injection Hn as Hn. apply Forall_cons in Hr as [Hm Hr].
  cbn [ctl_drain_commands_n try_recv queue_chan]. unfold queue_try_recv. rewrite Eq, on_command_request by done.
  match goal with |- context [enqueue ?u ?a ?b] => set (w1 := enqueue u a b) end.
  assert (link_inv seen w1 d host am work left) as Hi1.
  { destruct Hi. split; try done.
    - cbn. rewrite !length_app. simpl. lia.
    - destruct li_work0 as (fl & Hf & ->). exists fl. split; [exact Hf|]. rewrite Eq. cbn.
      rewrite zip_app_same by done. rewrite <- app_assoc. by destruct (msg_item msg). }
  destruct (IH w1 Hi1) as (w' & Hd & Hi' & Hf' & Hn' & Hq'); [done|done|].
  exists w'. split_and!; try done.
Qed.

(** A command that is due and not on the wire goes out again. *)
Lemma deadline_sim seen w d host am work left now :
  link_inv seen w d host am work left -> now <= T ->
  (forall f, w_inflight w = Some f -> now < in_deadline f) \/ drop seen (w_sent w) = [] ->
  let w' := check_inflight_deadline w now now in
  link_inv seen w' d host am work left /\ face w' = face w /\ w_rx w' = w_rx w /\
  (forall f, w_inflight w' = Some f -> drop seen (w_sent w') = [] -> now < in_deadline f).
Proof.
  intros Hi HT Hq. cbv zeta. unfold check_inflight_deadline. destruct (w_inflight w) as [f|] eqn:Hf.
  2: { split_and!; try done. by rewrite Hf. }
  destruct (now <? in_deadline f) eqn:Hd.
  { split_and!; try done. rewrite Hf. intros g [= <-] _. lia. }
  destruct Hq as [Hq|Hwire]; [specialize (Hq f eq_refl); lia|].
  destruct Hi. destruct li_work0 as (fl & Hfl & Hw). unfold flight in Hfl. rewrite Hf in Hfl.
  destruct Hfl as (send & Efl & Hid & Ht & Hs & Hsv & _).
  assert (left + 1 <= in_tries_left f) as Htries by (destruct Ht as [[_ ?]|[[? E] _]]; [done|congruence]).
  replace (0 <? in_tries_left f) with true by lia. unfold send_to.
  match goal with |- context [w_io ?u] => change (w_io u) with (w_io w) end. rewrite li_io0. cbn [snd].
  split; [|split_and!; try done].
  - split; try done; [simpl; rewrite length_app; lia|]. exists fl. split; [|done].
    exists send. split_and!; try done; [|simpl; lia]. right. split; [|simpl; lia]. exists true. cbn. by rewrite drop_app_le, Hwire by done.
  - intros g _. cbn. rewrite drop_app_le, Hwire by done. discriminate.
Qed.

(** A heartbeat that falls due joins the queue. *)
Lemma heartbeat_sim mx seen w d host am work left now :
  link_inv seen w d host am work left -> q_items (w_rx w) = [] ->
  exists w' work', check_heartbeat w now now = w' /\ link_inv seen w' d host am work' left /\
    simulates mx w am work w' am work' 0 /\ q_items (w_rx w') = [] /\ wires w' = wires w.
Proof.
  intros Hi Hq. unfold check_heartbeat. destruct (now <? w_heartbeat_due w).
  { exists w, work. split_and!; try done. apply simulates_refl. }
  set (w1 := w <| w_heartbeat_due := _ |>). assert (link_inv seen w1 d host am work left) as Hi1 by (by destruct Hi).
  destruct (pending_heartbeat w1).
  { exists w1, work. split_and!; try done. by apply simulates_face. }
  destruct Hi. destruct li_work0 as (fl & Hfl & Hw). rewrite Hq in Hw. cbn [fmap list_fmap] in Hw. rewrite app_nil_r in Hw.
  set (item0 := (OpHeartbeat, PsReadRegs [CONTROL_CHANNEL_PRIVILEGE])).
  assert (item item0) as Hit by (split; [done|done]).
  eexists _, (fl ++ item0 :: zip (w_queue w) (w_queued_payloads w)). split; [reflexivity|]. split_and!; try done.
  - split; try done; [simpl; lia| |].
    + subst work. apply Forall_app in li_items0 as [H1 H2]. apply Forall_app. split; [done|]. by constructor.
    + exists fl. split; [exact Hfl|]. cbn. rewrite Hq. cbn. by rewrite app_nil_r.
  - apply simulates_face; [done| |]; subst work.
    + intros hs. apply abs_run_heartbeat.
    + rewrite !work_exchanges_app. done.
Qed.

(** The next exchange is sent when none is in flight; then there is either
    one in flight or no work at all. *)
Lemma pump_sim mx seen w d host am work left now :
  link_inv seen w d host am work left -> q_items (w_rx w) = [] -> now <= T ->
  (forall f, w_inflight w = Some f -> drop seen (w_sent w) = [] -> now < in_deadline f) ->
  exists w', pump w now = Some w' /\ link_inv seen w' d host am work left /\ simulates mx w am work w' am work 0 /\
    q_items (w_rx w') = [] /\ (w_inflight w' = None -> work = []) /\
    (forall f, w_inflight w' = Some f -> drop seen (w_sent w') = [] -> now < in_deadline f).
Proof.
  intros Hi Hq HT Hdue. unfold pump. destruct (w_inflight w) as [f|] eqn:Hf.
  { exists w. split_and!; try done; [apply simulates_refl|congruence|by rewrite Hf]. }
  destruct (idle_work _ _ _ _ _ _ _ Hi Hf) as (_ & Hw & _ & _). rewrite Hq in Hw. cbn [fmap list_fmap] in Hw. rewrite app_nil_r in Hw.
  pose proof (li_queue _ _ _ _ _ _ _ Hi) as Hlen.
  destruct (w_queue w) as [|op queue] eqn:Eq, (w_queued_payloads w) as [|send payloads] eqn:Ep; try discriminate.
  { eexists. split; [reflexivity|]. split; [|split; [by apply simulates_face|split_and!; try done; cbn; by rewrite Hf]].
    destruct Hi. destruct li_work0 as (fl & Hfl & Hw'). rewrite Eq, Ep in Hw'. split; try done; cbn; rewrite ?Eq, ?Ep; try done.
    by exists fl. }
  set (w1 := w <| w_queue := queue |> <| w_queued_payloads := payloads |>).
  cbn [zip zip_with] in Hw. assert (link_inv seen w1 d host am (zip queue payloads) left) as Hi1.
  { destruct Hi. subst work. apply Forall_cons in li_items0 as [_ H2]. split; try done; [simpl in *; lia|].
    exists []. split; [|cbn; by rewrite Hq, app_nil_r]. destruct li_work0 as (fl & Hfl & _). unfold flight in *.
    change (w_inflight w1) with (w_inflight w). rewrite Hf in *. by destruct Hfl as (_ & ? & ? & ?). }
  destruct (send_op_sim seen w1 d host am _ left op send now Hi1 Hf) as (w' & f & Hs & Hi2 & Hfc & Hn & Hdl & Hrx).
  { destruct Hi. subst work. by apply Forall_cons in li_items0 as [H1 _]. } { done. }
  exists w'. split; [done|]. split; [|split; [by apply simulates_face|split_and!; [by rewrite Hrx|congruence|rewrite Hn; by intros g [= <-]]]].
  subst work. pose proof (li_left _ _ _ _ _ _ _ Hi) as Hleft. destruct Hi2.
  assert (w_cfg w' = w_cfg w) as Hcfg by (by injection Hfc). split; try done; [by rewrite Hcfg|].
  destruct li_work0 as (fl & Hfl & Hw2). exists fl. split; [|done]. unfold flight in *. rewrite Hn in *.
  destruct Hfl as (sd & ? & ? & Hon & ? & ? & ?). exists sd. split_and!; try done. change (w_cfg w1) with (w_cfg w) in *.
  unfold on_wire in *. destruct Hon as [[? ?]|[? ?]]; [left|right]; split; (done || lia).
Qed.

(** * An acknowledge arrives *)

Lemma dev_serve_status mx m c :
  (dev_serve mx m c).2.1 = STATUS_SUCCESS \/ (dev_serve mx m c).2.1 = STATUS_INVALID_ADDRESS.
Proof.
  destruct c as [addrs|pairs|a n|a data|]; simpl; [| | | |by left].
  - destruct (forallb _ _); auto.
  - destruct (write_pairs mx m pairs) as [m1 []]; auto.
  - destruct (_ && _); auto.
  - destruct (in_mem _ _ _); auto.
Qed.

(** The worker takes the acknowledge for the exchange in flight. *)
Lemma on_datagram_ack w f c status payload src now :
  w_inflight w = Some f -> u16_ok (in_id f) -> worker_cmd c -> zlen payload <= U16_MAX ->
  status = STATUS_SUCCESS \/ status = STATUS_INVALID_ADDRESS ->
  on_datagram w (ack status (answer_of c) (in_id f) payload) src now =
  on_ack (w <| w_inflight := None |>) f (acked c (in_id f) status payload) now.
Proof.
  intros Hf Hid Hc Hp Hs. unfold on_datagram.
  assert (is_cmd (ack status (answer_of c) (in_id f) payload) = false) as -> by (by destruct Hs as [-> | ->]).
  assert (u16_ok status) by (destruct Hs as [-> | ->]; const_range).
  assert (u16_ok (answer_of c)) by (destruct c; const_range).
  rewrite Ack_parse_ack by done. rewrite Hf. cbn [ack_id]. rewrite Z.eqb_refl. cbn [negb].
  assert (pending_ack_timeout_ms (acked c (in_id f) status payload) = None) as Hpa by (by destruct c).
  unfold acked in Hpa. by rewrite Hpa.
Qed.

(** The device has executed the command in flight: a reply is cached, and the
    worker would be idle but for the acknowledge. *)
Lemma take_flight seen w d d' host am work left f send m' (c := stage_cmd (w_concatenation w) (in_op f) send) reply rest :
  link_inv seen w d host am work left -> w_inflight w = Some f -> work = (in_op f, send) :: rest ->
  rest = zip (w_queue w) (w_queued_payloads w) ++ (msg_item <$> q_items (w_rx w)) ->
  in_id f = w_next_id w -> dev_ok d' -> d_mem d' = m' -> controlled m' ->
  d_last_reply d' !! host = Some (HostCmd_opcode c, in_id f, reply) ->
  link_inv (length (w_sent w)) (w <| w_inflight := None |>) d' host m' rest (gc_retries (w_cfg w)).
Proof.
  intros Hi Hf Hw Hr Hid Hd Hm Hc Hl. destruct Hi. subst work m'. apply Forall_cons in li_items0 as [_ Hit].
  destruct Hd as [D1 D2 D3]. split; try done; [simpl; lia|]. exists []. split; [|exact Hr].
  unfold flight. cbn. split_and!; try done; [|apply drop_all]. intros c' i r. rewrite Hl. intros [= _ <- _]. done.
Qed.

(** A later stage goes on the wire at once, or waits behind a heartbeat. *)
Lemma continue_sim mx seen w d host am work left op send now :
  link_inv seen w d host am work left -> w_inflight w = None -> item_ok op send -> is_heartbeat op = false -> now <= T ->
  exists w' work', continue_op w op send now = Some w' /\ link_inv seen w' d host am work' (gc_retries (w_cfg w)) /\
    simulates mx w am ((op, send) :: work) w' am work' 0 /\ w_rx w' = w_rx w /\
    forall f, w_inflight w' = Some f -> now < in_deadline f.
Proof.
  intros Hi Hn Hit Hb HT.
  assert (exists w' work', send_op w op send now = Some w' /\ link_inv seen w' d host am work' (gc_retries (w_cfg w)) /\
    simulates mx w am ((op, send) :: work) w' am work' 0 /\ w_rx w' = w_rx w /\
    forall f, w_inflight w' = Some f -> now < in_deadline f) as Hsend.
  { destruct (send_op_sim seen w d host am work left op send now Hi Hn Hit HT) as (w' & f & Hs & Hi' & Hfc & Hf & Hdl & Hrx).
    exists w', ((op, send) :: work). split_and!; try done; [by apply simulates_face|]. intros f'. rewrite Hf. by intros [= <-]. }
  unfold continue_op. destruct (w_queue w) as [|o queue] eqn:Eq; [done|]. destruct o; try done. clear Hsend.
  pose proof (li_queue _ _ _ _ _ _ _ Hi) as Hlen. rewrite Eq in Hlen.
  destruct (w_queued_payloads w) as [|p payloads] eqn:Ep; [discriminate|]. cbn [insert1 mbind option_bind].
  destruct (idle_work _ _ _ _ _ _ _ Hi Hn) as (Hm & Hw & Hcache & Hwire). rewrite Eq, Ep in Hw. cbn [zip zip_with app] in Hw.
  set (rest := zip_with pair queue payloads ++ (msg_item <$> q_items (w_rx w))) in Hw.
  eexists _, ((OpHeartbeat, p) :: (op, send) :: rest). split; [reflexivity|]. split_and!; try done.
  - destruct Hi. split; try done; [simpl; lia|simpl in *; lia| |].
    + subst work. apply Forall_cons in li_items0 as [H1 H2]. apply Forall_cons. split; [done|]. by apply Forall_cons.
    + exists []. split; [|done]. unfold flight. cbn. by rewrite Hn.
  - apply simulates_face; [done| |]; subst work; [|rewrite !work_exchanges_cons; simpl; lia].
    intros hs. etrans; [exact (abs_run_heartbeat mx am hs [] p ((op, send) :: rest))|].
    symmetry. exact (abs_run_heartbeat mx am hs [(op, send)] p rest).
  - cbn. rewrite Hn. discriminate.
Qed.

Lemma ack_sim seen w d host am work left f now (mx := d_max_packet_size d) :
  link_inv seen w d host am work left -> w_inflight w = Some f -> now <= T ->
  exists d' r reply, handle_datagram d (in_sent f) host = Some (d', r) /\ re_reply r = Some reply /\
    d_max_packet_size d' = mx /\ link_inv seen w d' host am work left /\
    exists w' am' work', ctl_drain_socket w [CtlDatagram (w_device_addr w) reply now] = Some w' /\
      link_inv (length (w_sent w)) w' d' host am' work' (gc_retries (w_cfg w)) /\ simulates mx w am work w' am' work' 1 /\
      w_rx w' = w_rx w /\ forall f', w_inflight w' = Some f' -> now < in_deadline f'.
Proof.
  intros Hi Hf HT. pose proof Hi as Hi0. destruct Hi0. destruct li_work0 as (fl & Hfl & Hw). unfold flight in Hfl. rewrite Hf in Hfl.
  destruct Hfl as (send & -> & Hid & Ht & Hsent & Hsv & Hdl0). set (conc := w_concatenation w) in *.
  set (c := stage_cmd conc (in_op f) send) in *. cbn [app] in Hw. set (rest := zip _ _ ++ _) in Hw.
  assert (item_ok (in_op f) send) as Hit by (subst work; by apply Forall_cons in li_items0 as [? _]).
  destruct (encode_stage w (in_op f) send (in_id f) Hit) as [_ Hc]. fold conc c in Hc.
  assert (u16_ok (in_id f)) as Hu by width_lia.
  destruct (dev_serve mx am c) as [m' [status payload]] eqn:Es.
  destruct (handle_serving d host c (in_id f) am m' status payload li_dev0 Hc Hu Hsv Es) as (d' & r & Hh & Hr & Hd' & Hm' & Hmx & Hl).
  exists d', r, (ack status (answer_of c) (in_id f) payload). rewrite Hsent. split_and!; try done.
  { split; try done. exists [(in_op f, send)]. split; [|done]. unfold flight. rewrite Hf.
    exists send. split_and!; try done. fold conc c. eapply served; [by rewrite Hmx; exact Es|done|done]. }
  destruct (dev_serve_payload_fits mx am c Hc) as [Hpf _]. pose proof (dev_serve_status mx am c) as Hst.
  pose proof (stage_controlled conc mx am (in_op f) send Hit li_ctl0) as Hctl. fold c in Hctl.
  rewrite Es in Hpf, Hst, Hctl. cbn [fst snd] in *.
  pose proof (take_flight seen w d d' host am work left f send m' _ rest Hi Hf Hw eq_refl Hid Hd' Hm' Hctl Hl) as Hi1.
  set (w1 := w <| w_inflight := None |>) in *.
  cbn [ctl_drain_socket]. rewrite Z.eqb_refl. cbn [negb]. rewrite (on_datagram_ack w f) by done. fold w1.
  pose proof (stage w1 f send mx am now li_am0 li_len0 li_ctl0 Hit) as Hsg. unfold stage_ok in Hsg.
  change (w_concatenation w1) with conc in Hsg. fold c in Hsg. rewrite Es in Hsg.
  destruct Hsg as (stats & out & -> & Hhb & Hout). set (w2 := w1 <| w_stats := stats |>).
  assert (link_inv (length (w_sent w)) w2 d' host m' rest (gc_retries (w_cfg w))) as Hi2 by (by destruct Hi1).
  destruct out as [a|op' send']; cbn [apply_out].
  - destruct Hout as [Hsp Hex]. exists (w2 <| w_handles ::= fun hs => answer hs a |>), m', rest. split_and!.
    + destruct a as [[h v]|]; [done|]. by destruct w.
    + by destruct Hi2.
    + pose proof (op_exchanges_bounds conc (in_op f) send Hit) as Hx.
      split; try done; subst work; rewrite ?work_exchanges_cons; fold conc; cbn [fst snd].
      * cbn [abs_run]. rewrite Hsp. done.
      * destruct (is_heartbeat (in_op f)); lia.
      * unfold hb. cbn. rewrite Hhb. change (w_stats w1) with (w_stats w). destruct (is_heartbeat (in_op f)); lia.
    + done.
    + done.
  - destruct Hout as (Hit' & Hb' & Hsp & Hx1 & Hx2).
    destruct (continue_sim mx _ w2 d' host m' rest _ op' send' now Hi2 eq_refl Hit' Hb' HT) as (w' & work' & -> & Hi' & Hsim & Hrx & Hdl).
    cbn [mbind option_bind]. exists w', m', work'. split_and!; try done.
    replace 1 with (1 + 0) by lia. eapply simulates_trans; [|exact Hsim].
    split; try done; subst work; rewrite ?work_exchanges_cons; fold conc; cbn [fst snd].
    + cbn [abs_run]. change (w_handles w2) with (w_handles w). by rewrite Hsp.
    + lia.
    + unfold hb. cbn. rewrite Hhb. change (w_stats w1) with (w_stats w). destruct (is_heartbeat (in_op f)); lia.
Qed.

(** * A hop *)

Lemma pass_sim mx seen w0 w d host am work left now cmds input :
  ctl_drain_socket w0 input = Some w -> link_inv seen w d host am work left -> Forall request_ok (q_items (w_rx w)) -> now <= T ->
  (forall f, w_inflight w = Some f -> now < in_deadline f) \/ drop seen (w_sent w) = [] ->
  exists w' work',
    ctl_pass w0 {| cp_commands := cmds; cp_input := input; cp_deadline := (now, now);
                   cp_heartbeat := (now, now); cp_pump := now |} = Some (true, w') /\
    link_inv seen w' d host am work' left /\ simulates mx w am work w' am work' 0 /\
    q_items (w_rx w') = [] /\ (w_inflight w' = None -> work' = []) /\
    (forall f, w_inflight w' = Some f -> drop seen (w_sent w') = [] -> now < in_deadline f).
Proof.
  intros Hin Hi Hr HT Hdl. unfold ctl_pass. cbn [cp_input cp_deadline cp_heartbeat cp_pump fst snd]. rewrite Hin. cbn [mbind option_bind].
  unfold ctl_drain_commands. cbn [contents queue_chan].
  destruct (drain_commands_sim _ seen w d host am work left Hi Hr eq_refl) as (w1 & -> & Hi1 & Hf1 & [= Hn1 Hs1] & Hq1).
  rewrite <- Hn1, <- Hs1 in Hdl.
  destruct (deadline_sim seen w1 d host am work left now Hi1 HT Hdl) as (Hi2 & Hf2 & Hq2 & Hd2).
  set (w2 := check_inflight_deadline w1 now now) in *. rewrite <- Hq2 in Hq1.
  destruct (heartbeat_sim mx seen w2 d host am work left now Hi2 Hq1) as (w3 & work' & -> & Hi3 & Hs3 & Hq3 & [= Hn3 Hw3]).
  rewrite <- Hn3, <- Hw3 in Hd2.
  destruct (pump_sim mx seen w3 d host am work' left now Hi3 Hq3 HT Hd2) as (w4 & -> & Hi4 & Hs4 & Hq4 & Hidle & Hd4).
  cbn [mbind option_bind]. exists w4, work'. rewrite (li_lost _ _ _ _ _ _ _ Hi4). split_and!; try done.
  replace 0 with (0 + (0 + 0)) by lia. eapply simulates_trans; [|eapply simulates_trans; [exact Hs3|exact Hs4]].
  apply simulates_face; [by rewrite Hf2, Hf1|done|done].
Qed.

(** The state between hops, the last of them at [t]. *)
Record link_ok (l : CtlLink) (am : bytes) (work : list Item) (left t : Z) : Prop := {
  lk_inv : link_inv (l_seen l) (l_worker l) (l_device l) (l_host l) am work left;
  lk_addr : l_addr l = w_device_addr (l_worker l);
  lk_rx : q_items (w_rx (l_worker l)) = [];
  lk_idle : w_inflight (l_worker l) = None -> work = [];
  lk_due : forall f, w_inflight (l_worker l) = Some f -> wire l = [] -> t < in_deadline f }.

(** The wire holds the command in flight, if anything. *)
Lemma wire_cases seen w d host am work left :
  link_inv seen w d host am work left ->
  drop seen (w_sent w) = [] \/ exists f retry, w_inflight w = Some f /\ drop seen (w_sent w) = [(in_sent f, w_device_addr w, retry)].
Proof.
  intros Hi. destruct (li_work _ _ _ _ _ _ _ Hi) as (fl & Hfl & _). unfold flight in Hfl.
  destruct (w_inflight w) as [f|]; [|left; by destruct Hfl as (_ & _ & _ & ?)].
  destruct Hfl as (send & _ & _ & [[? _]|[[retry E] _]] & _); [by left|right]. by exists f, retry.
Qed.

(** The network is done with what was on the wire, which counts as a loss. *)
Lemma wire_emptied seen w d host am work left :
  link_inv seen w d host am work left ->
  let left' := match drop seen (w_sent w) with [] => left | _ => left - 1 end in
  0 <= left' -> link_inv (length (w_sent w)) w d host am work left'.
Proof.
  intros Hi left' Hl. assert (left - 1 <= left' <= left) as Hb by (unfold left'; destruct (drop _ _); lia).
  assert (drop seen (w_sent w) <> [] -> left' = left - 1) as He by (unfold left'; by destruct (drop _ _)).
  destruct Hi. split; try done; [lia|]. destruct li_work0 as (fl & Hfl & Hw). exists fl. split; [|done].
  unfold flight in *. destruct (w_inflight w) as [f|].
  - destruct Hfl as (send & ? & ? & Hon & ? & ? & ?). exists send. split_and!; try done. left. split; [apply drop_all|].
    destruct Hon as [[_ ?]|[[r E] ?]]; [lia|]. rewrite He by (by rewrite E). lia.
  - destruct Hfl as (? & ? & ? & _). split_and!; try done. apply drop_all.
Qed.

(** Exchanges a hop completes: one when an acknowledge gets through. *)
Definition completes (l : CtlLink) (p : Hop) : Z := if carries_any l && is_deliver p then 1 else 0.

Lemma hop_sim l p am work left t (mx := d_max_packet_size (l_device l)) :
  link_ok l am work left t -> Forall request_ok (hp_commands p) -> hp_now p <= T ->
  negb (carries_any l) || is_deliver p || (0 <? left) = true ->
  exists l' am' work', hop l p = Some l' /\
    link_ok l' am' work' (left_after (gc_retries (w_cfg (l_worker l))) left l p) (hp_now p) /\
    simulates mx (l_worker l) am (work ++ (msg_item <$> hp_commands p)) (l_worker l') am' work' (completes l p) /\
    d_max_packet_size (l_device l') = mx.
Proof.
  intros [Hi Ha Hrx Hidle _] Hcmds HT Hleft. destruct l as [w d host addr seen]; cbn [l_worker l_device l_host l_addr l_seen] in *. subst addr.
  unfold hop, left_after, completes, carries_any, wire in *. cbn [l_worker l_device l_host l_addr l_seen] in *.
  destruct (submit_sim (hp_commands p) seen w d host am work left Hi Hcmds) as (Hi1 & Hf1 & [= Hn1 Hs1] & Hq1).
  set (w1 := foldl submit w (hp_commands p)) in *. set (work1 := work ++ (msg_item <$> hp_commands p)) in *.
  rewrite Hrx in Hq1. cbn [app] in Hq1.
  assert (simulates mx w am work1 w1 am work1 0) as Hsim1 by (by apply simulates_face).
  assert (w_cfg w1 = w_cfg w /\ w_device_addr w1 = w_device_addr w) as [Hcfg Haddr] by (unfold face in Hf1; by injection Hf1).
  assert (Forall request_ok (q_items (w_rx w1))) as Hreq by (by rewrite Hq1).
  pose proof (li_left _ _ _ _ _ _ _ Hi) as Hl0.
  (* a turn after which nothing has come back *)
  assert (forall d', link_inv seen w1 d' host am work1 left -> d_max_packet_size d' = mx ->
    let left' := match drop seen (w_sent w) with [] => left | _ => left - 1 end in 0 <= left' ->
    exists l' am' work', ('((again, w') : bool * Runner) ← ctl_pass w1 {| cp_commands := hp_commands p; cp_input := [];
        cp_deadline := (hp_now p, hp_now p); cp_heartbeat := (hp_now p, hp_now p); cp_pump := hp_now p |};
      if again : bool then Some (mkLink w' d' host (w_device_addr w) (length (w_sent w))) else None) = Some l' /\
      link_ok l' am' work' left' (hp_now p) /\ simulates mx w am work1 (l_worker l') am' work' 0 /\
      d_max_packet_size (l_device l') = mx) as Hquiet.
  { intros d' Hi' Hmx. rewrite <- Hs1. intros left' Hl'. pose proof (wire_emptied _ _ _ _ _ _ _ Hi' Hl') as Hi2. fold left' in Hi2.
    destruct (pass_sim mx _ w1 w1 d' host am work1 left' (hp_now p) (hp_commands p) [] eq_refl Hi2 Hreq HT)
      as (w' & work' & -> & Hi3 & Hs3 & Hq3 & Hid3 & Hd3); [right; apply drop_all|].
    cbn [mbind option_bind]. eexists _, am, work'. split; [reflexivity|]. split; [|split; [|done]].
    - split; try done. cbn. by rewrite (sm_addr _ _ _ _ _ _ _ _ Hs3), Haddr.
    - replace 0 with (0 + 0) by lia. by eapply simulates_trans. }
  destruct (wire_cases _ _ _ _ _ _ _ Hi) as [Hw|(f & retry & Hf & Hw)].
  { rewrite Hw in Hquiet |- *. cbn [carry mbind option_bind andb]. by apply Hquiet; [| |lia]. }
  rewrite Hw in Hquiet, Hleft |- *. cbn [carry andb orb negb] in Hleft |- *. rewrite bool_decide_true by done.
  rewrite <- Hn1 in Hf.
  destruct (ack_sim seen w1 d host am work1 left f (hp_now p) Hi1 Hf HT)
    as (d' & r & reply & Hh & Hr & Hmx & Hserved & w2 & am2 & work2 & Hd2 & Hi2 & Hs2 & Hq2 & Hdl2).
  fold mx in Hs2, Hmx. rewrite Hs1 in Hi2. rewrite Haddr in Hd2. unfold is_deliver in *. destruct (hp_net p) eqn:Hnet.
  - rewrite Hh. cbn [mbind option_bind]. rewrite Hr.
    destruct (pass_sim mx _ w1 w2 d' host am2 work2 _ (hp_now p) (hp_commands p) _ Hd2 Hi2)
      as (w' & work' & -> & Hi3 & Hs3 & Hq3 & Hid3 & Hd3); [by rewrite Hq2|done|by left|].
    cbn [mbind option_bind]. eexists _, am2, work'. split; [reflexivity|]. rewrite Hcfg in Hi3. split; [|split; [|done]].
    + split; try done. cbn. by rewrite (sm_addr _ _ _ _ _ _ _ _ Hs3), (sm_addr _ _ _ _ _ _ _ _ Hs2), Haddr.
    + replace 1 with (0 + (1 + 0)) by lia. eapply simulates_trans; [exact Hsim1|]. by eapply simulates_trans.
  - rewrite Hh. cbn [mbind option_bind]. apply (Hquiet d' Hserved Hmx). lia.
  - cbn [mbind option_bind]. apply (Hquiet d Hi1 eq_refl). lia.
Qed.

(** * Runs *)

(** The losses in a row still allowed after a run. *)
Fixpoint left_run (retries left : Z) (l : CtlLink) (ps : list Hop) : Z :=
  match ps with
  | [] => left
  | p :: ps => match hop l p with Some l' => left_run retries (left_after retries left l p) l' ps | None => left end
  end.

Lemma abs_run_app mx m hs w1 w2 :
  abs_run mx m hs (w1 ++ w2) = abs_run mx (abs_run mx m hs w1).1 (abs_run mx m hs w1).2 w2.
Proof. revert m hs. induction w1 as [|[op send] w1 IH]; intros m hs; [done|]. simpl. apply IH. Qed.

(** Later work waits. *)
Lemma simulates_frame mx w am work w' am' work' k more :
  simulates mx w am work w' am' work' k -> simulates mx w am (work ++ more) w' am' (work' ++ more) k.
Proof.
  intros [A1 A2 A3 A4 A5 A6]. split; try done; rewrite ?abs_run_app, ?work_exchanges_app; [by rewrite A4|lia|lia].
Qed.

(** A run keeps the promise of its work and of the commands submitted; while
    nothing is submitted each delivery completes an exchange. *)
Lemma hops_sim ps l am work left t (mx := d_max_packet_size (l_device l)) (conc := w_concatenation (l_worker l)) :
  link_ok l am work left t -> Forall request_ok (submitted ps) -> Forall (fun p => hp_now p <= T) ps ->
  patient (gc_retries (w_cfg (l_worker l))) left l ps = true ->
  exists l' am' work', hops l ps = Some l' /\
    link_ok l' am' work' (left_run (gc_retries (w_cfg (l_worker l))) left l ps) (last_now t ps) /\
    simulates mx (l_worker l) am (work ++ (msg_item <$> submitted ps)) (l_worker l') am' work' 0 /\
    d_max_packet_size (l_device l') = mx /\
    (submitted ps = [] -> work_exchanges conc work' = 0 \/
       work_exchanges conc work' + deliveries l ps <= work_exchanges conc work + (hb (l_worker l') - hb (l_worker l))).
Proof.
  revert l am work left t mx conc. induction ps as [|p ps IH]; intros l am work left t mx conc Hl Hreq HT Hp.
  { exists l, am, work. cbn [submitted hops fmap list_fmap concat]. rewrite app_nil_r. split_and!; try done; [apply simulates_refl|].
    intros _. right. cbn [deliveries]. lia. }
  change (submitted (p :: ps)) with (hp_commands p ++ submitted ps) in *. apply Forall_app in Hreq as [Hc Hreq].
  apply Forall_cons in HT as [HT HTs]. cbn [patient] in Hp. apply andb_true_iff in Hp as [Hd Hp].
  destruct (hop_sim l p am work left t Hl Hc HT Hd) as (l1 & am1 & work1 & Hh & Hl1 & Hs1 & Hm1). fold mx in Hs1, Hm1.
  cbn [hops left_run deliveries last_now foldl]. rewrite Hh in *. rewrite <- (sm_cfg _ _ _ _ _ _ _ _ Hs1) in Hp at 1.
  destruct (IH l1 am1 work1 _ _ Hl1 Hreq HTs Hp) as (l2 & am2 & work2 & Hh2 & Hl2 & Hs2 & Hm2 & Hprog). rewrite Hm1 in Hs2, Hm2.
  rewrite (sm_cfg _ _ _ _ _ _ _ _ Hs1) in Hl2. exists l2, am2, work2. cbn [mbind option_bind]. split_and!; try done.
  - rewrite fmap_app, app_assoc. pose proof (simulates_frame _ _ _ _ _ _ _ _ (msg_item <$> submitted ps) Hs1) as Hs1'.
    pose proof (simulates_trans _ _ _ _ _ _ _ _ _ _ _ _ Hs1' Hs2) as [A1 A2 A3 A4 A5 A6]. split; try done.
    assert (0 <= completes l p) by (unfold completes; destruct (_ && _); lia). lia.
  - intros [Ec Es]%app_nil. specialize (Hprog Es). rewrite (sm_conc _ _ _ _ _ _ _ _ Hs1) in Hprog. fold conc in Hprog.
    rewrite Ec in Hs1. cbn [fmap list_fmap] in Hs1. rewrite app_nil_r in Hs1. destruct Hs1 as [_ A2 _ _ A5 A6]. fold conc in A5, A6.
    rewrite Es in Hs2. cbn [fmap list_fmap] in Hs2. rewrite app_nil_r in Hs2. destruct Hs2 as [_ _ _ _ B5 _]. rewrite A2 in B5. fold conc in B5.
    destruct Hprog as [Hprog|Hprog]; [by left|]. right. fold (completes l p). lia.
Qed.

Lemma hops_app ps qs l : hops l (ps ++ qs) = l' ← hops l ps; hops l' qs.
Proof. revert l. induction ps as [|p ps IH]; intros l; [done|]. cbn [app hops]. destruct (hop l p); [|done]. apply IH. Qed.

Lemma patient_app retries ps qs left l l' : hops l ps = Some l' -> patient retries left l (ps ++ qs) = true ->
  patient retries left l ps = true /\ patient retries (left_run retries left l ps) l' qs = true.
Proof.
  revert left l. induction ps as [|p ps IH]; intros left l; cbn [app patient hops left_run]; [by intros [= ->]|].
  destruct (hop l p) as [l1|]; [|done]. cbn [mbind option_bind]. intros Hh [H1 H2]%andb_true_iff.
  destruct (IH _ _ Hh H2) as [H3 H4]. split; [by apply andb_true_iff|done].
Qed.

Lemma patient_prefix retries ps qs left l : patient retries left l (ps ++ qs) = true -> patient retries left l ps = true.
Proof.
  revert left l. induction ps as [|p ps IH]; intros left l; [done|]. cbn [app patient].
  intros [H1 H2]%andb_true_iff. apply andb_true_iff. split; [done|]. destruct (hop l p); [by apply IH|done].
Qed.
End refine.

(** * The theorem *)

(** A link with nothing to do: the worker is in its loop with its control
    socket working and its commands addressed to the device, nothing is on the
    wire, the device grants it control and has not yet seen the worker's next
    request id. *)
Record link_idle (l : CtlLink) : Prop := {
  id_rx : w_rx (l_worker l) = mkQueue [] None true;
  id_io : w_io (l_worker l) = [];
  id_queue : w_queue (l_worker l) = [] /\ w_queued_payloads (l_worker l) = [] /\ w_inflight (l_worker l) = None;
  id_wire : l_seen l = length (w_sent (l_worker l));
  id_addr : l_addr l = w_device_addr (l_worker l);
  id_retries : 0 <= gc_retries (w_cfg (l_worker l));
  id_lost : w_control_lost (l_worker l) = false;
  id_timeout : 0 < gc_gvcp_timeout (w_cfg (l_worker l));
  id_next : 0 <= w_next_id (l_worker l) <= 0xfffe;
  id_dev : dev_ok (l_device l);
  id_ctl : controlled (d_mem (l_device l));
  id_cached : forall c i r, d_last_reply (l_device l) !! l_host l = Some (c, i, r) -> i = w_next_id (l_worker l) }.

Lemma link_idle_ok T l : link_idle l -> link_ok T l (d_mem (l_device l)) [] (gc_retries (w_cfg (l_worker l))) 0.
Proof.
  intros []. destruct id_queue0 as (Q1 & Q2 & Q3). split; [|done|by rewrite id_rx0|done|by rewrite Q3]. pose proof id_dev0 as [D1 D2 D3].
  split; try done; rewrite ?id_rx0, ?Q1, ?Q2; try done; [lia|]. exists []. split; [|done]. unfold flight. rewrite Q3.
  split_and!; try done. rewrite id_wire0. apply drop_all.
Qed.

(** What is in flight is on the wire or waits for its deadline. *)
Lemma link_ok_inflight T l am work left t f : link_ok T l am work left t -> w_inflight (l_worker l) = Some f ->
  (exists retry, wire l = [(in_sent f, l_addr l, retry)]) \/
  wire l = [] /\ t < in_deadline f <= T + gc_gvcp_timeout (w_cfg (l_worker l)).
Proof.
  intros [Hi Ha _ _ Hdue] Hf. rewrite Ha. destruct (li_work _ _ _ _ _ _ _ _ Hi) as (fl & Hfl & _). unfold flight in Hfl. rewrite Hf in Hfl.
  destruct Hfl as (send & _ & _ & [[Hw _]|[[retry Hw] _]] & _ & _ & Hd); [right|left; by exists retry].
  split; [exact Hw|]. split; [by apply Hdue|done].
Qed.

(** Work of no exchanges leaves nothing to do. *)
Lemma link_ok_done T l am work left t mx (conc := w_concatenation (l_worker l)) : link_ok T l am work left t ->
  work_exchanges conc work = 0 ->
  abs_run mx am (w_handles (l_worker l)) work = (d_mem (l_device l), w_handles (l_worker l)).
Proof.
  intros [Hi2 _ _ _ _] H0. pose proof (li_items _ _ _ _ _ _ _ _ Hi2) as Hit.
  destruct (work_done mx am (w_handles (l_worker l)) conc work Hit H0) as [Hdone Hbeats].
  rewrite Hdone. f_equal. destruct (li_work _ _ _ _ _ _ _ _ Hi2) as (fl & Hfl & Hw). unfold flight in Hfl.
  destruct (w_inflight (l_worker l)) as [f|]; [|by destruct Hfl as (_ & ? & _)].
  destruct Hfl as (send & -> & _ & _ & _ & Hsv & _). rewrite Hw in Hbeats, Hit. apply Forall_cons in Hbeats as [Hb _].
  apply Forall_cons in Hit as [[_ Hit] _]. cbn [fst snd] in *. destruct (in_op f); try discriminate. subst send.
  destruct Hsv as [?|m' st pl Hs ? _]; [done|]. cbn in Hs. by injection Hs as <- _.
Qed.


(** A fresh worker, a blank device under its control, and a network that
    loses a request, then an acknowledge, then all but the last retry. *)
Definition ex_link : CtlLink :=
  mkLink (Runner_new (10, 3956) (mkQueue [] None true) GigeConfig_new false 0 ∅ [])
    (blank_device <| d_mem ::= fun m => splice m CONTROL_CHANNEL_PRIVILEGE (be_encode 4 CCP_CONTROL) |>) (5, 50000) (10, 3956) 0.

Definition ex_hop (net : Net) (now : Z) (commands : list ToWorker) : Hop :=
  {| hp_commands := commands; hp_net := net; hp_now := millis now |}.

Definition ex_start : list Hop :=
  [ex_hop NetDeliver 1 [TwWriteRegs [(WIDTH_REG, 640); (HEIGHT_REG, 480)] 0; TwReadRegs [WIDTH_REG; HEIGHT_REG] 1;
                        TwReadMem 0xfffc 8 2]].

Definition ex_quiet : list Hop :=
  [ex_hop NetDropRequest 600 []; ex_hop NetDropReply 1200 []; ex_hop NetDeliver 1201 []; ex_hop NetDeliver 1202 [];
   ex_hop NetDropReply 1800 []; ex_hop NetDropReply 2400 []; ex_hop NetDropRequest 3000 []; ex_hop NetDropReply 3600 [];
   ex_hop NetDeliver 3700 []; ex_hop NetDeliver 3701 []; ex_hop NetDeliver 3702 []; ex_hop NetDeliver 3703 [];
   ex_hop NetDeliver 3704 []].

Example ex_run :
  (fun l => (w_handles (l_worker l), hb (l_worker l), d_duplicates (l_device l), take 8 (drop (Z.to_nat WIDTH_REG) (d_mem (l_device l)))))
    <$> hops ex_link (ex_start ++ ex_quiet) =
  Some (<[0%nat := Ok RvUnit]> (<[1%nat := Ok (RvRegs [640; 480])]> (<[2%nat := refused READ_MEMORY_CMD]> ∅)), 2, 4,
        [0; 0; 2; 128; 0; 0; 1; 224]).
Proof. vm_compute. reflexivity. Qed.

(** The deliveries are enough. *)
Example ex_enough :
  (l1 ← hops ex_link ex_start; l2 ← hops l1 ex_quiet;
   Some (exchanges false (submitted ex_start) + hb (l_worker l2) <=? deliveries l1 ex_quiet)) = Some true.
Proof. vm_compute. reflexivity. Qed.

Lemma ex_link_idle : link_idle ex_link.
Proof.
  destruct (mem_write_ok blank_device CONTROL_CHANNEL_PRIVILEGE (be_encode 4 CCP_CONTROL)) as [_ Hd];
    [apply blank_device_ok|done|by rewrite (dv_len _ blank_device_ok)|apply be_encode_ok|].
  split; [reflexivity|reflexivity|by repeat split|reflexivity|reflexivity|done|reflexivity|reflexivity|done|exact Hd| |].
  - unfold controlled. by vm_compute.
  - intros c i r [=].
Qed.

