(* ===== verification/ControlPort.v ===== *)
(** The control port: the model of [ControlPort]'s calls in
    [src/src/gige/mod.rs] and of its [PortIo] in [src/src/genicam/port.rs].

    [Control] is what the layers above rely on: a request is put to the worker
    and its handle waited for, within the call's budget, which gives a value
    or an error ([unwrap_arc] gives back the error the worker recorded).
    [DevPort], a device's memory under [ControlLink.contract], is the instance
    the link refines ([ControlRefine]). *)

From stdpp Require Import gmap.
From S2P Require Import Prelude Gvcp Gvsp Channel Frame Float64 Text Bootstrap Zip Url Emulator DeviceControl.
From S2P Require Import Errors Control DeviceSpec ControlLink Register Evaluator Formula NodeGraph NodeTotal Camera NodeAccess.

(** * The interface *)

Class Control (P : Type) := {
  ask_read_reg : P -> Z -> P * result CameraError Z;
  ask_read_regs : P -> list Z -> P * result CameraError (list Z);
  ask_write_regs : P -> list (Z * Z) -> P * result CameraError unit;
  ask_read_mem : P -> Z -> Z -> P * result CameraError bytes;
  ask_write_mem : P -> Z -> bytes -> P * result CameraError unit;
  ctl_ok : P -> Prop;
  read_reg_ok p a : ctl_ok p -> 0 <= a -> ctl_ok (ask_read_reg p a).1 /\ forall v, (ask_read_reg p a).2 = Ok v -> u32_ok v;
  write_regs_ok p pairs : ctl_ok p -> Forall (fun '(a, v) => u32_ok a /\ u32_ok v) pairs -> ctl_ok (ask_write_regs p pairs).1;
  read_mem_ok p a n : ctl_ok p -> 0 <= a -> 0 <= n -> ctl_ok (ask_read_mem p a n).1 /\
    forall b, (ask_read_mem p a n).2 = Ok b -> bytes_ok b;
  write_mem_ok p a data : ctl_ok p -> 0 <= a -> bytes_ok data -> ctl_ok (ask_write_mem p a data).1 }.

Section port.
Context {P : Type} {C : Control P}.
Implicit Types (p : P).

(** * The calls *)

Definition read_register p (addr : Z) : P * result CameraError Z := ask_read_reg p addr.
Definition read_registers p (addrs : list Z) : P * result CameraError (list Z) := ask_read_regs p addrs.
Definition write_register p (addr value : Z) : P * result CameraError unit := ask_write_regs p [(addr, value)].

Definition read_memory p (addr len : Z) : P * result CameraError bytes :=
  if negb (addr mod 4 =? 0) then (p, Err (Protocol ReadAddressUnaligned)) else ask_read_mem p addr len.

Definition write_memory p (addr : Z) (data : bytes) : P * result CameraError unit :=
  if negb (addr mod 4 =? 0) || negb (zlen data mod 4 =? 0) then (p, Err (Protocol WriteUnaligned))
  else ask_write_mem p addr data.

(** * The device port of the node graph *)

(** [u32::try_from] of a [u64]. *)
Definition port_address (address : Z) : result CameraError Z :=
  if (0 <=? address) && (address <=? U32_MAX) then Ok address else Err (Protocol (AddressBeyond32Bit address)).

Definition control_read p (address : Z) (len : nat) : P * result CameraError bytes :=
  match port_address address with
  | Err e => (p, Err e)
  | Ok address =>
      if (len =? 4)%nat && (address mod 4 =? 0) then
        let '(p, r) := read_register p address in (p, be_encode 4 <$> r)
      else
        let '(p, r) := read_memory p address (wrap 32 (Z.of_nat len)) in
        (p, data ← r; if negb (length data =? len)%nat then Err (Protocol ShortMemoryRead) else Ok data)
  end.

Definition control_write p (address : Z) (data : bytes) : P * result CameraError unit :=
  match port_address address with
  | Err e => (p, Err e)
  | Ok address =>
      if (length data =? 4)%nat && (address mod 4 =? 0) then write_register p address (be_decode data)
      else write_memory p address data
  end.

Lemma port_address_ok a : (port_address a = Ok a /\ u32_ok a) \/ exists e, port_address a = Err e.
Proof. unfold port_address. destruct (_ && _) eqn:E; [left; split; [done|width_lia]|right; eauto]. Qed.

Lemma control_read_ok p a n :
  ctl_ok p -> ctl_ok (control_read p a n).1 /\
              forall b, (control_read p a n).2 = Ok b -> length b = n /\ bytes_ok b.
Proof.
  intros Hp. unfold control_read. destruct (port_address_ok a) as [[-> Ha]|[e ->]]; [|by split].
  destruct ((n =? 4)%nat && _) eqn:E.
  - unfold read_register. pose proof (read_reg_ok p a Hp ltac:(width_lia)) as [H1 H2].
    destruct (ask_read_reg p a) as [p' r]. split; [done|]. cbn. intros b Hb. destruct r as [v|]; [|discriminate].
    injection Hb as <-. rewrite length_be_encode. split; [lia|apply be_encode_ok].
  - unfold read_memory. destruct (negb _); [by split|].
    pose proof (read_mem_ok p a (wrap 32 (Z.of_nat n)) Hp ltac:(width_lia) ltac:(apply wrap_range; lia)) as [H1 H2].
    destruct (ask_read_mem _ _ _) as [p' r]. split; [done|]. cbn. intros b Hb. destruct r as [data|]; [|discriminate].
    cbn in Hb. destruct (negb _) eqn:El; [discriminate|]. injection Hb as <-. split; [|by apply H2]. lia.
Qed.

Lemma control_write_ok p a data : ctl_ok p -> bytes_ok data -> ctl_ok (control_write p a data).1.
Proof.
  intros Hp Hd. unfold control_write. destruct (port_address_ok a) as [[-> Ha]|[e ->]]; [|done].
  destruct (_ && _) eqn:E.
  - apply write_regs_ok; [done|]. constructor; [|done]. split; [done|]. apply be_decode_4; [done|lia].
  - unfold write_memory. destruct (_ || _); [done|]. apply write_mem_ok; [done|width_lia|done].
Qed.
End port.

(** The control port is a port of the node graph. *)
#[export] Instance ControlPort_io (P : Type) {C : Control P} : PortIo P := {|
  port_read := control_read; port_write := control_write; port_ok := ctl_ok;
  port_read_ok := control_read_ok; port_write_ok := control_write_ok |}.

(** * A device as a control port *)

Record DevPort := mkDevPort { dp_mem : bytes; dp_max : option Z }.

Definition dev_read_reg (p : DevPort) (a : Z) : DevPort * result CameraError Z :=
  let m := dp_mem p in (p, if in_mem m a 4 then Ok (word m a) else refused READ_REGISTER_CMD).
Definition dev_read_regs (p : DevPort) (addrs : list Z) : DevPort * result CameraError (list Z) :=
  let m := dp_mem p in
  (p, if forallb (fun a => in_mem m a 4) addrs then Ok (word m <$> addrs) else refused READ_REGISTER_CMD).
Definition dev_write_regs (p : DevPort) (pairs : list (Z * Z)) : DevPort * result CameraError unit :=
  let '(m, ok) := write_pairs (dp_max p) (dp_mem p) pairs in
  (mkDevPort m (dp_max p), if ok : bool then Ok tt else refused WRITE_REGISTER_CMD).
Definition dev_read_mem (p : DevPort) (a len : Z) : DevPort * result CameraError bytes :=
  let m := dp_mem p in
  (p, if in_mem m a (next_multiple_of len 4) then Ok (block m a len) else refused READ_MEMORY_CMD).
Definition dev_write_mem (p : DevPort) (a : Z) (data : bytes) : DevPort * result CameraError unit :=
  let '(m, v) := spec_write (dp_mem p) a data in
  (mkDevPort m (dp_max p), match v with Ok _ => Ok tt | Err e => Err e end).

Definition dp_ok (p : DevPort) : Prop := bytes_ok (dp_mem p) /\ zlen (dp_mem p) = MEM_SIZE.

Lemma dev_read_reg_ok p a :
  dp_ok p -> 0 <= a -> dp_ok (dev_read_reg p a).1 /\ forall v, (dev_read_reg p a).2 = Ok v -> u32_ok v.
Proof.
  intros [H1 H2] Ha. split; [done|]. unfold dev_read_reg, in_mem. cbn. intros v. destruct (_ <=? _) eqn:E; [|discriminate].
  intros [= <-]. apply word_range; [done|done|lia].
Qed.

Lemma dev_write_regs_ok p pairs :
  dp_ok p -> Forall (fun '(a, v) => u32_ok a /\ u32_ok v) pairs -> dp_ok (dev_write_regs p pairs).1.
Proof.
  intros [H1 H2] Hp. unfold dev_write_regs. destruct (write_pairs_ok (dp_max p) (dp_mem p) pairs H1 Hp) as [W1 W2].
  destruct (write_pairs _ _ pairs) as [m ok]. split; [done|]. cbn in *. by rewrite W2.
Qed.

Lemma dev_read_mem_ok p a n :
  dp_ok p -> 0 <= a -> 0 <= n -> dp_ok (dev_read_mem p a n).1 /\ forall b, (dev_read_mem p a n).2 = Ok b -> bytes_ok b.
Proof.
  intros [H1 H2] Ha Hn. split; [done|]. unfold dev_read_mem. cbn. intros b. destruct (in_mem _ _ _); [|discriminate].
  intros [= <-]. by apply block_ok.
Qed.

Lemma dev_write_mem_ok p a data : dp_ok p -> 0 <= a -> bytes_ok data -> dp_ok (dev_write_mem p a data).1.
Proof.
  intros [H1 H2] Ha Hd. unfold dev_write_mem, spec_write. destruct (_ <=? _) eqn:E; cbn.
  - split; [by apply splice_bytes_ok|]. rewrite <- H2. apply zlen_splice; lia.
  - split; [apply splice_bytes_ok; [done|by apply Forall_take]|]. rewrite <- H2.
    set (room := zlen (dp_mem p) - a) in *. destruct (decide (room < 0)) as [Hr|Hr].
    + assert (room / DATA_SIZE_MAX <= 0) by (apply Z.lt_succ_r, Z.div_lt_upper_bound; unfold DATA_SIZE_MAX in *; lia).
      replace (Z.to_nat _) with 0%nat by (unfold DATA_SIZE_MAX in *; lia). by rewrite take_0, splice_nil.
    + assert (room / DATA_SIZE_MAX * DATA_SIZE_MAX <= room) by (rewrite Z.mul_comm; by apply Z.mul_div_le).
      apply zlen_splice; [lia|]. unfold zlen in *. rewrite length_take. unfold DATA_SIZE_MAX in *. lia.
Qed.

#[export] Instance DevPort_control : Control DevPort := {|
  ask_read_reg := dev_read_reg; ask_read_regs := dev_read_regs; ask_write_regs := dev_write_regs;
  ask_read_mem := dev_read_mem; ask_write_mem := dev_write_mem; ctl_ok := dp_ok;
  read_reg_ok := dev_read_reg_ok; write_regs_ok := dev_write_regs_ok; read_mem_ok := dev_read_mem_ok;
  write_mem_ok := dev_write_mem_ok |}.

(** The device port answers what the contract of the request says. *)
Lemma DevPort_contract (p : DevPort) (h : nat) :
  let mx := dp_max p in let m := dp_mem p in
  (forall a, contract mx m (TwReadReg a h) = (dp_mem (dev_read_reg p a).1, Some (h, RvReg <$> (dev_read_reg p a).2))) /\
  (forall addrs, contract mx m (TwReadRegs addrs h) =
     (dp_mem (dev_read_regs p addrs).1, Some (h, RvRegs <$> (dev_read_regs p addrs).2))) /\
  (forall pairs, contract mx m (TwWriteRegs pairs h) =
     (dp_mem (dev_write_regs p pairs).1, Some (h, (fun _ => RvUnit) <$> (dev_write_regs p pairs).2))) /\
  (forall a len, contract mx m (TwReadMem a len h) =
     (dp_mem (dev_read_mem p a len).1, Some (h, RvBytes <$> (dev_read_mem p a len).2))) /\
  (forall a data, contract mx m (TwWriteMem a data h) =
     (dp_mem (dev_write_mem p a data).1, Some (h, (fun _ => RvUnit) <$> (dev_write_mem p a data).2))).
Proof.
  split_and!; intros; cbn.
  - unfold dev_read_reg. by destruct (in_mem _ _ _).
  - unfold dev_read_regs. by destruct (forallb _ _).
  - unfold dev_write_regs. by destruct (write_pairs _ _ _) as [m' []].
  - unfold dev_read_mem. by destruct (in_mem _ _ _).
  - unfold dev_write_mem, spec_write. by destruct (_ <=? _).
Qed.

(** * The device keeps what is written *)

(** Outside the packet-size register, which may round. *)
Definition stored_as_written (a : Z) (n : nat) : Prop :=
  a + Z.of_nat n <= STREAM_CHANNEL_PACKET_SIZE \/ STREAM_CHANNEL_PACKET_SIZE < a.

Lemma block_splice_same m a data : 0 <= a -> a + zlen data <= zlen m -> block (splice m a data) a (zlen data) = data.
Proof. intros Ha Hl. unfold block. by rewrite get_range_splice_same. Qed.

Lemma dev_port_write_read (p : DevPort) a data p' :
  dp_ok p -> bytes_ok data -> stored_as_written a (length data) -> control_write p a data = (p', Ok tt) ->
  exists p'', control_read p' a (length data) = (p'', Ok data).
Proof.
  intros [Hb Hl] Hd Hst. unfold control_write, control_read. destruct (port_address_ok a) as [[-> Ha]|[e ->]]; [|discriminate].
  destruct ((length data =? 4)%nat && (a mod 4 =? 0)) eqn:E.
  - assert (length data = 4%nat) as Hlen by lia. unfold write_register. cbn [ask_write_regs DevPort_control]. unfold dev_write_regs.
    cbn [write_pairs]. destruct (in_mem (dp_mem p) a 4) eqn:Ei; [|discriminate]. intros [= <-]. unfold in_mem in Ei.
    assert (clamp (dp_max p) a (be_decode data) = be_decode data) as ->.
    { unfold clamp. destruct (dp_max p); [|done]. unfold stored_as_written in Hst. rewrite Hlen in Hst.
      by replace (a =? STREAM_CHANNEL_PACKET_SIZE) with false by lia. }
    pose proof (be_encode_decode data Hd) as Hed. rewrite Hlen in Hed. rewrite Hed.
    assert (zlen data = 4) as Hz by (unfold zlen; lia).
    eexists. cbn [ask_read_reg DevPort_control]. unfold read_register, dev_read_reg. cbn.
    unfold in_mem. rewrite zlen_splice by width_lia. rewrite Ei. cbn. unfold word. rewrite <- Hz, block_splice_same by width_lia.
    by rewrite Hed.
  - unfold write_memory, read_memory. destruct (_ || _) eqn:Ea; [discriminate|].
    cbn [ask_write_mem DevPort_control]. unfold dev_write_mem, spec_write.
    destruct (_ <=? _) eqn:Er; [|discriminate]. intros [= <-].
    replace (negb (a mod 4 =? 0)) with false by lia. cbn [ask_read_mem DevPort_control]. unfold dev_read_mem.
    change (Z.of_nat (length data)) with (zlen data). pose proof (zlen_nonneg data). unfold MEM_SIZE in Hl.
    rewrite wrap_small by width_lia. cbn [dp_mem].
    assert (next_multiple_of (zlen data) 4 = zlen data) as ->.
    { destruct (next_multiple_4 (zlen data)) as [N1 N2]; [lia|]. pose proof (Z.div_mod (zlen data) 4).
      pose proof (Z.div_mod (next_multiple_of (zlen data) 4) 4). lia. }
    eexists. unfold in_mem. rewrite zlen_splice by width_lia. replace (_ <=? _) with true by lia. cbn.
    rewrite block_splice_same by width_lia. by rewrite Nat.eqb_refl.
Qed.

#[export] Instance DevPort_memory : MemoryPort DevPort :=
  @Build_MemoryPort DevPort (ControlPort_io DevPort) stored_as_written dev_port_write_read.
