(* ===== verification/Session.v ===== *)
(** The device session: the model of [establish], [fetch_device_info],
    [fetch_genicam_xml] and the connection operations of
    [src/src/gige/mod.rs], above any control port.

    What the operating system answers is an argument: the port of the worker
    that was spawned, the address the control socket is bound to, the source
    address of a route, a file.  [std::fs::read] of a description URL is the
    parameter [fs_read]. *)

From stdpp Require Import gmap.
From S2P Require Import Prelude Gvcp Gvsp Channel Frame Float64 Text Bootstrap Zip Url Emulator DeviceControl.
From S2P Require Import Errors Control DeviceSpec ControlLink Register Evaluator Formula NodeGraph NodeTotal Camera NodeAccess.
From S2P Require Import XmlGraph ControlPort.

(** * Calls in sequence *)

(** Calls on the port, stopping at the first error. *)
Definition Ses (P A : Type) : Type := P -> P * result CameraError A.

Section session.
Context {P : Type} {C : Control P}.
Implicit Types (p : P).

Global Instance Ses_ret : MRet (Ses P) := fun A a p => (p, Ok a).
Global Instance Ses_bind : MBind (Ses P) := fun A B f m p =>
  match m p with
  | (p, Ok a) => f a p
  | (p, Err e) => (p, Err e)
  end.

Definition ses_lift {A} (r : result CameraError A) : Ses P A := fun p => (p, r).
(** [r.map_err(f)]. *)
Definition ses_map_err {A} (f : CameraError -> CameraError) (m : Ses P A) : Ses P A := fun p =>
  let '(p, r) := m p in (p, map_err f r).

Definition do_read_register (a : Z) : Ses P Z := fun p => read_register p a.
Definition do_read_registers (addrs : list Z) : Ses P (list Z) := fun p => read_registers p addrs.
Definition do_write_register (a v : Z) : Ses P unit := fun p => write_register p a v.
Definition do_read_memory (a len : Z) : Ses P bytes := fun p => read_memory p a len.

(** * Identity *)

(** A string register; one the device refuses to read is empty. *)
Definition string_field (addr size : Z) : Ses P text := fun p =>
  match read_memory p addr (wrap 32 size) with
  | (p, Ok raw) => (p, Ok (from_utf8_lossy (until_nul raw)))
  | (p, Err (Nak _ _)) => (p, Ok [])
  | (p, Err e) => (p, Err e)
  end.

Definition fetch_device_info : Ses P DeviceInfo :=
  regs ← do_read_registers
    [VERSION; DEVICE_MODE; DEVICE_MAC_HIGH; DEVICE_MAC_LOW; SUPPORTED_IP_CONFIG; CURRENT_IP_CONFIG;
     CURRENT_IP_ADDRESS; CURRENT_SUBNET_MASK; CURRENT_GATEWAY];
  match regs with
  | [version; device_mode; mac_high; mac_low; supported_ip_config; current_ip_config; ip; mask; gateway] =>
      manufacturer ← string_field MANUFACTURER_NAME MANUFACTURER_NAME_SIZE;
      model ← string_field MODEL_NAME MODEL_NAME_SIZE;
      device_version ← string_field DEVICE_VERSION DEVICE_VERSION_SIZE;
      manufacturer_info ← string_field MANUFACTURER_INFO MANUFACTURER_INFO_SIZE;
      serial ← string_field SERIAL_NUMBER SERIAL_NUMBER_SIZE;
      user_defined_name ← string_field USER_DEFINED_NAME USER_DEFINED_NAME_SIZE;
      mret {| di_spec_version := (wrap 16 (Z.shiftr version 16), wrap 16 version);
              di_device_mode := device_mode;
              di_mac := drop 2 (be_encode 4 mac_high) ++ be_encode 4 mac_low;
              di_supported_ip_config := supported_ip_config; di_current_ip_config := current_ip_config;
              di_ip := ip; di_subnet_mask := mask; di_gateway := gateway;
              di_manufacturer := manufacturer; di_model := model; di_device_version := device_version;
              di_manufacturer_info := manufacturer_info; di_serial := serial;
              di_user_defined_name := user_defined_name |}
  | _ => ses_lift (Err (Protocol ShortBootstrapRead))
  end.

(** * The description *)

Definition MAX_XML_SIZE : Z := Z.shiftl 64 20.

Section description.
Context {IN : Inflate} (fs_read : text -> result CameraError bytes).

(** The bytes a URL names. *)
Definition url_data (url : XmlUrl) : Ses P bytes :=
  match url with
  | Local_ _ address size =>
      if U32_MAX <? address then ses_lift (Err (Protocol XmlAddressBeyond32Bit))
      else if (U32_MAX <? size) || (MAX_XML_SIZE <? size) then ses_lift (Err (Protocol (XmlSizeOutOfRange size)))
      else do_read_memory address size
  | File path => ses_lift (fs_read path)
  | Http _ => ses_lift (Err Unsupported)
  end.

Definition fetch_genicam_xml (url_addr : Z) : Ses P bytes :=
  raw ← do_read_memory url_addr (wrap 32 XML_URL_SIZE);
  url ← ses_lift (map_err (fun e => Protocol (BadXmlUrl e)) (XmlUrl_parse (from_utf8_lossy (until_nul raw))));
  data ← url_data url;
  if XmlUrl_is_zip url then ses_lift (map_err (fun e => Protocol (BadXmlArchive e)) (extract_first_file data))
  else mret data.
End description.

(** * The session *)

Inductive IpAddr := V4 (a : Z) | V6 (a : Z).

Definition is_unspecified (ip : IpAddr) : bool := match ip with V4 a | V6 a => a =? 0 end.

(** The connection of [Camera] with its identity and description. *)
Record Session := mkSession {
  ss_conn : Connection P;
  ss_device_ip : IpAddr;
  ss_local_addr : IpAddr * Z;
  ss_info : DeviceInfo;
  ss_capabilities : Z;
  ss_concatenation : bool;
  ss_xml : option bytes }.

Definition with_port (s : Session) p : Session :=
  let c := ss_conn s in
  mkSession (mkConnection p (cn_alive c) (cn_control_lost c) (cn_genicam c)) (ss_device_ip s) (ss_local_addr s)
    (ss_info s) (ss_capabilities s) (ss_concatenation s) (ss_xml s).
Definition with_xml (s : Session) (xml : bytes) : Session :=
  mkSession (ss_conn s) (ss_device_ip s) (ss_local_addr s) (ss_info s) (ss_capabilities s) (ss_concatenation s) (Some xml).
Definition with_genicam (s : Session) (g : Genicam) : Session :=
  let c := ss_conn s in
  mkSession (mkConnection (cn_port c) (cn_alive c) (cn_control_lost c) (Some g)) (ss_device_ip s) (ss_local_addr s)
    (ss_info s) (ss_capabilities s) (ss_concatenation s) (ss_xml s).

(** The camera: no session, or one that may have died. *)
Abbreviation Transport := (option Session).

Definition ses_conn (cam : Transport) : result CameraError Session :=
  match cam with
  | None => Err Disconnected
  | Some s =>
      if negb (cn_alive (ss_conn s)) then Err (if cn_control_lost (ss_conn s) then ControlLost else Disconnected)
      else Ok s
  end.

(** Run calls on the live session's port. *)
Definition on_session {A} (cam : Transport) (f : Session -> Ses P A) : Transport * result CameraError A :=
  match ses_conn cam with
  | Err e => (cam, Err e)
  | Ok s => let '(p, r) := f s (cn_port (ss_conn s)) in (Some (with_port s p), r)
  end.

Section description_cache.
Context {IN : Inflate} {XL : XmlLib} (fs_read : text -> result CameraError bytes).

(** The loop over the URL registers: the first that works, or the last error. *)
Fixpoint try_urls (urls : list Z) (last_err : CameraError) : Ses P bytes := fun p =>
  match urls with
  | [] => (p, Err last_err)
  | url :: urls =>
      match fetch_genicam_xml fs_read url p with
      | (p, Ok xml) => (p, Ok xml)
      | (p, Err e) => try_urls urls e p
      end
  end.

Definition genicam_xml (cam : Transport) : Transport * result CameraError bytes :=
  match ses_conn cam with
  | Err e => (cam, Err e)
  | Ok s =>
      match ss_xml s with
      | Some xml => (cam, Ok xml)
      | None =>
          let '(p, r) := try_urls [XML_URL_0; XML_URL_1] (Protocol NoGenicamUrl) (cn_port (ss_conn s)) in
          (Some (match r with Ok xml => with_xml (with_port s p) xml | Err _ => with_port s p end), r)
      end
  end.

Definition ensure_genicam (cam : Transport) : Transport * result GenicamError unit :=
  match ses_conn cam with
  | Err e => (cam, Err (Camera e))
  | Ok s =>
      match cn_genicam (ss_conn s) with
      | Some _ => (cam, Ok tt)
      | None =>
          match genicam_xml cam with
          | (cam, Err e) => (cam, Err (Camera e))
          | (cam, Ok xml) =>
              match parse_xml (from_utf8_lossy xml) with
              | Err e => (cam, Err e)
              | Ok graph =>
                  match ses_conn cam with
                  | Err e => (cam, Err (Camera e))
                  | Ok s => (Some (with_genicam s graph), Ok tt)
                  end
              end
          end
      end
  end.
End description_cache.

(** * Connecting *)

Record SessionConfig := { sc_exclusive : bool; sc_heartbeat_timeout_ms : Z }.

(** How a refused or unanswered privilege write reads to the caller. *)
Definition ccp_error (e : CameraError) : CameraError :=
  match e with
  | Nak _ status => if (status =? STATUS_ACCESS_DENIED) || (status =? STATUS_WRITE_PROTECT) then ControlDenied else e
  | Timeout => ConnectTimeout
  | _ => e
  end.

Definition establish (cfg : SessionConfig) (device_ip : IpAddr) (local_addr : IpAddr * Z) p
    : P * result CameraError Session :=
  let '(p, r) :=
    (_ ← ses_map_err ccp_error (do_write_register CONTROL_CHANNEL_PRIVILEGE
           (Z.lor CCP_CONTROL (if sc_exclusive cfg then CCP_EXCLUSIVE else 0)));
     _ ← do_write_register HEARTBEAT_TIMEOUT (sc_heartbeat_timeout_ms cfg);
     capabilities ← do_read_register GVCP_CAPABILITY;
     info ← fetch_device_info;
     mret (capabilities, info)) p in
  (p, '((capabilities, info) : Z * DeviceInfo) ← r;
      Ok (mkSession (mkConnection p true false None) device_ip local_addr info capabilities
            (negb (Z.land capabilities CAP_CONCATENATION =? 0)) None)).

(** A live session stays; a dead one is dropped first.  [spawned] is the port
    of the worker a connect would start, with the address it is bound to. *)
Definition ses_connect (cfg : SessionConfig) (device_ip : IpAddr) (spawned : result CameraError (P * (IpAddr * Z)))
    (cam : Transport) : Transport * result CameraError unit :=
  if match cam with Some s => cn_alive (ss_conn s) | None => false end then (cam, Ok tt)
  else
    match spawned with
    | Err e => (None, Err e)
    | Ok (p, local_addr) =>
        match establish cfg device_ip local_addr p with
        | (_, Ok s) => (Some s, Ok tt)
        | (_, Err e) => (None, Err e)
        end
    end.

Definition ses_is_connected (cam : Transport) : bool :=
  match cam with Some s => cn_alive (ss_conn s) | None => false end.

(** [disconnect] takes the session out of the camera; the shutdown message, the
    bounded wait and the join of its worker are the steps of [ThreadLife]. *)
Definition ses_disconnect (cam : Transport) : Transport * option Session := (None, cam).

(** * Return channels *)

(** The answer of the routing lookup. *)
Inductive Route := RouteFound (ip : IpAddr) | RouteNotAvailable | RouteFailed.

Definition advertised_host_ip (s : Session) (route : Route) : result CameraError IpAddr :=
  if negb (is_unspecified (fst (ss_local_addr s))) then Ok (fst (ss_local_addr s))
  else
    match route with
    | RouteFound ip => Ok ip
    | RouteNotAvailable => Ok (V4 0)
    | RouteFailed => Err Io
    end.

Fixpoint write_all (pairs : list (Z * Z)) : Ses P unit :=
  match pairs with
  | [] => mret tt
  | (addr, value) :: pairs => _ ← do_write_register addr value; write_all pairs
  end.

Definition enable_events (route : Route) (cam : Transport) : Transport * result CameraError unit :=
  on_session cam (fun s =>
    if Z.land (ss_capabilities s) CAP_EVENT =? 0 then ses_lift (Err Unsupported)
    else
      ip ← ses_lift (advertised_host_ip s route);
      match ip with
      | V4 host_v4 =>
          write_all [(MESSAGE_CHANNEL_DEST_ADDRESS, host_v4); (MESSAGE_CHANNEL_TRANSMISSION_TIMEOUT, 1000);
                     (MESSAGE_CHANNEL_RETRY_COUNT, 3); (MESSAGE_CHANNEL_PORT, snd (ss_local_addr s))]
      | V6 _ => ses_lift (Err Unsupported)
      end).

Definition disable_events (cam : Transport) : Transport * result CameraError unit :=
  on_session cam (fun _ => do_write_register MESSAGE_CHANNEL_PORT 0).
End session.

Arguments Session : clear implicits.
