(* ===== verification/SessionSpec.v ===== *)
(** What a session learns about a device: its identity, by registers as by
    discovery, and its description, through the URL register and the archive.
    The device is any memory under the contract of the control link. *)

From stdpp Require Import gmap.
From S2P Require Import Prelude Gvcp Gvsp Channel Frame Float64 Text Bootstrap Zip Url Emulator DeviceControl.
From S2P Require Import Errors Control DeviceSpec ControlLink Register Evaluator Formula NodeGraph NodeTotal Camera NodeAccess.
From S2P Require Import XmlGraph Description ControlPort Session.

(** * Reading a device *)

Lemma in_mem_dev p a n : dp_ok p -> a + n <= MEM_SIZE -> in_mem (dp_mem p) a n = true.
Proof. intros [_ Hl] H. unfold in_mem. rewrite Hl. lia. Qed.

Lemma dev_string_field p addr size :
  dp_ok p -> 0 <= addr -> 0 <= size -> addr mod 4 = 0 -> size mod 4 = 0 -> addr + size <= MEM_SIZE ->
  string_field addr size p = (p, Ok (from_utf8_lossy (until_nul (block (dp_mem p) addr size)))).
Proof.
  intros Hp Ha Hs Hm Hn Hl. unfold string_field, read_memory. rewrite Hm. cbn [negb Z.eqb ask_read_mem DevPort_control].
  unfold MEM_SIZE in Hl. rewrite wrap_small by lia. unfold dev_read_mem.
  assert (next_multiple_of size 4 = size) as ->.
  { destruct (next_multiple_4 size Hs) as [N1 N2]. pose proof (Z.div_mod size 4). pose proof (Z.div_mod (next_multiple_of size 4) 4). lia. }
  by rewrite in_mem_dev by done.
Qed.

Lemma get_range_block m n i j :
  0 <= i <= j -> j <= n -> n <= zlen m -> get_range (block m 0 n) i j = Some (block m i (j - i)).
Proof.
  intros Hi Hj Hn. unfold block. rewrite (get_range_is_Some m 0), (get_range_is_Some m i) by lia. cbn [default from_option]. unfold id.
  rewrite get_range_is_Some; [|lia|].
  - f_equal. change (Z.to_nat 0) with 0%nat. rewrite drop_0, skipn_firstn_comm, take_take. f_equal. lia.
  - unfold zlen in *. rewrite length_take, length_drop. lia.
Qed.

Lemma reg_block m n a : 0 <= a -> a + 4 <= n -> n <= zlen m -> reg (block m 0 n) a = Some (word m a).
Proof. intros. unfold reg. rewrite get_range_block by lia. cbn. unfold word. by replace (a + 4 - a) with 4 by lia. Qed.

Lemma string_reg_block m n a size :
  0 <= a -> 0 <= size -> a + size <= n -> n <= zlen m ->
  string_reg (block m 0 n) a size = Some (from_utf8_lossy (until_nul (block m a size))).
Proof. intros. unfold string_reg. rewrite get_range_block by lia. cbn. by replace (a + size - a) with size by lia. Qed.

(** The hardware address lies across two registers. *)
Lemma mac_block m :
  bytes_ok m -> 16 <= zlen m ->
  drop 2 (be_encode 4 (word m DEVICE_MAC_HIGH)) ++ be_encode 4 (word m DEVICE_MAC_LOW) = block m 10 6.
Proof.
  intros Hm Hl. unfold DEVICE_MAC_HIGH, DEVICE_MAC_LOW. rewrite !word_block by (done || lia).
  pose proof (block_split m 8 2 2 ltac:(lia) ltac:(lia) ltac:(lia) ltac:(lia)) as E1. change (2 + 2) with 4 in E1. change (8 + 2) with 10 in E1.
  pose proof (block_split m 10 2 4 ltac:(lia) ltac:(lia) ltac:(lia) ltac:(lia)) as E2. change (2 + 4) with 6 in E2. change (10 + 2) with 12 in E2.
  rewrite E1, E2. pose proof (zlen_block m 8 2 ltac:(lia) ltac:(lia) ltac:(lia)) as E3.
  rewrite drop_app_length'; [done|]. unfold zlen in E3. lia.
Qed.

Lemma ses_bind_ok {P A B} (m : Ses P A) (f : A -> Ses P B) p p' a : m p = (p', Ok a) -> (m ≫= f) p = f a p'.
Proof. intros H. unfold mbind, Ses_bind. by rewrite H. Qed.

Lemma dev_read_registers p addrs :
  dp_ok p -> Forall (fun a => a + 4 <= MEM_SIZE) addrs -> do_read_registers addrs p = (p, Ok (word (dp_mem p) <$> addrs)).
Proof.
  intros Hp Ha. unfold do_read_registers, read_registers. cbn [ask_read_regs DevPort_control]. unfold dev_read_regs.
  replace (forallb _ addrs) with true; [done|]. symmetry. apply forallb_forall. intros a Hin.
  apply in_mem_dev; [done|]. rewrite Forall_forall in Ha. by apply Ha, list_elem_of_In.
Qed.

(** * Identity *)

Lemma fetch_info_discovery (p : DevPort) :
  dp_ok p -> exists info, fetch_device_info p = (p, Ok info) /\
    DeviceInfo_parse (block (dp_mem p) 0 DISCOVERY_DATA_SIZE) = Some (Some info).
Proof.
  intros Hp. pose proof Hp as [Hb Hl]. unfold MEM_SIZE in Hl. set (m := dp_mem p) in *.
  unfold fetch_device_info. erewrite ses_bind_ok.
  2: { apply dev_read_registers; [done|]. repeat apply Forall_cons_2; [by vm_compute..|constructor]. }
  fold m. cbn [fmap list_fmap].
  do 6 (erewrite ses_bind_ok; [|apply dev_string_field; [done|by vm_compute..]]). fold m.
  unfold mret, Ses_ret. eexists. split; [reflexivity|].
  unfold DeviceInfo_parse. rewrite zlen_block by (unfold DISCOVERY_DATA_SIZE; lia). rewrite Z.ltb_irrefl.
  rewrite !reg_block by first [by vm_compute|rewrite Hl; by vm_compute].
  rewrite get_range_block by first [by vm_compute|rewrite Hl; by vm_compute]. cbn [mbind option_bind].
  rewrite !string_reg_block by first [by vm_compute|rewrite Hl; by vm_compute]. cbn [mbind option_bind].
  rewrite mac_block by (done || lia). done.
Qed.

(** C23: the identity a session reads register by register at connect is the one
    the device announces in its discovery block, for every device memory. *)
Theorem device_info_agrees (p : DevPort) :
  dp_ok p -> exists info, fetch_device_info p = (p, Ok info) /\
    DeviceInfo_parse (block (dp_mem p) 0 DISCOVERY_DATA_SIZE) = Some (Some info).
Proof. apply fetch_info_discovery. Qed.

Lemma blank_dev_port_ok : dp_ok (mkDevPort (d_mem blank_device) None).
Proof. pose proof blank_device_ok as []. by split. Qed.

Lemma device_info_agrees_witness :
  exists info, fetch_device_info (mkDevPort (d_mem blank_device) None) = (mkDevPort (d_mem blank_device) None, Ok info) /\
    DeviceInfo_parse (block (d_mem blank_device) 0 DISCOVERY_DATA_SIZE) = Some (Some info).
Proof. apply (device_info_agrees (mkDevPort (d_mem blank_device) None)). apply blank_dev_port_ok. Defined.

(** * The description *)

Lemma as_bytes_ascii s : Forall (fun c => 0 < c < 128) s -> as_bytes s = s.
Proof.
  induction 1 as [|c s Hc _ IH]; [done|]. unfold as_bytes in *. rewrite fmap_cons. cbn [concat]. rewrite IH.
  unfold utf8_char. by replace (c <? 0x80) with true by lia.
Qed.

Lemma hex_digits_length fuel n acc : (length (hex_digits fuel n acc) <= fuel + length acc)%nat.
Proof.
  revert n acc. induction fuel as [|fuel IH]; intros n acc; simpl; [lia|].
  destruct (_ =? 0); simpl; [lia|]. etrans; [apply IH|]. simpl. lia.
Qed.

(** The URL of a description in the device is short plain text. *)
Lemma local_url_plain address size :
  u64_ok address -> u64_ok size ->
  let url := local_url (str "theater.zip") address size in
  Forall (fun c => 0 < c < 128) url /\ zlen url <= 64.
Proof.
  intros Ha Hs. destruct (upper_hex_spec address Ha) as (_ & Xa & _). destruct (upper_hex_spec size Hs) as (_ & Xs & _).
  assert (forall t, Forall (fun c => is_hex_char c = true) t -> Forall (fun c => 0 < c < 128) t) as Hhex.
  { intros t Ht. eapply Forall_impl; [exact Ht|]. intros c Hc. unfold is_hex_char, between in Hc. lia. }
  unfold local_url. split.
  - assert (forall t, forallb (fun c => (0 <? c) && (c <? 128)) t = true -> Forall (fun c => 0 < c < 128) t) as Hc.
    { intros t Ht. apply Forall_forall. intros c Hin. rewrite forallb_forall in Ht. apply list_elem_of_In, Ht in Hin. lia. }
    repeat (apply Forall_app; split); first [by apply Hhex|by apply Hc].
  - pose proof (hex_digits_length 16 address []). pose proof (hex_digits_length 16 size []).
    unfold zlen, upper_hex. rewrite !length_app. change (length (str "Local:")) with 6%nat. change (length (str ";")) with 1%nat.
    change (length (str "theater.zip")) with 11%nat. change (length (@nil Z)) with 0%nat in *. lia.
Qed.

Lemma splice_over {A} (l z u : list A) i :
  0 <= i -> i + zlen z <= zlen l -> zlen u <= zlen z -> splice (splice l i z) i u = splice l i (u ++ drop (length u) z).
Proof.
  intros Hi Hl Hu. pose proof (zlen_nonneg u).
  assert (zlen (u ++ drop (length u) z) = zlen z) as Hz by (unfold zlen in *; rewrite length_app, length_drop; lia).
  apply list_eq. intros k. rewrite !splice_lookup; rewrite ?zlen_splice, ?Hz by lia; try lia.
  repeat case_decide; try done; try lia.
  - rewrite lookup_app_l; [done|]. unfold zlen in *. lia.
  - rewrite lookup_app_r, lookup_drop by (unfold zlen in *; lia). f_equal. unfold zlen in *. lia.
Qed.

(** A memory that carries a description: its archive, and its URL in the
    first URL register. *)
Definition holds_description (m : bytes) (xml : bytes) (address : Z) : Prop :=
  let zip := build_stored_zip xml in
  let url := local_url (str "theater.zip") address (zlen zip) in
  zlen m = MEM_SIZE /\ address + zlen zip <= MEM_SIZE /\ block m address (zlen zip) = zip /\
  block m XML_URL_0 XML_URL_SIZE = url ++ replicate (Z.to_nat (XML_URL_SIZE - zlen url)) 0.

(** The memory after the description is installed: the URL register and the
    archive. *)
Lemma installed_memory d xml address d' (zip := build_stored_zip xml)
    (url := local_url (str "theater.zip") address (zlen zip)) :
  dev_ok d -> u32_ok address -> XML_URL_0 + XML_URL_SIZE <= address -> install_genicam_xml d xml address = Some d' ->
  holds_description (d_mem d') xml address.
Proof.
  unfold holds_description. fold zip. fold url.
  intros Hd Ha Hu H. pose proof (dv_len d Hd) as Hl. unfold install_genicam_xml in H. fold zip in H. fold url in H.
  unfold mem_write in H. rewrite zlen_replicate in H. rewrite Z2Nat.id in H by done.
  rewrite get_range_is_Some in H by (unfold XML_URL_0, XML_URL_SIZE, MEM_SIZE in *; lia). cbn [mbind option_bind d_mem set set_d_mem] in H.
  set (zeros := replicate (Z.to_nat XML_URL_SIZE) 0) in *.
  assert (zlen zeros = XML_URL_SIZE) as Hzl by (unfold zeros; rewrite zlen_replicate; by apply Z2Nat.id).
  set (m1 := splice (d_mem d) XML_URL_0 zeros) in *.
  assert (zlen m1 = MEM_SIZE) as Hm1 by (unfold m1; rewrite zlen_splice; [done|done|]; rewrite Hzl, Hl; done).
  destruct (get_range m1 XML_URL_0 _) eqn:E2 in H; [|discriminate]. cbn [mbind option_bind d_mem set set_d_mem] in H.
  apply get_range_Some in E2 as (_ & E2 & _).
  fold m1 in H. destruct (get_range (splice m1 XML_URL_0 (as_bytes url)) address (address + zlen zip)) eqn:E3 in H; [|discriminate]. cbn [mbind option_bind] in H. injection H as <-.
  apply get_range_Some in E3 as (_ & E3 & _). rewrite zlen_splice in E3 by done.
  pose proof (zlen_nonneg zip) as Hz0.
  destruct (local_url_plain address (zlen zip)) as [Hp1 Hp2]; [width_lia|unfold MEM_SIZE in *; width_lia|]. fold url in Hp1, Hp2.
  rewrite as_bytes_ascii in * by done. cbn [d_mem set set_d_mem]. fold m1.
  assert (zlen (splice m1 XML_URL_0 url) = MEM_SIZE) as Hm2 by (by rewrite zlen_splice).
  split_and!.
  - rewrite zlen_splice; [done|width_lia|lia].
  - lia.
  - apply block_splice_same; [width_lia|lia].
  - unfold block. rewrite get_range_splice_other by (width_lia || by left).
    unfold m1. rewrite splice_over; [|done|rewrite Hzl, Hl; done|unfold XML_URL_SIZE in *; lia].
    assert (drop (length url) zeros = replicate (Z.to_nat (XML_URL_SIZE - zlen url)) 0) as ->.
    { unfold zeros. rewrite drop_replicate. f_equal. unfold zlen, XML_URL_SIZE in *. lia. }
    pose proof (get_range_splice_same (d_mem d) (url ++ replicate (Z.to_nat (XML_URL_SIZE - zlen url)) 0) XML_URL_0) as G.
    assert (zlen (url ++ replicate (Z.to_nat (XML_URL_SIZE - zlen url)) 0) = XML_URL_SIZE) as Hlen.
    { rewrite zlen_app, zlen_replicate. unfold XML_URL_SIZE in *. lia. }
    rewrite Hlen in G. rewrite G; [done|done|rewrite Hl; done].
Qed.

Lemma dev_read_memory p addr size :
  zlen (dp_mem p) = MEM_SIZE -> addr mod 4 = 0 -> addr + next_multiple_of size 4 <= MEM_SIZE ->
  do_read_memory addr size p = (p, Ok (block (dp_mem p) addr size)).
Proof.
  intros Hl Hm Hs. unfold do_read_memory, read_memory. rewrite Hm. cbn [negb Z.eqb ask_read_mem DevPort_control].
  unfold dev_read_mem, in_mem. rewrite Hl. by replace (_ <=? _) with true by lia.
Qed.

Lemma theater_zip_name : (59 ∉ str "theater.zip") /\ bounded_by is_whitespace (str "theater.zip").
Proof. split; [by apply (bool_decide_eq_true_1 _)|]. split; by intros c [= <-]. Qed.

(** The fetch through the first URL register. *)
Lemma fetch_held (IN : Inflate) fs_read m xml address mx (zip := build_stored_zip xml) :
  holds_description m xml address -> bytes_ok xml -> u32_ok address -> address mod 4 = 0 -> address + next_multiple_of (zlen zip) 4 <= MEM_SIZE ->
  fetch_genicam_xml fs_read XML_URL_0 (mkDevPort m mx) = (mkDevPort m mx, Ok xml).
Proof.
  intros (Hl & Hz & Hzip & Hurl) Hx Ha H4 Hf.
  fold zip in Hz, Hzip, Hurl. set (p := mkDevPort m mx). set (url := local_url _ _ _) in Hurl.
  pose proof (zlen_nonneg zip) as Hz0.
  assert (zlen zip = 124 + zlen xml) as Hzx.
  { unfold zip, build_stored_zip. destruct (zlen_stored xml) as (E1 & E2 & E3). rewrite !zlen_app, E1, E2, E3. lia. }
  assert (u64_ok address /\ u64_ok (zlen zip)) as [Ha64 Hz64] by (unfold MEM_SIZE in *; width_lia).
  destruct (local_url_plain address (zlen zip) Ha64 Hz64) as [Hp1 Hp2]. fold url in Hp1, Hp2.
  unfold fetch_genicam_xml. change (wrap 32 XML_URL_SIZE) with XML_URL_SIZE.
  erewrite ses_bind_ok; [|apply (dev_read_memory p); [done|done|by vm_compute]]. cbn [dp_mem p]. rewrite Hurl.
  assert (until_nul (url ++ replicate (Z.to_nat (XML_URL_SIZE - zlen url)) 0) = url) as ->.
  { apply until_nul_padded. eapply Forall_impl; [exact Hp1|]. simpl. lia. }
  assert (from_utf8_lossy url = url) as ->.
  { rewrite <- (as_bytes_ascii url Hp1) at 1. apply from_utf8_as_bytes. eapply Forall_impl; [exact Hp1|].
    intros c [? ?]. left. lia. }
  destruct theater_zip_name as [N1 N2]. pose proof (local_url_parses (str "theater.zip") address (zlen zip) 0 N1 N2 Ha64 Hz64) as Hparse.
  fold url in Hparse. change (replicate 0 0) with (@nil Z) in Hparse. rewrite app_nil_r in Hparse.
  erewrite ses_bind_ok; [|unfold ses_lift; by rewrite Hparse].
  change (XmlUrl_is_zip (Local_ (str "theater.zip") address (zlen zip))) with true.
  unfold url_data. replace (U32_MAX <? address) with false by width_lia.
  replace (_ || _) with false by (change MAX_XML_SIZE with 67108864; unfold MEM_SIZE in *; width_lia).
  erewrite ses_bind_ok; [|apply (dev_read_memory p); [done|done|exact Hf]]. cbn [dp_mem p]. rewrite Hzip.
  unfold ses_lift, zip. rewrite stored_zip_read; [done|done|].
  change MAX_UNCOMPRESSED with 67108864. unfold MEM_SIZE in *. width_lia.
Qed.

(** What the session makes of a description it can fetch. *)
Lemma description_loads (IN : Inflate) (XL : XmlLib) fs_read (s : Session DevPort) xml g :
  fetch_genicam_xml fs_read XML_URL_0 (cn_port (ss_conn s)) = (cn_port (ss_conn s), Ok xml) ->
  cn_alive (ss_conn s) = true -> ss_xml s = None -> cn_genicam (ss_conn s) = None -> parse_xml (from_utf8_lossy xml) = Ok g ->
  genicam_xml fs_read (Some s) = (Some (with_xml s xml), Ok xml) /\
  genicam_xml fs_read (Some (with_xml s xml)) = (Some (with_xml s xml), Ok xml) /\
  ensure_genicam fs_read (Some s) = (Some (with_genicam (with_xml s xml) g), Ok tt).
Proof.
  intros Hfetch Hal Hnx Hng Hg. destruct s as [[p alive lost gen] dip laddr info caps conc sxml]. cbn in *. subst alive sxml gen.
  unfold ensure_genicam, genicam_xml, ses_conn. cbn -[fetch_genicam_xml]. rewrite Hfetch. cbn. rewrite Hg. done.
Qed.

(** C26: the description a device carries reaches the feature model intact.  On
    a device whose description was installed as the emulator does it (its URL
    in the first URL register, the stored archive at a word-aligned address),
    loading the feature model reads the URL, the archive and the file in it,
    and parses exactly the installed text; the bytes are kept for later
    calls. *)
Theorem description_fetched (IN : Inflate) (XL : XmlLib) (fs_read : text -> result CameraError bytes)
    (d d' : GigeDevice) (xml : bytes) (address : Z) (s : Session DevPort) (g : Genicam) :
  dev_ok d -> bytes_ok xml -> install_genicam_xml d xml address = Some d' -> u32_ok address ->
  XML_URL_0 + XML_URL_SIZE <= address -> address mod 4 = 0 ->
  address + next_multiple_of (zlen (build_stored_zip xml)) 4 <= MEM_SIZE ->
  dp_mem (cn_port (ss_conn s)) = d_mem d' -> cn_alive (ss_conn s) = true -> ss_xml s = None ->
  cn_genicam (ss_conn s) = None -> parse_xml (from_utf8_lossy xml) = Ok g ->
  genicam_xml fs_read (Some s) = (Some (with_xml s xml), Ok xml) /\
  genicam_xml fs_read (Some (with_xml s xml)) = (Some (with_xml s xml), Ok xml) /\
  ensure_genicam fs_read (Some s) = (Some (with_genicam (with_xml s xml) g), Ok tt).
Proof.
  intros Hd Hx Hi Ha Hu H4 Hf Hp Hal Hnx Hng Hg.
  destruct s as [[[pm pmax] alive lost gen] dip laddr info caps conc sxml]. cbn in *. subst pm alive sxml gen.
  apply (description_loads IN XL fs_read (mkSession (mkConnection (mkDevPort (d_mem d') pmax) true lost None) dip laddr info caps conc None));
    try done.
  apply fetch_held with address; try done. by apply installed_memory with d.
Qed.

(** * Connecting *)

Lemma dev_write_register p a v :
  dp_ok p -> u32_ok a -> u32_ok v -> a + 4 <= MEM_SIZE -> a <> STREAM_CHANNEL_PACKET_SIZE ->
  let p' := mkDevPort (splice (dp_mem p) a (be_encode 4 v)) (dp_max p) in
  do_write_register a v p = (p', Ok tt) /\ dp_ok p' /\ word (dp_mem p') a = v /\
  forall b n, 0 <= n -> b + n <= a \/ a + 4 <= b -> block (dp_mem p') b n = block (dp_mem p) b n.
Proof.
  intros Hp Ha Hv Hl Hne p'. pose proof Hp as [Hb Hm]. split_and!.
  - unfold do_write_register, write_register. cbn [ask_write_regs DevPort_control]. unfold dev_write_regs. cbn [write_pairs].
    rewrite in_mem_dev by done. assert (clamp (dp_max p) a v = v) as ->; [|done].
    unfold clamp. destruct (dp_max p); [|done]. by replace (a =? _) with false by lia.
  - split; cbn; [apply splice_bytes_ok; [done|apply be_encode_ok]|]. rewrite zlen_splice; [done|width_lia|rewrite zlen_be_encode; lia].
  - cbn. unfold word. pose proof (block_splice_same (dp_mem p) a (be_encode 4 v)) as E. rewrite zlen_be_encode in E.
    change (Z.of_nat 4) with 4 in E. rewrite E by width_lia. by apply be_decode_encode4.
  - intros b n Hn Hd. cbn. unfold block. rewrite get_range_splice_other; rewrite ?zlen_be_encode; [done|width_lia|lia|lia].
Qed.

(** Connecting, with what it leaves alone. *)
Lemma established (cfg : SessionConfig) (ip : IpAddr) (local : IpAddr * Z) (p : DevPort) :
  dp_ok p -> u32_ok (sc_heartbeat_timeout_ms cfg) ->
  exists p' s, establish cfg ip local p = (p', Ok s) /\ dp_ok p' /\ ss_conn s = mkConnection p' true false None /\
    controlled (dp_mem p') /\ word (dp_mem p') HEARTBEAT_TIMEOUT = sc_heartbeat_timeout_ms cfg /\
    Z.testbit (word (dp_mem p') CONTROL_CHANNEL_PRIVILEGE) 0 = sc_exclusive cfg /\
    DeviceInfo_parse (block (dp_mem p) 0 DISCOVERY_DATA_SIZE) = Some (Some (ss_info s)) /\
    ss_capabilities s = word (dp_mem p) GVCP_CAPABILITY /\
    ss_concatenation s = Z.testbit (word (dp_mem p) GVCP_CAPABILITY) 0 /\
    ss_xml s = None /\ dp_max p' = dp_max p /\
    forall b n, 0 <= n -> b + n <= HEARTBEAT_TIMEOUT \/ CONTROL_CHANNEL_PRIVILEGE + 4 <= b ->
      block (dp_mem p') b n = block (dp_mem p) b n.
Proof.
  intros Hp Hhb. unfold establish. set (ccp := Z.lor CCP_CONTROL _).
  assert (u32_ok ccp /\ Z.land ccp CCP_CONTROL <> 0 /\ Z.testbit ccp 0 = sc_exclusive cfg) as (Hc1 & Hc2 & Hc3)
    by (unfold ccp; destruct (sc_exclusive cfg); split_and!; (const_range || by vm_compute)).
  destruct (dev_write_register p CONTROL_CHANNEL_PRIVILEGE ccp Hp) as (W1 & Hp1 & R1 & O1); [const_range|done|by vm_compute|done|].
  set (p1 := mkDevPort (splice (dp_mem p) CONTROL_CHANNEL_PRIVILEGE (be_encode 4 ccp)) (dp_max p)) in *.
  destruct (dev_write_register p1 HEARTBEAT_TIMEOUT (sc_heartbeat_timeout_ms cfg) Hp1) as (W2 & Hp2 & R2 & O2); [const_range|done|by vm_compute|done|].
  set (p2 := mkDevPort (splice (dp_mem p1) HEARTBEAT_TIMEOUT _) (dp_max p1)) in *.
  assert (forall b n, 0 <= n -> (b + n <= HEARTBEAT_TIMEOUT) -> block (dp_mem p2) b n = block (dp_mem p) b n) as Hlow.
  { intros b n Hn Hb. rewrite O2 by (done || by left). apply O1; [done|]. left. etrans; [exact Hb|by vm_compute]. }
  assert (do_read_register GVCP_CAPABILITY p2 = (p2, Ok (word (dp_mem p) GVCP_CAPABILITY))) as W3.
  { unfold do_read_register, read_register. cbn [ask_read_reg DevPort_control]. unfold dev_read_reg.
    rewrite in_mem_dev by (done || by vm_compute). unfold word. by rewrite Hlow by by vm_compute. }
  destruct (fetch_info_discovery p2 Hp2) as (info & W4 & Hinfo). rewrite Hlow in Hinfo by by vm_compute.
  erewrite ses_bind_ok; [|unfold ses_map_err; by rewrite W1]. erewrite ses_bind_ok by exact W2.
  erewrite ses_bind_ok by exact W3. erewrite ses_bind_ok by exact W4. unfold mret, Ses_ret. cbn [mbind result_bind].
  eexists p2, _. split; [reflexivity|]. cbn [ss_conn ss_info ss_capabilities ss_concatenation].
  assert (word (dp_mem p2) CONTROL_CHANNEL_PRIVILEGE = ccp) as R3.
  { rewrite <- R1. unfold word. by rewrite O2 by (done || right; by vm_compute). }
  split_and!; try done.
  - unfold controlled. by rewrite R3.
  - by rewrite R3.
  - change CAP_CONCATENATION with (2 ^ 0). rewrite land_pow2_eqb by lia. by rewrite negb_involutive.
  - intros b n Hn [Hb|Hb]; [by apply Hlow|]. rewrite O2; [|done|right; etrans; [|exact Hb]; by vm_compute]. by apply O1; [|right].
Qed.

(** C22: connecting to a device that keeps the contract takes control of it: the
    privilege register holds the controller bit the heartbeat will look for,
    the heartbeat timeout is the configured one, and the session has the
    device's own identity and capability bits. *)
Theorem establish_takes_control (cfg : SessionConfig) (ip : IpAddr) (local : IpAddr * Z) (p : DevPort) :
  dp_ok p -> u32_ok (sc_heartbeat_timeout_ms cfg) ->
  exists p' s, establish cfg ip local p = (p', Ok s) /\ dp_ok p' /\ ss_conn s = mkConnection p' true false None /\
    controlled (dp_mem p') /\ word (dp_mem p') HEARTBEAT_TIMEOUT = sc_heartbeat_timeout_ms cfg /\
    Z.testbit (word (dp_mem p') CONTROL_CHANNEL_PRIVILEGE) 0 = sc_exclusive cfg /\
    DeviceInfo_parse (block (dp_mem p) 0 DISCOVERY_DATA_SIZE) = Some (Some (ss_info s)) /\
    ss_capabilities s = word (dp_mem p) GVCP_CAPABILITY /\
    ss_concatenation s = Z.testbit (word (dp_mem p) GVCP_CAPABILITY) 0.
Proof.
  intros Hp Hhb. destruct (established cfg ip local p Hp Hhb) as (p' & s & H1 & H2 & H3 & H4 & H5 & H6 & H7 & H8 & H9 & _).
  by exists p', s.
Qed.

Lemma establish_takes_control_witness :
  let cfg := {| sc_exclusive := true; sc_heartbeat_timeout_ms := 3000 |} in
  let p := mkDevPort (d_mem blank_device) None in
  exists p' s, establish cfg (V4 10) (V4 5, 50000) p = (p', Ok s) /\ dp_ok p' /\ ss_conn s = mkConnection p' true false None /\
    controlled (dp_mem p') /\ word (dp_mem p') HEARTBEAT_TIMEOUT = 3000 /\
    Z.testbit (word (dp_mem p') CONTROL_CHANNEL_PRIVILEGE) 0 = true /\
    DeviceInfo_parse (block (dp_mem p) 0 DISCOVERY_DATA_SIZE) = Some (Some (ss_info s)) /\
    ss_capabilities s = word (dp_mem p) GVCP_CAPABILITY /\
    ss_concatenation s = Z.testbit (word (dp_mem p) GVCP_CAPABILITY) 0.
Proof.
  intros cfg p. apply (establish_takes_control cfg (V4 10) (V4 5, 50000) p); [apply blank_dev_port_ok|const_range].
Defined.

(** A session on a blank device that carries the example description. *)
Definition ex_info : DeviceInfo :=
  {| di_spec_version := (2, 0); di_device_mode := 0; di_mac := [0; 0; 0; 0; 0; 0]; di_supported_ip_config := 0;
     di_current_ip_config := 0; di_ip := 10; di_subnet_mask := 0; di_gateway := 0; di_manufacturer := []; di_model := [];
     di_device_version := []; di_manufacturer_info := []; di_serial := []; di_user_defined_name := [] |}.
Definition ex_session_on (d : GigeDevice) : Session DevPort :=
  mkSession (mkConnection (mkDevPort (d_mem d) None) true false None) (V4 10) (V4 5, 50000) ex_info 0 false None.

Lemma ex_installs : exists d', install_genicam_xml blank_device ex_xml XML_ADDRESS = Some d'.
Proof.
  assert (match install_genicam_xml blank_device ex_xml XML_ADDRESS with Some _ => true | None => false end = true) as H
    by (vm_compute; reflexivity).
  destruct (install_genicam_xml blank_device ex_xml XML_ADDRESS) as [d'|]; [eauto|discriminate].
Qed.

Lemma description_fetched_witness :
  exists d', genicam_xml (IN := fun _ _ => None) (fun _ => Err Io) (Some (ex_session_on d')) =
               (Some (with_xml (ex_session_on d') ex_xml), Ok ex_xml) /\
    genicam_xml (IN := fun _ _ => None) (fun _ => Err Io) (Some (with_xml (ex_session_on d') ex_xml)) =
      (Some (with_xml (ex_session_on d') ex_xml), Ok ex_xml) /\
    ensure_genicam (IN := fun _ _ => None) (XL := ex_xml_lib) (fun _ => Err Io) (Some (ex_session_on d')) =
      (Some (with_genicam (with_xml (ex_session_on d') ex_xml) ex_parsed), Ok tt).
Proof.
  destruct ex_installs as [d' Hd']. exists d'.
  apply (description_fetched (fun _ _ => None) ex_xml_lib (fun _ => Err Io) blank_device d' ex_xml XML_ADDRESS (ex_session_on d') ex_parsed);
    [apply blank_device_ok|by apply bytes_ok_dec_true|exact Hd'|const_range|by vm_compute|done|by vm_compute|done|done|done|done|].
  assert (from_utf8_lossy ex_xml = ex_xml) as -> by (vm_compute; reflexivity). apply ex_parses.
Defined.
