(* ===== verification/PacketSize.v ===== *)
(** Packet size negotiation: the model of [negotiate_packet_size] of
    [src/src/gige/mod.rs], the bisection over fire-test packets.

    What the stream socket receives is the environment: [rx k size] are the
    results of the receives after the [k]-th probe, which asked for [size]
    (a receive beyond the list times out); [late i] is the result of the [i]-th
    receive of the loop that drains the socket at the end, which goes on until
    a receive fails, so it has fuel. *)

From stdpp Require Import gmap.
From S2P Require Import Prelude Gvcp Gvsp Channel Frame Float64 Text Bootstrap Zip Url Emulator DeviceControl.
From S2P Require Import Errors Control DeviceSpec ControlLink Register Evaluator Formula NodeGraph NodeTotal Camera NodeAccess.
From S2P Require Import XmlGraph ControlPort Session.

Definition INC : Z := 16.
Definition MIN : Z := 560.
Definition MAX : Z := 9152.

(** One receive: a datagram of [n] bytes from the device or from elsewhere,
    or an error. *)
Inductive Rx := RxDevice (n : Z) | RxOther | RxError.

Global Instance Rx_eq_dec : EqDecision Rx.
Proof. solve_decision. Defined.

(** The receives of one probe. *)
Fixpoint probe_recv (n : nat) (size : Z) (rx : list Rx) (achieved : option Z) : option Z :=
  match n, rx with
  | O, _ | _, [] => achieved
  | S n, RxDevice len :: rx =>
      let delivered := wrap 16 (len + PACKET_UDP_OVERHEAD) in
      if delivered <=? size then
        let achieved := Some (match achieved with Some a => Z.max a delivered | None => delivered end) in
        if delivered =? size then achieved else probe_recv n size rx achieved
      else probe_recv n size rx achieved
  | S n, _ :: rx => probe_recv n size rx achieved
  end.

(** [while socket.recv_from(&mut buf).is_ok() {}]: the number of receives;
    [None] when the fuel runs out. *)
Fixpoint drain_residue (fuel : nat) (late : nat -> Rx) (i : nat) : option nat :=
  match fuel with
  | O => None
  | S fuel =>
      match late i with
      | RxError => Some (S i)
      | RxDevice _ | RxOther => drain_residue fuel late (S i)
      end
  end.

Section negotiate.
Context {P : Type} {C : Control P} (rx : nat -> Z -> list Rx) (late : nat -> Rx) (patience : nat) (scps_addr : Z).
Implicit Types (p : P) (k : nat).

(** The port, the number of probes made, and the size the device delivered. *)
Definition probe p k (size : Z) : P * nat * option Z :=
  let value := Z.lor (Z.lor size SCPS_FIRE_TEST_PACKET) SCPS_DO_NOT_FRAGMENT in
  match write_register p scps_addr value with
  | (p, Err _) => (p, S k, None)
  | (p, Ok _) => (p, S k, probe_recv 3 size (rx k size) None)
  end.

(** The first of the usual sizes that gets through. *)
Fixpoint find_good (sizes : list Z) p k (best : Z) : P * nat * Z * option Z :=
  match sizes with
  | [] => (p, k, best, None)
  | c :: sizes =>
      match probe p k c with
      | (p, k, Some a) => (p, k, Z.max best a, Some c)
      | (p, k, None) => find_good sizes p k best
      end
  end.

(** The loop; [None] when the steps run out. *)
Fixpoint bisect (steps : nat) p k (best good bad : Z) : option (P * nat * Z) :=
  if bad - good <=? INC then Some (p, k, best)
  else
    match steps with
    | O => None
    | S steps =>
        let mid := good + (bad - good) / 2 / INC * INC in
        match probe p k mid with
        | (p, k, Some a) => bisect steps p k (Z.max best a) mid bad
        | (p, k, None) => bisect steps p k best good mid
        end
    end.

(** The port, the probes made, the receives of the last loop, and the size. *)
Definition negotiate_packet_size p : option (P * nat * nat * result CameraError Z) :=
  '((p, k, size) : P * nat * Z) ←
    match probe p 0 MAX with
    | (p, k, Some a) => Some (p, k, a)
    | (p, k, None) =>
        match find_good [1488; 1008; MIN] p k 0 with
        | (p, k, best, Some good) => bisect 10 p k best good MAX
        | (p, k, _, None) => Some (p, k, 1500)
        end
    end;
  let size := Z.max size MIN in
  match write_register p scps_addr size with
  | (p, Err e) => Some (p, k, 0%nat, Err e)
  | (p, Ok _) => drained ← drain_residue patience late 0; Some (p, k, drained, Ok size)
  end.

(** * Termination and bounds *)

Lemma probe_recv_bound n size l achieved a :
  0 <= size -> (forall b, achieved = Some b -> 0 <= b <= size) ->
  probe_recv n size l achieved = Some a -> 0 <= a <= size.
Proof.
  intros Hs. revert l achieved. induction n as [|n IH]; intros l achieved Ha; [by destruct l; cbn; auto|].
  destruct l as [|[len| |] l]; cbn; [auto| |by apply IH..].
  pose proof (wrap_range 16 (len + PACKET_UDP_OVERHEAD) ltac:(lia)) as Hw. set (dl := wrap 16 _) in *.
  destruct (dl <=? size) eqn:E; [|by apply IH].
  assert (0 <= match achieved with Some b => Z.max b dl | None => dl end <= size) as Hb.
  { destruct achieved as [b|]; [|lia]. specialize (Ha b eq_refl). lia. }
  destruct (dl =? size); [by intros [= <-]|]. apply IH. by intros b [= <-].
Qed.

Lemma probe_bound p k size :
  0 <= size -> (probe p k size).1.2 = S k /\ forall a, (probe p k size).2 = Some a -> 0 <= a <= size.
Proof.
  intros Hs. unfold probe. destruct (write_register _ _ _) as [p' [[]|e]]; cbn [fst snd]; split; try done.
  intros a. by apply probe_recv_bound.
Qed.

Lemma find_good_bound sizes p k best :
  Forall (fun c => 0 <= c <= MAX) sizes -> 0 <= best <= MAX ->
  let '(_, k', best', good) := find_good sizes p k best in
  (k' <= k + length sizes)%nat /\ 0 <= best' <= MAX /\ forall c, good = Some c -> c ∈ sizes.
Proof.
  intros Hs. revert p k best. induction Hs as [|c sizes Hc _ IH]; intros p k best Hb; cbn [find_good].
  { split_and!; [simpl; lia|lia|lia|done]. }
  destruct (probe_bound p k c ltac:(lia)) as [Hk Ha]. destruct (probe p k c) as [[p1 k1] [a|]]; cbn in *; subst k1.
  - specialize (Ha a eq_refl). split_and!; [lia|lia|lia|]. intros c' [= <-]. by constructor.
  - specialize (IH p1 (S k) best Hb). destruct (find_good sizes p1 (S k) best) as [[[p2 k2] b2] g2].
    destruct IH as (I1 & I2 & I3). split_and!; [lia|lia|lia|]. intros c' Hc'. apply elem_of_cons. right. by apply I3.
Qed.

(** The midpoint of [d] steps of 16. *)
Lemma midpoint good d : good + (good + d * INC - good) / 2 / INC * INC = good + d / 2 * INC.
Proof.
  unfold INC. replace (good + d * 16 - good) with (d * 8 * 2) by lia. rewrite Z.div_mul by lia.
  change 16 with (2 * 8) at 1. rewrite Z.div_mul_cancel_r by lia. done.
Qed.

Lemma half_bounds d n : 2 <= d -> d <= 2 * n -> 1 <= d / 2 < d /\ d / 2 <= n /\ d - d / 2 <= n /\ 1 <= d - d / 2.
Proof. intros H1 H2. pose proof (Z.div_mod d 2 ltac:(lia)). pose proof (Z.mod_pos_bound d 2 ltac:(lia)). lia. Qed.

(** The gap is a number of steps of 16 and halves each time. *)
Lemma bisect_bound fuel p k best good d :
  0 <= good -> 1 <= d <= 2 ^ Z.of_nat fuel -> good + d * INC <= MAX -> 0 <= best <= MAX ->
  exists p' k' best', bisect fuel p k best good (good + d * INC) = Some (p', k', best') /\
    (k' <= k + fuel)%nat /\ 0 <= best' <= MAX.
Proof.
  revert p k best good d. induction fuel as [|fuel IH]; intros p k best good d Hg Hd Hm Hb; cbn [bisect].
  { change (2 ^ Z.of_nat 0) with 1 in Hd. replace (_ <=? INC) with true by (unfold INC; lia).
    do 3 eexists. split; [done|]. split; [lia|done]. }
  destruct (_ <=? INC) eqn:E; [do 3 eexists; split; [done|]; split; [lia|done]|].
  assert (2 <= d) as Hd2 by (unfold INC in E; lia). rewrite Nat2Z.inj_succ, Z.pow_succ_r in Hd by lia.
  destruct (half_bounds d (2 ^ Z.of_nat fuel) Hd2 ltac:(lia)) as (H1 & H2 & H3 & H4).
  rewrite midpoint. set (h := d / 2) in *.
  destruct (probe_bound p k (good + h * INC) ltac:(unfold INC; lia)) as [Hk Ha].
  destruct (probe p k (good + h * INC)) as [[p1 k1] [a|]]; cbn [fst snd] in *; subst k1.
  - specialize (Ha a eq_refl). replace (good + d * INC) with (good + h * INC + (d - h) * INC) by lia.
    destruct (IH p1 (S k) (Z.max best a) (good + h * INC) (d - h)) as (p' & k' & b' & Hb' & Hk' & Hm');
      [unfold INC; lia|lia|lia|unfold INC in *; lia|]. do 3 eexists. split; [exact Hb'|]. split; [lia|done].
  - destruct (IH p1 (S k) best good h) as (p' & k' & b' & Hb' & Hk' & Hm'); [done|lia|unfold INC in *; lia|done|].
    do 3 eexists. split; [exact Hb'|]. split; [lia|done].
Qed.

(** A usual size, in steps below the largest. *)
Lemma start_gap good : good ∈ [1488; 1008; MIN] -> exists d, MAX = good + d * INC /\ 1 <= d <= 2 ^ Z.of_nat 10 /\ 0 <= good.
Proof.
  intros H. rewrite !elem_of_cons in H.
  destruct H as [-> |[-> |[-> |H%elem_of_nil]]]; [exists 479|exists 509|exists 537|done]; split; [done|lia|done|lia|done|unfold MIN; lia].
Qed.

(** The last loop ends with the first receive that fails. *)
Lemma drain_ends n f : forall i, (forall j, (i <= j < i + n)%nat -> late j <> RxError) -> late (i + n) = RxError -> (n < f)%nat ->
  drain_residue f late i = Some (S (i + n)).
Proof.
  revert f. induction n as [|n IH]; intros f i Hb He Hf; (destruct f as [|f]; [lia|]); cbn [drain_residue].
  - rewrite Nat.add_0_r in *. by rewrite He.
  - rewrite <- Nat.add_succ_comm in *.
    assert (drain_residue f late (S i) = Some (S (S i + n))) as H by (apply IH; [intros j Hj; apply Hb; lia|done|lia]).
    destruct (late i) eqn:E; [done..|]. destruct (Hb i ltac:(lia) E).
Qed.

Lemma drain_goes_on f : (forall i, late i <> RxError) -> forall i, drain_residue f late i = None.
Proof. intros H. induction f as [|f IH]; intros i; [done|]. cbn. specialize (H i). by destruct (late i). Qed.

(** The search ends, and the size it gives is written. *)
Lemma negotiation_searches (p : P) :
  exists p1 k size, (k <= 14)%nat /\ MIN <= size <= MAX /\ negotiate_packet_size p =
    match write_register p1 scps_addr size with
    | (p, Err e) => Some (p, k, 0%nat, Err e)
    | (p, Ok _) => drained ← drain_residue patience late 0; Some (p, k, drained, Ok size)
    end.
Proof.
  unfold negotiate_packet_size.
  match goal with |- context [?m ≫= _] => assert (exists p' k size, m = Some (p', k, size) /\ (k <= 14)%nat /\ 0 <= size <= MAX) as Hm end.
  { destruct (probe_bound p 0 MAX ltac:(by vm_compute)) as [Hk Ha]. destruct (probe p 0 MAX) as [[p1 k1] [a|]]; cbn [fst snd] in *; subst k1.
    { specialize (Ha a eq_refl). do 3 eexists. split; [done|]. split; [lia|done]. }
    pose proof (find_good_bound [1488; 1008; MIN] p1 1 0) as Hf.
    destruct (find_good [1488; 1008; MIN] p1 1 0) as [[[p2 k2] best] [good|]].
    - destruct Hf as (F1 & F2 & F3); [repeat constructor; by vm_compute|by vm_compute|].
      destruct (start_gap good (F3 good eq_refl)) as (d & Hd & Hd2 & Hg0).
      destruct (bisect_bound 10 p2 k2 best good d Hg0 Hd2 ltac:(lia) F2) as (p' & k' & b' & Hb & Hk & Hm).
      rewrite <- Hd in Hb. do 3 eexists. split; [exact Hb|]. simpl in F1. split; [lia|done].
    - destruct Hf as (F1 & _); [repeat constructor; by vm_compute|by vm_compute|]. simpl in F1.
      do 3 eexists. split; [done|]. split; [lia|by vm_compute]. }
  destruct Hm as (p' & k & size & -> & Hk & Hs). cbn [mbind option_bind].
  exists p', k, (Z.max size MIN). split_and!; [done|lia|unfold MIN, MAX in *; lia|done].
Qed.

(** The receive at which the socket falls silent. *)
Definition silent_at (n : nat) : Prop := (forall i, (i < n)%nat -> late i <> RxError) /\ late n = RxError.

Lemma negotiation_ends (p : P) n : silent_at n -> (n < patience)%nat ->
  exists p' k d r, negotiate_packet_size p = Some (p', k, d, r) /\ (k <= 14)%nat /\
    match r with Ok size => MIN <= size <= MAX /\ d = S n | Err _ => d = 0%nat end.
Proof.
  intros [Hb He] Hn. destruct (negotiation_searches p) as (p1 & k & size & Hk & Hs & ->).
  destruct (write_register p1 scps_addr size) as [p2 [[]|e]]; [|by do 4 eexists].
  rewrite (drain_ends n) by (done || (intros j Hj; apply Hb; lia)). by do 4 eexists.
Qed.

(** C28: the negotiation ends once the datagrams do.  Whatever the device and
    the network do it makes at most fourteen probes, and the packet size it
    settles on lies between the least and the largest size it may use; when
    that size is written, it reads the socket up to the first receive that
    fails, however many datagrams that takes, and then returns.  While the
    datagrams keep coming it does not return a size. *)
Theorem negotiation_bounded (p : P) :
  (forall n, silent_at n -> (n < patience)%nat ->
     exists p' k d r, negotiate_packet_size p = Some (p', k, d, r) /\ (k <= 14)%nat /\
       match r with Ok size => MIN <= size <= MAX /\ d = S n | Err _ => d = 0%nat end) /\
  ((forall i, late i <> RxError) -> forall p' k d size, negotiate_packet_size p <> Some (p', k, d, Ok size)).
Proof.
  split; [apply negotiation_ends|]. intros Hl p' k d size.
  destruct (negotiation_searches p) as (p1 & k1 & size1 & _ & _ & ->).
  destruct (write_register p1 scps_addr size1) as [p2 [[]|e]]; [|by intros [=]]. by rewrite drain_goes_on.
Qed.
End negotiate.

(** * The result on a path with a size limit *)

(** The test packets of a device with a largest size [mx] over a path that
    carries packets up to [limit]. *)
Definition device_size (mx : option Z) (size : Z) : Z := match mx with Some m => Z.min size m | None => size end.
Definition path (mx : option Z) (limit : Z) (_ : nat) (size : Z) : list Rx :=
  let s := device_size mx size in if s <=? limit then [RxDevice (s - PACKET_UDP_OVERHEAD)] else [].

Section exact.
Context (mx : option Z) (limit : Z) (scps_addr : Z).
Hypothesis Hmx : forall m, mx = Some m -> PACKET_UDP_OVERHEAD <= m <= U16_MAX.
Hypothesis Hscps : 0 <= scps_addr /\ scps_addr + 4 <= MEM_SIZE.

Lemma dev_write_ok p v : dp_ok p -> u32_ok v ->
  exists p', write_register p scps_addr v = (p', Ok tt) /\ dp_ok p'.
Proof.
  intros Hp Hv. unfold write_register. cbn [ask_write_regs DevPort_control].
  pose proof (dev_write_regs_ok p [(scps_addr, v)] Hp) as Hok. unfold dev_write_regs in *. cbn [write_pairs] in *.
  destruct Hp as [Hb Hl]. unfold in_mem in *. rewrite Hl in *. replace (_ <=? _) with true in * by lia.
  eexists. split; [done|]. apply Hok. constructor; [|done]. split; [unfold MEM_SIZE in *; width_lia|done].
Qed.

(** A probe delivers exactly when the device's size fits the path. *)
Lemma probe_path p k size :
  dp_ok p -> 28 <= size <= MAX ->
  exists p', probe (path mx limit) scps_addr p k size =
    (p', S k, if device_size mx size <=? limit then Some (device_size mx size) else None) /\ dp_ok p'.
Proof.
  intros Hp Hs. unfold probe. unfold MAX in Hs.
  destruct (dev_write_ok p (Z.lor (Z.lor size SCPS_FIRE_TEST_PACKET) SCPS_DO_NOT_FRAGMENT) Hp) as (p' & -> & Hp').
  { assert (0 <= Z.lor (Z.lor size SCPS_FIRE_TEST_PACKET) SCPS_DO_NOT_FRAGMENT < 2 ^ 32); [|width_lia].
    repeat apply lor_range; try lia; by vm_compute. }
  exists p'. split; [|done]. f_equal. unfold path.
  assert (0 <= device_size mx size <= size) as Hd by (unfold device_size; destruct mx as [m|]; [specialize (Hmx m eq_refl); unfold PACKET_UDP_OVERHEAD in Hmx|]; lia).
  destruct (device_size mx size <=? limit) eqn:E; [|done]. cbn [probe_recv].
  replace (device_size mx size - PACKET_UDP_OVERHEAD + PACKET_UDP_OVERHEAD) with (device_size mx size) by lia.
  rewrite wrap_small by width_lia. replace (device_size mx size <=? size) with true by lia.
  by destruct (_ =? size).
Qed.

(** The bisection closes in on the limit from both sides. *)
Lemma bisect_path fuel p k best good d :
  dp_ok p -> 28 <= good <= limit -> limit < good + d * INC -> good + d * INC <= MAX -> best = good ->
  (forall m, mx = Some m -> limit < m) -> 1 <= d <= 2 ^ Z.of_nat fuel ->
  exists p' k' e, bisect (path mx limit) scps_addr fuel p k best good (good + d * INC) = Some (p', k', good + e * INC) /\
    dp_ok p' /\ good + e * INC <= limit < good + (e + 1) * INC.
Proof.
  intros Hp Hg Hl Hm -> Hlim Hd. revert p k good d Hp Hg Hl Hm Hd. induction fuel as [|fuel IH]; intros p k good d Hp Hg Hl Hm Hd; cbn [bisect].
  { change (2 ^ Z.of_nat 0) with 1 in Hd. replace d with 1 in * by lia. replace (_ <=? INC) with true by (unfold INC; lia).
    exists p, k, 0. rewrite Z.mul_0_l, Z.add_0_r. split; [done|]. split; [done|lia]. }
  destruct (_ <=? INC) eqn:E.
  { replace d with 1 in * by (unfold INC in *; lia). exists p, k, 0. rewrite Z.mul_0_l, Z.add_0_r. split; [done|]. split; [done|lia]. }
  assert (2 <= d) as Hd2 by (unfold INC in E; lia). rewrite Nat2Z.inj_succ, Z.pow_succ_r in Hd by lia.
  destruct (half_bounds d (2 ^ Z.of_nat fuel) Hd2 ltac:(lia)) as (H1 & H2 & H3 & H4).
  rewrite midpoint. set (h := d / 2) in *. set (mid := good + h * INC).
  assert (28 <= mid <= MAX) as Hmid by (unfold mid, INC in *; lia).
  destruct (probe_path p k mid Hp Hmid) as (p1 & -> & Hp1).
  assert ((device_size mx mid <=? limit) = (mid <=? limit)) as ->.
  { unfold device_size. destruct mx as [m|]; [specialize (Hlim m eq_refl)|]; lia. }
  destruct (mid <=? limit) eqn:Em.
  - assert (device_size mx mid = mid) as ->.
    { unfold device_size. destruct mx as [m|]; [specialize (Hlim m eq_refl)|]; lia. }
    replace (Z.max good mid) with mid by (unfold mid, INC; lia).
    replace (good + d * INC) with (mid + (d - h) * INC) by (unfold mid; lia).
    destruct (IH p1 (S k) mid (d - h)) as (p' & k' & e & -> & Hp' & He); [done|lia|unfold mid in *; lia|unfold mid in *; lia|lia|].
    exists p', k', (h + e). replace (good + (h + e) * INC) with (mid + e * INC) by (unfold mid; lia).
    split; [done|]. split; [done|]. unfold mid in *. lia.
  - destruct (IH p1 (S k) good h) as (p' & k' & e & Hbi & Hp' & He); [done|done|unfold mid in *; lia|unfold mid in *; lia|lia|].
    exists p', k', e. split; [exact Hbi|done].
Qed.

(** The largest size the device can be asked for. *)
Definition top_size : Z := device_size mx MAX.

Definition expected_size : Z :=
  if top_size <=? limit then Z.max top_size MIN
  else if limit <? MIN then 1500
  else limit / INC * INC.

(** The search below the largest size. *)
Lemma search_path p :
  dp_ok p -> 0 <= limit < top_size ->
  exists p' k size, dp_ok p' /\
    match find_good (path mx limit) scps_addr [1488; 1008; MIN] p 1 0 with
    | (p, k, best, Some good) => bisect (path mx limit) scps_addr 10 p k best good MAX
    | (p, k, _, None) => Some (p, k, 1500)
    end = Some (p', k, size) /\ size = if limit <? MIN then 1500 else limit / INC * INC.
Proof.
  intros Hp Hl. unfold top_size in Hl.
  assert (limit < MAX /\ forall m, mx = Some m -> limit < m) as [HM Hlim].
  { unfold device_size in Hl. destruct mx as [m|]; [split; [lia|intros ? [= <-]; lia]|split; [lia|discriminate]]. }
  assert (forall c, c <= limit -> device_size mx c = c) as Hdev.
  { intros c Hc. unfold device_size. destruct mx as [m|]; [specialize (Hlim m eq_refl); lia|done]. }
  assert (forall c, (device_size mx c <=? limit) = (c <=? limit)) as Hle.
  { intros c. unfold device_size. destruct mx as [m|]; [specialize (Hlim m eq_refl); lia|done]. }
  assert (forall p k best good d, dp_ok p -> MAX = good + d * INC -> 28 <= good <= limit -> best = good -> 1 <= d <= 2 ^ Z.of_nat 10 ->
    good mod INC = 0 -> exists p' k' size, dp_ok p' /\ bisect (path mx limit) scps_addr 10 p k best good MAX = Some (p', k', size) /\
      size = limit / INC * INC) as Hbi.
  { intros q k best good d Hq Hd Hg Hb Hd2 Hmod.
    destruct (bisect_path 10 q k best good d Hq Hg ltac:(lia) ltac:(lia) Hb Hlim Hd2) as (p' & k' & e & Hr & Hp' & He).
    rewrite <- Hd in Hr. do 3 eexists. split; [exact Hp'|]. split; [exact Hr|]. unfold INC in *.
    pose proof (Z.div_mod limit 16). pose proof (Z.mod_pos_bound limit 16). pose proof (Z.div_mod good 16). lia. }
  cbn [find_good].
  destruct (probe_path p 1 1488 Hp ltac:(by vm_compute)) as (p1 & -> & Hp1). rewrite Hle. destruct (1488 <=? limit) eqn:E1.
  { rewrite Hdev by lia. destruct (Hbi p1 2%nat (Z.max 0 1488) 1488 479) as (p' & k' & size & ? & ? & ->); [done|done|lia|done|by vm_compute|done|].
    do 3 eexists. split_and!; [done|done|]. by replace (limit <? MIN) with false by (unfold MIN; lia). }
  destruct (probe_path p1 2 1008 Hp1 ltac:(by vm_compute)) as (p2 & -> & Hp2). rewrite Hle. destruct (1008 <=? limit) eqn:E2.
  { rewrite Hdev by lia. destruct (Hbi p2 3%nat (Z.max 0 1008) 1008 509) as (p' & k' & size & ? & ? & ->); [done|done|lia|done|by vm_compute|done|].
    do 3 eexists. split_and!; [done|done|]. by replace (limit <? MIN) with false by (unfold MIN; lia). }
  destruct (probe_path p2 3 MIN Hp2 ltac:(by vm_compute)) as (p3 & -> & Hp3). rewrite Hle. unfold MIN. destruct (560 <=? limit) eqn:E3.
  { rewrite Hdev by lia. destruct (Hbi p3 4%nat (Z.max 0 560) 560 537) as (p' & k' & size & ? & ? & ->); [done|done|lia|done|by vm_compute|done|].
    do 3 eexists. split_and!; [done|done|]. by replace (limit <? 560) with false by lia. }
  do 3 eexists. split_and!; [exact Hp3|done|]. by replace (limit <? 560) with true by lia.
Qed.
End exact.

(** C27: over a path that carries packets up to a limit, the negotiation finds
    the best size: the device's own largest if it gets through, otherwise the
    largest multiple of 16 the path carries, and 1500 when not even the
    smallest size arrives.  However many late datagrams still come before the
    socket falls silent, it reads them all first. *)
Theorem negotiation_exact (mx : option Z) (limit scps_addr : Z) (late : nat -> Rx) (n fuel : nat) (p : DevPort) :
  (forall m, mx = Some m -> PACKET_UDP_OVERHEAD <= m <= U16_MAX) -> 0 <= scps_addr /\ scps_addr + 4 <= MEM_SIZE ->
  dp_ok p -> 0 <= limit -> silent_at late n -> (n < fuel)%nat ->
  exists p' k, negotiate_packet_size (path mx limit) late fuel scps_addr p = Some (p', k, S n, Ok (expected_size mx limit)).
Proof.
  intros Hmx Hs Hp Hl [Hb He] Hn. unfold negotiate_packet_size, expected_size.
  destruct (probe_path mx limit scps_addr Hmx Hs p 0 MAX Hp ltac:(by vm_compute)) as (p1 & -> & Hp1). fold (top_size mx).
  assert (0 <= top_size mx <= MAX) as Ht.
  { unfold top_size, device_size. destruct mx as [m|]; [specialize (Hmx m eq_refl); unfold PACKET_UDP_OVERHEAD, MAX in *; lia|by vm_compute]. }
  assert (forall q k size, dp_ok q -> 0 <= size <= MAX ->
    exists p' k', ('((p, k, size) : DevPort * nat * Z) ← Some (q, k, size);
      let size := Z.max size MIN in
      match write_register p scps_addr size with
      | (p, Err e) => Some (p, k, 0%nat, Err e)
      | (p, Ok _) => drained ← drain_residue fuel late 0; Some (p, k, drained, Ok size)
      end) = Some (p', k', S n, Ok (Z.max size MIN))) as Hend.
  { intros q k size Hq Hsz. cbn [mbind option_bind]. destruct (dev_write_ok scps_addr Hs q (Z.max size MIN) Hq) as (p' & -> & _);
      [unfold MAX, MIN in *; width_lia|]. rewrite (drain_ends late n) by (done || (intros j Hj; apply Hb; lia)). by eauto. }
  destruct (top_size mx <=? limit) eqn:E.
  - apply Hend; done.
  - destruct (search_path mx limit scps_addr Hmx Hs p1 Hp1 ltac:(lia)) as (p' & k & size & Hp' & -> & ->).
    set (size := if limit <? MIN then 1500 else limit / INC * INC).
    assert (0 <= size <= MAX /\ Z.max size MIN = size) as [Hsz Hmax].
    { unfold size, INC. destruct (limit <? MIN) eqn:El; [by vm_compute|].
      pose proof (Z.div_mod limit 16). pose proof (Z.mod_pos_bound limit 16).
      assert (35 <= limit / 16) by (apply Z.div_le_lower_bound; unfold MIN in *; lia). unfold MIN, MAX in *. lia. }
    destruct (Hend p' k size Hp' Hsz) as (p2 & k2 & H2). rewrite Hmax in H2. exists p2, k2. exact H2.
Qed.

(** Two more datagrams come before the socket falls silent. *)
Definition ex_late (i : nat) : Rx := match i with O => RxDevice 3972 | S O => RxOther | _ => RxError end.

Lemma ex_late_silent : silent_at ex_late 2.
Proof. split; [|done]. intros [|[|[]]] Hi; [done|done|lia|lia]. Qed.

Lemma negotiation_exact_witness :
  let p := mkDevPort (d_mem blank_device) None in
  exists p' k, negotiate_packet_size (path (Some 8000) 4000) ex_late 10 STREAM_CHANNEL_PACKET_SIZE p = Some (p', k, 3%nat, Ok 4000).
Proof.
  intros p. apply (negotiation_exact (Some 8000) 4000 STREAM_CHANNEL_PACKET_SIZE ex_late 2 10 p);
    [intros m [= <-]; by vm_compute|by vm_compute| |done|apply ex_late_silent|lia].
  pose proof blank_device_ok as []. by split.
Defined.

Lemma negotiation_bounded_witness :
  exists p' k d r, negotiate_packet_size (path None 4000) ex_late 10 STREAM_CHANNEL_PACKET_SIZE (mkDevPort (d_mem blank_device) None) =
      Some (p', k, d, r) /\ (k <= 14)%nat /\
    match r with Ok size => MIN <= size <= MAX /\ d = 3%nat | Err _ => d = 0%nat end.
Proof.
  apply (proj1 (negotiation_bounded (path None 4000) ex_late 10 STREAM_CHANNEL_PACKET_SIZE (mkDevPort (d_mem blank_device) None)) 2%nat).
  - apply ex_late_silent.
  - lia.
Defined.

Example negotiation_values :
  expected_size None 9000 = 8992 /\ expected_size None 1500 = 1488 /\ expected_size (Some 1400) 9000 = 1400 /\
  expected_size None 20000 = 9152 /\ expected_size None 500 = 1500 /\ expected_size None 575 = 560.
Proof. by vm_compute. Qed.
