(* ===== verification/StreamOpen.v ===== *)
(** Opening and closing a stream channel: the model of [open_stream_inner] of
    [src/src/gige/mod.rs] and of the drop of [StreamChannel] in
    [src/src/gige/stream/mod.rs].

    The outcomes of the operating system are arguments: the option checks, the
    bound socket, the routing lookup, the spawn of the receive thread, and the
    packets of the size negotiation. *)

From stdpp Require Import gmap.
From S2P Require Import Prelude Gvcp Gvsp Channel Float64 Frame Reassembly Text Bootstrap Zip Url Emulator DeviceControl.
From S2P Require Import Errors Control DeviceSpec ControlLink Register Evaluator Formula NodeGraph NodeTotal Camera NodeAccess.
From S2P Require Import XmlGraph Description ControlPort Session SessionSpec PacketSize.

(** The stream configuration with the address its socket is bound to. *)
Record OpenConfig := { oc_stream :> StreamConfig; oc_local_addr : option (IpAddr * Z) }.

Definition channel_base (cfg : OpenConfig) : Z := cfg_channel cfg * STREAM_CHANNEL_STRIDE.

(** What the operating system did.  [oe_late]: what arrives on the stream socket
    after the size is negotiated, until it falls silent. *)
Record OpenEnv := {
  oe_checked : result CameraError unit;
  oe_route : Route;
  oe_bound : result CameraError (IpAddr * Z);
  oe_rx : nat -> Z -> list Rx;
  oe_late : list Rx;
  oe_spawned : result CameraError unit }.

(** The channel with the parameters its receiver was started with. *)
Record StreamChannel := {
  sh_channel_base : Z;
  sh_packet_size : Z;
  sh_local_addr : IpAddr * Z;
  sh_payload_size : Z;
  sh_resend_enabled : bool;
  sh_tick_frequency : Z }.

Section open.
Context {P : Type} {C : Control P}.
Implicit Types (p : P) (s : Session P).

(** The receives after a negotiation: the socket times out after the last. *)
Definition late_rx (env : OpenEnv) (i : nat) : Rx := nth i (oe_late env) RxError.

(** The packet size: written as configured, or negotiated. *)
Definition settle_packet_size (cfg : OpenConfig) (env : OpenEnv) p : option (P * result CameraError Z) :=
  let scps_addr := STREAM_CHANNEL_PACKET_SIZE + channel_base cfg in
  match cfg_packet_size cfg with
  | PsFixed n =>
      let '(p, r) := write_register p scps_addr n in
      Some (p, match r with Ok _ => Ok n | Err e => Err e end)
  | PsAuto =>
      '((p, _, _, r) : P * nat * nat * result CameraError Z) ←
        negotiate_packet_size (oe_rx env) (late_rx env) (S (length (oe_late env))) scps_addr p;
      Some (p, r)
  end.

Definition write_packet_delay (cfg : OpenConfig) : Ses P unit :=
  match cfg_packet_delay cfg with
  | Some delay => do_write_register (STREAM_CHANNEL_PACKET_DELAY + channel_base cfg) delay
  | None => mret tt
  end.

(** Two registers, or 0 when they cannot be read. *)
Definition read_tick_frequency p : option (P * Z) :=
  match read_registers p [TIMESTAMP_TICK_FREQUENCY_HIGH; TIMESTAMP_TICK_FREQUENCY_LOW] with
  | (p, Ok v) => high ← v !! 0%nat; low ← v !! 1%nat; Some (p, Z.lor (Z.shiftl high 32) low)
  | (p, Err _) => Some (p, 0)
  end.

(** The part that closes the channel again when it fails. *)
Definition open_rest (cfg : OpenConfig) (env : OpenEnv) s (payload_size : Z) (bound : IpAddr * Z) p
    : option (P * result CameraError StreamChannel) :=
  '((p, r) : P * result CameraError Z) ← settle_packet_size cfg env p;
  match r with
  | Err e => Some (p, Err e)
  | Ok packet_size =>
      match write_packet_delay cfg p with
      | (p, Err e) => Some (p, Err e)
      | (p, Ok _) =>
          '((p, tick_frequency) : P * Z) ← read_tick_frequency p;
          match oe_spawned env with
          | Err e => Some (p, Err e)
          | Ok _ =>
              Some (p, Ok {| sh_channel_base := channel_base cfg; sh_packet_size := packet_size;
                             sh_local_addr := bound; sh_payload_size := payload_size;
                             sh_resend_enabled := match cfg_resend cfg with RpAlways => true | RpNever => false end && negb (Z.land (ss_capabilities s) CAP_PACKET_RESEND =? 0);
                             sh_tick_frequency := tick_frequency |})
          end
      end
  end.

Definition close_port (base : Z) p : P := fst (write_register p (STREAM_CHANNEL_PORT + base) 0).

(** The registers of a channel bound to an IPv4 address. *)
Definition open_bound (cfg : OpenConfig) (env : OpenEnv) s (payload_size host : Z) (bound : IpAddr * Z) p
    : option (P * result CameraError StreamChannel) :=
  let base := channel_base cfg in
  match write_register p (STREAM_CHANNEL_DEST_ADDRESS + base) host with
  | (p, Err e) => Some (p, Err e)
  | (p, Ok _) =>
      match write_register p (STREAM_CHANNEL_PORT + base) (snd bound) with
      | (p, Err e) => Some (p, Err e)
      | (p, Ok _) =>
          '((p, r) : P * result CameraError StreamChannel) ← open_rest cfg env s payload_size bound p;
          Some (match r with Ok _ => p | Err _ => close_port base p end, r)
      end
  end.

Definition open_stream (cfg : OpenConfig) (env : OpenEnv) (cam : option (Session P))
    : option (option (Session P) * result CameraError StreamChannel) :=
  match cfg_payload_size cfg with
  | None => Some (cam, Err (Protocol PayloadSizeUnset))
  | Some payload_size =>
      if payload_size <=? 0 then Some (cam, Err (Protocol PayloadSizeUnset))
      else
        match oe_checked env, ses_conn cam with
        | Err e, _ => Some (cam, Err e)
        | _, Err e => Some (cam, Err e)
        | Ok _, Ok s =>
            match match oc_local_addr cfg with
                  | Some _ => Ok tt
                  | None => _ ← advertised_host_ip s (oe_route env); Ok tt
                  end, oe_bound env with
            | Err e, _ | _, Err e => Some (cam, Err e)
            | Ok _, Ok (V6 _, _) => Some (cam, Err Unsupported)
            | Ok _, Ok ((V4 host, port) as bound) =>
                '((p, r) : P * result CameraError StreamChannel) ← open_bound cfg env s payload_size host bound (cn_port (ss_conn s));
                Some (Some (with_port s p), r)
            end
        end
  end.

(** Dropping the channel closes it on the device. *)
Definition close_stream (ch : StreamChannel) p : P := close_port (sh_channel_base ch) p.
End open.

(** * The negotiation touches one register *)

Section keeps.
Context {P : Type} {C : Control P} (rx : nat -> Z -> list Rx) (late : nat -> Rx) (patience : nat) (scps_addr : Z) (Q : P -> Prop).
Hypothesis Hq : forall p v, Q p -> Q (fst (write_register p scps_addr v)).

Lemma probe_keeps p k size : Q p -> Q (probe rx scps_addr p k size).1.1.
Proof.
  intros H. unfold probe. specialize (Hq p (Z.lor (Z.lor size SCPS_FIRE_TEST_PACKET) SCPS_DO_NOT_FRAGMENT) H).
  by destruct (write_register _ _ _) as [p' []].
Qed.

Lemma find_good_keeps sizes p k best : Q p -> Q (find_good rx scps_addr sizes p k best).1.1.1.
Proof.
  revert p k best. induction sizes as [|c sizes IH]; intros p k best H; [done|]. cbn [find_good].
  pose proof (probe_keeps p k c H) as Hp. destruct (probe rx scps_addr p k c) as [[p1 k1] [a|]]; [done|]. by apply IH.
Qed.

Lemma bisect_keeps fuel p k best good bad p' k' best' :
  Q p -> bisect rx scps_addr fuel p k best good bad = Some (p', k', best') -> Q p'.
Proof.
  revert p k best good bad. induction fuel as [|fuel IH]; intros p k best good bad H; cbn [bisect];
    (destruct (_ <=? INC); [by intros [= <- _ _]|]); [done|].
  set (mid := good + _). pose proof (probe_keeps p k mid H) as Hp.
  destruct (probe rx scps_addr p k mid) as [[p1 k1] [a|]]; by apply IH.
Qed.

Lemma negotiate_keeps p p' k d r : Q p -> negotiate_packet_size rx late patience scps_addr p = Some (p', k, d, r) -> Q p'.
Proof.
  intros H. unfold negotiate_packet_size. pose proof (probe_keeps p 0 MAX H) as Hp.
  match goal with |- ?m ≫= _ = _ -> _ => assert (forall q n size, m = Some (q, n, size) -> Q q) as Hm; [|destruct m as [[[q n] size]|]; [|discriminate]] end.
  { intros q n size. destruct (probe rx scps_addr p 0 MAX) as [[p1 k1] [a|]]; [by intros [= <- _ _]|].
    pose proof (find_good_keeps [1488; 1008; MIN] p1 k1 0 Hp) as Hf.
    destruct (find_good _ _ _ _ _ _) as [[[p2 k2] best] [good|]]; [by apply bisect_keeps|by intros [= <- _ _]]. }
  specialize (Hm q n size eq_refl). cbn [mbind option_bind]. pose proof (Hq q (Z.max size MIN) Hm) as Hw.
  destruct (write_register q scps_addr (Z.max size MIN)) as [p2 [[]|e]]; [|by intros [= <- _ _ _]].
  destruct (drain_residue patience late 0); [|discriminate]. by intros [= <- _ _ _].
Qed.
End keeps.

(** The socket of an opening falls silent. *)
Lemma late_silent env : exists n, silent_at (late_rx env) n /\ (n < S (length (oe_late env)))%nat.
Proof.
  unfold late_rx. induction (oe_late env) as [|x l (n & [Hb He] & Hn)]; [exists 0%nat; split; [split; [lia|done]|simpl; lia]|].
  destruct (decide (x = RxError)) as [->|Hx]; [exists 0%nat; split; [split; [lia|done]|simpl; lia]|].
  exists (S n). split; [|simpl in *; lia]. split; [|exact He]. intros [|i] Hi; [exact Hx|apply Hb; lia].
Qed.

(** A negotiated size is within the bounds. *)
Lemma negotiated {P} {C : Control P} env scps_addr (p : P) :
  exists p' k d r, negotiate_packet_size (oe_rx env) (late_rx env) (S (length (oe_late env))) scps_addr p = Some (p', k, d, r) /\
    forall size, r = Ok size -> MIN <= size <= MAX.
Proof.
  destruct (late_silent env) as (n & Hs & Hn).
  destruct (negotiation_ends (oe_rx env) (late_rx env) _ scps_addr p n Hs Hn) as (p' & k & d & r & H & _ & Hr).
  exists p', k, d, r. split; [done|]. intros size ->. tauto.
Qed.

(** * The registers of an open channel *)

Lemma dev_write_any p a v :
  dp_ok p -> 0 <= a -> a + 4 <= MEM_SIZE ->
  exists p', write_register p a v = (p', Ok tt) /\ dp_ok p' /\
    forall b, b + 4 <= a \/ a + 4 <= b -> word (dp_mem p') b = word (dp_mem p) b.
Proof.
  intros Hp Ha Hl. pose proof Hp as [Hb Hm]. unfold write_register. cbn [ask_write_regs DevPort_control]. unfold dev_write_regs.
  cbn [write_pairs]. rewrite in_mem_dev by done. eexists. split; [reflexivity|]. split.
  - split; cbn; [apply splice_bytes_ok; [done|apply be_encode_ok]|]. rewrite zlen_splice; [done|done|rewrite zlen_be_encode; lia].
  - intros b Hd. cbn. apply word_splice_other; rewrite ?zlen_be_encode; [done|lia|lia].
Qed.

(** The registers of channel [c]; [v] is not rounded outside the packet-size
    registers. *)
Definition channel_reg (reg c : Z) : Z := reg + c * STREAM_CHANNEL_STRIDE.
Definition channel_fits (c : Z) : Prop := 0 <= c /\ channel_reg STREAM_CHANNEL_DEST_ADDRESS c + 4 <= MEM_SIZE.

Lemma dev_write_channel p reg c v :
  dp_ok p -> channel_fits c -> u32_ok v -> reg = STREAM_CHANNEL_PORT \/ reg = STREAM_CHANNEL_DEST_ADDRESS ->
  exists p', write_register p (channel_reg reg c) v = (p', Ok tt) /\ dp_ok p' /\
    word (dp_mem p') (channel_reg reg c) = v /\
    forall b, b + 4 <= channel_reg reg c \/ channel_reg reg c + 4 <= b -> word (dp_mem p') b = word (dp_mem p) b.
Proof.
  intros Hp [Hc Hl] Hv Hr. unfold channel_reg, STREAM_CHANNEL_STRIDE in *.
  destruct (dev_write_register p (reg + c * 0x40) v Hp) as (W & Hp' & R & O); [| done | | |].
  - unfold MEM_SIZE, STREAM_CHANNEL_DEST_ADDRESS, STREAM_CHANNEL_PORT in *. width_lia.
  - unfold STREAM_CHANNEL_DEST_ADDRESS, STREAM_CHANNEL_PORT in *. lia.
  - unfold STREAM_CHANNEL_DEST_ADDRESS, STREAM_CHANNEL_PORT, STREAM_CHANNEL_PACKET_SIZE in *. lia.
  - eexists. split; [exact W|]. split; [done|]. split; [done|]. intros b Hb. unfold word. by rewrite O by (done || lia).
Qed.

Lemma dev_close_port c p :
  dp_ok p -> channel_fits c ->
  dp_ok (close_port (c * STREAM_CHANNEL_STRIDE) p) /\
  word (dp_mem (close_port (c * STREAM_CHANNEL_STRIDE) p)) (channel_reg STREAM_CHANNEL_PORT c) = 0.
Proof.
  intros Hp Hc. destruct (dev_write_channel p STREAM_CHANNEL_PORT c 0 Hp Hc) as (p' & W & Hp' & R & _); [const_range|by left|].
  unfold close_port. change (STREAM_CHANNEL_PORT + c * STREAM_CHANNEL_STRIDE) with (channel_reg STREAM_CHANNEL_PORT c).
  by rewrite W.
Qed.

(** The two registers that say where the stream goes. *)
Definition aimed (c host port : Z) (p : DevPort) : Prop :=
  dp_ok p /\ word (dp_mem p) (channel_reg STREAM_CHANNEL_DEST_ADDRESS c) = host /\
  word (dp_mem p) (channel_reg STREAM_CHANNEL_PORT c) = port.

Lemma aimed_write c host port p reg v :
  channel_fits c -> reg = STREAM_CHANNEL_PACKET_SIZE \/ reg = STREAM_CHANNEL_PACKET_DELAY -> aimed c host port p ->
  exists p', write_register p (channel_reg reg c) v = (p', Ok tt) /\ aimed c host port p'.
Proof.
  intros [Hc Hl] Hr (Hp & H1 & H2).
  destruct (dev_write_any p (channel_reg reg c) v Hp) as (p' & W & Hp' & O).
  - unfold channel_reg, STREAM_CHANNEL_STRIDE, STREAM_CHANNEL_PACKET_SIZE, STREAM_CHANNEL_PACKET_DELAY in *. lia.
  - unfold channel_reg, STREAM_CHANNEL_STRIDE, STREAM_CHANNEL_PACKET_SIZE, STREAM_CHANNEL_PACKET_DELAY, STREAM_CHANNEL_DEST_ADDRESS in *. lia.
  - exists p'. split; [done|]. split; [done|]. rewrite !O; [done|..];
      unfold channel_reg, STREAM_CHANNEL_STRIDE, STREAM_CHANNEL_PACKET_SIZE, STREAM_CHANNEL_PACKET_DELAY, STREAM_CHANNEL_DEST_ADDRESS, STREAM_CHANNEL_PORT in *; lia.
Qed.

(** The packet size the receiver is told: the configured one, or one the
    negotiation may settle on. *)
Definition size_settled (cfg : OpenConfig) (size : Z) : Prop :=
  match cfg_packet_size cfg with PsFixed n => size = n | PsAuto => MIN <= size <= MAX end.

Lemma settle_aimed (cfg : OpenConfig) env host port p :
  channel_fits (cfg_channel cfg) -> aimed (cfg_channel cfg) host port p ->
  exists p1 r1, settle_packet_size cfg env p = Some (p1, r1) /\ aimed (cfg_channel cfg) host port p1 /\
    forall size, r1 = Ok size -> size_settled cfg size.
Proof.
  intros Hc Ha. unfold settle_packet_size, size_settled.
  change (STREAM_CHANNEL_PACKET_SIZE + channel_base cfg) with (channel_reg STREAM_CHANNEL_PACKET_SIZE (cfg_channel cfg)).
  destruct (cfg_packet_size cfg) as [|n].
  - destruct (negotiated env (channel_reg STREAM_CHANNEL_PACKET_SIZE (cfg_channel cfg)) p) as (p1 & k & d & r & Hn & Hr).
    rewrite Hn. cbn [mbind option_bind]. do 2 eexists. split; [done|]. split; [|exact Hr].
    eapply (negotiate_keeps _ _ _ _ (aimed (cfg_channel cfg) host port)); [|exact Ha|exact Hn].
    intros q v Hq. destruct (aimed_write (cfg_channel cfg) host port q STREAM_CHANNEL_PACKET_SIZE v Hc) as (q' & -> & Hq'); [by left|done|done].
  - destruct (aimed_write (cfg_channel cfg) host port p STREAM_CHANNEL_PACKET_SIZE n Hc) as (q' & -> & Hq'); [by left|done|].
    do 2 eexists. split; [done|]. split; [done|]. by intros size [= <-].
Qed.

Lemma open_rest_aimed (cfg : OpenConfig) env s payload_size bound host port p :
  channel_fits (cfg_channel cfg) -> aimed (cfg_channel cfg) host port p ->
  exists p' r, open_rest cfg env s payload_size bound p = Some (p', r) /\ aimed (cfg_channel cfg) host port p' /\
    forall ch, r = Ok ch -> sh_channel_base ch = channel_base cfg /\ sh_local_addr ch = bound /\
      sh_payload_size ch = payload_size /\ size_settled cfg (sh_packet_size ch).
Proof.
  intros Hc Ha. unfold open_rest.
  destruct (settle_aimed cfg env host port p Hc Ha) as (p1 & r1 & -> & Ha1 & Hsize).
  cbn [mbind option_bind]. destruct r1 as [packet_size|e]; [|do 2 eexists; split; [done|]; by split].
  assert (exists p2, write_packet_delay cfg p1 = (p2, Ok tt) /\ aimed (cfg_channel cfg) host port p2) as (p2 & -> & Ha2).
  { unfold write_packet_delay. destruct (cfg_packet_delay cfg) as [delay|]; [|by eauto].
    destruct (aimed_write (cfg_channel cfg) host port p1 STREAM_CHANNEL_PACKET_DELAY delay Hc) as (q' & W & Hq'); [by right|done|]. by eauto. }
  unfold read_tick_frequency. pose proof (dev_read_registers p2 [TIMESTAMP_TICK_FREQUENCY_HIGH; TIMESTAMP_TICK_FREQUENCY_LOW]) as Hr.
  unfold do_read_registers in Hr. rewrite Hr; [|by destruct Ha2|repeat apply Forall_cons_2; [by vm_compute..|constructor]].
  cbn [fmap list_fmap lookup list_lookup mbind option_bind]. destruct (oe_spawned env) as [[]|e]; do 2 eexists; (split; [done|]); (split; [done|]).
  - intros ch [= <-]. split_and!; try done. by apply Hsize.
  - discriminate.
Qed.

(** The emulator sends where the registers say. *)
Lemma aimed_dest c host port p d :
  c = 0 -> aimed c host port p -> d_mem d = dp_mem p -> u16_ok port -> host <> 0 -> port <> 0 ->
  stream_dest d = Some (Some (host, port)).
Proof.
  intros -> ([Hb Hl] & H1 & H2) Hm Hp Hh Hp0. unfold stream_dest, read_reg, mem_read. rewrite Hm.
  rewrite !block_read by (rewrite ?Hl; by vm_compute). cbn [fmap option_fmap option_map mbind option_bind].
  unfold channel_reg, word in H1, H2. rewrite Z.mul_0_l, Z.add_0_r in H1, H2. rewrite H1, H2.
  change 0xffff with (Z.ones 16). rewrite Z.land_ones, Z.mod_small by width_lia.
  replace (port =? 0) with false by lia. by replace (host =? 0) with false by lia.
Qed.

Lemma open_bound_spec (cfg : OpenConfig) env s payload_size host port p :
  dp_ok p -> channel_fits (cfg_channel cfg) -> u32_ok host -> u16_ok port ->
  exists p' r, open_bound cfg env s payload_size host (V4 host, port) p = Some (p', r) /\ dp_ok p' /\
    match r with
    | Ok ch => aimed (cfg_channel cfg) host port p' /\ sh_channel_base ch = channel_base cfg /\
               sh_local_addr ch = (V4 host, port) /\ sh_payload_size ch = payload_size /\ size_settled cfg (sh_packet_size ch)
    | Err _ => word (dp_mem p') (channel_reg STREAM_CHANNEL_PORT (cfg_channel cfg)) = 0
    end.
Proof.
  intros Hp Hc Hh Hpo. unfold open_bound. cbn [snd].
  change (STREAM_CHANNEL_DEST_ADDRESS + channel_base cfg) with (channel_reg STREAM_CHANNEL_DEST_ADDRESS (cfg_channel cfg)).
  change (STREAM_CHANNEL_PORT + channel_base cfg) with (channel_reg STREAM_CHANNEL_PORT (cfg_channel cfg)).
  destruct (dev_write_channel p STREAM_CHANNEL_DEST_ADDRESS (cfg_channel cfg) host Hp Hc Hh) as (p1 & -> & Hp1 & R1 & _); [by right|].
  destruct (dev_write_channel p1 STREAM_CHANNEL_PORT (cfg_channel cfg) port Hp1 Hc) as (p2 & -> & Hp2 & R2 & O2); [width_lia|by left|].
  assert (aimed (cfg_channel cfg) host port p2) as Ha.
  { split; [done|]. split; [|done]. rewrite O2; [done|]. unfold channel_reg, STREAM_CHANNEL_STRIDE, STREAM_CHANNEL_DEST_ADDRESS, STREAM_CHANNEL_PORT. lia. }
  destruct (open_rest_aimed cfg env s payload_size (V4 host, port) host port p2 Hc Ha) as (p3 & r & -> & Ha3 & Hch).
  cbn [mbind option_bind]. destruct r as [ch|e].
  - destruct (Hch ch eq_refl) as (? & ? & ? & ?). do 2 eexists. split; [done|]. split; [by destruct Ha3|]. by split_and!.
  - destruct (dev_close_port (cfg_channel cfg) p3) as [Hp4 R4]; [by destruct Ha3|done|]. do 2 eexists. split; [done|]. by split.
Qed.

Lemma open_stream_spec (cfg : OpenConfig) (env : OpenEnv) (s : Session DevPort) :
  let cam := Some s in
  dp_ok (cn_port (ss_conn s)) -> channel_fits (cfg_channel cfg) ->
  (forall host port, oe_bound env = Ok (V4 host, port) -> u32_ok host /\ u16_ok port) ->
  exists cam' r, open_stream cfg env cam = Some (cam', r) /\
    match r with
    | Ok ch =>
        exists p' host port, cam' = Some (with_port s p') /\ oe_bound env = Ok (V4 host, port) /\
          cfg_payload_size cfg = Some (sh_payload_size ch) /\ size_settled cfg (sh_packet_size ch) /\
          sh_channel_base ch = channel_base cfg /\ sh_local_addr ch = (V4 host, port) /\
          aimed (cfg_channel cfg) host port p' /\
          (forall d, d_mem d = dp_mem p' -> cfg_channel cfg = 0 -> host <> 0 -> port <> 0 ->
             stream_dest d = Some (Some (host, port))) /\
          word (dp_mem (close_stream ch p')) (channel_reg STREAM_CHANNEL_PORT (cfg_channel cfg)) = 0
    | Err _ =>
        cam' = cam \/ exists p', cam' = Some (with_port s p') /\
                        word (dp_mem p') (channel_reg STREAM_CHANNEL_PORT (cfg_channel cfg)) = 0
    end.
Proof.
  intros cam Hp Hc Hb. unfold open_stream, cam.
  destruct (cfg_payload_size cfg) as [n|]; [|do 2 eexists; split; [done|]; by left].
  destruct (n <=? 0); [do 2 eexists; split; [done|]; by left|].
  destruct (oe_checked env); [|do 2 eexists; split; [done|]; by left].
  unfold ses_conn. destruct (negb (cn_alive (ss_conn s))); [do 2 eexists; split; [done|]; by left|].
  match goal with |- context [match ?m with Ok _ => _ | Err _ => _ end] => destruct m end; [|do 2 eexists; split; [done|]; by left].
  destruct (oe_bound env) as [[[host|host] port]|] eqn:Eb; [|do 2 eexists; split; [done|]; by left..].
  destruct (Hb host port eq_refl) as [Hh Hpo].
  destruct (open_bound_spec cfg env s n host port _ Hp Hc Hh Hpo) as (p' & r & -> & Hp' & Hr). cbn [mbind option_bind].
  do 2 eexists. split; [done|]. destruct r as [ch|e]; [|right; eauto].
  destruct Hr as (Ha & Hbase & Hlocal & Hpay & Hsize). exists p', host, port. split_and!; try done; [by rewrite Hpay| |].
  - intros d Hd Hc0 Hh0 Hp0. by eapply aimed_dest.
  - unfold close_stream. rewrite Hbase. by apply dev_close_port.
Qed.

(** Negotiated over a path of 4000 bytes, on a blank device. *)
Definition ex_open : OpenConfig :=
  {| oc_stream := {| cfg_channel := 0; cfg_payload_size := Some 307200; cfg_n_buffers := 8; cfg_packet_size := PsAuto;
                     cfg_packet_delay := None; cfg_resend := RpAlways; cfg_initial_packet_timeout := 1000000;
                     cfg_packet_timeout := 20000000; cfg_frame_retention := 100000000;
                     cfg_packet_request_ratio := f64_of_decimal 25 (-2) |};
     oc_local_addr := None |}.
Definition ex_open_env : OpenEnv :=
  {| oe_checked := Ok tt; oe_route := RouteFailed; oe_bound := Ok (V4 5, 40010); oe_rx := path None 4000; oe_late := [RxDevice 3972]; oe_spawned := Ok tt |}.

(** The parameters the receiver is started with. *)
Example ex_open_runs :
  (fun x => match snd x with Ok ch => Some (sh_packet_size ch, sh_resend_enabled ch, sh_tick_frequency ch) | Err _ => None end)
    <$> open_stream ex_open ex_open_env (Some (ex_session_on blank_device)) = Some (Some (4000, false, 0)).
Proof. vm_compute. reflexivity. Qed.
