(* ===== verification/LossyOpen.v ===== *)
(** Opening a stream over a link that loses requests and acknowledges.

    [LossyPort] is a control port of [ControlPort.Control] on a device's memory
    where the worker may give up on any request: the device then did what was
    asked and only the acknowledge is missing, or it did not (the request never
    came through, or was refused).  The requests are logged, so that what
    [open_stream] leaves behind when it fails can be told from what was lost. *)

From stdpp Require Import gmap.
From S2P Require Import Prelude Gvcp Gvsp Channel Float64 Frame Reassembly Text Bootstrap Zip Url Emulator DeviceControl.
From S2P Require Import Errors Control DeviceSpec ControlLink Register Evaluator Formula NodeGraph NodeTotal Camera NodeAccess.
From S2P Require Import XmlGraph Description ControlPort Session SessionSpec PacketSize StreamOpen.

(** * The port *)

(** What becomes of a request: answered; done, with the error that took the
    place of the acknowledge; or not done. *)
Inductive Fate := Acked | Unacked (e : CameraError) | Lost (e : CameraError).

(** [lp_fates]: of the requests to come, and after these all are answered. *)
Record LossyPort := mkLossyPort { lp_dev : DevPort; lp_fates : list Fate; lp_log : list (list (Z * Z) * Fate) }.

Definition next_fate (p : LossyPort) : Fate := default Acked (head (lp_fates p)).

(** [pairs]: what the request writes, for the log. *)
Definition lossy {A} (pairs : list (Z * Z)) (ask : DevPort -> DevPort * result CameraError A) (p : LossyPort)
    : LossyPort * result CameraError A :=
  let f := next_fate p in
  let '(dev, r) := ask (lp_dev p) in
  let after dev := mkLossyPort dev (tail (lp_fates p)) (lp_log p ++ [(pairs, f)]) in
  match f with
  | Acked => (after dev, r)
  | Unacked e => (after dev, Err e)
  | Lost e => (after (lp_dev p), Err e)
  end.

Lemma lossy_dev {A} pairs (ask : DevPort -> DevPort * result CameraError A) p :
  lp_dev (lossy pairs ask p).1 = (ask (lp_dev p)).1 \/ lp_dev (lossy pairs ask p).1 = lp_dev p.
Proof. unfold lossy. destruct (ask (lp_dev p)) as [dev r]. destruct (next_fate p); cbn; auto. Qed.

Lemma lossy_ok {A} pairs (ask : DevPort -> DevPort * result CameraError A) p a :
  (lossy pairs ask p).2 = Ok a -> (ask (lp_dev p)).2 = Ok a.
Proof. unfold lossy. destruct (ask (lp_dev p)) as [dev r]. by destruct (next_fate p). Qed.

Definition lp_ok (p : LossyPort) : Prop := dp_ok (lp_dev p).

Lemma lossy_keeps {A} pairs (ask : DevPort -> DevPort * result CameraError A) p :
  lp_ok p -> dp_ok (ask (lp_dev p)).1 -> lp_ok (lossy pairs ask p).1.
Proof. intros H1 H2. unfold lp_ok in *. by destruct (lossy_dev pairs ask p) as [-> | ->]. Qed.

#[export] Instance LossyPort_control : Control LossyPort.
Proof.
  refine {|
    ask_read_reg p a := lossy [] (fun d => dev_read_reg d a) p;
    ask_read_regs p addrs := lossy [] (fun d => dev_read_regs d addrs) p;
    ask_write_regs p pairs := lossy pairs (fun d => dev_write_regs d pairs) p;
    ask_read_mem p a n := lossy [] (fun d => dev_read_mem d a n) p;
    ask_write_mem p a data := lossy [] (fun d => dev_write_mem d a data) p;
    ctl_ok := lp_ok |}.
  - intros p a Hp Ha. destruct (dev_read_reg_ok (lp_dev p) a Hp Ha) as [H1 H2].
    split; [by apply lossy_keeps|]. intros v Hv. by apply H2, (lossy_ok _ _ _ _ Hv).
  - intros p pairs Hp Ha. apply lossy_keeps; [done|]. by apply dev_write_regs_ok.
  - intros p a n Hp Ha Hn. destruct (dev_read_mem_ok (lp_dev p) a n Hp Ha Hn) as [H1 H2].
    split; [by apply lossy_keeps|]. intros v Hv. by apply H2, (lossy_ok _ _ _ _ Hv).
  - intros p a data Hp Ha Hd. apply lossy_keeps; [done|]. by apply dev_write_mem_ok.
Defined.

(** Without losses the port is the device. *)
Lemma lossless {A} pairs (ask : DevPort -> DevPort * result CameraError A) d log :
  lossy pairs ask (mkLossyPort d [] log) = (mkLossyPort (ask d).1 [] (log ++ [(pairs, Acked)]), (ask d).2).
Proof. unfold lossy. cbn. by destruct (ask d). Qed.

(** * The registers of a channel *)

Section channel.
Context (c : Z) (Hc : channel_fits c).

(** A write to the port register: what it leaves, by its fate. *)
Definition scp : Z := channel_reg STREAM_CHANNEL_PORT c.
Definition scp_of (p : LossyPort) : Z := word (dp_mem (lp_dev p)) scp.

Lemma lossy_write reg v p :
  lp_ok p -> u32_ok v -> reg = STREAM_CHANNEL_PORT \/ reg = STREAM_CHANNEL_DEST_ADDRESS ->
  exists p', write_register p (channel_reg reg c) v = (p', match next_fate p with Acked => Ok tt | Unacked e | Lost e => Err e end) /\
    lp_ok p' /\ lp_log p' = lp_log p ++ [([(channel_reg reg c, v)], next_fate p)] /\
    match next_fate p with
    | Lost _ => lp_dev p' = lp_dev p
    | _ => word (dp_mem (lp_dev p')) (channel_reg reg c) = v /\
           forall b, b + 4 <= channel_reg reg c \/ channel_reg reg c + 4 <= b -> word (dp_mem (lp_dev p')) b = word (dp_mem (lp_dev p)) b
    end.
Proof.
  intros Hp Hv Hr. destruct (dev_write_channel (lp_dev p) reg c v Hp Hc Hv Hr) as (d & W & Hd & R & O).
  unfold write_register in *. cbn [ask_write_regs LossyPort_control DevPort_control] in *. unfold lossy. rewrite W.
  destruct (next_fate p) eqn:E; eexists; (split; [reflexivity|]); by split_and!.
Qed.

(** Closing: done, unless the request did not come through. *)
Lemma lossy_close p : lp_ok p ->
  let p' := close_port (c * STREAM_CHANNEL_STRIDE) p in
  lp_ok p' /\ lp_log p' = lp_log p ++ [([(scp, 0)], next_fate p)] /\
  match next_fate p with Lost _ => scp_of p' = scp_of p | _ => scp_of p' = 0 end.
Proof.
  intros Hp. destruct (lossy_write STREAM_CHANNEL_PORT 0 p Hp) as (p' & W & Hp' & L & R); [const_range|by left|].
  unfold close_port. change (STREAM_CHANNEL_PORT + c * STREAM_CHANNEL_STRIDE) with (channel_reg STREAM_CHANNEL_PORT c).
  rewrite W. cbn zeta. cbn [fst]. split_and!; [done|done|]. unfold scp_of, scp. destruct (next_fate p); [by destruct R..|by rewrite R].
Qed.

(** The other registers of the channel do not move the stream. *)
Lemma lossy_aimed_write host port p reg v :
  reg = STREAM_CHANNEL_PACKET_SIZE \/ reg = STREAM_CHANNEL_PACKET_DELAY -> aimed c host port (lp_dev p) ->
  aimed c host port (lp_dev (write_register p (channel_reg reg c) v).1).
Proof.
  intros Hr Ha. destruct (aimed_write c host port (lp_dev p) reg v Hc Hr Ha) as (d & W & Hd).
  unfold write_register in *. cbn [ask_write_regs LossyPort_control DevPort_control] in *.
  destruct (lossy_dev [(channel_reg reg c, v)] (fun d => dev_write_regs d [(channel_reg reg c, v)]) p) as [-> | ->]; [by rewrite W|done].
Qed.
End channel.

(** * What an opening leaves *)

Lemma lossy_settle (cfg : OpenConfig) env host port p :
  channel_fits (cfg_channel cfg) -> aimed (cfg_channel cfg) host port (lp_dev p) ->
  exists p1 r1, settle_packet_size cfg env p = Some (p1, r1) /\ aimed (cfg_channel cfg) host port (lp_dev p1) /\
    forall size, r1 = Ok size -> size_settled cfg size.
Proof.
  intros Hc Ha. unfold settle_packet_size, size_settled.
  change (STREAM_CHANNEL_PACKET_SIZE + channel_base cfg) with (channel_reg STREAM_CHANNEL_PACKET_SIZE (cfg_channel cfg)).
  destruct (cfg_packet_size cfg) as [|n].
  - destruct (negotiated env (channel_reg STREAM_CHANNEL_PACKET_SIZE (cfg_channel cfg)) p) as (p1 & k & d & r & Hn & Hr).
    rewrite Hn. cbn [mbind option_bind]. do 2 eexists. split; [done|]. split; [|exact Hr].
    eapply (negotiate_keeps _ _ _ _ (fun p => aimed (cfg_channel cfg) host port (lp_dev p))); [|exact Ha|exact Hn].
    intros q v Hq. apply lossy_aimed_write; auto.
  - pose proof (lossy_aimed_write (cfg_channel cfg) Hc host port p STREAM_CHANNEL_PACKET_SIZE n ltac:(auto) Ha) as H.
    destruct (write_register p _ n) as [p' [[]|e]]; do 2 eexists; (split; [done|]); (split; [done|]); [by intros size [= <-]|done].
Qed.

Lemma lossy_tick p : lp_ok p -> exists p' t, read_tick_frequency p = Some (p', t) /\ lp_dev p' = lp_dev p.
Proof.
  intros Hp. pose proof (dev_read_registers (lp_dev p) [TIMESTAMP_TICK_FREQUENCY_HIGH; TIMESTAMP_TICK_FREQUENCY_LOW] Hp) as Hr.
  unfold do_read_registers, read_registers in Hr. unfold read_tick_frequency, read_registers.
  cbn [ask_read_regs LossyPort_control DevPort_control] in *.
  unfold lossy. rewrite Hr by (repeat apply Forall_cons_2; [by vm_compute..|constructor]).
  destruct (next_fate p); by do 2 eexists.
Qed.

Lemma lossy_rest (cfg : OpenConfig) env (s : Session LossyPort) payload_size bound host port p :
  channel_fits (cfg_channel cfg) -> aimed (cfg_channel cfg) host port (lp_dev p) ->
  exists p' r, open_rest cfg env s payload_size bound p = Some (p', r) /\ aimed (cfg_channel cfg) host port (lp_dev p') /\
    forall ch, r = Ok ch -> sh_channel_base ch = channel_base cfg /\ sh_local_addr ch = bound /\
      sh_payload_size ch = payload_size /\ size_settled cfg (sh_packet_size ch).
Proof.
  intros Hc Ha. unfold open_rest. destruct (lossy_settle cfg env host port p Hc Ha) as (p1 & r1 & -> & Ha1 & Hsize).
  cbn [mbind option_bind]. destruct r1 as [packet_size|e]; [|by do 2 eexists].
  assert (aimed (cfg_channel cfg) host port (lp_dev (write_packet_delay cfg p1).1)) as Ha2.
  { unfold write_packet_delay, do_write_register. destruct (cfg_packet_delay cfg) as [delay|]; [|done]. apply lossy_aimed_write; auto. }
  destruct (write_packet_delay cfg p1) as [p2 [[]|e]]; [|by do 2 eexists]. cbn [fst] in Ha2.
  destruct (lossy_tick p2) as (p3 & t & -> & Hd); [by destruct Ha2|]. rewrite <- Hd in Ha2.
  cbn [mbind option_bind]. destruct (oe_spawned env) as [[]|e]; do 2 eexists; (split; [done|]); (split; [done|]); [|done].
  intros ch [= <-]. split_and!; try done. by apply Hsize.
Qed.

(** The stream port after a failed opening, when everything that was sent has
    been handled: [p] was found, [p'] is left. *)
Inductive port_left (c port : Z) (p p' : LossyPort) : Prop :=
| left_as_found : scp_of c p' = scp_of c p -> port_left c port p p'
| left_closed : scp_of c p' = 0 -> port_left c port p p'
| left_open_unacked e : last (lp_log p') = Some ([(scp c, port)], Unacked e) -> scp_of c p' = port -> port_left c port p p'
| left_open_lost e : last (lp_log p') = Some ([(scp c, 0)], Lost e) -> scp_of c p' = port -> port_left c port p p'.

Lemma lossy_bound (cfg : OpenConfig) env (s : Session LossyPort) payload_size host port p :
  lp_ok p -> channel_fits (cfg_channel cfg) -> u32_ok host -> u16_ok port ->
  exists p' r, open_bound cfg env s payload_size host (V4 host, port) p = Some (p', r) /\ lp_ok p' /\
    match r with
    | Ok ch => aimed (cfg_channel cfg) host port (lp_dev p') /\ sh_channel_base ch = channel_base cfg /\
               sh_local_addr ch = (V4 host, port) /\ sh_payload_size ch = payload_size /\ size_settled cfg (sh_packet_size ch)
    | Err _ => port_left (cfg_channel cfg) port p p'
    end.
Proof.
  intros Hp Hc Hh Hpo. unfold open_bound. cbn [snd]. set (c := cfg_channel cfg) in *.
  change (STREAM_CHANNEL_DEST_ADDRESS + channel_base cfg) with (channel_reg STREAM_CHANNEL_DEST_ADDRESS c).
  change (STREAM_CHANNEL_PORT + channel_base cfg) with (scp c).
  assert (channel_reg STREAM_CHANNEL_DEST_ADDRESS c = scp c + 0x18) as Hreg
    by (unfold scp, channel_reg, STREAM_CHANNEL_DEST_ADDRESS, STREAM_CHANNEL_PORT; lia).
  destruct (lossy_write c Hc STREAM_CHANNEL_DEST_ADDRESS host p Hp Hh) as (p1 & -> & Hp1 & _ & R1); [by right|].
  assert (scp_of c p1 = scp_of c p) as Hs1.
  { unfold scp_of. destruct (next_fate p); [by apply R1; rewrite Hreg; lia..|by rewrite R1]. }
  destruct (next_fate p) as [|e|e]; [|do 2 eexists; (split; [done|]); split; [done|by apply left_as_found]..].
  destruct (lossy_write c Hc STREAM_CHANNEL_PORT port p1 Hp1) as (p2 & W & Hp2 & L2 & R2); [width_lia|by left|].
  fold (scp c) in W, L2, R2. rewrite W.
  destruct (next_fate p1) as [|e|e].
  2: { do 2 eexists. split; [done|]. split; [done|]. eapply left_open_unacked; [by rewrite L2, last_snoc|by destruct R2]. }
  2: { do 2 eexists. split; [done|]. split; [done|]. apply left_as_found. unfold scp_of in *. by rewrite R2. }
  assert (aimed c host port (lp_dev p2)) as Ha.
  { split; [done|]. destruct R1 as [R1 _], R2 as [R2 O2]. split; [|done]. rewrite O2; [done|]. rewrite Hreg. lia. }
  destruct (lossy_rest cfg env s payload_size (V4 host, port) host port p2 Hc Ha) as (p3 & r & -> & Ha3 & Hch).
  cbn [mbind option_bind]. destruct r as [ch|e].
  - destruct (Hch ch eq_refl) as (? & ? & ? & ?). do 2 eexists. split; [done|]. split; [by destruct Ha3|]. by split_and!.
  - destruct (lossy_close c Hc p3) as (Hp4 & L4 & R4); [by destruct Ha3|].
    change (c * STREAM_CHANNEL_STRIDE) with (channel_base cfg) in *. do 2 eexists. split; [done|]. split; [done|].
    destruct (next_fate p3); [by apply left_closed..|]. eapply left_open_lost; [by rewrite L4, last_snoc|].
    rewrite R4. apply Ha3.
Qed.

(** C21: opening a stream over a link that may lose any request or acknowledge.
    When it succeeds, the receiver has the bound socket, the payload size and a
    settled packet size, the device sends its frames to that socket (the
    emulator does, on its one channel), and dropping the channel closes the
    device's stream port, unless that request does not come through.  When it
    fails, the camera is untouched, or the stream port is as it was found or
    closed, with two exceptions: the device opened the port and only the
    acknowledge of that was lost, after which nothing more is sent; or the
    request that should close it again, the last one sent, did not come
    through. *)
Theorem open_stream_aims (cfg : OpenConfig) (env : OpenEnv) (s : Session LossyPort) :
  let cam := Some s in let c := cfg_channel cfg in let p := cn_port (ss_conn s) in
  lp_ok p -> channel_fits c ->
  (forall host port, oe_bound env = Ok (V4 host, port) -> u32_ok host /\ u16_ok port) ->
  exists cam' r, open_stream cfg env cam = Some (cam', r) /\
    match r with
    | Ok ch =>
        exists p' host port, cam' = Some (with_port s p') /\ oe_bound env = Ok (V4 host, port) /\
          cfg_payload_size cfg = Some (sh_payload_size ch) /\ size_settled cfg (sh_packet_size ch) /\
          sh_channel_base ch = channel_base cfg /\ sh_local_addr ch = (V4 host, port) /\
          aimed c host port (lp_dev p') /\
          (forall d, d_mem d = dp_mem (lp_dev p') -> c = 0 -> host <> 0 -> port <> 0 ->
             stream_dest d = Some (Some (host, port))) /\
          (scp_of c (close_stream ch p') = 0 \/ exists e, next_fate p' = Lost e)
    | Err _ =>
        cam' = cam \/ exists p' host port, cam' = Some (with_port s p') /\ oe_bound env = Ok (V4 host, port) /\ port_left c port p p'
    end.
Proof.
  intros cam c p Hp Hc Hb. unfold open_stream, cam.
  destruct (cfg_payload_size cfg) as [n|]; [|do 2 eexists; split; [done|]; by left].
  destruct (n <=? 0); [do 2 eexists; split; [done|]; by left|].
  destruct (oe_checked env); [|do 2 eexists; split; [done|]; by left].
  unfold ses_conn. destruct (negb (cn_alive (ss_conn s))); [do 2 eexists; split; [done|]; by left|].
  match goal with |- context [match ?m with Ok _ => _ | Err _ => _ end] => destruct m end; [|do 2 eexists; split; [done|]; by left].
  destruct (oe_bound env) as [[[host|host] port]|] eqn:Eb; [|do 2 eexists; split; [done|]; by left..].
  destruct (Hb host port eq_refl) as [Hh Hpo].
  destruct (lossy_bound cfg env s n host port (cn_port (ss_conn s)) Hp Hc Hh Hpo) as (p' & r & -> & Hp' & Hr). cbn [mbind option_bind].
  do 2 eexists. split; [done|]. destruct r as [ch|e]; [|right; by exists p', host, port].
  destruct Hr as (Ha & Hbase & Hlocal & Hpay & Hsize). exists p', host, port. split_and!; try done; [by rewrite Hpay| |].
  - intros d Hd Hc0 Hh0 Hp0. by eapply aimed_dest.
  - unfold close_stream. rewrite Hbase. destruct (lossy_close c Hc p' Hp') as (_ & _ & R).
    destruct (next_fate p'); [by left..|right; eauto].
Qed.

(** * Example: the acknowledge of the port write is lost *)

Definition lossy_session (fates : list Fate) : Session LossyPort :=
  mkSession (mkConnection (mkLossyPort (mkDevPort (d_mem blank_device) None) fates []) true false None)
    (V4 10) (V4 5, 50000) ex_info 0 false None.

Lemma open_stream_aims_witness :
  exists cam' r, open_stream ex_open ex_open_env (Some (lossy_session [Acked; Unacked Timeout])) = Some (cam', r) /\
    match r with
    | Ok ch => exists p', cam' = Some (with_port (lossy_session [Acked; Unacked Timeout]) p') /\ aimed 0 5 40010 (lp_dev p')
    | Err _ => cam' = Some (lossy_session [Acked; Unacked Timeout]) \/
               exists p', cam' = Some (with_port (lossy_session [Acked; Unacked Timeout]) p') /\
                 port_left 0 40010 (cn_port (ss_conn (lossy_session [Acked; Unacked Timeout]))) p'
    end.
Proof.
  destruct (open_stream_aims ex_open ex_open_env (lossy_session [Acked; Unacked Timeout])) as (cam' & r & H & Hr).
  - apply blank_dev_port_ok.
  - split; by vm_compute.
  - intros host port [= <- <-]. split; const_range.
  - exists cam', r. split; [exact H|]. destruct r as [ch|e].
    + destruct Hr as (p' & host & port & E & [= <- <-] & _ & _ & _ & _ & Ha & _). exists p'. by split.
    + destruct Hr as [Hr|(p' & host & port & E & [= <- <-] & Hl)]; [left; exact Hr|right]. exists p'. by split.
Defined.

(** What the stream port register is after an opening with the given fates, and
    whether the opening succeeded. *)
Definition opened_with (fates : list Fate) : option (Z * bool) :=
  '(cam, r) ← open_stream ex_open ex_open_env (Some (lossy_session fates));
  s ← cam;
  Some (scp_of 0 (cn_port (ss_conn s)), match r with Ok _ => true | Err _ => false end).

(** The opening fails and the device's port stays open, although every request
    after the one whose acknowledge was lost would have come through. *)
Example port_left_open : opened_with [Acked; Unacked Timeout] = Some (40010, false).
Proof. vm_compute. reflexivity. Qed.

(** A probe that is lost does not matter; a size that can not be written fails
    the opening, which closes the port again. *)
Example port_closed_again :
  opened_with [] = Some (40010, true) /\
  opened_with [Acked; Acked; Acked; Acked; Lost Timeout] = Some (40010, true) /\
  opened_with (replicate 2 Acked ++ replicate 5 (Lost Timeout)) = Some (0, false).
Proof. vm_compute. auto. Qed.
