(* ===== verification/Delivery.v ===== *)
(** From the open call to the frame: the channel that [open_stream] sets up
    ([StreamOpen]), the packets the device then sends ([Emulator]) and the
    receiver that [spawn] starts with the channel's parameters ([Reassembly])
    put together. *)

From stdpp Require Import gmap.
From S2P Require Import Prelude Gvcp Gvsp Channel Float64 Frame Reassembly ReassemblyInv ReassemblySafe Burst Text Bootstrap Zip Url.
From S2P Require Import Emulator DeviceStream DeviceControl Errors Control DeviceSpec ControlLink Register Evaluator Formula NodeGraph.
From S2P Require Import NodeTotal Camera NodeAccess XmlGraph Description ControlPort Session SessionSpec PacketSize StreamOpen.

Section delivery.
Context {HS : PacketHasher}.

(** The receiver as [spawn] starts it for an open channel, with the frame pool
    of the configuration and no command sent yet. *)
Definition receiver_of (device_ip : Z) (cfg : OpenConfig) (ch : StreamChannel) : StreamRunner :=
  runner_new device_ip (mkQueue [] None true : chan ToStreamWorker)
    (FramePool_new (Z.to_nat (cfg_n_buffers cfg)) (sh_payload_size ch) : chan BufSlot)
    cfg (sh_packet_size ch) (sh_payload_size ch) (sh_resend_enabled ch) (sh_tick_frequency ch).

(** The datagrams [rs] bring every packet of an image the device [d] sends, in
    the order [ks], each as often as the network repeats it. *)
Record brought (ip : Z) (d : GigeDevice) (frame_id : Z) (image : bytes) (ks : list nat) (rs : list RecvResult) : Prop := {
  br_clock : u64_ok (d_leader_timestamp_ns d);
  br_id : u16_ok frame_id;
  br_image : image <> [];
  br_packets : exists pk, frame_packets d frame_id image = Some pk /\ zlen pk <= MAX_FRAME_PACKETS /\
    Forall2 (carries ip pk) ks rs /\ (forall j, (j < length pk)%nat -> j ∈ ks) }.

(** A configuration a receiver can run with. *)
Record usable (cfg : OpenConfig) : Prop := {
  us_channel : cfg_channel cfg = 0;
  us_buffers : 1 <= cfg_n_buffers cfg;
  us_retention : 0 < cfg_frame_retention cfg;
  us_packet : forall n, cfg_packet_size cfg = PsFixed n -> packet_protocol_overhead false < n }.

Lemma receiver_ready (device_ip : Z) (cfg : OpenConfig) (ch : StreamChannel) (frame_id : Z) (src : Z -> Z -> bytes -> Prop) :
  usable cfg -> size_settled cfg (sh_packet_size ch) -> 0 <= sh_payload_size ch ->
  runner_inv src (sh_payload_size ch) device_ip (receiver_of device_ip cfg ch) /\
  idle frame_id false (receiver_of device_ip cfg ch).
Proof.
  intros Hu Hsize HP. split.
  - apply runner_new_inv. cbn. rewrite Forall_forall. intros slot [-> _]%elem_of_replicate. unfold ReassemblySafe.slot_ok. cbn [slot_data]. rewrite zlen_replicate. lia.
  - split; cbn; [done| | |by apply Hu|by left].
    + pose proof (us_buffers _ Hu). destruct (Z.to_nat (cfg_n_buffers cfg)) eqn:E; [lia|done].
    + unfold size_settled in Hsize. destruct (cfg_packet_size cfg) as [|n] eqn:E.
      * change (packet_protocol_overhead false) with 36. unfold MIN in Hsize. lia.
      * subst. by apply (us_packet _ Hu).
Qed.

Lemma closed_dest p d :
  dp_ok p -> d_mem d = dp_mem p -> word (dp_mem p) (channel_reg STREAM_CHANNEL_PORT 0) = 0 -> stream_dest d = Some None.
Proof.
  intros [Hb Hl] Hm H. unfold stream_dest, read_reg, mem_read. rewrite Hm.
  rewrite !block_read by (rewrite ?Hl; by vm_compute). cbn [fmap option_fmap option_map mbind option_bind].
  unfold channel_reg, word in H. rewrite Z.mul_0_l, Z.add_0_r in H. by rewrite H.
Qed.

(** C6: an opened stream delivers.  When [open_stream] succeeds on channel 0 of
    a device that keeps the contract, with a socket bound to an address and
    port other than zero, then with the registers it left the device sends to
    that socket, and the receiver started with the channel's parameters turns
    the packets of the first image, if it fits the announced payload size, in
    any order and with any repeats, also after the image is complete, into
    exactly one complete frame with that image; once the channel is dropped
    the device sends nowhere. *)
Theorem opened_stream_delivers (cfg : OpenConfig) (env : OpenEnv) (s : Session DevPort) (device_ip : Z)
    (cam' : option (Session DevPort)) (ch : StreamChannel) :
  dp_ok (cn_port (ss_conn s)) -> usable cfg -> 0 <= sh_payload_size ch <= I64_MAX ->
  (forall host port, oe_bound env = Ok (V4 host, port) -> 0 < host <= U32_MAX /\ 0 < port <= U16_MAX) ->
  open_stream cfg env (Some s) = Some (cam', Ok ch) ->
  exists p' host port, cam' = Some (with_port s p') /\ sh_local_addr ch = (V4 host, port) /\
    (forall d frame_id image ks rs,
       d_mem d = dp_mem p' -> brought device_ip d frame_id image ks rs -> zlen image <= sh_payload_size ch ->
       stream_dest d = Some (Some (host, port)) /\
       exists r fr, drain_socket (receiver_of device_ip cfg ch) rs = Some r /\ quiet frame_id r /\ r_delivered r = [fr] /\
         fr_status fr = Complete /\ fr_frame_id fr = frame_id /\ Frame_data fr = image) /\
    (forall d, d_mem d = dp_mem (close_stream ch p') -> stream_dest d = Some None).
Proof.
  intros Hp Hu HP Hbound Hopen. pose proof (us_channel _ Hu) as Hc0.
  destruct (open_stream_spec cfg env s Hp) as (cam1 & r & Ho & Hr).
  { rewrite Hc0. split; by vm_compute. }
  { intros host port Hb. destruct (Hbound host port Hb). split; width_lia. }
  rewrite Hopen in Ho. injection Ho as <- <-.
  destruct Hr as (p' & host & port & -> & Hb & Hpay & Hsize & Hbase & Hlocal & Ha & Hdest & Hclosed).
  destruct (Hbound host port Hb) as [Hh Hpo]. exists p', host, port. split_and!; [done..| |].
  - intros d frame_id image ks rs Hd [Hclk Hid Himg (pk & Hpk & HK & Hrs & Hcov)] Hfit. split; [apply Hdest; done || lia|].
    destruct (receiver_ready device_ip cfg ch frame_id (fun _ _ _ => False) Hu Hsize ltac:(lia)) as [Hinv Hidle].
    destruct (image_reassembled d frame_id image pk (receiver_of device_ip cfg ch) (fun _ _ _ => False) (sh_payload_size ch)
                device_ip ks rs) as (r & fr & H1 & H2 & H3 & H4 & H5 & H6 & _); try done; [rewrite Hd; apply Ha|].
    exists r, fr. by split_and!.
  - intros d Hd. rewrite Hc0 in Hclosed. eapply closed_dest; [|exact Hd|exact Hclosed].
    unfold close_stream. rewrite Hbase. unfold channel_base. apply dev_close_port; [apply Ha|].
    rewrite Hc0. split; by vm_compute.
Qed.
End delivery.

(** * A concrete delivery *)

#[local] Instance sum_hasher : PacketHasher := fun content data => foldr Z.add content data.

(** Packets of 640 bytes, an image of two blocks, on a blank device. *)
Definition ex_cfg : OpenConfig :=
  {| oc_stream := {| cfg_channel := 0; cfg_payload_size := Some 1000; cfg_n_buffers := 2; cfg_packet_size := PsFixed 640;
                     cfg_packet_delay := None; cfg_resend := RpAlways; cfg_initial_packet_timeout := from_millis 1;
                     cfg_packet_timeout := from_millis 20; cfg_frame_retention := from_millis 100;
                     cfg_packet_request_ratio := f64_of_decimal 25 (-2) |};
     oc_local_addr := None |}.
Definition ex_channel : StreamChannel :=
  {| sh_channel_base := 0; sh_packet_size := 640; sh_local_addr := (V4 5, 40010); sh_payload_size := 1000;
     sh_resend_enabled := false; sh_tick_frequency := 0 |}.
Definition ex_image : bytes := replicate 700 7.

Example ex_opens : snd <$> open_stream ex_cfg ex_open_env (Some (ex_session_on blank_device)) = Some (Ok ex_channel).
Proof. vm_compute. reflexivity. Qed.

Lemma opened_stream_delivers_witness :
  exists cam' p', open_stream ex_cfg ex_open_env (Some (ex_session_on blank_device)) = Some (cam', Ok ex_channel) /\
    cam' = Some (with_port (ex_session_on blank_device) p') /\
    forall d frame_id ks rs, d_mem d = dp_mem p' -> brought 9 d frame_id ex_image ks rs ->
      exists r fr, drain_socket (receiver_of 9 ex_cfg ex_channel) rs = Some r /\ r_delivered r = [fr] /\ Frame_data fr = ex_image.
Proof.
  pose proof ex_opens as H. apply fmap_Some in H as ([cam' r] & Eo & Hr). cbn [snd] in Hr. subst r.
  destruct (opened_stream_delivers ex_cfg ex_open_env (ex_session_on blank_device) 9 cam' ex_channel)
    as (p' & host & port & -> & _ & Hd & _).
  - apply blank_dev_port_ok.
  - clear Eo. split; [done|by vm_compute|by vm_compute|]. intros n [= <-]. by vm_compute.
  - clear Eo. by vm_compute.
  - clear Eo. intros host port [= <- <-]. by vm_compute.
  - exact Eo.
  - do 2 eexists. split; [exact Eo|]. clear Eo. split; [reflexivity|]. intros d frame_id ks rs Hm Hb.
    destruct (Hd d frame_id ex_image ks rs Hm Hb ltac:(by vm_compute)) as (_ & r & fr & H1 & _ & H2 & _ & _ & H3).
    exists r, fr. by split_and!.
Defined.

(** Such an image is brought: the packets of the device, back to front, and
    again. *)
Definition ex_streaming : GigeDevice := mkDevice (dp_mem (fst (write_register
  (fst (write_register (mkDevPort (d_mem blank_device) None) STREAM_CHANNEL_PORT 40010)) STREAM_CHANNEL_PACKET_SIZE 640))) None ∅ 0 0 None.
Example ex_delivers :
  ((fun r => (length (r_delivered r), Frame_data <$> r_delivered r)) <$>
     (pk ← frame_packets ex_streaming 5 ex_image;
      drain_socket (receiver_of 9 ex_cfg ex_channel) ((fun p => RecvDatagram 9 p None 0 0) <$> reverse pk ++ pk)))
  = Some (1%nat, [ex_image]).
Proof. vm_compute. reflexivity. Qed.
