(* ===== verification/Acquire.v ===== *)
(** Acquisition and snapshot guards: the model of
    [src/src/genicam/acquisition.rs] and [src/src/genicam/snapshot.rs].

    The guards drive a camera through the interface [AcqCamera]: features by
    name, opening and dropping a stream channel, subscribing to its frames,
    clearing and waiting on a subscription.  [Camera_acq] is the camera of this
    library; [Trace_acq] is a camera that answers as an oracle says and records
    every call, so that what holds of its traces holds whatever the device
    answers.  [None] is a panic. *)

From stdpp Require Import gmap.
From S2P Require Import Prelude Gvcp Gvsp Channel Float64 Frame Reassembly Text Bootstrap Zip Url Emulator DeviceControl.
From S2P Require Import Errors Control DeviceSpec ControlLink Register Evaluator Formula NodeGraph NodeTotal Camera NodeAccess.
From S2P Require Import XmlGraph Description ControlPort Session SessionSpec PacketSize StreamOpen.

(** * The interface *)

Definition AM (S A : Type) : Type := S -> option (S * result GenicamError A).

Class AcqCamera (S : Type) := {
  ac_get_integer : text -> AM S Z;
  ac_set_integer : text -> Z -> AM S unit;
  ac_get_enum : text -> AM S text;
  ac_set_enum : text -> text -> AM S unit;
  ac_execute : text -> AM S unit;
  ac_open_stream : OpenConfig -> AM S StreamChannel;
  ac_drop_stream : StreamChannel -> AM S unit;
  (** [StreamChannel::subscribe], [FrameChannel::clear] and [wait_for]: they can
      not fail; a subscription is known by a number. *)
  ac_subscribe : StreamChannel -> Z -> S -> S * nat;
  ac_clear : nat -> S -> S * unit;
  ac_wait_for : nat -> Z -> S -> S * option Frame }.

Section guards.
Context {S : Type} {AC : AcqCamera S}.

Global Instance AM_ret : MRet (AM S) := fun A a s => Some (s, Ok a).
Global Instance AM_bind : MBind (AM S) := fun A B f m s =>
  match m s with
  | Some (s, Ok a) => f a s
  | Some (s, Err e) => Some (s, Err e)
  | None => None
  end.

(** A call that can not fail. *)
Definition sure {A} (m : S -> S * A) : AM S A := fun s => let '(s, a) := m s in Some (s, Ok a).
Definition am_fail {A} (e : GenicamError) : AM S A := fun s => Some (s, Err e).
(** The outcome as a value: [match call { Ok(..) .. Err(..) .. }]. *)
Definition attempt {A} (m : AM S A) : AM S (result GenicamError A) := fun s =>
  '((s, r) : S * result GenicamError A) ← m s; Some (s, Ok r).
(** [if let Err(e) = call { log }]. *)
Definition logged {A} (m : AM S A) : AM S unit := _ ← attempt m; mret tt.

Definition with_payload_size (cfg : StreamConfig) (v : Z) : StreamConfig :=
  {| cfg_channel := cfg_channel cfg; cfg_payload_size := Some v; cfg_n_buffers := cfg_n_buffers cfg;
     cfg_packet_size := cfg_packet_size cfg; cfg_packet_delay := cfg_packet_delay cfg; cfg_resend := cfg_resend cfg;
     cfg_initial_packet_timeout := cfg_initial_packet_timeout cfg; cfg_packet_timeout := cfg_packet_timeout cfg;
     cfg_frame_retention := cfg_frame_retention cfg; cfg_packet_request_ratio := cfg_packet_request_ratio cfg |}.

Definition am_fill_payload_size (cfg : OpenConfig) : AM S OpenConfig :=
  match cfg_payload_size cfg with
  | Some _ => mret cfg
  | None =>
      v ← ac_get_integer (str "PayloadSize");
      if 0 <=? v
      then mret {| oc_stream := with_payload_size cfg v; oc_local_addr := oc_local_addr cfg |}
      else am_fail (Xml NegativePayloadSize)
  end.

Definition lock_params (v : Z) : AM S unit := logged (ac_set_integer (str "TLParamsLocked") v).

(** * Continuous acquisition *)

Record Acquisition := { aq_stream : StreamChannel; aq_frames : nat; aq_stopped : bool }.

Definition Acquisition_start (cfg : OpenConfig) : AM S Acquisition :=
  cfg ← am_fill_payload_size cfg;
  let capacity := cfg_n_buffers (oc_stream cfg) in
  stream ← ac_open_stream cfg;
  frames ← sure (ac_subscribe stream capacity);
  _ ← lock_params 1;
  started ← attempt (ac_execute (str "AcquisitionStart"));
  match started with
  | Ok _ => mret {| aq_stream := stream; aq_frames := frames; aq_stopped := false |}
  | Err e => _ ← lock_params 0; _ ← ac_drop_stream stream; am_fail e
  end.

(** The result is the outcome of the stop, beside the guard it leaves. *)
Definition stop_camera (a : Acquisition) : AM S (Acquisition * result GenicamError unit) :=
  if aq_stopped a then mret (a, Ok tt)
  else
    r ← attempt (ac_execute (str "AcquisitionStop"));
    _ ← lock_params 0;
    mret ({| aq_stream := aq_stream a; aq_frames := aq_frames a; aq_stopped := true |}, r).

Definition Acquisition_drop (a : Acquisition) : AM S unit :=
  '((a, _) : Acquisition * result GenicamError unit) ← stop_camera a;
  ac_drop_stream (aq_stream a).

(** [stop(self)]: the guard is dropped at its end; the frame channel stays. *)
Definition Acquisition_stop (a : Acquisition) : AM S nat :=
  let frames := aq_frames a in
  '((a, r) : Acquisition * result GenicamError unit) ← stop_camera a;
  _ ← Acquisition_drop a;
  match r with Ok _ => mret frames | Err e => am_fail e end.

(** * Snapshots *)

Record SnapshotSession := {
  sn_stream : StreamChannel; sn_frames : nat; sn_auto_stops : bool; sn_restore_mode : option text }.

(** Whether the device stops itself after a frame, and the mode to restore. *)
Definition arm_single_frame : AM S (bool * option text) :=
  got ← attempt (ac_get_enum (str "AcquisitionMode"));
  match got with
  | Ok mode =>
      if bool_decide (mode = str "SingleFrame") then mret (true, None)
      else
        done ← attempt (ac_set_enum (str "AcquisitionMode") (str "SingleFrame"));
        mret (match done with Ok _ => (true, Some mode) | Err _ => (false, None) end)
  | Err _ => mret (false, None)
  end.

Definition restore (mode : option text) : AM S unit :=
  match mode with
  | Some mode => logged (ac_set_enum (str "AcquisitionMode") mode)
  | None => mret tt
  end.

Definition SnapshotSession_open (cfg : OpenConfig) : AM S SnapshotSession :=
  '((auto_stops, restore_mode) : bool * option text) ← arm_single_frame;
  stream ← attempt (cfg ← am_fill_payload_size cfg; ac_open_stream cfg);
  match stream with
  | Err e => _ ← restore restore_mode; am_fail e
  | Ok stream =>
      _ ← lock_params 1;
      frames ← sure (ac_subscribe stream 4);
      mret {| sn_stream := stream; sn_frames := frames; sn_auto_stops := auto_stops; sn_restore_mode := restore_mode |}
  end.

Definition snap (sn : SnapshotSession) (timeout : Z) : AM S Frame :=
  _ ← sure (ac_clear (sn_frames sn));
  _ ← ac_execute (str "AcquisitionStart");
  frame ← sure (ac_wait_for (sn_frames sn) timeout);
  _ ← (if negb (sn_auto_stops sn) || match frame with Some _ => false | None => true end
       then logged (ac_execute (str "AcquisitionStop")) else mret tt);
  match frame with Some f => mret f | None => am_fail FrameTimeout end.

Definition SnapshotSession_drop (sn : SnapshotSession) : AM S unit :=
  _ ← lock_params 0;
  _ ← restore (sn_restore_mode sn);
  ac_drop_stream (sn_stream sn).
End guards.

(** One frame: open, snap, drop. *)
Definition camera_snap {S} {AC : AcqCamera S} (cfg : OpenConfig) (timeout : Z) : AM S Frame :=
  sn ← SnapshotSession_open cfg;
  r ← attempt (snap sn timeout);
  _ ← SnapshotSession_drop sn;
  match r with Ok f => mret f | Err e => am_fail e end.

(** * The camera of this library *)

Section camera_acq.
Context {FL : FloatLib} {P : Type} {C : Control P} (env : OpenConfig -> OpenEnv).
(** The frame channels belong to the receiver's thread ([FrameFlow]): the number
    a new one gets, and what a wait on one gives, come from there. *)
Variables (subscribed : StreamChannel -> Z -> option (Session P) -> nat)
  (waited : nat -> Z -> option (Session P) -> option Frame).

(** A feature call on the session's connection. *)
Definition with_conn (s : Session P) (c : Connection P) : Session P :=
  mkSession c (ss_device_ip s) (ss_local_addr s) (ss_info s) (ss_capabilities s) (ss_concatenation s) (ss_xml s).

Definition feature {A} (m : Cam P A) : AM (option (Session P)) A := fun cam =>
  '((c, r) : GigECamera P * result GenicamError A) ← m (ss_conn <$> cam);
  Some (match cam, c with Some s, Some c => Some (with_conn s c) | _, _ => cam end, r).

Definition camera_open (cfg : OpenConfig) : AM (option (Session P)) StreamChannel := fun cam =>
  '((cam, r) : option (Session P) * result CameraError StreamChannel) ← open_stream cfg (env cfg) cam;
  Some (cam, map_err NodeGraph.Camera r).

(** The drop writes through the port of the worker, dead or alive. *)
Definition camera_drop (ch : StreamChannel) : AM (option (Session P)) unit := fun cam =>
  Some ((fun s => with_port s (close_stream ch (cn_port (ss_conn s)))) <$> cam, Ok tt).

#[export] Instance Camera_acq : AcqCamera (option (Session P)) := {|
  ac_get_integer name := feature (get_integer name);
  ac_set_integer name v := feature (set_integer name v);
  ac_get_enum name := feature (get_enum name);
  ac_set_enum name v := feature (set_enum name v);
  ac_execute name := feature (execute_feature name);
  ac_open_stream := camera_open;
  ac_drop_stream := camera_drop;
  ac_subscribe ch capacity cam := (cam, subscribed ch capacity cam);
  ac_clear _ cam := (cam, tt);
  ac_wait_for frames timeout cam := (cam, waited frames timeout cam) |}.
End camera_acq.

(** * A camera that records its calls *)

Inductive Call :=
| DidGetInteger (name : text) | DidSetInteger (name : text) (v : Z)
| DidGetEnum (name : text) | DidSetEnum (name entry : text)
| DidExecute (name : text) | DidOpen (cfg : OpenConfig) | DidDrop (ch : StreamChannel)
| DidSubscribe (ch : StreamChannel) (capacity : Z) | DidClear (frames : nat) | DidWait (frames : nat) (timeout : Z).

(** The answers, as functions of all the calls so far. *)
Record Oracle := {
  o_int : list Call -> result GenicamError Z;
  o_text : list Call -> result GenicamError text;
  o_unit : list Call -> result GenicamError unit;
  o_open : list Call -> result GenicamError StreamChannel;
  o_frames : list Call -> nat;
  o_frame : list Call -> option Frame }.

Section trace.
Variable o : Oracle.

Definition record {A} (c : Call) (answer : list Call -> result GenicamError A) : AM (list Call) A := fun t =>
  Some (t ++ [c], answer (t ++ [c])).
Definition record_sure {A} (c : Call) (answer : list Call -> A) (t : list Call) : list Call * A :=
  (t ++ [c], answer (t ++ [c])).

Local Instance Trace_acq : AcqCamera (list Call) := {|
  ac_get_integer name := record (DidGetInteger name) (o_int o);
  ac_set_integer name v := record (DidSetInteger name v) (o_unit o);
  ac_get_enum name := record (DidGetEnum name) (o_text o);
  ac_set_enum name v := record (DidSetEnum name v) (o_unit o);
  ac_execute name := record (DidExecute name) (o_unit o);
  ac_open_stream cfg := record (DidOpen cfg) (o_open o);
  ac_drop_stream ch := record (DidDrop ch) (fun _ => Ok tt);
  ac_subscribe ch capacity := record_sure (DidSubscribe ch capacity) (o_frames o);
  ac_clear frames := record_sure (DidClear frames) (fun _ => tt);
  ac_wait_for frames timeout := record_sure (DidWait frames timeout) (o_frame o) |}.

Definition Lock (v : Z) : Call := DidSetInteger (str "TLParamsLocked") v.
Definition Start : Call := DidExecute (str "AcquisitionStart").
Definition Stop : Call := DidExecute (str "AcquisitionStop").
Definition Single : Call := DidSetEnum (str "AcquisitionMode") (str "SingleFrame").
Definition Mode (m : text) : Call := DidSetEnum (str "AcquisitionMode") m.

(** The calls before the channel is open, and the configuration they give when
    they come after [t]. *)
Definition size_calls (cfg : OpenConfig) : list Call :=
  match cfg_payload_size cfg with Some _ => [] | None => [DidGetInteger (str "PayloadSize")] end.

Definition size_answer (cfg : OpenConfig) (t : list Call) : result GenicamError OpenConfig :=
  match cfg_payload_size cfg with
  | Some _ => Ok cfg
  | None =>
      match o_int o (t ++ [DidGetInteger (str "PayloadSize")]) with
      | Err e => Err e
      | Ok v =>
          if v <? 0 then Err (Xml NegativePayloadSize)
          else Ok {| oc_stream := with_payload_size cfg v; oc_local_addr := oc_local_addr cfg |}
      end
  end.

(** Start, then stop or drop; a stop leaves the frame channel. *)
Definition lifecycle (cfg : OpenConfig) (by_stop : bool) : AM (list Call) (option nat) :=
  a ← Acquisition_start cfg;
  if by_stop then (frames ← Acquisition_stop a; mret (Some frames)) else (_ ← Acquisition_drop a; mret None).

(** Every way through a lifecycle, with its outcome: the device's answers decide
    which it is.  [opened]: the calls until the channel is open and subscribed
    to. *)
Inductive acq_trace (cfg : OpenConfig) (by_stop : bool) : list Call -> result GenicamError (option nat) -> Prop :=
| acq_no_size e : size_answer cfg [] = Err e -> acq_trace cfg by_stop (size_calls cfg) (Err e)
| acq_not_open cfg' e : size_answer cfg [] = Ok cfg' -> o_open o (size_calls cfg ++ [DidOpen cfg']) = Err e ->
    acq_trace cfg by_stop (size_calls cfg ++ [DidOpen cfg']) (Err e)
| acq_not_started cfg' ch e (opened := size_calls cfg ++ [DidOpen cfg'; DidSubscribe ch (cfg_n_buffers cfg')]) :
    size_answer cfg [] = Ok cfg' -> o_open o (size_calls cfg ++ [DidOpen cfg']) = Ok ch ->
    o_unit o (opened ++ [Lock 1; Start]) = Err e ->
    acq_trace cfg by_stop (opened ++ [Lock 1; Start; Lock 0; DidDrop ch]) (Err e)
| acq_done cfg' ch (opened := size_calls cfg ++ [DidOpen cfg'; DidSubscribe ch (cfg_n_buffers cfg')]) :
    size_answer cfg [] = Ok cfg' -> o_open o (size_calls cfg ++ [DidOpen cfg']) = Ok ch ->
    o_unit o (opened ++ [Lock 1; Start]) = Ok tt ->
    acq_trace cfg by_stop (opened ++ [Lock 1; Start; Stop; Lock 0; DidDrop ch])
      (if by_stop
       then match o_unit o (opened ++ [Lock 1; Start; Stop]) with Ok _ => Ok (Some (o_frames o opened)) | Err e => Err e end
       else Ok None).

Lemma am_bind_ok {A B} (m : AM (list Call) A) (f : A -> AM (list Call) B) t t' a :
  m t = Some (t', Ok a) -> (m ≫= f) t = f a t'.
Proof. intros H. unfold mbind, AM_bind. by rewrite H. Qed.

Lemma am_bind_assoc {A B D} (m : AM (list Call) A) (f : A -> AM (list Call) B) (g : B -> AM (list Call) D) t :
  ((m ≫= f) ≫= g) t = (m ≫= fun a => f a ≫= g) t.
Proof. unfold mbind, AM_bind. destruct (m t) as [[t' [a|e]]|]; done. Qed.

Lemma am_bind_err {A B} (m : AM (list Call) A) (f : A -> AM (list Call) B) t t' e :
  m t = Some (t', Err e) -> (m ≫= f) t = Some (t', Err e).
Proof. intros H. unfold mbind, AM_bind. by rewrite H. Qed.

Lemma am_attempt {A} (m : AM (list Call) A) t t' r : m t = Some (t', r) -> attempt m t = Some (t', Ok r).
Proof. intros H. unfold attempt. by rewrite H. Qed.

(** One recorded call, and the helpers made of one. *)
Lemma bind_record {A B} c (answer : list Call -> result GenicamError A) (f : A -> AM (list Call) B) t :
  (record c answer ≫= f) t = match answer (t ++ [c]) with Ok a => f a (t ++ [c]) | Err e => Some (t ++ [c], Err e) end.
Proof. unfold mbind, AM_bind, record. by destruct (answer _). Qed.

Lemma bind_attempt {A B} c (answer : list Call -> result GenicamError A) (f : result GenicamError A -> AM (list Call) B) t :
  (attempt (record c answer) ≫= f) t = f (answer (t ++ [c])) (t ++ [c]).
Proof. done. Qed.

Lemma bind_sure {A B} c (answer : list Call -> A) (f : A -> AM (list Call) B) t :
  (sure (record_sure c answer) ≫= f) t = f (answer (t ++ [c])) (t ++ [c]).
Proof. done. Qed.

Lemma bind_logged {A B} c (answer : list Call -> result GenicamError A) (f : unit -> AM (list Call) B) t :
  (logged (record c answer) ≫= f) t = f tt (t ++ [c]).
Proof. done. Qed.

Lemma bind_lock {B} v (f : unit -> AM (list Call) B) t : (lock_params v ≫= f) t = f tt (t ++ [Lock v]).
Proof. done. Qed.

Lemma fill_trace cfg t : am_fill_payload_size cfg t = Some (t ++ size_calls cfg, size_answer cfg t).
Proof.
  unfold am_fill_payload_size, size_calls, size_answer. destruct (cfg_payload_size cfg) eqn:Es; [by rewrite app_nil_r|].
  cbn -[str]. rewrite bind_record. destruct (o_int o _) as [v|e]; [|done].
  replace (0 <=? v) with (negb (v <? 0)) by lia. by destruct (v <? 0).
Qed.

(** The end of an acquisition: stopped once, unlocked, closed. *)
Lemma acquisition_stops ch frames t :
  Acquisition_stop {| aq_stream := ch; aq_frames := frames; aq_stopped := false |} t =
  Some (t ++ [Stop; Lock 0; DidDrop ch], match o_unit o (t ++ [Stop]) with Ok _ => Ok frames | Err e => Err e end).
Proof.
  unfold Acquisition_stop, Acquisition_drop, stop_camera, mbind at 1, AM_bind at 1. cbn -[str app]. rewrite bind_attempt, bind_lock.
  cbn -[str app]. fold Stop. unfold mbind, AM_bind, mret, AM_ret, record. cbn -[str app].
  rewrite <- !app_assoc. cbn [app]. by destruct (o_unit o (t ++ [Stop])).
Qed.

Lemma acquisition_drops ch frames t :
  Acquisition_drop {| aq_stream := ch; aq_frames := frames; aq_stopped := false |} t = Some (t ++ [Stop; Lock 0; DidDrop ch], Ok tt).
Proof.
  unfold Acquisition_drop, stop_camera, mbind at 1, AM_bind at 1. cbn -[str app]. rewrite bind_attempt, bind_lock.
  cbn -[str app]. fold Stop. unfold record. by rewrite <- !app_assoc.
Qed.

(** C15: an acquisition is always wound up, in order and once.  Whatever the
    device answers to each call, starting an acquisition and then stopping or
    dropping the guard makes exactly the calls its answers call for: when the
    payload size can not be had, or the channel can not be opened, nothing more
    than that and the error comes back; once the channel is open it is subscribed
    to before the camera starts, with as many places as there are buffers; when
    the start command fails the parameters are unlocked, the channel closed and
    the error comes back; and otherwise the camera is stopped exactly once, then
    unlocked, then the channel closed, whether by [stop] or by drop, [stop] with
    the outcome of the stop command and the subscription. *)
Theorem acquisition_wound_up (cfg : OpenConfig) (by_stop : bool) :
  exists t r, lifecycle cfg by_stop [] = Some (t, r) /\ acq_trace cfg by_stop t r.
Proof.
  unfold lifecycle, Acquisition_start. destruct (size_answer cfg []) as [cfg'|e] eqn:Es.
  2: { exists (size_calls cfg), (Err e). split; [|by apply acq_no_size].
       erewrite am_bind_err; [done|]. erewrite am_bind_err; [done|]. by rewrite fill_trace, Es. }
  rewrite am_bind_assoc. erewrite am_bind_ok by (rewrite fill_trace, Es; done). cbn [app].
  rewrite am_bind_assoc. cbn -[str app sure]. rewrite bind_record.
  destruct (o_open o _) as [ch|e] eqn:Eo; [|do 2 eexists; split; [done|]; by eapply acq_not_open].
  rewrite am_bind_assoc, bind_sure, <- (app_assoc (size_calls cfg)). cbn [app].
  set (opened := size_calls cfg ++ [DidOpen cfg'; DidSubscribe ch (cfg_n_buffers cfg')]).
  rewrite am_bind_assoc, bind_lock, am_bind_assoc, bind_attempt. fold Start. rewrite <- app_assoc. cbn [app].
  destruct (o_unit o _) as [[]|e] eqn:Eu; (do 2 eexists; split; [|first [by apply acq_done|by eapply acq_not_started]]).
  - erewrite am_bind_ok by done. fold opened. destruct by_stop; unfold mbind, AM_bind.
    + rewrite acquisition_stops, <- !app_assoc. cbn [app]. by destruct (o_unit o (opened ++ [Lock 1; Start; Stop])).
    + by rewrite acquisition_drops, <- app_assoc.
  - rewrite am_bind_assoc, bind_lock. unfold mbind, AM_bind, am_fail. cbn -[str app]. unfold record. fold opened. by rewrite <- !(app_assoc opened).
Qed.

(** ** Snapshots *)

Definition Got : Call := DidGetEnum (str "AcquisitionMode").

(** The calls that arm the camera, whether it stops itself, and the mode to
    restore. *)
Definition armed : list Call * bool * option text :=
  match o_text o [Got] with
  | Ok mode =>
      if bool_decide (mode = str "SingleFrame") then ([Got], true, None)
      else match o_unit o [Got; Single] with
           | Ok _ => ([Got; Single], true, Some mode)
           | Err _ => ([Got; Single], false, None)
           end
  | Err _ => ([Got], false, None)
  end.

Definition restore_calls (mode : option text) : list Call := match mode with Some m => [Mode m] | None => [] end.

(** Every way through a snapshot that was armed with [pre], with its outcome.
    [opened]: the calls up to an open, locked and subscribed session. *)
Inductive snap_trace (cfg : OpenConfig) (timeout : Z) (pre : list Call) (auto : bool) (mode : option text)
    : list Call -> result GenicamError Frame -> Prop :=
| snap_no_size e : size_answer cfg pre = Err e ->
    snap_trace cfg timeout pre auto mode ((pre ++ size_calls cfg) ++ restore_calls mode) (Err e)
| snap_not_open cfg' e : size_answer cfg pre = Ok cfg' -> o_open o ((pre ++ size_calls cfg) ++ [DidOpen cfg']) = Err e ->
    snap_trace cfg timeout pre auto mode (((pre ++ size_calls cfg) ++ [DidOpen cfg']) ++ restore_calls mode) (Err e)
| snap_not_started cfg' ch e (opened := (pre ++ size_calls cfg) ++ [DidOpen cfg'; Lock 1; DidSubscribe ch 4])
    (frames := o_frames o opened) :
    size_answer cfg pre = Ok cfg' -> o_open o ((pre ++ size_calls cfg) ++ [DidOpen cfg']) = Ok ch ->
    o_unit o (opened ++ [DidClear frames; Start]) = Err e ->
    snap_trace cfg timeout pre auto mode
      ((opened ++ [DidClear frames; Start]) ++ [Lock 0] ++ restore_calls mode ++ [DidDrop ch]) (Err e)
| snap_taken cfg' ch (opened := (pre ++ size_calls cfg) ++ [DidOpen cfg'; Lock 1; DidSubscribe ch 4])
    (frames := o_frames o opened) (waited := opened ++ [DidClear frames; Start; DidWait frames timeout])
    (frame := o_frame o waited) :
    size_answer cfg pre = Ok cfg' -> o_open o ((pre ++ size_calls cfg) ++ [DidOpen cfg']) = Ok ch ->
    o_unit o (opened ++ [DidClear frames; Start]) = Ok tt ->
    snap_trace cfg timeout pre auto mode
      ((waited ++ (if auto && match frame with Some _ => true | None => false end then [] else [Stop]))
         ++ [Lock 0] ++ restore_calls mode ++ [DidDrop ch])
      (match frame with Some f => Ok f | None => Err FrameTimeout end).

Lemma arm_trace : exists pre auto mode, armed = (pre, auto, mode) /\ arm_single_frame [] = Some (pre, Ok (auto, mode)).
Proof.
  unfold armed, arm_single_frame. cbn -[str app]. rewrite bind_attempt. fold Got. cbn [app].
  destruct (o_text o _) as [mode|e]; [|by do 3 eexists]. destruct (bool_decide _); [by do 3 eexists|].
  rewrite bind_attempt. fold Single. cbn [app]. destruct (o_unit o _); by do 3 eexists.
Qed.

Lemma restore_trace mode t : restore mode t = Some (t ++ restore_calls mode, Ok tt).
Proof. destruct mode; cbn [restore restore_calls]; [done|]. by rewrite app_nil_r. Qed.

(** The stream of a session that is armed with [pre]: the answers decide. *)
Lemma snap_stream cfg pre :
  (cfg ← am_fill_payload_size cfg; ac_open_stream cfg) pre =
  match size_answer cfg pre with
  | Err e => Some (pre ++ size_calls cfg, Err e)
  | Ok cfg' => Some ((pre ++ size_calls cfg) ++ [DidOpen cfg'], o_open o ((pre ++ size_calls cfg) ++ [DidOpen cfg']))
  end.
Proof. unfold mbind, AM_bind. rewrite fill_trace. by destruct (size_answer cfg pre). Qed.

(** The frame taken on an open session. *)
Lemma snap_runs sn timeout t (frames := sn_frames sn) (waited := t ++ [DidClear frames; Start; DidWait frames timeout]) :
  snap sn timeout t =
  match o_unit o (t ++ [DidClear frames; Start]) with
  | Err e => Some (t ++ [DidClear frames; Start], Err e)
  | Ok _ => let frame := o_frame o waited in
      Some (waited ++ (if sn_auto_stops sn && match frame with Some _ => true | None => false end then [] else [Stop]),
            match frame with Some f => Ok f | None => Err FrameTimeout end)
  end.
Proof.
  unfold snap. cbn -[str app sure]. rewrite bind_sure, bind_record. fold Start. rewrite <- app_assoc. cbn [app]. fold frames.
  destruct (o_unit o _) as [u|e]; [|done]. rewrite bind_sure. rewrite <- app_assoc. cbn [app]. fold waited.
  destruct (o_frame o waited), (sn_auto_stops sn); cbn -[str app]; by rewrite ?app_nil_r, <- ?app_assoc.
Qed.

Lemma snapshot_drops sn t :
  SnapshotSession_drop sn t = Some (t ++ [Lock 0] ++ restore_calls (sn_restore_mode sn) ++ [DidDrop (sn_stream sn)], Ok tt).
Proof.
  unfold SnapshotSession_drop. rewrite bind_lock. erewrite am_bind_ok by apply restore_trace.
  cbn. unfold record. by rewrite <- !app_assoc.
Qed.

(** C16: a snapshot leaves the camera as it found it.  Whatever the device
    answers, taking one frame makes exactly the calls its answers call for: an
    acquisition mode that was switched to single frame is switched back on
    every path; when the payload size can not be had or the channel can not be
    opened that is all, with the error; otherwise the session's subscription is
    emptied, the camera started, the frame waited for on that subscription, the
    camera told to stop exactly when it does not stop itself or sent no frame,
    and on every path the parameters are unlocked, the mode switched back and
    the channel closed, in this order.  The result is the frame waited for, the
    timeout when there was none, or the error of the start command. *)
Theorem snapshot_wound_up (cfg : OpenConfig) (timeout : Z) :
  exists pre auto mode t r, armed = (pre, auto, mode) /\ camera_snap cfg timeout [] = Some (t, r) /\
    snap_trace cfg timeout pre auto mode t r.
Proof.
  destruct arm_trace as (pre & auto & mode & Harm & Hrun). exists pre, auto, mode.
  unfold camera_snap, SnapshotSession_open. rewrite am_bind_assoc. erewrite am_bind_ok by exact Hrun. cbv beta iota.
  rewrite am_bind_assoc. set (t0 := pre ++ size_calls cfg).
  pose proof (snap_stream cfg pre) as Hs. fold t0 in Hs. destruct (size_answer cfg pre) as [cfg'|e] eqn:Es.
  2: { erewrite am_bind_ok by (eapply am_attempt, Hs). cbv beta iota. rewrite am_bind_assoc.
       erewrite am_bind_ok by apply restore_trace. do 2 eexists. split; [done|]. split; [done|]. by apply snap_no_size. }
  destruct (o_open o _) as [ch|e] eqn:Eo.
  2: { erewrite am_bind_ok by (eapply am_attempt, Hs). cbv beta iota. rewrite am_bind_assoc.
       erewrite am_bind_ok by apply restore_trace. do 2 eexists. split; [done|]. split; [done|]. by eapply snap_not_open. }
  erewrite am_bind_ok by (eapply am_attempt, Hs). cbv beta iota. rewrite am_bind_assoc, bind_lock, am_bind_assoc. cbn [ac_subscribe Trace_acq]. rewrite bind_sure.
  rewrite <- !(app_assoc t0). cbn [app]. set (opened := t0 ++ _).
  erewrite am_bind_ok by done. set (sn := {| sn_stream := ch |}).
  pose proof (snap_runs sn timeout opened) as Hr. cbn [sn sn_frames sn_auto_stops] in Hr.
  destruct (o_unit o _) as [[]|e] eqn:Eu; (erewrite am_bind_ok by (eapply am_attempt, Hr)); (erewrite am_bind_ok by apply snapshot_drops);
    do 2 eexists; (split; [done|]); (split; [|first [by apply snap_taken|by eapply snap_not_started]]); [|done].
  by destruct (o_frame o _).
Qed.
End trace.
