(* ===== verification/ControlTyped.v ===== *)
(** Answers have the type and size that was asked for.

    In the source a handle has a type parameter; the model has one store for
    all handles, so that the type of each is a property to be proved: [ctx]
    gives for every handle what its request wants, and the worker keeps the
    store, the operations it holds and the messages on their way typed in it,
    whatever the device sends. *)

From stdpp Require Import gmap.
From S2P Require Import Prelude Gvcp Gvsp Channel Frame Text Bootstrap Zip Url Emulator DeviceControl Errors Control ControlInv.

(** * Types *)

Inductive Want := WantReg | WantRegs (n : Z) | WantUnit | WantBytes (n : Z).

Definition has_type (v : RespVal) (w : Want) : Prop :=
  match v, w with
  | RvReg r, WantReg => u32_ok r
  | RvRegs rs, WantRegs n => zlen rs = n /\ Forall u32_ok rs
  | RvUnit, WantUnit => True
  | RvBytes b, WantBytes n => zlen b = n /\ bytes_ok b
  | _, _ => False
  end.

Section typed.
Context {EC : Chan GvcpEvent} {WC : Chan ToWorker}.
Variable ctx : nat -> Want.

Definition store_typed (hs : Handles) : Prop := forall h v, hs !! h = Some (Ok v) -> has_type v (ctx h).

(** What a request wants. *)
Definition msg_typed (m : ToWorker) : Prop :=
  match m with
  | TwReadReg _ h => ctx h = WantReg
  | TwReadRegs addrs h => ctx h = WantRegs (zlen addrs)
  | TwWriteRegs _ h | TwWriteMem _ _ h => ctx h = WantUnit
  | TwReadMem _ len h => ctx h = WantBytes (wrap 32 len)
  | TwSubscribeEvents _ | TwShutdown => True
  end.

(** An operation, with what it has gathered so far. *)
Definition op_typed (op : Op) : Prop :=
  match op with
  | OpReadReg h => ctx h = WantReg
  | OpReadRegs h addrs acc => ctx h = WantRegs (zlen addrs) /\ Forall u32_ok acc
  | OpWriteRegs h _ _ | OpWriteMem h _ _ _ => ctx h = WantUnit
  | OpReadMem h acc want _ => ctx h = WantBytes want /\ bytes_ok acc
  | OpHeartbeat => True
  end.

Record typed (s : Runner) : Prop := {
  ty_store : store_typed (w_handles s);
  ty_ops : Forall op_typed (held_ops s);
  ty_rx : Forall msg_typed (contents (w_rx s)) }.

(** ** The store *)

Lemma store_fulfill hs h v :
  store_typed hs -> (forall x, v = Ok x -> has_type x (ctx h)) -> store_typed (fulfill hs h v).
Proof.
  intros Hs Hv h' x. unfold fulfill. destruct (hs !! h) eqn:E; [apply Hs|].
  intros [[<- ->]|[_ H]]%lookup_insert_Some; [by apply Hv|by apply Hs].
Qed.

Lemma store_fail hs h e : store_typed hs -> store_typed (fail hs h e).
Proof. intros H. by apply store_fulfill. Qed.

Lemma store_op_fail hs op e : store_typed hs -> store_typed (Op_fail hs op e).
Proof. intros H. unfold Op_fail. destruct (op_handle op); [by apply store_fail|done]. Qed.

Lemma store_fail_message hs m e : store_typed hs -> store_typed (fail_message hs m e).
Proof. destruct m; simpl; try done; apply store_fail. Qed.

Lemma typed_view s t : view t = view s -> typed s -> typed t.
Proof.
  unfold view. intros [= E1 E2 E3 E4 E5] [H1 H2 H3]. split; unfold held_ops in *; rewrite ?E1, ?E2, ?E3, ?E5; done.
Qed.

Lemma typed_fail_op s op e : typed s -> typed (fail_op s op e).
Proof. intros [H1 H2 H3]. split; [by apply store_op_fail|done|done]. Qed.

Lemma typed_fulfill s h v : typed s -> (forall x, v = Ok x -> has_type x (ctx h)) -> typed (fulfill_handle s h v).
Proof. intros [H1 H2 H3] Hv. split; [by apply store_fulfill|done|done]. Qed.

(** ** Sending *)

Lemma typed_send_op s op send now t : op_typed op -> w_inflight s = None -> typed s -> send_op s op send now = Some t -> typed t.
Proof.
  intros Hop Hnone Hs. unfold send_op. set (s1 := s <| w_next_id ::= next_id |>). assert (typed s1) as Hs1 by (by destruct Hs).
  intros ([datagram|] & _ & H)%bind_Some; [|injection H as <-; by apply typed_fail_op].
  destruct (send_to s1 datagram (w_device_addr s1) false) as [ok u] eqn:E. apply send_to_view in E as [Hv _].
  pose proof (typed_view _ _ Hv Hs1) as Hu. destruct ok; injection H as <-; [|by apply typed_fail_op].
  injection Hv as E1 E2 E3 E4 E5. change (w_inflight s1) with (w_inflight s) in E2. destruct Hu as [U1 U2 U3].
  split; [done| |done]. unfold held_ops in *. rewrite E2, Hnone in U2. cbn [app] in *. by constructor.
Qed.

Lemma typed_continue_op s op send now t :
  op_typed op -> w_inflight s = None -> typed s -> continue_op s op send now = Some t -> typed t.
Proof.
  intros Hop Hnone Hs. unfold continue_op. destruct (w_queue s) as [|o q] eqn:Eq; [by apply typed_send_op|].
  destruct (is_heartbeat o) eqn:Ho; [|destruct o; try discriminate; by apply typed_send_op].
  destruct o; try discriminate. intros (q' & [= <-] & (ps & _ & [= <-])%bind_Some)%bind_Some.
  destruct Hs as [S1 S2 S3]. split; [done| |done]. unfold held_ops in *. cbn. rewrite Hnone in *. rewrite Eq in S2. cbn [app] in *.
  apply Forall_cons in S2 as [H1 H2]. by repeat constructor.
Qed.

(** ** Acknowledges *)

Lemma register_values_ok a : bytes_ok (ack_payload a) -> Forall u32_ok (register_values a).
Proof.
  intros H. unfold register_values. apply Forall_fmap. eapply Forall_impl; [by apply chunks4_ok|]. intros c [Hc Hl]. by apply be_decode_4.
Qed.

Lemma typed_finish_ack s op a now t :
  op_typed op -> bytes_ok (ack_payload a) -> w_inflight s = None -> typed s -> finish_ack s op a now = Some t -> typed t.
Proof.
  intros Hop Ha Hnone Hs. pose proof (register_values_ok a Ha) as Hr.
  assert (forall h e, typed (fulfill_handle s h (Err e))) as Herr by (intros; by apply typed_fulfill).
  assert (forall h v, has_type v (ctx h) -> typed (fulfill_handle s h (Ok v))) as Hok by (intros; apply typed_fulfill; [done|by intros ? [= <-]]).
  destruct op as [h|h addrs acc|h pairs n|h acc want next|h data offset base|]; cbn [finish_ack op_typed] in *.
  - intros [= <-]. destruct (register_values a) as [|v vs]; [done|]. apply Hok. rewrite Hop. cbn. by apply Forall_cons in Hr as [? _].
  - intros (rem & _ & H)%bind_Some. destruct (negb _); [by injection H as <-|]. destruct Hop as [Hc Hacc].
    destruct (Z.eqb_spec (zlen (acc ++ register_values a)) (zlen addrs)).
    + injection H as <-. apply Hok. rewrite Hc. split; [done|]. by apply Forall_app.
    + eapply typed_continue_op; [|done|done|exact H]. split; [done|]. by apply Forall_app.
  - intros (rem & _ & H)%bind_Some. destruct (_ <=? _); [injection H as <-; apply Hok; by rewrite Hop|].
    eapply (typed_continue_op s _ _ now t) in H; done.
  - destruct Hop as [Hc Hacc]. destruct (get_from (ack_payload a) 4) as [data|] eqn:Ed; [|by intros [= <-]].
    intros (room & Hroom & H)%bind_Some. unfold usize_sub in Hroom. destruct (_ <=? want) eqn:El; [|done]. injection Hroom as <-.
    set (acc' := acc ++ take _ data) in *.
    assert (bytes_ok data) as Hdata by (by eapply get_range_ok).
    assert (bytes_ok acc') as Hacc' by (apply Forall_app; split; [done|by apply Forall_take]).
    assert (zlen acc' <= want) as Hle.
    { unfold acc'. rewrite zlen_app. pose proof (zlen_nonneg data). unfold zlen in *. rewrite length_take. lia. }
    destruct (want <=? zlen acc') eqn:Ew.
    + injection H as <-. apply Hok. rewrite Hc. split; [lia|done].
    + destruct (_ =? 0); [by injection H as <-|]. eapply typed_continue_op; [|done|done|exact H]. by split.
  - intros (rem & _ & H)%bind_Some. destruct (_ <=? _); [injection H as <-; apply Hok; by rewrite Hop|].
    eapply (typed_continue_op s _ _ now t) in H; done.
  - intros [= <-]. eapply typed_view; [|exact Hs]. by repeat case_match.
Qed.

(** Taking the operation out of the flight. *)
Lemma typed_take s f : w_inflight s = Some f -> typed s -> typed (s <| w_inflight := None |>) /\ op_typed (in_op f).
Proof.
  intros Hf [S1 S2 S3]. unfold held_ops in S2. rewrite Hf in S2. apply Forall_cons in S2 as [H1 H2]. split; [|done]. by split.
Qed.

Lemma Ack_parse_ok buf a : bytes_ok buf -> Ack_parse buf = Some a -> bytes_ok (ack_payload a).
Proof.
  intros Hb. unfold Ack_parse. intros ([hd rest] & Hh & (p & Hp & [= <-])%bind_Some)%bind_Some. cbn.
  unfold AckHeader_from_prefix in Hh. do 8 (destruct buf as [|? buf]; [done|]). injection Hh as _ <-.
  do 8 apply Forall_cons in Hb as [_ Hb]. by eapply get_range_ok.
Qed.

Lemma typed_on_event s datagram src : typed s -> typed (on_event s datagram src).
Proof. apply typed_view, on_event_view. Qed.

Lemma typed_on_ack s f a now t :
  op_typed (in_op f) -> bytes_ok (ack_payload a) -> w_inflight s = None -> typed s -> on_ack s f a now = Some t -> typed t.
Proof.
  intros Hop Ha Hnone Hs. unfold on_ack. set (s1 := count s (set ls_acks bump)).
  assert (typed s1) as Hs1 by (by eapply typed_view; [|exact Hs]).
  destruct (is_error _).
  - set (s2 := count s1 (set ls_naks bump)). assert (typed s2) as Hs2 by (by eapply typed_view; [|exact Hs1]).
    destruct (is_heartbeat _); intros [= <-]; [by eapply typed_view; [|exact Hs2]|by apply typed_fail_op].
  - destruct (negb _); [intros [= <-]; by apply typed_fail_op|]. by eapply typed_finish_ack.
Qed.

Lemma typed_on_datagram s datagram src now t :
  bytes_ok datagram -> typed s -> on_datagram s datagram src now = Some t -> typed t.
Proof.
  intros Hb Hs. unfold on_datagram. destruct (is_cmd datagram); [intros [= <-]; by apply typed_on_event|].
  destruct (Ack_parse datagram) as [a|] eqn:Ea; [|by intros [= <-]]. pose proof (Ack_parse_ok _ _ Hb Ea) as Hp.
  assert (typed (count s (set ls_unsolicited bump))) as Hu by (by eapply typed_view; [|exact Hs]).
  destruct (w_inflight s) as [f|] eqn:Ef; [|by intros [= <-]]. destruct (negb _); [by intros [= <-]|].
  destruct (typed_take s f Ef Hs) as [Ht Hop]. destruct (pending_ack_timeout_ms a).
  - intros [= <-]. destruct Hs as [S1 S2 S3]. split; [done| |done]. unfold held_ops in *. rewrite Ef in S2. exact S2.
  - by apply typed_on_ack.
Qed.

Definition ctl_recv_ok (r : Recv) : Prop := match r with CtlDatagram _ datagram _ => bytes_ok datagram | _ => True end.

Lemma typed_drain_socket input s t : Forall ctl_recv_ok input -> typed s -> ctl_drain_socket s input = Some t -> typed t.
Proof.
  intros Hin. revert s. induction Hin as [|r input Hr _ IH]; intros s Hs; cbn [ctl_drain_socket]; [by intros [= <-]|].
  destruct r as [from datagram now| | | |]; [|by intros [= <-]|by apply IH|by apply IH|by intros [= <-]].
  destruct (negb _); [by apply IH|]. intros (u & Hu & H)%bind_Some. eapply IH; [|exact H]. by eapply typed_on_datagram.
Qed.

(** ** Commands and timers *)

Lemma typed_enqueue s op send : op_typed op -> typed s -> typed (enqueue s op send).
Proof.
  intros Hop [S1 S2 S3]. split; [done| |done]. unfold held_ops in *. cbn. rewrite app_assoc. apply Forall_app. split; [done|by constructor].
Qed.

Lemma typed_on_command s msg stop t : msg_typed msg -> typed s -> on_command s msg = (stop, t) -> typed t.
Proof.
  intros Hm Hs. destruct msg; cbn [on_command msg_typed] in *; intros [= _ <-];
    try (apply typed_enqueue; [first [exact Hm|split; [exact Hm|constructor]]|done]); [|done]. by eapply typed_view; [|exact Hs].
Qed.

Lemma typed_drain_commands n s stop t : typed s -> ctl_drain_commands_n n s = (stop, t) -> typed t.
Proof.
  revert s. induction n as [|n IH]; intros s Hs; cbn [ctl_drain_commands_n]; [by intros [= _ <-]|].
  pose proof (try_recv_spec (w_rx s)) as Hrx. destruct (try_recv (w_rx s)) as [[msg rx]|]; [|by intros [= _ <-]].
  pose proof (ty_rx _ Hs) as Hc. rewrite Hrx in Hc. apply Forall_cons in Hc as [Hm Hc].
  assert (typed (s <| w_rx := rx |>)) as Hs1 by (by destruct Hs; split).
  destruct (on_command (s <| w_rx := rx |>) msg) as [stop' u] eqn:Ho. pose proof (typed_on_command _ _ _ _ Hm Hs1 Ho) as Hu.
  destruct stop'; [by intros [= _ <-]|]. by apply IH.
Qed.

Lemma typed_submit s msg : msg_typed msg -> typed s -> typed (submit s msg).
Proof.
  intros Hm [S1 S2 S3]. unfold submit. pose proof (try_send_contents (w_rx s) msg) as Hc.
  destruct (try_send (w_rx s) msg) as [outcome rx]. cbn [fst snd] in Hc.
  assert (Forall msg_typed (contents rx)) as Hrx.
  { rewrite Hc. apply Forall_app. split; [done|]. case_decide; [by constructor|constructor]. }
  destruct outcome; (split; [|done|exact Hrx]); [done|by apply store_fail_message..].
Qed.

Lemma typed_submit_all msgs s : Forall msg_typed msgs -> typed s -> typed (foldl submit s msgs).
Proof. intros H. revert s. induction H as [|m msgs Hm _ IH]; intros s Hs; [done|]. apply IH. by apply typed_submit. Qed.

Lemma typed_deadline s now now' : typed s -> typed (check_inflight_deadline s now now').
Proof.
  intros Hs. unfold check_inflight_deadline. destruct (w_inflight s) as [f|] eqn:Ef; [|done].
  destruct (now <? in_deadline f); [done|]. destruct (0 <? in_tries_left f).
  - match goal with |- context [snd (send_to ?u ?d ?a ?r)] => destruct (send_to u d a r) as [ok t] eqn:E; set (u' := u) in *; cbn [snd] end.
    apply send_to_view in E as [E _]. eapply typed_view; [exact E|]. destruct Hs as [S1 S2 S3]. split; [done| |done].
    unfold held_ops in *. by rewrite Ef in S2.
  - set (s1 := count s (set ls_timeouts bump)).
    destruct (typed_take s1 f) as [Ht Hop]; [exact Ef|by eapply typed_view; [|exact Hs]|].
    destruct (is_heartbeat _); [by eapply typed_view; [|exact Ht]|by apply typed_fail_op].
Qed.

Lemma typed_heartbeat s now now' : typed s -> typed (check_heartbeat s now now').
Proof.
  intros Hs. unfold check_heartbeat. destruct (now <? w_heartbeat_due s); [done|].
  set (s1 := s <| w_heartbeat_due := _ |>). assert (typed s1) as Hs1 by (by eapply typed_view; [|exact Hs]).
  destruct (pending_heartbeat s1); [done|]. destruct Hs1 as [S1 S2 S3]. split; [done| |done].
  unfold held_ops in *. cbn in *. apply Forall_app in S2 as [H1 H2]. apply Forall_app. split; [done|by constructor].
Qed.

Lemma typed_pump s now t : typed s -> pump s now = Some t -> typed t.
Proof.
  intros Hs. unfold pump. destruct (w_inflight s) as [f|] eqn:Ef; [by intros [= <-]|].
  pose proof (ty_ops _ Hs) as Ho. unfold held_ops in Ho. rewrite Ef in Ho. cbn [app] in Ho. destruct Hs as [S1 S2 S3].
  assert (forall q ps, Forall op_typed q -> typed (s <| w_queue := q |> <| w_queued_payloads := ps |>)) as Hq.
  { intros q ps H. split; [done| |done]. unfold held_ops. cbn. by rewrite Ef. }
  destruct (w_queue s) as [|op q] eqn:Eq.
  { intros [= <-]. split; [done| |done]. unfold held_ops. cbn. by rewrite Ef, Eq. }
  apply Forall_cons in Ho as [Hop Ho]. destruct (w_queued_payloads s) as [|p ps] eqn:Ep.
  { intros [= <-]. split; [done| |done]. unfold held_ops. cbn. by rewrite Ef, Eq. }
  intros H. eapply typed_send_op; [exact Hop| |by apply Hq|exact H]. done.
Qed.

(** ** The run *)

Lemma typed_fail_queue e ops s : store_typed (w_handles s) -> store_typed (w_handles (foldl (fun s op => fail_op s op e) s ops)).
Proof. revert s. induction ops as [|op ops IH]; intros s Hs; [done|]. apply IH. by apply store_op_fail. Qed.

Lemma typed_fail_messages e msgs hs : store_typed hs -> store_typed (foldl (fun hs m => fail_message hs m e) hs msgs).
Proof. revert hs. induction msgs as [|m msgs IH]; intros hs Hs; [done|]. apply IH. by apply store_fail_message. Qed.

Lemma typed_pass s p again t :
  Forall ctl_recv_ok (cp_input p) -> typed s -> ctl_pass s p = Some (again, t) -> typed t.
Proof.
  intros Hin Hs. unfold ctl_pass. intros (u & Hu & H)%bind_Some. pose proof (typed_drain_socket _ _ _ Hin Hs Hu) as Hu1.
  unfold ctl_drain_commands in H. destruct (ctl_drain_commands_n _ u) as [stop v] eqn:E.
  pose proof (typed_drain_commands _ _ _ _ Hu1 E) as Hv. destruct stop; [by injection H as _ <-|].
  apply bind_Some in H as (w & Hw & [= _ <-]). eapply typed_pump; [|exact Hw]. by apply typed_heartbeat, typed_deadline.
Qed.

Lemma typed_shutdown s late : Forall msg_typed late -> typed s -> store_typed (w_handles (shutdown s late)).
Proof.
  intros Hl Hs. unfold shutdown. set (err := if w_control_lost s then ControlLost else Disconnected).
  set (s0 := if w_control_lost s then _ else s). cbv zeta.
  assert (typed s0) as H0 by (unfold s0; destruct (w_control_lost s); [by eapply typed_view; [|exact Hs]|done]).
  set (s1 := match w_inflight s0 with Some f => _ | None => s0 end).
  assert (store_typed (w_handles s1) /\ w_rx s1 = w_rx s0) as [H1 R1].
  { unfold s1. destruct (w_inflight s0); [|by split; [apply H0|]]. split; [|done]. by apply store_op_fail, H0. }
  destruct (fail_queue_ok (clone_err err) (w_queue s1) s1) as (_ & _ & I2 & _ & R2 & _).
  set (s2 := (foldl _ s1 (w_queue s1)) <| w_queue := [] |> <| w_queued_payloads := [] |>).
  assert (w_inflight s1 = None) as N1 by (unfold s1; by destruct (w_inflight s0) eqn:E).
  assert (typed s2) as H2.
  { split; [by apply typed_fail_queue|unfold held_ops; cbn; by rewrite I2, N1|]. cbn. rewrite R2, R1. apply H0. }
  set (s3 := if negb (w_control_lost s2) then _ else s2).
  assert (typed s3) as H3.
  { eapply typed_view; [|exact H2]. unfold s3. destruct (negb _); [|done].
    match goal with |- context [send_to ?u ?d ?a ?r] => destruct (send_to u d a r) as [ok u'] eqn:E end.
    by apply send_to_view in E as [E _]. }
  assert (typed (s3 <| w_event_txs := [] |> <| w_died := true |>)) as H4 by (by eapply typed_view; [|exact H3]).
  pose proof (typed_submit_all late _ Hl H4) as H5. set (s5 := foldl submit _ late) in *.
  destruct (recv_all (w_rx s5)) as [msgs rx]. cbn. by apply typed_fail_messages, H5.
Qed.

Lemma typed_run passes s late t :
  Forall (fun p => Forall ctl_recv_ok (cp_input p) /\ Forall msg_typed (cp_commands p)) passes -> Forall msg_typed late ->
  typed s -> ctl_run s passes late = Some t -> store_typed (w_handles t).
Proof.
  intros Hp Hl. revert s. induction Hp as [|p passes [Hin Hc] Hps IH]; intros s Hs; cbn [ctl_run].
  { intros [= <-]. by apply typed_shutdown. }
  intros ([again u] & Hu & H)%bind_Some. pose proof (typed_pass _ _ _ _ Hin (typed_submit_all _ _ Hc Hs) Hu) as Ht.
  destruct again; [by eapply IH|]. injection H as <-. apply typed_shutdown; [|done]. apply Forall_app. split; [|done].
  apply Forall_concat, Forall_fmap. eapply Forall_impl; [exact Hps|]. by intros ? [_ ?].
Qed.
End typed.

(** C14: answers are of the type and size that was asked for.  Whatever the
    device sends, when the worker has run and shut down, every handle it has
    given a value holds one of its request's type: a 32-bit register, exactly
    as many registers as were asked for, exactly the number of bytes asked
    for, or nothing for a write; short, long or empty acknowledges never get
    through to a caller as a value. *)
Theorem answers_typed {EC : Chan GvcpEvent} {WC : Chan ToWorker} (ctx : nat -> Want)
    (device_addr : Z * Z) (rx : chan ToWorker) (cfg : GigeConfig) (concatenation : bool) (now : Z) (io : list bool)
    (passes : list CtlPass) (late : list ToWorker) :
  Forall (msg_typed ctx) (contents rx ++ concat (cp_commands <$> passes) ++ late) ->
  Forall (fun p => Forall ctl_recv_ok (cp_input p)) passes ->
  exists t, ctl_run (Runner_new device_addr rx cfg concatenation now ∅ io) passes late = Some t /\
    forall h v, w_handles t !! h = Some (Ok v) -> has_type v (ctx h).
Proof.
  intros [Hrx [Hc Hl]%Forall_app]%Forall_app Hin. set (s := Runner_new device_addr rx cfg concatenation now ∅ io).
  assert (worker_inv s) as Hinv by (split; [constructor|done|by vm_compute; lia]).
  destruct (ctl_run_ok passes s late Hinv) as (t & Ht & _). exists t. split; [done|].
  apply (typed_run ctx passes s late t); [|done| |exact Ht].
  - clear -Hc Hin. induction Hin as [|p passes Hp _ IH]; [constructor|]. cbn in Hc. apply Forall_app in Hc as [H1 H2].
    constructor; [done|by apply IH].
  - split; [|constructor|done]. intros h v H. cbn in H. by rewrite lookup_empty in H.
Qed.

(** A register read that is answered, and a memory read of eight bytes whose
    device sends too many. *)
Definition ex_ctx (h : nat) : Want := if (h =? 0)%nat then WantReg else WantBytes 8.
Definition ex_pass (commands : list ToWorker) (input : list bytes) : CtlPass :=
  {| cp_commands := commands; cp_input := (fun d => CtlDatagram (9, GVCP_PORT) d 0) <$> input; cp_deadline := (0, 0);
     cp_heartbeat := (0, 0); cp_pump := 0 |}.
Definition ex_passes : list CtlPass :=
  [ex_pass [TwReadReg 0 0; TwReadMem 0 8 1] [];
   ex_pass [] [ack STATUS_SUCCESS READ_REGISTER_ACK 1 [0; 1; 0; 2]];
   ex_pass [] [ack STATUS_SUCCESS READ_MEMORY_ACK 2 [0; 0; 0; 0; 1; 2; 3; 4; 5; 6; 7; 8; 9; 10]]].
Definition ex_rx : chan ToWorker := mkQueue [] None true.

Lemma answers_typed_witness :
  exists t, ctl_run (Runner_new (9, GVCP_PORT) ex_rx GigeConfig_new true 0 ∅ []) ex_passes [] = Some t /\
    forall h v, w_handles t !! h = Some (Ok v) -> has_type v (ex_ctx h).
Proof.
  apply (answers_typed ex_ctx (9, GVCP_PORT) ex_rx GigeConfig_new true 0 [] ex_passes []).
  - by repeat constructor.
  - apply Forall_cons_2; [constructor|]. do 2 (apply Forall_cons_2; [apply Forall_singleton; by apply bytes_ok_dec_true|]). constructor.
Defined.

Example ex_answers :
  (fun t => (w_handles t !! 0%nat, w_handles t !! 1%nat)) <$>
    ctl_run (Runner_new (9, GVCP_PORT) ex_rx GigeConfig_new true 0 ∅ []) ex_passes [] =
  Some (Some (Ok (RvReg 0x10002)), Some (Ok (RvBytes [1; 2; 3; 4; 5; 6; 7; 8]))).
Proof. vm_compute. reflexivity. Qed.
