(* ===== verification/Discovery.v ===== *)
(** Discovery and IP forcing: the model of [src/src/gige/discovery.rs].

    The adapters of the host and what the sockets do are the environment: the
    interface list, which sockets open and which sends succeed, and the rounds
    of the receive loop, each with its clock reading and what every socket
    received.  [None] is a panic, or a receive loop that has not reached its
    deadline when the rounds end. *)

From stdpp Require Import gmap.
From S2P Require Import Prelude Gvcp Gvsp Text Bootstrap Zip Url Emulator DeviceControl Errors DeviceSpec.
From S2P Require Import Channel Control ControlLink ControlPort Session SessionSpec.

(** * Adapters *)

(** An interface as the operating system lists it. *)
Record IfAddress := { ia_ip : IpAddr; ia_netmask : IpAddr; ia_broadcast : option Z }.
Record Iface := { if_name : text; if_up : bool; if_loopback : bool; if_addresses : list IfAddress }.

Record NetworkAdapter := { na_name : text; na_ip : Z; na_netmask : Z; na_broadcast : Z }.

Definition adapter_of (name : text) (a : IfAddress) : option NetworkAdapter :=
  match ia_ip a, ia_netmask a with
  | V4 ip, V4 netmask =>
      if ip =? 0 then None
      else Some {| na_name := name; na_ip := ip; na_netmask := netmask;
                   na_broadcast := default (Z.lor ip (Z.lxor U32_MAX netmask)) (ia_broadcast a) |}
  | _, _ => None
  end.

Definition enumerate_adapters (interfaces : result CameraError (list Iface)) : result CameraError (list NetworkAdapter) :=
  ifaces ← interfaces;
  Ok (concat ((fun i => if negb (if_up i) || if_loopback i then [] else omap (adapter_of (if_name i)) (if_addresses i)) <$> ifaces)).

Record DiscoveryConfig := {
  dc_adapters : option (list NetworkAdapter);
  dc_recv_window : Z;
  dc_limited_broadcast : bool;
  dc_source_port : Z;
  dc_device_port : Z }.

Definition DiscoveryConfig_default : DiscoveryConfig :=
  {| dc_adapters := None; dc_recv_window := 1000000000; dc_limited_broadcast := true; dc_source_port := 0;
     dc_device_port := GVCP_PORT |}.

Definition IPV4_BROADCAST : Z := U32_MAX.

Definition beacon_destinations (adapter : NetworkAdapter) (limited : bool) (port : Z) : list SocketAddr :=
  (na_broadcast adapter, port) ::
  if limited && negb (na_broadcast adapter =? IPV4_BROADCAST) then [(IPV4_BROADCAST, port)] else [].

(** * Receiving *)

Record DiscoveredDevice := { dd_info : DeviceInfo; dd_from : SocketAddr; dd_adapter : NetworkAdapter }.

(** Outside, [None] is a panic; inside, the source's [None]. *)
Definition parse_discovery_ack (datagram : bytes) (from : SocketAddr) (adapter : NetworkAdapter)
    : option (option DiscoveredDevice) :=
  match Ack_parse datagram with
  | None => Some None
  | Some ack =>
      if negb (ack_answer ack =? DISCOVERY_ACK) || is_error (ack_status ack) then Some None
      else
        '(info : option DeviceInfo) ← DeviceInfo_parse (ack_payload ack);
        Some match info with
             | Some info => Some {| dd_info := info; dd_from := from; dd_adapter := adapter |}
             | None => None
             end
  end.

(** What the operating system does. *)
Record NetEnv := {
  ne_interfaces : result CameraError (list Iface);
  ne_opens : NetworkAdapter -> bool;
  ne_sends : NetworkAdapter -> SocketAddr -> bool }.

(** One turn of the loop: the clock, and what each socket received before its
    timeout, in the order of the sockets. *)
Record Round := { rd_now : Z; rd_recv : list (option (bytes * SocketAddr)) }.

Definition same_mac (a b : DiscoveredDevice) : bool := bool_decide (di_mac (dd_info a) = di_mac (dd_info b)).

Definition hear (found : list DiscoveredDevice) (adapter : NetworkAdapter) (recv : option (bytes * SocketAddr))
    : option (list DiscoveredDevice) :=
  match recv with
  | None => Some found
  | Some (datagram, from) =>
      '(device : option DiscoveredDevice) ← parse_discovery_ack datagram from adapter;
      Some match device with
           | None => found
           | Some device => if existsb (same_mac device) found then found else found ++ [device]
           end
  end.

Fixpoint hear_all (found : list DiscoveredDevice) (heard : list (NetworkAdapter * option (bytes * SocketAddr)))
    : option (list DiscoveredDevice) :=
  match heard with
  | [] => Some found
  | (adapter, recv) :: heard => found ← hear found adapter recv; hear_all found heard
  end.

Fixpoint listen (deadline : Z) (sockets : list NetworkAdapter) (found : list DiscoveredDevice) (rounds : list Round)
    : option (list DiscoveredDevice) :=
  match rounds with
  | [] => None
  | r :: rounds =>
      if deadline <=? rd_now r then Some found
      else found ← hear_all found (zip sockets (rd_recv r)); listen deadline sockets found rounds
  end.

Definition adapters_of (cfg : DiscoveryConfig) (env : NetEnv) : result CameraError (list NetworkAdapter) :=
  match dc_adapters cfg with Some a => Ok a | None => enumerate_adapters (ne_interfaces env) end.

(** The sockets a beacon went out on. *)
Definition beaconed (cfg : DiscoveryConfig) (env : NetEnv) (adapters : list NetworkAdapter) : list NetworkAdapter :=
  filter (fun a => ne_opens env a &&
    existsb (ne_sends env a) (beacon_destinations a (dc_limited_broadcast cfg) (dc_device_port cfg)) = true) adapters.

Definition discover (cfg : DiscoveryConfig) (env : NetEnv) (start : Z) (rounds : list Round)
    : option (result CameraError (list DiscoveredDevice)) :=
  match adapters_of cfg env with
  | Err e => Some (Err e)
  | Ok adapters =>
      match beaconed cfg env adapters with
      | [] => Some (Err Io)
      | sockets => found ← listen (start + dc_recv_window cfg) sockets [] rounds; Some (Ok found)
      end
  end.

Definition discover_on (interface_ip recv_window : Z) (env : NetEnv) (start : Z) (rounds : list Round)
    : option (result CameraError (list DiscoveredDevice)) :=
  match enumerate_adapters (ne_interfaces env) with
  | Err e => Some (Err e)
  | Ok adapters =>
      match list_find (fun a => na_ip a = interface_ip) adapters with
      | None => Some (Err Io)
      | Some (_, adapter) =>
          discover {| dc_adapters := Some [adapter]; dc_recv_window := recv_window;
                      dc_limited_broadcast := dc_limited_broadcast DiscoveryConfig_default;
                      dc_source_port := dc_source_port DiscoveryConfig_default;
                      dc_device_port := dc_device_port DiscoveryConfig_default |} env start rounds
      end
  end.

(** * Forcing an address *)

Record ForceIpConfig := { fi_discovery : DiscoveryConfig; fi_ack_window : Z }.

Definition force_acked (datagram : bytes) : bool :=
  match Ack_parse (take 256 datagram) with
  | Some ack => (ack_answer ack =? FORCEIP_ACK) && negb (is_error (ack_status ack))
  | None => false
  end.

(** The answer, or [None] when the rounds end before the deadline. *)
Fixpoint await_ack (deadline : Z) (sockets : nat) (rounds : list Round) : option bool :=
  match rounds with
  | [] => None
  | r :: rounds =>
      if deadline <=? rd_now r then Some false
      else if existsb (fun x => match x with Some (datagram, _) => force_acked datagram | None => false end)
                (take sockets (rd_recv r)) then Some true
      else await_ack deadline sockets rounds
  end.

(** The datagrams that go out, and the outcome. *)
Definition force_ip (mac ip mask gateway : bytes) (cfg : ForceIpConfig) (env : NetEnv) (start : Z) (rounds : list Round)
    : list (SocketAddr * bytes) * option (result CameraError bool) :=
  match adapters_of (fi_discovery cfg) env with
  | Err e => ([], Some (Err e))
  | Ok adapters =>
      let sockets := filter (fun a => ne_opens env a = true) adapters in
      let packet := encode_force_ip mac ip mask gateway 1 in
      let dests a := beacon_destinations a (dc_limited_broadcast (fi_discovery cfg)) (dc_device_port (fi_discovery cfg)) in
      (concat ((fun a => (fun dest => (dest, packet)) <$> filter (fun dest => ne_sends env a dest = true) (dests a)) <$> sockets),
       Ok <$> await_ack (start + fi_ack_window cfg) (length sockets) rounds)
  end.

Definition is_reachable (device : DiscoveredDevice) : bool :=
  let mask := na_netmask (dd_adapter device) in
  Z.land (di_ip (dd_info device)) mask =? Z.land (na_ip (dd_adapter device)) mask.

Definition device_ip (device : DiscoveredDevice) : IpAddr := V4 (di_ip (dd_info device)).

(** * Every device once *)

(** The datagrams received before the deadline, with the adapter that heard
    them, and the devices they announce. *)
Definition heard_on (sockets : list NetworkAdapter) (r : Round) : list (NetworkAdapter * (bytes * SocketAddr)) :=
  omap (fun x => match snd x with Some y => Some (fst x, y) | None => None end) (zip sockets (rd_recv r)).
Fixpoint received (deadline : Z) (sockets : list NetworkAdapter) (rounds : list Round)
    : list (NetworkAdapter * (bytes * SocketAddr)) :=
  match rounds with
  | [] => []
  | r :: rounds => if deadline <=? rd_now r then [] else heard_on sockets r ++ received deadline sockets rounds
  end.
Definition announced (x : NetworkAdapter * (bytes * SocketAddr)) : option DiscoveredDevice :=
  match parse_discovery_ack (fst (snd x)) (snd (snd x)) (fst x) with Some (Some device) => Some device | _ => None end.

Definition mac_of (device : DiscoveredDevice) : bytes := di_mac (dd_info device).

(** [found] is [all] with only the first device of every MAC kept. *)
Record merged (all found : list DiscoveredDevice) : Prop := {
  mg_distinct : NoDup (mac_of <$> found);
  mg_order : found `sublist_of` all;
  mg_first : forall device, device ∈ found -> exists l1 l2, all = l1 ++ device :: l2 /\ mac_of device ∉ (mac_of <$> l1);
  mg_complete : forall device, device ∈ all -> mac_of device ∈ (mac_of <$> found) }.

Lemma parse_discovery_total datagram from adapter : exists r, parse_discovery_ack datagram from adapter = Some r.
Proof.
  unfold parse_discovery_ack. destruct (Ack_parse datagram) as [a|]; [|by eexists]. destruct (_ || _); [by eexists|].
  destruct (DeviceInfo_parse_total (ack_payload a)) as [H1 H2].
  destruct (decide (DISCOVERY_DATA_SIZE <= zlen (ack_payload a))) as [H|H].
  - destruct (H1 H) as [info ->]. by eexists.
  - rewrite H2 by lia. by eexists.
Qed.

Lemma existsb_mac device found : existsb (same_mac device) found = bool_decide (mac_of device ∈ (mac_of <$> found)).
Proof.
  apply eq_true_iff_eq. rewrite existsb_exists, bool_decide_eq_true, list_elem_of_fmap. unfold same_mac. split.
  - intros (x & Hx & H%bool_decide_eq_true_1). exists x. split; [done|]. by apply list_elem_of_In.
  - intros (x & Hx & H). exists x. split; [by apply list_elem_of_In|]. by apply bool_decide_eq_true_2.
Qed.

(** Another device is heard. *)
Lemma merged_snoc all found device :
  merged all found ->
  merged (all ++ [device]) (if existsb (same_mac device) found then found else found ++ [device]).
Proof.
  intros [M1 M2 M3 M4]. rewrite existsb_mac. case_bool_decide as Hin.
  - split; [done|by apply sublist_inserts_r| |].
    + intros x Hx. destruct (M3 x Hx) as (l1 & l2 & -> & Hl). exists l1, (l2 ++ [device]). by rewrite <- app_assoc.
    + intros x [Hx| ->%list_elem_of_singleton]%elem_of_app; [by apply M4|done].
  - assert (mac_of device ∉ (mac_of <$> all)) as Hnew.
    { intros (x & Hx & Hall)%list_elem_of_fmap. apply Hin. rewrite Hx. by apply M4. }
    split.
    + rewrite fmap_app. apply NoDup_app. split_and!; [done| |apply NoDup_singleton].
      intros x Hx ->%list_elem_of_singleton. done.
    + by apply sublist_app.
    + intros x [Hx| ->%list_elem_of_singleton]%elem_of_app.
      * destruct (M3 x Hx) as (l1 & l2 & -> & Hl). exists l1, (l2 ++ [device]). by rewrite <- app_assoc.
      * exists all, []. by split.
    + intros x [Hx| ->%list_elem_of_singleton]%elem_of_app; rewrite fmap_app, elem_of_app; [left; by apply M4|right].
      by apply list_elem_of_singleton.
Qed.

Lemma hear_merged all found adapter recv :
  merged all found -> exists found', hear found adapter recv = Some found' /\
    merged (all ++ omap announced (omap (fun x => match snd x with Some y => Some (fst x, y) | None => None end) [(adapter, recv)])) found'.
Proof.
  intros M. destruct recv as [[datagram from]|]; cbn; [|by rewrite app_nil_r; eexists].
  unfold announced. cbn [fst snd]. destruct (parse_discovery_total datagram from adapter) as [r ->]. cbn [mbind option_bind].
  destruct r as [device|]; [|by rewrite app_nil_r; eexists]. eexists. split; [done|]. by apply merged_snoc.
Qed.

Lemma hear_all_merged heard all found :
  merged all found -> exists found', hear_all found heard = Some found' /\
    merged (all ++ omap announced (omap (fun x => match snd x with Some y => Some (fst x, y) | None => None end) heard)) found'.
Proof.
  revert all found. induction heard as [|[adapter recv] heard IH]; intros all found M; cbn [hear_all].
  { cbn. rewrite app_nil_r. by eexists. }
  destruct (hear_merged all found adapter recv M) as (found1 & -> & M1). cbn [mbind option_bind].
  destruct (IH _ _ M1) as (found2 & -> & M2). exists found2. split; [done|]. rewrite <- app_assoc in M2.
  rewrite <- omap_app, <- omap_app in M2. exact M2.
Qed.

Lemma listen_merged deadline sockets rounds all found :
  Exists (fun r => deadline <= rd_now r) rounds -> merged all found ->
  exists found', listen deadline sockets found rounds = Some found' /\
    merged (all ++ omap announced (received deadline sockets rounds)) found'.
Proof.
  intros He. revert all found. induction rounds as [|r rounds IH]; intros all found M; [by apply Exists_nil in He|]. cbn.
  destruct (deadline <=? rd_now r) eqn:E; [cbn; rewrite app_nil_r; by eexists|].
  destruct (hear_all_merged (zip sockets (rd_recv r)) all found M) as (found1 & -> & M1). cbn [mbind option_bind].
  apply Exists_cons in He as [He|He]; [lia|]. destruct (IH He _ _ M1) as (found2 & -> & M2). exists found2. split; [done|].
  rewrite <- app_assoc, <- omap_app in M2. exact M2.
Qed.

Lemma merged_nil : merged [] [].
Proof. split; [constructor|done|by intros ? ?%elem_of_nil|by intros ? ?%elem_of_nil]. Qed.

Lemma discover_spec (cfg : DiscoveryConfig) (env : NetEnv) (start : Z) (rounds : list Round) :
  Exists (fun r => start + dc_recv_window cfg <= rd_now r) rounds ->
  exists r, discover cfg env start rounds = Some r /\
    match adapters_of cfg env with
    | Err e => r = Err e
    | Ok adapters =>
        match beaconed cfg env adapters with
        | [] => r = Err Io
        | sockets => exists found, r = Ok found /\ merged (omap announced (received (start + dc_recv_window cfg) sockets rounds)) found
        end
    end.
Proof.
  intros He. unfold discover. destruct (adapters_of cfg env) as [adapters|e]; [|by eexists].
  destruct (beaconed cfg env adapters) as [|a sockets]; [by eexists|].
  destruct (listen_merged _ (a :: sockets) rounds [] [] He merged_nil) as (found & -> & M). cbn [mbind option_bind].
  eexists. split; [done|]. by exists found.
Qed.

(** C25: discovery returns when its window has passed, with every device that
    was heard exactly once: it reports an error when no adapter carried the
    beacon, and otherwise the devices announced before the deadline, in the
    order they were first heard, one per MAC address, the first announcement
    of each. *)
Theorem discovery_collects (cfg : DiscoveryConfig) (env : NetEnv) (start : Z) (rounds : list Round) :
  Exists (fun r => start + dc_recv_window cfg <= rd_now r) rounds ->
  exists r, discover cfg env start rounds = Some r /\
    match adapters_of cfg env with
    | Err e => r = Err e
    | Ok adapters =>
        match beaconed cfg env adapters with
        | [] => r = Err Io
        | sockets => exists found, r = Ok found /\ merged (omap announced (received (start + dc_recv_window cfg) sockets rounds)) found
        end
    end.
Proof. apply discover_spec. Qed.

(** * The device answers *)

(** Discovery is never answered from the reply cache. *)
Definition no_cached_discovery (d : GigeDevice) : Prop :=
  forall src command id reply, d_last_reply d !! src = Some (command, id, reply) -> command <> DISCOVERY_CMD.

Lemma no_cached_empty d : d_last_reply d = ∅ -> no_cached_discovery d.
Proof. intros H src c i r. by rewrite H, lookup_empty. Qed.

Lemma write_loop_replies chunks d ft st d' r :
  write_registers_loop d chunks ft st = Some (d', r) -> d_last_reply d' = d_last_reply d.
Proof.
  revert d ft st. induction chunks as [|[a v] chunks IH]; intros d ft st; cbn [write_registers_loop]; [by intros [= <- <-]|].
  destruct (_ <? _); [by intros [= <- <-]|]. intros (d1 & Hw & H)%bind_Some. rewrite (IH _ _ _ H).
  unfold write_reg, mem_write in Hw. by apply bind_Some in Hw as (? & _ & [= <-]).
Qed.

Lemma execute_replies d cmd d' r : Emulator.execute d cmd = Some (d', r) -> d_last_reply d' = d_last_reply d.
Proof.
  unfold Emulator.execute. destruct (_ =? DISCOVERY_CMD); [by intros (? & _ & [= <- <-])%bind_Some|].
  destruct (_ =? READ_REGISTER_CMD); [by intros (? & _ & [= <- <-])%bind_Some|].
  destruct (_ =? WRITE_REGISTER_CMD).
  { unfold write_registers. intros ([d1 x] & Hl & [= <- <-])%bind_Some. by eapply write_loop_replies. }
  destruct (_ =? READ_MEMORY_CMD); [by intros (? & _ & [= <- <-])%bind_Some|].
  destruct (_ =? WRITE_MEMORY_CMD).
  { intros ([d1 x] & Hw & [= <- <-])%bind_Some. unfold Emulator.write_memory in Hw.
    destruct (be_decode <$> _) as [a|]; [|by injection Hw as <- <-]. destruct (_ <? _); [by injection Hw as <- <-|].
    apply bind_Some in Hw as (d2 & Hm & [= <- <-]). unfold mem_write in Hm. by apply bind_Some in Hm as (? & _ & [= <-]). }
  destruct (_ =? PACKET_RESEND_CMD); [by intros (? & _ & [= <- <-])%bind_Some|by intros [= <- <-]].
Qed.

Lemma handle_no_cached d data src d' r :
  no_cached_discovery d -> handle_datagram d data src = Some (d', r) -> no_cached_discovery d'.
Proof.
  intros Hn. unfold handle_datagram. destruct (Cmd_parse data) as [cmd|]; [|by intros [= <- <-]].
  destruct (match d_last_reply _ !! src with Some _ => _ | None => _ end) as [reply|]; [by intros [= <- <-]|].
  intros ([d1 re] & He & H)%bind_Some. apply execute_replies in He. cbn [d_last_reply] in He.
  destruct (re_reply re) as [reply|]; [|injection H as <- <-; intros ????; rewrite He; apply Hn].
  destruct (cmd_command cmd =? DISCOVERY_CMD) eqn:Ec; injection H as <- <-; intros src' c i rp; cbn.
  - rewrite He. apply Hn.
  - rewrite He. intros [[_ [= <- _ _]]|[_ H]]%lookup_insert_Some; [lia|by eapply Hn].
Qed.

Lemma handle_all_keeps input d d' rs :
  dev_ok d -> no_cached_discovery d -> Forall (fun '(data, _) => bytes_ok data) input -> handle_all d input = Some (d', rs) ->
  dev_ok d' /\ no_cached_discovery d'.
Proof.
  intros Hd Hn Hin. revert d rs Hd Hn. induction Hin as [|[data src] input Hb _ IH]; intros d rs Hd Hn; cbn [handle_all];
    [by intros [= <- <-]|].
  intros ([d1 r] & Hh & ([d2 rs2] & Ha & [= <- <-])%bind_Some)%bind_Some.
  destruct (handle_datagram_ok d data src Hd Hb) as (d1' & r' & Hh' & Hd1). rewrite Hh in Hh'. injection Hh' as <- <-.
  eapply IH; [done| |exact Ha]. by eapply handle_no_cached.
Qed.

(** The beacon is answered with the identity a session would read. *)
Lemma beacon_answered d src allow from adapter :
  dev_ok d -> no_cached_discovery d ->
  exists d' reply info, handle_datagram d (encode_discovery allow) src = Some (d', Reaction_reply reply) /\ d_mem d' = d_mem d /\
    parse_discovery_ack reply from adapter = Some (Some {| dd_info := info; dd_from := from; dd_adapter := adapter |}) /\
    forall mx, fetch_device_info (mkDevPort (d_mem d) mx) = (mkDevPort (d_mem d) mx, Ok info).
Proof.
  intros Hd Hn. destruct Hd as [Hl Hb Hm].
  destruct (fetch_info_discovery (mkDevPort (d_mem d) None)) as (info & _ & Hinfo); [by split|]. cbn [dp_mem] in Hinfo.
  unfold handle_datagram, encode_discovery.
  pose proof (Cmd_parse_encoded DISCOVERY_CMD (Z.lor FLAG_ACK_REQUIRED (if allow then FLAG_ALLOW_BROADCAST_ACK else 0)) DISCOVERY_ID [] []) as Hp.
  cbn [app] in Hp. rewrite app_nil_r in Hp. change (zlen (@nil Z)) with 0 in Hp. rewrite Hp by first [const_range|by vm_compute]. clear Hp.
  cbn [cmd_command cmd_req_id d_last_reply].
  match goal with |- context [match ?m with Some reply => Some (_ <| d_duplicates ::= _ |>, _) | None => _ end] => assert (m = None) as -> end.
  { destruct (d_last_reply _ !! src) as [[[c i] rp]|] eqn:E; [|done]. apply Hn in E. replace (c =? DISCOVERY_CMD) with false by lia. done. }
  unfold Emulator.execute. cbn [cmd_command]. rewrite Z.eqb_refl. unfold mem_read.
  change (d_mem (d <| d_ctrl_peer := Some src |>)) with (d_mem d). rewrite block_read by (rewrite ?Hl; by vm_compute).
  cbn [mbind option_bind re_reply Reaction_reply]. change (negb (DISCOVERY_CMD =? DISCOVERY_CMD)) with false. cbv iota.
  do 3 eexists. split; [reflexivity|]. split; [done|]. split.
  - unfold parse_discovery_ack. rewrite Ack_parse_ack; [|const_range..|].
    + cbn [ack_answer ack_status ack_payload]. rewrite Hinfo. done.
    + rewrite zlen_block; rewrite ?Hl; by vm_compute.
  - intros mx. destruct (fetch_info_discovery (mkDevPort (d_mem d) mx)) as (info' & Hf & Hi); [by split|].
    cbn [dp_mem] in Hi. rewrite Hinfo in Hi. by injection Hi as <-.
Qed.

(** C24: discovery finds a device and tells its identity.  Whatever datagrams a
    device has served before, it answers the beacon without changing its
    registers; and when the answer reaches a socket of the discovery before
    the deadline, and no other device announces its MAC address, the devices
    found include it, with the identity a session would read from its
    registers. *)
Theorem discovery_finds_device (d0 d : GigeDevice) (input : list (bytes * SocketAddr)) (rs : list Reaction) (src : SocketAddr) :
  dev_ok d0 -> d_last_reply d0 = ∅ -> Forall (fun '(data, _) => bytes_ok data) input -> handle_all d0 input = Some (d, rs) ->
  exists d' reply info, handle_datagram d (encode_discovery true) src = Some (d', Reaction_reply reply) /\ d_mem d' = d_mem d /\
    (forall mx, fetch_device_info (mkDevPort (d_mem d) mx) = (mkDevPort (d_mem d) mx, Ok info)) /\
    forall cfg env start rounds adapters adapter from,
      Exists (fun r => start + dc_recv_window cfg <= rd_now r) rounds -> adapters_of cfg env = Ok adapters ->
      let all := received (start + dc_recv_window cfg) (beaconed cfg env adapters) rounds in
      (adapter, (reply, from)) ∈ all ->
      (forall x other, x ∈ all -> announced x = Some other -> mac_of other = di_mac info -> dd_info other = info) ->
      exists found device, discover cfg env start rounds = Some (Ok found) /\ device ∈ found /\ dd_info device = info.
Proof.
  intros Hd0 Hl0 Hin Hrun.
  destruct (handle_all_keeps input d0 d rs) as [Hd Hn]; [done|by apply no_cached_empty|done|done|].
  destruct (beacon_answered d src true (0, 0) {| na_name := []; na_ip := 0; na_netmask := 0; na_broadcast := 0 |} Hd Hn)
    as (d' & reply & info & Hh & Hm & _ & Hf).
  exists d', reply, info. split_and!; [done..|]. intros cfg env start rounds adapters adapter from He Ha all Hx Huniq.
  destruct (beacon_answered d src true from adapter Hd Hn) as (d1 & reply1 & info1 & Hh1 & _ & Hp & Hf1).
  rewrite Hh in Hh1. injection Hh1 as <- <-. assert (info1 = info) as ->.
  { specialize (Hf None). rewrite Hf1 in Hf. by injection Hf. }
  destruct (discover_spec cfg env start rounds He) as (r & Hr & Hcase). rewrite Ha in Hcase.
  assert (announced (adapter, (reply, from)) = Some {| dd_info := info; dd_from := from; dd_adapter := adapter |}) as Hann.
  { unfold announced. cbn [fst snd]. by rewrite Hp. }
  fold all in Hcase. destruct (beaconed cfg env adapters) as [|a sockets] eqn:Eb.
  { exfalso. unfold all in Hx. clear -Hx. induction rounds as [|r rounds IH]; cbn in Hx; [by apply elem_of_nil in Hx|].
    destruct (_ <=? _); [by apply elem_of_nil in Hx|]. by apply IH. }
  destruct Hcase as (found & -> & M). exists found.
  assert (exists device, device ∈ found /\ mac_of device = di_mac info) as (device & Hdev & Hmac).
  { destruct (proj1 (list_elem_of_fmap mac_of found (di_mac info))) as (device & Hmac & Hdev); [|by exists device].
    apply (mg_complete _ _ M {| dd_info := info; dd_from := from; dd_adapter := adapter |}).
    apply list_elem_of_omap. by eexists. }
  exists device. split; [done|]. split; [done|].
  assert (device ∈ omap announced all) as Hall by (eapply elem_of_sublist; [exact Hdev|apply M]).
  apply list_elem_of_omap in Hall as (x & Hx' & Hann'). by eapply Huniq.
Qed.

(** * A discovery run *)

(** Two adapters, one of which cannot send; the answer of a device arrives
    twice, the second time with a stray datagram between. *)
Definition ex_lan : NetworkAdapter := {| na_name := str "eth0"; na_ip := 0x0a000001; na_netmask := 0xffffff00; na_broadcast := 0x0a0000ff |}.
Definition ex_dead : NetworkAdapter := {| na_name := str "eth1"; na_ip := 0x0b000001; na_netmask := 0xffffff00; na_broadcast := 0x0b0000ff |}.
Definition ex_discovery : DiscoveryConfig :=
  {| dc_adapters := Some [ex_dead; ex_lan]; dc_recv_window := 100; dc_limited_broadcast := true; dc_source_port := 0; dc_device_port := GVCP_PORT |}.
Definition ex_net : NetEnv :=
  {| ne_interfaces := Err Io; ne_opens := fun _ => true; ne_sends := fun a _ => na_ip a =? 0x0a000001 |}.
Definition ex_reply : bytes := ack STATUS_SUCCESS DISCOVERY_ACK DISCOVERY_ID (block (d_mem blank_device) 0 DISCOVERY_DATA_SIZE).
Definition ex_rounds : list Round :=
  [{| rd_now := 10; rd_recv := [Some (ex_reply, (0x0a000002, GVCP_PORT))] |};
   {| rd_now := 40; rd_recv := [Some ([1; 2; 3], (7, 7))] |};
   {| rd_now := 60; rd_recv := [Some (ex_reply, (0x0a000002, GVCP_PORT))] |};
   {| rd_now := 110; rd_recv := [None] |}].

Lemma ex_rounds_end : Exists (fun r => 10 + dc_recv_window ex_discovery <= rd_now r) ex_rounds.
Proof. do 3 apply Exists_cons_tl. apply Exists_cons_hd. by vm_compute. Qed.

Lemma ex_received :
  received (10 + dc_recv_window ex_discovery) (beaconed ex_discovery ex_net [ex_dead; ex_lan]) ex_rounds =
  [(ex_lan, (ex_reply, (0x0a000002, GVCP_PORT))); (ex_lan, ([1; 2; 3], (7, 7))); (ex_lan, (ex_reply, (0x0a000002, GVCP_PORT)))].
Proof. reflexivity. Qed.

Lemma discovery_collects_witness :
  exists found, discover ex_discovery ex_net 10 ex_rounds = Some (Ok found) /\ NoDup (mac_of <$> found).
Proof.
  destruct (discovery_collects ex_discovery ex_net 10 ex_rounds ex_rounds_end) as (r & Hr & found & -> & M).
  exists found. split; [exact Hr|apply M].
Defined.

Example ex_answer :
  (fun x => re_reply (snd x)) <$> handle_datagram blank_device (encode_discovery true) (1, 2) = Some (Some ex_reply).
Proof. vm_compute. reflexivity. Qed.

Lemma discovery_finds_device_witness :
  exists d' info, handle_datagram blank_device (encode_discovery true) (1, 2) = Some (d', Reaction_reply ex_reply) /\
    d_mem d' = d_mem blank_device /\ fetch_device_info (mkDevPort (d_mem blank_device) None) = (mkDevPort (d_mem blank_device) None, Ok info) /\
    exists found device, discover ex_discovery ex_net 10 ex_rounds = Some (Ok found) /\ device ∈ found /\ dd_info device = info.
Proof.
  destruct (discovery_finds_device blank_device blank_device [] [] (1, 2)) as (d' & reply & info & Hh & Hm & Hf & Hd).
  - apply blank_device_ok.
  - reflexivity.
  - constructor.
  - reflexivity.
  - assert (reply = ex_reply) as ->.
    { pose proof ex_answer as E. rewrite Hh in E. cbn [fmap option_fmap option_map snd re_reply Reaction_reply] in E. by injection E. }
    exists d', info. split; [exact Hh|]. split; [exact Hm|]. split; [apply Hf|].
    apply (Hd ex_discovery ex_net 10 ex_rounds [ex_dead; ex_lan] ex_lan (0x0a000002, GVCP_PORT)).
    + apply ex_rounds_end.
    + reflexivity.
    + rewrite ex_received. left.
    + rewrite ex_received. intros x other Hx Ha Hmac. rewrite !elem_of_cons, elem_of_nil in Hx.
      assert (forall y, announced (ex_lan, (ex_reply, y)) = Some other -> dd_info other = info) as Hsame.
      { intros y Hy.
        destruct (beacon_answered blank_device (1, 2) true y ex_lan) as (d1 & reply1 & info1 & Hh1 & _ & Hp1 & Hf1);
          [apply blank_device_ok|by apply no_cached_empty|].
        rewrite Hh in Hh1. injection Hh1 as <- <-. unfold announced in Hy. cbn [fst snd] in Hy. rewrite Hp1 in Hy.
        injection Hy as <-. specialize (Hf None). rewrite Hf1 in Hf. apply (f_equal snd) in Hf. cbn [snd] in Hf. by injection Hf. }
      destruct Hx as [-> |[-> |[-> |[]]]]; [exact (Hsame _ Ha)|discriminate Ha|exact (Hsame _ Ha)].
Defined.

(** The device above is heard once and is not reachable at its address. *)
Example ex_discovered :
  (fun r => match r with Ok found => (fun x => (dd_from x, is_reachable x)) <$> found | Err _ => [] end)
    <$> discover ex_discovery ex_net 10 ex_rounds = Some [((0x0a000002, GVCP_PORT), false)].
Proof. vm_compute. reflexivity. Qed.
