(* ===== verification/Wire.v ===== *)
(** Telemetry packets: the model of [src/src/wire.rs], which decodes every
    datagram a camera's sockets carry for an observer.

    The theorems say that the observer is told the truth: a command the
    workers send is decoded to itself, and a datagram that is not decoded is
    one the receiving worker drops. *)

From S2P Require Import Prelude Gvcp Gvsp Channel Float64 Frame Reassembly Text Bootstrap Zip Url Errors Control.

Record GvcpCmd := { gc_flags : Z; gc_command : Z; gc_req_id : Z; gc_payload : bytes }.
Record GvcpAck := { ga_status : GvcpStatus; ga_answer : Z; ga_ack_id : Z; ga_payload : bytes }.

Definition GvcpCmd_parse (datagram : bytes) : option GvcpCmd :=
  cmd ← Cmd_parse datagram;
  Some {| gc_flags := cmd_flags cmd; gc_command := cmd_command cmd; gc_req_id := cmd_req_id cmd; gc_payload := cmd_payload cmd |}.

Definition GvcpAck_parse (datagram : bytes) : option GvcpAck :=
  ack ← Ack_parse datagram;
  Some {| ga_status := ack_status ack; ga_answer := ack_answer ack; ga_ack_id := ack_id ack; ga_payload := ack_payload ack |}.

Inductive ControlTx := TxCmd (cmd : GvcpCmd) (retry : bool) | TxAck (ack : GvcpAck).
Inductive ControlRx := RxAck (ack : GvcpAck) | RxCmd (cmd : GvcpCmd).

Record GvspPacket := {
  gp_status : GvcpStatus; gp_extended_ids : bool; gp_frame_id : Z; gp_packet_id : Z;
  gp_content_type : ContentType; gp_data : bytes }.

Definition control_tx (datagram : bytes) (retry : bool) : option ControlTx :=
  if is_cmd datagram then cmd ← GvcpCmd_parse datagram; Some (TxCmd cmd retry)
  else ack ← GvcpAck_parse datagram; Some (TxAck ack).

Definition control_rx (datagram : bytes) : option ControlRx :=
  if is_cmd datagram then cmd ← GvcpCmd_parse datagram; Some (RxCmd cmd)
  else ack ← GvcpAck_parse datagram; Some (RxAck ack).

Definition stream_tx (datagram : bytes) : option GvcpCmd := GvcpCmd_parse datagram.

Definition stream_rx (datagram : bytes) : option GvspPacket :=
  view ← GvspView_parse datagram;
  Some {| gp_status := v_status view; gp_extended_ids := v_extended_ids view; gp_frame_id := v_frame_id view;
          gp_packet_id := v_packet_id view; gp_content_type := v_content_type view; gp_data := v_data view |}.

(** * What the observer sees *)

Lemma host_cmd_is_cmd c id : is_cmd (HostCmd_encode c id) = true.
Proof. rewrite HostCmd_encode_shape. by destruct c as [| | | |???[]]. Qed.

Section observed.
Context {FC : Chan Frame} {PC : Chan BufSlot} {SC : Chan ToStreamWorker} {HS : PacketHasher}.
Context {EC : Chan GvcpEvent} {CC : Chan ToWorker}.

(** A datagram an observer of the control socket is not told of changes
    nothing in the worker. *)
Theorem unobserved_dropped (s : Runner) (datagram : bytes) (src : Z * Z) (now : Z) :
  control_rx datagram = None -> on_datagram s datagram src now = Some s.
Proof.
  unfold control_rx, on_datagram, on_event, GvcpCmd_parse, GvcpAck_parse. destruct (is_cmd datagram).
  - by destruct (Cmd_parse datagram).
  - by destruct (Ack_parse datagram).
Qed.

(** And one an observer of the stream is not told of is only counted. *)
Theorem unobserved_ignored (s : StreamRunner) (datagram : bytes) (now sys_ns : Z) :
  stream_rx datagram = None -> process_packet s datagram now sys_ns = Some (ignore_packet s).
Proof. unfold stream_rx, process_packet. by destruct (GvspView_parse datagram). Qed.
End observed.

(** Every command the workers send is shown to the observer as it was meant,
    retransmissions marked. *)
Theorem sent_command_observed (c : HostCmd) (id : Z) (retry : bool) :
  HostCmd_ok c -> u16_ok id ->
  control_tx (HostCmd_encode c id) retry =
    Some (TxCmd {| gc_flags := HostCmd_flags c; gc_command := HostCmd_opcode c; gc_req_id := id; gc_payload := HostCmd_payload c |} retry).
Proof.
  intros Hc Hid. unfold control_tx. rewrite host_cmd_is_cmd, HostCmd_encode_shape. unfold GvcpCmd_parse.
  pose proof (Cmd_parse_encoded (HostCmd_opcode c) (HostCmd_flags c) id (HostCmd_payload c) []) as E. rewrite app_nil_r in E.
  rewrite E; [done|destruct c; const_range|done|by apply HostCmd_payload_fits].
Qed.
