(* ===== verification/Waiting.v ===== *)
(** Waiting on a response handle: the model of the concurrent part of
    [src/src/handle.rs].

    A handle is shared by the worker side, which deposits the outcome
    ([fulfill]), by threads that block on it ([wait_timeout]) and by tasks
    that poll it.  Every access to the shared cell, the event and the list of
    wakers is one step; a schedule is any sequence of steps of any threads.
    The event of the external crate [event-listener] wakes every listener that
    was registered when it is notified; a waker asks the executor to poll its
    task again.

    The theorem is that no wake-up is lost: every schedule ends, and when no
    thread can go on everyone who waits has the outcome. *)

From stdpp Require Import gmap list.
From S2P Require Import Prelude.

#[local] Set Warnings "-clear-no-such-hyp".

Section waiting.
Context {A : Type}.

(** Where a thread is: in [fulfill], in [wait_timeout], or in [poll]. *)
Inductive Pc :=
| FulfillSet (v : A) | FulfillNotify | FulfillTake | FulfillWake (tasks : list nat) | FulfillDone
| WaitCheck | WaitListen | WaitRecheck | WaitParked | WaitDone (r : option A)
| PollCheck | PollRegister | PollRecheck | PollPending | PollReady (v : A).

(** The handle and the threads that use it; [WaitDone None] is the timeout. *)
Record Shared := mkShared {
  h_cell : option A;
  h_listening : gset nat;
  h_notified : gset nat;
  h_wakers : list nat;
  h_woken : gset nat;
  h_threads : list Pc }.

(** The next step of thread [i], in each of the three calls; [None] when it is
    done or blocked.  With [spurious] a blocked thread goes on by itself: its
    timeout expires, or the executor polls the task without a wake-up.  The
    deposit keeps the lock of the wakers until it has woken them all; the
    model lets others register meanwhile, which only adds schedules. *)
Definition goto (s : Shared) (i : nat) (pc : Pc) : option Shared :=
  Some (mkShared (h_cell s) (h_listening s) (h_notified s) (h_wakers s) (h_woken s) (<[i := pc]> (h_threads s))).

Definition fulfill_step (s : Shared) (i : nat) (pc : Pc) : option Shared :=
  let '(mkShared cell listening notified wakers woken threads) := s in
  match pc with
  | FulfillSet v =>
      goto (mkShared (match cell with Some _ => cell | None => Some v end) listening notified wakers woken threads) i FulfillNotify
  | FulfillNotify => goto (mkShared cell ∅ (notified ∪ listening) wakers woken threads) i FulfillTake
  | FulfillTake => goto (mkShared cell listening notified [] woken threads) i (FulfillWake wakers)
  | FulfillWake (t :: tasks) => goto (mkShared cell listening notified wakers (woken ∪ {[t]}) threads) i (FulfillWake tasks)
  | FulfillWake [] => goto s i FulfillDone
  | _ => None
  end.

Definition wait_step (s : Shared) (i : nat) (pc : Pc) (spurious : bool) : option Shared :=
  let '(mkShared cell listening notified wakers woken threads) := s in
  let leave r := goto (mkShared cell (listening ∖ {[i]}) (notified ∖ {[i]}) wakers woken threads) i (WaitDone r) in
  match pc with
  | WaitCheck => goto s i (match cell with Some v => WaitDone (Some v) | None => WaitListen end)
  | WaitListen => goto (mkShared cell (listening ∪ {[i]}) notified wakers woken threads) i WaitRecheck
  | WaitRecheck => match cell with Some v => leave (Some v) | None => goto s i WaitParked end
  | WaitParked => if bool_decide (i ∈ notified) || spurious then leave cell else None
  | _ => None
  end.

Definition poll_step (s : Shared) (i : nat) (pc : Pc) (spurious : bool) : option Shared :=
  let '(mkShared cell listening notified wakers woken threads) := s in
  match pc with
  | PollCheck => goto s i (match cell with Some v => PollReady v | None => PollRegister end)
  | PollRegister =>
      goto (mkShared cell listening notified (if bool_decide (i ∈ wakers) then wakers else wakers ++ [i]) woken threads) i PollRecheck
  | PollRecheck => goto s i (match cell with Some v => PollReady v | None => PollPending end)
  | PollPending =>
      if bool_decide (i ∈ woken) || spurious
      then goto (mkShared cell listening notified wakers (woken ∖ {[i]}) threads) i PollCheck else None
  | _ => None
  end.

Definition move (s : Shared) (i : nat) (pc : Pc) (spurious : bool) : option Shared :=
  match pc with
  | FulfillSet _ | FulfillNotify | FulfillTake | FulfillWake _ | FulfillDone => fulfill_step s i pc
  | WaitCheck | WaitListen | WaitRecheck | WaitParked | WaitDone _ => wait_step s i pc spurious
  | PollCheck | PollRegister | PollRecheck | PollPending | PollReady _ => poll_step s i pc spurious
  end.

(** Write out a step. *)
Ltac open_move H :=
  unfold move, fulfill_step, wait_step, poll_step, goto in H; cbn [h_cell h_listening h_notified h_wakers h_woken h_threads] in H.

Definition hstep (s : Shared) (x : nat * bool) : option Shared :=
  pc ← h_threads s !! fst x; move s (fst x) pc (snd x).

Fixpoint schedule (s : Shared) (xs : list (nat * bool)) : option Shared :=
  match xs with [] => Some s | x :: xs => s ← hstep s x; schedule s xs end.

(** Every thread at the start of its call, nothing recorded. *)
Definition start_pc (pc : Pc) : bool := match pc with FulfillSet _ | WaitCheck | PollCheck => true | _ => false end.
Definition start (threads : list Pc) : Shared := mkShared None ∅ ∅ [] ∅ threads.

(** * The invariant *)

(** A deposit that is under way has recorded its outcome. *)
Definition depositing (pc : Pc) : bool :=
  match pc with FulfillNotify | FulfillTake | FulfillWake _ | FulfillDone => true | _ => false end.

Definition at_notify (pc : Pc) : Prop := pc = FulfillNotify.
Definition before_take (pc : Pc) : Prop := pc = FulfillNotify \/ pc = FulfillTake.
Definition wakes (t : nat) (pc : Pc) : Prop := exists tasks, pc = FulfillWake tasks /\ t ∈ tasks.

(** Some thread of [l] is at a point [P]. *)
Definition some_thread (l : list Pc) (P : Pc -> Prop) : Prop := exists j pc, l !! j = Some pc /\ P pc.

Record safe (s : Shared) : Prop := {
  sf_early : h_cell s = None ->
    h_notified s = ∅ /\ h_woken s = ∅ /\ forall j pc, h_threads s !! j = Some pc -> depositing pc = false;
  sf_listening : forall i, h_threads s !! i = Some WaitRecheck \/ h_threads s !! i = Some WaitParked ->
    i ∈ h_listening s ∪ h_notified s;
  sf_parked : forall i, is_Some (h_cell s) -> h_threads s !! i = Some WaitParked -> i ∉ h_notified s ->
    some_thread (h_threads s) at_notify;
  sf_registered : forall t, h_threads s !! t = Some PollRecheck \/ h_threads s !! t = Some PollPending ->
    t ∈ h_wakers s \/ t ∈ h_woken s \/ some_thread (h_threads s) (wakes t);
  sf_pending : forall t, is_Some (h_cell s) -> h_threads s !! t = Some PollPending -> t ∈ h_wakers s ->
    t ∈ h_woken s \/ some_thread (h_threads s) (wakes t) \/ some_thread (h_threads s) before_take;
  sf_done : forall i v, h_threads s !! i = Some (WaitDone (Some v)) \/ h_threads s !! i = Some (PollReady v) -> h_cell s = Some v }.

Lemma thread_insert (l : list Pc) i pc j q :
  <[i := pc]> l !! j = Some q -> (j = i /\ q = pc) \/ (j <> i /\ l !! j = Some q).
Proof. intros H%list_lookup_insert_Some. destruct H as [(-> & -> & _)|[? ?]]; [left|right]; auto. Qed.

Lemma some_new (l : list Pc) i old pc (P : Pc -> Prop) : l !! i = Some old -> P pc -> some_thread (<[i := pc]> l) P.
Proof. intros Hi HP. exists i, pc. split; [|done]. apply list_lookup_insert_eq. by eapply lookup_lt_Some. Qed.

Lemma some_keep (l : list Pc) i old pc (P : Pc -> Prop) :
  l !! i = Some old -> (P old -> P pc) -> some_thread l P -> some_thread (<[i := pc]> l) P.
Proof.
  intros Hi HP (j & q & Hj & Hq). destruct (decide (j = i)) as [->|Hne].
  - assert (q = old) as -> by congruence. apply (some_new l i old); auto.
  - exists j, q. by rewrite list_lookup_insert_ne.
Qed.

(** Facts about the threads after a step, from those before. *)
Ltac threads :=
  repeat match goal with
         | H : _ \/ _ |- _ => destruct H
         | H : <[_ := _]> _ !! _ = Some _ |- _ => apply thread_insert in H as [[-> ?]|[? ?]]; simplify_eq
         end.

(** Thread [i] goes from [old] to [pc] and nothing is woken or notified: the
    obligations that are left. *)
Lemma safe_goto cell listening notified wakers woken l i old pc :
  safe (mkShared cell listening notified wakers woken l) -> l !! i = Some old ->
  (cell = None -> depositing pc = false) ->
  (pc = WaitRecheck \/ pc = WaitParked -> i ∈ listening ∪ notified) ->
  (at_notify old -> False) -> (before_take old -> False) ->
  (forall t, wakes t old -> wakes t pc) ->
  (pc = WaitParked -> cell = None) -> (pc = PollPending -> cell = None) ->
  (pc = PollRecheck \/ pc = PollPending -> i ∈ wakers \/ i ∈ woken \/ some_thread l (wakes i)) ->
  (forall v, pc = WaitDone (Some v) \/ pc = PollReady v -> cell = Some v) ->
  safe (mkShared cell listening notified wakers woken (<[i := pc]> l)).
Proof.
  intros [S1 S2 S3 S4 S5 S6] Hi D L N T W K1 K2 R V. cbn in *.
  split; cbn.
  - intros Hc. destruct (S1 Hc) as (? & ? & S). split_and!; [done|done|]. intros j q Hj. threads; [by apply D|by eapply S].
  - intros j Hj. threads; auto.
  - intros j Hc Hj Hn. threads; [rewrite K1 in Hc by done; by destruct Hc|]. eapply some_keep; [done| |by eapply S3]. intros ?. by destruct N.
  - intros t Ht. assert (some_thread l (wakes t) -> some_thread (<[i := pc]> l) (wakes t)) as HW by (apply (some_keep _ _ old); auto).
    threads; [destruct R as [?|[?|?]]; auto|destruct (S4 t) as [?|[?|?]]; auto|
              destruct R as [?|[?|?]]; auto|destruct (S4 t) as [?|[?|?]]; auto].
  - intros t Hc Ht Hw. threads; [rewrite K2 in Hc by done; by destruct Hc|].
    destruct (S5 t Hc ltac:(done) Hw) as [?|[?|?]]; [auto| |].
    + right. left. eapply some_keep; [done| |done]. auto.
    + right. right. eapply some_keep; [done| |done]. intros ?. by destruct T.
  - intros j v Hj. threads; eauto.
Qed.

Lemma safe_set cell listening notified wakers woken l i v :
  safe (mkShared cell listening notified wakers woken l) -> l !! i = Some (FulfillSet v) ->
  safe (mkShared (match cell with Some _ => cell | None => Some v end) listening notified wakers woken (<[i := FulfillNotify]> l)).
Proof.
  intros [S1 S2 S3 S4 S5 S6] Hi. cbn in *.
  assert (forall P, some_thread l P -> (P (FulfillSet v) -> P FulfillNotify) -> some_thread (<[i := FulfillNotify]> l) P) as HK
    by (intros P H HP; by apply (some_keep l i (FulfillSet v))).
  split; cbn.
  - by destruct cell.
  - intros j Hj. threads; auto.
  - intros j _ _ _. by apply (some_new l i (FulfillSet v)).
  - intros t Ht. assert (some_thread l (wakes t) -> some_thread (<[i := FulfillNotify]> l) (wakes t)) as HW
      by (intros H; apply HK; [done|by intros (? & [=] & _)]).
    threads; destruct (S4 t) as [?|[?|?]]; auto.
  - intros t _ _ _. right. right. apply (some_new l i (FulfillSet v)); [done|by left].
  - intros j x Hj. threads; rewrite (S6 j x) by auto; done.
Qed.

Lemma safe_notify cell listening notified wakers woken l i :
  safe (mkShared cell listening notified wakers woken l) -> l !! i = Some FulfillNotify ->
  safe (mkShared cell ∅ (notified ∪ listening) wakers woken (<[i := FulfillTake]> l)).
Proof.
  intros [S1 S2 S3 S4 S5 S6] Hi. cbn in *.
  assert (cell <> None) as Hset by (intros Hc; destruct (S1 Hc) as (_ & _ & S); by specialize (S i _ Hi)).
  split; cbn.
  - done.
  - intros j Hj. assert (j ∈ listening ∪ notified) as Hm by (threads; auto). revert Hm. clear. set_solver.
  - intros j _ Hj Hn. assert (j ∈ listening ∪ notified) as Hm by (threads; auto). clear -Hm Hn. set_solver.
  - intros t Ht. assert (some_thread l (wakes t) -> some_thread (<[i := FulfillTake]> l) (wakes t)) as HW
      by (apply (some_keep l i FulfillNotify); [done|by intros (? & [=] & _)]).
    threads; destruct (S4 t) as [?|[?|?]]; auto.
  - intros t _ _ _. right. right. apply (some_new l i FulfillNotify); [done|by right].
  - intros j x Hj. threads; eauto.
Qed.

Lemma safe_take cell listening notified wakers woken l i :
  safe (mkShared cell listening notified wakers woken l) -> l !! i = Some FulfillTake ->
  safe (mkShared cell listening notified [] woken (<[i := FulfillWake wakers]> l)).
Proof.
  intros [S1 S2 S3 S4 S5 S6] Hi. cbn in *.
  assert (cell <> None) as Hset by (intros Hc; destruct (S1 Hc) as (_ & _ & S); by specialize (S i _ Hi)).
  split; cbn.
  - done.
  - intros j Hj. threads; auto.
  - intros j Hc Hj Hn. threads. eapply some_keep; [done| |by eapply S3]. done.
  - intros t Ht.
    assert (some_thread l (wakes t) -> some_thread (<[i := FulfillWake wakers]> l) (wakes t)) as HW
      by (apply (some_keep l i FulfillTake); [done|by intros (? & [=] & _)]).
    assert (t ∈ wakers -> some_thread (<[i := FulfillWake wakers]> l) (wakes t)) as HN
      by (intros Hw; apply (some_new l i FulfillTake); [done|by exists wakers]).
    threads; destruct (S4 t) as [?|[?|?]]; auto.
  - by intros t _ _ Hw%elem_of_nil.
  - intros j x Hj. threads; eauto.
Qed.

Lemma safe_wake cell listening notified wakers woken l i x tasks :
  safe (mkShared cell listening notified wakers woken l) -> l !! i = Some (FulfillWake (x :: tasks)) ->
  safe (mkShared cell listening notified wakers (woken ∪ {[x]}) (<[i := FulfillWake tasks]> l)).
Proof.
  intros [S1 S2 S3 S4 S5 S6] Hi. cbn in *.
  assert (cell <> None) as Hset by (intros Hc; destruct (S1 Hc) as (_ & _ & S); by specialize (S i _ Hi)).
  assert (forall t, some_thread l (wakes t) -> t ∈ woken ∪ {[x]} \/ some_thread (<[i := FulfillWake tasks]> l) (wakes t)) as HW.
  { intros t Hw. destruct (decide (t = x)) as [->|Hne]; [left; clear; set_solver|right].
    eapply some_keep; [exact Hi| |exact Hw]. intros (ts & [= <-] & Ht). exists tasks. split; [done|]. clear -Ht Hne. set_solver. }
  split; cbn.
  - done.
  - intros j Hj. threads; auto.
  - intros j Hc Hj Hn. threads. eapply some_keep; [done| |by eapply S3]. done.
  - intros t Ht. assert (t ∈ woken -> t ∈ woken ∪ {[x]}) by (clear; set_solver).
    threads; destruct (S4 t) as [?|[?|?]]; auto; destruct (HW t); auto.
  - intros t Hc Ht Hw. threads. destruct (S5 t Hc ltac:(done) Hw) as [Hwk|[Hwk|?]]; [left; clear -Hwk; set_solver| |].
    + destruct (HW t Hwk); auto.
    + right. right. eapply some_keep; [done| |done]. by intros [[=]|[=]].
  - intros j v Hj. threads; eauto.
Qed.

(** A waiter leaves with what the cell holds. *)
Lemma safe_leave cell listening notified wakers woken l i old :
  safe (mkShared cell listening notified wakers woken l) -> l !! i = Some old -> old = WaitRecheck \/ old = WaitParked ->
  safe (mkShared cell (listening ∖ {[i]}) (notified ∖ {[i]}) wakers woken (<[i := WaitDone cell]> l)).
Proof.
  intros [S1 S2 S3 S4 S5 S6] Hi Ho. cbn in *.
  assert (forall P, some_thread l P -> ~ P old -> some_thread (<[i := WaitDone cell]> l) P) as HK
    by (intros P H HP; by eapply (some_keep l i old)).
  split; cbn.
  - intros Hc. destruct (S1 Hc) as (-> & -> & S). split; [clear; set_solver|]. split; [done|]. intros j q Hj.
    apply thread_insert in Hj as [[-> ->]|[_ Hj]]; [done|by eapply S].
  - intros j Hj. assert (j ∈ listening ∪ notified /\ j <> i) as Hm by (threads; auto). clear -Hm. set_solver.
  - intros j Hc Hj Hn. apply thread_insert in Hj as [[-> ?]|[Hne Hj]]; [done|].
    assert (j ∉ notified) as Hn' by (clear -Hn Hne; set_solver). apply HK; [by eapply S3|]. intros ->. by destruct Ho.
  - intros t Ht. assert (some_thread l (wakes t) -> some_thread (<[i := WaitDone cell]> l) (wakes t)) as HW.
    { intros H. apply HK; [done|]. intros (? & -> & _). by destruct Ho. }
    threads; destruct (S4 t) as [?|[?|?]]; auto.
  - intros t Hc Ht Hw. assert (forall P, some_thread l P -> (P = wakes t \/ P = before_take) -> some_thread (<[i := WaitDone cell]> l) P) as HB.
    { intros P H HP. apply HK; [done|]. destruct HP as [-> | ->]; [intros (? & -> & _); by destruct Ho|intros [-> | ->]; by destruct Ho]. }
    apply thread_insert in Ht as [[-> ?]|[? Ht]]; [done|]. destruct (S5 t Hc Ht Hw) as [?|[?|?]]; auto.
  - intros j v Hj. clear Ho. threads; eauto.
Qed.

Lemma safe_listen cell listening notified wakers woken l i :
  safe (mkShared cell listening notified wakers woken l) -> safe (mkShared cell (listening ∪ {[i]}) notified wakers woken l).
Proof. intros [S1 S2 S3 S4 S5 S6]. split; cbn in *; auto. intros j Hj. specialize (S2 j Hj). clear -S2. set_solver. Qed.

Lemma safe_register cell listening notified wakers woken l i :
  safe (mkShared cell listening notified wakers woken l) -> l !! i = Some PollRegister ->
  safe (mkShared cell listening notified (if bool_decide (i ∈ wakers) then wakers else wakers ++ [i]) woken (<[i := PollRecheck]> l)).
Proof.
  intros H Hi. set (wakers' := if bool_decide (i ∈ wakers) then _ else _).
  assert (forall t, t ∈ wakers' <-> t ∈ wakers \/ t = i) as Hw.
  { intros t. unfold wakers'. case_bool_decide; [split; [auto|intros [?| ->]; done]|]. by rewrite elem_of_app, list_elem_of_singleton. }
  clearbody wakers'. destruct H as [S1 S2 S3 S4 S5 S6]. cbn in *.
  assert (forall P, some_thread l P -> ~ P PollRegister -> some_thread (<[i := PollRecheck]> l) P) as HK
    by (intros P H HP; by eapply (some_keep l i PollRegister)).
  assert (forall t, some_thread l (wakes t) -> some_thread (<[i := PollRecheck]> l) (wakes t)) as HW
    by (intros t H; apply HK; [done|by intros (? & [=] & _)]).
  split; cbn.
  - intros Hc. destruct (S1 Hc) as (? & ? & S). split_and!; [done|done|]. intros j q Hj. threads; [done|by eapply S].
  - intros j Hj. threads; auto.
  - intros j Hc Hj Hn. threads. apply HK; [by eapply S3|by intros [=]].
  - intros t Ht. rewrite Hw. threads; auto; destruct (S4 t) as [?|[?|?]]; auto.
  - intros t Hc Ht Hin. apply thread_insert in Ht as [[-> ?]|[Hne Ht]]; [done|]. apply Hw in Hin as [Hin|?]; [|done].
    destruct (S5 t Hc Ht Hin) as [?|[?|?]]; auto. right. right. apply HK; [done|by intros [[=]|[=]]].
  - intros j v Hj. threads; eauto.
Qed.

Lemma safe_repoll cell listening notified wakers woken l i :
  safe (mkShared cell listening notified wakers woken l) -> l !! i = Some PollPending ->
  safe (mkShared cell listening notified wakers (woken ∖ {[i]}) (<[i := PollCheck]> l)).
Proof.
  intros [S1 S2 S3 S4 S5 S6] Hi. cbn in *.
  assert (forall P, some_thread l P -> ~ P PollPending -> some_thread (<[i := PollCheck]> l) P) as HK
    by (intros P H HP; by eapply (some_keep l i PollPending)).
  assert (forall t, some_thread l (wakes t) -> some_thread (<[i := PollCheck]> l) (wakes t)) as HW
    by (intros t H; apply HK; [done|by intros (? & [=] & _)]).
  assert (forall t, t <> i -> t ∈ woken -> t ∈ woken ∖ {[i]}) as HS by (clear; set_solver).
  split; cbn.
  - intros Hc. destruct (S1 Hc) as (-> & -> & S). split; [done|]. split; [clear; set_solver|]. intros j q Hj. threads; [done|by eapply S].
  - intros j Hj. threads; auto.
  - intros j Hc Hj Hn. threads. apply HK; [by eapply S3|by intros [=]].
  - intros t Ht. threads; destruct (S4 t) as [?|[?|?]]; auto.
  - intros t Hc Ht Hin. threads. destruct (S5 t Hc) as [?|[?|?]]; auto. right. right. apply HK; [done|by intros [[=]|[=]]].
  - intros j v Hj. threads; eauto.
Qed.

(** The cases that speak of another point of the code. *)
Ltac other_pc :=
  try done; try (by intros [=]); try (by intros [[=]|[=]]); try (by intros ? (? & [=] & _));
  try (by intros ? [[=]|[=]]); try (by intros ? [[= <-]|[=]]); try (by intros ? [[=]|[= <-]]).

(** Every step of every thread keeps the invariant. *)
Lemma move_safe s i pc spurious s' : safe s -> h_threads s !! i = Some pc -> move s i pc spurious = Some s' -> safe s'.
Proof.
  destruct s as [cell listening notified wakers woken l]. cbn [h_threads]. intros Hs Hi.
  assert (forall q, (at_notify pc -> False) -> (before_take pc -> False) -> (forall t, ~ wakes t pc) ->
     depositing q = false -> (q = WaitRecheck \/ q = WaitParked -> i ∈ listening ∪ notified) ->
     (q = WaitParked -> cell = None) -> (q = PollPending -> cell = None) ->
     (q = PollRecheck \/ q = PollPending -> i ∈ wakers \/ i ∈ woken \/ some_thread l (wakes i)) ->
     (forall v, q = WaitDone (Some v) \/ q = PollReady v -> cell = Some v) ->
     safe (mkShared cell listening notified wakers woken (<[i := q]> l))) as Hgo.
  { intros q N T W D L K1 K2 R V. apply (safe_goto _ _ _ _ _ _ _ pc); try done. intros t Ht. by destruct (W t). }
  pose proof (sf_listening _ Hs i) as HL. pose proof (sf_registered _ Hs i) as HR. cbn [h_threads h_listening h_notified h_wakers h_woken] in HL, HR.
  destruct pc as [v| | |[|x tasks]| | | | | |r| | | | |v]; cbn [move fulfill_step wait_step poll_step]; try (intros [= <-]); try done.
  - by apply safe_set.
  - by apply safe_notify.
  - by apply safe_take.
  - apply (safe_goto _ _ _ _ _ _ _ (FulfillWake [])); other_pc.
    + intros Hc. destruct (sf_early _ Hs Hc) as (_ & _ & S). by specialize (S i _ Hi).
    + by intros t (? & [= <-] & ?%elem_of_nil).
  - by apply safe_wake.
  - apply Hgo; destruct cell; other_pc.
  - apply (safe_goto _ _ _ _ _ _ _ WaitListen); [by apply safe_listen|done|..]; other_pc. intros _. clear. set_solver.
  - destruct cell as [x|]; intros [= <-]; [by apply (safe_leave (Some x) _ _ _ _ _ _ WaitRecheck); auto|]. apply Hgo; other_pc. auto.
  - destruct (_ || _); [|done]. intros [= <-]. by apply (safe_leave _ _ _ _ _ _ _ WaitParked); auto.
  - apply Hgo; destruct cell; other_pc.
  - by apply safe_register.
  - apply Hgo; destruct cell; other_pc; auto.
  - destruct (_ || _); [|done]. intros [= <-]. by apply safe_repoll.
Qed.

Lemma schedule_safe xs s s' : safe s -> schedule s xs = Some s' -> safe s'.
Proof.
  revert s. induction xs as [|x xs IH]; intros s Hs; cbn [schedule]; [by intros [= <-]|].
  intros (s1 & (pc & Hpc & Hm)%bind_Some & H)%bind_Some. eapply IH; [|exact H]. by eapply move_safe.
Qed.

Lemma start_safe threads : Forall (fun pc => start_pc pc = true) threads -> safe (start threads).
Proof.
  intros H. assert (forall j pc, threads !! j = Some pc -> start_pc pc = true) as Hs by (by apply Forall_lookup).
  split; cbn.
  - intros _. split_and!; [done|done|]. intros j pc Hj. by apply Hs in Hj; destruct pc.
  - intros i [Hi|Hi]; by apply Hs in Hi.
  - intros i [v Hv]. done.
  - intros t [Ht|Ht]; by apply Hs in Ht.
  - intros t [v Hv]. done.
  - intros i v [Hi|Hi]; by apply Hs in Hi.
Qed.

(** * Every schedule ends *)

(** The steps a thread may still take, with [n] threads, when the cell is set
    or not: a task goes round again only after a wake-up, and then finds the
    cell set. *)
Definition weight (n : nat) (set : bool) (pc : Pc) : nat :=
  match pc with
  | FulfillSet _ => n + 5 | FulfillNotify => n + 4 | FulfillTake => n + 3 | FulfillWake tasks => 1 + length tasks
  | WaitCheck => 4 | WaitListen => 3 | WaitRecheck => 2 | WaitParked => 1
  | PollCheck => if set then 1 else 6
  | PollRegister => 5 | PollRecheck => 4 | PollPending => 2
  | FulfillDone | WaitDone _ | PollReady _ => 0
  end%nat.

Definition cell_set (s : Shared) : bool := match h_cell s with Some _ => true | None => false end.
Definition total (s : Shared) : nat := sum_list_with (weight (length (h_threads s)) (cell_set s)) (h_threads s).

Lemma sum_insert {B} (f : B -> nat) (l : list B) i x y :
  l !! i = Some y -> (sum_list_with f (<[i := x]> l) + f y = sum_list_with f l + f x)%nat.
Proof.
  revert i. induction l as [|z l IH]; intros [|i] H; [done|done|injection H as ->; simpl; lia|].
  simpl. specialize (IH i H). lia.
Qed.

Lemma sum_le {B} (f g : B -> nat) (l : list B) : (forall x, f x <= g x)%nat -> (sum_list_with f l <= sum_list_with g l)%nat.
Proof. intros H. induction l as [|x l IH]; simpl; [lia|]. specialize (H x). lia. Qed.

(** The wakers are different tasks of the list. *)
Definition wakers_ok (s : Shared) : Prop := NoDup (h_wakers s) /\ Forall (fun t => (t < length (h_threads s))%nat) (h_wakers s).

Lemma wakers_few s : wakers_ok s -> (length (h_wakers s) <= length (h_threads s))%nat.
Proof.
  intros [H1 H2]. pose proof (submseteq_length (h_wakers s) (seq 0 (length (h_threads s)))) as H. rewrite length_seq in H.
  apply H, NoDup_submseteq; [done|]. intros t Ht. rewrite Forall_forall in H2. apply elem_of_seq. specialize (H2 t Ht). lia.
Qed.

Lemma move_wakers s i pc spurious s' :
  wakers_ok s -> h_threads s !! i = Some pc -> move s i pc spurious = Some s' ->
  wakers_ok s' /\ length (h_threads s') = length (h_threads s).
Proof.
  destruct s as [cell listening notified wakers woken l]. cbn. intros [W1 W2] Hi Hm. cbn in *.
  assert (wakers_ok (mkShared cell listening notified wakers woken l)) as HW by done.
  destruct pc as [v| | |[|x tasks]| | | | | |r| | | | |v]; open_move Hm; repeat case_match; simplify_eq;
    unfold wakers_ok; cbn; rewrite ?length_insert; try done.
  - split; [|done]. by split; [constructor|].
  - split; [|done]. split.
    + apply NoDup_app. split_and!; [done| |apply NoDup_singleton].
      intros t Ht ->%list_elem_of_singleton. match goal with H : bool_decide _ = false |- _ => by apply bool_decide_eq_false_1 in H end.
    + apply Forall_app. split; [done|]. constructor; [|constructor]. by eapply lookup_lt_Some.
Qed.

Lemma move_decreases s i pc s' :
  safe s -> wakers_ok s -> h_threads s !! i = Some pc -> move s i pc false = Some s' -> (total s' < total s)%nat.
Proof.
  intros Hs HW Hi Hm. pose proof (wakers_few s HW) as Hfew. destruct (move_wakers s i pc false s' HW Hi Hm) as [_ Hlen].
  pose proof (sf_early _ Hs) as Hearly. unfold total. rewrite Hlen. clear Hlen.
  destruct s as [cell listening notified wakers woken l]. cbn in *. set (n := length l) in *.
  assert (forall b q, (weight n b q < weight n b pc)%nat ->
            (sum_list_with (weight n b) (<[i := q]> l) < sum_list_with (weight n b) l)%nat) as Hdec.
  { intros b q H. pose proof (sum_insert (weight n b) l i q pc Hi). lia. }
  destruct pc as [v| | |[|x tasks]| | | | | |r| | | | |v]; open_move Hm; try done.
  1: { injection Hm as <-. unfold cell_set. cbn. destruct cell as [w|]; [apply Hdec; cbn; lia|].
       pose proof (sum_insert (weight n false) l i FulfillNotify (FulfillSet v) Hi) as H. cbn [weight] in H.
       pose proof (sum_le (weight n true) (weight n false) (<[i := FulfillNotify]> l)) as Hle.
       assert (forall q, weight n true q <= weight n false q)%nat as Hw by (intros []; cbn; lia). specialize (Hle Hw). lia. }
  all: unfold cell_set; cbn; repeat case_match; simplify_eq; cbn [h_threads h_cell]; try (apply Hdec; cbn; lia).
  exfalso. destruct (Hearly eq_refl) as (_ & -> & _). rewrite orb_false_r in *.
  match goal with H : bool_decide (i ∈ ∅) = true |- _ => by apply bool_decide_eq_true_1, elem_of_empty in H end.
Qed.

Lemma schedule_bounded xs s s' :
  safe s -> wakers_ok s -> schedule s ((fun i => (i, false)) <$> xs) = Some s' -> (length xs + total s' <= total s)%nat.
Proof.
  revert s. induction xs as [|x xs IH]; intros s Hs HW; [intros [= <-]; simpl; lia|]. rewrite fmap_cons. cbn [schedule].
  intros (s1 & (pc & Hpc & Hm)%bind_Some & H)%bind_Some. cbn [fst snd] in *.
  pose proof (move_decreases s x pc s1 Hs HW Hpc Hm). destruct (move_wakers s x pc false s1 HW Hpc Hm) as [HW1 _].
  specialize (IH s1 (move_safe s x pc false s1 Hs Hpc Hm) HW1 H). simpl. lia.
Qed.

(** * Where the values come from *)

Definition fulfils (pc : Pc) : bool :=
  match pc with FulfillSet _ | FulfillNotify | FulfillTake | FulfillWake _ | FulfillDone => true | _ => false end.

(** What a schedule [xs] from [threads] leaves behind. *)
Record past (threads : list Pc) (xs : list (nat * bool)) (s : Shared) : Prop := {
  pa_fulfils : forall i pc, threads !! i = Some pc -> fulfils pc = true -> exists q, h_threads s !! i = Some q /\ fulfils q = true;
  pa_set : forall i v, h_threads s !! i = Some (FulfillSet v) -> threads !! i = Some (FulfillSet v);
  pa_cell : forall v, h_cell s = Some v -> exists i, threads !! i = Some (FulfillSet v);
  pa_timeout : forall i, h_threads s !! i = Some (WaitDone None) -> (i, true) ∈ xs }.

Lemma move_past threads xs s i pc spurious s' :
  safe s -> past threads xs s -> h_threads s !! i = Some pc -> move s i pc spurious = Some s' -> past threads (xs ++ [(i, spurious)]) s'.
Proof.
  intros Hs [P1 P2 P3 P4] Hi Hm.
  assert (exists q, h_threads s' = <[i := q]> (h_threads s) /\ fulfils q = fulfils pc /\ (forall v, q <> FulfillSet v) /\
            (h_cell s' = h_cell s \/ exists v, pc = FulfillSet v /\ h_cell s' = Some v) /\
            (q = WaitDone None -> spurious = true)) as (q & Et & Ef & Es & Ec & Ed).
  { pose proof (sf_early _ Hs) as Hearly. destruct s as [cell listening notified wakers woken l]. cbn in *.
    destruct pc as [v| | |[|x tasks]| | | | | |r| | | | |v]; open_move Hm; repeat case_match; simplify_eq; cbn;
      (eexists; split; [reflexivity|]; split; [done|]; split; [done|]; split; [by eauto|]); try done.
    intros [= ->]. destruct (Hearly eq_refl) as (-> & _). destruct spurious; [done|]. rewrite orb_false_r in *.
    match goal with H : bool_decide (i ∈ ∅) = true |- _ => by apply bool_decide_eq_true_1, elem_of_empty in H end. }
  split; rewrite ?Et.
  - intros j p Hj Hp. destruct (P1 j p Hj Hp) as (p' & Hp' & Hf). destruct (decide (j = i)) as [->|Hne].
    + exists q. split; [apply list_lookup_insert_eq; by eapply lookup_lt_Some|]. congruence.
    + exists p'. by rewrite list_lookup_insert_ne.
  - intros j v Hj. apply thread_insert in Hj as [[-> Hq]|[_ Hj]]; [by destruct (Es v)|by apply P2].
  - intros v Hv. destruct Ec as [Ec|(w & -> & Ec)]; [rewrite Ec in Hv; by apply P3|].
    rewrite Ec in Hv. injection Hv as ->. exists i. by apply P2.
  - intros j Hj. apply elem_of_app. apply thread_insert in Hj as [[-> Hq]|[_ Hj]]; [|left; by apply P4].
    right. rewrite Ed by done. by constructor.
Qed.

Lemma schedule_past threads xs0 xs s s' :
  safe s -> past threads xs0 s -> schedule s xs = Some s' -> past threads (xs0 ++ xs) s'.
Proof.
  revert xs0 s. induction xs as [|[i spurious] xs IH]; intros xs0 s Hs Hp; cbn [schedule]; [intros [= <-]; by rewrite app_nil_r|].
  intros (s1 & (pc & Hpc & Hm)%bind_Some & H)%bind_Some. cbn [fst snd] in *. rewrite cons_middle, app_assoc.
  eapply IH; [by eapply move_safe|by eapply move_past|exact H].
Qed.

Lemma start_past threads : Forall (fun pc => start_pc pc = true) threads -> past threads [] (start threads).
Proof.
  intros H. assert (forall j pc, threads !! j = Some pc -> start_pc pc = true) as Hs by (by apply Forall_lookup).
  split; cbn; [eauto|done|done|]. intros i Hi. by apply Hs in Hi.
Qed.

(** * No wake-up is lost *)

(** A thread that has what it came for. *)
Definition served (xs : list (nat * bool)) (v : A) (i : nat) (pc : Pc) : Prop :=
  match pc with
  | FulfillDone => True
  | WaitDone (Some w) | PollReady w => w = v
  | WaitDone None => (i, true) ∈ xs
  | _ => False
  end.

Lemma stuck_served threads xs s v i pc :
  safe s -> past threads xs s -> h_cell s = Some v -> (forall j, hstep s (j, false) = None) -> h_threads s !! i = Some pc -> served xs v i pc.
Proof.
  intros Hs Hp Hc Hstuck Hi.
  assert (forall j q, h_threads s !! j = Some q -> move s j q false = None) as Hno.
  { intros j q Hj. specialize (Hstuck j). unfold hstep in Hstuck. cbn [fst snd] in Hstuck. by rewrite Hj in Hstuck. }
  assert (forall P, some_thread (h_threads s) P -> (forall j q, P q -> move s j q false <> None) -> False) as Hnone
    by (intros P (j & q & Hj & HP) Hmv; by apply (Hmv j q HP), Hno).
  assert (is_Some (h_cell s)) as Hset by (by rewrite Hc).
  pose proof (Hno i pc Hi) as Hm. destruct s as [cell listening notified wakers woken l] eqn:Es. cbn in Hc. subst cell.
  destruct pc as [w| | |[|x tasks]| | | | | |[w|]| | | | |w]; open_move Hm; try done; cbn [served].
  - destruct (bool_decide (i ∈ notified)) eqn:En; [done|]. apply bool_decide_eq_false_1 in En.
    destruct (Hnone at_notify); [by eapply (sf_parked _ Hs)|]. by intros ? ? ->.
  - assert (h_cell s = Some w) as E by (subst s; apply (sf_done _ Hs i); auto). subst s. by injection E.
  - by apply (pa_timeout _ _ _ Hp).
  - destruct (bool_decide (i ∈ woken)) eqn:En; [done|]. apply bool_decide_eq_false_1 in En.
    assert (some_thread l (wakes i) -> False) as Hw by (intros H; apply (Hnone (wakes i) H); by intros ? ? ([|] & -> & _)).
    destruct (sf_registered _ Hs i) as [Hin|[?|?]]; cbn; auto.
    destruct (sf_pending _ Hs i Hset Hi Hin) as [?|[?|H]]; cbn; auto. apply (Hnone before_take H). by intros ? ? [-> | ->].
  - assert (h_cell s = Some w) as E by (subst s; apply (sf_done _ Hs i); auto). subst s. by injection E.
Qed.

Lemma total_bound threads : Forall (fun pc => start_pc pc = true) threads ->
  (total (start threads) <= length threads * (length threads + 6))%nat.
Proof.
  intros H. unfold total, cell_set. cbn. generalize (length threads) at 1 3 as n. intros n.
  induction H as [|pc threads Hpc _ IH]; simpl; [lia|]. destruct pc; try done; cbn [weight]; lia.
Qed.
End waiting.

(** C11: no wake-up is lost.  Any number of threads deposit an outcome in a
    handle, block on it or poll it as tasks, their steps interleaved in any
    way.  Without timeouts every schedule ends after a bounded number of
    steps; and whenever no thread can go on, every deposit has returned and
    everyone who waits has the same outcome, one of those deposited, except
    for waiters whose own timeout expired. *)
Theorem no_lost_wakeup {A} (threads : list (@Pc A)) :
  Forall (fun pc => start_pc pc = true) threads -> (exists i v, threads !! i = Some (FulfillSet v)) ->
  (forall xs s, schedule (start threads) ((fun i => (i, false)) <$> xs) = Some s ->
     (length xs <= length threads * (length threads + 6))%nat) /\
  forall xs s, schedule (start threads) xs = Some s -> (forall i, hstep s (i, false) = None) ->
    exists v, (exists i, threads !! i = Some (FulfillSet v)) /\ h_cell s = Some v /\
      forall i pc, h_threads s !! i = Some pc -> served xs v i pc.
Proof.
  intros Hst (i0 & v0 & Hi0). pose proof (start_safe threads Hst) as Hsafe. split.
  - intros xs s H. pose proof (total_bound threads Hst). pose proof (schedule_bounded xs _ s Hsafe) as Hb.
    specialize (Hb ltac:(split; constructor) H). lia.
  - intros xs s H Hstuck. pose proof (schedule_safe _ _ _ Hsafe H) as Hs.
    pose proof (schedule_past threads [] xs _ s Hsafe (start_past threads Hst) H) as Hp. cbn [app] in Hp.
    assert (exists v, h_cell s = Some v) as [v Hv].
    { destruct (h_cell s) as [v|] eqn:Ec; [by exists v|]. destruct (pa_fulfils _ _ _ Hp i0 _ Hi0 eq_refl) as (q & Hq & Hf).
      destruct (sf_early _ Hs Ec) as (_ & _ & Hd). specialize (Hd i0 q Hq). destruct q; try done.
      specialize (Hstuck i0). unfold hstep in Hstuck. cbn [fst snd] in Hstuck. rewrite Hq in Hstuck. by destruct s. }
    exists v. split; [by apply (pa_cell _ _ _ Hp)|]. split; [done|]. intros i pc Hi. by eapply stuck_served.
Qed.

(** Two deposits race with a blocking waiter and a task: the waiter parks and
    the task is pending before the first deposit. *)
Definition ex_threads : list (@Pc nat) := [FulfillSet 7%nat; FulfillSet 8%nat; WaitCheck; PollCheck].
Definition ex_schedule : list (nat * bool) :=
  (fun i => (i, false)) <$> [2; 2; 2; 3; 3; 3; 1; 0; 0; 1; 2; 0; 0; 3; 3; 0; 1; 1]%nat.

Lemma no_lost_wakeup_witness :
  exists s v, schedule (start ex_threads) ex_schedule = Some s /\ h_cell s = Some v /\
    forall i pc, h_threads s !! i = Some pc -> served ex_schedule v i pc.
Proof.
  destruct (no_lost_wakeup ex_threads) as [_ H]; [by repeat constructor|by exists 0%nat, 7%nat|].
  destruct (schedule (start ex_threads) ex_schedule) as [s|] eqn:E; [|by vm_compute in E]. exists s.
  destruct (H ex_schedule s E) as (v & _ & Hc & Hs).
  - intros i. vm_compute in E. injection E as <-. unfold hstep. do 4 (destruct i as [|i]; [reflexivity|]). reflexivity.
  - exists v. split_and!; [done|exact Hc|exact Hs].
Defined.

(** Everyone has the outcome that was deposited first. *)
Example ex_served :
  h_threads <$> schedule (start ex_threads) ex_schedule = Some [FulfillDone; FulfillDone; WaitDone (Some 8%nat); PollReady 8%nat].
Proof. vm_compute. reflexivity. Qed.
