(* ===== verification/Submission.v ===== *)
(** Submitting to a worker that may be going away: the model of
    [ControlPort::send] and [submit] of [src/src/gige/mod.rs] against the
    liveness flag of [src/src/thread_util.rs] and the end of [shutdown] in
    [src/src/gige/runner.rs].

    Callers and the worker run concurrently; every access to the flag, the
    channel and a handle is one step, and a schedule interleaves them in any
    way.  Each caller submits one request; its handle has its number.  The
    worker's loop is abstract here (it takes requests and answers those it
    holds, in any order); [Control] models what it does with them, and
    [every_handle_answered] its teardown up to the last look at the channel.
    The theorem covers the rest: requests that arrive while or after the
    worker takes that look. *)

From stdpp Require Import gmap list.
From S2P Require Import Prelude Gvcp Channel Frame Bootstrap Errors Control ControlInv.

(** A caller in [submit]. *)
Inductive SenderPc := SendCheck | SendPush | SendRecheck | SendFail | SendDone.

(** The worker: its loop, then [shutdown]: failing what it holds, [has_died],
    the drain, and dropping the channel. *)
Inductive WorkerPc := WkLoop | WkFailing | WkDying | WkDraining | WkDrained | WkGone.

Record Sub := mkSub {
  su_alive : bool;
  su_open : bool;
  su_queue : list nat;
  su_held : list nat;
  su_handles : Handles;
  su_worker : WorkerPc;
  su_senders : list SenderPc }.

(** What the schedule lets happen next; the worker's choices are its loop's. *)
Inductive Turn :=
| Sender (i : nat)
| WorkerTake | WorkerAnswer (h : nat) (v : Response) | WorkerStop
| WorkerTeardown (e : CameraError).

Definition sender_step (s : Sub) (i : nat) (pc : SenderPc) : option Sub :=
  let '(mkSub alive opened queue held handles worker senders) := s in
  let goto queue handles pc := Some (mkSub alive opened queue held handles worker (<[i := pc]> senders)) in
  match pc with
  | SendCheck => goto queue handles (if alive then SendPush else SendFail)
  | SendPush => if opened then goto (queue ++ [i]) handles SendRecheck else goto queue handles SendFail
  | SendRecheck => goto queue handles (if alive then SendDone else SendFail)
  | SendFail => goto queue (fail handles i Disconnected) SendDone
  | SendDone => None
  end.

Definition worker_step (s : Sub) (t : Turn) : option Sub :=
  let '(mkSub alive opened queue held handles worker senders) := s in
  match worker, t with
  | WkLoop, WorkerTake =>
      match queue with
      | h :: queue => Some (mkSub alive opened queue (held ++ [h]) handles WkLoop senders)
      | [] => None
      end
  | WkLoop, WorkerAnswer h v =>
      if bool_decide (h ∈ held)
      then Some (mkSub alive opened queue (filter (fun x => x <> h) held) (fulfill handles h v) WkLoop senders) else None
  | WkLoop, WorkerStop => Some (mkSub alive opened queue held handles WkFailing senders)
  | WkFailing, WorkerTeardown e =>
      match held with
      | h :: held => Some (mkSub alive opened queue held (fail handles h e) WkFailing senders)
      | [] => Some (mkSub alive opened queue [] handles WkDying senders)
      end
  | WkDying, WorkerTeardown _ => Some (mkSub false opened queue held handles WkDraining senders)
  | WkDraining, WorkerTeardown e =>
      match queue with
      | h :: queue => Some (mkSub alive opened queue held (fail handles h e) WkDraining senders)
      | [] => Some (mkSub alive opened [] held handles WkDrained senders)
      end
  | WkDrained, WorkerTeardown _ => Some (mkSub alive false [] held handles WkGone senders)
  | _, _ => None
  end.

Definition turn (s : Sub) (t : Turn) : option Sub :=
  match t with
  | Sender i => pc ← su_senders s !! i; sender_step s i pc
  | _ => worker_step s t
  end.

Fixpoint turns (s : Sub) (ts : list Turn) : option Sub :=
  match ts with [] => Some s | t :: ts => s ← turn s t; turns s ts end.

(** [n] callers before their call, a worker in its loop. *)
Definition sub_start (n : nat) : Sub := mkSub true true [] [] ∅ WkLoop (replicate n SendCheck).

(** * The invariant *)

Definition before_death (w : WorkerPc) : bool := match w with WkLoop | WkFailing | WkDying => true | _ => false end.
Definition drains (w : WorkerPc) : bool := match w with WkDrained | WkGone => false | _ => true end.
Definition holds (w : WorkerPc) : bool := match w with WkLoop | WkFailing => true | _ => false end.

Record sub_inv (s : Sub) : Prop := {
  si_alive : su_alive s = before_death (su_worker s);
  si_held : holds (su_worker s) = false -> su_held s = [];
  si_done : forall i, su_senders s !! i = Some SendDone ->
    is_Some (su_handles s !! i) \/ i ∈ su_held s \/ (i ∈ su_queue s /\ drains (su_worker s) = true);
  si_recheck : forall i, su_senders s !! i = Some SendRecheck ->
    is_Some (su_handles s !! i) \/ i ∈ su_held s \/ i ∈ su_queue s \/ su_alive s = false }.

Lemma sender_insert (l : list SenderPc) i pc j q :
  <[i := pc]> l !! j = Some q -> (j = i /\ q = pc) \/ (j <> i /\ l !! j = Some q).
Proof. intros H%list_lookup_insert_Some. destruct H as [(-> & -> & _)|[? ?]]; auto. Qed.

Lemma sender_inv s i pc s' : sub_inv s -> su_senders s !! i = Some pc -> sender_step s i pc = Some s' -> sub_inv s'.
Proof.
  destruct s as [alive opened queue held handles worker senders]. intros [I1 I2 I3 I4] Hi. cbn in *.
  assert (forall q : SenderPc, q <> SendRecheck ->
            (q = SendDone -> is_Some (handles !! i) \/ i ∈ held \/ (i ∈ queue /\ drains worker = true)) ->
            sub_inv (mkSub alive opened queue held handles worker (<[i := q]> senders))) as Hgo.
  { intros q Hq Hd. split; cbn; [done|done| |]; intros j Hj; apply sender_insert in Hj as [[-> Hj]|[_ Hj]]; auto; by destruct Hq. }
  destruct pc; cbn [sender_step].
  - intros [= <-]. apply Hgo; by destruct alive.
  - destruct opened; intros [= <-]; [|by apply Hgo].
    split; cbn; [done|done| |]; intros j Hj; apply sender_insert in Hj as [[-> Hj]|[_ Hj]]; try done.
    + destruct (I3 j Hj) as [?|[?|[? ?]]]; auto. right. right. split; [apply elem_of_app; by left|done].
    + right. right. left. apply elem_of_app. right. by constructor.
    + destruct (I4 j Hj) as [?|[?|[?|?]]]; auto. right. right. left. apply elem_of_app. by left.
  - intros [= <-]. apply Hgo; [by destruct alive|]. destruct alive; [|done]. intros _.
    destruct (I4 i Hi) as [?|[?|[?|?]]]; auto; [|done]. right. right. split; [done|]. by destruct worker.
  - intros [= <-]. split; cbn; [done|done| |]; intros j Hj; apply sender_insert in Hj as [[-> Hj]|[_ Hj]]; try done.
    + left. apply fulfill_set.
    + destruct (I3 j Hj) as [?|?]; auto. left. eapply set_mono; [apply fulfill_mono|done].
    + destruct (I4 j Hj) as [?|?]; auto. left. eapply set_mono; [apply fulfill_mono|done].
  - done.
Qed.

Lemma worker_inv_step s t s' : sub_inv s -> worker_step s t = Some s' -> sub_inv s'.
Proof.
  destruct s as [alive opened queue held handles worker senders]. intros [I1 I2 I3 I4]. cbn in *.
  assert (forall h v, is_Some (fulfill handles h v !! h)) as Hset by (intros; apply fulfill_set).
  assert (forall h v j, is_Some (handles !! j) -> is_Some (fulfill handles h v !! j)) as Hmono
    by (intros; by eapply set_mono; [apply fulfill_mono|]).
  destruct worker, t; cbn [worker_step]; unfold fail; try done.
  - destruct queue as [|h queue]; intros [= <-]. split; cbn; [done|done| |]; intros j Hj; [destruct (I3 j Hj) as [?|[?|[Hq _]]]|
      destruct (I4 j Hj) as [?|[?|[Hq|?]]]]; auto; try (right; left; apply elem_of_app; by left);
      apply elem_of_cons in Hq as [-> |Hq]; auto; right; left; apply elem_of_app; right; by constructor.
  - case_bool_decide; [|done]. intros [= <-].
    assert (forall j, j ∈ held -> is_Some (fulfill handles h v !! j) \/ j ∈ filter (fun x => x <> h) held) as Hh.
    { intros j Hj. destruct (decide (j = h)) as [->|Hne]; [by left|right]. by apply list_elem_of_filter. }
    split; cbn; [done|done| |]; intros j Hj; [destruct (I3 j Hj) as [?|[Hin|?]]|destruct (I4 j Hj) as [?|[Hin|?]]]; auto;
      destruct (Hh j Hin); auto.
  - intros [= <-]. by split.
  - destruct held as [|h held]; intros [= <-]; [by split|].
    split; cbn; [done|done| |]; intros j Hj; [destruct (I3 j Hj) as [?|[Hin|?]]|destruct (I4 j Hj) as [?|[Hin|?]]]; auto;
      apply elem_of_cons in Hin as [-> |Hin]; auto; left; apply Hset.
  - intros [= <-]. split; cbn; [done|auto|auto|]. intros j Hj. auto.
  - destruct queue as [|h queue]; intros [= <-].
    + split; cbn; [done|auto| |]; intros j Hj; [destruct (I3 j Hj) as [?|[?|[Hq _]]]|destruct (I4 j Hj) as [?|[?|[Hq|?]]]]; auto;
        by apply elem_of_nil in Hq.
    + split; cbn; [done|auto| |]; intros j Hj; [destruct (I3 j Hj) as [?|[?|[Hq ?]]]|destruct (I4 j Hj) as [?|[?|[Hq|?]]]]; auto;
        apply elem_of_cons in Hq as [-> |Hq]; auto; left; apply Hset.
  - intros [= <-]. split; cbn; [done|auto| |]; intros j Hj; [destruct (I3 j Hj) as [?|[?|[_ [=]]]]|destruct (I4 j Hj) as [?|[?|[?|?]]]]; auto.
Qed.

Lemma turn_inv s t s' : sub_inv s -> turn s t = Some s' -> sub_inv s'.
Proof.
  intros Hi. destruct t; cbn [turn]; try (by apply worker_inv_step). intros (pc & Hpc & H)%bind_Some. by eapply sender_inv.
Qed.

(** Answers stay. *)
Lemma turn_mono s t s' : turn s t = Some s' -> su_handles s ⊆ su_handles s'.
Proof.
  destruct s as [alive opened queue held handles worker senders]. destruct t; cbn [turn]; [intros (pc & _ & H)%bind_Some; revert H; destruct pc| | | |];
    cbn [sender_step worker_step]; repeat case_match; intros; simplify_eq; cbn; try done; apply fulfill_mono.
Qed.

Lemma turns_inv ts s s' : sub_inv s -> turns s ts = Some s' -> sub_inv s' /\ su_handles s ⊆ su_handles s'.
Proof.
  revert s. induction ts as [|t ts IH]; intros s Hi; cbn [turns]; [by intros [= <-]|]. intros (s1 & H1 & H)%bind_Some.
  destruct (IH s1 (turn_inv _ _ _ Hi H1) H) as [Hi' Hm]. split; [done|]. etrans; [by eapply turn_mono|done].
Qed.

Lemma sub_start_inv n : sub_inv (sub_start n).
Proof. split; cbn; [done|done| |]; intros i [[=] _]%lookup_replicate. Qed.

(** C12: no request is lost to a worker that goes away.  However callers and the
    worker interleave, once the worker is past its last look at the channel,
    or gone, the handle of every call that has returned is answered: by the
    worker, by its teardown, or by the caller itself, who looks at the
    liveness flag once more after sending.  An answer never changes. *)
Theorem submission_answered (n : nat) (ts : list Turn) (s : Sub) :
  turns (sub_start n) ts = Some s ->
  (su_worker s = WkDrained \/ su_worker s = WkGone ->
     forall i, su_senders s !! i = Some SendDone -> is_Some (su_handles s !! i)) /\
  forall ts' s', turns s ts' = Some s' -> forall h v, su_handles s !! h = Some v -> su_handles s' !! h = Some v.
Proof.
  intros H. destruct (turns_inv ts _ s (sub_start_inv n) H) as [Hi _]. split.
  - intros Hw i Hs. destruct (si_done _ Hi i Hs) as [?|[Hin|[_ Hd]]]; [done| |by destruct Hw as [Hw|Hw]; rewrite Hw in Hd].
    rewrite (si_held _ Hi) in Hin by (by destruct Hw as [-> | ->]). by apply elem_of_nil in Hin.
  - intros ts' s' H' h v Hv. destruct (turns_inv ts' s s' Hi H') as [_ Hm]. by eapply lookup_weaken.
Qed.

(** Three callers: one is served, one lands behind the shutdown, one sends
    after the drain. *)
Definition ex_turns : list Turn :=
  [Sender 0; Sender 0; WorkerTake; Sender 1; Sender 2; WorkerAnswer 0 (Ok RvUnit); Sender 1; Sender 1; WorkerStop; Sender 0;
   WorkerTeardown Disconnected; WorkerTeardown Disconnected; WorkerTeardown Disconnected; WorkerTeardown Disconnected;
   Sender 2; WorkerTeardown Disconnected; Sender 2; Sender 2].

Lemma submission_answered_witness :
  exists s, turns (sub_start 3) ex_turns = Some s /\
    forall i, su_senders s !! i = Some SendDone -> is_Some (su_handles s !! i).
Proof.
  destruct (turns (sub_start 3) ex_turns) as [s|] eqn:E; [|by vm_compute in E]. exists s. split; [done|].
  destruct (submission_answered 3 ex_turns s E) as [H _]. apply H. right. vm_compute in E. by injection E as <-.
Defined.

Example ex_submitted :
  (fun s => (su_senders s, su_handles s !! 0%nat, su_handles s !! 1%nat, su_handles s !! 2%nat)) <$> turns (sub_start 3) ex_turns =
  Some ([SendDone; SendDone; SendDone], Some (Ok RvUnit), Some (Err Disconnected), Some (Err Disconnected)).
Proof. vm_compute. reflexivity. Qed.
