(* ===== verification/Locks.v ===== *)
(** Threads that share a store under locks.

    A call is a tree of events: taking and releasing locks, a bounded wait
    for a lock, and operations on the store with their answers.  A machine
    runs a pool of such threads in any interleaving.  Two things are shown
    of pools whose threads keep a discipline ([typed]): locks are taken in
    the order of their ranks, so some thread can always go on; and an
    invariant of the store, of the locks held and of what each thread knows
    is kept by every step. *)

From stdpp Require Import gmap list.
From S2P Require Import Prelude.

Section programs.
Context {L : Type} {Op : Type} (Ans : Op -> Type).

(** [TryLock] waits for a while: [true] with the lock, [false] without. *)
Inductive prog (R : Type) :=
| Ret (r : R)
| Lock (l : L) (k : prog R)
| Unlock (l : L) (k : prog R)
| TryLock (l : L) (k : bool -> prog R)
| Do (o : Op) (k : Ans o -> prog R).

Arguments Ret {R} _.
Arguments Lock {R} _ _.
Arguments Unlock {R} _ _.
Arguments TryLock {R} _ _.
Arguments Do {R} _ _.

Global Instance prog_ret : MRet prog := fun R r => Ret r.
Global Instance prog_bind : MBind prog := fun A B f =>
  fix go (p : prog A) : prog B :=
    match p with
    | Ret a => f a
    | Lock l k => Lock l (go k)
    | Unlock l k => Unlock l (go k)
    | TryLock l k => TryLock l (fun b => go (k b))
    | Do o k => Do o (fun a => go (k a))
    end.

Definition lock (l : L) : prog unit := Lock l (Ret tt).
Definition unlock (l : L) : prog unit := Unlock l (Ret tt).
Definition try_lock (l : L) : prog bool := TryLock l Ret.
Definition do_ (o : Op) : prog (Ans o) := Do o Ret.
End programs.

Arguments Ret {L Op Ans R} _.
Arguments Lock {L Op Ans R} _ _.
Arguments Unlock {L Op Ans R} _ _.
Arguments TryLock {L Op Ans R} _ _.
Arguments Do {L Op Ans R} _ _.
Arguments lock {L Op Ans} _.
Arguments unlock {L Op Ans} _.
Arguments try_lock {L Op Ans} _.
Arguments do_ {L Op Ans} _.

Section machine.
Context {L : Type} `{Countable L} {Op : Type} {Ans : Op -> Type} {St : Type}.
(** What thread [i] makes of the store with an operation. *)
Variable run : nat -> forall o : Op, St -> St * Ans o.

Abbreviation prog := (prog (L := L) Ans).

Record machine := mkMachine {
  m_store : St;
  m_locks : gmap L nat;
  m_threads : list (prog unit) }.

(** The next step of a thread; [None] when it is done or has to wait.  With
    [gives_up] a bounded wait for a lock that is taken ends without it. *)
Definition thread_step (s : St) (locks : gmap L nat) (i : nat) (p : prog unit) (gives_up : bool)
    : option (St * gmap L nat * prog unit) :=
  match p with
  | Ret _ => None
  | Lock l k => match locks !! l with None => Some (s, <[l := i]> locks, k) | Some _ => None end
  | Unlock l k => if bool_decide (locks !! l = Some i) then Some (s, delete l locks, k) else None
  | TryLock l k =>
      match locks !! l with
      | None => Some (s, <[l := i]> locks, k true)
      | Some _ => if gives_up then Some (s, locks, k false) else None
      end
  | Do o k => let '(s, a) := run i o s in Some (s, locks, k a)
  end.

Definition mstep (m : machine) (x : nat * bool) : option machine :=
  p ← m_threads m !! fst x;
  '((s, locks, p) : St * gmap L nat * prog unit) ← thread_step (m_store m) (m_locks m) (fst x) p (snd x);
  Some (mkMachine s locks (<[fst x := p]> (m_threads m))).

Fixpoint msteps (m : machine) (xs : list (nat * bool)) : option machine :=
  match xs with [] => Some m | x :: xs => m ← mstep m x; msteps m xs end.

Definition pool (s : St) (ps : list (prog unit)) : machine := mkMachine s ∅ ps.

Definition finished (p : prog unit) : bool := match p with Ret _ => true | _ => false end.

(** * Every schedule ends *)

(** What a thread may be after a step. *)
Definition child (q p : prog unit) : Prop :=
  match p with
  | Ret _ => False
  | Lock _ k | Unlock _ k => q = k
  | TryLock _ k => exists b, q = k b
  | Do _ k => exists a, q = k a
  end.

Lemma child_acc p : Acc child p.
Proof.
  induction p as [r|l k IH|l k IH|l k IH|o k IH]; constructor; intros q Hq; cbn in Hq.
  - done.
  - by subst.
  - by subst.
  - destruct Hq as [b ->]. apply IH.
  - destruct Hq as [a ->]. apply IH.
Qed.

Definition pool_child (ps' ps : list (prog unit)) : Prop :=
  exists i p p', ps !! i = Some p /\ child p' p /\ ps' = <[i := p']> ps.

Lemma pool_child_acc ps : Acc pool_child ps.
Proof.
  induction ps as [|p ps IH].
  - constructor. intros qs (i & p & p' & Hi & _). by rewrite lookup_nil in Hi.
  - revert ps IH. induction (child_acc p) as [p _ IHp]. intros ps IH. induction IH as [ps IH IHps].
    constructor. intros qs (i & q & q' & Hi & Hc & ->). destruct i as [|i]; cbn in *.
    + injection Hi as <-. apply IHp; [done|]. by constructor.
    + apply IHps. by exists i, q, q'.
Qed.

Lemma thread_step_child s locks i p g s' locks' p' : thread_step s locks i p g = Some (s', locks', p') -> child p' p.
Proof.
  destruct p as [r|l k|l k|l k|o k]; cbn; intros Hs; repeat case_match; simplify_eq; by eauto.
Qed.

Definition goes_to (m' m : machine) : Prop := exists x, mstep m x = Some m'.

Lemma machine_acc m : Acc goes_to m.
Proof.
  destruct m as [s locks ps]. revert s locks. induction (pool_child_acc ps) as [ps _ IH]. intros s locks.
  constructor. intros m' [[i g] Hm]. unfold mstep in Hm. cbn in Hm. destruct (ps !! i) as [p|] eqn:Hp; [|done]. cbn in Hm.
  destruct (thread_step s locks i p g) as [[[s' locks'] p']|] eqn:Hs; [|done]. cbn in Hm. injection Hm as <-.
  apply IH. exists i, p, p'. eauto using thread_step_child.
Qed.

(** * The discipline *)

(** [G] is what a thread knows; [pre] when it may run an operation holding
    some locks, [after] what it knows then, [may_release] when it may release
    a lock, [after_release] what it knows then. *)
Context {G : Type}.
Variables (rank : L -> nat)
  (pre : list L -> G -> Op -> Prop) (after : G -> forall o : Op, Ans o -> G)
  (may_release : G -> L -> Prop) (after_release : G -> L -> G)
  (idle : G -> Prop).

Fixpoint typed (held : list L) (g : G) (p : prog unit) : Prop :=
  match p with
  | Ret _ => held = [] /\ idle g
  | Lock l k => Forall (fun h => rank h < rank l)%nat held /\ typed (l :: held) g k
  | Unlock l k => l ∈ held /\ may_release g l /\ typed (filter (fun h => h <> l) held) (after_release g l) k
  | TryLock l k => Forall (fun h => rank h < rank l)%nat held /\ typed (l :: held) g (k true) /\ typed held g (k false)
  | Do o k => pre held g o /\ forall a, typed held (after g o a) (k a)
  end.

(** The locks taken are those of the lists. *)
Definition accounted (locks : gmap L nat) (held : list (list L)) : Prop :=
  forall l i, locks !! l = Some i <-> exists h, held !! i = Some h /\ l ∈ h.

Variable Inv : St -> list (list L) -> list G -> Prop.

Record disciplined_with (m : machine) (held : list (list L)) (ghost : list G) : Prop := {
  dc_accounted : accounted (m_locks m) held;
  dc_held : length held = length (m_threads m);
  dc_ghost : length ghost = length (m_threads m);
  dc_typed : forall i h g p, held !! i = Some h -> ghost !! i = Some g -> m_threads m !! i = Some p -> typed h g p;
  dc_inv : Inv (m_store m) held ghost }.

Definition disciplined (m : machine) : Prop := exists held ghost, disciplined_with m held ghost.

(** ** Some thread can go on *)

(** The lock a thread waits for. *)
Definition waits (p : prog unit) : option L := match p with Lock l _ | TryLock l _ => Some l | _ => None end.

Definition can_move (m : machine) : Prop := exists i m', mstep m (i, false) = Some m'.

Lemma moves_unless_waits m i p :
  disciplined m -> m_threads m !! i = Some p -> finished p = false ->
  can_move m \/ exists l j, waits p = Some l /\ m_locks m !! l = Some j.
Proof.
  intros (held & ghost & [Ha El Eg Ht _]) Hp Hf.
  destruct (lookup_lt_is_Some_2 held i) as [h Hh]; [apply lookup_lt_Some in Hp; lia|].
  destruct (lookup_lt_is_Some_2 ghost i) as [g Hg]; [apply lookup_lt_Some in Hp; lia|].
  specialize (Ht i h g p Hh Hg Hp).
  assert (forall x, thread_step (m_store m) (m_locks m) i p false = Some x -> can_move m) as Hgo.
  { intros [[s locks] p'] Hx. exists i. eexists. unfold mstep. cbn. rewrite Hp. cbn. by rewrite Hx. }
  destruct p as [r|l k|l k|l k|o k]; cbn in *; [done| | | |].
  - destruct (m_locks m !! l) eqn:El'; [right; by eauto|left; by eapply Hgo].
  - left. destruct Ht as [Hl _]. rewrite bool_decide_true in Hgo by (apply Ha; by eauto). by eapply Hgo.
  - destruct (m_locks m !! l) eqn:El'; [right; by eauto|left; by eapply Hgo].
  - left. destruct (run i o (m_store m)). by eapply Hgo.
Qed.

(** A thread that waits holds only locks of lower rank. *)
Lemma waits_above h g p l : typed h g p -> waits p = Some l -> Forall (fun x => rank x < rank l)%nat h.
Proof. intros Ht Hw. destruct p; cbn in *; simplify_eq; by destruct Ht. Qed.

(** Of the locks waited for, one of highest rank is held by a thread that
    does not wait. *)
Lemma waiting_resolves m n : disciplined m -> (forall l, rank l <= n)%nat -> forall d i p l j,
  m_threads m !! i = Some p -> waits p = Some l -> m_locks m !! l = Some j -> (n - rank l <= d)%nat -> can_move m.
Proof.
  intros D Hn d. pose proof D as (held & ghost & [Ha El Eg Ht _]).
  induction d as [|d IH]; intros i p l j Hp Hw Hl Hd.
  all: destruct (proj1 (Ha l j) Hl) as (h & Hh & Hlh).
  all: destruct (lookup_lt_is_Some_2 (m_threads m) j) as [q Hq]; [apply lookup_lt_Some in Hh; lia|].
  all: destruct (lookup_lt_is_Some_2 ghost j) as [g Hg]; [apply lookup_lt_Some in Hh; lia|].
  all: pose proof (Ht j h g q Hh Hg Hq) as Hqt.
  all: destruct (finished q) eqn:Eq;
    [destruct q; try done; cbn in Hqt; destruct Hqt as [-> _]; by apply elem_of_nil in Hlh|].
  all: destruct (moves_unless_waits m j q D Hq Eq) as [?|(l' & j' & Hw' & Hl')]; [done|].
  all: pose proof (waits_above h g q l' Hqt Hw') as Hab; rewrite Forall_forall in Hab;
    specialize (Hab l Hlh); pose proof (Hn l').
  - lia.
  - apply (IH j q l' j'); [done..|lia].
Qed.

(** No deadlock. *)
Lemma disciplined_moves m n :
  disciplined m -> (forall l, rank l <= n)%nat -> can_move m \/ forallb finished (m_threads m) = true.
Proof.
  intros D Hn. destruct (forallb finished (m_threads m)) eqn:E; [by right|left].
  assert (exists i p, m_threads m !! i = Some p /\ finished p = false) as (i & p & Hp & Hf).
  { revert E. clear. induction (m_threads m) as [|q ps IH]; [done|]. cbn. destruct (finished q) eqn:Eq.
    - intros (i & p & Hp & Hf)%IH. by exists (S i), p.
    - intros _. by exists 0%nat, q. }
  destruct (moves_unless_waits m i p D Hp Hf) as [?|(l & j & Hw & Hl)]; [done|].
  by apply (waiting_resolves m n D Hn (n - rank l) i p l j).
Qed.

(** ** The discipline is kept *)

Lemma typed_at m held ghost i p :
  disciplined_with m held ghost -> m_threads m !! i = Some p ->
  exists h g, held !! i = Some h /\ ghost !! i = Some g /\ typed h g p.
Proof.
  intros [_ El Eg Ht _] Hp. apply lookup_lt_Some in Hp as Hlt.
  destruct (lookup_lt_is_Some_2 held i) as [h Hh]; [lia|]. destruct (lookup_lt_is_Some_2 ghost i) as [g Hg]; [lia|]. eauto 7.
Qed.

(** What the invariant owes: operations, releases, and a lock more. *)
Definition alone (held : list (list L)) (i : nat) (h : list L) : Prop :=
  forall j h', held !! j = Some h' -> j <> i -> forall l, l ∈ h -> l ∉ h'.

Class Maintained := {
  mt_run : forall s held ghost i h g o s' a, Inv s held ghost -> held !! i = Some h -> ghost !! i = Some g ->
    alone held i h -> pre h g o -> run i o s = (s', a) -> Inv s' held (<[i := after g o a]> ghost);
  mt_release : forall s held ghost i h g l, Inv s held ghost -> held !! i = Some h -> ghost !! i = Some g ->
    alone held i h -> l ∈ h -> may_release g l ->
    Inv s (<[i := filter (fun x => x <> l) h]> held) (<[i := after_release g l]> ghost);
  mt_acquire : forall s held ghost i h g l, Inv s held ghost -> held !! i = Some h -> ghost !! i = Some g ->
    alone held i h -> Inv s (<[i := l :: h]> held) ghost }.

Context {MT : Maintained}.

(** No lock is in two lists. *)
Lemma accounted_apart locks held i h : accounted locks held -> held !! i = Some h -> alone held i h.
Proof.
  intros Ha Hh j h' Hh' Hne l Hl Hl'. assert (locks !! l = Some i) by (apply Ha; eauto).
  assert (locks !! l = Some j) by (apply Ha; eauto). congruence.
Qed.

Lemma accounted_acquire locks held i h l : accounted locks held -> held !! i = Some h -> locks !! l = None ->
  accounted (<[l := i]> locks) (<[i := l :: h]> held).
Proof.
  intros Ha Hh Hl x j. apply lookup_lt_Some in Hh as Hlt. destruct (decide (x = l)) as [->|Hx].
  - rewrite lookup_insert_eq. split.
    + intros [= <-]. exists (l :: h). split; [by apply list_lookup_insert_eq|by constructor].
    + intros (h' & Hh' & Hin). apply list_lookup_insert_Some in Hh' as [(-> & _)|[_ Hh']]; [done|].
      assert (locks !! l = Some j) by (apply Ha; eauto). congruence.
  - rewrite lookup_insert_ne by done. rewrite (Ha x j). destruct (decide (j = i)) as [->|Hj].
    + rewrite list_lookup_insert_eq by done. split; intros (h' & Hh' & Hin); [|].
      * exists (l :: h). split; [done|]. assert (h' = h) as -> by congruence. by right.
      * injection Hh' as <-. apply elem_of_cons in Hin as [|Hin]; [done|]. eauto.
    + by rewrite list_lookup_insert_ne.
Qed.

Lemma accounted_release locks held i h l : accounted locks held -> held !! i = Some h -> l ∈ h ->
  accounted (delete l locks) (<[i := filter (fun x => x <> l) h]> held).
Proof.
  intros Ha Hh Hl x j. apply lookup_lt_Some in Hh as Hlt. destruct (decide (x = l)) as [->|Hx].
  - rewrite lookup_delete_eq. split; [done|]. intros (h' & Hh' & Hin).
    apply list_lookup_insert_Some in Hh' as [(-> & <- & _)|[Hne Hh']].
    + by apply list_elem_of_filter in Hin as [].
    + by destruct (accounted_apart locks held i h Ha Hh j h' Hh' ltac:(done) l Hl).
  - rewrite lookup_delete_ne by done. rewrite (Ha x j). destruct (decide (j = i)) as [->|Hj].
    + rewrite list_lookup_insert_eq by done. split; intros (h' & Hh' & Hin).
      * eexists. split; [done|]. apply list_elem_of_filter. split; [done|]. by assert (h' = h) as <- by congruence.
      * injection Hh' as <-. apply list_elem_of_filter in Hin as []. eauto.
    + by rewrite list_lookup_insert_ne.
Qed.

Lemma typed_insert (ps : list (prog unit)) (held : list (list L)) (ghost : list G) (i : nat) p h g :
  (forall j h' g' q, held !! j = Some h' -> ghost !! j = Some g' -> ps !! j = Some q -> typed h' g' q) -> typed h g p ->
  forall j h' g' q, <[i := h]> held !! j = Some h' -> <[i := g]> ghost !! j = Some g' -> <[i := p]> ps !! j = Some q -> typed h' g' q.
Proof.
  intros Ht Hp j h' g' q Hh Hg Hq. apply list_lookup_insert_Some in Hh, Hg, Hq.
  destruct Hh as [(-> & -> & _)|[? Hh]], Hg as [(? & -> & _)|[? Hg]], Hq as [(? & -> & _)|[? Hq]]; try done; by eapply Ht.
Qed.

Lemma disciplined_step m x m' : disciplined m -> mstep m x = Some m' -> disciplined m'.
Proof.
  intros (held & ghost & D) Hm. destruct x as [i b]. unfold mstep in Hm. cbn in Hm.
  destruct (m_threads m !! i) as [p|] eqn:Hp; [|done]. cbn in Hm.
  destruct (thread_step (m_store m) (m_locks m) i p b) as [[[s' locks'] p']|] eqn:Hs; [|done]. cbn in Hm. injection Hm as <-.
  destruct (typed_at m held ghost i p D Hp) as (h & g & Hh & Hg & Hty). pose proof D as [Ha El Eg Ht Hi].
  assert (forall h' g', accounted locks' (<[i := h']> held) -> typed h' g' p' -> Inv s' (<[i := h']> held) (<[i := g']> ghost) ->
            disciplined (mkMachine s' locks' (<[i := p']> (m_threads m)))) as Hgo.
  { intros h' g' Ha' Hty' Hi'. exists (<[i := h']> held), (<[i := g']> ghost).
    split; cbn; rewrite ?length_insert; try done. by apply typed_insert. }
  destruct p as [r|l k|l k|l k|o k]; cbn in Hs, Hty.
  - done.
  - destruct (m_locks m !! l) eqn:El'; simplify_eq. destruct Hty. apply (Hgo (l :: h) g); [by apply accounted_acquire|done|].
    rewrite (list_insert_id ghost i g) by done. by apply (mt_acquire _ _ _ _ _ g); [..|by eapply accounted_apart].
  - case_bool_decide; simplify_eq. destruct Hty as (Hl & Hr & Hty).
    apply (Hgo (filter (fun x => x <> l) h) (after_release g l)); [by apply accounted_release|done|by apply mt_release; [..|by eapply accounted_apart| |]].
  - destruct Hty as (Ho & Ht1 & Ht0). destruct (m_locks m !! l) eqn:El'.
    + destruct b; simplify_eq. apply (Hgo h g); rewrite ?list_insert_id; done.
    + simplify_eq. apply (Hgo (l :: h) g); [by apply accounted_acquire|done|].
      rewrite (list_insert_id ghost i g) by done. by apply (mt_acquire _ _ _ _ _ g); [..|by eapply accounted_apart].
  - destruct Hty as (Hpre & Hty). destruct (run i o (m_store m)) as [s1 a] eqn:Er. simplify_eq.
    apply (Hgo h (after g o a)); rewrite ?list_insert_id by done; try done.
    eapply mt_run; try done. by eapply accounted_apart.
Qed.

Lemma disciplined_steps xs : forall m m', disciplined m -> msteps m xs = Some m' -> disciplined m'.
Proof.
  induction xs as [|x xs IH]; intros m m' D Hm; [by injection Hm as <-|].
  cbn in Hm. destruct (mstep m x) as [m1|] eqn:E; [|done]. cbn in Hm. eapply IH; [|done]. by eapply disciplined_step.
Qed.

(** A pool whose threads are typed from [g]. *)
Lemma disciplined_pool s ps g :
  Forall (typed [] g) ps -> Inv s (replicate (length ps) []) (replicate (length ps) g) -> disciplined (pool s ps).
Proof.
  intros Hp Hi. exists (replicate (length ps) []), (replicate (length ps) g).
  split; cbn; rewrite ?length_replicate; try done.
  - intros l i. rewrite lookup_empty. split; [done|]. intros (h & Hh & Hl). apply lookup_replicate in Hh as [-> _].
    by apply elem_of_nil in Hl.
  - intros i h g' p Hh Hg Hq. apply lookup_replicate in Hh as [-> _], Hg as [-> _]. rewrite Forall_lookup in Hp. eauto.
Qed.
End machine.
