(* ===== verification/PyCamera.v ===== *)
(** The camera shared with Python: the model of [src/src/py.rs].

    A Python [Camera] shares one [GenICamera] behind a mutex; acquisitions and
    snapshot sessions are objects with a mutex of their own over their state
    and over the token that marks the camera busy; the interpreter adds its
    global lock, which a call that talks to the device releases.  Every method
    is a program of [Locks] over a shared store: taking and releasing locks
    and operations on the camera, the busy marker and the guard objects are
    events, so that the calls of several threads interleave in any way.

    The camera is any [AcqCamera] with the calls of [PyLink]; [None] of a
    camera call is a panic, which unwinds through the method. *)

From stdpp Require Import gmap list.
From Stdlib Require Import SpecFloat.
From S2P Require Import Prelude Gvcp Gvsp Channel Float64 Frame Reassembly Text Bootstrap Zip Url Emulator DeviceControl.
From S2P Require Import Errors Control DeviceSpec ControlLink Register Evaluator Formula NodeGraph NodeTotal Camera NodeAccess.
From S2P Require Import XmlGraph Description ControlPort Session SessionSpec PacketSize StreamOpen Acquire Locks.

(** * Arguments *)

(** What a method raises. *)
Inductive PyErr :=
| NotSeconds (name : text)
| NotAnAddress
| HeartbeatTooLong
| Busy (active : text)
| SessionClosed
| AcquisitionStopped
| CameraException (e : CameraError)
| GenicamException (e : GenicamError)
| PanicException.

(** [From<GenicamError> for PyErr]. *)
Definition PyErr_from (e : GenicamError) : PyErr :=
  match e with NodeGraph.Camera inner => CameraException inner | other => GenicamException other end.

Definition round_half_even (num den : Z) : Z :=
  let q := num / den in
  let r := num mod den in
  if 2 * r <? den then q else if den <? 2 * r then q + 1 else if Z.even q then q else q + 1.

(** [Duration::try_from_secs_f64] in nanoseconds: to the nearest, ties to
    even; negative, infinite, NaN and beyond 2^64 seconds are refused. *)
Definition try_from_secs_f64 (x : f64) : option Z :=
  match x with
  | S754_zero _ => Some 0
  | S754_finite false m e =>
      let ns := if 0 <=? e then Z.pos m * 2 ^ e * 1000000000 else round_half_even (Z.pos m * 1000000000) (2 ^ (- e)) in
      if ns <? 2 ^ 64 * 1000000000 then Some ns else None
  | _ => None
  end.

Definition seconds (name : text) (value : f64) : result PyErr Z :=
  match try_from_secs_f64 value with Some d => Ok d | None => Err (NotSeconds name) end.

(** The configuration of a Python camera: the timing fields and privilege,
    and the addresses. *)
Record PyConfig := {
  py_addr : IpAddr * Z;
  py_gige : GigeConfig;
  py_exclusive : bool;
  py_local_addr : option (IpAddr * Z) }.

Section config.
(** [IpAddr::from_str]. *)
Variable parse_ip_addr : text -> option IpAddr.

Definition parse_ip (ip : text) : result PyErr IpAddr :=
  match parse_ip_addr ip with Some a => Ok a | None => Err NotAnAddress end.

Definition py_new (ip : text) (gvcp_timeout : f64) (retries : Z) (heartbeat_timeout : f64) (exclusive : bool)
    (local_ip : option text) : result PyErr PyConfig :=
  addr ← parse_ip ip;
  timeout ← seconds (str "gvcp_timeout") gvcp_timeout;
  heartbeat ← seconds (str "heartbeat_timeout") heartbeat_timeout;
  heartbeat_ms ← (let ms := heartbeat / 1000000 in if ms <=? U32_MAX then Ok ms else Err HeartbeatTooLong);
  local ← match local_ip with
          | None => Ok None
          | Some local => a ← parse_ip local; Ok (Some (a, 0))
          end;
  Ok {| py_addr := (addr, GVCP_PORT);
        py_gige := {| gc_gvcp_timeout := timeout; gc_retries := retries; gc_heartbeat_timeout_ms := heartbeat_ms |};
        py_exclusive := exclusive; py_local_addr := local |}.
End config.

Definition build_stream_config (channel n_buffers : Z) (packet_size packet_delay : option Z) (resend : bool) : OpenConfig :=
  let cfg := StreamConfig_new in
  {| oc_stream :=
       {| cfg_channel := channel; cfg_payload_size := cfg_payload_size cfg; cfg_n_buffers := n_buffers;
          cfg_packet_size := match packet_size with Some size => PsFixed size | None => cfg_packet_size cfg end;
          cfg_packet_delay := packet_delay; cfg_resend := if resend then cfg_resend cfg else RpNever;
          cfg_initial_packet_timeout := cfg_initial_packet_timeout cfg; cfg_packet_timeout := cfg_packet_timeout cfg;
          cfg_frame_retention := cfg_frame_retention cfg; cfg_packet_request_ratio := cfg_packet_request_ratio cfg |};
     oc_local_addr := None |}.

(** * The twins of the guards *)

Record AcqState := { as_stream : StreamChannel }.

Record SessionState := {
  se_stream : StreamChannel; se_frames : nat; se_auto_stops : bool; se_restore_mode : option text }.

Section twins.
Context {S : Type} {AC : AcqCamera S}.

(** With the frame channel, which the object keeps. *)
Definition AcqState_start (cfg : OpenConfig) : AM S (AcqState * nat) :=
  cfg ← am_fill_payload_size cfg;
  let capacity := cfg_n_buffers (oc_stream cfg) in
  stream ← ac_open_stream cfg;
  frames ← sure (ac_subscribe stream capacity);
  _ ← logged (ac_set_integer (str "TLParamsLocked") 1);
  started ← attempt (ac_execute (str "AcquisitionStart"));
  match started with
  | Err e =>
      _ ← logged (ac_set_integer (str "TLParamsLocked") 0);
      _ ← ac_drop_stream stream;
      am_fail e
  | Ok _ => mret ({| as_stream := stream |}, frames)
  end.

(** The channel closes when the state is dropped, at the end. *)
Definition AcqState_stop (st : AcqState) : AM S unit :=
  r ← attempt (ac_execute (str "AcquisitionStop"));
  _ ← logged (ac_set_integer (str "TLParamsLocked") 0);
  _ ← ac_drop_stream (as_stream st);
  match r with Ok _ => mret tt | Err e => am_fail e end.

Definition SessionState_open (cfg : OpenConfig) : AM S SessionState :=
  mode ← attempt (ac_get_enum (str "AcquisitionMode"));
  '((auto_stops, restore_mode) : bool * option text) ←
    match mode with
    | Ok mode =>
        if bool_decide (mode = str "SingleFrame") then mret (true, None)
        else
          switched ← attempt (ac_set_enum (str "AcquisitionMode") (str "SingleFrame"));
          match switched with Ok _ => mret (true, Some mode) | Err _ => mret (false, None) end
    | Err _ => mret (false, None)
    end;
  stream ← attempt (cfg ← am_fill_payload_size cfg; ac_open_stream cfg);
  match stream with
  | Ok stream =>
      _ ← logged (ac_set_integer (str "TLParamsLocked") 1);
      frames ← sure (ac_subscribe stream 4);
      mret {| se_stream := stream; se_frames := frames; se_auto_stops := auto_stops; se_restore_mode := restore_mode |}
  | Err e =>
      _ ← match restore_mode with
          | Some mode => logged (ac_set_enum (str "AcquisitionMode") mode)
          | None => mret tt
          end;
      am_fail e
  end.

Definition SessionState_snap (st : SessionState) (timeout : Z) : AM S Frame :=
  _ ← sure (ac_clear (se_frames st));
  _ ← ac_execute (str "AcquisitionStart");
  frame ← sure (ac_wait_for (se_frames st) timeout);
  _ ← (if negb (se_auto_stops st) || match frame with None => true | Some _ => false end
       then logged (ac_execute (str "AcquisitionStop")) else mret tt);
  match frame with Some f => mret f | None => am_fail FrameTimeout end.

Definition SessionState_close (st : SessionState) : AM S unit :=
  _ ← logged (ac_set_integer (str "TLParamsLocked") 0);
  _ ← match se_restore_mode st with
      | Some mode => logged (ac_set_enum (str "AcquisitionMode") mode)
      | None => mret tt
      end;
  ac_drop_stream (se_stream st).
End twins.

(** * The shared objects *)

(** The calls of the camera beside those of [AcqCamera]. *)
Class PyLink (S : Type) := {
  pl_feature : FeatureCall -> AM S Answer;
  pl_connect : AM S unit;
  pl_disconnect : Z -> AM S unit;
  pl_is_connected : S -> bool;
  pl_device_info : S -> result CameraError DeviceInfo }.

(** The camera of this library: [connect] of [GenICamera] dials, unless the
    link is up, and loads the description; [spawn] is what starting a
    worker gives. *)
Section camera_py.
Context {FL : FloatLib} {P : Type} {C : ControlPort.Control P} {IN : Inflate} {XL : XmlLib}.
Variables (fs_read : text -> result CameraError bytes) (cfg : SessionConfig) (device_ip : IpAddr).
Variable spawn : option (Session P) -> result CameraError (P * (IpAddr * Z)).

Definition GenICamera_connect : AM (option (Session P)) unit := fun cam =>
  match ses_connect cfg device_ip (spawn cam) cam with
  | (cam, Err e) => Some (cam, Err (NodeGraph.Camera e))
  | (cam, Ok _) => let '(cam, r) := ensure_genicam fs_read cam in Some (cam, r)
  end.

Definition GenICamera_disconnect (deadline : Z) : AM (option (Session P)) unit := fun cam =>
  Some (fst (ses_disconnect cam), Ok tt).

#[export] Instance Camera_py : PyLink (option (Session P)) := {|
  pl_feature c := feature (call c);
  pl_connect := GenICamera_connect;
  pl_disconnect := GenICamera_disconnect;
  pl_is_connected := ses_is_connected;
  pl_device_info cam := ss_info <$> ses_conn cam |}.
End camera_py.

Inductive GuardState := GAcq (st : AcqState) | GSes (st : SessionState).

Definition guard_stream (st : GuardState) : StreamChannel :=
  match st with GAcq st => as_stream st | GSes st => se_stream st end.

(** An acquisition or session object: its state, its token, the threads that
    are in one of its methods, and whether it was destroyed. *)
Record Guard := mkGuard { g_state : option GuardState; g_token : bool; g_users : gset nat; g_dead : bool }.

(** What happened to the camera's lifecycle, in order. *)
Inductive Life :=
| LConnect | LDisconnect | LShot
| LStart (ok : bool) | LStop | LOpen (ok : bool) | LSnap | LClose | LAbandon.

Record Store (S : Type) := mkStore {
  s_cam : S;
  s_busy : option text;
  s_guards : gmap nat Guard;
  s_log : list Life }.
Arguments mkStore {S}.
Arguments s_cam {S}.
Arguments s_busy {S}.
Arguments s_guards {S}.
Arguments s_log {S}.

(** The interpreter's lock, the camera's, a guard's two, the busy marker's. *)
Inductive PyLock := Gil | CamLock | StateLock (g : nat) | TokenLock (g : nat) | FlagLock.

Global Instance PyLock_eq_dec : EqDecision PyLock.
Proof. solve_decision. Defined.

Global Instance PyLock_countable : Countable PyLock.
Proof.
  refine (inj_countable'
    (fun l => match l with Gil => inl 0%nat | CamLock => inl 1%nat | FlagLock => inl 2%nat
              | StateLock g => inr (true, g) | TokenLock g => inr (false, g) end)
    (fun x => match x with inl 0%nat => Gil | inl 1%nat => CamLock | inl _ => FlagLock
              | inr (true, g) => StateLock g | inr (false, g) => TokenLock g end) _).
  by intros [].
Defined.

Inductive PyOp :=
| OClaim (what : text) | ORelease
| OFeature (c : FeatureCall) | OConnect | ODisconnect (deadline : Z) | OIsConnected | ODeviceInfo
| OStart (cfg : OpenConfig) | OStop (st : AcqState)
| OOpen (cfg : OpenConfig) | OSnap (st : SessionState) (timeout : Z) | OClose (st : SessionState)
| OShot (cfg : OpenConfig) (timeout : Z) | OAbandon (st : GuardState)
| ONew (st : GuardState) | OTake (g : nat) | OPeek (g : nat) | OTakeToken (g : nat)
| OEnter (g : nat) | OLeave (g : nat) | ODestroy (g : nat).

Abbreviation camera_answer A := (option (result GenicamError A)).

(** [OClaim]: [None] when it was claimed, or what is active. *)
Definition PyAns (o : PyOp) : Type :=
  match o with
  | OClaim _ => option text
  | ORelease => unit
  | OFeature _ => camera_answer Answer
  | OConnect | ODisconnect _ => camera_answer unit
  | OIsConnected => bool
  | ODeviceInfo => result CameraError DeviceInfo
  | OStart _ => camera_answer (AcqState * nat)
  | OStop _ | OClose _ => camera_answer unit
  | OOpen _ => camera_answer SessionState
  | OSnap _ _ | OShot _ _ => camera_answer Frame
  | OAbandon _ => unit
  | ONew _ => nat
  | OTake _ | OPeek _ => option GuardState
  | OTakeToken _ | OEnter _ | ODestroy _ => bool
  | OLeave _ => unit
  end.

Section shared.
Context {S : Type} {AC : AcqCamera S} {PL : PyLink S}.

(** A call of the camera, with its entry in the log; a panic leaves no answer. *)
Definition on_camera {A} (m : AM S A) (entry : camera_answer A -> list Life) (s : Store S)
    : Store S * camera_answer A :=
  let '(cam, r) := match m (s_cam s) with Some (cam, r) => (cam, Some r) | None => (s_cam s, None) end in
  (mkStore cam (s_busy s) (s_guards s) (s_log s ++ entry r), r).

Definition succeeded {A} (r : camera_answer A) : bool := match r with Some (Ok _) => true | _ => false end.

Definition with_guards (s : Store S) (guards : gmap nat Guard) : Store S := mkStore (s_cam s) (s_busy s) guards (s_log s).
Definition with_busy (s : Store S) (busy : option text) : Store S := mkStore (s_cam s) busy (s_guards s) (s_log s).

(** Change a guard that is there and answer about it. *)
Definition on_guard {A} (g : nat) (dflt : A) (f : Guard -> Guard * A) (s : Store S) : Store S * A :=
  match s_guards s !! g with
  | Some gd => let '(gd, a) := f gd in (with_guards s (<[g := gd]> (s_guards s)), a)
  | None => (s, dflt)
  end.

(** What an operation of thread [i] does.  A destroyed object can not be
    entered, and one that is in use is not destroyed: its references are what
    keeps it. *)
Definition py_run (i : nat) (o : PyOp) : Store S -> Store S * PyAns o :=
  match o return Store S -> Store S * PyAns o with
  | OClaim what => fun s =>
      match s_busy s with
      | Some active => (s, Some active)
      | None => (with_busy s (Some what), None)
      end
  | ORelease => fun s => (with_busy s None, tt)
  | OFeature c => on_camera (pl_feature c) (fun _ => [])
  | OConnect => on_camera pl_connect (fun _ => [LConnect])
  | ODisconnect d => on_camera (pl_disconnect d) (fun _ => [LDisconnect])
  | OIsConnected => fun s => (s, pl_is_connected (s_cam s))
  | ODeviceInfo => fun s => (s, pl_device_info (s_cam s))
  | OStart cfg => on_camera (AcqState_start cfg) (fun r => [LStart (succeeded r)])
  | OStop st => on_camera (AcqState_stop st) (fun _ => [LStop])
  | OOpen cfg => on_camera (SessionState_open cfg) (fun r => [LOpen (succeeded r)])
  | OSnap st timeout => on_camera (SessionState_snap st timeout) (fun _ => [LSnap])
  | OClose st => on_camera (SessionState_close st) (fun _ => [LClose])
  | OShot cfg timeout => on_camera (camera_snap cfg timeout) (fun _ => [LShot])
  | OAbandon st => fun s => (fst (on_camera (ac_drop_stream (guard_stream st)) (fun _ => [LAbandon]) s), tt)
  | ONew st => fun s =>
      let g := base.fresh (C := gset nat) (dom (s_guards s)) in
      (with_guards s (<[g := mkGuard (Some st) true ∅ false]> (s_guards s)), g)
  | OTake g => on_guard g None (fun gd => (mkGuard None (g_token gd) (g_users gd) (g_dead gd), g_state gd))
  | OPeek g => on_guard g None (fun gd => (gd, g_state gd))
  | OTakeToken g => on_guard g false (fun gd => (mkGuard (g_state gd) false (g_users gd) (g_dead gd), g_token gd))
  | OEnter g => on_guard g false (fun gd =>
      if g_dead gd then (gd, false) else (mkGuard (g_state gd) (g_token gd) (g_users gd ∪ {[i]}) false, true))
  | OLeave g => on_guard g tt (fun gd => (mkGuard (g_state gd) (g_token gd) (g_users gd ∖ {[i]}) (g_dead gd), tt))
  | ODestroy g => on_guard g false (fun gd =>
      if g_dead gd || negb (bool_decide (g_users gd = ∅)) then (gd, false)
      else (mkGuard (g_state gd) (g_token gd) (g_users gd) true, true))
  end.

(** * The methods *)

Abbreviation py := (prog (L := PyLock) PyAns).
Abbreviation op := (do_ (L := PyLock) (Ans := PyAns)).

(** [mutex.lock()] around a part, and [py.detach]. *)
Definition locked {A} (l : PyLock) (body : py A) : py A := _ ← lock l; a ← body; _ ← unlock l; mret a.
Definition detach {A} (body : py A) : py A := _ ← unlock Gil; a ← body; _ ← lock Gil; mret a.
(** A method of a Python object: the caller has the interpreter's lock. *)
Definition method {A} (body : py A) : py A := locked Gil body.
(** A method of guard [g]; [None] when there is no such object. *)
Definition guard_method {A} (g : nat) (body : py A) : py (option A) :=
  method (entered ← op (OEnter g);
          if entered : bool then a ← body; _ ← op (OLeave g); mret (Some a) else mret None).

Definition raise {A} (r : camera_answer A) : result PyErr A :=
  match r with
  | Some (Ok a) => Ok a
  | Some (Err e) => Err (PyErr_from e)
  | None => Err PanicException
  end.

Definition claim (what : text) : py (option text) := locked FlagLock (op (OClaim what)).
Definition BusyToken_drop : py unit := locked FlagLock (op ORelease).

(** A call of the camera, detached from the interpreter. *)
Definition detached_call (o : PyOp) : py (PyAns o) := detach (locked CamLock (op o)).

(** Claim the camera, make one call, and let the token go. *)
Definition claimed_call {A} (what : text) (body : py (result PyErr A)) : py (result PyErr A) :=
  method (busy ← claim what;
          match busy with
          | Some active => mret (Err (Busy active))
          | None => r ← body; _ ← BusyToken_drop; mret r
          end).

Definition py_connect : py (result PyErr unit) :=
  claimed_call (str "a connect") (r ← detached_call OConnect; mret (raise r)).

Definition py_disconnect (deadline : f64) : py (result PyErr unit) :=
  match seconds (str "deadline") deadline with
  | Err e => method (mret (Err e))
  | Ok deadline => claimed_call (str "a disconnect") (r ← detached_call (ODisconnect deadline); mret (raise r))
  end.

Definition py_is_connected : py bool := method (locked CamLock (op OIsConnected)).
Definition py_device_info : py (result PyErr DeviceInfo) :=
  method (r ← locked CamLock (op ODeviceInfo);
          mret (match r with Ok i => Ok i | Err e => Err (CameraException e) end)).

(** The feature methods that talk to the device, and the two that do not. *)
Definition py_feature (c : FeatureCall) : py (result PyErr Answer) :=
  method (r ← detached_call (OFeature c); mret (raise r)).
Definition py_lookup (c : FeatureCall) : py (result PyErr Answer) :=
  method (r ← locked CamLock (op (OFeature c)); mret (raise r)).

Definition py_feature_names := py_lookup CallNames.
Definition py_invalidate_caches := py_lookup CallDropCaches.
Definition py_get_integer (name : text) := py_feature (CallGetInteger name).
Definition py_set_integer (name : text) (value : Z) := py_feature (CallSetInteger name value).
Definition py_integer_bounds (name : text) := py_feature (CallIntegerBounds name).
Definition py_integer_increment (name : text) := py_feature (CallIntegerIncrement name).
Definition py_get_float (name : text) := py_feature (CallGetFloat name).
Definition py_set_float (name : text) (value : f64) := py_feature (CallSetFloat name value).
Definition py_float_bounds (name : text) := py_feature (CallFloatBounds name).
Definition py_get_boolean (name : text) := py_feature (CallGetBoolean name).
Definition py_set_boolean (name : text) (value : bool) := py_feature (CallSetBoolean name value).
Definition py_get_string (name : text) := py_feature (CallGetString name).
Definition py_set_string (name value : text) := py_feature (CallSetString name value).
(** [get_enum] and [get_string] read the same value. *)
Definition py_get_enum (name : text) := py_feature (CallGetString name).
Definition py_set_enum (name entry : text) := py_feature (CallSetEnum name entry).
Definition py_enum_entries (name : text) := py_feature (CallEnumEntries name).
Definition py_execute (name : text) := py_feature (CallExecute name).
Definition py_access_mode (name : text) := py_feature (CallAccessMode name).

(** Claim the camera and make a guard; the token goes into the guard, or is
    let go when the call fails.  An acquisition object also has its frame
    channel, which outlives its state. *)
Definition py_start_acquisition (cfg : OpenConfig) : py (result PyErr (nat * nat)) :=
  method (busy ← claim (str "an acquisition");
          match busy return py (result PyErr (nat * nat)) with
          | Some active => mret (Err (Busy active))
          | None =>
              r ← detached_call (OStart cfg);
              match raise r return py (result PyErr (nat * nat)) with
              | Ok (st, frames) => g ← op (ONew (GAcq st)); mret (Ok (g : nat, frames))
              | Err e => _ ← BusyToken_drop; mret (Err e)
              end
          end).

Definition py_snapshot_session (cfg : OpenConfig) : py (result PyErr nat) :=
  method (busy ← claim (str "a snapshot session");
          match busy return py (result PyErr nat) with
          | Some active => mret (Err (Busy active))
          | None =>
              r ← detached_call (OOpen cfg);
              match raise r return py (result PyErr nat) with
              | Ok st => g ← op (ONew (GSes st)); mret (Ok (g : nat))
              | Err e => _ ← BusyToken_drop; mret (Err e)
              end
          end).

Definition py_snap (timeout : f64) (cfg : OpenConfig) : py (result PyErr Frame) :=
  match seconds (str "timeout") timeout with
  | Err e => method (mret (Err e))
  | Ok timeout => claimed_call (str "a snap") (r ← detached_call (OShot cfg timeout); mret (raise r))
  end.

(** [stop_now] of an acquisition and [close_now] of a session: the state is
    taken and wound up with both locks held, then the token goes.  A panic
    unwinds past the token, which stays in the guard. *)
Definition wind_up (st : GuardState) : py (camera_answer unit) :=
  match st with GAcq st => op (OStop st) | GSes st => op (OClose st) end.

Definition end_now (g : nat) : py (result PyErr unit) :=
  locked CamLock
    (r ← locked (StateLock g)
       (st ← op (OTake g);
        match st : option GuardState with Some st => wind_up st | None => mret (Some (Ok tt)) end);
     match r with
     | None => mret (Err PanicException)
     | Some _ =>
         _ ← locked (TokenLock g)
               (token ← op (OTakeToken g); if token : bool then BusyToken_drop else mret tt);
         mret (raise r)
     end).

Definition py_stop (g : nat) : py (option (result PyErr unit)) := guard_method g (detach (end_now g)).
(** [close] logs what fails. *)
Definition py_close (g : nat) : py (option unit) := guard_method g (detach (_ ← end_now g; mret tt)).

(** [snap] of a session. *)
Definition py_session_snap (g : nat) (timeout : f64) : py (option (result PyErr Frame)) :=
  guard_method g
    (match seconds (str "timeout") timeout with
     | Err e => mret (Err e)
     | Ok timeout =>
         detach (locked CamLock (locked (StateLock g)
           (st ← op (OPeek g);
            match st : option GuardState with
            | Some (GSes st) => r ← op (OSnap st timeout); mret (raise r)
            | _ => mret (Err SessionClosed)
            end)))
     end).

(** The getters of a guard, and whether it was wound up. *)
Definition with_stream {A} (g : nat) (closed : PyErr) (f : StreamChannel -> A) : py (option (result PyErr A)) :=
  guard_method g (locked (StateLock g)
    (st ← op (OPeek g); mret (match st : option GuardState with Some st => Ok (f (guard_stream st)) | None => Err closed end))).
Definition py_packet_size (g : nat) (closed : PyErr) := with_stream g closed sh_packet_size.
Definition py_local_addr_of (g : nat) := with_stream g AcquisitionStopped sh_local_addr.
(** [subscribe]: the stream the new channel of [capacity] frames belongs to; the
    receiver takes it up as a command. *)
Definition py_subscribe (g : nat) (capacity : Z) := with_stream g AcquisitionStopped (fun ch => (ch, capacity)).
Definition py_is_ended (g : nat) : py (option bool) :=
  guard_method g (locked (StateLock g)
    (st ← op (OPeek g); mret (match st : option GuardState with Some _ => false | None => true end))).

(** The object is destroyed: a bounded wait for the camera, then its fields. *)
Definition py_guard_drop (g : nat) : py unit :=
  method (destroyed ← op (ODestroy g);
          if destroyed : bool then
            st ← locked (StateLock g) (op (OTake g));
            _ ← match st : option GuardState with
                | None => mret tt
                | Some st =>
                    got ← try_lock CamLock;
                    if got : bool then _ ← wind_up st; unlock CamLock else op (OAbandon st)
                end;
            token ← op (OTakeToken g);
            if token : bool then BusyToken_drop else mret tt
          else mret tt).

(** * Python programs *)

Inductive PyCall : Type -> Type :=
| CallConnect : PyCall (result PyErr unit)
| CallDisconnect (deadline : f64) : PyCall (result PyErr unit)
| CallIsConnected : PyCall bool
| CallDeviceInfo : PyCall (result PyErr DeviceInfo)
| CallFeature (c : FeatureCall) : PyCall (result PyErr Answer)
| CallLookup (c : FeatureCall) : PyCall (result PyErr Answer)
| CallStart (cfg : OpenConfig) : PyCall (result PyErr (nat * nat))
| CallSession (cfg : OpenConfig) : PyCall (result PyErr nat)
| CallShot (timeout : f64) (cfg : OpenConfig) : PyCall (result PyErr Frame)
| CallStop (g : nat) : PyCall (option (result PyErr unit))
| CallClose (g : nat) : PyCall (option unit)
| CallSnap (g : nat) (timeout : f64) : PyCall (option (result PyErr Frame))
| CallPacketSize (g : nat) (closed : PyErr) : PyCall (option (result PyErr Z))
| CallLocalAddr (g : nat) : PyCall (option (result PyErr (IpAddr * Z)))
| CallSubscribe (g : nat) (capacity : Z) : PyCall (option (result PyErr (StreamChannel * Z)))
| CallIsEnded (g : nat) : PyCall (option bool)
| CallDrop (g : nat) : PyCall unit.

Definition call_prog {A} (c : PyCall A) : py A :=
  match c in PyCall A return py A with
  | CallConnect => py_connect
  | CallDisconnect d => py_disconnect d
  | CallIsConnected => py_is_connected
  | CallDeviceInfo => py_device_info
  | CallFeature c => py_feature c
  | CallLookup c => py_lookup c
  | CallStart cfg => py_start_acquisition cfg
  | CallSession cfg => py_snapshot_session cfg
  | CallShot t cfg => py_snap t cfg
  | CallStop g => py_stop g
  | CallClose g => py_close g
  | CallSnap g t => py_session_snap g t
  | CallPacketSize g e => py_packet_size g e
  | CallLocalAddr g => py_local_addr_of g
  | CallSubscribe g n => py_subscribe g n
  | CallIsEnded g => py_is_ended g
  | CallDrop g => py_guard_drop g
  end.

(** A Python thread: calls that may depend on the answers so far. *)
Inductive client :=
| Finish
| Invoke {A} (c : PyCall A) (k : A -> client).

Fixpoint client_prog (c : client) : py unit :=
  match c with
  | Finish => mret tt
  | Invoke c k => a ← call_prog c; client_prog (k a)
  end.

(** Threads that share a camera in state [cam]. *)
Definition py_threads (cam : S) (clients : list client) : machine (L := PyLock) (Ans := PyAns) (St := Store S) :=
  pool (mkStore cam None ∅ []) (client_prog <$> clients).
End shared.
