(* ===== verification/PyExclusive.v ===== *)
(** What Python threads that share a camera can and can not do to it.

    The busy marker stands in for the exclusive borrow of the Rust guards:
    whatever the threads call and however their calls interleave, the camera
    sees its lifecycle calls in an order an exclusive owner could make
    ([life_run]); and no schedule of the calls deadlocks. *)

From stdpp Require Import gmap list.
From S2P Require Import Prelude Gvcp Gvsp Channel Float64 Frame Reassembly Text Bootstrap Zip Url Emulator DeviceControl.
From S2P Require Import Errors Control DeviceSpec ControlLink Register Evaluator Formula NodeGraph NodeTotal Camera NodeAccess.
From S2P Require Import XmlGraph Description ControlPort Session SessionSpec PacketSize StreamOpen Acquire Locks PyCamera.

#[local] Set Warnings "-clear-no-such-hyp".

(** * The order of an exclusive owner *)

Inductive Mode := Resting | Acquiring | Snapping.

Global Instance Mode_eq_dec : EqDecision Mode.
Proof. solve_decision. Defined.

Definition life_step (m : Mode) (l : Life) : option Mode :=
  match m, l with
  | Resting, (LConnect | LDisconnect | LShot) => Some Resting
  | Resting, LStart ok => Some (if ok then Acquiring else Resting)
  | Resting, LOpen ok => Some (if ok then Snapping else Resting)
  | Acquiring, (LStop | LAbandon) => Some Resting
  | Snapping, LSnap => Some Snapping
  | Snapping, (LClose | LAbandon) => Some Resting
  | _, _ => None
  end.

Fixpoint life_from (m : Mode) (log : list Life) : option Mode :=
  match log with [] => Some m | l :: log => m ← life_step m l; life_from m log end.

Definition life_run (log : list Life) : option Mode := life_from Resting log.

Lemma life_run_snoc log l m : life_run log = Some m -> life_run (log ++ [l]) = life_step m l.
Proof.
  unfold life_run. generalize Resting. induction log as [|x log IH]; intros m0 Hm; cbn in *.
  - injection Hm as ->. by destruct (life_step m l).
  - destruct (life_step m0 x) as [m1|]; [|done]. by apply IH.
Qed.

(** * What a thread knows *)

Inductive Bound := Outside | Using (g : nat) | Dropping (g : nat).

Record Know := mkKnow {
  k_bound : Bound;
  (** it has the token *)
  k_token : bool;
  (** it has a state that is to be wound up, of this mode *)
  k_live : option Mode;
  (** the guard it is bound to has no state *)
  k_empty : bool;
  (** the guard it is bound to is an open session *)
  k_open : bool }.

Definition know0 : Know := mkKnow Outside false None false false.

Definition guard_mode (st : GuardState) : Mode := match st with GAcq _ => Acquiring | GSes _ => Snapping end.

Definition py_rank (l : PyLock) : nat :=
  match l with Gil => 0 | CamLock => 1 | StateLock _ => 2 | TokenLock _ => 3 | FlagLock => 4 end.

Definition bound_to (b : Bound) : option nat := match b with Outside => None | Using g | Dropping g => Some g end.

(** When an operation may be made. *)
Definition py_pre (held : list PyLock) (k : Know) (o : PyOp) : Prop :=
  let '(mkKnow b token live empty opened) := k in
  match o with
  | OClaim _ => FlagLock ∈ held /\ b = Outside /\ token = false /\ live = None
  | ORelease => FlagLock ∈ held /\ token = true /\ live = None
  | OFeature _ | OIsConnected | ODeviceInfo => CamLock ∈ held
  | OConnect | ODisconnect _ | OShot _ _ | OStart _ | OOpen _ =>
      CamLock ∈ held /\ b = Outside /\ token = true /\ live = None
  | OStop st => CamLock ∈ held /\ live = Some Acquiring /\ b <> Outside
  | OClose st => CamLock ∈ held /\ live = Some Snapping /\ b <> Outside
  | OSnap _ _ => CamLock ∈ held /\ opened = true
  | OAbandon st => live = Some (guard_mode st) /\ exists g, b = Dropping g
  | ONew st => b = Outside /\ token = true /\ live = Some (guard_mode st) /\ opened = false
  | OTake g => bound_to b = Some g /\ token = false /\ live = None /\ opened = false /\ StateLock g ∈ held /\
               (b = Using g -> CamLock ∈ held)
  | OPeek g => b = Using g /\ StateLock g ∈ held
  | OTakeToken g => bound_to b = Some g /\ token = false /\ live = None /\ empty = true /\ opened = false /\ (b = Using g -> CamLock ∈ held)
  | OEnter g => b = Outside /\ token = false /\ live = None /\ empty = false /\ opened = false
  | OLeave g => b = Using g /\ token = false /\ live = None /\ empty = false /\ opened = false
  | ODestroy g => b = Outside /\ token = false /\ live = None /\ empty = false /\ opened = false
  end.

(** What is known then. *)
Definition py_after (k : Know) (o : PyOp) : PyAns o -> Know :=
  let '(mkKnow b token live empty opened) := k in
  match o return PyAns o -> Know with
  | OClaim _ => fun a => mkKnow b (match a with None => true | Some _ => false end) live empty opened
  | ORelease => fun _ => mkKnow b false live empty opened
  | OStart _ => fun a => mkKnow b token (if succeeded a then Some Acquiring else None) empty opened
  | OOpen _ => fun a => mkKnow b token (if succeeded a then Some Snapping else None) empty opened
  | OStop _ | OClose _ => fun _ => mkKnow b token None true opened
  | OAbandon _ => fun _ => mkKnow b token None true opened
  | ONew _ => fun _ => mkKnow b false None empty opened
  | OTake _ => fun a => mkKnow b token (guard_mode <$> a) (match a with None => true | Some _ => empty end) opened
  | OPeek _ => fun a => mkKnow b token live empty (match a with Some (GSes _) => true | _ => opened end)
  | OTakeToken _ => fun a =>
      match b with Dropping _ => mkKnow Outside a live false opened | _ => mkKnow b a live empty opened end
  | OEnter g => fun a => mkKnow (if a then Using g else b) token live empty opened
  | OLeave _ => fun _ => mkKnow Outside token live empty opened
  | ODestroy g => fun a => mkKnow (if a then Dropping g else b) token live empty opened
  | _ => fun _ => k
  end.

(** Releasing the camera ends what is known of the guard in use. *)
Definition py_may_release (k : Know) (l : PyLock) : Prop :=
  match l, k_bound k with
  | CamLock, Using _ => k_token k = false /\ k_live k = None
  | _, _ => True
  end.

Definition py_after_release (k : Know) (l : PyLock) : Know :=
  let '(mkKnow b token live empty opened) := k in
  match l with
  | CamLock => mkKnow b token live (match b with Using _ => false | _ => empty end) opened
  | StateLock _ => mkKnow b token live empty false
  | _ => k
  end.

Definition py_idle (k : Know) : Prop := k_token k = false /\ k_bound k = Outside.

Abbreviation py_typed := (typed (Ans := PyAns) py_rank py_pre py_after py_may_release py_after_release py_idle).

(** ** The methods keep the discipline *)

(** The locks left after a release. *)
Ltac py_release :=
  repeat first [rewrite filter_cons_True by done | rewrite filter_cons_False by (by intros []) | rewrite filter_nil].

Ltac py_event :=
  match goal with
  | |- context [filter _ _] => progress py_release
  | |- context [wind_up ?x] => destruct x; cbn [wind_up]
  | |- Forall _ [] => constructor
  | |- Forall _ (_ :: _) => constructor
  | |- (_ < _)%nat => cbn; lia
  | |- _ ∈ _ => by repeat (apply elem_of_cons; first [by left|right])
  | |- _ /\ _ => split
  | |- forall _, _ => intros ?
  | |- context [match raise ?x with _ => _ end] => destruct x as [[?|?]|]; cbn [raise]
  | |- context [if ?a then _ else _] => is_var a; destruct a
  | |- context [match ?a with _ => _ end] => is_var a; destruct a
  | |- _ => progress (cbn -[filter seconds raise] in * )
  | |- _ => done
  | |- _ => eauto
  end.

Section typing.
Context {S : Type} {AC : AcqCamera S} {PL : PyLink S}.

Lemma call_typed {A} (c : PyCall A) (k : A -> prog PyAns unit) :
  (forall a, py_typed [] know0 (k a)) -> py_typed [] know0 (a ← call_prog c; k a).
Proof.
  intros Hk. destruct c; cbn -[seconds filter raise].
  all: unfold py_disconnect, py_snap, py_session_snap; try match goal with |- context [seconds ?n ?x] => destruct (seconds n x) end; cbn -[seconds filter raise].
  all: repeat py_event.
Qed.
End typing.

(** * The invariant *)

Section invariant.
Context {S : Type} {AC : AcqCamera S} {PL : PyLink S}.
Implicit Types (guards : gmap nat Guard) (held : list (list PyLock)) (ks : list Know).

Definition rights (k : Know) : Prop := k_live k <> None \/ k_empty k = true \/ k_token k = true.

(** Guard [x] is there and is such. *)
Definition at_guard guards (x : nat) (Q : Guard -> Prop) : Prop := exists gd, guards !! x = Some gd /\ Q gd.

Definition is_session (gd : Guard) : Prop := exists st, g_state gd = Some (GSes st).

Record shared_inv (md : Mode) (busy : option text) guards held ks : Prop := {
  si_free : forall i k, busy = None -> ks !! i = Some k -> k_token k = false;
  si_free_guards : forall x gd, busy = None -> guards !! x = Some gd -> g_token gd = false;
  si_tokens : forall i j ki kj, ks !! i = Some ki -> ks !! j = Some kj -> k_token ki = true -> k_token kj = true -> i = j;
  si_guards : forall x y gx gy, guards !! x = Some gx -> guards !! y = Some gy -> g_token gx = true -> g_token gy = true -> x = y;
  si_apart : forall i k x gd, ks !! i = Some k -> guards !! x = Some gd -> k_token k = true -> g_token gd = true -> False;
  si_state : forall x gd st, guards !! x = Some gd -> g_state gd = Some st -> g_token gd = true /\ md = guard_mode st;
  si_live_mode : forall i k m, ks !! i = Some k -> k_live k = Some m -> md = m;
  si_live_out : forall i k m, ks !! i = Some k -> k_live k = Some m -> bound_to (k_bound k) = None -> k_token k = true;
  si_live_in : forall i k m x, ks !! i = Some k -> k_live k = Some m -> bound_to (k_bound k) = Some x ->
    at_guard guards x (fun gd => g_token gd = true /\ g_state gd = None);
  si_mode : md <> Resting -> (exists x, at_guard guards x (fun gd => g_state gd <> None)) \/
                             (exists i k m, ks !! i = Some k /\ k_live k = Some m);
  si_using : forall i k x, ks !! i = Some k -> k_bound k = Using x -> at_guard guards x (fun gd => i ∈ g_users gd);
  si_dropping : forall i k x, ks !! i = Some k -> k_bound k = Dropping x ->
    at_guard guards x (fun gd => g_users gd = ∅ /\ g_dead gd = true);
  si_dropper : forall i j ki kj x, ks !! i = Some ki -> ks !! j = Some kj ->
    k_bound ki = Dropping x -> k_bound kj = Dropping x -> i = j;
  si_rights : forall i k x h, ks !! i = Some k -> held !! i = Some h -> k_bound k = Using x -> rights k -> CamLock ∈ h;
  si_empty : forall i k x, ks !! i = Some k -> k_empty k = true -> bound_to (k_bound k) = Some x ->
    at_guard guards x (fun gd => g_state gd = None);
  si_open : forall i k h, ks !! i = Some k -> held !! i = Some h -> k_open k = true ->
    exists x, k_bound k = Using x /\ StateLock x ∈ h /\ at_guard guards x is_session;
  si_busy : busy <> None -> (exists i k, ks !! i = Some k /\ k_token k = true) \/
                            (exists x, at_guard guards x (fun gd => g_token gd = true));
  si_dead : forall x gd, guards !! x = Some gd -> g_dead gd = true -> g_token gd = true ->
    exists i k, ks !! i = Some k /\ k_bound k = Dropping x;
  si_lengths : length ks = length held }.

Definition py_inv (s : Store S) held ks : Prop :=
  exists md, life_run (s_log s) = Some md /\ shared_inv md (s_busy s) (s_guards s) held ks.

(** Facts after a change, from those before. *)
Lemma know_insert ks i k j kj : <[i := k]> ks !! j = Some kj -> (j = i /\ kj = k) \/ (j <> i /\ ks !! j = Some kj).
Proof. intros H%list_lookup_insert_Some. destruct H as [(-> & -> & _)|[? ?]]; auto. Qed.

Lemma guard_insert guards x gd y gy : <[x := gd]> guards !! y = Some gy -> (y = x /\ gy = gd) \/ (y <> x /\ guards !! y = Some gy).
Proof. intros H%lookup_insert_Some. destruct H as [[-> ->]|[? ?]]; auto. Qed.

Lemma guard_keep guards x gd' y (Q : Guard -> Prop) :
  at_guard guards y Q -> (forall gd, guards !! x = Some gd -> y = x -> Q gd -> Q gd') -> at_guard (<[x := gd']> guards) y Q.
Proof.
  intros (gy & Hg & HQ) Hnew. destruct (decide (y = x)) as [->|Hne].
  - exists gd'. rewrite lookup_insert_eq. eauto.
  - exists gy. by rewrite lookup_insert_ne.
Qed.

Lemma open_keep guards x gd' (B L : nat -> Prop) :
  (exists y, B y /\ L y /\ at_guard guards y is_session) ->
  (forall gd, guards !! x = Some gd -> B x -> L x -> is_session gd -> is_session gd') ->
  exists y, B y /\ L y /\ at_guard (<[x := gd']> guards) y is_session.
Proof.
  intros (y & HB & HL & Hy) Hnew. exists y. split_and!; try done. apply guard_keep; [done|]. intros gd Hg -> Hs. by apply (Hnew gd).
Qed.

(** A thread with a state to wind up is still there. *)
Lemma live_insert ks i k k' : ks !! i = Some k -> (forall m, k_live k = Some m -> k_live k' = Some m) ->
  (exists j kj m, ks !! j = Some kj /\ k_live kj = Some m) ->
  exists j kj m, <[i := k']> ks !! j = Some kj /\ k_live kj = Some m.
Proof.
  intros Hk Hm (j & kj & m & Hj & Hl). destruct (decide (j = i)) as [->|Hne].
  - exists i, k', m. rewrite list_lookup_insert_eq by (by eapply lookup_lt_Some). split; [done|]. apply Hm. congruence.
  - exists j, kj, m. by rewrite list_lookup_insert_ne.
Qed.

(** Whoever has a state still has it. *)
Lemma mode_insert guards ks i k x gd gd' k' : ks !! i = Some k -> guards !! x = Some gd -> g_state gd' = g_state gd -> k_live k' = k_live k ->
  (exists y, at_guard guards y (fun gd => g_state gd <> None)) \/ (exists j kj m, ks !! j = Some kj /\ k_live kj = Some m) ->
  (exists y, at_guard (<[x := gd']> guards) y (fun gd => g_state gd <> None)) \/
  (exists j kj m, <[i := k']> ks !! j = Some kj /\ k_live kj = Some m).
Proof.
  intros Hk Hg Hs Hl [[y Hy]|Hj]; [left|right].
  - exists y. apply guard_keep; [done|]. congruence.
  - eapply live_insert; [done|congruence|done].
Qed.

Lemma session_keep gd gd' : g_state gd' = g_state gd -> is_session gd -> is_session gd'.
Proof. intros E [st Hs]. exists st. congruence. Qed.

Lemma held_insert held i h' j hj : <[i := h']> held !! j = Some hj -> (j = i /\ hj = h') \/ (j <> i /\ held !! j = Some hj).
Proof. intros H%list_lookup_insert_Some. destruct H as [(-> & -> & _)|[? ?]]; auto. Qed.

(** The token and the one who drops are where they were. *)
Lemma token_insert guards ks i k x gd gd' k' : ks !! i = Some k -> guards !! x = Some gd -> g_token gd' = g_token gd -> k_token k' = k_token k ->
  (exists j kj, ks !! j = Some kj /\ k_token kj = true) \/ (exists y, at_guard guards y (fun gd => g_token gd = true)) ->
  (exists j kj, <[i := k']> ks !! j = Some kj /\ k_token kj = true) \/
  (exists y, at_guard (<[x := gd']> guards) y (fun gd => g_token gd = true)).
Proof.
  intros Hk Hg Ht Hl [(j & kj & Hj & Hjt)|[y Hy]]; [left|right].
  - destruct (decide (j = i)) as [->|Hne].
    + exists i, k'. rewrite list_lookup_insert_eq by (by eapply lookup_lt_Some). split; congruence.
    + exists j, kj. by rewrite list_lookup_insert_ne.
  - exists y. apply guard_keep; [done|]. congruence.
Qed.

Lemma token_moves guards ks i k x gd gd' k' : ks !! i = Some k -> guards !! x = Some gd -> k_token k = false -> k_token k' = g_token gd ->
  (exists j kj, ks !! j = Some kj /\ k_token kj = true) \/ (exists y, at_guard guards y (fun gd => g_token gd = true)) ->
  (exists j kj, <[i := k']> ks !! j = Some kj /\ k_token kj = true) \/
  (exists y, at_guard (<[x := gd']> guards) y (fun gd => g_token gd = true)).
Proof.
  intros Hk Hg Ht Hl [(j & kj & Hj & Hjt)|(y & gy & Hy & Hyt)].
  - left. exists j, kj. rewrite list_lookup_insert_ne; [done|]. intros ->. congruence.
  - destruct (decide (y = x)) as [->|Hne].
    + left. exists i, k'. rewrite list_lookup_insert_eq by (by eapply lookup_lt_Some). split; congruence.
    + right. exists y, gy. by rewrite lookup_insert_ne.
Qed.

Lemma token_insert_know guards ks i k k' : ks !! i = Some k -> k_token k' = k_token k ->
  (exists j kj, ks !! j = Some kj /\ k_token kj = true) \/ (exists y, at_guard guards y (fun gd => g_token gd = true)) ->
  (exists j kj, <[i := k']> ks !! j = Some kj /\ k_token kj = true) \/ (exists y, at_guard guards y (fun gd => g_token gd = true)).
Proof.
  intros Hk Hl [(j & kj & Hj & Hjt)|[y Hy]]; [left|right; by exists y].
  destruct (decide (j = i)) as [->|Hne].
  - exists i, k'. rewrite list_lookup_insert_eq by (by eapply lookup_lt_Some). split; congruence.
  - exists j, kj. by rewrite list_lookup_insert_ne.
Qed.

Lemma dropper_insert ks i k k' x : ks !! i = Some k -> k_bound k' = k_bound k \/ k_bound k <> Dropping x ->
  (exists j kj, ks !! j = Some kj /\ k_bound kj = Dropping x) -> exists j kj, <[i := k']> ks !! j = Some kj /\ k_bound kj = Dropping x.
Proof.
  intros Hk Hb (j & kj & Hj & Hjb). destruct (decide (j = i)) as [->|Hne].
  - exists i, k'. rewrite list_lookup_insert_eq by (by eapply lookup_lt_Some). split; [done|]. destruct Hb; congruence.
  - exists j, kj. by rewrite list_lookup_insert_ne.
Qed.

Section step.
#[local] Set Default Proof Using "All".
Context (md : Mode) (busy : option text) (guards : gmap nat Guard) (held : list (list PyLock)) (ks : list Know)
  (i : nat) (h : list PyLock) (k : Know).
Hypothesis (I : shared_inv md busy guards held ks) (Hh : held !! i = Some h) (Hk : ks !! i = Some k)
  (Hx : alone held i h).

(** The thread with the right to a guard is alone with it. *)
Lemma rights_unique j kj x : ks !! j = Some kj -> bound_to (k_bound k) = Some x -> bound_to (k_bound kj) = Some x ->
  rights k -> rights kj -> j = i.
Proof.
  intros Hj Hb Hbj Hr Hrj. destruct (decide (j = i)) as [|Hne]; [done|exfalso].
  destruct (lookup_lt_is_Some_2 held j) as [h' Hh'].
  { rewrite <- (si_lengths _ _ _ _ _ I). by eapply lookup_lt_Some. }
  destruct (k_bound k) as [|y|y] eqn:Eb, (k_bound kj) as [|z|z] eqn:Ebj; simplify_eq/=.
  - apply (Hx j h' Hh' Hne CamLock); [by eapply (si_rights _ _ _ _ _ I i k)|by eapply (si_rights _ _ _ _ _ I j kj)].
  - destruct (si_using _ _ _ _ _ I i k _ Hk Eb) as (gd & Hg & Hu), (si_dropping _ _ _ _ _ I j kj _ Hj Ebj) as (gd' & Hg' & Hu' & _).
    simplify_eq. set_solver.
  - destruct (si_using _ _ _ _ _ I j kj _ Hj Ebj) as (gd & Hg & Hu), (si_dropping _ _ _ _ _ I i k _ Hk Eb) as (gd' & Hg' & Hu' & _).
    simplify_eq. set_solver.
  - apply Hne. by eapply (si_dropper _ _ _ _ _ I j i).
Qed.

(** A thread with a state to wind up is the only one. *)
Lemma live_unique j kj m mj : k_live k = Some m -> ks !! j = Some kj -> k_live kj = Some mj -> j = i.
Proof.
  intros Hl Hj Hlj. destruct (bound_to (k_bound k)) as [x|] eqn:Eb, (bound_to (k_bound kj)) as [y|] eqn:Ey.
  - destruct (si_live_in _ _ _ _ _ I i k m x) as (gx & Hgx & Tx & _); [done..|].
    destruct (si_live_in _ _ _ _ _ I j kj mj y) as (gy & Hgy & Ty & _); [done..|].
    assert (x = y) as <- by (by eapply (si_guards _ _ _ _ _ I)).
    apply (rights_unique j kj x); try done; left; congruence.
  - destruct (si_live_in _ _ _ _ _ I i k m x) as (gx & Hgx & Tx & _); [done..|].
    destruct (si_apart _ _ _ _ _ I j kj x gx); try done. by eapply (si_live_out _ _ _ _ _ I).
  - destruct (si_live_in _ _ _ _ _ I j kj mj y) as (gy & Hgy & Ty & _); [done..|].
    destruct (si_apart _ _ _ _ _ I i k y gy); try done. by eapply (si_live_out _ _ _ _ _ I).
  - eapply (si_tokens _ _ _ _ _ I j i); try done; by eapply (si_live_out _ _ _ _ _ I).
Qed.

(** While a thread has the token, no other has a state and no guard has one. *)
Lemma token_no_state x gd : k_token k = true -> guards !! x = Some gd -> g_state gd = None.
Proof.
  intros Ht Hg. destruct (g_state gd) as [st|] eqn:E; [exfalso|done].
  destruct (si_state _ _ _ _ _ I x gd st Hg E). by eapply (si_apart _ _ _ _ _ I i k x gd).
Qed.

Lemma token_no_live j kj m : k_token k = true -> ks !! j = Some kj -> k_live kj = Some m -> j = i.
Proof.
  intros Ht Hj Hl. destruct (bound_to (k_bound kj)) as [x|] eqn:Eb.
  - destruct (si_live_in _ _ _ _ _ I j kj m x) as (gd & Hg & T & _); [done..|]. by destruct (si_apart _ _ _ _ _ I i k x gd).
  - eapply (si_tokens _ _ _ _ _ I j i); try done. by eapply (si_live_out _ _ _ _ _ I).
Qed.

(** With the token and nothing to wind up, the camera rests. *)
Lemma token_rests : k_token k = true -> k_live k = None -> md = Resting.
Proof.
  intros Ht Hl. destruct (decide (md = Resting)) as [|Hm]; [done|exfalso].
  destruct (si_mode _ _ _ _ _ I Hm) as [(x & gd & Hg & Hst)|(j & kj & m & Hj & Hlj)].
  - apply Hst. by eapply token_no_state.
  - assert (j = i) as -> by (by eapply token_no_live). congruence.
Qed.

(** While a thread has a state to wind up, no guard has one. *)
Lemma live_no_state m x gd : k_live k = Some m -> guards !! x = Some gd -> g_state gd = None.
Proof.
  intros Hl Hg. destruct (bound_to (k_bound k)) as [y|] eqn:Eb.
  - destruct (g_state gd) as [st|] eqn:E; [exfalso|done]. destruct (si_state _ _ _ _ _ I x gd st Hg E) as [T _].
    destruct (si_live_in _ _ _ _ _ I i k m y) as (gy & Hgy & Ty & Ey); [done..|].
    assert (y = x) as -> by (by eapply (si_guards _ _ _ _ _ I)). congruence.
  - eapply token_no_state; [|done]. by eapply (si_live_out _ _ _ _ _ I).
Qed.

(** ** Steps *)

Ltac changed :=
  repeat match goal with
         | H : <[_ := _]> ks !! _ = Some _ |- _ => apply know_insert in H as [[-> ->]|[? H]]
         | H : <[_ := _]> guards !! _ = Some _ |- _ => apply guard_insert in H as [[-> ->]|[? H]]
         end; simplify_eq/=.

Ltac open_inv := pose proof I as [Ifree Ifreeg Itt Igg Itg Istate Imode Iout Iin Isome Iuse Idrop Idrop1 Iright Iempty Iopen Ibusy Idead Ilen].
Ltac step_inv :=
  split; rewrite ?length_insert; intros; changed; try (by eauto); try congruence;
  try (eapply guard_keep; [by eauto|]; intros; simplify_eq/=; try done; try congruence; try tauto);
  try (eapply dropper_insert; [done|cbn; auto; by right; congruence|by eauto]);
  try (eapply token_insert_know; [done|cbn; congruence|by eauto]);
  try (eapply token_insert; [done|done|cbn; congruence|cbn; congruence|by eauto]).

(** Claiming a free camera. *)
Lemma claim_inv what : busy = None -> k_bound k = Outside -> k_live k = None ->
  shared_inv md (Some what) guards held (<[i := mkKnow (k_bound k) true (k_live k) (k_empty k) (k_open k)]> ks).
Proof.
  intros Hb Ho Hl. open_inv. step_inv.
  - by rewrite (Ifree i0 ki) in *.
  - by rewrite (Ifree j kj) in *.
  - by rewrite (Ifreeg x gd) in *.
  - destruct Isome as [?|?]; [done|by left|right]. by eapply live_insert.
  - left. exists i. eexists. by rewrite list_lookup_insert_eq by (by eapply lookup_lt_Some).
Qed.

(** The token goes. *)
Lemma release_inv : k_token k = true -> k_live k = None ->
  shared_inv md None guards held (<[i := mkKnow (k_bound k) false (k_live k) (k_empty k) (k_open k)]> ks).
Proof.
  intros Ht Hl. open_inv. step_inv.
  - destruct (k_token k0) eqn:E; [|done]. by destruct (Itt i0 i k0 k).
  - destruct (g_token gd) eqn:E; [|done]. by destruct (Itg i k x gd).
  - destruct Isome as [?|?]; [done|by left|right]. by eapply live_insert.
  - eapply (Iright i k); try done. unfold rights in *. cbn in *. intuition.
Qed.

(** An acquisition or session begins. *)
Lemma start_inv m : k_bound k = Outside -> k_token k = true -> k_live k = None ->
  shared_inv m busy guards held (<[i := mkKnow (k_bound k) (k_token k) (Some m) (k_empty k) (k_open k)]> ks).
Proof.
  intros Ho Ht Hl. pose proof (fun x gd => token_no_state x gd Ht) as Hn.
  pose proof (fun j kj m => token_no_live j kj m Ht) as Hu. open_inv. step_inv.
  - by rewrite (Hn x gd) in *.
  - by destruct (Hu i0 k0 m0).
  - by rewrite Ho in *.
  - right. exists i. eexists _, m. by rewrite list_lookup_insert_eq by (by eapply lookup_lt_Some).
Qed.

(** A state is wound up. *)
Lemma end_inv m : k_live k = Some m -> k_bound k <> Outside -> (forall x, k_bound k = Using x -> CamLock ∈ h) ->
  shared_inv Resting busy guards held (<[i := mkKnow (k_bound k) (k_token k) None true (k_open k)]> ks).
Proof.
  intros Hl Ho Hc. pose proof (fun x gd => live_no_state m x gd Hl) as Hn.
  pose proof (fun j kj mj => live_unique j kj m mj Hl) as Hu. open_inv. step_inv.
  - by rewrite (Hn x gd) in *.
  - by destruct (Hu i0 k0 m0).
  - destruct (Iin i k m x) as (gd & ? & _ & ?); [done..|]. by exists gd.
Qed.

(** The state goes into a new guard, with the token. *)
Lemma new_inv x st : guards !! x = None -> k_bound k = Outside -> k_token k = true -> k_live k = Some (guard_mode st) ->
  k_open k = false ->
  shared_inv md busy (<[x := mkGuard (Some st) true ∅ false]> guards) held
    (<[i := mkKnow (k_bound k) false None (k_empty k) (k_open k)]> ks).
Proof.
  intros Hf Ho Ht Hl Hp. pose proof (fun x gd => live_no_state _ x gd Hl) as Hn.
  pose proof (fun j kj mj => live_unique j kj _ mj Hl) as Hu. open_inv. step_inv.
  - by destruct (Itg i k x0 gx).
  - by destruct (Itg i k y gy).
  - left. exists x. eexists. by rewrite lookup_insert_eq.
  - eapply open_keep; [by eauto|]. congruence.
  - right. exists x. eexists. by rewrite lookup_insert_eq.
Qed.

(** The state is taken out of a guard, or there is none. *)
Lemma take_inv x gd : bound_to (k_bound k) = Some x -> k_token k = false -> k_live k = None -> k_open k = false ->
  StateLock x ∈ h -> (k_bound k = Using x -> CamLock ∈ h) -> guards !! x = Some gd ->
  shared_inv md busy (<[x := mkGuard None (g_token gd) (g_users gd) (g_dead gd)]> guards) held
    (<[i := mkKnow (k_bound k) (k_token k) (guard_mode <$> g_state gd)
              (match g_state gd with None => true | Some _ => k_empty k end) (k_open k)]> ks).
Proof.
  intros Hb Ht Hl Hp Hs Hc Hg. open_inv. step_inv.
  - destruct (g_state gd) as [st|] eqn:E; [|done]. destruct (Istate x gd st) as [_ ->]; [done..|]. by simplify_eq/=.
  - destruct (g_state gd) as [st|] eqn:E; [|done]. destruct (Istate x gd st) as [? _]; [done..|].
    eexists. by rewrite lookup_insert_eq.
  - destruct (g_state gd) as [st|] eqn:E.
    + right. exists i. eexists _, (guard_mode st). by rewrite list_lookup_insert_eq by (by eapply lookup_lt_Some).
    + destruct Isome as [[y Hy]|?]; [done|left|right; eapply live_insert; [done|congruence|done]].
      exists y. apply guard_keep; [done|]. congruence.
  - apply Hc. rewrite H1 in Hb. by injection Hb as ->.
  - eexists. by rewrite lookup_insert_eq.
  - eapply open_keep; [by eauto|]. intros gd' _ _ HL _. exfalso. by eapply Hx.
Qed.

(** What the state of the guard in use is. *)
Lemma peek_inv x gd : k_bound k = Using x -> StateLock x ∈ h -> guards !! x = Some gd ->
  shared_inv md busy guards held
    (<[i := mkKnow (k_bound k) (k_token k) (k_live k) (k_empty k)
              (match g_state gd with Some (GSes _) => true | _ => k_open k end)]> ks).
Proof.
  intros Hb Hs Hg. open_inv. step_inv.
  - destruct Isome as [?|?]; [done|by left|right]. by eapply live_insert.
  - destruct (g_state gd) as [[st|st]|] eqn:E; [by eauto| |by eauto]. exists x. split_and!; try done. exists gd. split; [done|]. by exists st.
Qed.

(** The token is taken out of a guard without state. *)
Lemma take_token_inv x gd b' e' : bound_to (k_bound k) = Some x -> k_token k = false -> k_live k = None -> k_empty k = true ->
  k_open k = false -> (k_bound k = Using x -> CamLock ∈ h) -> guards !! x = Some gd ->
  (b', e') = (k_bound k, k_empty k) \/ (b', e') = (Outside, false) ->
  shared_inv md busy (<[x := mkGuard (g_state gd) false (g_users gd) (g_dead gd)]> guards) held
    (<[i := mkKnow b' (g_token gd) (k_live k) e' (k_open k)]> ks).
Proof.
  intros Hb Ht Hl He Hp Hc Hg Hbe.
  assert (g_state gd = None) as Hst.
  { destruct (si_empty _ _ _ _ _ I i k x Hk He Hb) as (gd' & Hg' & ?). by simplify_eq. }
  assert (forall j kj m, ks !! j = Some kj -> j <> i -> k_live kj = Some m -> bound_to (k_bound kj) = Some x -> False) as Hu.
  { intros j kj m Hj Hne Hlj Hbj. apply Hne. apply (rights_unique j kj x); try done; unfold rights; [by auto|left; congruence]. }
  open_inv. destruct Hbe as [[= -> ->]|[= -> ->]]; step_inv.
  all: try (by destruct (Hu i0 k0 m)).
  all: try (by eapply (mode_insert _ _ _ _ x gd); [done..|auto]).
  all: try (eapply open_keep; [by eauto|]; intros; simplify_eq; by eapply session_keep).
  all: try (by eapply (token_moves _ _ _ k x gd); [done..|auto]).
  - apply Hc. rewrite H1 in Hb. by injection Hb as ->.
  - eapply dropper_insert; [done| |by eauto]. right. intros E. rewrite E in Hb. by injection Hb as ->.
Qed.

(** A method of a guard begins, ends; the guard is destroyed. *)
Lemma enter_inv x gd : k_bound k = Outside -> k_token k = false -> k_live k = None -> k_empty k = false -> k_open k = false ->
  guards !! x = Some gd -> g_dead gd = false ->
  shared_inv md busy (<[x := mkGuard (g_state gd) (g_token gd) (g_users gd ∪ {[i]}) false]> guards) held
    (<[i := mkKnow (Using x) (k_token k) (k_live k) (k_empty k) (k_open k)]> ks).
Proof.
  intros Ho Ht Hl He Hp Hg Hd. open_inv. step_inv.
  all: try (by eapply (mode_insert _ _ _ _ x gd); [done..|auto]).
  all: try (eapply open_keep; [by eauto|]; intros; simplify_eq; by eapply session_keep).
  - eexists. rewrite lookup_insert_eq. split; [done|]. cbn. set_solver.
  - set_solver.
  - destruct H4. congruence.
  - unfold rights in H2. cbn in H2. rewrite Ht, Hl, He in H2. by destruct H2 as [?|[?|?]].
Qed.

Lemma leave_inv x gd : k_bound k = Using x -> k_token k = false -> k_live k = None -> k_empty k = false -> k_open k = false ->
  guards !! x = Some gd ->
  shared_inv md busy (<[x := mkGuard (g_state gd) (g_token gd) (g_users gd ∖ {[i]}) (g_dead gd)]> guards) held
    (<[i := mkKnow Outside (k_token k) (k_live k) (k_empty k) (k_open k)]> ks).
Proof.
  intros Ho Ht Hl He Hp Hg. open_inv. step_inv.
  all: try (by eapply (mode_insert _ _ _ _ x gd); [done..|auto]).
  all: try (eapply open_keep; [by eauto|]; intros; simplify_eq; by eapply session_keep).
  - clear -H1 H4. set_solver.
  - destruct H4 as [-> ->]. split; [|done]. clear. set_solver.
Qed.

Lemma destroy_inv x gd : k_bound k = Outside -> k_token k = false -> k_live k = None -> k_empty k = false -> k_open k = false ->
  guards !! x = Some gd -> g_dead gd = false -> g_users gd = ∅ ->
  shared_inv md busy (<[x := mkGuard (g_state gd) (g_token gd) (g_users gd) true]> guards) held
    (<[i := mkKnow (Dropping x) (k_token k) (k_live k) (k_empty k) (k_open k)]> ks).
Proof.
  intros Ho Ht Hl He Hp Hg Hd Hu. open_inv. step_inv.
  all: try (by eapply (mode_insert _ _ _ _ x gd); [done..|auto]).
  all: try (eapply open_keep; [by eauto|]; intros; simplify_eq; by eapply session_keep).
  - eexists. by rewrite lookup_insert_eq.
  - destruct (Idrop i0 ki x0) as (gd' & ? & _ & ?); [done..|]. congruence.
  - destruct (Idrop j kj x0) as (gd' & ? & _ & ?); [done..|]. congruence.
  - exists i. eexists. by rewrite list_lookup_insert_eq by (by eapply lookup_lt_Some).
Qed.

(** Locks are released and taken. *)
Lemma unlock_inv l : l ∈ h -> py_may_release k l ->
  shared_inv md busy guards (<[i := filter (fun x => x <> l) h]> held) (<[i := py_after_release k l]> ks).
Proof.
  intros Hl Hr. set (k' := py_after_release k l).
  assert (k_bound k' = k_bound k /\ k_token k' = k_token k /\ k_live k' = k_live k /\
          (k_empty k' = true -> k_empty k = true) /\ (k_open k' = true -> k_open k = true)) as (Eb & Et & El & Ee & Eo).
  { subst k'. destruct k as [b tk lv em op], l, b; cbn; split_and!; done. }
  assert (forall x, k_bound k = Using x -> rights k' -> rights k /\ l <> CamLock) as Er.
  { intros x Hb Hrt. unfold rights in *. rewrite Et, El in Hrt. destruct l; subst k';
      destruct k as [b tk lv em op]; cbn in *; subst b; cbn in *; try (split; [intuition|done]).
    destruct Hr as [-> ->]. destruct Hrt as [?|[?|?]]; done. }
  assert (k_open k' = true -> forall x, l <> StateLock x) as Eol.
  { intros Ho x ->. subst k'. by destruct k. }
  clearbody k'. open_inv.
  split; rewrite ?length_insert; try done; intros; repeat match goal with
    | H : <[_ := _]> ks !! _ = Some _ |- _ => apply know_insert in H as [[-> ->]|[? H]]
    | H : <[_ := _]> held !! _ = Some _ |- _ => apply held_insert in H as [[? ->]|[? H]]
    end; rewrite ?Eb, ?Et, ?El in *; try (by eauto); try congruence.
  - destruct Isome as [?|?]; [done|by left|right]. eapply live_insert; [done|congruence|done].
  - destruct (Er x) as [? ?]; [done..|]. apply list_elem_of_filter. split; [by intros <-|]. by eapply (Iright i k).
  - destruct (Iopen i k h) as (x & ? & ? & ?); [by auto..|]. exists x. split_and!; try done.
    apply list_elem_of_filter. split; [|done]. intros <-. by eapply Eol.
  - eapply token_insert_know; [done|done|by auto].
  - eapply dropper_insert; [done|by left|by eauto].
Qed.

Lemma lock_inv l : shared_inv md busy guards (<[i := l :: h]> held) ks.
Proof.
  open_inv. split; rewrite ?length_insert; try done.
  - intros j kj x hj Hj Hhj Hb Hr. apply held_insert in Hhj as [[-> ->]|[? ?]]; [right|]; by eapply Iright.
  - intros j kj hj Hj Hhj Ho. apply held_insert in Hhj as [[-> ->]|[? ?]]; [|by eauto].
    destruct (Iopen i kj h) as (x & ? & ? & ?); [done..|]. exists x. split_and!; try done. by right.
Qed.
End step.
End invariant.
