(* ===== verification/PyThreads.v ===== *)
(** Python threads on a shared camera: no deadlock, and an exclusive owner. *)

From stdpp Require Import gmap list.
From S2P Require Import Prelude Gvcp Gvsp Channel Float64 Frame Reassembly Text Bootstrap Zip Url Emulator DeviceControl.
From S2P Require Import Errors Control DeviceSpec ControlLink Register Evaluator Formula NodeGraph NodeTotal Camera NodeAccess.
From S2P Require Import XmlGraph Description ControlPort Session SessionSpec PacketSize StreamOpen Acquire Locks PyCamera PyExclusive.

Section threads.
Context {S : Type} {AC : AcqCamera S} {PL : PyLink S}.

(** A camera call changes the camera and the log. *)
Lemma on_camera_inv {A} (m : AM S A) entry s s' r held ks md md' :
  on_camera m entry s = (s', r) -> life_run (s_log s ++ entry r) = Some md' ->
  shared_inv md' (s_busy s) (s_guards s) held ks -> life_run (s_log s) = Some md -> py_inv s' held ks.
Proof.
  unfold on_camera. intros E Hl Hi _. destruct (m (s_cam s)) as [[cam r']|]; simplify_eq; by exists md'.
Qed.

Lemma know_eta k : mkKnow (k_bound k) (k_token k) (k_live k) (k_empty k) (k_open k) = k.
Proof. by destruct k. Qed.

(** What the camera calls of an owner make of the log. *)
Lemma owner_call_inv {A} (m : AM S A) entry s s' r held ks i h k m' :
  py_inv s held ks -> held !! i = Some h -> ks !! i = Some k -> alone held i h ->
  k_bound k = Outside -> k_token k = true -> k_live k = None ->
  on_camera m entry s = (s', r) -> (exists l, entry r = [l] /\ life_step Resting l = Some (default Resting m')) ->
  py_inv s' held (<[i := mkKnow (k_bound k) (k_token k) m' (k_empty k) (k_open k)]> ks).
Proof.
  intros (md & Hl & I) Hh Hk Hx Ho Ht Hlv E (l & El & Es).
  assert (md = Resting) as -> by (by eapply (token_rests md _ _ _ _ i h k I Hh Hk Hx)).
  eapply on_camera_inv; [done|rewrite El; by erewrite life_run_snoc| |done].
  destruct m' as [m'|]; cbn.
  - by eapply (start_inv Resting _ _ _ _ i h k I Hh Hk Hx).
  - rewrite <- Hlv, know_eta, list_insert_id; done.
Qed.

Lemma end_call_inv {A} (m : AM S A) entry s s' r held ks i h k mode :
  py_inv s held ks -> held !! i = Some h -> ks !! i = Some k -> alone held i h ->
  k_live k = Some mode -> k_bound k <> Outside -> (forall x, k_bound k = Using x -> CamLock ∈ h) ->
  on_camera m entry s = (s', r) -> (exists l, entry r = [l] /\ life_step mode l = Some Resting) ->
  py_inv s' held (<[i := mkKnow (k_bound k) (k_token k) None true (k_open k)]> ks).
Proof.
  intros (md & Hl & I) Hh Hk Hx Hlv Ho Hc E (l & El & Es).
  assert (md = mode) as -> by (by eapply (si_live_mode _ _ _ _ _ I)).
  eapply on_camera_inv; [done|rewrite El; by erewrite life_run_snoc| |done]. by eapply (end_inv mode _ _ _ _ i h k I Hh Hk Hx).
Qed.

(** An operation on a guard that is there. *)
Lemma on_guard_inv {A} g (dflt : A) f (s s' : Store S) a held ks ks' md :
  on_guard g dflt f s = (s', a) -> life_run (s_log s) = Some md ->
  (forall gd, s_guards s !! g = Some gd ->
     shared_inv md (s_busy s) (<[g := fst (f gd)]> (s_guards s)) held (ks' (snd (f gd)))) ->
  (s_guards s !! g = None -> shared_inv md (s_busy s) (s_guards s) held (ks' dflt)) ->
  ks = ks' a -> py_inv s' held ks.
Proof.
  unfold on_guard. intros E Hl H1 H2 ->. destruct (s_guards s !! g) as [gd|] eqn:Eg.
  - specialize (H1 gd eq_refl). destruct (f gd) as [gd' a']. simplify_eq. by exists md.
  - simplify_eq. exists md. eauto.
Qed.

(** The guard a thread is bound to is there. *)
Lemma bound_there md busy guards held ks i k x : shared_inv md busy guards held ks -> ks !! i = Some k ->
  bound_to (k_bound k) = Some x -> is_Some (guards !! x).
Proof.
  intros I Hk Hb. destruct (k_bound k) eqn:E; simplify_eq/=.
  - destruct (si_using _ _ _ _ _ I i k x Hk E) as (gd & ? & _). by exists gd.
  - destruct (si_dropping _ _ _ _ _ I i k x Hk E) as (gd & ? & _). by exists gd.
Qed.

Lemma py_run_inv (s : Store S) held ks i h k o s' a :
  py_inv s held ks -> held !! i = Some h -> ks !! i = Some k -> alone held i h ->
  py_pre h k o -> py_run i o s = (s', a) -> py_inv s' held (<[i := py_after k o a]> ks).
Proof.
  intros Hinv Hh Hk Hx Hpre Hrun. pose proof Hinv as (md & Hl & I).
  assert (<[i := k]> ks = ks) as Hsame by (by apply list_insert_id).
  pose proof (fun x => bound_there _ _ _ _ _ i k x I Hk) as Hthere.
  assert (forall A (m : AM S A) entry r m', k_bound k = Outside -> k_token k = true -> k_live k = None ->
    on_camera m entry s = (s', r) -> (exists l, entry r = [l] /\ life_step Resting l = Some (default Resting m')) ->
    py_inv s' held (<[i := mkKnow (k_bound k) (k_token k) m' (k_empty k) (k_open k)]> ks)) as Hown
    by (intros; by eapply owner_call_inv).
  assert (forall A (m : AM S A) entry r mode, k_live k = Some mode -> k_bound k <> Outside ->
    (forall x, k_bound k = Using x -> CamLock ∈ h) -> on_camera m entry s = (s', r) ->
    (exists l, entry r = [l] /\ life_step mode l = Some Resting) ->
    py_inv s' held (<[i := mkKnow (k_bound k) (k_token k) None true (k_open k)]> ks)) as Hend
    by (intros; by eapply end_call_inv).
  destruct k as [b tk lv em op]. destruct o; cbn in Hpre; cbn [py_run] in Hrun; cbn [py_after].
  - destruct Hpre as (_ & -> & -> & ->). destruct (s_busy s) eqn:Eb; injection Hrun as <- <-.
    + rewrite Hsame. done.
    + exists md. split; [done|]. by eapply (claim_inv md _ _ _ _ i h _ I Hh Hk Hx).
  - destruct Hpre as (_ & -> & ->). injection Hrun as <- <-. exists md. split; [done|]. by eapply (release_inv md _ _ _ _ i h _ I Hh Hk Hx).
  - rewrite Hsame. eapply on_camera_inv; [done|by rewrite app_nil_r|done..].
  - destruct Hpre as (_ & -> & -> & ->). eapply (Hown _ _ _ _ None); try done. by eexists.
  - destruct Hpre as (_ & -> & -> & ->). eapply (Hown _ _ _ _ None); try done. by eexists.
  - rewrite Hsame. by injection Hrun as <- <-.
  - rewrite Hsame. by injection Hrun as <- <-.
  - destruct Hpre as (_ & -> & -> & ->). eapply Hown; try done. eexists. split; [done|]. by destruct (succeeded a).
  - destruct Hpre as (Hc & -> & Hb). eapply (Hend _ _ _ _ Acquiring); try done. by eexists.
  - destruct Hpre as (_ & -> & -> & ->). eapply Hown; try done. eexists. split; [done|]. by destruct (succeeded a).
  - destruct Hpre as (Hc & ->). rewrite Hsame. destruct (si_open _ _ _ _ _ I i _ h Hk Hh eq_refl) as (x & _ & _ & gd & Hg & st' & Hst).
    destruct (si_state _ _ _ _ _ I x gd _ Hg Hst) as [_ ->]. eapply (on_camera_inv _ _ _ _ _ _ _ Snapping Snapping); [done|by cbn; rewrite (life_run_snoc _ _ Snapping)|done..].
  - destruct Hpre as (Hc & -> & Hb). eapply (Hend _ _ _ _ Snapping); try done. by eexists.
  - destruct Hpre as (_ & -> & -> & ->). eapply (Hown _ _ _ _ None); try done. by eexists.
  - destruct Hpre as (-> & g & ->). destruct (on_camera _ _ s) as [s1 r] eqn:E. injection Hrun as <- <-.
    eapply (Hend _ _ _ _ (guard_mode st)); try done. eexists. split; [done|]. by destruct st.
  - destruct Hpre as (-> & -> & -> & ->). injection Hrun as <- <-. exists md. split; [done|].
    eapply (new_inv md _ _ _ _ i h _ I Hh Hk Hx); try done. apply not_elem_of_dom, is_fresh.
  - destruct Hpre as (Hb & -> & -> & -> & Hs & Hc). destruct (Hthere g Hb) as [gd Hg]. unfold on_guard in Hrun. rewrite Hg in Hrun.
    injection Hrun as <- <-. exists md. split; [done|]. by eapply (take_inv md _ _ _ _ i h _ I Hh Hk Hx).
  - destruct Hpre as (-> & Hs). destruct (Hthere g eq_refl) as [gd Hg]. unfold on_guard in Hrun. rewrite Hg in Hrun.
    injection Hrun as <- <-. exists md. split; [done|]. cbn. rewrite (insert_id (s_guards s)) by done.
    by eapply (peek_inv md _ _ _ _ i h _ I Hh Hk Hx).
  - destruct Hpre as (Hb & -> & -> & -> & -> & Hc). destruct (Hthere g Hb) as [gd Hg]. unfold on_guard in Hrun. rewrite Hg in Hrun.
    injection Hrun as <- <-. exists md. split; [done|]. pose proof (take_token_inv md _ _ _ _ i h _ I Hh Hk Hx g gd) as Ht.
    destruct b; (eapply Ht; [done..|]); auto.
  - destruct Hpre as (-> & -> & -> & -> & ->). unfold on_guard in Hrun. destruct (s_guards s !! g) as [gd|] eqn:Hg.
    + destruct (g_dead gd) eqn:Ed; injection Hrun as <- <-.
      * rewrite Hsame. exists md. split; [done|]. cbn. by rewrite (insert_id (s_guards s)).
      * exists md. split; [done|]. cbn. by eapply (enter_inv md _ _ _ _ i h _ I Hh Hk Hx).
    + injection Hrun as <- <-. by rewrite Hsame.
  - destruct Hpre as (-> & -> & -> & -> & ->). destruct (Hthere g eq_refl) as [gd Hg]. unfold on_guard in Hrun. rewrite Hg in Hrun.
    injection Hrun as <- <-. exists md. split; [done|]. by eapply (leave_inv md _ _ _ _ i h _ I Hh Hk Hx).
  - destruct Hpre as (-> & -> & -> & -> & ->). unfold on_guard in Hrun. destruct (s_guards s !! g) as [gd|] eqn:Hg.
    + destruct (g_dead gd) eqn:Ed; cbn in Hrun; [injection Hrun as <- <-; rewrite Hsame; exists md; split; [done|];
        cbn; by rewrite (insert_id (s_guards s))|].
      destruct (bool_decide (g_users gd = ∅)) eqn:Eu; cbn in Hrun; injection Hrun as <- <-.
      * exists md. split; [done|]. apply bool_decide_eq_true in Eu. cbn. by eapply (destroy_inv md _ _ _ _ i h _ I Hh Hk Hx).
      * rewrite Hsame. exists md. split; [done|]. cbn. by rewrite (insert_id (s_guards s)).
    + injection Hrun as <- <-. by rewrite Hsame.
Qed.

Abbreviation machine_of := (machine (L := PyLock) (Ans := PyAns) (St := Store S)).

Local Instance py_maintained : Maintained (L := PyLock) (Ans := PyAns) py_run py_pre py_after py_may_release py_after_release py_inv.
Proof.
  split.
  - intros. by eapply py_run_inv.
  - intros s held ks i h k l (md & Hl & I) Hh Hk Hx Hin Hr. exists md. split; [done|]. by apply unlock_inv.
  - intros s held ks i h k l (md & Hl & I) Hh Hk Hx. exists md. split; [done|]. by eapply lock_inv.
Qed.

Lemma client_typed (c : client) : py_typed [] know0 (client_prog c).
Proof. induction c as [|A c k IH]; cbn; [by split|]. by apply call_typed. Qed.

Lemma start_inv0 (cam : S) n : py_inv (mkStore cam None ∅ []) (replicate n []) (replicate n know0).
Proof.
  exists Resting. split; [done|].
  assert (forall i k, replicate n know0 !! i = Some k -> k = know0) as Hk by (intros i k H%lookup_replicate; tauto).
  split; cbn; intros; rewrite ?lookup_empty, ?length_replicate in *; repeat match goal with
    | H : replicate n know0 !! _ = Some _ |- _ => apply Hk in H as ->
    end; try done.
Qed.

Abbreviation py_disciplined := (disciplined (Ans := PyAns) py_rank py_pre py_after py_may_release py_after_release py_idle py_inv).

(** Every reachable state of the threads. *)
Lemma threads_disciplined cam clients xs (m : machine_of) :
  msteps py_run (py_threads cam clients) xs = Some m -> py_disciplined m.
Proof.
  intros Hm. eapply disciplined_steps; [apply _| |exact Hm]. unfold py_threads.
  apply (disciplined_pool py_rank py_pre py_after py_may_release py_after_release py_idle py_inv _ _ know0).
  - apply Forall_fmap, Forall_true. intros c. apply client_typed.
  - apply start_inv0.
Qed.

Lemma py_rank_bound l : (py_rank l <= 4)%nat.
Proof. destruct l; cbn; lia. Qed.

(** The camera is owned by at most one acquisition or session at a time. *)
Definition one_owner (s : Store S) : Prop :=
  exists mode, life_run (s_log s) = Some mode /\
  forall g gd st, s_guards s !! g = Some gd -> g_state gd = Some st ->
    is_Some (s_busy s) /\ mode = guard_mode st /\
    forall g' gd' st', s_guards s !! g' = Some gd' -> g_state gd' = Some st' -> g' = g.

(** C17: Python threads can not use a camera in a way an exclusive owner could
    not.  Whatever calls the threads make, also on each other's objects, and
    however they interleave: the connects, disconnects, starts, stops, session
    openings, snaps and closings the camera sees are in an order that a single
    owner of the Rust guards could make (in particular a camera is never
    disconnected while an acquisition runs, nor started twice, and a snap is
    only made on an open session), and an object that still has a running
    acquisition or session is the only one and has the camera marked busy. *)
Theorem py_calls_exclusive (cam : S) (clients : list client) (xs : list (nat * bool)) (m : machine_of) :
  msteps py_run (py_threads cam clients) xs = Some m -> one_owner (m_store m).
Proof.
  intros Hm. destruct (threads_disciplined cam clients xs m Hm) as (held & ks & [_ _ _ _ (md & Hl & I)]).
  exists md. split; [done|]. intros g gd st Hg Hst. destruct (si_state _ _ _ _ _ I g gd st Hg Hst) as [Ht Hmd].
  split_and!; [|done|].
  - destruct (s_busy (m_store m)) eqn:Eb; [by eexists|]. by rewrite (si_free_guards _ _ _ _ _ I g gd) in Ht.
  - intros g' gd' st' Hg' Hst'. destruct (si_state _ _ _ _ _ I g' gd' st' Hg' Hst') as [Ht' _].
    by eapply (si_guards _ _ _ _ _ I).
Qed.

(** C18: Python calls return.  Whatever calls the threads make and however
    they interleave, no schedule goes on for ever, and when no thread can take
    a step, even without any bounded wait giving up, every thread has finished:
    the interpreter's lock, the camera's and those of the objects never
    deadlock.  A finished pool leaves the camera busy only for an object that
    was not destroyed. *)
Theorem py_calls_return (cam : S) (clients : list client) :
  Acc (goes_to py_run) (py_threads cam clients) /\
  forall xs (m : machine_of), msteps py_run (py_threads cam clients) xs = Some m ->
    (exists i m', mstep py_run m (i, false) = Some m') \/
    (forallb finished (m_threads m) = true /\
     (s_busy (m_store m) <> None -> exists g gd, s_guards (m_store m) !! g = Some gd /\ g_dead gd = false /\ g_token gd = true)).
Proof.
  split; [apply machine_acc|]. intros xs m Hm. pose proof (threads_disciplined cam clients xs m Hm) as D.
  destruct (disciplined_moves py_run py_rank py_pre py_after py_may_release py_after_release py_idle py_inv m 4 D py_rank_bound)
    as [?|Hf]; [by left|right]. split; [done|]. intros Hb. destruct D as (held & ks & [_ Eh Ek Ht (md & Hl & I)]).
  assert (forall i k, ks !! i = Some k -> py_idle k) as Hidle.
  { intros i k Hk. apply lookup_lt_Some in Hk as Hlt.
    destruct (lookup_lt_is_Some_2 held i) as [h Hh]; [lia|]. destruct (lookup_lt_is_Some_2 (m_threads m) i) as [p Hp]; [lia|].
    specialize (Ht i h k p Hh Hk Hp). 
    assert (finished p = true) by (eapply forallb_forall; [exact Hf|]; apply list_elem_of_In; by eapply list_elem_of_lookup_2).
    destruct p; try done. by destruct Ht. }
  destruct (si_busy _ _ _ _ _ I Hb) as [(i & k & Hk & Htk)|(g & gd & Hg & Htk)].
  - destruct (Hidle i k Hk). congruence.
  - exists g, gd. split_and!; try done. destruct (g_dead gd) eqn:Ed; [exfalso|done].
    destruct (si_dead _ _ _ _ _ I g gd Hg Ed Htk) as (i & k & Hk & Hbd).
    destruct (Hidle i k Hk). congruence.
Qed.

(** * The twins *)

(** Start and stop, with the frame channel that is left; open, snap any number
    of times, each with its timeout, and close. *)
Definition twin_acquisition (cfg : OpenConfig) : AM S nat :=
  '((st, frames) : AcqState * nat) ← AcqState_start cfg; _ ← AcqState_stop st; mret frames.
Definition rust_acquisition (cfg : OpenConfig) : AM S nat := a ← Acquisition_start cfg; Acquisition_stop a.

Fixpoint twin_snaps (st : SessionState) (timeouts : list Z) : AM S (list (result GenicamError Frame)) :=
  match timeouts with
  | [] => mret []
  | t :: timeouts => r ← attempt (SessionState_snap st t); rs ← twin_snaps st timeouts; mret (r :: rs)
  end.
Fixpoint rust_snaps (sn : SnapshotSession) (timeouts : list Z) : AM S (list (result GenicamError Frame)) :=
  match timeouts with
  | [] => mret []
  | t :: timeouts => r ← attempt (snap sn t); rs ← rust_snaps sn timeouts; mret (r :: rs)
  end.

Definition twin_session (cfg : OpenConfig) (timeouts : list Z) : AM S (list (result GenicamError Frame)) :=
  st ← SessionState_open cfg; rs ← twin_snaps st timeouts; _ ← SessionState_close st; mret rs.
Definition rust_session (cfg : OpenConfig) (timeouts : list Z) : AM S (list (result GenicamError Frame)) :=
  sn ← SnapshotSession_open cfg; rs ← rust_snaps sn timeouts; _ ← SnapshotSession_drop sn; mret rs.

Ltac twin_step :=
  match goal with
  | |- context [let '(_, _) := ?m ?c in _] => destruct (m c) as [? ?]; cbn -[str]; try done
  | |- context [match ?m ?c with Some _ => _ | None => _ end] => destruct (m c) as [[? [?|?]]|]; cbn -[str]; try done
  | |- context [if ?b then _ else _] => destruct b; cbn -[str]; try done
  end.

Lemma twin_acquisition_eq cfg s : twin_acquisition cfg s = rust_acquisition cfg s.
Proof.
  unfold twin_acquisition, rust_acquisition, AcqState_start, AcqState_stop, Acquisition_start, Acquisition_stop, Acquisition_drop, stop_camera,
    lock_params, logged, sure, attempt, mbind, AM_bind, am_fail, mret, AM_ret, option_bind.
  repeat twin_step.
Qed.

(** The state that stands for a session. *)
Definition twin_of (sn : SnapshotSession) : SessionState :=
  {| se_stream := sn_stream sn; se_frames := sn_frames sn; se_auto_stops := sn_auto_stops sn; se_restore_mode := sn_restore_mode sn |}.

Ltac twin_open :=
  unfold SessionState_open, SnapshotSession_open, arm_single_frame, restore, SessionState_close, SnapshotSession_drop,
    lock_params, logged, sure, attempt, mbind, AM_bind, am_fail, mret, AM_ret, option_bind.

Lemma twin_open_eq cfg s :
  SessionState_open cfg s =
  match SnapshotSession_open cfg s with
  | Some (s', Ok sn) => Some (s', Ok (twin_of sn))
  | Some (s', Err e) => Some (s', Err e)
  | None => None
  end.
Proof.
  twin_open. destruct (ac_get_enum _ s) as [[s1 [mode|e]]|]; cbn -[str]; [|by repeat twin_step|done].
  destruct (bool_decide _); cbn -[str]; [by repeat twin_step|].
  destruct (ac_set_enum _ _ s1) as [[s2 [[]|e]]|]; cbn -[str]; by repeat twin_step.
Qed.

Lemma twin_snap_eq sn t s : SessionState_snap (twin_of sn) t s = snap sn t s.
Proof. done. Qed.

Lemma twin_snaps_eq sn timeouts : forall s, twin_snaps (twin_of sn) timeouts s = rust_snaps sn timeouts s.
Proof.
  induction timeouts as [|t timeouts IH]; intros s; [done|]. cbn [twin_snaps rust_snaps].
  unfold attempt, mbind, AM_bind, option_bind. rewrite twin_snap_eq. destruct (snap sn t s) as [[s' r]|]; [|done].
  by rewrite IH.
Qed.

Lemma twin_close_eq sn s : SessionState_close (twin_of sn) s = SnapshotSession_drop sn s.
Proof. by destruct sn as [? ? ? []]. Qed.

(** C19: the Python twins are in lockstep with the Rust guards.  On any camera
    and from any state, starting and stopping an acquisition through the
    Python state, and opening a session, taking any number of frames and
    closing it, make the same calls with the same outcome as the Rust
    [Acquisition] and [SnapshotSession] do: the calls on the device and those on
    the frame channel, which is subscribed to with the same capacity at the same
    point, emptied before each frame is asked for and waited on with the same
    timeout. *)
Theorem py_twins_lockstep (cfg : OpenConfig) (timeouts : list Z) (s : S) :
  twin_acquisition cfg s = rust_acquisition cfg s /\ twin_session cfg timeouts s = rust_session cfg timeouts s.
Proof.
  split; [apply twin_acquisition_eq|]. unfold twin_session, rust_session, mbind, AM_bind. rewrite twin_open_eq.
  destruct (SnapshotSession_open cfg s) as [[s1 [sn|e]]|]; [|done..]. rewrite twin_snaps_eq.
  destruct (rust_snaps sn timeouts s1) as [[s2 [rs|e]]|]; [|done..]. by rewrite twin_close_eq.
Qed.
End threads.

(** * Example: an acquisition, and a disconnect that comes too early *)

Definition ex_channel : StreamChannel :=
  {| sh_channel_base := 0; sh_packet_size := 1500; sh_local_addr := (V4 0, 0); sh_payload_size := 100;
     sh_resend_enabled := true; sh_tick_frequency := 0 |}.

Definition ex_oracle : Oracle :=
  {| o_int _ := Ok 100; o_text _ := Ok (str "Continuous"); o_unit _ := Ok tt; o_open _ := Ok ex_channel;
     o_frames t := length t; o_frame _ := None |}.

Definition ex_camera_calls : AcqCamera (list Call) := Trace_acq ex_oracle.

Definition ex_link : PyLink (list Call) :=
  {| pl_feature _ := fun s => Some (s, Ok AnsUnit); pl_connect := fun s => Some (s, Ok tt);
     pl_disconnect _ := fun s => Some (s, Ok tt); pl_is_connected _ := true; pl_device_info _ := Err Disconnected |}.

Definition ex_clients : list client :=
  [Invoke (CallStart (build_stream_config 0 8 None None true))
     (fun r => match r with Ok (g, _) => Invoke (CallStop g) (fun _ => Finish) | Err _ => Finish end);
   Invoke (CallDisconnect f64_zero) (fun _ => Finish)].

(** The second thread tries after the first has started. *)
Definition ex_schedule : list (nat * bool) :=
  replicate 11 (0%nat, false) ++ replicate 5 (1%nat, false) ++ replicate 18 (0%nat, false).

Lemma py_calls_exclusive_witness :
  exists m, msteps (py_run (AC := ex_camera_calls) (PL := ex_link)) (py_threads [] ex_clients) ex_schedule = Some m /\
    one_owner (m_store m) /\ s_log (m_store m) = [LStart true; LStop] /\ s_busy (m_store m) = None.
Proof.
  destruct (msteps (py_run (AC := ex_camera_calls) (PL := ex_link)) (py_threads [] ex_clients) ex_schedule) as [m|] eqn:E;
    [|vm_compute in E; discriminate].
  exists m. split; [reflexivity|]. split; [exact (py_calls_exclusive (AC := ex_camera_calls) (PL := ex_link) [] ex_clients ex_schedule m E)|].
  revert E. vm_compute. intros [= <-]. split; reflexivity.
Defined.

Lemma py_calls_return_witness :
  exists m, msteps (py_run (AC := ex_camera_calls) (PL := ex_link)) (py_threads [] ex_clients) ex_schedule = Some m /\
    ((exists i m', mstep (py_run (AC := ex_camera_calls) (PL := ex_link)) m (i, false) = Some m') \/
     (forallb finished (m_threads m) = true /\
      (s_busy (m_store m) <> None -> exists g gd, s_guards (m_store m) !! g = Some gd /\ g_dead gd = false /\ g_token gd = true))).
Proof.
  destruct (msteps (py_run (AC := ex_camera_calls) (PL := ex_link)) (py_threads [] ex_clients) ex_schedule) as [m|] eqn:E;
    [|vm_compute in E; discriminate].
  exists m. split; [reflexivity|].
  exact (proj2 (py_calls_return (AC := ex_camera_calls) (PL := ex_link) [] ex_clients) ex_schedule m E).
Defined.

(** A call that only looks at the camera waits for its mutex with the
    interpreter's lock: while another thread is in a call to the device, every
    other thread of the interpreter stands still. *)
Definition stall_clients : list client :=
  [Invoke (CallFeature (CallExecute (str "TriggerSoftware"))) (fun _ => Finish);
   Invoke CallIsConnected (fun _ => Finish);
   Invoke (CallIsEnded 0) (fun _ => Finish)].

Definition stalled (m : machine (L := PyLock) (Ans := PyAns) (St := Store (list Call))) : option nat * option nat * bool * bool :=
  let stuck i := match mstep (py_run (AC := ex_camera_calls) (PL := ex_link)) m (i, true) with None => true | Some _ => false end in
  (m_locks m !! CamLock, m_locks m !! Gil, stuck 1%nat, stuck 2%nat).

Lemma look_stalls_interpreter :
  stalled <$> msteps (py_run (AC := ex_camera_calls) (PL := ex_link)) (py_threads [] stall_clients)
                [(0%nat, false); (0%nat, false); (0%nat, false); (1%nat, false)]
  = Some (Some 0%nat, Some 1%nat, true, true).
Proof. vm_compute. reflexivity. Qed.
