(* ===== verification/ThreadLife.v ===== *)
(** A worker thread and its owner: the model of [src/src/thread_util.rs], of
    the start-up in [spawn] and the loop of [run] in [src/src/gige/runner.rs]
    (the stream worker's are alike), and of [GigECamera::disconnect] in
    [src/src/gige/mod.rs].

    Owner and worker run concurrently; every access to the flags, the channel
    of commands, the exit handle and the waker is one step.  A waker that was
    woken makes the worker's current or next poll return.  What happens inside
    a pass of the worker is the environment's choice: it goes on, loses
    control, or panics; [Control] and [Reassembly] model the passes. *)

From stdpp Require Import gmap list.
From S2P Require Import Prelude.

#[local] Set Warnings "-clear-no-such-hyp".

(** The worker: applying its thread options, the loop, [shutdown] with
    [has_died], and the locals of the thread going away: the runner with the
    receiver of commands, then the [ExitGuard].  Before a runner is built the
    receiver belongs to the closure and outlives the guard; nobody can have
    sent a command by then. *)
Inductive WorkPc := WkApply | WkCheck | WkPoll | WkPass | WkTeardown | WkFlagged | WkDropRx | WkExitFlag | WkExitSet | WkJoinable.

(** The owner: waiting for the start-up, connected, in [disconnect] (its
    [send], the bounded wait, [request_stop]), and dropping the handle. *)
Inductive OwnPc :=
| OwStarting | OwConnected
| OwCheck | OwPush | OwWake | OwRecheck | OwWait | OwStop | OwStopWake
| OwDrop | OwDropWake | OwJoin | OwDone.

Record Thr := mkThr {
  t_alive : bool;
  t_should_die : bool;
  t_exited : bool;
  t_woken : bool;
  t_shutdown : bool;
  t_open : bool;
  t_started : option bool;
  t_lost : bool;
  t_worker : WorkPc;
  t_owner : OwnPc }.

(** [ThreadHandle::new] and its twin in the thread that was spawned. *)
Definition ThreadHandle_new : Thr := mkThr true false false false false true None false WkApply OwStarting.

(** What happens next.  [External] events are the environment's; the other
    steps need nothing from it.  A poll that returns for a datagram or its
    timeout may have taken the wake-up with it. *)
Inductive External := PollReturns (took_wake : bool) | PollInterrupted | PollFails | LosesControl | Deadline.

Inductive ThrStep :=
| Applied (ok : bool)
| Worker
| Outside (e : External)
| PassPanics
| OwnerStep
| OwnerDisconnects
| OwnerDrops.

(** Where the two are. *)
Definition worker_to (pc : WorkPc) (t : Thr) : Thr :=
  mkThr (t_alive t) (t_should_die t) (t_exited t) (t_woken t) (t_shutdown t) (t_open t) (t_started t) (t_lost t) pc (t_owner t).
Definition owner_to (pc : OwnPc) (t : Thr) : Thr :=
  mkThr (t_alive t) (t_should_die t) (t_exited t) (t_woken t) (t_shutdown t) (t_open t) (t_started t) (t_lost t) (t_worker t) pc.

(** [wake]; the two halves of [has_died]; the flag of [request_stop]; the
    command of [disconnect] and the receiver it goes to. *)
Definition wake (t : Thr) : Thr :=
  mkThr (t_alive t) (t_should_die t) (t_exited t) true (t_shutdown t) (t_open t) (t_started t) (t_lost t) (t_worker t) (t_owner t).
Definition clear_alive (t : Thr) : Thr :=
  mkThr false (t_should_die t) (t_exited t) (t_woken t) (t_shutdown t) (t_open t) (t_started t) (t_lost t) (t_worker t) (t_owner t).
Definition fulfill_exited (t : Thr) : Thr :=
  mkThr (t_alive t) (t_should_die t) true (t_woken t) (t_shutdown t) (t_open t) (t_started t) (t_lost t) (t_worker t) (t_owner t).
Definition set_should_die (t : Thr) : Thr :=
  mkThr (t_alive t) true (t_exited t) (t_woken t) (t_shutdown t) (t_open t) (t_started t) (t_lost t) (t_worker t) (t_owner t).
Definition send_shutdown (t : Thr) : Thr :=
  mkThr (t_alive t) (t_should_die t) (t_exited t) (t_woken t) true (t_open t) (t_started t) (t_lost t) (t_worker t) (t_owner t).
Definition drop_receiver (t : Thr) : Thr :=
  mkThr (t_alive t) (t_should_die t) (t_exited t) (t_woken t) (t_shutdown t) false (t_started t) (t_lost t) (t_worker t) (t_owner t).
Definition take_wake (t : Thr) : Thr :=
  mkThr (t_alive t) (t_should_die t) (t_exited t) false (t_shutdown t) (t_open t) (t_started t) (t_lost t) (t_worker t) (t_owner t).

(** The worker's own next step: [run], then [shutdown]'s [has_died], then the
    end of the thread with the [ExitGuard]'s. *)
Definition thr_worker (t : Thr) : option Thr :=
  match t_worker t with
  | WkCheck => Some (worker_to (if t_should_die t || t_lost t then WkTeardown else WkPoll) t)
  | WkPoll => if t_woken t then Some (worker_to WkPass (take_wake t)) else None
  | WkPass => Some (worker_to (if t_shutdown t then WkTeardown else WkCheck) t)
  | WkTeardown => Some (worker_to WkFlagged (clear_alive t))
  | WkFlagged => Some (worker_to WkDropRx (fulfill_exited t))
  | WkDropRx => Some (worker_to WkExitFlag (drop_receiver t))
  | WkExitFlag => Some (worker_to WkExitSet (clear_alive t))
  | WkExitSet => Some (worker_to WkJoinable (fulfill_exited t))
  | WkApply | WkJoinable => None
  end.

(** The thread has ended, so [join] returns. *)
Definition joinable (t : Thr) : bool := match t_worker t with WkJoinable => true | _ => false end.

(** Dropping the owner's handle: stop, wake, join. *)
Definition thr_drop (t : Thr) : option Thr :=
  match t_owner t with
  | OwDrop => Some (owner_to OwDropWake (set_should_die t))
  | OwDropWake => Some (owner_to OwJoin (wake t))
  | OwJoin => if joinable t then Some (owner_to OwDone t) else None
  | _ => None
  end.

(** The owner's own next step: the start-up, [disconnect] with its [send],
    [wait_exited] and [request_stop], the drop. *)
Definition thr_owner (t : Thr) : option Thr :=
  match t_owner t with
  | OwStarting =>
      match t_started t with
      | Some true => Some (owner_to OwConnected t)
      | Some false => Some (owner_to OwDrop t)
      | None => if joinable t then Some (owner_to OwDrop t) else None
      end
  | OwConnected => None
  | OwCheck => Some (owner_to (if t_alive t then OwPush else OwStop) t)
  | OwPush => if t_open t then Some (owner_to OwWake (send_shutdown t)) else Some (owner_to OwStop t)
  | OwWake => Some (owner_to OwRecheck (wake t))
  | OwRecheck => Some (owner_to (if t_alive t then OwWait else OwStop) t)
  | OwWait => if t_exited t then Some (owner_to OwStop t) else None
  | OwStop => Some (owner_to OwStopWake (set_should_die t))
  | OwStopWake => Some (owner_to OwDrop (wake t))
  | OwDrop | OwDropWake | OwJoin => thr_drop t
  | OwDone => None
  end.

Definition thr_step (t : Thr) (x : ThrStep) : option Thr :=
  let '(mkThr alive die exited woken shutdown opened started lost worker owner) := t in
  match x with
  | Applied ok =>
      match worker with
      | WkApply => Some (mkThr alive die exited woken shutdown opened (Some ok) lost (if ok then WkCheck else WkExitFlag) owner)
      | _ => None
      end
  | Worker => thr_worker t
  | Outside e =>
      match e, worker, owner with
      | PollReturns took, WkPoll, _ =>
          Some (mkThr alive die exited (woken && negb took) shutdown opened started lost WkPass owner)
      | PollInterrupted, WkPoll, _ => Some (mkThr alive die exited woken shutdown opened started lost WkCheck owner)
      | PollFails, WkPoll, _ => Some (mkThr alive die exited woken shutdown opened started lost WkTeardown owner)
      | LosesControl, WkPass, _ => Some (mkThr alive die exited woken shutdown opened started true WkCheck owner)
      | Deadline, _, OwWait => Some (mkThr alive die exited woken shutdown opened started lost worker OwStop)
      | _, _, _ => None
      end
  | PassPanics =>
      match worker with
      | WkApply => Some (mkThr alive die exited woken shutdown opened started lost WkExitFlag owner)
      | WkPass => Some (mkThr alive die exited woken shutdown opened started lost WkDropRx owner)
      | _ => None
      end
  | OwnerStep => thr_owner t
  | OwnerDisconnects =>
      match owner with
      | OwConnected => Some (mkThr alive die exited woken shutdown opened started lost worker OwCheck)
      | _ => None
      end
  | OwnerDrops =>
      match owner with
      | OwConnected => Some (mkThr alive die exited woken shutdown opened started lost worker OwDrop)
      | _ => None
      end
  end.

Fixpoint thr_steps (t : Thr) (xs : list ThrStep) : option Thr :=
  match xs with [] => Some t | x :: xs => t ← thr_step t x; thr_steps t xs end.

(** * Every run ends *)

Definition own_rank (pc : OwnPc) : nat :=
  match pc with
  | OwDone => 0 | OwJoin => 1 | OwDropWake => 2 | OwDrop => 3 | OwStopWake => 4 | OwStop => 5 | OwWait => 6
  | OwRecheck => 7 | OwWake => 8 | OwPush => 9 | OwCheck => 10 | OwConnected => 11 | OwStarting => 12
  end.

Definition work_rank (pc : WorkPc) : nat :=
  match pc with
  | WkJoinable => 0 | WkExitSet => 1 | WkExitFlag => 2 | WkDropRx => 3 | WkFlagged => 4 | WkTeardown => 5
  | WkPoll => 6 | WkCheck => 7 | WkPass => 8 | WkApply => 9
  end.

Definition thr_measure (t : Thr) : nat :=
  20 * own_rank (t_owner t) + (if t_woken t then 6 else 0) + work_rank (t_worker t).

Definition external (x : ThrStep) : bool := match x with Outside _ => true | _ => false end.
Fixpoint externals (xs : list ThrStep) : nat :=
  match xs with [] => 0 | x :: xs => (if external x then 1 else 0) + externals xs end.

(** The cases of a step: on the worker's place, or on the owner's. *)
Ltac thr_cases :=
  match goal with
  | |- thr_step _ ?x = _ -> _ => destruct x as [ok| |[took| | | |]| | | |];
      unfold thr_step, thr_worker, thr_owner, thr_drop, joinable; cbn -[Nat.mul]
  end;
  match goal with
  | |- match ?w with WkApply => _ | _ => _ end = _ -> _ => destruct w
  | |- match ?o with OwDone => _ | _ => _ end = _ -> _ => destruct o
  end; intros ?; repeat (case_match; simplify_eq/=); try done; simplify_eq/=.

Lemma thr_step_measure t x t' :
  thr_step t x = Some t' -> (thr_measure t' < thr_measure t + (if external x then 3 else 0))%nat.
Proof.
  destruct t as [alive die exited woken shutdown opened started lost worker owner]. unfold thr_measure. thr_cases; lia.
Qed.

Lemma thr_steps_bounded xs : forall t t', thr_steps t xs = Some t' -> (length xs <= thr_measure t + 3 * externals xs)%nat.
Proof.
  induction xs as [|x xs IH]; intros t t' H; cbn [thr_steps externals length] in *; [lia|].
  destruct (thr_step t x) as [t1|] eqn:E; [|done]. cbn in H.
  apply thr_step_measure in E. specialize (IH t1 t' H). destruct (external x); lia.
Qed.

(** * Nobody waits for ever *)

(** The worker can still go back to its poll. *)
Definition looping (pc : WorkPc) : bool := match pc with WkApply | WkCheck | WkPoll | WkPass => true | _ => false end.

Record thr_inv (t : Thr) : Prop := {
  th_alive : looping (t_worker t) = true -> t_alive t = true;
  th_flag : t_worker t = WkExitSet \/ t_worker t = WkJoinable -> t_alive t = false;
  th_gone : t_worker t = WkJoinable -> t_exited t = true;
  th_apply : t_worker t = WkApply -> t_started t = None /\ t_owner t = OwStarting /\ t_shutdown t = false;
  th_started : t_worker t = WkCheck \/ t_worker t = WkPoll \/ t_worker t = WkPass -> t_started t <> None;
  th_die : t_should_die t = true -> t_worker t = WkPoll ->
    t_woken t = true \/ t_owner t = OwStopWake \/ t_owner t = OwDropWake;
  th_shutdown : t_shutdown t = true -> t_worker t = WkPoll \/ t_worker t = WkCheck ->
    t_woken t = true \/ t_owner t = OwWake \/ t_lost t = true;
  th_lost : t_worker t = WkPoll -> t_lost t = false;
  th_waits : t_owner t = OwWake \/ t_owner t = OwRecheck \/ t_owner t = OwWait -> t_shutdown t = true;
  th_stops : t_owner t = OwStopWake \/ t_owner t = OwDropWake \/ t_owner t = OwJoin -> t_should_die t = true;
  th_done : t_owner t = OwDone -> t_worker t = WkJoinable }.

Lemma thr_inv_new : thr_inv ThreadHandle_new.
Proof. split; cbn; naive_solver. Qed.

(** Each part of the invariant is kept on its own, or with the one before. *)
Ltac keep F :=
  generalize F; match goal with H : thr_step _ _ = _ |- _ => revert H end;
  match goal with t : Thr, t' : Thr |- _ => destruct t as [alive die exited woken shutdown opened started lost worker owner] end;
  cbn [t_worker t_owner t_alive t_should_die t_exited t_woken t_shutdown t_open t_started t_lost];
  thr_cases; cbn in *; try done;
  repeat match goal with H : _ || _ = false |- _ => apply orb_false_elim in H as [? ?] end; intuition congruence.

Lemma thr_inv_step t x t' : thr_inv t -> thr_step t x = Some t' -> thr_inv t'.
Proof.
  intros I H. split.
  - keep (th_alive t I).
  - keep (th_flag t I).
  - keep (th_gone t I).
  - keep (th_apply t I).
  - keep (th_started t I).
  - keep (th_die t I).
  - keep (conj (th_apply t I) (th_shutdown t I)).
  - keep (th_lost t I).
  - keep (th_waits t I).
  - keep (th_stops t I).
  - keep (th_done t I).
Qed.

Lemma thr_inv_steps xs : forall t t', thr_inv t -> thr_steps t xs = Some t' -> thr_inv t'.
Proof.
  induction xs as [|x xs IH]; intros t t' I H; cbn in H; [by injection H as <-|].
  destruct (thr_step t x) as [t1|] eqn:E; [|done]. eapply IH; [|done]. by eapply thr_inv_step.
Qed.

(** Without the environment only a finished pair stands still. *)
Lemma thr_quiet t : thr_inv t -> (forall x, external x = false -> thr_step t x = None) ->
  t_owner t = OwDone /\ t_worker t = WkJoinable.
Proof.
  destruct t as [alive die exited woken shutdown opened started lost worker owner]. intros [I1 I1f I2 I2a I3 I4 I5 I6 I7 I8 I9] Hq. cbn in *.
  pose proof (Hq (Applied true) eq_refl) as Ha. pose proof (Hq Worker eq_refl) as Hw.
  pose proof (Hq OwnerStep eq_refl) as Ho. pose proof (Hq OwnerDrops eq_refl) as Hd. clear Hq.
  unfold thr_step, thr_worker, thr_owner, thr_drop, joinable in *. cbn in *.
  destruct worker; try done; cbn in *.
  - pose proof (I3 ltac:(auto)). destruct woken; [done|]. exfalso. destruct owner; try done.
    + by destruct started as [[]|].
    + by destruct opened.
    + destruct (I5 (I7 ltac:(auto)) ltac:(auto)) as [?|[?|El]]; try done. by rewrite (I6 eq_refl) in El.
    + by destruct (I4 (I8 ltac:(auto)) eq_refl) as [?|[?|?]].
    + by specialize (I9 eq_refl).
  - rewrite (I2 eq_refl) in Ho. destruct owner, started as [[]|], alive, opened; done.
Qed.

(** C13: a worker thread is always joined and its owner never waits for ever.
    Whatever the worker's passes do (also when one panics or the thread
    options are refused) and whenever the owner disconnects or drops the
    handle: a run takes a bounded number of steps beside those the environment
    causes; the owner is done only after the thread has ended; and when no
    step is left that needs nothing from the environment, no poll timeout and
    no deadline included, the owner is done, the thread has ended, and its
    exit was reported.  No stop request or shutdown message is lost between
    the worker's look at the flag and its poll. *)
Theorem worker_joined (xs : list ThrStep) (t : Thr) :
  thr_steps ThreadHandle_new xs = Some t ->
  (length xs <= 249 + 3 * externals xs)%nat /\
  (t_owner t = OwDone -> t_worker t = WkJoinable) /\
  ((forall x, external x = false -> thr_step t x = None) ->
   t_owner t = OwDone /\ t_worker t = WkJoinable /\ t_alive t = false /\ t_exited t = true).
Proof.
  intros H. pose proof (thr_inv_steps xs _ _ thr_inv_new H) as I.
  split; [|split; [apply I|]].
  - apply thr_steps_bounded in H. exact H.
  - intros Hq. destruct (thr_quiet t I Hq) as [? Hw].
    split_and!; [done|done|apply (th_flag t I); auto|by apply (th_gone t I)].
Qed.

(** A disconnect that comes while the worker is between its look at the stop
    flag and its poll. *)
Definition ex_thread : list ThrStep :=
  [Applied true; Worker; OwnerStep; OwnerDisconnects; OwnerStep; OwnerStep; OwnerStep; OwnerStep;
   Worker; Worker; Worker; Worker; OwnerStep; OwnerStep; OwnerStep; OwnerStep; OwnerStep; Worker; Worker; Worker; OwnerStep].

Definition ex_thread_end : Thr := mkThr false true true true true false (Some true) false WkJoinable OwDone.

Lemma worker_joined_witness : thr_steps ThreadHandle_new ex_thread = Some ex_thread_end /\
  t_owner ex_thread_end = OwDone /\ t_worker ex_thread_end = WkJoinable /\
  t_alive ex_thread_end = false /\ t_exited ex_thread_end = true.
Proof.
  split; [vm_compute; reflexivity|]. apply (worker_joined ex_thread ex_thread_end); [vm_compute; reflexivity|].
  intros [ok| |e| | | |] E; try discriminate; reflexivity.
Defined.
