(* ===== verification/FrameFlow.v ===== *)
(** Frames and buffers between the receiver and the application: the pool of
    [src/src/gige/stream/frame.rs], the receiver of
    [src/src/gige/stream/runner.rs] and the built-in subscription that
    [Acquisition::start] of [src/src/genicam/acquisition.rs] makes with a
    capacity of [n_buffers].

    The application takes frames and drops them while the receiver works; other
    subscribers come, take their references and go as they like.  The
    channels are the bounded queues of [Channel]. *)

From stdpp Require Import list.
From S2P Require Import Prelude Gvcp Gvsp Channel Float64 Frame Reassembly ReassemblyInv ReassemblySafe.

(** * The receiver beside its consumers *)

Section flow.
Context {CC : Chan ToStreamWorker} {HS : PacketHasher}.

(** [fl_taken]: what the application received so far; [fl_held]: what it still
    has of that; [fl_lingering]: what it dropped and another subscriber has. *)
Record Flow := mkFlow {
  fl_runner : StreamRunner;
  fl_taken : list Frame;
  fl_held : list Frame;
  fl_lingering : list Frame }.

(** What happens next: the parts of a turn of [run], and what the others do. *)
Inductive FlowStep :=
| Commands (cmds : list ToStreamWorker)
| Receive (r : RecvResult)
| Completion (now : Z)
| Flush
| Take
| DropFrame (i : nat) (last_reference : bool)
| GoesHome (i : nat)
| OthersMove (subs : list (chan Frame)).

(** The last reference to a frame goes: its buffer returns to the pool. *)
Definition Frame_drop (s : StreamRunner) (f : Frame) : StreamRunner := s <| r_pool ::= PooledBuf_drop (fr_slot f) |>.

Definition flow_take (t : Flow) : Flow :=
  match r_subscribers (fl_runner t) with
  | [] => t
  | q :: rest =>
      match try_recv q with
      | None => t
      | Some (f, q) =>
          mkFlow ((fl_runner t) <| r_subscribers := q :: rest |>) (fl_taken t ++ [f]) (fl_held t ++ [f]) (fl_lingering t)
      end
  end.

(** [None]: the receiver panicked.  As in [run], a clock reading to which the
    packet timeouts cannot be added counts as a panic. *)
Definition step_clock_ok (cfg : StreamConfig) (x : FlowStep) : bool :=
  match x with Receive r => recv_clock_ok cfg r | Completion now => clock_ok cfg now | _ => true end.

Definition flow_step (t : Flow) (x : FlowStep) : option Flow :=
  let worker s := mkFlow s (fl_taken t) (fl_held t) (fl_lingering t) in
  let s := fl_runner t in
  match x with
  | Commands cmds => Some (worker (drain_commands (deliver_commands s cmds)))
  | Receive r => s ← drain_socket s [r]; Some (worker s)
  | Completion now => s ← check_frame_completion s now None; Some (worker (publish_stats s))
  | Flush => s ← flush_frames s; Some (worker (publish_stats s))
  | Take => Some (flow_take t)
  | DropFrame i last_reference =>
      Some match fl_held t !! i with
           | None => t
           | Some f =>
               if last_reference : bool then mkFlow (Frame_drop s f) (fl_taken t) (delete i (fl_held t)) (fl_lingering t)
               else mkFlow s (fl_taken t) (delete i (fl_held t)) (fl_lingering t ++ [f])
           end
  | GoesHome i =>
      Some match fl_lingering t !! i with
           | None => t
           | Some f => mkFlow (Frame_drop s f) (fl_taken t) (fl_held t) (delete i (fl_lingering t))
           end
  | OthersMove subs => Some (worker (s <| r_subscribers ::= fun l => take 1 l ++ subs |>))
  end.

Fixpoint flow_steps (t : Flow) (xs : list FlowStep) : option Flow :=
  match xs with [] => Some t | x :: xs => t ← flow_step t x; flow_steps t xs end.

Definition flow_run (t : Flow) (xs : list FlowStep) : option Flow :=
  if forallb (step_clock_ok (r_cfg (fl_runner t))) xs then flow_steps t xs else None.

(** The frames in the application's own subscription. *)
Definition buffered (s : StreamRunner) : list Frame := match r_subscribers s with q :: _ => contents q | [] => [] end.

(** A stream of [n] buffers whose receiver has seen the subscription. *)
Definition flow_start (ip : Z) (rx : chan ToStreamWorker) (cfg : StreamConfig) (scps payload_size : Z) (resend : bool)
    (tick : Z) : Flow :=
  let n := Z.to_nat (cfg_n_buffers cfg) in
  let s := runner_new ip rx (FramePool_new n payload_size : chan BufSlot) cfg scps payload_size resend tick in
  mkFlow (s <| r_subscribers := [mkQueue [] (Some n) true : chan Frame] |>) [] [] [].

(** * The books *)

Variable n : nat.

(** [k] buffers are with the application or its peers. *)
Record booked (k : nat) (s : StreamRunner) : Prop := {
  bk_sub : exists items rest, r_subscribers s = (mkQueue items (Some n) true : chan Frame) :: rest;
  bk_pool : exists slots, r_pool s = mkQueue slots (Some n) true;
  bk_count : (length (contents (r_pool s)) + length (r_frames s) + length (buffered s) + k = n)%nat }.

(** Everything delivered on the way is in the subscription. *)
Definition flows (k : nat) (s s' : StreamRunner) : Prop :=
  booked k s -> booked k s' /\
  exists new, r_delivered s' = r_delivered s ++ new /\ buffered s' = buffered s ++ new.

Lemma flows_refl k s : flows k s s.
Proof. intros H. split; [done|]. exists []. by rewrite !app_nil_r. Qed.

Lemma flows_trans k s1 s2 s3 : flows k s1 s2 -> flows k s2 s3 -> flows k s1 s3.
Proof.
  intros H1 H2 B. destruct (H1 B) as [B2 (n1 & D1 & Q1)]. destruct (H2 B2) as [B3 (n2 & D2 & Q2)].
  split; [done|]. exists (n1 ++ n2). by rewrite D2, D1, Q2, Q1, !app_assoc.
Qed.

(** The part of the state the books are about. *)
Definition books (s : StreamRunner) := (r_pool s, length (r_frames s), r_subscribers s, r_delivered s).

Lemma flows_same k s s' : books s' = books s -> flows k s s'.
Proof.
  intros [= E1 E2 E3 E4] []. split.
  - split; rewrite ?E1, ?E2, ?E3; try done. unfold buffered in *. by rewrite E3.
  - exists []. unfold buffered. by rewrite E3, E4, !app_nil_r.
Qed.

(** The books in the open: what an operation changes is read off its result. *)
Definition ledger (k : nat) (slots : list BufSlot) (items : list Frame) (rest : list (chan Frame)) (l : nat)
    (d : list Frame) (s : StreamRunner) : Prop :=
  books s = (mkQueue slots (Some n) true : chan BufSlot, l, (mkQueue items (Some n) true : chan Frame) :: rest, d) /\
  (length slots + l + length items + k = n)%nat.

Lemma booked_ledger k s : booked k s -> exists slots items rest,
  ledger k slots items rest (length (r_frames s)) (r_delivered s) s /\ buffered s = items.
Proof.
  intros [(items & rest & E) (slots & Ep) Hn]. exists slots, items, rest. unfold ledger, books, buffered in *.
  rewrite E, Ep in *. by split_and!.
Qed.

Lemma ledger_booked k slots items rest l d s :
  ledger k slots items rest l d s -> booked k s /\ r_delivered s = d /\ buffered s = items.
Proof.
  intros [[= E1 E2 E3 E4] Hn]. split_and!; [|done|unfold buffered; by rewrite E3].
  split; unfold buffered; rewrite ?E1, ?E2, ?E3; eauto.
Qed.

Lemma drain_commands_books k s : flows k s (drain_commands s).
Proof.
  unfold drain_commands. destruct (recv_all (r_rx s)) as [cmds rx].
  apply (flows_trans k _ (s <| r_rx := rx |>)); [by apply flows_same|].
  generalize (s <| r_rx := rx |>) as t. induction cmds as [|c cmds IH]; intros t; simpl; [apply flows_refl|].
  eapply flows_trans; [|apply IH]. destruct c as [tx|]; [|by apply flows_same].
  intros (slots & items & rest & [[= E1 E3] Hn] & ->)%booked_ledger.
  destruct (ledger_booked k slots items (rest ++ [tx]) (length (r_frames t)) (r_delivered t)
              (apply_command t (Subscribe tx))) as (B & -> & ->).
  - split; [|done]. unfold books. simpl. by rewrite E1, E3.
  - split; [done|]. exists []. by rewrite !app_nil_r.
Qed.

Lemma remember_books k s id ext fp : flows k s (remember s id ext fp).
Proof. apply flows_same. unfold remember. by destruct (_ <=? _). Qed.

Lemma close_counters_books k s status f : flows k s (close_counters s status f).
Proof. apply flows_same. by destruct status. Qed.

(** A buffer that is on its way finds room in the pool. *)
Lemma queue_room {A} (items : list A) x :
  (length items < n)%nat -> queue_try_send (mkQueue items (Some n) true) x = (Sent, mkQueue (items ++ [x]) (Some n) true).
Proof. intros H. unfold queue_try_send. simpl. by rewrite (proj2 (Nat.leb_gt _ _) H). Qed.

(** Giving the buffer of frame [index] back, and handing the frame out. *)
Lemma discard_frame_books k s index s' : discard_frame s index = Some s' -> flows k s s'.
Proof.
  unfold discard_frame. intros H (slots & items & rest & [[= E1 E3] Hn] & ->)%booked_ledger.
  destruct (r_frames s !! index) as [f|] eqn:Hf; [injection H as <-|done].
  pose proof (lookup_lt_Some _ _ _ Hf) as Hlt. pose proof (length_delete _ _ (ex_intro _ _ Hf : is_Some _)) as Hd.
  edestruct (ledger_booked k (slots ++ [f_slot f]) items rest (pred (length (r_frames s))) (r_delivered s))
    as (B & -> & ->); [split|].
  - unfold books, PooledBuf_drop. simpl. rewrite E1, E3. simpl. rewrite queue_room by lia. rewrite Hd. simpl. repeat f_equal. lia.
  - rewrite length_app. simpl. lia.
  - split; [done|]. exists []. by rewrite !app_nil_r.
Qed.

Lemma deliver_books k s t f out dropped subs taken t' :
  (0 < length (r_frames s))%nat ->
  books t = (r_pool s, pred (length (r_frames s)), r_subscribers s, r_delivered s) ->
  fan_out (r_subscribers t) out = (subs, dropped, taken) ->
  books t' = (r_pool t, length (r_frames t), subs, r_delivered t ++ [out]) ->
  flows k s (if taken then t' else t' <| r_pool ::= PooledBuf_drop (f_slot f) |>).
Proof.
  intros Hlt [= T1 T2 T3 T4] Hfan Hb (slots & items & rest & [[= E1 E3] Hn] & ->)%booked_ledger.
  rewrite T3, E3 in Hfan. simpl in Hfan. rewrite queue_room in Hfan by lia.
  destruct (fan_out rest out) as [[rest' dropped'] taken']. injection Hfan as <- <- <-.
  destruct (ledger_booked k slots (items ++ [out]) rest' (pred (length (r_frames s))) (r_delivered s ++ [out]) t')
    as (B & -> & ->); [split|].
  - by rewrite Hb, T1, T2, T4, E1.
  - rewrite length_app. simpl. lia.
  - split; [done|]. by exists [out].
Qed.

Lemma close_frame_books k s index status s' : close_frame s index status = Some s' -> flows k s s'.
Proof.
  unfold close_frame. intros H. eapply flows_trans; [apply drain_commands_books|]. revert H.
  generalize (drain_commands s) as s1. clear s. intros s H.
  destruct (r_frames s !! index) as [f|] eqn:Hf; [|done]. cbn [mbind option_bind] in H.
  destruct (fan_out _ _) as [[subs dropped] taken] eqn:Ef in H.
  pose proof (lookup_lt_Some _ _ _ Hf) as Hlt. pose proof (length_delete _ _ (ex_intro _ _ Hf : is_Some _)) as Hd.
  injection H as <-. eapply deliver_books; [lia| |exact Ef|].
  - unfold books. destruct status; unfold remember; simpl; destruct (_ <=? _); simpl; rewrite Hd; repeat f_equal; lia.
  - by destruct (0 <? dropped).
Qed.

Lemma option_flows {A} k s (m : option A) (g : A -> option StreamRunner) s' :
  (forall a, m = Some a -> g a = Some s' -> flows k s s') -> mbind g m = Some s' -> flows k s s'.
Proof. intros H. destruct m as [a|]; [|done]. by apply H. Qed.

Lemma discard_provisional_books k s s' : discard_provisional s = Some s' -> flows k s s'.
Proof.
  unfold discard_provisional. generalize (length (r_frames s)) as m. intros m. revert s.
  induction m as [|m IH]; intros s; simpl; destruct (position _ _) as [i|]; try (intros [= <-]; apply flows_refl).
  apply option_flows. intros s1 H1 H. eapply flows_trans; [by eapply discard_frame_books|by apply IH].
Qed.

Lemma flush_frames_books k s s' : flush_frames s = Some s' -> flows k s s'.
Proof.
  unfold flush_frames. apply option_flows. intros s1 H1%(discard_provisional_books k) H.
  eapply flows_trans; [done|]. revert H. generalize (length (r_frames s1)) as m. clear H1 s. intros m. revert s1.
  induction m as [|m IH]; intros s; simpl; destruct (r_frames s); try (intros [= <-]; apply flows_refl).
  apply option_flows. intros s1 H1 H. eapply flows_trans; [by eapply close_frame_books|by apply IH].
Qed.

Lemma missing_packet_check_books k s index pid now s' : missing_packet_check s index pid now = Some s' -> flows k s s'.
Proof.
  unfold missing_packet_check. apply option_flows. intros f Hf H. repeat case_match; simplify_eq/=; try apply flows_refl.
  revert H. apply option_flows. intros sc _ H. apply flows_same. destruct (sc_ratio sc); simplify_eq/=.
  - unfold books. simpl. by rewrite length_insert.
  - match goal with |- books (foldl ?g ?u ?l) = _ =>
      assert (forall t, books (foldl g t l) = books t) as ->
        by (induction l as [|[a b] l' IH]; intros t; simpl; [done|by rewrite IH]) end.
    unfold books. simpl. by rewrite length_insert.
Qed.

Lemma check_frame_completion_books k s now current s' : check_frame_completion s now current = Some s' -> flows k s s'.
Proof.
  unfold check_frame_completion. generalize (length (r_frames s)) at 1 as fuel. intros fuel. generalize 0%nat at 1 as i.
  intros i. generalize true as b. intros b. revert s i b.
  induction fuel as [|fuel IH]; intros s i b; simpl; destruct (_ <=? _)%nat; try done; try (intros [= <-]; apply flows_refl).
  apply option_flows. intros [[s1 i1] b1] H1 H. eapply flows_trans; [|by eapply IH]. clear IH H. revert H1.
  unfold completion_step. destruct (r_frames s !! i) as [f|]; [|done]. simpl. intros H1.
  repeat (case_match; simplify_eq/=); try apply flows_refl;
    repeat match goal with
      | H : (_ ≫= _) = Some _ |- _ => apply bind_Some in H as (? & ? & ?); simplify_eq/=
      end; eauto using discard_frame_books, close_frame_books, missing_packet_check_books.
Qed.

Lemma create_frame_books k s view now inc_ replay s' i : create_frame s view now inc_ replay = Some (s', i) -> flows k s s'.
Proof.
  unfold create_frame. intros H. apply bind_Some in H as (s1 & H1 & H).
  apply (flows_trans k _ s1).
  { destruct replay; [injection H1 as <-; apply flows_refl|by apply discard_provisional_books]. }
  clear H1. revert H. destruct (compute_n_expected_packets s1 view =? 0).
  { destruct replay; intros [= <- _]; [by apply flows_same|].
    eapply flows_trans; [|apply remember_books]. by apply flows_same. }
  destruct (FramePool_try_claim (r_pool s1)) as [[slot pool]|] eqn:Ec.
  - intros [= <- _] (slots & items & rest & [[= E1 E3] Hn] & ->)%booked_ledger.
    rewrite E1 in Ec. destruct slots as [|x slots]; [done|]. simpl in Ec, Hn. injection Ec as <- <-.
    edestruct (ledger_booked k slots items rest (S (length (r_frames s1))) (r_delivered s1)) as (B & -> & ->); [split|].
    + unfold books. destruct replay; simpl; [|destruct (1 <? inc_)]; simpl; rewrite length_app, E3; simpl; repeat f_equal; lia.
    + lia.
    + split; [done|]. exists []. by rewrite !app_nil_r.
  - destruct replay; intros [= <- _]; [by apply flows_same|].
    eapply flows_trans; [|apply remember_books]. by apply flows_same.
Qed.

Lemma find_or_create_frame_books k s view now s' i : find_or_create_frame s view now = Some (s', i) -> flows k s s'.
Proof.
  unfold find_or_create_frame. intros H. repeat (case_match; simplify_eq/=); eauto using create_frame_books;
    apply flows_same; unfold books; simpl; by rewrite ?length_alter.
Qed.

Lemma process_in_frame_books k s index view now sys s' : process_in_frame s index view now sys = Some s' -> flows k s s'.
Proof.
  unfold process_in_frame. apply option_flows. intros f Hf.
  set (s1 := if is_provisional f then _ else _). intros H. apply (flows_trans k _ s1).
  { apply flows_same. unfold s1, books. destruct (is_provisional f); simpl; by rewrite ?length_insert. }
  generalize dependent s1. intros s1 H. destruct (is_error _).
  { injection H as <-. apply flows_same. unfold books. destruct (resend_gone _); simpl; by rewrite ?length_alter. }
  destruct (match get_at _ _ with Some p => received p | None => false end).
  { injection H as <-. apply flows_same. by destruct (is_provisional f). }
  apply bind_Some in H as (r & Hd & H). destruct r as [s2|].
  - apply (flows_trans k _ s2).
    { apply flows_same. unfold dispatch_packet in Hd. unfold books.
      repeat first [apply bind_Some in Hd as (? & ? & Hd)|case_match; simplify_eq/=]; simplify_eq/=; by rewrite ?length_insert. }
    apply bind_Some in H as ([s3 div] & Ha & H). apply (flows_trans k _ s3).
    { apply flows_same. unfold accept_packet in Ha. unfold books.
      repeat first [apply bind_Some in Ha as (? & ? & Ha)|case_match; simplify_eq/=]; simplify_eq/=; by rewrite ?length_insert. }
    apply bind_Some in H as (s4 & Hr & H). apply (flows_trans k _ s4).
    { destruct (is_provisional f && div); [|injection Hr as <-; apply flows_refl]. apply flows_same.
      unfold adopt_restart in Hr. apply bind_Some in Hr as (g & _ & [= <-]). unfold books. simpl. by rewrite length_insert. }
    apply bind_Some in H as (s5 & Hm & H). apply bind_Some in H as (g & _ & H).
    eapply flows_trans; [by eapply missing_packet_check_books|by eapply check_frame_completion_books].
  - injection H as <-. apply flows_same. by destruct (is_provisional f).
Qed.

Lemma process_packet_books k s d now sys s' : process_packet s d now sys = Some s' -> flows k s s'.
Proof.
  unfold process_packet. destruct (GvspView_parse d) as [view|]; [|intros [= <-]; by apply flows_same].
  intros H. apply bind_Some in H as ([s1 i] & H1 & H). apply (flows_trans k _ s1).
  - eapply flows_trans; [|by eapply find_or_create_frame_books]. apply flows_same. by destruct (r_first_packet s).
  - destruct i; [by eapply process_in_frame_books|injection H as <-; apply flows_refl].
Qed.

Lemma receive_books k s r s' : drain_socket s [r] = Some s' -> flows k s s'.
Proof.
  destruct r as [from d drops now sys| | | |]; simpl; try (intros [= <-]; apply flows_refl).
  destruct (negb _); [intros [= <-]; by apply flows_same; destruct drops|].
  intros H. apply bind_Some in H as (s1 & H1 & [= <-]).
  eapply flows_trans; [|by eapply process_packet_books]. apply flows_same. by destruct drops.
Qed.

(** * The invariant of the whole *)

Variables (src : Z -> Z -> bytes -> Prop) (P ip : Z).
Hypothesis HP : 0 <= P <= I64_MAX.

Record flow_inv (t : Flow) : Prop := {
  fi_runner : runner_inv src P ip (fl_runner t);
  fi_booked : booked (length (fl_held t) + length (fl_lingering t)) (fl_runner t);
  fi_taken : r_delivered (fl_runner t) = fl_taken t ++ buffered (fl_runner t);
  fi_held : Forall (delivered_ok src P) (fl_held t);
  fi_lingering : Forall (delivered_ok src P) (fl_lingering t) }.

(** An operation of the receiver keeps it. *)
Lemma flow_inv_worker t s :
  flow_inv t -> flows (length (fl_held t) + length (fl_lingering t)) (fl_runner t) s -> runner_inv src P ip s ->
  flow_inv (mkFlow s (fl_taken t) (fl_held t) (fl_lingering t)).
Proof.
  intros [I1 I2 I3 I4 I5] F R. destruct (F I2) as [B (new & D & Q)]. split; simpl; try done.
  by rewrite D, Q, I3, app_assoc.
Qed.

(** The channels of the subscribers are nobody's invariant but the books'. *)
Lemma runner_inv_subs s subs : runner_inv src P ip s -> runner_inv src P ip (s <| r_subscribers := subs |>).
Proof. by apply runner_inv_ext. Qed.

Lemma flow_inv_take t : flow_inv t -> flow_inv (flow_take t).
Proof.
  intros [I1 I2 I3 I4 I5]. unfold flow_take.
  destruct (booked_ledger _ _ I2) as (slots & items & rest & [[= E1 E3] Hn] & Eb). rewrite E3.
  destruct items as [|f items]; simpl; [by split|].
  set (q := mkQueue items (Some n) true : @chan Frame (queue_chan Frame)).
  edestruct (ledger_booked (length (fl_held t ++ [f]) + length (fl_lingering t)) slots items rest
               (length (r_frames (fl_runner t))) (r_delivered (fl_runner t))
               ((fl_runner t) <| r_subscribers := q :: rest |>)) as (B & D & Q).
  { split; [by unfold books; simpl; rewrite E1|]. rewrite length_app. simpl in *. lia. }
  rewrite Eb in I3. split; simpl; [by apply runner_inv_subs|done| |apply Forall_app; split; [done|]|done].
  - rewrite I3. unfold buffered. simpl. by rewrite <- app_assoc.
  - apply Forall_singleton. pose proof (ri_delivered _ _ _ _ I1) as Hd. rewrite I3 in Hd.
    apply Forall_app in Hd as [_ Hd]. by apply Forall_cons in Hd as [? _].
Qed.

(** A buffer that comes home finds room. *)
Lemma Frame_drop_booked k s f : booked (S k) s ->
  booked k (Frame_drop s f) /\ buffered (Frame_drop s f) = buffered s.
Proof.
  intros (slots & items & rest & [[= E1 E3] Hn] & ->)%booked_ledger.
  edestruct (ledger_booked k (slots ++ [fr_slot f]) items rest (length (r_frames s)) (r_delivered s) (Frame_drop s f))
    as (B & D & Q); [split|done].
  - unfold books, Frame_drop, PooledBuf_drop. simpl. rewrite E1, E3. simpl. by rewrite queue_room by lia.
  - rewrite length_app. simpl. lia.
Qed.

Lemma Frame_drop_inv s f : delivered_ok src P f -> runner_inv src P ip s -> runner_inv src P ip (Frame_drop s f).
Proof. intros [Hf _]. by apply runner_inv_drop. Qed.

Lemma flow_inv_drop t i last : flow_inv t -> exists t', flow_step t (DropFrame i last) = Some t' /\ flow_inv t'.
Proof.
  intros [I1 I2 I3 I4 I5]. eexists. split; [reflexivity|]. destruct (fl_held t !! i) as [f|] eqn:Hf; [|by split].
  pose proof (lookup_lt_Some _ _ _ Hf) as Hlt. pose proof (length_delete _ _ (ex_intro _ _ Hf : is_Some _)) as Hd.
  pose proof (Forall_lookup_1 _ _ _ _ I4 Hf) as Hok. destruct last.
  - destruct (Frame_drop_booked (length (delete i (fl_held t)) + length (fl_lingering t)) (fl_runner t) f) as [B Q].
    { rewrite Hd. by replace (S _) with (length (fl_held t) + length (fl_lingering t))%nat by lia. }
    split; simpl; [by apply Frame_drop_inv|done|by rewrite Q|by apply Forall_delete|done].
  - split; simpl; [done| |done|by apply Forall_delete|].
    + rewrite Hd, length_app. simpl. by replace (_ + _)%nat with (length (fl_held t) + length (fl_lingering t))%nat by lia.
    + apply Forall_app. split; [done|by apply Forall_singleton].
Qed.

Lemma flow_inv_home t i : flow_inv t -> exists t', flow_step t (GoesHome i) = Some t' /\ flow_inv t'.
Proof.
  intros [I1 I2 I3 I4 I5]. eexists. split; [reflexivity|]. destruct (fl_lingering t !! i) as [f|] eqn:Hf; [|by split].
  pose proof (lookup_lt_Some _ _ _ Hf) as Hlt. pose proof (length_delete _ _ (ex_intro _ _ Hf : is_Some _)) as Hd.
  pose proof (Forall_lookup_1 _ _ _ _ I5 Hf) as Hok.
  destruct (Frame_drop_booked (length (fl_held t) + length (delete i (fl_lingering t))) (fl_runner t) f) as [B Q].
  { rewrite Hd. by replace (S _) with (length (fl_held t) + length (fl_lingering t))%nat by lia. }
  split; simpl; [by apply Frame_drop_inv|done|by rewrite Q|done|by apply Forall_delete].
Qed.

Lemma flow_inv_others t subs : flow_inv t -> exists t', flow_step t (OthersMove subs) = Some t' /\ flow_inv t'.
Proof.
  intros I. eexists. split; [reflexivity|]. apply flow_inv_worker; [done| |].
  - intros (slots & items & rest & [[= E1 E3] Hn] & ->)%booked_ledger.
    edestruct (ledger_booked (length (fl_held t) + length (fl_lingering t)) slots items subs
                 (length (r_frames (fl_runner t))) (r_delivered (fl_runner t)))
      as (B & -> & ->); [split; [|exact Hn]|].
    + unfold books. simpl. by rewrite E1, E3.
    + split; [done|]. exists []. by rewrite !app_nil_r.
  - by eapply runner_inv_ext; [| |exact (fi_runner t I)].
Qed.

Definition flow_ok (x : FlowStep) : Prop := match x with Receive r => input_ok src ip r | _ => True end.

Lemma flow_inv_step t x : flow_inv t -> flow_ok x -> exists t', flow_step t x = Some t' /\ flow_inv t'.
Proof.
  intros I Hx. pose proof (fi_runner t I) as R.
  destruct x as [cmds|r|now| | |i last|i|subs];
    [| | | |by eexists; split; [|apply flow_inv_take]|by apply flow_inv_drop|by apply flow_inv_home|by apply flow_inv_others].
  - eexists. split; [reflexivity|]. apply flow_inv_worker; [done| |].
    + eapply flows_trans; [|apply drain_commands_books]. by apply flows_same.
    + apply runner_inv_drain. by eapply runner_inv_ext; [| |exact R].
  - destruct (drain_socket_ok src P ip HP [r] (fl_runner t)) as (s & Hs & Hinv); [done|by apply Forall_singleton|].
    eexists. simpl. split; [by simpl in Hs; rewrite Hs|]. apply flow_inv_worker; [done|by eapply receive_books|done].
  - destruct (check_frame_completion_ok src P ip (fl_runner t) now None R) as (s & Hs & Hinv).
    eexists. simpl. split; [by rewrite Hs|]. apply flow_inv_worker; [done| |by eapply runner_inv_ext; [| |exact Hinv]].
    eapply flows_trans; [by eapply check_frame_completion_books|by apply flows_same].
  - destruct (flush_frames_ok src P ip (fl_runner t) R) as (s & Hs & Hinv & _).
    eexists. simpl. split; [by rewrite Hs|]. apply flow_inv_worker; [done| |by eapply runner_inv_ext; [| |exact Hinv]].
    eapply flows_trans; [by eapply flush_frames_books|by apply flows_same].
Qed.

Lemma flow_inv_run xs : forall t, flow_inv t -> Forall flow_ok xs -> exists t', flow_steps t xs = Some t' /\ flow_inv t'.
Proof.
  induction xs as [|x xs IH]; intros t I Hxs; [by eauto|]. apply Forall_cons in Hxs as [Hx Hxs].
  destruct (flow_inv_step t x I Hx) as (t1 & E & I1). simpl. rewrite E. by apply IH.
Qed.
End flow.

Section theorem.
Context {CC : Chan ToStreamWorker} {HS : PacketHasher}.

Lemma flow_start_inv src ip rx cfg scps P resend tick :
  0 <= P -> flow_inv (Z.to_nat (cfg_n_buffers cfg)) src P ip (flow_start ip rx cfg scps P resend tick).
Proof.
  intros HP. split; try done.
  - eapply runner_inv_ext; [| |apply (runner_new_inv src P ip rx
      (FramePool_new (Z.to_nat (cfg_n_buffers cfg)) P : @chan BufSlot (queue_chan BufSlot)) cfg scps resend tick)]; [done|done|].
    simpl. apply Forall_replicate. unfold slot_ok. simpl. unfold zlen. rewrite length_replicate. lia.
  - split; simpl; eauto. rewrite length_replicate. lia.
Qed.

(** Payload packet [k] of block [id] arrived from the device with data [d]. *)
Definition arrived (ip : Z) (xs : list FlowStep) (id k : Z) (d : bytes) : Prop :=
  exists datagram drops now sys_ns view,
    Receive (RecvDatagram ip datagram drops now sys_ns) ∈ xs /\ GvspView_parse datagram = Some view /\
    v_content_type view = Payload /\ v_frame_id view = id /\ v_packet_id view = k /\ v_data view = d.

Definition flow_recv_ok (x : FlowStep) : Prop := match x with Receive r => recv_ok r | _ => True end.

Lemma flow_recv_input ip xs x : x ∈ xs -> flow_recv_ok x -> flow_ok (arrived ip xs) ip x.
Proof.
  destruct x as [|r| | | | | |]; simpl; try done. destruct r as [from d drops now sys| | | |]; simpl; try done.
  intros Hx Hok -> view Hview. destruct (GvspView_parse_ok d view Hok Hview) as (_ & _ & [? _] & _).
  split; [done|]. intros Hc. by exists d, drops, now, sys, view.
Qed.

(** C7: no frame is lost between the receiver and the application, and no
    buffer leaks.  Whatever arrives from the network, however the
    application takes and keeps frames, and whatever other subscribers do, with
    clock readings to which the packet timeouts can be added: the receiver,
    built without overflow checks, does not panic, every frame it hands out is sound, all of
    them are, in order, what the application has taken followed by what waits
    in its subscription, and the [n_buffers] buffers of the pool are each
    free, in an open frame, waiting, held by the application, or held by
    another subscriber only. *)
Theorem no_frame_dropped (ip : Z) (rx : chan ToStreamWorker) (cfg : StreamConfig) (scps P : Z) (resend : bool) (tick : Z)
    (xs : list FlowStep) :
  0 <= P <= I64_MAX -> Forall flow_recv_ok xs -> Forall (fun x => step_clock_ok cfg x) xs ->
  exists t, flow_run (flow_start ip rx cfg scps P resend tick) xs = Some t /\
    Forall (delivered_ok (arrived ip xs) P) (r_delivered (fl_runner t)) /\
    r_delivered (fl_runner t) = fl_taken t ++ buffered (fl_runner t) /\
    (length (contents (r_pool (fl_runner t))) + length (r_frames (fl_runner t)) + length (buffered (fl_runner t)) +
     (length (fl_held t) + length (fl_lingering t)) = Z.to_nat (cfg_n_buffers cfg))%nat.
Proof.
  intros HP Hxs Hclock. unfold flow_run. cbn [fl_runner r_cfg flow_start].
  change (r_cfg _) with cfg. replace (forallb (step_clock_ok cfg) xs) with true by (symmetry; by apply Is_true_true, forallb_True).
  destruct (flow_inv_run (Z.to_nat (cfg_n_buffers cfg)) (arrived ip xs) P ip HP xs
              (flow_start ip rx cfg scps P resend tick)) as (t & E & I).
  - by apply flow_start_inv, HP.
  - apply Forall_forall. intros x Hx. apply flow_recv_input; [done|]. by apply (proj1 (Forall_forall _ _) Hxs).
  - exists t. split_and!; [done|apply (fi_runner _ _ _ _ _ I)|apply I|apply (fi_booked _ _ _ _ _ I)].
Qed.
End theorem.

(** A leader, a payload packet and a trailer, with a frame taken and dropped in
    between; the channels are the reference queues, the hash is a sum. *)
#[local] Instance ex_flow_hash : PacketHasher := fun content data => foldr Z.add content data.

Definition ex_flow : list FlowStep :=
  [Receive (RecvDatagram 9 (std_packet 0 7 2 2 [0; 0]) None 5 0); Take; DropFrame 0 true;
   Receive (RecvDatagram 9 (std_packet 0 7 1 3 [10; 20]) None 6 0); Completion 9; Take;
   Receive (RecvDatagram 9 (std_packet 0 8 1 3 [1; 2]) None 7 0); DropFrame 0 false; Flush; GoesHome 0].

Definition ex_flow_rx : chan ToStreamWorker := mkQueue [] None true.

Lemma no_frame_dropped_witness :
  exists t, flow_run (flow_start 9 ex_flow_rx StreamConfig_new 100 4 true 0) ex_flow = Some t /\
    Forall (delivered_ok (arrived 9 ex_flow) 4) (r_delivered (fl_runner t)) /\
    r_delivered (fl_runner t) = fl_taken t ++ buffered (fl_runner t) /\
    (length (contents (r_pool (fl_runner t))) + length (r_frames (fl_runner t)) + length (buffered (fl_runner t)) +
     (length (fl_held t) + length (fl_lingering t)) = 8)%nat.
Proof.
  apply (no_frame_dropped 9 ex_flow_rx StreamConfig_new 100 4 true 0 ex_flow); [by vm_compute| |by repeat constructor].
  repeat (apply Forall_cons; split); try done; by apply bytes_ok_dec_true.
Defined.
