(* ===== verification/FrameIter.v ===== *)
(** Reading frames from a subscription: [FrameChannel] of
    [src/src/gige/stream/mod.rs], and a Python [for] loop over one
    ([__next__] in [src/src/py.rs]) beside the receiver that fills it.

    The channel is any [Chan]; [fc_open] says that the receiver still holds
    the sending side.  The loop's waits, its look for signals and its look at
    the channel are steps that the receiver's may come between. *)

From stdpp Require Import list.
From S2P Require Import Prelude Channel.

#[local] Set Warnings "-clear-no-such-hyp".

Section iteration.
Context {F : Type} {FC : Chan F}.

Record FrameChannel := mkChannel { fc_rx : chan F; fc_open : bool }.

(** [try_recv], [recv_all] and [clear]; [wait_for] is the loop's wait below. *)
Definition frame_try_recv (c : FrameChannel) : FrameChannel * option F :=
  match try_recv (fc_rx c) with
  | Some (f, rx) => (mkChannel rx (fc_open c), Some f)
  | None => (c, None)
  end.
Definition frame_recv_all (c : FrameChannel) : FrameChannel * list F :=
  let '(out, rx) := recv_all (fc_rx c) in (mkChannel rx (fc_open c), out).
Definition frame_clear (c : FrameChannel) : FrameChannel := fst (frame_recv_all c).
Definition is_disconnected (c : FrameChannel) : bool := negb (fc_open c).

(** The loop: in its body, in [wait_for], before [check_signals], before
    [is_disconnected], at the end, or left by the exception of a signal. *)
Inductive NextPc := InBody | InWait | ToSignals | ToCheck | Ended | Raised.

(** [it_sent]: the frames the channel accepted; [it_yielded]: those the body
    has seen. *)
Record Iteration := mkIteration {
  it_channel : FrameChannel; it_pc : NextPc; it_sent : list F; it_yielded : list F }.

Inductive IterStep :=
| ReceiverSends (f : F)
| ReceiverExits
| BodyDone
| WaitReturns
| WaitTimesOut
| Signals (interrupted : bool)
| Checks.

(** A wait ends with a frame, when nobody can send any more, or by its
    timeout, which finds the channel empty. *)
Definition iter_step (t : Iteration) (x : IterStep) : option Iteration :=
  let '(mkIteration c pc sent yielded) := t in
  match x, pc with
  | ReceiverSends f, _ =>
      if fc_open c then
        let '(outcome, rx) := try_send (fc_rx c) f in
        Some (mkIteration (mkChannel rx true) pc (sent ++ if decide (outcome = Sent) then [f] else []) yielded)
      else None
  | ReceiverExits, _ => if fc_open c then Some (mkIteration (mkChannel (fc_rx c) false) pc sent yielded) else None
  | BodyDone, InBody => Some (mkIteration c InWait sent yielded)
  | WaitReturns, InWait =>
      match frame_try_recv c with
      | (c, Some f) => Some (mkIteration c InBody sent (yielded ++ [f]))
      | (c, None) => if fc_open c then None else Some (mkIteration c ToSignals sent yielded)
      end
  | WaitTimesOut, InWait =>
      match frame_try_recv c with
      | (_, Some _) => None
      | (c, None) => if fc_open c then Some (mkIteration c ToSignals sent yielded) else None
      end
  | Signals interrupted, ToSignals => Some (mkIteration c (if interrupted : bool then Raised else ToCheck) sent yielded)
  | Checks, ToCheck => Some (mkIteration c (if is_disconnected c then Ended else InWait) sent yielded)
  | _, _ => None
  end.

Fixpoint iter_steps (t : Iteration) (xs : list IterStep) : option Iteration :=
  match xs with [] => Some t | x :: xs => t ← iter_step t x; iter_steps t xs end.

Definition iteration_of (rx : chan F) : Iteration := mkIteration (mkChannel rx true) InBody [] [].

Definition waiting (t : Iteration) : list F := contents (fc_rx (it_channel t)).

(** * What the loop sees *)

(** The loop has not yet stopped looking at the channel. *)
Definition reading (pc : NextPc) : bool := match pc with InBody | InWait => true | _ => false end.

Record iter_inv (t : Iteration) : Prop := {
  ii_sent : it_sent t = it_yielded t ++ waiting t;
  ii_ended : it_pc t = Ended -> fc_open (it_channel t) = false }.

(** Nothing is left behind once the sender is gone. *)
Definition complete (t : Iteration) : Prop :=
  fc_open (it_channel t) = false /\ (reading (it_pc t) = true \/ it_pc t = Raised \/ waiting t = []).

(** Steps left to the loop alone. *)
Definition iter_measure (t : Iteration) : nat :=
  2 * length (waiting t) + match it_pc t with InBody => 5 | InWait => 4 | ToSignals => 3 | ToCheck => 2 | _ => 0 end.

Ltac iter_cases t x :=
  destruct t as [[rx opened] pc sent yielded]; destruct x as [f| | | | |b|]; destruct pc;
  unfold iter_step, frame_try_recv, is_disconnected, waiting in *; cbn [it_channel it_pc it_sent it_yielded fc_rx fc_open] in *;
  try done; repeat match goal with
    | |- context [try_recv ?c] => let E := fresh "E" in pose proof (try_recv_spec c) as E; destruct (try_recv c) as [[? ?]|]
    | |- context [try_send ?c ?f] =>
        let E := fresh "E" in pose proof (try_send_contents c f) as E; destruct (try_send c f); cbn [fst snd] in E
    | b : bool |- _ => destruct b; cbn [negb] in *
    end; try done; intros [= <-].

Lemma iter_inv_step t x t' : iter_inv t -> iter_step t x = Some t' -> iter_inv t'.
Proof.
  intros [I1 I2]. iter_cases t x; split; unfold waiting in *; cbn in *; try done.
  all: try (rewrite I1, ?E, <- ?app_assoc; done).
Qed.

Lemma complete_step t x t' : complete t -> iter_step t x = Some t' -> complete t'.
Proof. unfold complete. intros [I1 I2]. iter_cases t x; unfold waiting in *; cbn in *; naive_solver. Qed.

(** Without a sender the loop comes to its end. *)
Lemma closed_step t x t' : fc_open (it_channel t) = false -> iter_step t x = Some t' ->
  fc_open (it_channel t') = false /\ (iter_measure t' < iter_measure t)%nat.
Proof.
  intros I. iter_cases t x; unfold iter_measure, waiting in *; cbn -[Nat.mul] in *; try done; (split; [done|]);
    rewrite ?E; cbn -[Nat.mul]; lia.
Qed.

Lemma closed_steps xs : forall t t', fc_open (it_channel t) = false -> iter_steps t xs = Some t' ->
  (length xs <= iter_measure t)%nat.
Proof.
  induction xs as [|x xs IH]; intros t t' Ho H; cbn [iter_steps length] in *; [lia|].
  destruct (iter_step t x) as [t1|] eqn:E; [|done]. destruct (closed_step t x t1 Ho E) as [Ho1 Hm].
  specialize (IH t1 t' Ho1 H). lia.
Qed.

Lemma steps_keep (Q : Iteration -> Prop) : (forall t x t', Q t -> iter_step t x = Some t' -> Q t') ->
  forall xs t t', Q t -> iter_steps t xs = Some t' -> Q t'.
Proof.
  intros HQ. induction xs as [|x xs IH]; intros t t' Ht H; cbn in H; [by injection H as <-|].
  destruct (iter_step t x) as [t1|] eqn:E; [|done]. eapply IH; [|done]. by eapply HQ.
Qed.

Lemma closed_quiet t : fc_open (it_channel t) = false -> (forall x, iter_step t x = None) ->
  it_pc t = Ended \/ it_pc t = Raised.
Proof.
  destruct t as [[rx opened] pc sent yielded]. cbn. intros -> Hq. destruct pc; auto.
  - by specialize (Hq BodyDone).
  - specialize (Hq WaitReturns). cbn in Hq. unfold frame_try_recv in Hq. cbn in Hq. by destruct (try_recv rx) as [[]|].
  - by specialize (Hq (Signals false)).
  - by specialize (Hq Checks).
Qed.

(** C20: a loop over a subscription sees the frames the receiver sent, each
    once and in the order sent, and what it has not seen is still in the
    channel; it ends only when the receiver is gone.  Once the receiver is
    gone the loop comes to its end (or is interrupted) after at most two
    steps per waiting frame and five more; and if the receiver went while the
    loop's body ran or while it waited, the loop ends with every frame seen. *)
Theorem frames_iterated (rx : chan F) (xs : list IterStep) (t : Iteration) :
  contents rx = [] -> iter_steps (iteration_of rx) xs = Some t ->
  it_sent t = it_yielded t ++ waiting t /\
  (it_pc t = Ended -> is_disconnected (it_channel t) = true) /\
  forall ys t', is_disconnected (it_channel t) = true -> iter_steps t ys = Some t' ->
    (length ys <= 2 * length (waiting t) + 5)%nat /\
    ((forall x, iter_step t' x = None) -> it_pc t' = Ended \/ it_pc t' = Raised) /\
    (reading (it_pc t) = true -> it_pc t' = Ended -> it_yielded t' = it_sent t').
Proof.
  intros Hrx H. assert (iter_inv t) as I.
  { eapply (steps_keep iter_inv); [exact iter_inv_step| |exact H]. by split. }
  unfold is_disconnected. split_and!; [apply I|by intros ->%(ii_ended t I)|].
  intros ys t' Ho%negb_true_iff Hys. pose proof (steps_keep _ iter_inv_step ys t t' I Hys) as I'. split_and!.
  - pose proof (closed_steps ys t t' Ho Hys). unfold iter_measure in *. destruct (it_pc t); lia.
  - apply closed_quiet. eapply (steps_keep (fun t => fc_open (it_channel t) = false)); [|exact Ho|exact Hys].
    intros t1 x t2 H1 H2. by destruct (closed_step t1 x t2 H1 H2).
  - intros Hr He. destruct (steps_keep complete complete_step ys t t') as [_ [Hc|[Hc|Hc]]]; [by split; auto|done|..].
    + by rewrite He in Hc.
    + by rewrite He in Hc.
    + by rewrite (ii_sent t' I'), Hc, app_nil_r.
Qed.
End iteration.

(** A channel of two frames; one is seen, one still waits when the receiver
    goes. *)
Definition ex_iter_rx : chan nat := mkQueue [] (Some 2%nat) true.
Definition ex_iter : list IterStep := [BodyDone; ReceiverSends 1%nat; ReceiverSends 2%nat; WaitReturns; ReceiverExits].

Lemma frames_iterated_witness :
  exists t, iter_steps (iteration_of ex_iter_rx) ex_iter = Some t /\ it_sent t = it_yielded t ++ waiting t /\
    forall t', iter_steps t [BodyDone; WaitReturns; BodyDone; WaitReturns; Signals false; Checks] = Some t' ->
      it_yielded t' = it_sent t'.
Proof.
  eexists. split; [reflexivity|].
  destruct (frames_iterated ex_iter_rx ex_iter _ eq_refl eq_refl) as (H1 & _ & H3). split; [exact H1|].
  intros t' H. destruct (H3 _ t' eq_refl H) as (_ & _ & H4). apply H4; [reflexivity|].
  cbn in H. by injection H as <-.
Defined.

(** A frame that is sent after the wait has timed out, by a receiver that is
    gone before the loop looks, is left in the channel. *)
Lemma iteration_leaves_frame :
  exists xs t, iter_steps (iteration_of ex_iter_rx) xs = Some t /\
    it_pc t = Ended /\ it_sent t = [1%nat] /\ it_yielded t = [].
Proof.
  exists [BodyDone; WaitTimesOut; ReceiverSends 1%nat; ReceiverExits; Signals false; Checks].
  eexists. split; [reflexivity|]. by cbn.
Qed.
