(* ===== verification/Tuning.v ===== *)
(** Thread and socket options: the model of [src/src/tuning.rs] and of
    [StreamConfig::stream_socket_options] in [src/src/gige/stream/mod.rs].

    The options are values of the crate [fast_talker], which is not in the
    repository.  [FastTalker] is what the sources use of it: which of the
    constructors they name an option is made with (any other is one the
    sources do not name), the rules that refuse options, and the calls that
    apply them. *)

From stdpp Require Import list.
From S2P Require Import Prelude.

Inductive ThreadRole := RoleControl | RoleStream.
Inductive SocketRole := UdpControl | UdpStreamRx.

Inductive Driver := DrvGvcp | DrvGvsp.

Definition thread_driver (r : ThreadRole) : Driver := match r with RoleControl => DrvGvcp | RoleStream => DrvGvsp end.
Definition socket_driver (r : SocketRole) : Driver := match r with UdpControl => DrvGvcp | UdpStreamRx => DrvGvsp end.

Inductive Scheduler := SchedOther | SchedBatch | SchedIdle | SchedFifo | SchedRoundRobin | SchedUnnamed.
Inductive ThreadPriority := PrioTimeCritical | PrioBelow.

(** The constructors of thread and socket options the sources name. *)
Inductive ThreadShape :=
| CpuAffinity | RtPriority | PrefaultStack | UnixScheduler (s : Scheduler) | LinuxNice | WinPriority (p : ThreadPriority)
| WinDisablePowerThrottling | WinMmcss | MacOsQos | MacOsTimeConstraint | ThreadUnnamed.

Inductive SocketShape :=
| ShRecvBuffer | ShBindDevice | ShDscp | ShLinuxPriority | ShLinuxBusyPoll | ShLinuxPreferBusyPoll | ShLinuxBusyPollBudget
| ShWinCpuAffinity | ShSendBuffer | ShDontFragment | SocketUnnamed.

Class FastTalker := {
  ThreadOption : Type;
  SocketOption : Type;
  thread_shape : ThreadOption -> ThreadShape;
  socket_shape : SocketOption -> SocketShape;
  RecvBuffer : Z -> SocketOption;
  first_rejected_thread : (ThreadOption -> bool) -> list ThreadOption -> option ThreadOption;
  first_rejected_socket : (SocketOption -> bool) -> list SocketOption -> option SocketOption;
  BusyPoll : Type;
  epoll_busy_poll_from : list SocketOption -> option BusyPoll }.

(** What the crate's documentation says of them: the rules report the first
    option they do not allow. *)
Class FastTalkerLaws (FT : FastTalker) := {
  recv_buffer_shape : forall n, socket_shape (RecvBuffer n) = ShRecvBuffer;
  first_rejected_thread_spec : forall allow os,
    first_rejected_thread allow os = List.find (fun o => negb (allow o)) os;
  first_rejected_socket_spec : forall allow os,
    first_rejected_socket allow os = List.find (fun o => negb (allow o)) os }.

Section tuning.
Context {FT : FastTalker}.

Definition thread_allowed (role : ThreadRole) (o : ThreadOption) : bool :=
  match role with
  | RoleStream =>
      match thread_shape o with
      | CpuAffinity | RtPriority | PrefaultStack | UnixScheduler _ | LinuxNice | WinPriority _
      | WinDisablePowerThrottling | WinMmcss | MacOsQos => true
      | MacOsTimeConstraint => false
      | _ => false
      end
  | RoleControl =>
      match thread_shape o with
      | CpuAffinity | PrefaultStack | LinuxNice | WinDisablePowerThrottling | MacOsQos => true
      | UnixScheduler s => match s with SchedOther | SchedBatch | SchedIdle => true | _ => false end
      | WinPriority p => match p with PrioTimeCritical => false | _ => true end
      | _ => false
      end
  end.

Definition socket_allowed (role : SocketRole) (o : SocketOption) : bool :=
  match role with
  | UdpStreamRx =>
      match socket_shape o with
      | ShRecvBuffer | ShBindDevice | ShLinuxBusyPoll | ShLinuxPreferBusyPoll | ShLinuxBusyPollBudget | ShWinCpuAffinity => true
      | _ => false
      end
  | UdpControl =>
      match socket_shape o with
      | ShRecvBuffer | ShBindDevice | ShDscp | ShLinuxPriority => true
      | _ => false
      end
  end.

(** [CameraError::InvalidOption], with the option in place of its text. *)
Definition check_thread (role : ThreadRole) (options : list ThreadOption) : result (ThreadOption * Driver) unit :=
  match first_rejected_thread (thread_allowed role) options with
  | Some o => Err (o, thread_driver role)
  | None => Ok tt
  end.

Definition check_socket (role : SocketRole) (options : list SocketOption) : result (SocketOption * Driver) unit :=
  match first_rejected_socket (socket_allowed role) options with
  | Some o => Err (o, socket_driver role)
  | None => Ok tt
  end.

Definition DEFAULT_STREAM_RECV_BUFFER : Z := 8 * 1024 * 1024.

Definition stream_socket_options (stream_socket : list SocketOption) : list SocketOption :=
  let own_buffer := existsb (fun o => match socket_shape o with ShRecvBuffer => true | _ => false end) stream_socket in
  (if own_buffer then [] else [RecvBuffer DEFAULT_STREAM_RECV_BUFFER]) ++ stream_socket.

(** Setting the busy polling of the poll: done, not supported, or refused. *)
Inductive EpollOutcome := EpollSet | EpollUnsupported | EpollRefused.

Definition apply_epoll_busy_poll (linux : bool) (set_epoll_busy_poll : BusyPoll -> EpollOutcome) (options : list SocketOption)
    : result BusyPoll unit :=
  match epoll_busy_poll_from options with
  | None => Ok tt
  | Some p =>
      if linux then
        match set_epoll_busy_poll p with
        | EpollSet | EpollUnsupported => Ok tt
        | EpollRefused => Err p
        end
      else Ok tt
  end.

(** * What the checks let through *)

(** A scheduling class that can starve the rest of the system. *)
Definition real_time (o : ThreadOption) : bool :=
  match thread_shape o with
  | RtPriority | UnixScheduler SchedFifo | UnixScheduler SchedRoundRobin | WinPriority PrioTimeCritical | WinMmcss
  | MacOsTimeConstraint => true
  | _ => false
  end.

Context {FL : FastTalkerLaws FT}.

Lemma find_forall {A} (p : A -> bool) l : List.find (fun o => negb (p o)) l = None <-> Forall (fun o => p o = true) l.
Proof.
  induction l as [|o l IH]; simpl; [by split|]. rewrite Forall_cons. destruct (p o); simpl; [rewrite IH|]; intuition congruence.
Qed.

Lemma check_thread_ok role os : check_thread role os = Ok tt <-> Forall (fun o => thread_allowed role o = true) os.
Proof.
  unfold check_thread. rewrite first_rejected_thread_spec, <- find_forall. by destruct (List.find _ _).
Qed.

Lemma check_socket_ok role os : check_socket role os = Ok tt <-> Forall (fun o => socket_allowed role o = true) os.
Proof.
  unfold check_socket. rewrite first_rejected_socket_spec, <- find_forall. by destruct (List.find _ _).
Qed.

Lemma control_not_real_time o : thread_allowed RoleControl o = true -> real_time o = false.
Proof. unfold thread_allowed, real_time. by repeat case_match. Qed.

(** The option checks.  A list passes for the control thread only if none
    of its options asks for a real-time class; a list that is refused is
    refused with its first forbidden option and the driver's name, and
    everything before that option is allowed; and the options a stream socket
    is bound with, the caller's behind the default receive buffer if the caller
    sets none, pass the check whenever the caller's do and always
    have a receive buffer. *)
Theorem options_checked (threads : list ThreadOption) (sockets : list SocketOption) :
  (check_thread RoleControl threads = Ok tt -> Forall (fun o => real_time o = false) threads) /\
  (forall role o d, check_thread role threads = Err (o, d) ->
     d = thread_driver role /\ thread_allowed role o = false /\
     exists pre post, threads = pre ++ o :: post /\ check_thread role pre = Ok tt) /\
  (check_socket UdpStreamRx sockets = Ok tt -> check_socket UdpStreamRx (stream_socket_options sockets) = Ok tt) /\
  Exists (fun o => socket_shape o = ShRecvBuffer) (stream_socket_options sockets).
Proof.
  split_and!.
  - rewrite check_thread_ok. intros H. eapply Forall_impl; [exact H|exact control_not_real_time].
  - intros role o d. unfold check_thread at 1. rewrite first_rejected_thread_spec.
    destruct (List.find _ _) as [o'|] eqn:E; [|done]. intros [= -> <-].
    induction threads as [|x l IH]; [done|]. simpl in E. destruct (thread_allowed role x) eqn:Ex; simpl in E.
    + destruct (IH E) as (_ & Ho & pre & post & -> & Hp). split_and!; [done..|]. exists (x :: pre), post.
      split; [done|]. apply check_thread_ok. apply Forall_cons. split; [done|]. by apply check_thread_ok.
    + injection E as ->. split_and!; [done..|]. exists [], l. split; [done|]. by apply check_thread_ok.
  - rewrite !check_socket_ok. intros H. unfold stream_socket_options. apply Forall_app. split; [|done].
    destruct (existsb _ _); [done|]. apply Forall_singleton. unfold socket_allowed. by rewrite recv_buffer_shape.
  - unfold stream_socket_options. destruct (existsb _ sockets) eqn:E; simpl.
    + apply existsb_exists in E as (o & Ho & Hs). apply Exists_exists. exists o.
      split; [by apply list_elem_of_In|]. by destruct (socket_shape o).
    + apply Exists_cons. left. apply recv_buffer_shape.
Qed.
End tuning.

(** An instance whose options are their shapes. *)
#[local] Instance ex_fast_talker : FastTalker := {|
  ThreadOption := ThreadShape; SocketOption := SocketShape * Z; thread_shape := id; socket_shape := fst;
  RecvBuffer := fun n => (ShRecvBuffer, n);
  first_rejected_thread := fun allow os => List.find (fun o => negb (allow o)) os;
  first_rejected_socket := fun allow os => List.find (fun o => negb (allow o)) os;
  BusyPoll := Z; epoll_busy_poll_from := fun _ => None |}.

#[local] Instance ex_fast_talker_laws : FastTalkerLaws ex_fast_talker.
Proof. by split. Defined.

Definition ex_threads : list (@ThreadOption ex_fast_talker) := [CpuAffinity; LinuxNice].
Definition ex_refused : list (@ThreadOption ex_fast_talker) := [CpuAffinity; RtPriority; WinMmcss].
Definition ex_sockets : list (@SocketOption ex_fast_talker) := [(ShLinuxBusyPoll, 50)].

Lemma options_checked_witness :
  Forall (fun o => real_time o = false) ex_threads /\
  check_socket UdpStreamRx (stream_socket_options ex_sockets) = Ok tt /\
  exists pre post, ex_refused = pre ++ RtPriority :: post /\ check_thread RoleControl pre = Ok tt.
Proof.
  destruct (options_checked ex_threads ex_sockets) as (H1 & _ & H3 & _).
  destruct (options_checked ex_refused ex_sockets) as (_ & H2 & _).
  split_and!; [by apply H1|by apply H3|]. by apply (H2 RoleControl RtPriority DrvGvcp).
Defined.
