(* ===== verification/Resend.v ===== *)
(** The holes of a frame and the resend requests for them:
    [missing_packet_check] of [src/src/gige/stream/runner.rs].

    The method walks over the packets once, sets a deadline on every hole it
    meets for the first time, joins the holes whose deadline has passed to
    ranges, and stops when the frame has used up its requests.  The reference
    is the list of the packets that are due. *)

From stdpp Require Import list.
From S2P Require Import Prelude Gvcp Gvsp Channel Float64 Frame Reassembly ReassemblyInv ReassemblySafe.

(** * The reference *)

Definition packet_at (f : FrameInFlight) (i : Z) : option PacketState := get_at (slot_packets (f_slot f)) i.

(** A hole whose deadline has passed. *)
Definition due (f : FrameInFlight) (now i : Z) : bool :=
  match packet_at f i with
  | Some p => negb (received p) && match resend_deadline p with Some d => d <? now | None => false end
  | None => false
  end.

(** The packets due among the [len] ones from [lo]. *)
Definition due_ids (f : FrameInFlight) (now lo len : Z) : list Z := List.filter (due f now) (seqZ lo len).

(** The packets some ranges ask for, and the datagrams that carry them. *)
Definition range_ids (r : Z * Z) : list Z := seqZ r.1 (r.2 - r.1 + 1).
Definition asked (ranges : list (Z * Z)) : list Z := concat (range_ids <$> ranges).

Definition next_resend_id (id : Z) : Z := if id =? U16_MAX then RESEND_ID_SEED else id + 1.
Fixpoint requests (id frame_id : Z) (ext : bool) (ranges : list (Z * Z)) : list bytes :=
  match ranges with
  | [] => []
  | (a, b) :: ranges =>
      encode_packet_resend frame_id a b ext (next_resend_id id) :: requests (next_resend_id id) frame_id ext ranges
  end.

(** * Single packets *)

Lemma packet_at_update f i g j : 0 <= i ->
  packet_at (packet_update f i g) j = if decide (j = i) then g <$> packet_at f i else packet_at f j.
Proof.
  intros Hi. unfold packet_at, get_at, packet_update. simpl. case_decide as E.
  - subst. replace (0 <=? i) with true by lia. by rewrite list_lookup_alter_eq.
  - destruct (0 <=? j) eqn:Ej; [|done]. rewrite list_lookup_alter_ne; [done|]. lia.
Qed.

Definition request (deadline : Z) (p : PacketState) : PacketState :=
  {| received := received p; resend_requested := true; resend_deadline := Some deadline |}.

Lemma packet_at_mark n : forall f first d j, 0 <= first ->
  packet_at (mark_requested f first n d) j =
  if decide (first <= j < first + Z.of_nat n) then request d <$> packet_at f j else packet_at f j.
Proof.
  induction n as [|n IH]; intros f first d j Hf; simpl mark_requested; [by rewrite decide_False by lia|].
  rewrite IH, packet_at_update by lia. repeat case_decide; subst; try lia; try done.
Qed.

Lemma packet_at_kept f g i : kept f = kept g -> received <$> packet_at f i = received <$> packet_at g i.
Proof.
  intros E%kept_core. unfold core in E. injection E as _ _ _ _ _ E _ _ _ _ _.
  unfold packet_at, get_at. destruct (0 <=? i); [|done]. by rewrite <- !list_lookup_fmap, E.
Qed.

Lemma due_ids_snoc f now lo len : 0 <= len ->
  due_ids f now lo (len + 1) = due_ids f now lo len ++ if due f now (lo + len) then [lo + len] else [].
Proof.
  intros H. unfold due_ids. rewrite seqZ_app by lia. by rewrite List.filter_app.
Qed.

Lemma asked_snoc ranges a b : asked (ranges ++ [(a, b)]) = asked ranges ++ seqZ a (b - a + 1).
Proof. unfold asked. rewrite fmap_app, concat_app. simpl. by rewrite app_nil_r. Qed.

Lemma mark_requested_ratio n : forall f first d,
  f_resend_ratio_reached (mark_requested f first n d) = f_resend_ratio_reached f.
Proof. induction n as [|n IH]; intros f first d; simpl; [done|]. by rewrite IH. Qed.

(** * The walk *)

Section walk.
Variables (cfg : StreamConfig) (now pid maxr lo : Z) (f0 : FrameInFlight).
Hypothesis Hlo : 0 <= lo.
Hypothesis Hpid : pid < zlen (slot_packets (f_slot f0)).

Definition open_run (sc : Scan) (i : Z) : list Z := match sc_first sc with Some a => seqZ a (i - a) | None => [] end.

(** Before packet [i]: the ranges and the open run, which ends before [e], are
    what is due so far; the packets of the ranges are marked, new holes have
    their first deadline, and the packets from [i] on are as they were. *)
Record walked (e i : Z) (sc : Scan) : Prop := {
  wk_kept : kept (sc_frame sc) = kept f0;
  wk_ids : asked (sc_ranges sc) ++ open_run sc e = due_ids f0 now lo (i - lo);
  wk_first : forall a, sc_first sc = Some a -> lo <= a < e /\ e <= pid + 1 /\ e <= i;
  wk_ranges : Forall (fun '(a, b) => lo <= a <= b /\ b <= pid) (sc_ranges sc);
  wk_count : f_n_resend_requests (sc_frame sc) = f_n_resend_requests f0 + zlen (asked (sc_ranges sc));
  wk_ratio : f_resend_ratio_reached (sc_frame sc) = f_resend_ratio_reached f0;
  wk_budget : sc_ranges sc = [] \/ f_n_resend_requests (sc_frame sc) <= maxr;
  wk_ahead : forall j, i <= j -> packet_at (sc_frame sc) j = packet_at f0 j;
  wk_marked : forall j, j ∈ asked (sc_ranges sc) ->
    exists p, packet_at (sc_frame sc) j = Some p /\ resend_requested p = true /\
      resend_deadline p = Some (now + cfg_packet_timeout cfg);
  wk_new : forall j p, lo <= j < i -> packet_at f0 j = Some p -> received p = false -> resend_deadline p = None ->
    exists p', packet_at (sc_frame sc) j = Some p' /\ resend_deadline p' = Some (now + cfg_initial_packet_timeout cfg) }.

Hypothesis Hinitial : 0 <= cfg_initial_packet_timeout cfg.

(** Looking at packet [i]: it is due or not, and a new hole gets its deadline. *)
Lemma look_spec sc i : walked i i sc -> lo <= i <= pid ->
  exists f, scan_look cfg now pid i (sc_frame sc) = Some (f, due f0 now i) /\
    kept f = kept f0 /\ f_n_resend_requests f = f_n_resend_requests (sc_frame sc) /\
    f_resend_ratio_reached f = f_resend_ratio_reached f0 /\
    (forall j, j <> i -> packet_at f j = packet_at (sc_frame sc) j) /\
    (forall p, packet_at f0 i = Some p -> received p = false -> exists p', packet_at f i = Some p' /\
       (resend_deadline p = None -> resend_deadline p' = Some (now + cfg_initial_packet_timeout cfg))).
Proof.
  intros W Hi. pose proof (wk_ahead i i sc W i ltac:(lia)) as E. unfold scan_look. replace (i <=? pid) with true by lia.
  destruct (get_at_is_Some (slot_packets (f_slot f0)) i) as [p Hp]; [lia|]. change (get_at ?l i) with (packet_at (sc_frame sc) i).
  unfold due. fold (packet_at f0 i) in Hp. rewrite E, Hp. simpl. destruct (received p) eqn:Er.
  - exists (sc_frame sc). split_and!; [done|apply W|done|apply W|done|]. intros p' [= <-]. congruence.
  - eexists. split; [do 2 f_equal; destruct (resend_deadline p); simpl; [reflexivity|lia]|].
    split_and!; [rewrite packet_update_kept; [apply W|done]|done|apply W| |].
    + intros j Hj. rewrite packet_at_update by lia. by rewrite decide_False.
    + intros p' [= <-] _. rewrite packet_at_update by lia. rewrite decide_True by done. rewrite E, Hp. simpl.
      eexists. split; [done|]. by intros ->.
Qed.

(** The walk after looking at packet [i]: a packet that is due joins the run. *)
Lemma walked_look sc i : walked i i sc -> lo <= i <= pid ->
  exists f, scan_look cfg now pid i (sc_frame sc) = Some (f, due f0 now i) /\
    walked (if due f0 now i then i + 1 else i) (i + 1)
      (mkScan f (if due f0 now i then Some (default i (sc_first sc)) else sc_first sc) (sc_ranges sc) false).
Proof.
  intros W Hi. destruct (look_spec sc i W Hi) as (f & Hl & K & N & R & Ho & Hn). exists f. split; [done|].
  assert (forall j, j ∈ asked (sc_ranges sc) -> j <> i) as Hne.
  { intros j Hj ->. assert (i ∈ due_ids f0 now lo (i - lo)) as Hin by (rewrite <- (wk_ids i i sc W); apply elem_of_app; auto).
    apply list_elem_of_In, List.filter_In in Hin as [Hin _]. apply list_elem_of_In, elem_of_seqZ in Hin. lia. }
  destruct W as [W1 W2 W3 W4 W5 WR W6 W7 W8 W9]. split; simpl; try done; try (by rewrite N).
  - replace (i + 1 - lo) with (i - lo + 1) by lia. rewrite due_ids_snoc by lia. rewrite <- W2.
    replace (lo + (i - lo)) with i by lia. unfold open_run. simpl. destruct (due f0 now i); [|by rewrite app_nil_r].
    destruct (sc_first sc) as [a|] eqn:Ea; simpl.
    + destruct (W3 a eq_refl). rewrite <- app_assoc. f_equal. replace (i + 1 - a) with (i - a + 1) by lia.
      rewrite seqZ_app by lia. f_equal. replace (a + (i - a)) with i by lia. done.
    + by replace (i + 1 - i) with 1 by lia; rewrite app_nil_r.
  - intros a. destruct (due f0 now i); [intros [= <-]|intros Ea; destruct (W3 a Ea); lia].
    destruct (sc_first sc) as [a|] eqn:Ea; simpl; [destruct (W3 a eq_refl)|]; lia.
  - intros j Hj. rewrite Ho by lia. apply W7. lia.
  - intros j Hj. rewrite Ho by auto. by apply W8.
  - intros j p Hj Hp Hr Hdl. destruct (decide (j = i)) as [->|].
    + destruct (Hn p Hp Hr) as (p' & ? & Hp'). eauto.
    + rewrite Ho by done. apply (W9 j p); [lia|done..].
Qed.

(** The end of a run: its range is requested, or the frame is over budget. *)
Definition end_run (sc : Scan) (e : Z) : Scan :=
  match sc_first sc with
  | None => mkScan (sc_frame sc) None (sc_ranges sc) false
  | Some first =>
      let n_missing := e - 1 - first + 1 in
      if maxr <? f_n_resend_requests (sc_frame sc) + n_missing then
        mkScan ((sc_frame sc) <| f_n_resend_requests ::= Z.add n_missing |> <| f_resend_ratio_reached := true |>) None
          (sc_ranges sc) true
      else
        mkScan (mark_requested ((sc_frame sc) <| f_n_resend_requests ::= Z.add n_missing |>) first (Z.to_nat n_missing)
                  (now + cfg_packet_timeout cfg)) None (sc_ranges sc ++ [(first, e - 1)]) false
  end.

Lemma walked_end sc e i : walked e i sc -> e <= i -> sc_ratio sc = false ->
  if sc_ratio (end_run sc e)
  then f_resend_ratio_reached (sc_frame (end_run sc e)) = true /\
       maxr < f_n_resend_requests f0 + zlen (due_ids f0 now lo (i - lo)) /\ due_ids f0 now lo (i - lo) <> []
  else walked i i (end_run sc e) /\ sc_first (end_run sc e) = None.
Proof.
  intros W He Hr. unfold end_run. destruct (sc_first sc) as [a|] eqn:Ea.
  2:{ simpl. split; [|done]. destruct W as [W1 W2 W3 W4 W5 WR W6 W7 W8 W9]. split; simpl; try done.
      by rewrite <- W2; unfold open_run; rewrite Ea. }
  destruct (wk_first e i sc W a Ea) as (Ha & Hep & _). pose proof (wk_ids e i sc W) as Hids. unfold open_run in Hids. rewrite Ea in Hids.
  replace (e - 1 - a + 1) with (e - a) by lia.
  assert (zlen (seqZ a (e - a)) = e - a) as Hz by (unfold zlen; rewrite length_seqZ; lia).
  rewrite (wk_count e i sc W). destruct (maxr <? _) eqn:Em; simpl.
  - split; [done|]. rewrite <- Hids, zlen_app, Hz. split; [lia|].
    rewrite seqZ_cons by lia. by destruct (asked (sc_ranges sc)).
  - split; [|done]. assert (forall j p, lo <= j < i -> packet_at f0 j = Some p -> resend_deadline p = None -> ~ a <= j < e) as Hnew.
    { intros j p Hj Hp Hd Hin. assert (j ∈ due_ids f0 now lo (i - lo)) as Hdue.
      { rewrite <- Hids. apply elem_of_app. right. apply elem_of_seqZ. lia. }
      apply list_elem_of_In, List.filter_In in Hdue as [_ Hdue]. unfold due in Hdue. rewrite Hp, Hd in Hdue. by destruct (received p). }
    destruct W as [W1 W2 W3 W4 W5 WR W6 W7 W8 W9].
    assert (forall j, a <= j < e -> exists p, packet_at (sc_frame sc) j = Some p) as Hsome.
    { intros j Hj. apply get_at_is_Some. rewrite (core_packets_len _ _ (kept_core _ _ W1)). lia. }
    split; simpl.
    + by rewrite mark_requested_kept.
    + rewrite asked_snoc, app_nil_r. by replace (e - 1 - a + 1) with (e - a) by lia.
    + done.
    + apply Forall_app. split; [done|]. apply Forall_singleton. lia.
    + rewrite mark_requested_keep. simpl. rewrite asked_snoc, zlen_app. replace (e - 1 - a + 1) with (e - a) by lia. lia.
    + by rewrite mark_requested_ratio.
    + right. rewrite mark_requested_keep. simpl. lia.
    + intros j Hj. rewrite packet_at_mark by lia. rewrite decide_False by lia. by apply W7.
    + intros j. rewrite asked_snoc, elem_of_app. replace (e - 1 - a + 1) with (e - a) by lia. intros Hj.
      rewrite packet_at_mark by lia. case_decide as Hin.
      * destruct (Hsome j) as [p Hp]; [lia|]. change (packet_at _ j) with (packet_at (sc_frame sc) j). rewrite Hp. simpl. by eexists.
      * destruct Hj as [Hj|Hj%elem_of_seqZ]; [|lia]. by apply W8.
    + intros j p Hj Hp Hrc Hd. rewrite packet_at_mark by lia.
      rewrite decide_False by (specialize (Hnew j p Hj Hp Hd); lia). by eapply W9.
Qed.

(** One turn: look, then end the run unless the packet joins it. *)
Lemma scan_step_turn sc i : walked i i sc -> lo <= i <= pid -> sc_ratio sc = false ->
  exists sc', walked (if due f0 now i then i + 1 else i) (i + 1) sc' /\ sc_ratio sc' = false /\
    scan_step cfg now pid maxr i sc = Some (if due f0 now i then sc' else end_run sc' i).
Proof.
  intros W Hi Hr. destruct (walked_look sc i W Hi) as (f & Hl & W'). eexists. split; [exact W'|]. split; [done|].
  unfold scan_step. fold (scan_look cfg now pid i (sc_frame sc)). rewrite Hl. cbn [mbind option_bind].
  replace (pid <? i) with false by lia. unfold end_run. destruct (due f0 now i); simpl; [by destruct (sc_first sc)|].
  destruct (sc_first sc); [|done]. by destruct (maxr <? _).
Qed.

Lemma scan_step_last sc : sc_ratio sc = false -> scan_step cfg now pid maxr (pid + 1) sc = Some (end_run sc (pid + 1)).
Proof.
  intros Hr. unfold scan_step. replace (pid + 1 <=? pid) with false by lia. replace (pid <? pid + 1) with true by lia.
  unfold end_run. simpl. destruct (sc_first sc); [|done]. by destruct (maxr <? _).
Qed.

Lemma due_ids_mono a b : 0 <= a <= b -> zlen (due_ids f0 now lo a) <= zlen (due_ids f0 now lo b) /\
  (due_ids f0 now lo b = [] -> due_ids f0 now lo a = []).
Proof.
  intros H. unfold due_ids. replace b with (a + (b - a)) by lia. rewrite seqZ_app, List.filter_app, zlen_app by lia.
  split; [pose proof (zlen_nonneg (List.filter (due f0 now) (seqZ (lo + a) (b - a)))); lia|]. by intros [? _]%app_nil.
Qed.

Lemma scan_walks k : forall i sc, walked i i sc -> lo <= i -> i + Z.of_nat k = pid + 2 -> (1 <= k)%nat -> sc_ratio sc = false ->
  exists sc', scan cfg now pid maxr k i sc = Some sc' /\
    if sc_ratio sc'
    then f_resend_ratio_reached (sc_frame sc') = true /\
         maxr < f_n_resend_requests f0 + zlen (due_ids f0 now lo (pid + 1 - lo)) /\ due_ids f0 now lo (pid + 1 - lo) <> []
    else walked (pid + 1) (pid + 1) sc' /\ sc_first sc' = None.
Proof.
  induction k as [|k IH]; intros i sc W Hi Hk Hk1 Hr; [lia|]. cbn [scan].
  destruct (decide (i = pid + 1)) as [->|].
  - rewrite scan_step_last by done. cbn [mbind option_bind]. assert (k = 0%nat) as -> by lia. cbn [scan].
    pose proof (walked_end sc (pid + 1) (pid + 1) W ltac:(lia) Hr) as He.
    destruct (sc_ratio (end_run sc (pid + 1))) eqn:E; eexists; (split; [done|]); by rewrite E.
  - destruct (scan_step_turn sc i W ltac:(lia) Hr) as (sc1 & W1 & R1 & ->). cbn [mbind option_bind].
    destruct (due f0 now i); [rewrite R1; by apply IH; [|lia..|]|].
    pose proof (walked_end sc1 i (i + 1) W1 ltac:(lia) R1) as He. destruct (sc_ratio (end_run sc1 i)) eqn:E.
    + eexists. split; [done|]. rewrite E. destruct He as (H1 & H2 & H3).
      destruct (due_ids_mono (i + 1 - lo) (pid + 1 - lo)) as [Hm1 Hm2]; [lia|]. split_and!; [done|lia|auto].
    + destruct He as [He _]. by apply IH; [|lia..|].
Qed.
End walk.

(** * The method *)

Section check.
Context {FC : Chan Frame} {PC : Chan BufSlot} {CC : Chan ToStreamWorker} {HS : PacketHasher}.

Lemma send_ranges_sent ranges : forall s id ext, Forall (fun '(a, b) => u32_ok a /\ u32_ok b) ranges ->
  r_sent (send_ranges s id ext ranges) = r_sent s ++ requests (r_resend_id s) id ext ranges.
Proof.
  induction ranges as [|[a b] ranges IH]; intros s id ext H; [by rewrite app_nil_r|]. apply Forall_cons in H as [[Ha Hb] H].
  simpl. rewrite (IH _ id ext H). simpl. rewrite !wrap_small by width_lia. by rewrite <- app_assoc.
Qed.

Lemma send_ranges_frames ranges : forall s id ext, r_frames (send_ranges s id ext ranges) = r_frames s.
Proof. induction ranges as [|[a b] ranges IH]; intros s id ext; [done|]. simpl. by rewrite IH. Qed.

(** How many requests a frame may use, and where the walk starts. *)
Definition budget (s : StreamRunner) (f : FrameInFlight) : Z :=
  f64_to_usize (f64_mul (f64_of_Z (f_n_packets f)) (cfg_packet_request_ratio (r_cfg s))).
Definition walk_start (f : FrameInFlight) : Z := Z.max (f_last_valid_packet f + 1) 0.

(** What the walk leaves, over all of it. *)
Lemma walk_result cfg now pid maxr f :
  0 <= pid < zlen (slot_packets (f_slot f)) -> 0 <= cfg_initial_packet_timeout cfg ->
  let lo := walk_start f in
  let holes := due_ids f now lo (pid + 1 - lo) in
  exists sc, scan cfg now pid maxr (Z.to_nat (pid + 2 - lo)) lo (mkScan f None [] false) = Some sc /\
    if sc_ratio sc
    then f_resend_ratio_reached (sc_frame sc) = true /\ maxr < f_n_resend_requests f + zlen holes /\ holes <> []
    else asked (sc_ranges sc) = holes /\ walked cfg now pid maxr lo f (Z.max lo (pid + 1)) (Z.max lo (pid + 1)) sc.
Proof.
  intros Hp Hi lo holes. assert (0 <= lo) as Hlo by (unfold lo, walk_start; lia).
  assert (walked cfg now pid maxr lo f lo lo (mkScan f None [] false)) as W.
  { split; simpl; try done; try lia.
    - unfold due_ids. by rewrite seqZ_nil by lia.
    - unfold asked, zlen. simpl. lia.
    - by left.
    - by intros j Hj%elem_of_nil. }
  destruct (decide (pid + 1 < lo)).
  - replace (Z.to_nat _) with 0%nat by lia. eexists. split; [done|]. simpl. split.
    + unfold holes, due_ids. by rewrite seqZ_nil by lia.
    + by rewrite Z.max_l by lia.
  - destruct (scan_walks cfg now pid maxr lo f Hlo ltac:(lia) Hi (Z.to_nat (pid + 2 - lo)) lo _ W) as (sc & E & H); [lia..|done|].
    exists sc. split; [done|]. destruct (sc_ratio sc); [done|]. destruct H as [W' F']. rewrite Z.max_r by lia. split; [|done].
    pose proof (wk_ids _ _ _ _ _ _ _ _ _ W') as Hids. unfold open_run in Hids. by rewrite F', app_nil_r in Hids.
Qed.

(** What the method does when the frame may ask at all. *)
Lemma resend_walk (s : StreamRunner) (index : nat) (f : FrameInFlight) (pid now : Z) :
  r_frames s !! index = Some f -> u32_ok pid -> pid < f_n_packets f <= zlen (slot_packets (f_slot f)) ->
  r_resend_enabled s = true -> f_resend_disabled f = false -> f_resend_ratio_reached f = false ->
  0 <= cfg_initial_packet_timeout (r_cfg s) -> budget s f <> 0 ->
  let lo := walk_start f in
  let holes := due_ids f now lo (pid + 1 - lo) in
  exists sc, scan (r_cfg s) now pid (budget s f) (Z.to_nat (pid + 2 - lo)) lo (mkScan f None [] false) = Some sc /\
    if sc_ratio sc
    then f_resend_ratio_reached (sc_frame sc) = true /\ budget s f < f_n_resend_requests f + zlen holes /\ holes <> [] /\
      missing_packet_check s index pid now =
        Some (s <| r_frames ::= <[index := sc_frame sc]> |> <| r_stats ::= fun st => st <| st_resend_ratio_reached ::= inc |> |>)
    else asked (sc_ranges sc) = holes /\
      walked (r_cfg s) now pid (budget s f) lo f (Z.max lo (pid + 1)) (Z.max lo (pid + 1)) sc /\
      missing_packet_check s index pid now =
        Some (send_ranges (s <| r_frames ::= <[index := sc_frame sc]> |>) (f_frame_id f) (f_extended_ids f) (sc_ranges sc)).
Proof.
  intros Hf Hpid Hn Hen Hdis Hrat Hini Hbud lo holes.
  destruct (walk_result (r_cfg s) now pid (budget s f) f) as (sc & E & H); [width_lia|done|]. fold lo holes in E, H.
  exists sc. split; [done|].
  unfold missing_packet_check. rewrite Hf. cbn [mbind option_bind]. rewrite Hen, Hdis, Hrat. cbn [negb orb]. fold (budget s f).
  replace (budget s f =? 0) with false by lia. replace (f_n_packets f <=? pid) with false by lia. fold (walk_start f). fold lo.
  rewrite E. cbn [mbind option_bind]. destruct (sc_ratio sc); [destruct H as (? & ? & ?)|destruct H]; by split_and!.
Qed.

(** The requests a walk of ranges sends, and what it leaves. *)
Lemma walk_sends (s : StreamRunner) (index : nat) (f : FrameInFlight) (sc : Scan) (pid now e i : Z) :
  u32_ok pid -> walked (r_cfg s) now pid (budget s f) (walk_start f) f e i sc ->
  let s' := send_ranges (s <| r_frames ::= <[index := sc_frame sc]> |>) (f_frame_id f) (f_extended_ids f) (sc_ranges sc) in
  r_frames s' = <[index := sc_frame sc]> (r_frames s) /\
  r_sent s' = r_sent s ++ requests (r_resend_id s) (f_frame_id f) (f_extended_ids f) (sc_ranges sc).
Proof.
  intros Hp W s'. unfold s'. rewrite send_ranges_frames, send_ranges_sent; [done|].
  eapply Forall_impl; [exact (wk_ranges _ _ _ _ _ _ _ _ _ W)|]. intros [a b] ?. unfold walk_start in *. width_lia.
Qed.

(** C8: resend requests ask for exactly the holes that are due.  For an open
    frame and the packets up to one it has, the walk of the receiver sends, in
    requests for ranges, every hole whose deadline has passed, each once, in
    order, and nothing else, as long as that stays within the frame's
    budget: those packets get a new deadline and are counted, and a hole seen
    for the first time gets its first one.  Otherwise it sends nothing, now or
    for this frame ever again. *)
Theorem resend_requests_exact (s : StreamRunner) (index : nat) (f : FrameInFlight) (pid now : Z) :
  r_frames s !! index = Some f -> u32_ok pid -> pid < f_n_packets f <= zlen (slot_packets (f_slot f)) ->
  r_resend_enabled s = true -> f_resend_disabled f = false -> f_resend_ratio_reached f = false ->
  0 <= cfg_initial_packet_timeout (r_cfg s) -> budget s f <> 0 ->
  let lo := walk_start f in
  let holes := due_ids f now lo (pid + 1 - lo) in
  exists s' f', missing_packet_check s index pid now = Some s' /\ r_frames s' = <[index := f']> (r_frames s) /\
    (holes = [] \/ f_n_resend_requests f + zlen holes <= budget s f ->
     (exists ranges, asked ranges = holes /\
        r_sent s' = r_sent s ++ requests (r_resend_id s) (f_frame_id f) (f_extended_ids f) ranges) /\
     f_n_resend_requests f' = f_n_resend_requests f + zlen holes /\
     (forall i, i ∈ holes -> exists p, packet_at f' i = Some p /\ resend_requested p = true /\
        resend_deadline p = Some (now + cfg_packet_timeout (r_cfg s))) /\
     (forall i p, lo <= i <= pid -> packet_at f i = Some p -> received p = false -> resend_deadline p = None ->
        exists p', packet_at f' i = Some p' /\ resend_deadline p' = Some (now + cfg_initial_packet_timeout (r_cfg s)))) /\
    (holes <> [] -> budget s f < f_n_resend_requests f + zlen holes ->
     r_sent s' = r_sent s /\ forall pid' now', missing_packet_check s' index pid' now' = Some s').
Proof.
  intros Hf Hpid Hn Hen Hdis Hrat Hini Hbud lo holes.
  destruct (resend_walk s index f pid now) as (sc & E & H); try done. fold lo holes in E, H. destruct (sc_ratio sc).
  - destruct H as (Hr & Hb & Hh & E'). do 2 eexists. split; [exact E'|]. split; [done|]. split; [intros [?|?]; [done|lia]|].
    intros _ _. split; [done|]. intros pid' now'. unfold missing_packet_check. simpl.
    rewrite (insert_lookup_self _ _ _ _ Hf). simpl. by rewrite Hr, orb_true_r.
  - destruct H as (Ha & W & E'). do 2 eexists. split; [exact E'|]. destruct (walk_sends s index f sc pid now _ _ Hpid W) as [Hfr Hs].
    split; [exact Hfr|]. destruct W as [W1 W2 W3 W4 W5 WR W6 W7 W8 W9]. split.
    + intros _. split_and!.
      * exists (sc_ranges sc). split; [done|exact Hs].
      * by rewrite W5, Ha.
      * intros i Hi. apply W8. by rewrite Ha.
      * intros i p Hi. apply W9. lia.
    + intros Hh Hb. destruct W6 as [W6|W6]; [by rewrite <- Ha, W6 in Hh|]. rewrite W5, Ha in W6. lia.
Qed.
End check.

(** A frame of eight packets with two holes that are due, one that is new, and
    a budget of two; the channels are the reference queues. *)
Definition ex_packet (got : bool) (deadline : option Z) : PacketState :=
  {| received := got; resend_requested := false; resend_deadline := deadline |}.
Definition ex_holes : list PacketState :=
  [ex_packet true None; ex_packet false (Some 5); ex_packet false (Some 5); ex_packet true None; ex_packet false None;
   ex_packet true None; ex_packet false None; ex_packet false None].

Definition ex_frame : FrameInFlight :=
  {| f_frame_id := 7; f_extended_ids := false; f_slot := {| slot_data := []; slot_packets := ex_holes |};
     f_n_packets := 8; f_block_size := 100; f_block_known := true; f_held := []; f_held_bytes := 0; f_trailer_seen := false;
     f_last_valid_packet := 0; f_received_size := 0; f_data_end := 0; f_last_packet_time := 9; f_leader := None;
     f_system_timestamp_ns := 0; f_error := None; f_resend_disabled := false; f_resend_ratio_reached := false;
     f_n_resend_requests := 0; f_fingerprints := Fingerprints_default; f_replay_of := None; f_absorbed := 0 |}.

Definition ex_runner : StreamRunner :=
  (runner_new 9 (mkQueue [] None true : chan ToStreamWorker) (FramePool_new 2 4 : chan BufSlot) StreamConfig_new 100 4 true 0)
    <| r_frames := [ex_frame] |>.

Lemma resend_requests_exact_witness :
  exists s' ranges, missing_packet_check ex_runner 0 5 10 = Some s' /\ asked ranges = [1; 2] /\
    r_sent s' = requests RESEND_ID_SEED 7 false ranges.
Proof.
  destruct (resend_requests_exact ex_runner 0 ex_frame 5 10) as (s' & f' & E & _ & H & _);
    [reflexivity|by vm_compute|by vm_compute|reflexivity|reflexivity|reflexivity|by vm_compute|by vm_compute|].
  destruct H as ((ranges & Ha & Hs) & _); [right; vm_compute; discriminate|].
  exists s', ranges. split; [exact E|]. split; [rewrite Ha; vm_compute; reflexivity|exact Hs].
Defined.
