(* ===== verification/Deadlines.v ===== *)
(** The resend state of open frames, through every operation of the receiver
    of [src/src/gige/stream/runner.rs]: which block ids a frame has, whether
    it may ask for packets again, and how late its deadlines are. *)

From stdpp Require Import list.
From S2P Require Import Prelude Gvcp Gvsp Channel Float64 Frame Reassembly ReassemblyInv ReassemblySafe Resend.

(** * Frames *)

Section calm.
(** The id layout of the stream, the configuration and the time up to which
    the clock has been read. *)
Variables (ext : bool) (cfg : StreamConfig) (T : Z).

(** The latest a deadline set by now can be. *)
Definition patience : Z := Z.max (cfg_initial_packet_timeout cfg) (cfg_packet_timeout cfg).
Definition deadline_ok (p : PacketState) : Prop := forall d, resend_deadline p = Some d -> d <= T + patience.

(** A frame of the stream asks for packets unless it may be a replay, and no
    deadline of it is far away. *)
Record calm (f : FrameInFlight) : Prop := {
  cm_ext : f_extended_ids f = ext;
  cm_asks : f_resend_disabled f = is_provisional f;
  cm_deadlines : Forall deadline_ok (slot_packets (f_slot f)) }.

(** What an operation leaves alone when it is not about resends. *)
Definition side (f : FrameInFlight) := (f_extended_ids f, f_resend_disabled f, f_replay_of f, slot_packets (f_slot f)).

Lemma calm_side f g : side f = side g -> calm f -> calm g.
Proof.
  unfold side. intros [= E1 E2 E3 E4] [H1 H2 H3]. split; [by rewrite <- E1| |by rewrite <- E4].
  rewrite <- E2, H2. unfold is_provisional. by rewrite E3.
Qed.

Lemma deadline_ok_default : deadline_ok PacketState_default.
Proof. by intros d. Qed.

Lemma calm_resize l n : Forall deadline_ok l -> Forall deadline_ok (resize l n).
Proof.
  intros H. unfold resize. apply Forall_app. split; [by apply Forall_take|].
  apply Forall_replicate, deadline_ok_default.
Qed.

Lemma calm_set_n_packets f n : calm f -> calm (FrameInFlight_set_n_packets f n).
Proof. intros [H1 H2 H3]. split; [done|done|by apply calm_resize]. Qed.

Lemma calm_update f i g : (forall p, deadline_ok p -> deadline_ok (g p)) -> calm f -> calm (packet_update f i g).
Proof. intros Hg [H1 H2 H3]. split; [done|done|]. simpl. by apply Forall_alter; [|intros x ? ?; apply Hg]. Qed.

Lemma place_side f pid d st f' st' : FrameInFlight_place f pid d st = Some (f', st') -> side f' = side f.
Proof.
  unfold FrameInFlight_place, checked_sub, write_block. intros E.
  repeat (simpl in E; first
    [ discriminate | injection E as <- _; done
    | match type of E with context [if ?b then _ else _] => destruct b end
    | match type of E with context [get_range ?l ?a ?b] => destruct (get_range l a b) end ]).
Qed.

Lemma place_held_side held : forall f st f' st', place_held held f st = Some (f', st') -> side f' = side f.
Proof.
  induction held as [|[i d] held IH]; intros f st f' st' E; simpl in E; [by injection E as <- _|].
  destruct (f_error f); [by injection E as <- _|]. destruct (_ <? _); [by injection E as <- _|].
  destruct (FrameInFlight_place f i d st) as [[g st1]|] eqn:Ep; [|discriminate]. simpl in E.
  by rewrite (IH _ _ _ _ E), (place_side _ _ _ _ _ _ Ep).
Qed.

Lemma calm_learn P f d f' b : learn_block P f d = Some (f', b) -> calm f -> calm f'.
Proof.
  unfold learn_block. intros E H. set (g := match d with [] => _ | _ => _ end) in E.
  assert (calm g) as Hg by (unfold g; destruct d; by apply (calm_side f)).
  clearbody g. destruct (_ =? 0); [discriminate|].
  destruct (negb _); [injection E as <- _; by apply calm_set_n_packets|].
  destruct (_ <? _); injection E as <- _; [|done]. by apply (calm_side g).
Qed.

Lemma calm_leader f v sys : calm f -> calm (process_leader f v sys).
Proof. intros H. unfold process_leader. destruct (f_error f); [done|]. destruct (negb _); by apply (calm_side f). Qed.

Lemma calm_payload `{FC : Chan Frame, PC : Chan BufSlot, CC : Chan ToStreamWorker} (s : StreamRunner) f v f' st' :
  process_payload s f v = Some (f', st') -> calm f -> calm f'.
Proof.
  unfold process_payload. intros E H. destruct (f_error f); [by injection E as <- _|]. simpl in E.
  set (l := if _ && _ then _ else _) in E.
  assert (forall g b, l = Some (g, b) -> calm g) as Hl.
  { unfold l. intros g b. destruct (_ && _); [|by intros [= <- _]]. intros El. by eapply calm_learn. }
  clearbody l. destruct l as [[g b]|]; [|discriminate]. specialize (Hl g b eq_refl). cbn [mbind option_bind] in E.
  destruct (negb b); [by injection E as <- _|].
  destruct (if _ || _ then _ else _) as [m|]; [|discriminate]. cbn [mbind option_bind] in E.
  destruct (_ || _); [injection E as <- _; by apply (calm_side g)|].
  destruct (negb (f_block_known g)).
  - simpl in E. destruct (_ <? _); [injection E as <- _; by apply (calm_side g)|]. injection E as <- _.
    destruct (_ <? _); [|by apply (calm_side g)].
    eapply calm_side; [|apply calm_set_n_packets, (calm_side g); [reflexivity|done]]. done.
  - destruct (FrameInFlight_place _ _ _ _) as [[g1 st1]|] eqn:Ep; [|discriminate]. cbn [mbind option_bind] in E.
    destruct (place_held _ _ _) as [[g2 st2]|] eqn:Eh; [|discriminate]. cbn [mbind option_bind] in E.
    injection E as <- _. apply (calm_side g); [|done].
    change (side g = side g2). by rewrite (place_held_side _ _ _ _ _ Eh), <- (place_side _ _ _ _ _ _ Ep).
Qed.

Lemma calm_trailer `{FC : Chan Frame, PC : Chan BufSlot, CC : Chan ToStreamWorker} (s : StreamRunner) f v f' :
  process_trailer s f v = Some f' -> calm f -> calm f'.
Proof.
  unfold process_trailer. simpl. destruct (f_error f); [intros [= <-] H; by apply (calm_side f)|]. intros E H.
  set (bd := if _ : bool then (if _ =? 0 then _ else _) else Some _) in E. destruct bd; [|discriminate].
  simpl in E. destruct (_ || _); [injection E as <-; by apply (calm_side f)|].
  destruct (negb _); injection E as <-; [|by apply (calm_side f)].
  apply calm_set_n_packets. by apply (calm_side f).
Qed.

(** * The walk for missing packets *)

Lemma calm_mark n : forall f first now, now <= T -> calm f -> calm (mark_requested f first n (now + cfg_packet_timeout cfg)).
Proof.
  induction n as [|n IH]; intros f first now Hn H; simpl; [done|]. apply IH; [done|]. apply calm_update; [|done].
  intros p _ d [= <-]. unfold patience. lia.
Qed.

(** The frame of the walk with a deadline for every hole before packet [i]. *)
Definition armed (f : FrameInFlight) (lo i : Z) : Prop :=
  forall j p, lo <= j < i -> packet_at f j = Some p -> received p = false -> resend_deadline p <> None.

Lemma armed_mark n f first d lo i : 0 <= first -> armed f lo i -> armed (mark_requested f first n d) lo i.
Proof.
  intros Hf H j p Hj. rewrite packet_at_mark by done. case_decide; [|by apply H].
  destruct (packet_at f j); [|done]. simpl. by intros [= <-].
Qed.

Lemma calm_at f i p : calm f -> packet_at f i = Some p -> deadline_ok p.
Proof.
  intros [_ _ H] E. unfold packet_at, get_at in E. destruct (0 <=? i); [|discriminate]. by apply (Forall_lookup_1 _ _ _ _ H E).
Qed.

(** Looking at a packet arms it if it is missing. *)
Lemma calm_look now pid lo i f f' need : now <= T -> 0 <= i -> calm f -> armed f lo i ->
  scan_look cfg now pid i f = Some (f', need) -> calm f' /\ (i <= pid -> armed f' lo (i + 1)) /\ armed f' lo i.
Proof.
  intros Hn Hi H A. unfold scan_look. destruct (i <=? pid) eqn:E; [|intros [= <- _]; split_and!; [done|lia|done]].
  change (get_at (slot_packets (f_slot f)) i) with (packet_at f i).
  destruct (packet_at f i) as [p|] eqn:Ep; [|discriminate]. simpl. destruct (received p) eqn:Er.
  - intros [= <- _]. split_and!; [done| |done]. intros _ j q Hj Hq Hr.
    destruct (decide (j = i)) as [->|]; [congruence|]. apply (A j q); [lia|done..].
  - intros [= <- _]. set (dl := default _ _).
    assert (dl <= T + patience) as Hdl.
    { unfold dl. destruct (resend_deadline p) as [d|] eqn:Ed; simpl; [by eapply calm_at|unfold patience; lia]. }
    assert (armed (packet_update f i (fun p => {| received := received p; resend_requested := resend_requested p;
                                                  resend_deadline := Some dl |})) lo (i + 1)) as A'.
    { intros j q Hj. rewrite packet_at_update by done. case_decide as D.
      - destruct (packet_at f _); simpl; [by intros [= <-]|done].
      - apply A. lia. }
    split_and!; [|done|].
    + apply calm_update; [|done]. intros q _ d [= <-]. done.
    + intros j q Hj. apply A'. lia.
Qed.

Lemma scan_calm now pid maxr lo k : forall i sc sc', now <= T -> 0 <= i -> i + Z.of_nat k = pid + 2 ->
  calm (sc_frame sc) -> armed (sc_frame sc) lo i -> (forall a, sc_first sc = Some a -> 0 <= a) ->
  scan cfg now pid maxr k i sc = Some sc' ->
  calm (sc_frame sc') /\ (sc_ratio sc' = false -> armed (sc_frame sc') lo (pid + 1)).
Proof.
  induction k as [|k IH]; intros i sc sc' Hn Hi Hk H A Hfst; cbn [scan].
  - intros [= <-]. split; [done|]. intros _ j p Hj. apply A. lia.
  - destruct (scan_step cfg now pid maxr i sc) as [sc1|] eqn:Es; [|discriminate]. cbn [mbind option_bind].
    enough (calm (sc_frame sc1) /\ armed (sc_frame sc1) lo (Z.min (i + 1) (pid + 1)) /\ (forall a, sc_first sc1 = Some a -> 0 <= a))
      as (H1 & A1 & F1).
    { destruct (sc_ratio sc1) eqn:Er; [intros [= <-]; split; [done|by rewrite Er]|].
      destruct (decide (k = 0%nat)) as [->|].
      - intros [= <-]. split; [done|]. intros _ j p Hj. apply A1. lia.
      - apply IH; [done|lia|lia|done| |done]. by rewrite Z.min_l in A1 by lia. }
    revert Es. unfold scan_step. fold (scan_look cfg now pid i (sc_frame sc)).
    destruct (scan_look cfg now pid i (sc_frame sc)) as [[f need]|] eqn:El; [|discriminate]. cbn [mbind option_bind].
    destruct (calm_look now pid lo i _ _ _ Hn Hi H A El) as (Hf & Af & Af').
    assert (armed f lo (Z.min (i + 1) (pid + 1))) as Am.
    { destruct (decide (i <= pid)); [rewrite Z.min_l by lia; auto|]. intros j p Hj. apply Af'. lia. }
    clear Af Af' El.
    set (first := match sc_first sc with Some _ => _ | None => _ end).
    assert (forall a, first = Some a -> 0 <= a) as F.
    { intros a. unfold first. destruct (sc_first sc); [apply Hfst|]. destruct need; by intros [= <-]. }
    clearbody first. destruct (_ || _); [|by intros [= <-]].
    destruct first as [a|]; [|by intros [= <-]]. specialize (F a eq_refl).
    destruct (maxr <? _); intros [= <-]; simpl; (split_and!; [|exact Am || by apply armed_mark|done]).
    + by apply (calm_side f).
    + apply calm_mark; [done|]. by apply (calm_side f).
Qed.
End calm.

Lemma calm_mono ext cfg T T' f : T <= T' -> calm ext cfg T f -> calm ext cfg T' f.
Proof. intros H [H1 H2 H3]. split; [done|done|]. eapply Forall_impl; [exact H3|]. intros p Hp d Hd. specialize (Hp d Hd). lia. Qed.

(** * The receiver *)

Section receiver.
Context {FC : Chan Frame} {PC : Chan BufSlot} {CC : Chan ToStreamWorker} {HS : PacketHasher}.
Variables (ext : bool) (cfg : StreamConfig) (T : Z).
Abbreviation calm := (calm ext cfg T).

Record calm_state (s : StreamRunner) : Prop := {
  cs_enabled : r_resend_enabled s = true;
  cs_cfg : r_cfg s = cfg;
  cs_frames : Forall calm (r_frames s) }.

(** What no packet changes. *)
Definition steady (s : StreamRunner) := (r_resend_enabled s, r_cfg s).

Lemma calm_steady s s' : steady s' = steady s -> Forall calm (r_frames s') -> calm_state s -> calm_state s'.
Proof. unfold steady. intros [= E1 E2] H [H1 H2 _]. split; congruence. Qed.

Lemma calm_state_update s s' index f : steady s' = steady s -> r_frames s' = <[index := f]> (r_frames s) -> calm f ->
  calm_state s -> calm_state s'.
Proof.
  intros E F Hf H. apply (calm_steady s); [done| |done]. rewrite F. apply Forall_insert; [apply H|done].
Qed.

Lemma calm_lookup s index f : calm_state s -> r_frames s !! index = Some f -> calm f.
Proof. intros [_ _ H] E. by apply (Forall_lookup_1 _ _ _ _ H E). Qed.

Lemma send_ranges_steady ranges : forall s id e, steady (send_ranges s id e ranges) = steady s.
Proof. induction ranges as [|[a b] ranges IH]; intros s id e; [done|]. simpl. by rewrite IH. Qed.

(** The walk of a frame sends nothing or its ranges, and arms its holes. *)
Lemma check_calm s index pid now s' : now <= T -> missing_packet_check s index pid now = Some s' -> calm_state s -> calm_state s'.
Proof.
  intros Hn. unfold missing_packet_check. intros E H. destruct (r_frames s !! index) as [f|] eqn:Hf; [|discriminate]. simpl in E.
  destruct (_ || _); [by injection E as <-|]. destruct (_ =? 0); [by injection E as <-|]. destruct (_ <=? pid); [by injection E as <-|].
  set (maxr := f64_to_usize _) in E. set (i := Z.max _ 0) in E.
  destruct (scan _ _ _ _ _ _ _) as [sc|] eqn:Es; [|discriminate]. cbn [mbind option_bind] in E.
  assert (calm (sc_frame sc)) as Hc.
  { pose proof (calm_lookup s index f H Hf) as Hcf. destruct (decide (i <= pid + 2)).
    - rewrite (cs_cfg s H) in Es.
      apply (scan_calm ext cfg T now pid maxr i (Z.to_nat (pid + 2 - i)) i (mkScan f None [] false) sc Hn); try done; [lia|lia|]. intros j p Hj. lia.
    - replace (Z.to_nat _) with 0%nat in Es by lia. by injection Es as <-. }
  destruct (sc_ratio sc); injection E as <-; [by apply (calm_state_update s _ index (sc_frame sc))|].
  match goal with |- context [foldl ?g ?t ?l] =>
    change (foldl g t l) with (send_ranges t (f_frame_id f) (f_extended_ids f) l) end.
  apply (calm_state_update s _ index (sc_frame sc)); [by rewrite send_ranges_steady|by rewrite send_ranges_frames|done|done].
Qed.

Lemma drain_commands_steady s : steady (drain_commands s) = steady s.
Proof.
  unfold drain_commands. destruct (recv_all (r_rx s)) as [cmds rx].
  enough (forall t, steady (foldl apply_command t cmds) = steady t) as H by (by rewrite H).
  induction cmds as [|c cmds IH]; intros t; simpl; [done|]. rewrite IH. by destruct c.
Qed.

Lemma close_calm s index status s' : close_frame s index status = Some s' -> calm_state s -> calm_state s'.
Proof.
  unfold close_frame. intros E H. destruct (drain_commands_keep s) as [_ Hf]. pose proof (drain_commands_steady s) as Hs.
  destruct (r_frames (drain_commands s) !! index) as [f|]; [|discriminate]. cbn [mbind option_bind] in E.
  destruct (fan_out _ _) as [[subs dropped] taken]. injection E as <-.
  apply (calm_steady s); [rewrite <- Hs| |done].
  - destruct taken, (0 <? dropped); destruct status; unfold remember; simpl; by destruct (_ <=? _).
  - enough (Forall calm (delete index (r_frames (drain_commands s)))) as Hd
      by (destruct taken, (0 <? dropped); destruct status; unfold remember; simpl; by destruct (_ <=? _)).
    rewrite Hf. apply Forall_delete, H.
Qed.

Lemma discard_calm s index s' : discard_frame s index = Some s' -> calm_state s -> calm_state s'.
Proof.
  unfold discard_frame. destruct (r_frames s !! index); [|discriminate]. simpl. intros [= <-] H.
  apply (calm_steady s); [done| |done]. apply Forall_delete, H.
Qed.

Lemma completion_calm now current fuel : now <= T -> forall s index cc s', completion_loop fuel s now current index cc = Some s' ->
  calm_state s -> calm_state s'.
Proof.
  intros Hn. induction fuel as [|fuel IH]; intros s index cc s'; cbn [completion_loop]; (destruct (_ <=? _)%nat; [by intros [= <-]|]);
    [discriminate|].
  destruct (completion_step s now current index cc) as [[[s1 i1] c1]|] eqn:Es; [|discriminate]. cbn [mbind option_bind].
  intros E H. apply (IH _ _ _ _ E). clear E. revert Es. unfold completion_step.
  destruct (r_frames s !! index) as [f|]; [|discriminate]. cbn [mbind option_bind].
  assert (forall o k c, (forall t, o = Some t -> calm_state t) -> (t ← o; Some (t, k, c)) = Some (s1, i1, c1) -> calm_state s1) as Hb.
  { intros [t|] k c Ho; [|discriminate]. intros [= <- _ _]. by apply Ho. }
  repeat match goal with |- context [if ?b then _ else _] => destruct b end;
    try (by intros [= <- _ _]); try (apply Hb; intros t Et; first [by apply (close_calm _ _ _ _ Et)|by apply (discard_calm _ _ _ Et)]).
  destruct (checked_sub _ _) as [l|]; [|discriminate]. simpl. apply Hb. intros t Et. by apply (check_calm _ _ _ _ _ Hn Et).
Qed.

(** ** One packet *)

(** A packet of the stream that is not an error report. *)
Definition proper (v : GvspView) : Prop := is_error (v_status v) = false /\ v_extended_ids v = ext.

Lemma discard_provisional_calm s s' : discard_provisional s = Some s' -> calm_state s -> calm_state s'.
Proof.
  unfold discard_provisional. generalize (length (r_frames s)) as n. intros n. revert s.
  induction n as [|n IH]; intros s; simpl; destruct (position _ _); try (by intros [= <-]).
  destruct (discard_frame s n0) as [t|] eqn:Ed; [|discriminate]. simpl. intros E H. by apply (IH t E), (discard_calm _ _ _ Ed).
Qed.

Lemma create_calm s v now inc_ replay s' found : proper v -> create_frame s v now inc_ replay = Some (s', found) ->
  calm_state s -> calm_state s'.
Proof.
  intros [_ Hv]. unfold create_frame. set (o := if _ : bool then Some s else _).
  assert (forall t, o = Some t -> calm_state s -> calm_state t) as Ho.
  { unfold o. intros t. destruct replay; [by intros [= <-]|]. apply discard_provisional_calm. }
  clearbody o. intros E H. destruct o as [t|]; [|discriminate]. specialize (Ho t eq_refl H). clear H. cbn [mbind option_bind] in E.
  assert (forall t', steady t' = steady t -> r_frames t' = r_frames t -> calm_state t') as Hsame.
  { intros t' E1 E2. apply (calm_steady t); [done| |done]. rewrite E2. apply Ho. }
  destruct (_ =? 0).
  { destruct replay; simpl in E; injection E as <- _; apply Hsame; unfold remember; by try destruct (_ <=? _). }
  destruct (FramePool_try_claim _) as [[slot pool]|].
  2:{ destruct replay; injection E as <- _; apply Hsame; unfold remember; by try destruct (_ <=? _). }
  injection E as <- _. apply (calm_steady t); [by destruct replay, (1 <? inc_)| |done]. simpl. apply Forall_app.
  split; [destruct replay, (1 <? inc_); apply Ho|]. apply Forall_singleton. split; [done|by destruct replay|].
  simpl. apply calm_resize. constructor.
Qed.

Lemma find_calm s v now s' found : proper v -> find_or_create_frame s v now = Some (s', found) -> calm_state s -> calm_state s'.
Proof.
  intros Hv. unfold find_or_create_frame. destruct (position _ _) as [i|].
  - intros [= <- _] H. apply (calm_steady s); [done| |done]. simpl. apply Forall_alter; [apply H|].
    intros f _ Hf. by apply (calm_side _ _ _ f).
  - destruct (_ && _); [|by apply create_calm]. destruct (classify_behind s v); [by apply create_calm| |by apply create_calm].
    intros [= <- _] H. by apply (calm_steady s); [|apply H|].
Qed.

Lemma dispatch_calm s index v sys s' : dispatch_packet s index v sys = Some (Some s') -> calm_state s -> calm_state s'.
Proof.
  unfold dispatch_packet. intros E H. destruct (r_frames s !! index) as [f|] eqn:Hf; [|discriminate]. cbn [mbind option_bind] in E.
  pose proof (calm_lookup s index f H Hf) as Hc. destruct (v_content_type v); try discriminate.
  - injection E as <-. apply (calm_state_update s _ index (process_leader f v sys)); [done|done| |done]. by apply calm_leader.
  - destruct (process_trailer s f v) as [g|] eqn:Et; [|discriminate]. injection E as <-.
    apply (calm_state_update s _ index g); [done|done| |done]. by apply (calm_trailer _ _ _ s f v g Et).
  - destruct (process_payload s f v) as [[g st]|] eqn:Et; [|discriminate]. injection E as <-.
    apply (calm_state_update s _ index g); [done|done| |done]. by apply (calm_payload _ _ _ s f v g st Et).
Qed.

Lemma accept_calm s index v s' b : accept_packet s index v = Some (s', b) -> calm_state s -> calm_state s'.
Proof.
  unfold accept_packet. intros E H. destruct (r_frames s !! index) as [f|] eqn:Hf; [|discriminate]. cbn [mbind option_bind] in E.
  pose proof (calm_lookup s index f H Hf) as Hc. set (o := if _ <? _ then _ else _) in E.
  assert (forall g st, o = Some (g, st) -> calm g) as Ho.
  { intros g st. unfold o. destruct (_ <? _); [|by intros [= <- _]]. destruct (get_at _ _); [|discriminate].
    intros [= <- _]. by apply calm_update. }
  clearbody o. destruct o as [[g st]|]; [|discriminate]. specialize (Ho g st eq_refl). cbn [mbind option_bind] in E.
  destruct (Fingerprints_record _ _ _) as [fps d]. injection E as <- _.
  match goal with |- context [<[index := ?h]>] => apply (calm_state_update s _ index h); [done|done| |done] end.
  by apply (calm_side _ _ _ g).
Qed.

Lemma adopt_calm s index s' : adopt_restart s index = Some s' -> calm_state s -> calm_state s'.
Proof.
  unfold adopt_restart. intros E H. destruct (r_frames s !! index) as [f|] eqn:Hf; [|discriminate]. injection E as <-.
  destruct (calm_lookup s index f H Hf) as [H1 H2 H3].
  match goal with |- context [<[index := ?h]>] => by apply (calm_state_update s _ index h) end.
Qed.

Lemma in_frame_calm s index v now sys s' : now <= T -> proper v -> process_in_frame s index v now sys = Some s' ->
  calm_state s -> calm_state s'.
Proof.
  intros Hn [Hv _]. unfold process_in_frame. intros E H. destruct (r_frames s !! index) as [f|] eqn:Hf; [|discriminate].
  cbn [mbind option_bind] in E. rewrite Hv in E. set (t := if is_provisional f then _ else s) in E.
  assert (calm_state t) as Ht.
  { unfold t. destruct (is_provisional f); [|done]. pose proof (calm_lookup s index f H Hf) as Hc.
    match goal with |- context [<[index := ?h]>] => apply (calm_state_update s _ index h); [done|done| |done] end.
    by apply (calm_side _ _ _ f). }
  clearbody t. clear H Hf s. assert (forall st, calm_state (t <| r_stats := st |>)) as Hst by (intros st; by destruct Ht).
  destruct (match get_at _ _ with Some p => _ | None => _ end).
  { injection E as <-. destruct (is_provisional f); [done|]. apply (calm_steady t); [done|apply Ht|done]. }
  destruct (dispatch_packet t index v sys) as [[t1|]|] eqn:E1; [|injection E as <-; destruct (is_provisional f); [done|apply Hst]|discriminate].
  cbn [mbind option_bind] in E. apply dispatch_calm in E1; [|done].
  destruct (accept_packet t1 index v) as [[t2 b]|] eqn:E2; [|discriminate]. cbn [mbind option_bind] in E. apply accept_calm in E2; [|done].
  set (o := if _ && _ then _ else _) in E.
  assert (forall t3, o = Some t3 -> calm_state t3) as Ho.
  { intros t3. unfold o. destruct (_ && _); [|by intros [= <-]]. intros E3. by apply (adopt_calm _ _ _ E3). }
  clearbody o. destruct o as [t3|]; [|discriminate]. specialize (Ho t3 eq_refl). cbn [mbind option_bind] in E.
  destruct (missing_packet_check t3 index _ now) as [t4|] eqn:E4; [|discriminate]. cbn [mbind option_bind] in E.
  apply check_calm in E4; [|done|done]. destruct (r_frames t4 !! index); [|discriminate].
  by apply (completion_calm now (Some (f_frame_id f0)) _ Hn _ _ _ _ E).
Qed.

Lemma packet_calm s dg now sys s' : now <= T -> (forall v, GvspView_parse dg = Some v -> proper v) ->
  process_packet s dg now sys = Some s' -> calm_state s -> calm_state s'.
Proof.
  intros Hn Hp. unfold process_packet. destruct (GvspView_parse dg) as [v|]; [|intros [= <-] H; by apply (calm_steady s); [|apply H|]].
  specialize (Hp v eq_refl). set (t := if r_first_packet s then _ else s). intros E H.
  assert (calm_state t) as Ht by (unfold t; destruct (r_first_packet s); [|done]; by apply (calm_steady s); [|apply H|]).
  clearbody t. destruct (find_or_create_frame t v now) as [[t1 found]|] eqn:Ef; [|discriminate]. cbn [mbind option_bind] in E.
  apply find_calm in Ef; [|done|done]. destruct found as [index|]; [|by injection E as <-].
  by apply (in_frame_calm _ _ _ _ _ _ Hn Hp E).
Qed.
End receiver.
