(* ===== verification/Recovery.v ===== *)
(** Lost packets come back: the receiver of [src/src/gige/stream/runner.rs]
    and the device of [src/src/emulator/mod.rs] over a link that loses
    packets of a burst.  The burst leaves holes; two looks at the clock
    request every one of them; the device reads those requests; and the
    packets it was asked for complete the frame. *)

From stdpp Require Import list.
From S2P Require Import Prelude Gvcp Gvsp Channel Float64 Frame Reassembly ReassemblyInv ReassemblySafe Burst Bootstrap.
From S2P Require Import Emulator DeviceStream DeviceControl Resend Deadlines.

Definition recv_time (r : RecvResult) : Z := match r with RecvDatagram _ _ _ now _ => now | _ => 0 end.
(** The time of the last of these datagrams. *)
Definition last_time (t : Z) (rs : list RecvResult) : Z := foldl (fun _ r => recv_time r) t rs.

Section holes.
Context {FC : Chan Frame} {PC : Chan BufSlot} {CC : Chan ToStreamWorker} {HS : PacketHasher}.
Variables (id : Z) (ext : bool) (ds : list bytes) (bs P : Z).
Hypothesis OK : burst_ok ds bs P.
Variable src : Z -> Z -> bytes -> Prop.
Hypothesis burst_in_src : forall i k d, burst_src id ds i k d -> src i k d.
Variable (ldr : ImageLeader) (dat : Z -> bytes).
Hypothesis id_width : u64_ok id /\ (ext = false -> u16_ok id).
Variables (ip : Z) (cfg : StreamConfig).
Hypothesis retention : 0 < cfg_frame_retention cfg.

Abbreviation burst_state := (burst_state id ext ds bs P src ldr dat).
Abbreviation runner_inv := (runner_inv src P ip).
Abbreviation calm_state := (calm_state ext cfg).

(** * Part of a burst *)

(** The frame is open with the packets [qs], the last one at [t]. *)
Record waiting (qs : list Z) (s : StreamRunner) (f : FrameInFlight) (t T : Z) : Prop := {
  wt_inv : runner_inv s;
  wt_burst : burst_state qs s f t;
  wt_calm : calm_state T s }.

Lemma packet_input_proper k r dg drops now sys :
  packet_input id ext ds ldr dat ip k r -> r = RecvDatagram ip dg drops now sys ->
  forall v, GvspView_parse dg = Some v -> proper ext v.
Proof.
  intros (dg' & a & b & c & v' & E & Hp & [Hv _] & _) -> v Hv'. injection E as <- <- <- <-. rewrite Hp in Hv'.
  injection Hv' as <-. destruct Hv as (He & _ & Hx & _). by split.
Qed.

(** A datagram of the burst, at the waiting frame. *)
Lemma packet_waits k r rs qs s f t T : waiting qs s f t T -> packet_input id ext ds ldr dat ip k r -> recv_time r <= T ->
  ~ covers ds (k :: qs) ->
  exists s' f' qs', drain_socket s (r :: rs) = drain_socket s' rs /\ waiting qs' s' f' (recv_time r) T /\
    (forall j, j ∈ qs' <-> j ∈ k :: qs) /\ r_delivered s' = r_delivered s.
Proof.
  intros [H BS C] Hr Ht Hc. pose proof Hr as (dg & drops & now & sys & v & -> & Hp & Hv & Hk).
  destruct (drain_datagram ip s dg drops now sys rs) as (s1 & -> & R & Fr & Cf & Ffp & Fl & _ & En); [apply H|].
  assert (calm_state T s1) as C1 by (destruct C; split; congruence).
  destruct (packet_open id ext ds bs P OK src burst_in_src ldr dat qs s1 f v k dg t now sys ip) as (s2 & E2 & H2 & Hab & _); try done.
  - by eapply runner_inv_ext; [symmetry; exact R|symmetry; exact Fr|].
  - by apply (burst_state_bump id ext ds bs P src ldr dat qs s).
  - by rewrite (cs_cfg _ _ _ _ C1).
  - destruct (Hab Hc) as (qs' & f' & BS' & Hq & Hvis). rewrite E2. exists s2, f', qs'. split; [done|]. split; [split|split]; try done.
    + by apply (packet_calm ext cfg T s1 dg now sys s2 Ht (packet_input_proper _ _ _ _ _ _ Hr eq_refl) E2).
    + unfold visible in Hvis. injection Hvis as _ ->. unfold rest in R. congruence.
Qed.

Lemma burst_waits ks : forall rs qs s f t T, waiting qs s f t T -> Forall2 (packet_input id ext ds ldr dat ip) ks rs ->
  Forall (fun r => recv_time r <= T) rs -> ~ covers ds (ks ++ qs) ->
  exists s' f' qs', drain_socket s rs = Some s' /\ waiting qs' s' f' (last_time t rs) T /\
    (forall j, j ∈ qs' <-> j ∈ ks ++ qs) /\ r_delivered s' = r_delivered s.
Proof.
  induction ks as [|k ks IH]; intros rs qs s f t T W Hrs Ht Hc.
  - apply Forall2_nil_inv_l in Hrs as ->. by exists s, f, qs.
  - apply Forall2_cons_inv_l in Hrs as (r & rs' & Hr & Hrs & ->). apply Forall_cons in Ht as [Ht Hts].
    destruct (packet_waits k r rs' qs s f t T W Hr Ht) as (s1 & f1 & qs1 & E1 & W1 & Q1 & D1).
    { intros Hk. apply Hc. intros j Hj. specialize (Hk j Hj). rewrite elem_of_cons in Hk. rewrite elem_of_app, elem_of_cons. tauto. }
    destruct (IH rs' qs1 s1 f1 (recv_time r) T W1 Hrs Hts) as (s2 & f2 & qs2 & E2 & W2 & Q2 & D2).
    { intros Hk. apply Hc. intros j Hj. specialize (Hk j Hj). rewrite elem_of_app, Q1, elem_of_cons in Hk.
      rewrite elem_of_app, elem_of_cons. tauto. }
    exists s2, f2, qs2. split; [congruence|]. split; [done|]. split; [|congruence].
    intros j. rewrite Q2, !elem_of_app, Q1, elem_of_cons. rewrite elem_of_cons. tauto.
Qed.

(** From the first packet on. *)
Lemma idle_waits ks rs s t T : runner_inv s -> idle id ext s -> calm_state T s ->
  Forall2 (packet_input id ext ds ldr dat ip) ks rs -> ks <> [] -> Forall (fun r => recv_time r <= T) rs -> ~ covers ds ks ->
  exists s' f' qs', drain_socket s rs = Some s' /\ waiting qs' s' f' (last_time t rs) T /\
    (forall j, j ∈ qs' <-> j ∈ ks) /\ r_delivered s' = r_delivered s.
Proof.
  intros H I C Hrs Hne Ht Hc. destruct ks as [|k ks]; [done|]. clear Hne.
  apply Forall2_cons_inv_l in Hrs as (r & rs' & Hr & Hrs & ->). apply Forall_cons in Ht as [Ht Hts].
  pose proof Hr as (dg & drops & now & sys & v & -> & Hp & Hv & Hk).
  destruct (drain_datagram ip s dg drops now sys rs') as (s1 & -> & R & Fr & Cf & Ffp & Fl & Fs & En); [apply H|].
  assert (calm_state T s1) as C1 by (destruct C; split; congruence).
  assert (r_delivered s1 = r_delivered s /\ r_pool s1 = r_pool s) as [Hd Hpl] by (unfold rest in R; by injection R).
  destruct (packet_idle id ext ds bs P OK src burst_in_src ldr dat id_width s1 v k dg now sys ip) as (s2 & E2 & H2 & Hab & _); try done.
  - by eapply runner_inv_ext; [symmetry; exact R|symmetry; exact Fr|].
  - destruct I. split; by rewrite ?Fr, ?Hpl, ?Cf, ?Ffp, ?Fl, ?Fs.
  - destruct Hab as (qs' & f' & BS' & Hq & Hvis).
    { intros Hk'. apply Hc. intros j Hj. specialize (Hk' j Hj). apply list_elem_of_singleton in Hk' as ->. apply elem_of_cons. by left. }
    rewrite E2. cbn [mbind option_bind]. unfold visible in Hvis. injection Hvis as _ D2.
    assert (waiting qs' s2 f' now T) as W2.
    { split; [done|done|]. by apply (packet_calm ext cfg T s1 dg now sys s2 Ht (packet_input_proper _ _ _ _ _ _ Hr eq_refl) E2). }
    destruct (burst_waits ks rs' qs' s2 f' now T W2 Hrs Hts) as (s3 & f3 & qs3 & E3 & W3 & Q3 & D3).
    { intros Hk'. apply Hc. intros j Hj. specialize (Hk' j Hj). rewrite elem_of_app, Hq, list_elem_of_singleton in Hk'.
      rewrite elem_of_cons. tauto. }
    exists s3, f3, qs3. split; [done|]. split; [done|]. split; [|congruence].
    intros j. rewrite Q3, elem_of_app, Hq, list_elem_of_singleton, elem_of_cons. tauto.
Qed.

(** * Looking at the clock *)

Lemma waiting_frame qs s f t T : waiting qs s f t T -> ~ covers ds qs ->
  r_frames s = [f] /\ frame_inv src P f /\ f_frame_id f = id /\ is_provisional f = false /\ f_resend_disabled f = false /\
  f_extended_ids f = ext /\ f_last_packet_time f = t /\ f_last_valid_packet f <> f_n_packets f - 1.
Proof.
  intros [H BS C] Hc. pose proof (bt_frames _ _ _ _ _ _ _ _ _ _ _ _ BS) as Hf. pose proof (bt_inv _ _ _ _ _ _ _ _ _ _ _ _ BS) as B.
  assert (r_frames s !! 0%nat = Some f) as Hf0 by (by rewrite Hf).
  destruct (runner_inv_lookup _ _ _ _ _ _ H Hf0) as [Hi _]. destruct (calm_lookup _ _ _ _ _ _ C Hf0) as [C1 C2 _].
  assert (is_provisional f = false) as Hp by (unfold is_provisional; by rewrite (bi_replay _ _ _ _ _ _ _ _ B)).
  split_and!; try done; [apply B|congruence|apply BS|]. intros E. apply Hc.
  refine (proj2 (all_in_complete id ds bs P OK src qs f B _)). intros j Hj. apply (bi_rcv _ _ _ _ _ _ _ _ B); [lia|].
  destruct (fi_shape _ _ _ _ Hi) as [_ _ _ Hpre]. apply Hpre. lia.
Qed.

(** While the frame is kept, a look at the clock is the walk for its missing
    packets, or nothing when a packet was seen a moment ago. *)
Lemma look_waits qs s f t T now : waiting qs s f t T -> ~ covers ds qs -> T <= now -> now < t + cfg_frame_retention cfg -> t <= now ->
  exists s' f', check_frame_completion s now None = Some s' /\ waiting qs s' f' t now /\ kept f' = kept f /\
    r_delivered s' = r_delivered s /\
    (t + cfg_packet_timeout cfg <= now -> missing_packet_check s 0 (f_n_packets f - 1) now = Some s').
Proof.
  intros W Hc HT Hr Ht. destruct (waiting_frame qs s f t T W Hc) as (Hf & Hi & Hid & Hp & _ & _ & Hlt & Hlv).
  assert (r_frames s !! 0%nat = Some f) as Hf0 by (by rewrite Hf). destruct W as [H BS C]. pose proof (cs_cfg _ _ _ _ C) as Hcfg.
  assert (calm_state now s) as C'.
  { destruct C. split; try done. eapply Forall_impl; [done|]. intros g. by apply calm_mono. }
  destruct (fi_shape _ _ _ _ Hi) as [Hlen Hn _ _]. rewrite MAX_FRAME_PACKETS_eq in Hn.
  pose proof (bi_n2 _ _ _ _ _ _ _ _ (bt_inv _ _ _ _ _ _ _ _ _ _ _ _ BS)) as Hn2.
  destruct (missing_packet_check_ok src P ip s 0 f (f_n_packets f - 1) now H Hf0 ltac:(lia)) as (s' & f' & E & H' & Fr & Hk & Henv).
  assert (waiting qs s' f' t now) as W'.
  { split; [done| |by eapply check_calm; [|exact E|]; [lia|]]. rewrite Hf in Fr. simpl in Fr. destruct BS as [_ B2 L2 T2 A2 Kn2].
    pose proof (binv_kept _ _ _ _ _ _ _ _ _ (eq_sym Hk) B2) as B3. 
    assert (f_last_packet_time f' = f_last_packet_time f /\ f_leader f' = f_leader f) as [K5 K6] by (unfold kept in Hk; split; congruence).
    assert (f_extended_ids f' = f_extended_ids f /\ f_fingerprints f' = f_fingerprints f) as [K7 K8] by (unfold kept in Hk; split; congruence).
    split; try done; [by rewrite K6|congruence|by eapply known_same; [exact Henv| | |exact Kn2]]. }
  assert (check_frame_completion s now None =
          if t + cfg_packet_timeout cfg <=? now then missing_packet_check s 0 (f_n_packets f - 1) now else Some s) as ->.
  { unfold check_frame_completion. rewrite Hf. cbn [length completion_loop]. rewrite Hf. cbn [length Nat.leb].
    unfold completion_step. rewrite Hf. cbn [lookup list_lookup mbind option_bind]. rewrite Hp, Hlt, Hcfg.
    unfold duration_since. rewrite Z.max_r by lia. replace (_ =? f_n_packets f - 1) with false by lia.
    rewrite drop_ge by (simpl; lia). cbn [existsb]. rewrite !andb_false_r.
    replace (cfg_frame_retention cfg <=? now - t) with false by lia. rewrite andb_false_r. simpl.
    rewrite wrap_small by (simpl; lia). unfold checked_sub. replace (1 <=? f_n_packets f) with true by lia.
    replace (cfg_packet_timeout cfg <=? now - t) with (t + cfg_packet_timeout cfg <=? now) by lia.
    destruct (_ <=? now); simpl; rewrite ?E, ?Hf; simpl; [|done]. by rewrite Fr, Hf. }
  destruct (_ <=? now) eqn:Et.
  - exists s', f'. split_and!; try done. unfold env in Henv. congruence.
  - exists s, f. split; [done|]. split; [by split|]. split_and!; [done|done|lia].
Qed.

(** * Asking *)

Definition missing (f : FrameInFlight) (i : Z) : bool := match packet_at f i with Some p => negb (received p) | None => false end.
(** What the frame still misses, as far as the receiver knows. *)
Definition holes (f : FrameInFlight) : list Z := List.filter (missing f) (seqZ 0 (f_n_packets f)).

Lemma holes_kept f g : kept f = kept g -> holes f = holes g.
Proof.
  intros E. assert (f_n_packets f = f_n_packets g) as En by (unfold kept, core in E; congruence). unfold holes. rewrite En.
  apply List.filter_ext. intros i. pose proof (packet_at_kept f g i E) as Ep. unfold missing.
  destruct (packet_at f i), (packet_at g i); simpl in Ep; congruence.
Qed.

Lemma filter_le (p q : Z -> bool) l : (forall x, p x = true -> q x = true) -> zlen (List.filter p l) <= zlen (List.filter q l).
Proof.
  intros H. induction l as [|x l IH]; [done|]. simpl. specialize (H x).
  destruct (p x), (q x); rewrite ?zlen_cons; lia.
Qed.

Lemma due_le_holes f now lo : 0 <= lo <= f_n_packets f -> zlen (due_ids f now lo (f_n_packets f - lo)) <= zlen (holes f).
Proof.
  intros H. unfold holes, due_ids. replace (f_n_packets f) with (lo + (f_n_packets f - lo)) at 2 by lia.
  rewrite seqZ_app, List.filter_app, zlen_app by lia. rewrite Z.add_0_l.
  pose proof (zlen_nonneg (List.filter (missing f) (seqZ 0 lo))).
  enough (zlen (List.filter (due f now) (seqZ lo (f_n_packets f - lo))) <= zlen (List.filter (missing f) (seqZ lo (f_n_packets f - lo)))) by lia.
  apply filter_le. intros x. unfold due, missing. destruct (packet_at f x); [|done]. by destruct (negb _).
Qed.

(** The frame may still ask [m] times for all it misses. *)
Record may_ask (s : StreamRunner) (f : FrameInFlight) (m : Z) : Prop := {
  ma_ratio : f_resend_ratio_reached f = false;
  ma_budget : 0 < budget s f;
  ma_left : f_n_resend_requests f + m * zlen (holes f) <= budget s f }.

Hypothesis initial : 0 <= cfg_initial_packet_timeout cfg.

Lemma look_asks qs s f t T now m : waiting qs s f t T -> ~ covers ds qs -> T <= now -> t <= now < t + cfg_frame_retention cfg ->
  t + cfg_packet_timeout cfg <= now -> may_ask s f (m + 1) -> 0 <= m ->
  exists s' f' ranges, check_frame_completion s now None = Some s' /\ waiting qs s' f' t now /\ kept f' = kept f /\
    r_delivered s' = r_delivered s /\ may_ask s' f' m /\ armed f' (walk_start f) (f_n_packets f) /\
    asked ranges = due_ids f now (walk_start f) (f_n_packets f - walk_start f) /\
    Forall (fun '(a, b) => 0 <= a <= b /\ b < f_n_packets f) ranges /\
    r_sent s' = r_sent s ++ requests (r_resend_id s) id ext ranges.
Proof.
  intros W Hc HT Ht Hpt [M1 M2 M3] Hm. destruct (waiting_frame qs s f t T W Hc) as (Hf & Hi & Hid & Hp & Hdis & Hext & _ & _).
  destruct (look_waits qs s f t T now W Hc HT) as (s' & f' & E & W' & Hk & Hd & Hchk); [lia..|]. specialize (Hchk Hpt).
  pose proof (wt_calm _ _ _ _ _ W) as C. pose proof (cs_cfg _ _ _ _ C) as Hcfg.
  destruct (fi_shape _ _ _ _ Hi) as [Hlen Hn Hlv _]. rewrite MAX_FRAME_PACKETS_eq in Hn.
  set (n := f_n_packets f) in *. assert (0 <= walk_start f <= n) as Hlo by (unfold walk_start; lia).
  destruct (resend_walk s 0 f (n - 1) now) as (sc & Es & Hsc); try done.
  { by rewrite Hf. } { width_lia. } { fold n. lia. } { apply C. } { by rewrite Hcfg. } { lia. }
  replace (n - 1 + 1 - walk_start f) with (n - walk_start f) in Hsc by lia.
  pose proof (due_le_holes f now (walk_start f) Hlo) as Hle. fold n in Hle. pose proof (zlen_nonneg (holes f)) as Hnn.
  destruct (sc_ratio sc) eqn:Er; [nia|]. destruct Hsc as (Ha & Wk & Hsc). rewrite Hchk in Hsc. injection Hsc as ->.
  destruct (walk_sends s 0 f sc (n - 1) now _ _ ltac:(width_lia) Wk) as [Hfr Hs].
  set (s' := send_ranges _ _ _ _) in *.
  assert (f' = sc_frame sc) as ->.
  { pose proof (bt_frames _ _ _ _ _ _ _ _ _ _ _ _ (wt_burst _ _ _ _ _ W')) as Hfr'. rewrite Hfr, Hf in Hfr'. by injection Hfr'. }
  exists s', (sc_frame sc), (sc_ranges sc). split_and!; try done.
  - assert (budget s' (sc_frame sc) = budget s f) as Hb.
    { unfold budget. assert (f_n_packets (sc_frame sc) = f_n_packets f) as -> by (unfold kept, core in Hk; congruence).
      by rewrite (cs_cfg _ _ _ _ (wt_calm _ _ _ _ _ W')), Hcfg. }
    split; rewrite ?Hb, ?(holes_kept _ _ Hk); [|done|].
    + rewrite (wk_ratio _ _ _ _ _ _ _ _ _ Wk). done.
    + rewrite (wk_count _ _ _ _ _ _ _ _ _ Wk), Ha. nia.
  - rewrite Hcfg in Es. assert (calm ext cfg now f) as Hcf.
    { apply (calm_mono _ _ T); [done|]. apply (calm_lookup _ _ _ s 0); [done|by rewrite Hf]. }
    replace n with (n - 1 + 1) by lia.
    apply (scan_calm ext cfg now now (n - 1) (budget s f) (walk_start f)
      (Z.to_nat (n - 1 + 2 - walk_start f)) (walk_start f) (mkScan f None [] false) sc); try done; [lia..|].
    intros j p Hj. lia.
  - eapply Forall_impl; [exact (wk_ranges _ _ _ _ _ _ _ _ _ Wk)|]. intros [a b] ?. lia.
  - rewrite Hs, Hid, Hext. done.
Qed.

(** A hole with a deadline in the past is due. *)
Lemma armed_due qs s f t T now j : waiting qs s f t T -> T + patience cfg < now -> armed f (walk_start f) (f_n_packets f) ->
  zlen ds + 2 <= f_n_packets f -> ~ covers ds qs -> 0 <= j <= zlen ds + 1 -> j ∉ qs ->
  j ∈ due_ids f now (walk_start f) (f_n_packets f - walk_start f).
Proof.
  intros W HT A Hn Hc Hj Hq. destruct (waiting_frame qs s f t T W Hc) as (Hf & Hi & _). destruct W as [_ BS C].
  destruct (fi_shape _ _ _ _ Hi) as [Hlen _ _ Hpre]. pose proof (bt_inv _ _ _ _ _ _ _ _ _ _ _ _ BS) as B.
  assert (~ rcv f j) as Hr by (by rewrite (bi_rcv _ _ _ _ _ _ _ _ B) by lia).
  assert (walk_start f <= j) as Hlo.
  { unfold walk_start. destruct (decide (j <= f_last_valid_packet f)); [exfalso; apply Hr, Hpre; lia|lia]. }
  destruct (get_at_is_Some (slot_packets (f_slot f)) j) as [p Hp]; [lia|]. rewrite (get_at_rcv f j p Hp) in Hr.
  fold (packet_at f j) in Hp. assert (received p = false) as Hrp by (by destruct (received p)).
  apply list_elem_of_In, List.filter_In. split; [apply list_elem_of_In, elem_of_seqZ; lia|].
  unfold due. rewrite Hp, Hrp. simpl. destruct (resend_deadline p) as [d|] eqn:Ed; [|by apply (A j p) in Ed; [|lia|..]].
  assert (calm ext cfg T f) as Hcf by (apply (calm_lookup _ _ _ s 0); [done|by rewrite Hf]).
  pose proof (calm_at _ _ _ f j p Hcf Hp d Ed). lia.
Qed.

(** Two looks at the clock ask for everything that is missing. *)
Lemma two_looks qs s f t T t1 t2 : waiting qs s f t T -> ~ covers ds qs -> (1 ∈ qs \/ zlen ds + 1 ∈ qs) ->
  T <= t1 -> t <= t1 -> t + cfg_packet_timeout cfg <= t1 -> t1 + patience cfg < t2 -> t2 < t + cfg_frame_retention cfg ->
  may_ask s f 2 ->
  exists s1 s2 f2 ranges1 ranges2, check_frame_completion s t1 None = Some s1 /\ check_frame_completion s1 t2 None = Some s2 /\
    runner_inv s1 /\ waiting qs s2 f2 t t2 /\ r_delivered s2 = r_delivered s /\
    r_sent s2 = r_sent s ++ requests (r_resend_id s) id ext ranges1 ++ requests (r_resend_id s1) id ext ranges2 /\
    Forall (fun '(a, b) => 0 <= a <= b /\ b < MAX_FRAME_PACKETS) (ranges1 ++ ranges2) /\
    (forall j, 0 <= j <= zlen ds + 1 -> j ∉ qs -> j ∈ asked ranges2).
Proof.
  intros W Hc Hkn HT Ht Hpt Ht2 Hret Hma. pose proof (bt_inv _ _ _ _ _ _ _ _ _ _ _ _ (wt_burst _ _ _ _ _ W)) as B.
  assert (zlen ds + 2 <= f_n_packets f) as Hn by (destruct (bi_n _ _ _ _ _ _ _ _ B) as [?|[? ?]]; [done|tauto]).
  destruct (waiting_frame qs s f t T W Hc) as (_ & Hi & _). destruct (fi_shape _ _ _ _ Hi) as [_ HnM _ _].
  assert (0 <= patience cfg /\ cfg_packet_timeout cfg <= patience cfg) as Hpat by (unfold patience; lia).
  destruct (look_asks qs s f t T t1 1 W Hc HT) as (s1 & f1 & r1 & E1 & W1 & K1 & D1 & M1 & A1 & _ & R1 & S1); [lia|lia|done|lia|].
  assert (f_n_packets f1 = f_n_packets f /\ walk_start f1 = walk_start f) as [En Ew]
    by (unfold walk_start; unfold kept, core in K1; split; [|f_equal; f_equal]; congruence).
  destruct (look_asks qs s1 f1 t t1 t2 0 W1 Hc) as (s2 & f2 & r2 & E2 & W2 & K2 & D2 & _ & _ & Ha & R2 & S2); [lia|lia|lia|done|lia|].
  exists s1, s2, f2, r1, r2. split_and!; try done; [apply W1|congruence|by rewrite S2, S1, app_assoc| |].
  - apply Forall_app. rewrite En in R2. split; eapply Forall_impl; [exact R1| |exact R2|]; intros [a b] ?; lia.
  - intros j Hj Hq. rewrite Ha. apply (armed_due qs s1 f1 t t1); try done; [by rewrite Ew, En|lia].
Qed.

(** The packets that come back complete the frame, and what comes after that
    is late. *)
Lemma answers_complete qs s f t T ks rs : waiting qs s f t T -> Forall2 (packet_input id ext ds ldr dat ip) ks rs ->
  ~ covers ds qs -> covers ds (ks ++ qs) ->
  exists s', drain_socket s rs = Some s' /\ runner_inv s' /\ delivered id ext ds ldr dat s s'.
Proof.
  intros [H BS C] Hrs Hq Hc. apply (drain_burst_open id ext ds bs P OK src burst_in_src ldr dat id_width ks rs qs s f t ip); try done.
  by rewrite (cs_cfg _ _ _ _ C).
Qed.
End holes.

(** * The device's side *)

(** The device hears some datagrams: what it is asked to send again. *)
Fixpoint device_hears (d : GigeDevice) (peer : SocketAddr) (dgs : list bytes) : option (GigeDevice * list ResendRequest) :=
  match dgs with
  | [] => Some (d, [])
  | dg :: dgs =>
      '((d, r) : GigeDevice * Reaction) ← handle_datagram d dg peer;
      '((d, reqs) : GigeDevice * list ResendRequest) ← device_hears d peer dgs;
      Some (d, match re_resend r with Some req => req :: reqs | None => reqs end)
  end.

Definition resend_of (id : Z) (r : Z * Z) : ResendRequest := {| rr_frame_id := id; rr_first_packet := r.1; rr_last_packet := r.2 |}.

(** It can serve resend requests, and none of them is in its reply cache. *)
Record serves_resends (d : GigeDevice) (peer : SocketAddr) : Prop := {
  sv_ok : dev_ok d;
  sv_caps : exists caps, read_reg d GVCP_CAPABILITY = Some caps /\ Z.testbit caps 2 = true;
  sv_cache : forall c i reply, d_last_reply d !! peer = Some (c, i, reply) -> c <> PACKET_RESEND_CMD }.

Lemma device_hears_requests peer id ranges : u16_ok id -> Forall (fun '(a, b) => 0 <= a <= b /\ b < MAX_FRAME_PACKETS) ranges ->
  forall rid d rest, RESEND_ID_SEED <= rid <= U16_MAX -> serves_resends d peer ->
  exists d', d_mem d' = d_mem d /\ serves_resends d' peer /\
    device_hears d peer (requests rid id false ranges ++ rest) =
      ('((d2, reqs) : GigeDevice * list ResendRequest) ← device_hears d' peer rest; Some (d2, (resend_of id <$> ranges) ++ reqs)).
Proof.
  intros Hid. induction ranges as [|[a b] ranges IH]; intros Hr rid d rest Hrid Hd.
  - exists d. split_and!; [done|done|]. simpl. by destruct (device_hears d peer rest) as [[]|].
  - apply Forall_cons in Hr as [[Hab Hb] Hr]. rewrite MAX_FRAME_PACKETS_eq in Hb.
    assert (RESEND_ID_SEED <= next_resend_id rid <= U16_MAX) as Hn.
    { unfold next_resend_id, RESEND_ID_SEED, U16_MAX in *. destruct (rid =? 65535) eqn:E; lia. }
    destruct Hd as [Hok (caps & Hc1 & Hc2) Hcache].
    destruct (resend_request_understood d peer id a b (next_resend_id rid) caps false) as (r & E & Hre & _); try done.
    { simpl. split_and!; (width_lia || lia). } { unfold RESEND_ID_SEED in *; width_lia. }
    { intros reply Hl. by apply Hcache in Hl. }
    destruct (IH Hr (next_resend_id rid) (d <| d_ctrl_peer := Some peer |>) rest Hn) as (d' & Hm & Hs & IHe).
    { split; [by destruct Hok|by exists caps|done]. }
    exists d'. split_and!; [done|done|]. cbn [requests app device_hears]. rewrite E. cbn [mbind option_bind]. rewrite IHe, Hre.
    by destruct (device_hears d' peer rest) as [[]|].
Qed.

(** * The theorem *)

Section recovery.
Context {FC : Chan Frame} {PC : Chan BufSlot} {CC : Chan ToStreamWorker} {HS : PacketHasher}.

(** The answers to the requests arrive, in any order and any number of copies:
    everything asked for that the image has, at least once. *)
Record answered (ip : Z) (pk : list bytes) (reqs : list ResendRequest) (ks' : list nat) (rs' : list RecvResult) : Prop := {
  an_arrive : Forall2 (carries ip pk) ks' rs';
  an_all : forall r j, r ∈ reqs -> rr_first_packet r <= Z.of_nat j <= rr_last_packet r -> (j < length pk)%nat -> j ∈ ks' }.

Lemma asked_range ranges j id : j ∈ asked ranges ->
  exists r, r ∈ (resend_of id <$> ranges) /\ rr_first_packet r <= j <= rr_last_packet r.
Proof.
  unfold asked. intros Hj. apply list_elem_of_In, in_concat in Hj as (l & Hl & Hj). apply list_elem_of_In in Hl, Hj. apply list_elem_of_fmap in Hl as ([a b] & -> & Hl).
  apply elem_of_seqZ in Hj. simpl in Hj. exists (resend_of id (a, b)). split; [by apply list_elem_of_fmap_2|]. simpl. lia.
Qed.

(** Two looks at the clock after a burst with losses, as the device hears them. *)
Lemma looks_heard (d : GigeDevice) (peer : SocketAddr) (id : Z) (ds : list bytes) (bs P : Z) (src : Z -> Z -> bytes -> Prop)
    (ldr : ImageLeader) (dat : Z -> bytes) (ip : Z) (cfg : StreamConfig) (qs : list Z) (s : StreamRunner) (f : FrameInFlight) (t t1 t2 : Z) :
  burst_ok ds bs P -> serves_resends d peer -> u16_ok id -> 0 <= cfg_initial_packet_timeout cfg -> 0 <= cfg_packet_timeout cfg ->
  waiting id false ds bs P src ldr dat ip cfg qs s f t t -> ~ covers ds qs -> (1 ∈ qs \/ zlen ds + 1 ∈ qs) ->
  t + cfg_packet_timeout cfg <= t1 -> t1 + patience cfg < t2 -> t2 < t + cfg_frame_retention cfg -> may_ask s f 2 ->
  exists s1 s2 f2 dgs d' reqs, check_frame_completion s t1 None = Some s1 /\ check_frame_completion s1 t2 None = Some s2 /\
    waiting id false ds bs P src ldr dat ip cfg qs s2 f2 t t2 /\ r_delivered s2 = r_delivered s /\ r_sent s2 = r_sent s ++ dgs /\
    device_hears d peer dgs = Some (d', reqs) /\ d_mem d' = d_mem d /\ Forall (fun r => rr_frame_id r = id) reqs /\
    (forall j, 0 <= j <= zlen ds + 1 -> j ∉ qs -> exists r, r ∈ reqs /\ rr_first_packet r <= j <= rr_last_packet r).
Proof.
  intros OK Hd Hid Hini Hpt W Hnc Hkn Ht1 Ht2 Hret Hma.
  assert (u64_ok id) as Hid64 by width_lia.
  destruct (two_looks id false ds bs P OK src ldr dat (conj Hid64 (fun _ => Hid)) ip cfg Hini qs s f t t t1 t2)
    as (s1 & s2 & f2 & r1 & r2 & E1 & E2 & I1 & W2 & D2 & S2 & R & A); try done; [lia..|].
  apply Forall_app in R as [R1 R2].
  destruct (device_hears_requests peer id r1 Hid R1 (r_resend_id s) d (requests (r_resend_id s1) id false r2))
    as (d1 & M1 & V1 & Eh1); [apply W|done|].
  destruct (device_hears_requests peer id r2 Hid R2 (r_resend_id s1) d1 []) as (d2 & M2 & V2 & Eh2); [apply I1|done|].
  rewrite app_nil_r in Eh2. rewrite Eh2 in Eh1. simpl in Eh1. rewrite app_nil_r in Eh1.
  exists s1, s2, f2. do 3 eexists. split_and!; [exact E1|exact E2|exact W2|done|exact S2|exact Eh1|congruence| |].
  - apply Forall_app. split; apply Forall_fmap, Forall_true; done.
  - intros j Hj Hq. destruct (asked_range r2 j id (A j Hj Hq)) as (r & Hr & Hjr). exists r. split; [|done].
    apply elem_of_app. by right.
Qed.

(** C4: lost packets are recovered.  A device that serves resends streams an
    image; some of its packets, in any order and any number of copies, reach
    an idle receiver, at least one is lost, and the first payload packet or
    the trailer is among those that came.  The receiver keeps the frame open.
    While the request budget of the frame covers its holes twice, two looks
    at the clock, late enough for the deadlines and early enough for the
    retention time, send requests that the device reads as requests for this
    block, and when the packets they name arrive, in any order and any number
    of copies (the two looks may ask for a hole twice, and the device answer
    twice), the receiver hands out one frame, complete, with the image and its
    size. *)
Theorem lost_packets_recovered (d : GigeDevice) (peer : SocketAddr) (frame_id : Z) (image : bytes) (pk : list bytes)
    (s : StreamRunner) (src : Z -> Z -> bytes -> Prop) (P ip : Z) (ks : list nat) (rs : list RecvResult) :
  serves_resends d peer -> u64_ok (d_leader_timestamp_ns d) -> frame_packets d frame_id image = Some pk -> u16_ok frame_id ->
  image <> [] -> zlen image <= P -> zlen pk <= MAX_FRAME_PACKETS -> 0 <= P <= I64_MAX ->
  runner_inv src P ip s -> idle frame_id false s -> r_resend_enabled s = true ->
  0 <= cfg_initial_packet_timeout (r_cfg s) -> 0 <= cfg_packet_timeout (r_cfg s) ->
  Forall2 (carries ip pk) ks rs -> (1%nat ∈ ks \/ (length pk - 1)%nat ∈ ks) -> (exists j, (j < length pk)%nat /\ j ∉ ks) ->
  let t := last_time 0 rs in Forall (fun r => recv_time r <= t) rs ->
  exists s1 f1, drain_socket s rs = Some s1 /\ r_frames s1 = [f1] /\ (may_ask s1 f1 2 -> forall t1 t2,
    t + cfg_packet_timeout (r_cfg s) <= t1 -> t1 + patience (r_cfg s) < t2 -> t2 < t + cfg_frame_retention (r_cfg s) ->
    exists s2 s3 dgs d' reqs,
      check_frame_completion s1 t1 None = Some s2 /\ check_frame_completion s2 t2 None = Some s3 /\
      r_sent s3 = r_sent s1 ++ dgs /\ device_hears d peer dgs = Some (d', reqs) /\ d_mem d' = d_mem d /\
      Forall (fun r => rr_frame_id r = frame_id) reqs /\
      forall ks' rs', answered ip pk reqs ks' rs' ->
      exists s4 fr, drain_socket s3 rs' = Some s4 /\ quiet frame_id s4 /\ r_delivered s4 = r_delivered s ++ [fr] /\
        fr_status fr = Complete /\ fr_frame_id fr = frame_id /\ Frame_data fr = image /\
        width d = Some (fr_width fr) /\ height d = Some (fr_height fr)).
Proof.
  intros Hd Hts Hpk Hid Hne Hfit HK HP Hinv Hidle Hen Hini Hpt Hrs Hkn (lost & Hlost & Hlk) t Ht.
  destruct (device_packets d frame_id image pk P) as (w & h & ds & bs & Hw & Hh & Himg & Hlen & OK & Hin); try done; [apply Hd|].
  assert (u64_ok frame_id) as Hid64 by width_lia. pose (src' := fun i j e => src i j e \/ burst_src frame_id ds i j e).
  set (ldr := device_leader w h (d_leader_timestamp_ns d)) in *. set (dat := device_data w h (d_leader_timestamp_ns d) ds) in *. pose proof (id_retention _ _ _ Hidle) as Hret0.
  assert (forall qs, (forall j, j ∈ qs <-> j ∈ Z.of_nat <$> ks) -> ~ covers ds qs) as Hnc.
  { intros qs Q Hc. apply Hlk. specialize (Hc (Z.of_nat lost)). rewrite Q, elem_of_nats, Nat2Z.id in Hc by lia.
    apply Hc. unfold zlen. lia. }
  destruct (idle_waits frame_id false ds bs P OK src' (fun i j e H => or_intror H) ldr dat (conj Hid64 (fun _ => Hid)) ip
              (r_cfg s) Hret0 (Z.of_nat <$> ks) rs s 0 t) as (s1 & f1 & qs & E1 & W1 & Q1 & D1); try done.
  { eapply runner_inv_mono; [|apply Hidle|exact Hinv]. unfold src'. by left. }
  { split; [done|done|]. by rewrite (id_frames _ _ _ Hidle). }
  { by apply Hin. }
  { destruct ks; [|done]. by destruct Hkn as [?%elem_of_nil|?%elem_of_nil]. }
  { by apply Hnc. }
  exists s1, f1. split; [done|]. split; [apply W1|]. intros Hma t1 t2 Ht1 Ht2 Hret. fold t in W1.
  destruct (looks_heard d peer frame_id ds bs P src' ldr dat ip (r_cfg s) qs s1 f1 t t1 t2)
    as (s2 & s3 & f3 & dgs & d' & reqs & E2 & E3 & W3 & D3 & S3 & Eh & M & Fr & A); try done; [by apply Hnc| |].
  { rewrite !Q1, !elem_of_nats by (unfold zlen; lia). destruct Hkn as [?|Hl]; [by left|right]. rewrite Hlen in Hl.
    by replace (Z.to_nat (zlen ds + 1)) with (S (S (length ds)) - 1)%nat by (unfold zlen; lia). }
  exists s2, s3, dgs, d', reqs. split_and!; try done. intros ks' rs' [Hrs' Hall].
  destruct (answers_complete frame_id false ds bs P OK src' (fun i j e H => or_intror H) ldr dat (conj Hid64 (fun _ => Hid)) ip
              (r_cfg s) Hret0 qs s3 f3 t t2 (Z.of_nat <$> ks') rs')
    as (s4 & E4 & _ & F & fr & Hdel & B1 & B2 & B3 & B4 & B5 & _); [done|by apply Hin|by apply Hnc| |].
  - intros j Hj. rewrite elem_of_app, elem_of_nats by lia. destruct (decide (j ∈ qs)) as [?|Hq]; [by right|left].
    destruct (A j Hj Hq) as (r & Hr & Hjr). apply (Hall r); [done|lia|]. rewrite Hlen. unfold zlen in Hj. lia.
  - exists s4, fr. split_and!; try done; [by eapply finished_quiet|congruence|by rewrite B3|by rewrite B4|by rewrite B5].
Qed.
End recovery.

(** * The theorem at a concrete device and receiver *)

(** Channels are the reference queues, the hash a sum.  The device has no
    registers set but the resend capability, so it cuts an image into blocks
    of one byte; of the eight packets of an image of six bytes the fourth is
    lost. *)
#[local] Instance ex_hasher : PacketHasher := fun content data => foldr Z.add content data.

Definition ex_image : bytes := [7; 8; 9; 10; 11; 12].
Definition ex_resender : GigeDevice :=
  blank_device <| d_mem := splice (replicate (Z.to_nat MEM_SIZE) 0) GVCP_CAPABILITY [0; 0; 0; 4] |>.
Definition ex_peer : SocketAddr := (1, 2).
Definition ex_pk : list bytes := burst_list 5 0 0 0 (chunks 1 ex_image).
Definition ex_arrive (now : Z) (ks : list nat) : list RecvResult :=
  (fun j => RecvDatagram 9 (default [] (ex_pk !! j)) None now 0) <$> ks.
Definition ex_kept : list nat := [0; 1; 2; 4; 5; 6; 7]%nat.
Definition ex_receiver : StreamRunner :=
  runner_new 9 (mkQueue [] None true : chan ToStreamWorker) (FramePool_new 1 6 : chan BufSlot) StreamConfig_new 100 6 true 0.

Lemma ex_carries ks now : Forall (fun j => j < 8)%nat ks -> Forall2 (carries 9 ex_pk) ks (ex_arrive now ks).
Proof.
  intros H. apply Forall2_fmap_r, Forall_Forall2_diag. eapply Forall_impl; [exact H|]. intros j Hj. simpl in Hj.
  destruct (lookup_lt_is_Some_2 ex_pk j Hj) as [p Hp]. exists p, (default [] (ex_pk !! j)), None, now, 0. rewrite Hp.
  split_and!; [done|by left|done].
Qed.

Lemma ex_serves : serves_resends ex_resender ex_peer.
Proof.
  split.
  - destruct (mem_write_ok blank_device GVCP_CAPABILITY [0; 0; 0; 4]) as [_ H]; [apply blank_device_ok|done| | |].
    + by rewrite (dv_len _ blank_device_ok).
    + by apply bytes_ok_dec_true.
    + destruct H. by split.
  - exists 4. by vm_compute.
  - intros c i reply H. vm_compute in H. discriminate.
Qed.

Lemma lost_packets_recovered_witness :
  exists s1 s2 s3 s4 fr dgs d' reqs, drain_socket ex_receiver (ex_arrive 0 ex_kept) = Some s1 /\
    check_frame_completion s1 20000000 None = Some s2 /\ check_frame_completion s2 40000001 None = Some s3 /\
    r_sent s3 = r_sent s1 ++ dgs /\ device_hears ex_resender ex_peer dgs = Some (d', reqs) /\
    drain_socket s3 (ex_arrive 40000002 [3; 3]%nat) = Some s4 /\ r_delivered s4 = [fr] /\ fr_status fr = Complete /\
    Frame_data fr = ex_image.
Proof.
  destruct (lost_packets_recovered ex_resender ex_peer 5 ex_image ex_pk ex_receiver (fun _ _ _ => False) 6 9 ex_kept (ex_arrive 0 ex_kept))
    as (s1 & f1 & E1 & F1 & H).
  - apply ex_serves.
  - const_range.
  - vm_compute. reflexivity.
  - const_range.
  - discriminate.
  - by vm_compute.
  - by vm_compute.
  - const_range.
  - apply runner_new_inv. by repeat constructor.
  - split; [done|done|by vm_compute|by vm_compute|by left].
  - reflexivity.
  - by vm_compute.
  - by vm_compute.
  - apply ex_carries. repeat constructor; lia.
  - left. by apply (bool_decide_eq_true_1 _).
  - exists 3%nat. split; [vm_compute; lia|]. by apply (bool_decide_eq_true_1 _).
  - by repeat constructor.
  - pose proof E1 as Ev. vm_compute in Ev. injection Ev as <-. pose proof F1 as Fv. injection Fv as <-.
    destruct (H) with (t1 := 20000000) (t2 := 40000001) as (s2 & s3 & dgs & d' & reqs & E2 & E3 & S3 & Eh & _ & _ & Hans).
    + split; by vm_compute.
    + by vm_compute.
    + by vm_compute.
    + by vm_compute.
    + pose proof E2 as Ev2. vm_compute in Ev2. injection Ev2 as <-. pose proof E3 as Ev3. vm_compute in Ev3. injection Ev3 as <-.
      pose proof S3 as Sv. simpl in Sv. subst dgs.
      assert (reqs = [resend_of 5 (3, 3); resend_of 5 (3, 3)]) as ->.
      { match type of Eh with device_hears ?d ?p ?l = _ =>
          assert (snd <$> device_hears d p l = Some [resend_of 5 (3, 3); resend_of 5 (3, 3)]) as Ev4 by (vm_compute; reflexivity) end.
        rewrite Eh in Ev4. by injection Ev4. }
      destruct (Hans [3; 3]%nat (ex_arrive 40000002 [3; 3]%nat)) as (s4 & fr & E4 & _ & D4 & St & _ & Dat & _).
      * split; [apply ex_carries; repeat constructor; lia|].
        -- intros r j Hr. rewrite !elem_of_cons, elem_of_nil in Hr.
           destruct Hr as [->|[->|[]]]; simpl; intros Hj _; apply elem_of_cons; left; lia.
      * eexists _, _, _, s4, fr, _, d', _. split_and!; [exact E1|exact E2|exact E3|exact S3|exact Eh|exact E4|exact D4|exact St|exact Dat].
Defined.
