(* ===== verification/StreamTiming.v ===== *)
(** No frame stays open: what [check_frame_completion] of
    [src/src/gige/stream/runner.rs] does to frames that get no more packets. *)

From stdpp Require Import list.
From S2P Require Import Prelude Gvcp Gvsp Channel Float64 Frame Reassembly ReassemblyInv ReassemblySafe Burst.

Section stale.
Context {FC : Chan Frame} {PC : Chan BufSlot} {CC : Chan ToStreamWorker} {HS : PacketHasher}.
Variables (src : Z -> Z -> bytes -> Prop) (P ip : Z).

(** The newest block with nothing but its leader: the device may still be
    exposing. *)
Definition awaits_payload (s : StreamRunner) (f : FrameInFlight) : bool :=
  (f_frame_id f =? r_last_frame_id s) && (f_last_valid_packet f =? 0).

Definition stale (s : StreamRunner) (now : Z) (f : FrameInFlight) : Prop :=
  cfg_frame_retention (r_cfg s) <= duration_since now (f_last_packet_time f) /\ awaits_payload s f = false.

(** What the subscribers are to get of the open frames: all but replays. *)
Definition owed (l : list FrameInFlight) : list Z := f_frame_id <$> List.filter (fun f => negb (is_provisional f)) l.

(** Closing a frame leaves the configuration and the newest block alone. *)
Lemma close_frame_clock s index status s' : close_frame s index status = Some s' ->
  r_cfg s' = r_cfg s /\ r_last_frame_id s' = r_last_frame_id s.
Proof.
  unfold close_frame. pose proof (drain_commands_env s) as [= E1 E2 E3 _]. rewrite <- E1, <- E3.
  destruct (r_frames (drain_commands s) !! index) as [f|]; [|done]. cbn [mbind option_bind].
  destruct (fan_out _ _) as [[subs dropped] taken]. intros [= <-].
  destruct taken, (0 <? dropped); destruct status; unfold remember; simpl; by destruct (_ <=? _).
Qed.

(** A stale frame under the index goes: a replay silently, any other to the
    subscribers. *)
Lemma stale_step s now f l : runner_inv src P ip s -> r_frames s = f :: l -> stale s now f ->
  exists s' new, completion_step s now None 0 true = Some (s', 0%nat, true) /\ runner_inv src P ip s' /\ r_frames s' = l /\
    r_delivered s' = r_delivered s ++ new /\ fr_frame_id <$> new = owed [f] /\
    r_cfg s' = r_cfg s /\ r_last_frame_id s' = r_last_frame_id s.
Proof.
  intros H Hl [Hidle Hnew]. unfold completion_step, owed. rewrite Hl. cbn [lookup list_lookup mbind option_bind].
  assert (r_frames s !! 0%nat = Some f) as Hf by (by rewrite Hl).
  destruct (runner_inv_lookup _ _ _ s 0 f H Hf) as [Hfi He]. replace (_ <=? _) with true by lia.
  assert (forall status, (status = Complete -> f_received_size f = f_data_end f) -> is_provisional f = false ->
    exists s' new, (s ← close_frame s 0 status; Some (s, 0%nat, true)) = Some (s', 0%nat, true) /\ runner_inv src P ip s' /\
      r_frames s' = l /\ r_delivered s' = r_delivered s ++ new /\
      fr_frame_id <$> new = f_frame_id <$> List.filter (fun f => negb (is_provisional f)) [f] /\
      r_cfg s' = r_cfg s /\ r_last_frame_id s' = r_last_frame_id s) as Hclose.
  { intros status Hst Hp. destruct (close_frame_ok _ _ _ s 0 f status H Hf Hst) as (s' & E & H' & Hfr).
    destruct (close_frame_delivers s 0 status f s' Hf E) as [t Hd]. destruct (close_frame_clock s 0 status s' E).
    exists s', [make_frame t status f]. rewrite E. rewrite Hl in Hfr. simpl. by rewrite Hp. }
  destruct (is_provisional f) eqn:Ep.
  { rewrite orb_true_r. destruct (discard_frame_ok _ _ _ s 0 f H Hf) as (s' & E & H' & Hfr). rewrite E. simpl. rewrite Ep. simpl.
    exists s', []. unfold discard_frame in E. rewrite Hf in E. simpl in E. injection E as <-. rewrite Hl in Hfr.
    by rewrite app_nil_r. }
  destruct (true && (_ =? _)); [by apply Hclose; [apply completion_status_ok|]|].
  destruct (_ && existsb _ _); [by apply Hclose|].
  unfold awaits_payload in Hnew. replace (true && _ && true) with true.
  - apply Hclose; [|done]. intros E. by destruct (timeout_status_ok f He).
  - apply andb_false_iff in Hnew as [->| ->]; simpl; by rewrite ?orb_true_r.
Qed.

(** C9: no frame stays open.  When every open frame has been without a packet
    for the retention time and none is the newest block with only its leader,
    the next look at the clock closes them all: each one that is not the
    replay of a finished block is handed to the subscribers, in the order the
    blocks were opened, and no buffer stays with the receiver. *)
Theorem stale_frames_closed (s : StreamRunner) (now : Z) :
  runner_inv src P ip s -> Forall (stale s now) (r_frames s) ->
  exists s' new, check_frame_completion s now None = Some s' /\ r_frames s' = [] /\
    r_delivered s' = r_delivered s ++ new /\ fr_frame_id <$> new = owed (r_frames s).
Proof.
  unfold check_frame_completion. remember (r_frames s) as l eqn:Hl. symmetry in Hl. revert s Hl.
  induction l as [|f l IH]; intros s Hl H Hs; cbn [length completion_loop]; rewrite Hl; cbn [length Nat.leb].
  - exists s, []. by rewrite app_nil_r.
  - apply Forall_cons in Hs as [Hf Hs]. destruct (stale_step s now f l H Hl Hf) as (s1 & new & -> & H1 & Hl1 & D1 & O1 & C1 & L1).
    cbn [mbind option_bind]. destruct (IH s1 Hl1 H1) as (s2 & new2 & -> & F2 & D2 & O2).
    { eapply Forall_impl; [exact Hs|]. intros g [G1 G2]. unfold stale, awaits_payload. by rewrite C1, L1. }
    exists s2, (new ++ new2). split_and!; [done|done|by rewrite D2, D1, app_assoc|].
    rewrite fmap_app, O1, O2. unfold owed. rewrite <- fmap_app. f_equal. simpl. by destruct (negb _).
Qed.
End stale.

(** A block of which one payload packet came, long ago; the channels are the
    reference queues, the hash is a sum, and every payload is accepted. *)
#[local] Instance ex_stale_hash : PacketHasher := fun content data => foldr Z.add content data.

Definition ex_stale_new : StreamRunner :=
  runner_new 9 (mkQueue [] None true : chan ToStreamWorker) (FramePool_new 2 4 : chan BufSlot) StreamConfig_new 100 4 true 0.
Definition ex_stale_packet : bytes := std_packet 0 7 1 3 [10; 20].

Definition ex_stale : StreamRunner := default ex_stale_new (process_packet ex_stale_new ex_stale_packet 5 0).

Lemma ex_stale_inv : runner_inv (fun _ _ _ => True) 4 9 ex_stale.
Proof.
  unfold ex_stale. destruct (process_packet_ok (fun _ _ _ => True) 4 9 ltac:(by vm_compute) ex_stale_new ex_stale_packet 5 0)
    as (s & -> & H); [| |exact H].
  - apply runner_new_inv. by repeat constructor.
  - intros view Hv. destruct (GvspView_parse_ok ex_stale_packet view) as (_ & _ & [? _] & _);
      [by apply bytes_ok_dec_true|exact Hv|]. by split.
Qed.

Definition staleb (s : StreamRunner) (now : Z) (f : FrameInFlight) : bool :=
  (cfg_frame_retention (r_cfg s) <=? duration_since now (f_last_packet_time f)) && negb (awaits_payload s f).

Lemma stale_check s now : forallb (staleb s now) (r_frames s) = true -> Forall (stale s now) (r_frames s).
Proof.
  rewrite forallb_forall. intros H. apply Forall_forall. intros f Hf%list_elem_of_In. specialize (H f Hf).
  unfold staleb, stale in *. lia.
Qed.

Lemma stale_frames_closed_witness :
  exists s' new, check_frame_completion ex_stale 1000000000 None = Some s' /\ r_frames s' = [] /\
    r_delivered s' = r_delivered ex_stale ++ new /\ fr_frame_id <$> new = [7].
Proof.
  destruct (stale_frames_closed (fun _ _ _ => True) 4 9 ex_stale 1000000000 ex_stale_inv) as (s' & new & E & F & D & O).
  - apply stale_check. vm_compute. reflexivity.
  - exists s', new. split; [exact E|]. split; [exact F|]. split; [exact D|]. rewrite O. vm_compute. reflexivity.
Defined.
