(* ===== verification/Viewer.v ===== *)
(** Showing a frame: [to_rgb] of [src/examples/live.rs], which turns the bytes
    of a frame into 0RGB pixels.

    The size and format of a frame are what the device's leader says.  [None]
    is a panic: an index outside the data, or an overflow of [usize] where the
    build checks for it. *)

From stdpp Require Import list.
From Stdlib Require Import SpecFloat.
From S2P Require Import Prelude Gvcp Gvsp Channel Float64 Frame.

(** * Arithmetic of the viewer *)

Definition usize (z : Z) : option Z := if z <=? USIZE_MAX then Some z else None.

Definition rgb (r g b : Z) : Z := Z.lor (Z.lor (Z.shiftl r 16) (Z.shiftl g 8)) b.

(** [x & !1]. *)
Definition even_below (x : Z) : Z := Z.land x (Z.lnot 1).

Definition f32_add := SFadd prec32 emax32.
Definition f32_sub := SFsub prec32 emax32.
Definition f32_mul := SFmul prec32 emax32.
Definition f32_of_u8 (z : Z) : spec_float := f32_of_f64 (f64_of_Z z).
Definition f32_lit (m e : Z) : spec_float := f32_of_f64 (f64_of_decimal m e).

(** [c.clamp(0.0, 255.0) as u8]. *)
Definition clamp_u8 (c : spec_float) : Z := f64_to_int 0 255 c.

(** The geometry of a frame in memory. *)
Record Layout := mkLayout { ly_w : Z; ly_h : Z; ly_bytes_pp : Z; ly_stride : Z; ly_data : bytes }.

Definition at_ (l : Layout) (x y byte : Z) : option Z := get_at (ly_data l) (y * ly_stride l + x * ly_bytes_pp l + byte).

(** * The pixels of each format *)

Definition mono8 (l : Layout) (x y : Z) : option Z := v ← at_ l x y 0; Some (rgb v v v).

Definition mono16 (shift : Z) (l : Layout) (x y : Z) : option Z :=
  lo ← at_ l x y 0; hi ← at_ l x y 1;
  let v := Z.min (Z.shiftr (le_decode [lo; hi]) shift) 255 in Some (rgb v v v).

Definition rgb8 (l : Layout) (x y : Z) : option Z :=
  r ← at_ l x y 0; g ← at_ l x y 1; b ← at_ l x y 2; Some (rgb r g b).
Definition bgr8 (l : Layout) (x y : Z) : option Z :=
  r ← at_ l x y 2; g ← at_ l x y 1; b ← at_ l x y 0; Some (rgb r g b).

(** Nearest neighbour over the cell [[a, b], [c, d]]. *)
Definition bayer (rg : bool) (l : Layout) (x y : Z) : option Z :=
  let x0 := Z.min (even_below x) (ly_w l - 2) in
  let y0 := Z.min (even_below y) (ly_h l - 2) in
  a ← at_ l x0 y0 0; b ← at_ l (x0 + 1) y0 0; c ← at_ l x0 (y0 + 1) 0; d ← at_ l (x0 + 1) (y0 + 1) 0;
  Some (if rg then rgb a ((b + c) / 2) d else rgb c ((a + d) / 2) b).

Definition yuv422 (l : Layout) (x y : Z) : option Z :=
  let pair := even_below x in
  luma ← at_ l x y 0; u ← at_ l pair y 1; v ← at_ l (Z.min (pair + 1) (ly_w l - 1)) y 1;
  let luma := f32_of_u8 luma in
  let u := f32_sub (f32_of_u8 u) (f32_lit 128 0) in
  let v := f32_sub (f32_of_u8 v) (f32_lit 128 0) in
  Some (rgb (clamp_u8 (f32_add luma (f32_mul (f32_lit 1402 (-3)) v)))
            (clamp_u8 (f32_sub (f32_sub luma (f32_mul (f32_lit 344 (-3)) u)) (f32_mul (f32_lit 714 (-3)) v)))
            (clamp_u8 (f32_add luma (f32_mul (f32_lit 1772 (-3)) u)))).

(** The pixel of a format the viewer can show. *)
Definition pixel (format : PixelFormat) (l : Layout) : option (Z -> Z -> option Z) :=
  if format =? MONO8 then Some (mono8 l)
  else if (format =? MONO10) || (format =? MONO12) || (format =? MONO16) then
    Some (mono16 (if format =? MONO10 then 2 else if format =? MONO12 then 4 else 8) l)
  else if format =? RGB8 then Some (rgb8 l)
  else if format =? BGR8 then Some (bgr8 l)
  else if (format =? BAYER_RG8) || (format =? BAYER_GB8) then
    if (ly_w l <? 2) || (ly_h l <? 2) then None else Some (bayer (format =? BAYER_RG8) l)
  else if format =? YUV422_8 then Some (yuv422 l)
  else None.

Definition fill (l : Layout) (p : Z -> Z -> option Z) : option (list Z) :=
  rows ← mapM (fun y => mapM (fun x => p x y) (seqZ 0 (ly_w l))) (seqZ 0 (ly_h l)); Some (concat rows).

(** [Some None]: the viewer can not show the frame. *)
Definition to_rgb (frame : Frame) : option (option (list Z)) :=
  let w := fr_width frame in
  let h := fr_height frame in
  let format := fr_pixel_format frame in
  let bytes_pp := bits_per_pixel format / 8 in
  line ← usize (w * bytes_pp);
  stride ← usize (line + fr_x_padding frame);
  let data := Frame_data frame in
  if (w =? 0) || (h =? 0) || (bytes_pp =? 0) then Some None
  else
    above ← usize (stride * (h - 1));
    need ← usize (above + line);
    if zlen data <? need then Some None
    else
      _ ← usize (w * h);
      let l := mkLayout w h bytes_pp stride data in
      match pixel format l with
      | None => Some None
      | Some p => out ← fill l p; Some (Some out)
      end.

(** * What should be shown *)

(** The formats the viewer knows. *)
Definition SHOWN : list Z := [MONO8; MONO10; MONO12; MONO16; RGB8; BGR8; BAYER_RG8; BAYER_GB8; YUV422_8].

(** A frame with pixels of a known format, all of them in its data, and at
    least one cell of a colour mosaic. *)
Record showable (format w h stride : Z) (data : bytes) : Prop := {
  sw_format : format ∈ SHOWN;
  sw_size : 0 < w /\ 0 < h;
  sw_data : stride * (h - 1) + w * (bits_per_pixel format / 8) <= zlen data;
  sw_mosaic : format = BAYER_RG8 \/ format = BAYER_GB8 -> 2 <= w /\ 2 <= h }.

Definition paint (r g b : Z) : Z := r * 65536 + g * 256 + b.
Definition grey (v : Z) : Z := paint v v v.

(** Luma and the two differences to the primaries, in single precision. *)
Definition yuv_colour (luma u v : Z) : Z :=
  let f := f32_of_u8 in
  let off z := f32_sub (f z) (f32_lit 128 0) in
  paint (clamp_u8 (f32_add (f luma) (f32_mul (f32_lit 1402 (-3)) (off v))))
        (clamp_u8 (f32_sub (f32_sub (f luma) (f32_mul (f32_lit 344 (-3)) (off u))) (f32_mul (f32_lit 714 (-3)) (off v))))
        (clamp_u8 (f32_add (f luma) (f32_mul (f32_lit 1772 (-3)) (off u)))).

(** The byte of the data at [column] of [row]. *)
Definition byte_at (stride : Z) (data : bytes) (column row : Z) : Z := nth (Z.to_nat (row * stride + column)) data 0.

(** The colour of the pixel in column [x] of row [y], from the bytes of its
    own place: grey levels of eight bits and of ten, twelve and
    sixteen bits in two bytes, the least first; three bytes a pixel; the cell of
    a mosaic the pixel lies in, the last whole one at the edge; and luma with
    the chroma of its pair. *)
Definition colour (format w h stride : Z) (data : bytes) (x y : Z) : Z :=
  let B := byte_at stride data in
  let word := B (2 * x) y + 256 * B (2 * x + 1) y in
  let x0 := Z.min (x - x mod 2) (w - 2) in
  let y0 := Z.min (y - y mod 2) (h - 2) in
  let pair := x - x mod 2 in
  if format =? MONO8 then grey (B x y)
  else if format =? MONO10 then grey (Z.min (word / 4) 255)
  else if format =? MONO12 then grey (Z.min (word / 16) 255)
  else if format =? MONO16 then grey (word / 256)
  else if format =? RGB8 then paint (B (3 * x) y) (B (3 * x + 1) y) (B (3 * x + 2) y)
  else if format =? BGR8 then paint (B (3 * x + 2) y) (B (3 * x + 1) y) (B (3 * x) y)
  else if format =? BAYER_RG8 then paint (B x0 y0) ((B (x0 + 1) y0 + B x0 (y0 + 1)) / 2) (B (x0 + 1) (y0 + 1))
  else if format =? BAYER_GB8 then paint (B x0 (y0 + 1)) ((B x0 y0 + B (x0 + 1) (y0 + 1)) / 2) (B (x0 + 1) y0)
  else yuv_colour (B (2 * x) y) (B (2 * pair + 1) y) (B (2 * Z.min (pair + 1) (w - 1) + 1) y).

(** * What is shown *)

(** The layout lies in the data. *)
Record layout_ok (l : Layout) : Prop := {
  lo_w : 0 < ly_w l; lo_h : 0 < ly_h l; lo_pp : 0 < ly_bytes_pp l;
  lo_stride : ly_w l * ly_bytes_pp l <= ly_stride l;
  lo_data : ly_stride l * (ly_h l - 1) + ly_w l * ly_bytes_pp l <= zlen (ly_data l);
  lo_bytes : bytes_ok (ly_data l) }.

Lemma even_below_mod x : even_below x = x - x mod 2.
Proof. unfold even_below. rewrite <- Z.sub_land_same_l. change 1 with (Z.ones 1). by rewrite Z.land_ones by lia. Qed.

(** The three colours of a pixel. *)
Lemma rgb_value r g b : u8_ok r -> u8_ok g -> u8_ok b -> rgb r g b = paint r g b.
Proof.
  intros Hr Hg Hb. unfold rgb. rewrite <- Z.lor_assoc. rewrite (lor_shiftl_add g) by width_lia.
  rewrite lor_shiftl_add by width_lia. unfold paint. width_lia.
Qed.

Section pixels.
Context (l : Layout) (L : layout_ok l).
Let B := byte_at (ly_stride l) (ly_data l).

Lemma at_byte x y byte column : 0 <= x < ly_w l -> 0 <= y < ly_h l -> 0 <= byte < ly_bytes_pp l -> x * ly_bytes_pp l + byte = column ->
  at_ l x y byte = Some (B column y) /\ u8_ok (B column y).
Proof.
  destruct L as [H1 H2 H3 H4 H5 H6]. intros Hx Hy Hb <-. unfold at_, B, byte_at.
  destruct (get_at_is_Some (ly_data l) (y * ly_stride l + x * ly_bytes_pp l + byte)) as [b Hv]; [nia|]. rewrite Hv, Z.add_assoc.
  unfold get_at in Hv. destruct (0 <=? _); [|done]. rewrite (nth_lookup_Some _ _ _ _ Hv).
  split; [done|by apply (Forall_lookup_1 _ _ _ _ H6 Hv)].
Qed.

(** The next byte of the pixel in column [x] is at [column]. *)
Ltac byte_is column :=
  match goal with |- context [at_ l ?x ?y ?b] =>
    let E := fresh "E" in let H := fresh "H" in
    destruct (at_byte x y b column) as [E H]; [lia|lia|lia|lia|]; rewrite E; clear E; cbn [mbind option_bind] end.

Context (x y : Z) (Hx : 0 <= x < ly_w l) (Hy : 0 <= y < ly_h l).
Let x0 := Z.min (x - x mod 2) (ly_w l - 2).
Let y0 := Z.min (y - y mod 2) (ly_h l - 2).

Lemma mono8_shows : ly_bytes_pp l = 1 -> mono8 l x y = Some (grey (B x y)).
Proof. intros Hpp. unfold mono8. byte_is x. by rewrite rgb_value. Qed.

Lemma mono16_shows k : ly_bytes_pp l = 2 -> 0 <= k ->
  mono16 k l x y = Some (grey (Z.min ((B (2 * x) y + 256 * B (2 * x + 1) y) / 2 ^ k) 255)).
Proof.
  intros Hpp Hk. unfold mono16. byte_is (2 * x). byte_is (2 * x + 1).
  replace (le_decode [B (2 * x) y; B (2 * x + 1) y]) with (B (2 * x) y + 256 * B (2 * x + 1) y) by (cbn [le_decode]; lia).
  rewrite Z.shiftr_div_pow2 by done. set (v := _ / _). assert (0 <= v) by (apply Z.div_pos; width_lia).
  by rewrite rgb_value by width_lia.
Qed.

Lemma rgb8_shows : ly_bytes_pp l = 3 ->
  rgb8 l x y = Some (paint (B (3 * x) y) (B (3 * x + 1) y) (B (3 * x + 2) y)) /\
  bgr8 l x y = Some (paint (B (3 * x + 2) y) (B (3 * x + 1) y) (B (3 * x) y)).
Proof.
  intros Hpp. unfold rgb8, bgr8. byte_is (3 * x). byte_is (3 * x + 1). byte_is (3 * x + 2). by rewrite !rgb_value.
Qed.

Lemma half_u8 a b : u8_ok a -> u8_ok b -> u8_ok ((a + b) / 2).
Proof. unfold u8_ok. intros Ha Hb. split; [apply Z.div_pos; lia|apply Z.div_lt_upper_bound; lia]. Qed.

Lemma bayer_shows rg : ly_bytes_pp l = 1 -> 2 <= ly_w l -> 2 <= ly_h l ->
  bayer rg l x y = Some (if rg then paint (B x0 y0) ((B (x0 + 1) y0 + B x0 (y0 + 1)) / 2) (B (x0 + 1) (y0 + 1))
                         else paint (B x0 (y0 + 1)) ((B x0 y0 + B (x0 + 1) (y0 + 1)) / 2) (B (x0 + 1) y0)).
Proof.
  intros Hpp Hw Hh. unfold bayer. rewrite !even_below_mod. fold x0 y0.
  pose proof (Z.mod_pos_bound x 2). pose proof (Z.mod_pos_bound y 2). pose proof (Z.mod_le x 2). pose proof (Z.mod_le y 2).
  assert (0 <= x0 <= ly_w l - 2) as Hx0 by (unfold x0; lia). assert (0 <= y0 <= ly_h l - 2) as Hy0 by (unfold y0; lia). clearbody x0 y0.
  byte_is x0. byte_is (x0 + 1). byte_is x0. byte_is (x0 + 1). destruct rg; by rewrite rgb_value by (done || by apply half_u8).
Qed.

Lemma yuv422_shows (pair := x - x mod 2) : ly_bytes_pp l = 2 ->
  yuv422 l x y = Some (yuv_colour (B (2 * x) y) (B (2 * pair + 1) y) (B (2 * Z.min (pair + 1) (ly_w l - 1) + 1) y)).
Proof.
  intros Hpp. unfold yuv422. rewrite even_below_mod. fold pair. pose proof (Z.mod_pos_bound x 2). pose proof (Z.mod_le x 2).
  assert (0 <= pair <= x) as Hp by (unfold pair; lia). clearbody pair.
  byte_is (2 * x). byte_is (2 * pair + 1). byte_is (2 * Z.min (pair + 1) (ly_w l - 1) + 1).
  assert (forall c, u8_ok (clamp_u8 c)) as Hc.
  { intros c. unfold clamp_u8, u8_ok. pose proof (f64_to_int_range 0 255 c ltac:(lia)). lia. }
  by rewrite rgb_value.
Qed.
End pixels.

(** Rows of equal length, one after the other. *)
Lemma lookup_rows {A} (rows : list (list A)) (w y x : nat) : Forall (fun r => length r = w) rows -> (x < w)%nat ->
  concat rows !! (y * w + x)%nat = rows !! y ≫= (.!! x).
Proof.
  revert y. induction rows as [|r rows IH]; intros y H Hx; simpl; [done|]. apply Forall_cons in H as [Hr H].
  destruct y as [|y]; simpl.
  - by rewrite lookup_app_l by lia.
  - rewrite lookup_app_r by lia. replace (w + y * w + x - length r)%nat with (y * w + x)%nat by lia. by apply IH.
Qed.

Lemma length_rows {A} (rows : list (list A)) (w : nat) : Forall (fun r => length r = w) rows ->
  length (concat rows) = (length rows * w)%nat.
Proof. induction 1 as [|r rows Hr _ IH]; simpl; [done|]. rewrite length_app. lia. Qed.

(** A total function over a range of integers. *)
Lemma mapM_range {A} (f : Z -> option A) (n : Z) : (forall i, 0 <= i < n -> is_Some (f i)) ->
  exists l, mapM f (seqZ 0 n) = Some l /\ length l = Z.to_nat n /\ forall i, 0 <= i < n -> l !! Z.to_nat i = f i.
Proof.
  intros Hf. destruct (mapM_is_Some_2 f (seqZ 0 n)) as [l Hl].
  { apply Forall_forall. intros i Hi%elem_of_seqZ. apply Hf. lia. }
  exists l. split; [done|]. apply mapM_Some in Hl. pose proof (Forall2_length _ _ _ Hl) as Hn. rewrite length_seqZ in Hn.
  split; [done|]. intros i Hi. destruct (lookup_lt_is_Some_2 l (Z.to_nat i)) as [a Ha]; [lia|].
  pose proof (Forall2_lookup_lr _ _ _ (Z.to_nat i) (0 + i) a Hl) as H. rewrite Ha.
  rewrite <- H; [by replace (0 + i) with i by lia| |done]. rewrite lookup_seqZ_lt by lia. f_equal. lia.
Qed.

Lemma fill_ok l p : 0 < ly_w l -> 0 < ly_h l -> (forall x y, 0 <= x < ly_w l -> 0 <= y < ly_h l -> is_Some (p x y)) ->
  exists out, fill l p = Some out /\ zlen out = ly_w l * ly_h l /\
    forall x y, 0 <= x < ly_w l -> 0 <= y < ly_h l -> out !! Z.to_nat (y * ly_w l + x) = p x y.
Proof.
  intros Hw Hh Hs. set (row := fun y => mapM (fun x => p x y) (seqZ 0 (ly_w l))).
  assert (forall y, 0 <= y < ly_h l -> exists r, row y = Some r /\ length r = Z.to_nat (ly_w l) /\
    forall x, 0 <= x < ly_w l -> r !! Z.to_nat x = p x y) as Hrow.
  { intros y Hy. apply mapM_range. intros x Hx. by apply Hs. }
  destruct (mapM_range row (ly_h l)) as (rows & E & Hlen & Hat).
  { intros y Hy. destruct (Hrow y Hy) as (r & -> & _). by eexists. }
  assert (Forall (fun r => length r = Z.to_nat (ly_w l)) rows) as Hrows.
  { apply Forall_lookup. intros y r Hr. pose proof (lookup_lt_Some _ _ _ Hr) as Hlt.
    destruct (Hrow (Z.of_nat y)) as (r' & Er & Hl' & _); [lia|]. rewrite <- (Hat (Z.of_nat y)), Nat2Z.id, Hr in Er by lia.
    by injection Er as ->. }
  assert (forall x y, 0 <= x < ly_w l -> 0 <= y < ly_h l -> concat rows !! Z.to_nat (y * ly_w l + x) = p x y) as Hout.
  { intros x y Hx Hy. replace (Z.to_nat (y * ly_w l + x)) with (Z.to_nat y * Z.to_nat (ly_w l) + Z.to_nat x)%nat by nia.
    rewrite lookup_rows by (done || lia). rewrite (Hat y Hy). destruct (Hrow y Hy) as (r & -> & _ & Hr). by apply Hr. }
  assert (zlen (concat rows) = ly_w l * ly_h l) as Hz.
  { unfold zlen. rewrite (length_rows rows (Z.to_nat (ly_w l)) Hrows), Hlen. nia. }
  exists (concat rows). unfold fill. fold row. rewrite E. by split_and!.
Qed.

Lemma mosaic_colours format l : layout_ok l -> ly_bytes_pp l = 1 -> format = BAYER_RG8 \/ format = BAYER_GB8 -> format ∈ SHOWN ->
  match pixel format l with
  | Some p =>
      format ∈ SHOWN /\ (format = BAYER_RG8 \/ format = BAYER_GB8 -> 2 <= ly_w l /\ 2 <= ly_h l) /\
      forall x y, 0 <= x < ly_w l -> 0 <= y < ly_h l ->
        p x y = Some (colour format (ly_w l) (ly_h l) (ly_stride l) (ly_data l) x y)
  | None => format ∉ SHOWN \/ ((format = BAYER_RG8 \/ format = BAYER_GB8) /\ (ly_w l < 2 \/ ly_h l < 2))
  end.
Proof.
  intros L Hpp Hf Hin.
  assert (pixel format l = if (ly_w l <? 2) || (ly_h l <? 2) then None else Some (bayer (format =? BAYER_RG8) l)) as ->
    by (by destruct Hf as [-> | ->]).
  destruct ((ly_w l <? 2) || (ly_h l <? 2)) eqn:E; [right; split; [done|lia]|]. split_and!; [done|lia|].
  intros x y Hx Hy. rewrite bayer_shows by (done || lia). by destruct Hf as [-> | ->].
Qed.

(** The viewer knows the formats of [SHOWN], and paints their colours. *)
Lemma pixel_colours format l : layout_ok l -> ly_bytes_pp l = bits_per_pixel format / 8 ->
  match pixel format l with
  | Some p =>
      format ∈ SHOWN /\ (format = BAYER_RG8 \/ format = BAYER_GB8 -> 2 <= ly_w l /\ 2 <= ly_h l) /\
      forall x y, 0 <= x < ly_w l -> 0 <= y < ly_h l ->
        p x y = Some (colour format (ly_w l) (ly_h l) (ly_stride l) (ly_data l) x y)
  | None => format ∉ SHOWN \/ ((format = BAYER_RG8 \/ format = BAYER_GB8) /\ (ly_w l < 2 \/ ly_h l < 2))
  end.
Proof.
  intros L Hpp. destruct (decide (format ∈ SHOWN)) as [Hin|Hout].
  2: { assert (pixel format l = None) as ->; [|by left]. unfold pixel. unfold SHOWN in Hout. rewrite !not_elem_of_cons in Hout.
       destruct Hout as (? & ? & ? & ? & ? & ? & ? & ? & ? & _).
       by repeat match goal with |- context [format =? ?f] => replace (format =? f) with false by lia end. }
  pose proof Hin as Hin'. unfold SHOWN in Hin.
  rows Hin; try (split; [exact Hin'|split; [by intros [[=]|[=]]|intros x y Hx Hy]]).
  - by apply mono8_shows.
  - by apply (mono16_shows l L x y Hx Hy 2).
  - by apply (mono16_shows l L x y Hx Hy 4).
  - change (mono16 8 l x y = Some (grey ((byte_at (ly_stride l) (ly_data l) (2 * x) y + 256 * byte_at (ly_stride l) (ly_data l) (2 * x + 1) y) / 256))).
    rewrite (mono16_shows l L x y Hx Hy 8) by done. change (2 ^ 8) with 256.
    destruct (at_byte l L x y 0 (2 * x)) as [_ H0]; [lia|lia|by rewrite Hpp|rewrite Hpp; change (_ / 8) with 2; lia|].
    destruct (at_byte l L x y 1 (2 * x + 1)) as [_ H1]; [lia|lia|by rewrite Hpp|rewrite Hpp; change (_ / 8) with 2; lia|].
    rewrite Z.min_l; [done|]. apply Z.lt_succ_r, Z.div_lt_upper_bound; [done|width_lia].
  - exact (proj1 (rgb8_shows l L x y Hx Hy Hpp)).
  - exact (proj2 (rgb8_shows l L x y Hx Hy Hpp)).
  - apply mosaic_colours; [done|done|by left|done].
  - apply mosaic_colours; [done|done|by right|done].
  - by apply yuv422_shows.
Qed.

(** C38: the viewer paints exactly the pixels of the frame.  For every frame
    whose size and padding, as its leader gives them, stay below the width of a
    [usize], the conversion does not panic.  It declines a frame exactly when
    that is empty, has less data than its pixels take, is of a format the viewer
    does not know, or is a colour mosaic without one whole cell; and otherwise
    gives one colour for each pixel, row by row, the colour its format says made
    of the bytes at its own place. *)
Theorem viewer_in_bounds (frame : Frame) :
  let w := fr_width frame in
  let h := fr_height frame in
  let format := fr_pixel_format frame in
  let stride := w * (bits_per_pixel format / 8) + fr_x_padding frame in
  u32_ok w -> u32_ok h -> u16_ok (fr_x_padding frame) -> bytes_ok (slot_data (fr_slot frame)) ->
  stride * h <= USIZE_MAX ->
  exists r, to_rgb frame = Some r /\
    match r with
    | Some out =>
        showable format w h stride (Frame_data frame) /\ zlen out = w * h /\
        forall x y, 0 <= x < w -> 0 <= y < h ->
          out !! Z.to_nat (y * w + x) = Some (colour format w h stride (Frame_data frame) x y)
    | None => ~ showable format w h stride (Frame_data frame)
    end.
Proof.
  intros w h format stride Hw Hh Hx Hbytes Hfit. unfold to_rgb. fold w h format. set (bytes_pp := bits_per_pixel format / 8) in *.
  assert (0 <= bytes_pp <= 31) as Hpp.
  { unfold bytes_pp, bits_per_pixel. change 0xff with (Z.ones 8). rewrite Z.land_ones by lia.
    pose proof (Z.mod_pos_bound (Z.shiftr format 16) (2 ^ 8) ltac:(lia)).
    split; [apply Z.div_pos; lia|apply Z.lt_succ_r, Z.div_lt_upper_bound; lia]. }
  assert (0 <= w * bytes_pp <= 31 * U32_MAX) as Hline by (unfold u32_ok in *; nia).
  unfold usize. replace (w * bytes_pp <=? USIZE_MAX) with true by width_lia. cbn [mbind option_bind].
  fold stride. replace (stride <=? USIZE_MAX) with true by (unfold stride; width_lia). cbn [mbind option_bind].
  destruct ((w =? 0) || (h =? 0) || (bytes_pp =? 0)) eqn:E0.
  { eexists. split; [done|]. intros [Hf [? ?] _ _]. assert (bytes_pp <> 0); [|lia]. unfold bytes_pp, SHOWN in *. clearbody format. rows Hf; by vm_compute. }
  assert (w * bytes_pp <= stride) by (unfold stride; width_lia). assert (0 <= stride) by (unfold stride; width_lia).
  replace (stride * (h - 1) <=? USIZE_MAX) with true by nia. cbn [mbind option_bind].
  replace (stride * (h - 1) + w * bytes_pp <=? USIZE_MAX) with true by nia. cbn [mbind option_bind].
  destruct (zlen (Frame_data frame) <? _) eqn:Ed.
  { eexists. split; [done|]. intros [_ _ Hd _]. fold bytes_pp in Hd. lia. }
  replace (w * h <=? USIZE_MAX) with true by (unfold_widths; nia). cbn [mbind option_bind].
  set (l := mkLayout w h bytes_pp stride (Frame_data frame)).
  assert (layout_ok l) as L.
  { split; cbn; try width_lia. by apply Forall_take. }
  pose proof (pixel_colours format l L eq_refl) as Hc. destruct (pixel format l) as [p|].
  - destruct Hc as (Hf & Hm & Hc). destruct (fill_ok l p) as (out & -> & Hz & Hat); [apply L|apply L|intros x y Hx' Hy'; by rewrite Hc|].
    eexists. split; [done|]. split_and!; [|done|intros x y Hx' Hy'; cbn in Hat; rewrite Hat by done; by apply Hc].
    split; [done|width_lia|fold bytes_pp; lia|done].
  - eexists. split; [done|]. intros [Hf [? ?] _ Hm]. destruct Hc as [Hc|[Hb Hc]]; [done|]. specialize (Hm Hb). cbn in Hc. lia.
Qed.

(** Two by two grey pixels with a byte of padding after the first row. *)
Definition ex_grey (format w h : Z) : Frame :=
  {| fr_status := Complete; fr_frame_id := 1; fr_payload := PkImage false; fr_pixel_format := format; fr_width := w;
     fr_height := h; fr_x_offset := 0; fr_y_offset := 0; fr_x_padding := 1; fr_y_padding := 0; fr_timestamp_ticks := 0;
     fr_timestamp_ns := 0; fr_system_timestamp_ns := 0; fr_received_size := 5; fr_data_end := 5;
     fr_slot := {| slot_data := [1; 2; 0; 3; 4]; slot_packets := [] |} |}.

Lemma viewer_in_bounds_witness : exists out, to_rgb (ex_grey MONO8 2 2) = Some (Some out) /\ zlen out = 4 /\
  out = [0x010101; 0x020202; 0x030303; 0x040404].
Proof.
  destruct (viewer_in_bounds (ex_grey MONO8 2 2)) as (r & E & H);
    [by vm_compute|by vm_compute|by vm_compute|by apply bytes_ok_dec_true|by vm_compute|].
  exists [0x010101; 0x020202; 0x030303; 0x040404]. split; [vm_compute; reflexivity|].
  assert (r = Some [0x010101; 0x020202; 0x030303; 0x040404]) as Hr by (vm_compute in E; by injection E as <-).
  rewrite Hr in H. split; [exact (proj1 (proj2 H))|reflexivity].
Defined.

(** Without chroma the picture is grey. *)
Example yuv_grey : forallb (fun y => yuv_colour y 128 128 =? grey y) (seqZ 0 256) = true.
Proof. vm_compute. reflexivity. Qed.

(** Pure red in each format that has colours: the bytes of a frame of two by
    two pixels and the colour of its first. *)
Example red :
  colour RGB8 2 2 6 [255; 0; 0; 255; 0; 0; 255; 0; 0; 255; 0; 0] 1 1 = 0xff0000 /\
  colour BGR8 2 2 6 [0; 0; 255; 0; 0; 255; 0; 0; 255; 0; 0; 255] 1 1 = 0xff0000 /\
  colour BAYER_RG8 2 2 2 [255; 0; 0; 0] 1 1 = 0xff0000 /\ colour BAYER_GB8 2 2 2 [0; 0; 255; 0] 1 1 = 0xff0000 /\
  colour YUV422_8 2 2 4 [76; 85; 76; 255; 76; 85; 76; 255] 0 1 = 0xfe0000.
Proof. vm_compute. auto. Qed.

(** A leader that announces more than a [usize] can count. *)
Lemma viewer_overflows : to_rgb (ex_grey RGB8 0xffffffff 0xffffffff) = None.
Proof. vm_compute. reflexivity. Qed.
