(* ===== verification/EmulatedXml.v ===== *)
(** The description the emulator serves ([src/src/emulator/xml.rs]) and the
    node graph the parser makes of it.

    The XML parser is a parameter; what is assumed of it is the tree it makes
    of this one description and of the three fallback definitions.  A small
    parser at the end shows that the trees are those of the texts. *)

From stdpp Require Import gmap.
From S2P Require Import Prelude Float64 Text Url Register Evaluator Errors NodeGraph Camera XmlGraph Description Emulator.

(** * The description *)

(** The text of the constant, a backquote for each of its quotation marks. *)
Definition description_source : text := str
"<?xml version=`1.0` encoding=`utf-8`?>
<RegisterDescription ModelName=`TheaterCam` VendorName=`Valstad`
    xmlns=`http://www.genicam.org/GenApi/Version_1_1`>
  <Integer Name=`Width`><pValue>WidthReg</pValue><Min>8</Min><Max>8192</Max></Integer>
  <IntReg Name=`WidthReg`>
    <Address>0x2000</Address><Length>4</Length><AccessMode>RW</AccessMode>
    <pPort>Device</pPort><Endianess>BigEndian</Endianess>
  </IntReg>
  <Integer Name=`Height`><pValue>HeightReg</pValue><Min>8</Min><Max>8192</Max></Integer>
  <IntReg Name=`HeightReg`>
    <Address>0x2004</Address><Length>4</Length><AccessMode>RW</AccessMode>
    <pPort>Device</pPort><Endianess>BigEndian</Endianess>
  </IntReg>
  <IntSwissKnife Name=`PayloadSize`>
    <pVariable Name=`W`>Width</pVariable>
    <pVariable Name=`H`>Height</pVariable>
    <Formula>W * H</Formula>
  </IntSwissKnife>
  <Command Name=`AcquisitionStart`>
    <pValue>AcqReg</pValue><CommandValue>1</CommandValue>
  </Command>
  <Command Name=`AcquisitionStop`>
    <pValue>AcqReg</pValue><CommandValue>0</CommandValue>
  </Command>
  <IntReg Name=`AcqReg`>
    <Address>0x2008</Address><Length>4</Length><AccessMode>RW</AccessMode>
    <pPort>Device</pPort><Endianess>BigEndian</Endianess>
  </IntReg>
  <Enumeration Name=`AcquisitionMode`>
    <EnumEntry Name=`Continuous`><Value>0</Value></EnumEntry>
    <EnumEntry Name=`SingleFrame`><Value>1</Value></EnumEntry>
    <pValue>AcqModeReg</pValue>
  </Enumeration>
  <IntReg Name=`AcqModeReg`>
    <Address>0x200C</Address><Length>4</Length><AccessMode>RW</AccessMode>
    <pPort>Device</pPort><Endianess>BigEndian</Endianess>
  </IntReg>
  <Enumeration Name=`PixelFormat`>
    <EnumEntry Name=`Mono8`><Value>17301505</Value></EnumEntry>
    <pValue>PixelFormatReg</pValue>
  </Enumeration>
  <IntReg Name=`PixelFormatReg`>
    <Address>0x2010</Address><Length>4</Length><AccessMode>RW</AccessMode>
    <pPort>Device</pPort><Endianess>BigEndian</Endianess>
  </IntReg>
  <Float Name=`ExposureTime`><pValue>ExposureReg</pValue></Float>
  <FloatReg Name=`ExposureReg`>
    <Address>0x2014</Address><Length>4</Length><AccessMode>RW</AccessMode>
    <pPort>Device</pPort><Endianess>BigEndian</Endianess>
  </FloatReg>
  <Float Name=`Gain`><pValue>GainReg</pValue></Float>
  <FloatReg Name=`GainReg`>
    <Address>0x2018</Address><Length>4</Length><AccessMode>RW</AccessMode>
    <pPort>Device</pPort><Endianess>BigEndian</Endianess>
  </FloatReg>
  <Port Name=`Device`/>
</RegisterDescription>".

Definition GENICAM_XML : text := (fun c => if c =? 96 then 34 else c) <$> description_source.

(** A line break and the indentation after it. *)
Definition nl (n : nat) : XmlNode := XText (10 :: replicate n 32).

Definition genicam_tree : XmlNode :=
  XElement (str "RegisterDescription") [(str "ModelName", str "TheaterCam"); (str "VendorName", str "Valstad")]
   [nl 2; elem "Integer" "Width" [leaf "pValue" "WidthReg"; leaf "Min" "8"; leaf "Max" "8192"]; nl 2;
    elem "IntReg" "WidthReg"
     [nl 4; leaf "Address" "0x2000"; leaf "Length" "4"; leaf "AccessMode" "RW"; nl 4; leaf "pPort" "Device";
      leaf "Endianess" "BigEndian"; nl 2];
    nl 2; elem "Integer" "Height" [leaf "pValue" "HeightReg"; leaf "Min" "8"; leaf "Max" "8192"]; nl 2;
    elem "IntReg" "HeightReg"
     [nl 4; leaf "Address" "0x2004"; leaf "Length" "4"; leaf "AccessMode" "RW"; nl 4; leaf "pPort" "Device";
      leaf "Endianess" "BigEndian"; nl 2];
    nl 2;
    elem "IntSwissKnife" "PayloadSize"
     [nl 4; elem "pVariable" "W" [XText (str "Width")]; nl 4; elem "pVariable" "H" [XText (str "Height")];
      nl 4; leaf "Formula" "W * H"; nl 2];
    nl 2; elem "Command" "AcquisitionStart" [nl 4; leaf "pValue" "AcqReg"; leaf "CommandValue" "1"; nl 2];
    nl 2; elem "Command" "AcquisitionStop" [nl 4; leaf "pValue" "AcqReg"; leaf "CommandValue" "0"; nl 2]; nl 2;
    elem "IntReg" "AcqReg"
     [nl 4; leaf "Address" "0x2008"; leaf "Length" "4"; leaf "AccessMode" "RW"; nl 4; leaf "pPort" "Device";
      leaf "Endianess" "BigEndian"; nl 2];
    nl 2;
    elem "Enumeration" "AcquisitionMode"
     [nl 4; elem "EnumEntry" "Continuous" [leaf "Value" "0"]; nl 4;
      elem "EnumEntry" "SingleFrame" [leaf "Value" "1"]; nl 4; leaf "pValue" "AcqModeReg"; nl 2];
    nl 2;
    elem "IntReg" "AcqModeReg"
     [nl 4; leaf "Address" "0x200C"; leaf "Length" "4"; leaf "AccessMode" "RW"; nl 4; leaf "pPort" "Device";
      leaf "Endianess" "BigEndian"; nl 2];
    nl 2;
    elem "Enumeration" "PixelFormat" [nl 4; elem "EnumEntry" "Mono8" [leaf "Value" "17301505"]; nl 4; leaf "pValue" "PixelFormatReg"; nl 2];
    nl 2;
    elem "IntReg" "PixelFormatReg"
     [nl 4; leaf "Address" "0x2010"; leaf "Length" "4"; leaf "AccessMode" "RW"; nl 4; leaf "pPort" "Device";
      leaf "Endianess" "BigEndian"; nl 2];
    nl 2; elem "Float" "ExposureTime" [leaf "pValue" "ExposureReg"]; nl 2;
    elem "FloatReg" "ExposureReg"
     [nl 4; leaf "Address" "0x2014"; leaf "Length" "4"; leaf "AccessMode" "RW"; nl 4; leaf "pPort" "Device";
      leaf "Endianess" "BigEndian"; nl 2];
    nl 2; elem "Float" "Gain" [leaf "pValue" "GainReg"]; nl 2;
    elem "FloatReg" "GainReg"
     [nl 4; leaf "Address" "0x2018"; leaf "Length" "4"; leaf "AccessMode" "RW"; nl 4; leaf "pPort" "Device";
      leaf "Endianess" "BigEndian"; nl 2];
    nl 2; elem "Port" "Device" []; nl 0].

Definition default_trees : list XmlNode :=
  [elem "Integer" "TLParamsLocked" [leaf "Value" "0"; leaf "Min" "0"; leaf "Max" "1"];
   elem "MaskedIntReg" "GevSCPSPacketSize"
     [nl 13; leaf "Address" "0xd04"; leaf "Length" "4"; leaf "AccessMode" "RW"; nl 13; leaf "pPort" "Device";
      leaf "Cachable" "NoCache"; nl 13; leaf "LSB" "31"; leaf "MSB" "16"; leaf "Endianess" "BigEndian"; nl 11];
   elem "IntReg" "GevTimestampTickFrequency"
     [nl 13; leaf "Address" "0x93c"; leaf "Length" "8"; leaf "AccessMode" "RO"; nl 13; leaf "pPort" "Device";
      leaf "Endianess" "BigEndian"; nl 11]].

(** The parser makes these trees of these texts. *)
Record reads_description {XL : XmlLib} : Prop := {
  rd_description : xml_document GENICAM_XML = Some genicam_tree;
  rd_defaults : xml_document <$> DEFAULT_NODES.*2 = Some <$> default_trees }.

(** * A parser for such texts *)

Fixpoint span (p : Z -> bool) (s : text) : text * text :=
  match s with
  | c :: s' => if p c then let '(a, b) := span p s' in (c :: a, b) else ([], s)
  | [] => ([], [])
  end.

Definition spaces (s : text) : text := snd (span (fun c => (c =? 32) || (c =? 10)) s).
Definition name_char (c : Z) : bool := negb (existsb (Z.eqb c) [32; 10; 47; 61; 62]).

(** Attributes up to the end of a start tag; namespaces are none. *)
Fixpoint tiny_attributes (fuel : nat) (s : text) : option (list (text * text) * text) :=
  match fuel, spaces s with
  | S fuel, (c :: _) as s =>
      if (c =? 47) || (c =? 62) then Some ([], s)
      else
        match span name_char s with
        | (name, 61 :: 34 :: s) =>
            match span (fun c => negb (c =? 34)) s with
            | (value, 34 :: s) =>
                '(rest, s) ← tiny_attributes fuel s;
                Some (if bool_decide (name = str "xmlns") then rest else (name, value) :: rest, s)
            | _ => None
            end
        | _ => None
        end
  | _, _ => None
  end.

(** The nodes up to an end tag. *)
Fixpoint tiny_nodes (fuel : nat) (s : text) : option (list XmlNode * text) :=
  match fuel, s with
  | _, [] | _, 60 :: 47 :: _ => Some ([], s)
  | S fuel, 60 :: s =>
      let '(tag, s) := span name_char s in
      '(attrs, s) ← tiny_attributes fuel s;
      match s with
      | 47 :: 62 :: s =>
          '(rest, s) ← tiny_nodes fuel s;
          Some (XElement tag attrs [] :: rest, s)
      | 62 :: s =>
          '(cs, s) ← tiny_nodes fuel s;
          match span name_char (drop 2 s) with
          | (tag', 62 :: s) =>
              if bool_decide (tag' = tag)
              then '(rest, s) ← tiny_nodes fuel s; Some (XElement tag attrs cs :: rest, s)
              else None
          | _ => None
          end
      | _ => None
      end
  | S fuel, s =>
      let '(t, s) := span (fun c => negb (c =? 60)) s in
      '(rest, s) ← tiny_nodes fuel s;
      Some (XText t :: rest, s)
  | O, _ => None
  end.

(** The document element, after a declaration if there is one. *)
Definition tiny_document (s : text) : option XmlNode :=
  let s := match s with 60 :: 63 :: _ => drop 1 (snd (span (fun c => negb (c =? 62)) s)) | _ => s end in
  '(cs, s) ← tiny_nodes (length s) s;
  if bool_decide (s = []) then List.find is_element cs else None.

Definition tiny_xml : XmlLib := {| xml_document := tiny_document |}.

Lemma tiny_reads : reads_description (XL := tiny_xml).
Proof. split; vm_compute; reflexivity. Qed.

(** * The graph *)

(** What feature calls change in it: the caches of the registers, the compiled
    formula and the literal behind [TLParamsLocked]. *)
Record Emu := mkEmu {
  e_width : option bytes; e_height : option bytes; e_acq : option bytes; e_mode : option bytes;
  e_format : option bytes; e_exposure : option bytes; e_gain : option bytes; e_compiled : option Expr; e_locked : Z;
  e_tick : option bytes }.
Definition Emu_eta (e : Emu) : Emu :=
  mkEmu (e_width e) (e_height e) (e_acq e) (e_mode e) (e_format e) (e_exposure e) (e_gain e) (e_compiled e) (e_locked e) (e_tick e).
#[export] Instance set_e_width : Setter e_width := ltac:(derive_setter Emu_eta e_width).
#[export] Instance set_e_height : Setter e_height := ltac:(derive_setter Emu_eta e_height).
#[export] Instance set_e_acq : Setter e_acq := ltac:(derive_setter Emu_eta e_acq).
#[export] Instance set_e_mode : Setter e_mode := ltac:(derive_setter Emu_eta e_mode).
#[export] Instance set_e_format : Setter e_format := ltac:(derive_setter Emu_eta e_format).
#[export] Instance set_e_exposure : Setter e_exposure := ltac:(derive_setter Emu_eta e_exposure).
#[export] Instance set_e_gain : Setter e_gain := ltac:(derive_setter Emu_eta e_gain).
#[export] Instance set_e_compiled : Setter e_compiled := ltac:(derive_setter Emu_eta e_compiled).
#[export] Instance set_e_locked : Setter e_locked := ltac:(derive_setter Emu_eta e_locked).
#[export] Instance set_e_tick : Setter e_tick := ltac:(derive_setter Emu_eta e_tick).

Definition Emu_new : Emu := mkEmu None None None None None None None None 0 None.

Definition word_register (a : Z) (c : option bytes) (kind : RegKind) : Node :=
  NRegister (mkRegisterCommon [LitInt a] (LitInt 4) RW WriteAround c) kind.
Definition int_kind : RegKind := KInt Unsigned Big None None.
Definition to (id : nat) : ValueRef := VLink (LId id).

Definition mode_entries : list (text * Z) := [(str "Continuous", 0); (str "SingleFrame", 1)].
Definition format_entries : list (text * Z) := [(str "Mono8", 17301505)].

Definition emu_nodes (e : Emu) : list NodeData :=
  [named "Width" (NInteger (to 1) (LitInt 8) (LitInt 8192) VNone);
   named "WidthReg" (word_register WIDTH_REG (e_width e) int_kind);
   named "Height" (NInteger (to 3) (LitInt 8) (LitInt 8192) VNone);
   named "HeightReg" (word_register HEIGHT_REG (e_height e) int_kind);
   named "PayloadSize" (NSwissKnife (mkFormulaSlot (str "W * H") (e_compiled e)) [(str "W", LId 0); (str "H", LId 2)]);
   named "AcquisitionStart" (NCommand (to 7) (LitInt 1));
   named "AcquisitionStop" (NCommand (to 7) (LitInt 0));
   named "AcqReg" (word_register ACQ_REG (e_acq e) int_kind);
   named "AcquisitionMode" (NEnumeration (to 9) mode_entries);
   named "AcqModeReg" (word_register ACQ_MODE_REG (e_mode e) int_kind);
   named "PixelFormat" (NEnumeration (to 11) format_entries);
   named "PixelFormatReg" (word_register PIXEL_FORMAT_REG (e_format e) int_kind);
   named "ExposureTime" (NFloat (to 13) VNone VNone);
   named "ExposureReg" (word_register EXPOSURE_REG (e_exposure e) (KFloatReg Big));
   named "Gain" (NFloat (to 15) VNone VNone);
   named "GainReg" (word_register GAIN_REG (e_gain e) (KFloatReg Big));
   named "Device" NPort;
   named "TLParamsLocked" (NInteger (LitInt (e_locked e)) (LitInt 0) (LitInt 1) VNone);
   named "GevSCPSPacketSize"
     (NRegister (mkRegisterCommon [LitInt 0xd04] (LitInt 4) RW NoCache None) (KInt Unsigned Big (Some 31) (Some 16)));
   named "GevTimestampTickFrequency"
     (NRegister (mkRegisterCommon [LitInt 0x93c] (LitInt 8) RO WriteAround (e_tick e)) int_kind)].

Definition emu_names : gmap text nat := list_to_map (zip (nd_name <$> emu_nodes Emu_new) (seq 0 20)).
Definition emu_graph (e : Emu) (visiting : list nat) : Genicam := mkGenicam (emu_nodes e) emu_names ∅ visiting.

(** The parser is asked for the description and the fallback definitions only. *)
Lemma add_defaults_ext (XL XL' : XmlLib) defaults : forall b,
  Forall (fun t => xml_document (XmlLib := XL) t = xml_document (XmlLib := XL') t) defaults.*2 ->
  add_defaults (XL := XL) defaults b = add_defaults (XL := XL') defaults b.
Proof.
  induction defaults as [|[name snippet] defaults IH]; intros b H; [done|]. cbn in H. apply Forall_cons in H as [H1 H2].
  cbn. case_bool_decide; [by apply IH|]. rewrite H1. destruct (xml_document (XmlLib := XL') snippet); cbn; [by apply IH|reflexivity].
Qed.

Lemma parse_xml_ext (XL XL' : XmlLib) xml :
  Forall (fun t => xml_document (XmlLib := XL) t = xml_document (XmlLib := XL') t) (xml :: DEFAULT_NODES.*2) ->
  parse_xml (XL := XL) xml = parse_xml (XL := XL') xml.
Proof.
  intros [H1 H2]%Forall_cons. unfold parse_xml. rewrite H1.
  destruct (xml_document (XmlLib := XL') xml); cbn [ok_or mbind result_bind]; [|reflexivity].
  by rewrite (add_defaults_ext XL XL' _ _ H2).
Qed.

Lemma agree_on (XL XL' : XmlLib) l l' : xml_document (XmlLib := XL) <$> l = Some <$> l' ->
  xml_document (XmlLib := XL') <$> l = Some <$> l' ->
  Forall (fun t => xml_document (XmlLib := XL) t = xml_document (XmlLib := XL') t) l.
Proof.
  revert l'. induction l as [|t l IH]; intros [|x l'] H H'; try discriminate; constructor.
  - injection H as E _. injection H' as E' _. congruence.
  - injection H as _ E. injection H' as _ E'. by apply (IH l').
Qed.

Lemma tiny_parses : parse_xml (XL := tiny_xml) GENICAM_XML = Ok (emu_graph Emu_new []).
Proof. vm_compute. reflexivity. Qed.

Lemma emulated_parses {XL : XmlLib} : reads_description -> parse_xml GENICAM_XML = Ok (emu_graph Emu_new []).
Proof.
  intros [H1 H2]. destruct tiny_reads as [T1 T2]. rewrite <- tiny_parses. apply parse_xml_ext.
  constructor; [by rewrite H1, T1|]. by apply (agree_on _ _ _ default_trees).
Qed.
