(* ===== verification/EmulatedCamera.v ===== *)
(** The camera the emulator is: the features of its description, run by the
    node engine over the control port, are its registers
    ([src/src/emulator/mod.rs], [src/src/genicam/node.rs],
    [src/src/genicam/mod.rs]). *)

From stdpp Require Import gmap.
From S2P Require Import Prelude Float64 Text Url Bootstrap Register Evaluator Errors NodeGraph Camera NodeAccess.
From S2P Require Import XmlGraph Emulator DeviceControl DeviceSpec Gvcp ControlLink ControlPort EmulatedXml.

(** * Words and their codecs *)

Definition store (m : bytes) (a v : Z) : bytes := splice m a (be_encode 4 v).

Lemma store_word v : store_u64 v 4 Big = be_encode 4 v.
Proof. unfold store_u64. change (Z.to_nat 4) with 4%nat. by rewrite take_le_encode by lia. Qed.

Lemma wrap_u32 v : u32_ok (wrap 32 v).
Proof. pose proof (wrap_range 32 v ltac:(lia)). width_lia. Qed.

Lemma be_encode_wrap v : be_encode 4 (wrap 32 v) = be_encode 4 v.
Proof.
  pose proof (le_encode_decode (le_encode 4 v) (le_encode_ok 4 v)) as E. rewrite length_le_encode, le_decode_encode_mod in E.
  change (reverse (le_encode 4 (wrap 32 v)) = reverse (le_encode 4 v)). by rewrite <- E.
Qed.

Lemma encode_word v : encode_int v 4 Big = Ok (be_encode 4 (wrap 32 v)).
Proof.
  unfold encode_int. change (bad_length 4) with false. cbv iota. rewrite store_word, <- be_encode_wrap. do 2 f_equal.
  unfold wrap. change (2 ^ 64) with (2 ^ 32 * 2 ^ 32). by rewrite Z.rem_mul_r, Z.mul_comm, Z.mod_add, Z.mod_mod by lia.
Qed.

Lemma extract_word v : u32_ok v -> extract_int (be_encode 4 v) Unsigned Big None None = Ok v.
Proof.
  intros Hv. destruct (encode_then_extract v 4 Unsigned Big) as (data & E & _ & _ & Hx); [lia|width_lia| |].
  - unfold in_field. cbn. width_lia.
  - rewrite encode_word, wrap_small in E by width_lia. by injection E as <-.
Qed.

Lemma encode_single v : encode_float v 4 Big = Ok (be_encode 4 (wrap 32 (f32_to_bits (f32_of_f64 v)))).
Proof. unfold encode_float. cbn -[store_u64]. by rewrite store_word, be_encode_wrap. Qed.

Lemma extract_single v : u32_ok v -> extract_float (be_encode 4 v) Big = Ok (f64_of_f32 (f32_from_bits v)).
Proof.
  intros Hv. unfold extract_float. rewrite zlen_be_encode. cbn -[load_u64]. rewrite <- store_word, load_store by (width_lia || lia).
  rewrite wrap_small by width_lia. done.
Qed.

(** * The device as a port *)

Definition mem_ok (m : bytes) : Prop := bytes_ok m /\ zlen m = MEM_SIZE.

(** A register word of the device, not the packet size. *)
Definition plain_word (a : Z) : Prop := 0 <= a /\ a + 4 <= MEM_SIZE /\ a mod 4 = 0 /\ a <> STREAM_CHANNEL_PACKET_SIZE.

Lemma word_u32 m a : mem_ok m -> plain_word a -> u32_ok (word m a).
Proof. intros [H1 H2] (A1 & A2 & _). apply word_range; [done|done|lia]. Qed.

Lemma store_ok m a v : mem_ok m -> plain_word a -> mem_ok (store m a v).
Proof.
  intros [H1 H2] (A1 & A2 & _). split; [apply splice_bytes_ok; [done|apply be_encode_ok]|].
  rewrite <- H2. apply zlen_splice; [lia|]. rewrite zlen_be_encode. lia.
Qed.

Lemma word_store m a v : mem_ok m -> plain_word a -> u32_ok v -> word (store m a v) a = v.
Proof.
  intros [H1 H2] (A1 & A2 & _) Hv. unfold word, store. replace 4 with (zlen (be_encode 4 v)) by by rewrite zlen_be_encode.
  rewrite block_splice_same by (rewrite ?zlen_be_encode; lia). by apply be_decode_encode4.
Qed.

Lemma word_store_other m a b v : mem_ok m -> plain_word a -> plain_word b -> a <> b -> word (store m a v) b = word m b.
Proof.
  intros [H1 H2] (A1 & A2 & A3 & _) (B1 & B2 & B3 & _) Hne. apply word_splice_other; rewrite ?zlen_be_encode; try lia.
  pose proof (Z.div_mod a 4). pose proof (Z.div_mod b 4). lia.
Qed.

Lemma port_reads m mx a : mem_ok m -> plain_word a ->
  port_read (mkDevPort m mx) a 4 = (mkDevPort m mx, Ok (be_encode 4 (word m a))).
Proof.
  intros [H1 H2] (A1 & A2 & A3 & _). cbn. unfold control_read, port_address. unfold MEM_SIZE in *.
  replace (_ && _) with true by width_lia. cbn. rewrite A3. cbn. unfold read_register. cbn. unfold dev_read_reg, in_mem. cbn.
  rewrite H2. replace (_ <=? _) with true by lia. done.
Qed.

Lemma port_writes m mx a v : mem_ok m -> plain_word a -> u32_ok v ->
  port_write (mkDevPort m mx) a (be_encode 4 v) = (mkDevPort (store m a v) mx, Ok tt).
Proof.
  intros [H1 H2] (A1 & A2 & A3 & A4) Hv. cbn. unfold control_write, port_address. unfold MEM_SIZE in *.
  replace (_ && _) with true by width_lia. cbn. rewrite length_be_encode, A3. cbn. unfold write_register. cbn. unfold dev_write_regs.
  cbn. unfold in_mem. rewrite H2. replace (_ <=? _) with true by lia. rewrite be_decode_encode4 by done.
  unfold clamp. replace (a =? STREAM_CHANNEL_PACKET_SIZE) with false by lia. by destruct mx.
Qed.

(** * Registers of the graph *)

Section registers.
Context {FL : FloatLib} {P : Type} {PIO : PortIo P}.
Implicit Types (w : World P).

Definition set_cache (id : nat) (b : option bytes) w : World P := map_graph (alter_node id (with_cache b)) w.

(** A cached register whose cache is the port's bytes or empty. *)
Lemma read_coherent rec id w name c kind a len b :
  reg_at w id name c kind -> layout c = Some (a, len) -> access c <> WO -> cachable c = WriteAround ->
  cache c = None \/ cache c = Some b -> port_read (w_port w) a len = (w_port w, Ok b) ->
  register_read rec id w = Some (set_cache id (Some b) w, Ok b).
Proof.
  intros Hr Hl Ha Hw Hc Hp. unfold register_read. rewrite (bind_ok _ _ _ _ _ (node_of_lookup _ _ _ Hr)). cbn [nd_node].
  rewrite bool_decide_false by done. rewrite bool_decide_false by (rewrite Hw; discriminate).
  destruct Hc as [Hc|Hc]; rewrite Hc.
  - rewrite (bind_ok _ _ _ _ _ (register_address_literal rec id w name c kind a len Hr Hl)).
    assert (do_read a len w = Some (w, Ok b)) as E1 by (unfold do_read; rewrite Hp; by destruct w).
    rewrite (bind_ok _ _ _ _ _ E1), (bind_ok _ _ _ _ _ (modify_node_at id (cache_after_read b) w _ Hr)).
    cbn. do 2 f_equal. unfold set_cache, map_graph, alter_node. f_equal.
    assert (alter (update_node (cache_after_read b)) id (nodes (w_graph w)) =
            alter (update_node (with_cache (Some b))) id (nodes (w_graph w))) as E2.
    { apply list_alter_ext; [|done]. intros d Hd. unfold reg_at in Hr. rewrite Hr in Hd. injection Hd as <-.
      unfold update_node, cache_after_read. cbn [nd_node nd_name]. by rewrite bool_decide_false by (rewrite Hw; discriminate). }
    unfold set, set_nodes. cbn. by rewrite E2.
  - cbn. do 2 f_equal. unfold set_cache, map_graph, alter_node. destruct w as [[ns bn inv vis] p]. cbn in *. unfold reg_at in Hr. cbn in Hr.
    unfold set, set_nodes. cbn. unfold mret, M_ret. do 4 f_equal. rewrite <- (list_alter_id Datatypes.id ns id) at 1 by done.
    apply list_alter_ext; [|done]. intros d Hd. rewrite Hr in Hd. injection Hd as <-.
    unfold update_node. cbn. do 2 f_equal. destruct c; cbn in *. by subst.
Qed.

Lemma write_coherent rec id w name c kind a len data p :
  reg_at w id name c kind -> layout c = Some (a, len) -> access c = RW -> cachable c = WriteAround ->
  invalidates (w_graph w) !! id = None -> port_write (w_port w) a data = (p, Ok tt) ->
  register_write rec id data w = Some (set_cache id None (mkWorld (w_graph w) p), Ok tt).
Proof.
  intros Hr Hl Ha Hw Hi Hp. unfold register_write. rewrite (bind_ok _ _ _ _ _ (node_of_lookup _ _ _ Hr)). cbn [nd_node].
  rewrite bool_decide_false by (rewrite Ha; discriminate).
  rewrite (bind_ok _ _ _ _ _ (register_address_literal rec id w name c kind a len Hr Hl)).
  assert (do_write a data w = Some (mkWorld (w_graph w) p, Ok tt)) as E1 by (unfold do_write; by rewrite Hp).
  rewrite (bind_ok _ _ _ _ _ E1). set (w0 := mkWorld (w_graph w) p).
  rewrite (bind_ok _ _ w0 _ _ (modify_node_at id (cache_after_write data) w0 _ Hr)).
  set (w1 := map_graph (alter_node id (cache_after_write data)) w0).
  rewrite (bind_ok _ _ w1 w1 (default [] (invalidates (w_graph w) !! id))) by done. rewrite Hi. unfold w1, w0.
  cbn [default invalidate_all]. unfold mret, M_ret. do 2 f_equal. unfold set_cache, map_graph, alter_node. f_equal. unfold set, set_nodes. cbn. f_equal.
  apply list_alter_ext; [|done]. intros d Hd. unfold reg_at in Hr. rewrite Hr in Hd. injection Hd as <-.
  unfold update_node, cache_after_write. cbn [nd_node nd_name]. by rewrite Hw.
Qed.
End registers.

(** * The registers of the emulator's graph *)

Definition payload_expr : Expr :=
  Eval vm_compute in match Expr_parse (str "W * H") with Ok e => e | Err _ => mkExpr [] [] end.

Definition int_regs : list (nat * Z) :=
  [(1%nat, WIDTH_REG); (3%nat, HEIGHT_REG); (7%nat, ACQ_REG); (9%nat, ACQ_MODE_REG); (11%nat, PIXEL_FORMAT_REG)].
Definition float_regs : list (nat * Z) := [(13%nat, EXPOSURE_REG); (15%nat, GAIN_REG)].
Definition regs : list (nat * Z) := int_regs ++ float_regs.

Definition cache_at (id : nat) (e : Emu) : option bytes :=
  match id with
  | 1%nat => e_width e | 3%nat => e_height e | 7%nat => e_acq e | 9%nat => e_mode e
  | 11%nat => e_format e | 13%nat => e_exposure e | 15%nat => e_gain e | _ => None
  end.
Definition put (id : nat) (b : option bytes) (e : Emu) : Emu :=
  match id with
  | 1%nat => e <| e_width := b |> | 3%nat => e <| e_height := b |> | 7%nat => e <| e_acq := b |>
  | 9%nat => e <| e_mode := b |> | 11%nat => e <| e_format := b |> | 13%nat => e <| e_exposure := b |>
  | 15%nat => e <| e_gain := b |> | _ => e
  end.

(** Every cache is empty or what the device has, that of the tick frequency
    too; the formula is compiled as it is written. *)
Record coherent (e : Emu) (m : bytes) : Prop := {
  co_caches : forall id a, (id, a) ∈ regs -> cache_at id e = None \/ cache_at id e = Some (be_encode 4 (word m a));
  co_formula : e_compiled e = None \/ e_compiled e = Some payload_expr;
  co_tick : e_tick e = None \/ e_tick e = Some (block m TIMESTAMP_TICK_FREQUENCY_HIGH 8) }.

Lemma coherent_new m : coherent Emu_new m.
Proof. split; [|by left..]. intros id a H. left. by do 16 (destruct id as [|id]; [done|]). Qed.

Lemma regs_plain id a : (id, a) ∈ regs -> plain_word a.
Proof. intros H. unfold regs, int_regs, float_regs in H. cbn in H. rows H; by vm_compute. Qed.

Lemma regs_apart id a id' a' : (id, a) ∈ regs -> (id', a') ∈ regs -> id <> id' -> a <> a'.
Proof. intros H H'. unfold regs, int_regs, float_regs in *. cbn in H, H'. rows H; rows H'; by vm_compute. Qed.

Lemma cache_put id b e id' a : (id', a) ∈ regs -> cache_at id' (put id b e) = if decide (id = id') then b else cache_at id' e.
Proof.
  intros H. unfold regs, int_regs, float_regs in H. cbn in H. rows H; do 16 (destruct id as [|id]; [done|]); done.
Qed.

Lemma put_rest id b e : e_compiled (put id b e) = e_compiled e /\ e_locked (put id b e) = e_locked e /\ e_tick (put id b e) = e_tick e.
Proof. by do 16 (destruct id as [|id]; [done|]). Qed.

Lemma coherent_read e m id a : coherent e m -> (id, a) ∈ regs -> coherent (put id (Some (be_encode 4 (word m a))) e) m.
Proof.
  intros [H1 H2 H3] Hr. destruct (put_rest id (Some (be_encode 4 (word m a))) e) as (E1 & _ & E3).
  split; [|by rewrite E1|by rewrite E3]. intros id' a' Hr'. rewrite (cache_put _ _ _ _ a') by done.
  case_decide as D; [|by apply H1]. subst. right. do 3 f_equal.
  unfold regs, int_regs, float_regs in Hr, Hr'. cbn in Hr, Hr'. rows Hr; rows Hr'; done.
Qed.

(** The tick frequency is apart from what is written. *)
Lemma tick_store m a v : mem_ok m -> 0 <= a -> a + 4 <= MEM_SIZE -> TIMESTAMP_TICK_FREQUENCY_HIGH + 8 <= a ->
  block (store m a v) TIMESTAMP_TICK_FREQUENCY_HIGH 8 = block m TIMESTAMP_TICK_FREQUENCY_HIGH 8.
Proof.
  intros [_ Hm] Ha Hl Hd. unfold store, block. rewrite get_range_splice_other; rewrite ?zlen_be_encode; [done|lia|lia|].
  unfold TIMESTAMP_TICK_FREQUENCY_HIGH in *. lia.
Qed.

Lemma regs_above id a : (id, a) ∈ regs -> TIMESTAMP_TICK_FREQUENCY_HIGH + 8 <= a.
Proof. intros H. unfold regs, int_regs, float_regs in H. cbn in H. rows H; by vm_compute. Qed.

Lemma coherent_write e m id a v : coherent e m -> mem_ok m -> (id, a) ∈ regs -> coherent (put id None e) (store m a v).
Proof.
  intros [H1 H2 H3] Hm Hr. destruct (put_rest id None e) as (E1 & _ & E3). pose proof (regs_plain id a Hr) as (A1 & A2 & _).
  split; [|by rewrite E1|rewrite E3, tick_store; [done|done|done|done|by eapply regs_above]]. intros id' a' Hr'. rewrite (cache_put _ _ _ _ a') by done.
  case_decide as D; [by left|]. rewrite word_store_other; [by apply H1|done|by eapply regs_plain..|]. by eapply regs_apart.
Qed.

Definition world (e : Emu) (vis : list nat) (m : bytes) (mx : option Z) : World DevPort := mkWorld (emu_graph e vis) (mkDevPort m mx).

Lemma put_world id a b e vis m mx : (id, a) ∈ regs -> set_cache id b (world e vis m mx) = world (put id b e) vis m mx.
Proof. intros H. unfold regs, int_regs, float_regs in H. cbn in H. rows H; reflexivity. Qed.

Definition common_of (a : Z) (c : option bytes) : RegisterCommon := mkRegisterCommon [LitInt a] (LitInt 4) RW WriteAround c.

Lemma emu_register id a e vis m mx : (id, a) ∈ regs ->
  exists name, reg_at (world e vis m mx) id name (common_of a (cache_at id e)) (if decide (id < 12)%nat then int_kind else KFloatReg Big) /\
    layout (common_of a (cache_at id e)) = Some (a, 4%nat).
Proof.
  intros H. unfold regs, int_regs, float_regs in H. cbn in H. rows H; eexists; (split; [reflexivity|]); vm_compute; reflexivity.
Qed.

(** * The engine on this graph *)

Section engine.
Context {FL : FloatLib}.
Implicit Types (rec : Ops DevPort) (e : Emu) (vis : list nat) (m : bytes) (mx : option Z).

(** Reading fills a cache, writing empties it. *)
Definition seen (id : nat) (a : Z) m e : Emu := put id (Some (be_encode 4 (word m a))) e.
Definition unseen (id : nat) e : Emu := put id None e.

Lemma reg_read rec e vis m mx id a : coherent e m -> mem_ok m -> (id, a) ∈ regs ->
  register_read rec id (world e vis m mx) = Some (world (seen id a m e) vis m mx, Ok (be_encode 4 (word m a))).
Proof.
  intros Hc Hm Hr. destruct (emu_register id a e vis m mx Hr) as (name & Hat & Hl).
  rewrite (read_coherent rec id _ _ _ _ a 4 _ Hat Hl ltac:(discriminate) eq_refl (co_caches _ _ Hc id a Hr)).
  - by rewrite (put_world id a) by done.
  - apply port_reads; [done|by eapply regs_plain].
Qed.

Lemma reg_write rec e vis m mx id a v : mem_ok m -> (id, a) ∈ regs -> u32_ok v ->
  register_write rec id (be_encode 4 v) (world e vis m mx) = Some (world (unseen id e) vis (store m a v) mx, Ok tt).
Proof.
  intros Hm Hr Hv. destruct (emu_register id a e vis m mx Hr) as (name & Hat & Hl).
  rewrite (write_coherent rec id _ _ _ _ a 4 _ (mkDevPort (store m a v) mx) Hat Hl eq_refl eq_refl); [|done|].
  - change (mkWorld (w_graph (world e vis m mx)) (mkDevPort (store m a v) mx)) with (world e vis (store m a v) mx).
    by rewrite (put_world id a) by done.
  - apply port_writes; [done|by eapply regs_plain|done].
Qed.

(** An operation on a node not on the visit stack. *)
Lemma entered_world {A} id (body : M DevPort A) e vis m mx e' m' r : id ∉ vis ->
  body (world e (id :: vis) m mx) = Some (world e' (id :: vis) m' mx, r) ->
  entered id body (world e vis m mx) = Some (world e' vis m' mx, r).
Proof.
  intros Hv E. rewrite entered_fresh by done. change (entering [id] (world e vis m mx)) with (world e (id :: vis) m mx).
  by rewrite (leaving_some _ _ _ _ E).
Qed.

Lemma int_regs_regs id a : (id, a) ∈ int_regs -> (id, a) ∈ regs /\ (id < 12)%nat.
Proof. intros H. split; [by apply elem_of_app; left|]. unfold int_regs in H. rows H; lia. Qed.
Lemma float_regs_regs id a : (id, a) ∈ float_regs -> (id, a) ∈ regs /\ ~ (id < 12)%nat.
Proof. intros H. split; [by apply elem_of_app; right|]. unfold float_regs in H. rows H; lia. Qed.

Lemma int_reg_of n e vis m mx id a : coherent e m -> mem_ok m -> (id, a) ∈ int_regs -> id ∉ vis ->
  int_of (engine (S n)) id (world e vis m mx) = Some (world (seen id a m e) vis m mx, Ok (word m a)).
Proof.
  intros Hc Hm [Hr Hlt]%int_regs_regs Hv. cbn [engine ops_step int_of]. apply entered_world; [done|]. unfold int_value_inner.
  destruct (emu_register id a e (id :: vis) m mx Hr) as (name & Hat & _). rewrite decide_True in Hat by done.
  rewrite (bind_ok _ _ _ _ _ (node_of_lookup _ _ _ Hat)). cbn [nd_node]. unfold int_kind.
  rewrite (bind_ok _ _ _ _ _ (reg_read (engine n) e (id :: vis) m mx id a Hc Hm Hr)), extract_word; [done|].
  apply word_u32; [done|by eapply regs_plain].
Qed.

Lemma set_int_reg_of n e vis m mx id a v : mem_ok m -> (id, a) ∈ int_regs -> id ∉ vis ->
  set_int_of (engine (S n)) id v (world e vis m mx) = Some (world (unseen id e) vis (store m a (wrap 32 v)) mx, Ok tt).
Proof.
  intros Hm [Hr Hlt]%int_regs_regs Hv. cbn [engine ops_step set_int_of]. apply entered_world; [done|]. unfold set_int_value_inner.
  destruct (emu_register id a e (id :: vis) m mx Hr) as (name & Hat & _). rewrite decide_True in Hat by done.
  rewrite (bind_ok _ _ _ _ _ (node_of_lookup _ _ _ Hat)). cbn [nd_node]. unfold int_kind.
  rewrite (bind_ok _ _ _ (world e (id :: vis) m mx) 4%nat) by reflexivity.
  change (Z.of_nat 4) with 4. rewrite encode_word.
  rewrite (bind_ok _ _ _ (world e (id :: vis) m mx) (be_encode 4 (wrap 32 v))) by reflexivity.
  by apply reg_write, wrap_u32.
Qed.

Lemma float_reg_of n e vis m mx id a : coherent e m -> mem_ok m -> (id, a) ∈ float_regs -> id ∉ vis ->
  float_of (engine (S n)) id (world e vis m mx) =
    Some (world (seen id a m e) vis m mx, Ok (f64_of_f32 (f32_from_bits (word m a)))).
Proof.
  intros Hc Hm [Hr Hlt]%float_regs_regs Hv. cbn [engine ops_step float_of]. apply entered_world; [done|]. unfold float_value_inner.
  destruct (emu_register id a e (id :: vis) m mx Hr) as (name & Hat & _). rewrite decide_False in Hat by done.
  rewrite (bind_ok _ _ _ _ _ (node_of_lookup _ _ _ Hat)). cbn [nd_node].
  rewrite (bind_ok _ _ _ _ _ (reg_read (engine n) e (id :: vis) m mx id a Hc Hm Hr)), extract_single; [done|].
  apply word_u32; [done|by eapply regs_plain].
Qed.

Lemma set_float_reg_of n e vis m mx id a v (x := wrap 32 (f32_to_bits (f32_of_f64 v))) :
  mem_ok m -> (id, a) ∈ float_regs -> id ∉ vis ->
  set_float_of (engine (S n)) id v (world e vis m mx) = Some (world (unseen id e) vis (store m a x) mx, Ok tt).
Proof.
  intros Hm [Hr Hlt]%float_regs_regs Hv. cbn [engine ops_step set_float_of]. apply entered_world; [done|].
  unfold set_float_value_inner.
  destruct (emu_register id a e (id :: vis) m mx Hr) as (name & Hat & _). rewrite decide_False in Hat by done.
  rewrite (bind_ok _ _ _ _ _ (node_of_lookup _ _ _ Hat)). cbn [nd_node].
  rewrite (bind_ok _ _ _ (world e (id :: vis) m mx) 4%nat) by reflexivity.
  change (Z.of_nat 4) with 4. rewrite encode_single.
  rewrite (bind_ok _ _ _ (world e (id :: vis) m mx) (be_encode 4 x)) by reflexivity.
  by apply reg_write, wrap_u32.
Qed.

(** * Features *)

(** A feature, the node it is, and the register behind it. *)
Definition int_features : list (string * nat * nat * Z) :=
  [("Width"%string, 0%nat, 1%nat, WIDTH_REG); ("Height"%string, 2%nat, 3%nat, HEIGHT_REG);
   ("AcquisitionMode"%string, 8%nat, 9%nat, ACQ_MODE_REG); ("PixelFormat"%string, 10%nat, 11%nat, PIXEL_FORMAT_REG)].
Definition float_features : list (string * nat * nat * Z) :=
  [("ExposureTime"%string, 12%nat, 13%nat, EXPOSURE_REG); ("Gain"%string, 14%nat, 15%nat, GAIN_REG)].

Lemma int_feature_row name fid id a e vis m mx : (name, fid, id, a) ∈ int_features ->
  (id, a) ∈ int_regs /\ fid <> id /\ follows (w_graph (world e vis m mx)) fid id /\
  lookup_name (w_graph (world e vis m mx)) (str name) = Ok fid.
Proof.
  intros H. unfold int_features in H. rows H; (split_and!; [by repeat constructor|done|by eexists|vm_compute; reflexivity]).
Qed.

Lemma feature_of n e vis m mx name fid id a : coherent e m -> mem_ok m -> (name, fid, id, a) ∈ int_features ->
  fid ∉ vis -> id ∉ vis ->
  int_of (engine (S (S n))) fid (world e vis m mx) = Some (world (seen id a m e) vis m mx, Ok (word m a)).
Proof.
  intros Hc Hm Hf Hv1 Hv2. destruct (int_feature_row name fid id a e (fid :: vis) m mx Hf) as (Hr & Hne & Hfo & _).
  change (entered fid (int_value_inner (engine (S n)) fid) (world e vis m mx) = Some (world (seen id a m e) vis m mx, Ok (word m a))).
  apply entered_world; [done|]. rewrite (int_value_inner_follows _ _ _ _ Hfo). apply int_reg_of; [done..|].
  apply not_elem_of_cons. by split; [intros ->|].
Qed.

Lemma set_feature_of n e vis m mx name fid id a v : mem_ok m -> (name, fid, id, a) ∈ int_features ->
  fid ∉ vis -> id ∉ vis ->
  set_int_of (engine (S (S n))) fid v (world e vis m mx) = Some (world (unseen id e) vis (store m a (wrap 32 v)) mx, Ok tt).
Proof.
  intros Hm Hf Hv1 Hv2. destruct (int_feature_row name fid id a e (fid :: vis) m mx Hf) as (Hr & Hne & Hfo & _).
  change (entered fid (set_int_value_inner (engine (S n)) fid v) (world e vis m mx) =
    Some (world (unseen id e) vis (store m a (wrap 32 v)) mx, Ok tt)).
  apply entered_world; [done|]. rewrite (set_int_value_inner_follows _ _ _ _ _ Hfo). apply set_int_reg_of; [done..|].
  apply not_elem_of_cons. by split; [intros ->|].
Qed.

Lemma float_feature_row name fid id a e vis m mx : (name, fid, id, a) ∈ float_features ->
  (id, a) ∈ float_regs /\ fid <> id /\ nodes (w_graph (world e vis m mx)) !! fid = Some (named name (NFloat (to id) VNone VNone)) /\
  lookup_name (w_graph (world e vis m mx)) (str name) = Ok fid.
Proof.
  intros H. unfold float_features in H. rows H; (split_and!; [by repeat constructor|done|done|vm_compute; reflexivity]).
Qed.

Lemma float_feature_of n e m mx name fid id a : coherent e m -> mem_ok m -> (name, fid, id, a) ∈ float_features ->
  float_of (engine (S (S n))) fid (world e [] m mx) =
    Some (world (seen id a m e) [] m mx, Ok (f64_of_f32 (f32_from_bits (word m a)))).
Proof.
  intros Hc Hm Hf. destruct (float_feature_row name fid id a e [fid] m mx Hf) as (Hr & Hne & Hn & _).
  change (entered fid (float_value_inner (engine (S n)) fid) (world e [] m mx) =
    Some (world (seen id a m e) [] m mx, Ok (f64_of_f32 (f32_from_bits (word m a))))).
  apply entered_world; [by intros H%elem_of_nil|]. unfold float_value_inner. rewrite (bind_ok _ _ _ _ _ (node_of_lookup _ _ _ Hn)).
  apply float_reg_of; [done..|]. by intros ->%list_elem_of_singleton.
Qed.

Lemma set_float_feature_of n e m mx name fid id a v : mem_ok m -> (name, fid, id, a) ∈ float_features ->
  set_float_of (engine (S (S n))) fid v (world e [] m mx) =
    Some (world (unseen id e) [] (store m a (wrap 32 (f32_to_bits (f32_of_f64 v)))) mx, Ok tt).
Proof.
  intros Hm Hf. destruct (float_feature_row name fid id a e [fid] m mx Hf) as (Hr & Hne & Hn & _).
  change (entered fid (set_float_value_inner (engine (S n)) fid v) (world e [] m mx) =
    Some (world (unseen id e) [] (store m a (wrap 32 (f32_to_bits (f32_of_f64 v)))) mx, Ok tt)).
  apply entered_world; [by intros H%elem_of_nil|]. unfold set_float_value_inner. rewrite (bind_ok _ _ _ _ _ (node_of_lookup _ _ _ Hn)).
  apply set_float_reg_of; [done..|]. by intros ->%list_elem_of_singleton.
Qed.

(** A variable of the formula. *)
Definition payload_vars : list (text * Link) := [(str "W", LId 0); (str "H", LId 2)].

Lemma variable_of_row n e m mx var name fid id a : coherent e m -> mem_ok m ->
  (var, name, fid, id, a) ∈ [("W"%string, "Width"%string, 0%nat, 1%nat, WIDTH_REG); ("H"%string, "Height"%string, 2%nat, 3%nat, HEIGHT_REG)] ->
  variable_value (engine (S (S n))) 4 payload_vars [] (str var) (world e [4%nat] m mx) =
    Some (world (seen id a m e) [4%nat] m mx, Ok (I (word m a))).
Proof.
  intros Hc Hm H.
  assert ((name, fid, id, a) ∈ int_features /\ (fid ∉ [4%nat]) /\ (id ∉ [4%nat]) /\
    variable_value (engine (S (S n))) 4 payload_vars [] (str var) (world e [4%nat] m mx) =
      (v ← int_of (engine (S (S n))) fid; mret (I v)) (world e [4%nat] m mx)) as (Hf & Hv1 & Hv2 & ->).
  { rows H; (split_and!; [by repeat constructor|by apply (bool_decide_eq_true_1 _)|by apply (bool_decide_eq_true_1 _)|reflexivity]). }
  by rewrite (bind_ok _ _ _ _ _ (feature_of n e [4%nat] m mx name fid id a Hc Hm Hf Hv1 Hv2)).
Qed.

(** The frame with the payload formula compiled and both sizes read. *)
Definition sized m e : Emu := (seen 3 HEIGHT_REG m (seen 1 WIDTH_REG m e)) <| e_compiled := Some payload_expr |>.

Lemma coherent_sized e m : coherent e m -> coherent (sized m e) m.
Proof.
  intros Hc. assert (coherent (seen 3 HEIGHT_REG m (seen 1 WIDTH_REG m e)) m) as [H1 _ _].
  { apply coherent_read; [apply coherent_read; [done|]|]; by repeat constructor. }
  split; [|by right|exact (co_tick _ _ Hc)]. intros id a Hr. specialize (H1 id a Hr).
  assert (forall x, cache_at id (x <| e_compiled := Some payload_expr |>) = cache_at id x) as Hx
    by (intros x; by do 16 (destruct id as [|id]; [done|])).
  unfold sized. by rewrite Hx.
Qed.

(** The payload size is the product the formula says. *)
Definition payload_slot e : FormulaSlot := mkFormulaSlot (str "W * H") (e_compiled e).

Lemma payload_formula n e m mx : coherent e m -> mem_ok m ->
  swissknife_value (engine (S (S n))) 4 (payload_slot e) payload_vars (world e [4%nat] m mx) =
    Some (world (sized m e) [4%nat] m mx, Ok (I (swrap 64 (word m WIDTH_REG * word m HEIGHT_REG)))).
Proof.
  intros Hc Hm. set (o := engine (P := DevPort) (S (S n))). set (e1 := seen 1 WIDTH_REG m e). set (e2 := seen 3 HEIGHT_REG m e1).
  assert (coherent e1 m) as Hc1 by (apply coherent_read; [done|by repeat constructor]).
  pose proof (variable_of_row n e m mx "W" "Width" 0 1 WIDTH_REG Hc Hm ltac:(by repeat constructor)) as E1.
  pose proof (variable_of_row n e1 m mx "H" "Height" 2 3 HEIGHT_REG Hc1 Hm ltac:(by repeat constructor)) as E2.
  fold o e1 e2 in E1, E2.
  set (values := [I (word m WIDTH_REG); I (word m HEIGHT_REG)]).
  assert (variable_values o 4 payload_vars [] (variables payload_expr) (world e [4%nat] m mx) = Some (world e2 [4%nat] m mx, Ok values)) as Hvars.
  { change (variables payload_expr) with [str "W"; str "H"]. cbn [variable_values]. rewrite (bind_ok _ _ _ _ _ E1).
    rewrite (bind_ok _ _ _ (world e2 [4%nat] m mx) [I (word m HEIGHT_REG)]); [reflexivity|]. by rewrite (bind_ok _ _ _ _ _ E2). }
  assert (compiled_formula 4 (payload_slot e) (world e [4%nat] m mx) =
          Some (world e [4%nat] m mx, Ok (payload_expr, mkFormulaSlot (str "W * H") (Some payload_expr)))) as Hcomp.
  { unfold compiled_formula, payload_slot. cbn [fs_compiled fs_src]. destruct (co_formula _ _ Hc) as [->| ->]; [|done].
    change (Expr_parse (str "W * H")) with (Ok payload_expr : result EvalError Expr). done. }
  unfold swissknife_value.
  rewrite (bind_ok _ _ _ (world e2 [4%nat] m mx)
    (I (swrap 64 (word m WIDTH_REG * word m HEIGHT_REG)), mkFormulaSlot (str "W * H") (Some payload_expr))); [reflexivity|].
  unfold eval_formula. rewrite (bind_ok _ _ _ _ _ Hcomp). cbn beta iota. by rewrite (bind_ok _ _ _ _ _ Hvars).
Qed.

Lemma payload_of n e m mx (v := swrap 64 (word m WIDTH_REG * word m HEIGHT_REG)) : coherent e m -> mem_ok m ->
  int_of (engine (S (S (S n)))) 4 (world e [] m mx) = Some (world (sized m e) [] m mx, Ok v) /\
  float_of (engine (S (S (S n)))) 4 (world e [] m mx) = Some (world (sized m e) [] m mx, Ok (f64_of_Z v)).
Proof.
  intros Hc Hm. pose proof (payload_formula n e m mx Hc Hm) as E. fold v in E. set (o := engine (P := DevPort) (S (S n))) in *.
  split; [apply (entered_world 4 (int_value_inner o 4))|apply (entered_world 4 (float_value_inner o 4))]; try by intros H%elem_of_nil.
  - change ((v ← swissknife_value o 4 (payload_slot e) payload_vars; mret (as_i64 v)) (world e [4%nat] m mx) =
      Some (world (sized m e) [4%nat] m mx, Ok v)). by rewrite (bind_ok _ _ _ _ _ E).
  - change ((v ← swissknife_value o 4 (payload_slot e) payload_vars; mret (as_f64 v)) (world e [4%nat] m mx) =
      Some (world (sized m e) [4%nat] m mx, Ok (f64_of_Z v))). by rewrite (bind_ok _ _ _ _ _ E).
Qed.

(** * Enumerations, commands and the lock *)

Definition enum_features : list (string * nat * nat * Z * list (text * Z)) :=
  [("AcquisitionMode"%string, 8%nat, 9%nat, ACQ_MODE_REG, mode_entries);
   ("PixelFormat"%string, 10%nat, 11%nat, PIXEL_FORMAT_REG, format_entries)].

Lemma enum_feature_row name fid id a entries e vis m mx : (name, fid, id, a, entries) ∈ enum_features ->
  (name, fid, id, a) ∈ int_features /\ nodes (w_graph (world e vis m mx)) !! fid = Some (named name (NEnumeration (to id) entries)).
Proof. intros H. unfold enum_features in H. rows H; (split; [by repeat constructor|done]). Qed.

Lemma levels_world e vis m mx : levels (world e vis m mx) = 21%nat.
Proof. reflexivity. Qed.

Lemma enum_of name fid id a entries e m mx : coherent e m -> mem_ok m -> (name, fid, id, a, entries) ∈ enum_features ->
  string_value fid (world e [] m mx) = Some (world (seen id a m e) [] m mx, entry_valued (str name) (word m a) entries).
Proof.
  intros Hc Hm Hf. destruct (enum_feature_row _ _ _ _ _ e [] m mx Hf) as [Hi Hn].
  destruct (enum_feature_row _ _ _ _ _ (seen id a m e) [] m mx Hf) as [_ Hn'].
  unfold string_value. rewrite levels_world. cbn [string_value_n]. rewrite (bind_ok _ _ _ _ _ (node_of_lookup _ _ _ Hn)).
  cbn [nd_node named]. assert (int_value fid (world e [] m mx) = Some (world (seen id a m e) [] m mx, Ok (word m a))) as E.
  { unfold int_value, with_engine. rewrite levels_world. apply (feature_of 19 e [] m mx name); try done; by intros ?%elem_of_nil. }
  rewrite (bind_ok _ _ _ _ _ E), (bind_ok _ _ _ _ _ (node_of_lookup _ _ _ Hn')). cbn [nd_node named].
  rewrite (bind_ok _ _ _ (world (seen id a m e) [] m mx) (str name)); [done|].
  unfold name_of, node_data. unfold mbind, M_bind. by rewrite Hn'.
Qed.

Lemma set_enum_of name fid id a entries e m mx entry : mem_ok m -> (name, fid, id, a, entries) ∈ enum_features ->
  set_enum_entry fid entry (world e [] m mx) =
    Some (match entry_named (str name) entry entries with
          | Ok v => (world (unseen id e) [] (store m a (wrap 32 v)) mx, Ok tt)
          | Err err => (world e [] m mx, Err err)
          end).
Proof.
  intros Hm Hf. destruct (enum_feature_row _ _ _ _ _ e [] m mx Hf) as [Hi Hn].
  unfold set_enum_entry. rewrite (bind_ok _ _ _ _ _ (node_of_lookup _ _ _ Hn)). cbn [nd_node named].
  rewrite (bind_ok _ _ _ (world e [] m mx) (str name)) by (unfold name_of, node_data, mbind, M_bind; by rewrite Hn).
  destruct (entry_named (str name) entry entries) as [v|err]; [|by apply bind_err].
  rewrite (bind_ok _ _ _ (world e [] m mx) v) by done. unfold set_int_value, with_engine. rewrite levels_world.
  apply (set_feature_of 19 e [] m mx name); try done; by intros ?%elem_of_nil.
Qed.

(** A command writes its value to the acquisition register. *)
Definition commands : list (string * nat * Z) := [("AcquisitionStart"%string, 5%nat, 1); ("AcquisitionStop"%string, 6%nat, 0)].

Lemma command_of name fid k e m mx : mem_ok m -> (name, fid, k) ∈ commands ->
  NodeGraph.execute fid (world e [] m mx) = Some (world (unseen 7 e) [] (store m ACQ_REG k) mx, Ok tt).
Proof.
  intros Hm Hf.
  assert (nodes (w_graph (world e [] m mx)) !! fid = Some (named name (NCommand (to 7) (LitInt k))) /\ wrap 32 k = k) as [Hn Hk].
  { unfold commands in Hf. rows Hf; (split; [done|by vm_compute]). }
  unfold NodeGraph.execute. rewrite (bind_ok _ _ _ _ _ (node_of_lookup _ _ _ Hn)). cbn [nd_node named is_none].
  rewrite (bind_ok _ _ _ (world e [] m mx) k) by done. unfold with_engine, set_ref_int, to. rewrite levels_world.
  rewrite (bind_ok _ _ _ (world e [] m mx) 7%nat) by done. rewrite <- Hk at 2.
  apply (set_int_reg_of 20 e [] m mx 7 ACQ_REG k Hm); [by repeat constructor|by intros ?%elem_of_nil].
Qed.

(** The lock is a literal of the graph. *)
Lemma locked_of n e m mx : int_of (engine (S n)) 17 (world e [] m mx) = Some (world e [] m mx, Ok (e_locked e)).
Proof. reflexivity. Qed.

Lemma set_locked_of n e m mx v :
  set_int_of (engine (S n)) 17 v (world e [] m mx) = Some (world (e <| e_locked := v |>) [] m mx, Ok tt).
Proof. reflexivity. Qed.

Lemma coherent_locked e m v : coherent e m -> coherent (e <| e_locked := v |>) m.
Proof. intros [H1 H2 H3]. split; [|done..]. intros id a H. specialize (H1 id a H). by do 16 (destruct id as [|id]; [done|]). Qed.

(** Caches dropped, the rest kept. *)
Definition forgotten e : Emu := Emu_new <| e_compiled := e_compiled e |> <| e_locked := e_locked e |>.

Lemma dropped e m mx : modify invalidate_caches (world e [] m mx) = Some (world (forgotten e) [] m mx, Ok tt).
Proof. reflexivity. Qed.

Lemma coherent_forgotten e m : coherent e m -> coherent (forgotten e) m.
Proof. intros [_ H2 _]. split; [|done|by left]. intros id a H. left. by do 16 (destruct id as [|id]; [done|]). Qed.
(** ** The tick frequency: eight bytes that can only be read *)

Lemma port_reads_tick m mx : mem_ok m ->
  port_read (mkDevPort m mx) TIMESTAMP_TICK_FREQUENCY_HIGH 8 = (mkDevPort m mx, Ok (block m TIMESTAMP_TICK_FREQUENCY_HIGH 8)).
Proof.
  intros [H1 H2]. set (t := TIMESTAMP_TICK_FREQUENCY_HIGH).
  assert (zlen (block m t 8) = 8) as Hl by (apply zlen_block; rewrite ?H2; by vm_compute).
  change (port_read (mkDevPort m mx) t 8) with
    (let '(p, r) := (mkDevPort m mx, if in_mem m t 8 then Ok (block m t 8) else ControlLink.refused Gvcp.READ_MEMORY_CMD : result CameraError bytes) in
     (p, data ← r; if negb (length data =? 8)%nat then Err (Protocol ShortMemoryRead) else Ok data)).
  unfold in_mem. rewrite H2. change (t + 8 <=? MEM_SIZE) with true. cbn [mbind result_bind]. unfold zlen in Hl.
  by replace (length (block m t 8) =? 8)%nat with true by lia.
Qed.

Definition ticked m e : Emu := e <| e_tick := Some (block m TIMESTAMP_TICK_FREQUENCY_HIGH 8) |>.

Lemma coherent_ticked e m : coherent e m -> coherent (ticked m e) m.
Proof. intros [H1 H2 H3]. split; [|done|by right]. intros id a H. specialize (H1 id a H). by do 16 (destruct id as [|id]; [done|]). Qed.

Lemma tick_of n e m mx : coherent e m -> mem_ok m ->
  int_of (engine (S n)) 19 (world e [] m mx) =
    Some (world (ticked m e) [] m mx, Ok (swrap 64 (be_decode (block m TIMESTAMP_TICK_FREQUENCY_HIGH 8)))).
Proof.
  intros Hc Hm. apply (entered_world 19 (int_value_inner (engine n) 19)); [by intros H%elem_of_nil|].
  assert (register_read (engine n) 19 (world e [19%nat] m mx) =
    Some (world (ticked m e) [19%nat] m mx, Ok (block m TIMESTAMP_TICK_FREQUENCY_HIGH 8))) as E.
  { rewrite (read_coherent (engine n) 19 _ (str "GevTimestampTickFrequency")
      (mkRegisterCommon [LitInt 0x93c] (LitInt 8) RO WriteAround (e_tick e)) int_kind
      TIMESTAMP_TICK_FREQUENCY_HIGH 8 (block m TIMESTAMP_TICK_FREQUENCY_HIGH 8)); [reflexivity|reflexivity|vm_compute; reflexivity|discriminate|
      reflexivity|exact (co_tick _ _ Hc)|by apply port_reads_tick]. }
  set (bs := block m TIMESTAMP_TICK_FREQUENCY_HIGH 8) in *.
  change ((bs ← register_read (engine n) 19; or_formula 19 (map_err CodecFailed (extract_int bs Unsigned Big None None)))
    (world e [19%nat] m mx) = Some (world (ticked m e) [19%nat] m mx, Ok (swrap 64 (be_decode bs)))).
  rewrite (bind_ok _ _ _ _ _ E). destruct Hm as [H1 H2].
  assert (zlen bs = 8) as Hl by (apply zlen_block; rewrite ?H2; by vm_compute). assert (bytes_ok bs) as Hb by by apply block_ok.
  rewrite (extract_int_field _ _ _ _ _ 0 63); rewrite ?Hl; [|done|lia|reflexivity|lia|lia].
  assert (load_u64 bs Big = be_decode bs) as -> by (apply load_le_order; [done|unfold zlen in Hl; lia]).
  pose proof (be_decode_range bs Hb) as Hr. replace (Z.of_nat (length bs)) with 8 in Hr by (unfold zlen in Hl; lia).
  rewrite Z.shiftr_0_r, Z.mod_small by (change (2 ^ (63 - 0 + 1)) with (256 ^ 8); done). done.
Qed.

(** ** The packet size: half a word, read each time, clamped by the device *)

Definition SCPS : Z := STREAM_CHANNEL_PACKET_SIZE.

(** The word with the low half replaced. *)
Definition low_half (w v : Z) : Z := Z.lor (Z.land w 0xffff0000) (Z.land v 0xffff).

Lemma scps_ok : 0 <= SCPS /\ SCPS + 4 <= MEM_SIZE.
Proof. by vm_compute. Qed.

Lemma word_at m a : mem_ok m -> 0 <= a -> a + 4 <= MEM_SIZE -> u32_ok (word m a).
Proof. intros [H1 H2] Ha Hl. apply word_range; [done|done|lia]. Qed.

Lemma extract_half w : u32_ok w -> extract_int (be_encode 4 w) Unsigned Big (Some 31) (Some 16) = Ok (w mod 2 ^ 16).
Proof.
  intros Hw. rewrite (extract_int_field _ _ _ _ _ 0 15); rewrite ?zlen_be_encode; [|apply be_encode_ok|lia|reflexivity|lia|lia].
  rewrite <- store_word, load_store by (width_lia || lia). rewrite Z.shiftr_0_r. change (2 ^ (15 - 0 + 1)) with (2 ^ 16).
  pose proof (Z.mod_pos_bound w (2 ^ 16)). unfold field_value. by rewrite swrap_small by lia.
Qed.

Lemma insert_half w v : u32_ok w -> insert_int (be_encode 4 w) v Unsigned Big (Some 31) (Some 16) = Ok (be_encode 4 (low_half w v)).
Proof.
  intros Hw. unfold insert_int. rewrite zlen_be_encode. change (Z.of_nat 4) with 4. rewrite <- (store_word w), load_store by (width_lia || lia).
  change (bad_length 4) with false. change (bit_range (8 * 4) (Some 31) (Some 16) Big) with (Some (0, 15)).
  cbn [ok_or mbind result_bind]. rewrite store_word. do 2 f_equal. unfold low_half. f_equal.
  - change (field_mask 0 (15 - 0 + 1)) with 0xffff. assert (w = Z.land w U32_MAX) as ->.
    { change U32_MAX with (Z.ones 32). rewrite Z.land_ones by lia. rewrite Z.mod_small by width_lia. done. }
    rewrite <- !Z.land_assoc. done.
  - change (field_mask 0 (15 - 0 + 1)) with (Z.ones 16). change 0xffff with (Z.ones 16). rewrite Z.shiftl_0_r, !Z.land_ones by lia. unfold wrap.
    rewrite Z.mod_mod by lia. change (2 ^ 64) with (2 ^ 16 * 2 ^ 48). by rewrite Z.rem_mul_r, Z.mul_comm, Z.mod_add, Z.mod_mod by lia.
Qed.

Lemma low_half_u32 w v : u32_ok w -> u32_ok (low_half w v).
Proof.
  intros Hw. unfold low_half. change 0xffff with (Z.ones 16). rewrite Z.land_ones by lia. pose proof (Z.mod_pos_bound v (2 ^ 16)).
  assert (0 <= Z.lor (Z.land w 0xffff0000) (v mod 2 ^ 16) < 2 ^ 32); [|width_lia]. apply lor_range; [lia| |lia].
  assert (0 <= Z.land w 0xffff0000) by (apply Z.land_nonneg; lia). split; [done|]. apply bits_bound; [done|lia|].
  intros i Hi. by rewrite Z.land_spec, (testbit_small w 32 i) by width_lia.
Qed.

Lemma port_reads_size m mx : mem_ok m -> port_read (mkDevPort m mx) SCPS 4 = (mkDevPort m mx, Ok (be_encode 4 (word m SCPS))).
Proof. intros [H1 H2]. cbn. unfold control_read. cbn. unfold read_register. cbn. unfold dev_read_reg, in_mem. cbn. by rewrite H2. Qed.

Lemma port_writes_size m mx v : mem_ok m -> u32_ok v ->
  port_write (mkDevPort m mx) SCPS (be_encode 4 v) = (mkDevPort (store m SCPS (clamp mx SCPS v)) mx, Ok tt).
Proof.
  intros [H1 H2] Hv. cbn. unfold control_write. cbn -[be_encode be_decode]. rewrite length_be_encode. cbn -[be_encode be_decode].
  unfold write_register. cbn -[be_encode be_decode]. unfold dev_write_regs. cbn -[be_encode be_decode clamp].
  unfold in_mem. rewrite H2. cbn -[be_encode be_decode clamp]. by rewrite be_decode_encode4.
Qed.

Lemma coherent_size e m v : coherent e m -> mem_ok m -> coherent e (store m SCPS v) /\ mem_ok (store m SCPS v).
Proof.
  intros [H1 H2 H3] Hm. destruct scps_ok as [S1 S2]. pose proof Hm as [M1 M2]. split; [split|].
  - intros id a Hr. assert (word (store m SCPS v) a = word m a) as ->; [|by apply H1].
    apply word_splice_other; rewrite ?zlen_be_encode; [lia|rewrite M2; lia|].
    unfold regs, int_regs, float_regs in Hr. cbn in Hr. rows Hr; first [left; by vm_compute|right; by vm_compute].
  - done.
  - rewrite tick_store; [done|done|done|done|by vm_compute].
  - split; [apply splice_bytes_ok; [done|apply be_encode_ok]|]. rewrite <- M2. apply zlen_splice; [lia|]. rewrite zlen_be_encode. lia.
Qed.

Lemma size_read rec e vis m mx : mem_ok m ->
  register_read rec 18 (world e vis m mx) = Some (world e vis m mx, Ok (be_encode 4 (word m SCPS))).
Proof.
  intros Hm. assert (do_read SCPS 4 (world e vis m mx) = Some (world e vis m mx, Ok (be_encode 4 (word m SCPS)))) as E.
  { unfold do_read. cbn [w_port world]. by rewrite port_reads_size. }
  change ((buf ← do_read SCPS 4; _ ← modify_node 18 (cache_after_read buf); mret buf) (world e vis m mx) =
    Some (world e vis m mx, Ok (be_encode 4 (word m SCPS)))). by rewrite (bind_ok _ _ _ _ _ E).
Qed.

Lemma size_of n e m mx : mem_ok m -> int_of (engine (S n)) 18 (world e [] m mx) = Some (world e [] m mx, Ok (word m SCPS mod 2 ^ 16)).
Proof.
  intros Hm. apply (entered_world 18 (int_value_inner (engine n) 18)); [by intros H%elem_of_nil|].
  change ((bs ← register_read (engine n) 18; or_formula 18 (map_err CodecFailed (extract_int bs Unsigned Big (Some 31) (Some 16))))
    (world e [18%nat] m mx) = Some (world e [18%nat] m mx, Ok (word m SCPS mod 2 ^ 16))).
  rewrite (bind_ok _ _ _ _ _ (size_read _ e [18%nat] m mx Hm)), extract_half; [done|]. by apply word_at; [|apply scps_ok..].
Qed.

Lemma set_size_of n e m mx v : mem_ok m -> set_int_of (engine (S n)) 18 v (world e [] m mx) =
  Some (world e [] (store m SCPS (clamp mx SCPS (low_half (word m SCPS) v))) mx, Ok tt).
Proof.
  intros Hm. apply (entered_world 18 (set_int_value_inner (engine n) 18 v)); [by intros H%elem_of_nil|].
  assert (u32_ok (word m SCPS)) as Hw by (by apply word_at; [|apply scps_ok..]). set (x := low_half (word m SCPS) v).
  change ((bs ← (current ← register_read (engine n) 18; or_formula 18 (map_err CodecFailed (insert_int current v Unsigned Big (Some 31) (Some 16))));
    register_write (engine n) 18 bs) (world e [18%nat] m mx) = Some (world e [18%nat] (store m SCPS (clamp mx SCPS x)) mx, Ok tt)).
  rewrite (bind_ok _ _ _ (world e [18%nat] m mx) (be_encode 4 x)).
  2: { rewrite (bind_ok _ _ _ _ _ (size_read _ e [18%nat] m mx Hm)), insert_half by done. done. }
  assert (do_write SCPS (be_encode 4 x) (world e [18%nat] m mx) = Some (world e [18%nat] (store m SCPS (clamp mx SCPS x)) mx, Ok tt)) as E.
  { unfold do_write. cbn [w_port world]. rewrite port_writes_size; [done|done|by apply low_half_u32]. }
  change ((_ ← do_write SCPS (be_encode 4 x); _ ← modify_node 18 (cache_after_write (be_encode 4 x));
    deps ← gets (fun g => default [] (invalidates g !! 18%nat)); invalidate_all deps) (world e [18%nat] m mx) =
    Some (world e [18%nat] (store m SCPS (clamp mx SCPS x)) mx, Ok tt)).
  by rewrite (bind_ok _ _ _ _ _ E).
Qed.
End engine.
