(* ===== verification/EmulatedAccount.v ===== *)
(** An account of the emulated camera by its registers alone: what any call of
    the feature interface answers and leaves behind, with no graph, no cache and
    no formula; and that the node engine on the emulator's description gives
    just that ([src/src/emulator/mod.rs], [src/src/genicam/node.rs],
    [src/src/genicam/mod.rs]). *)

From stdpp Require Import gmap.
From S2P Require Import Prelude Float64 Text Url Bootstrap Register Evaluator Errors NodeGraph Camera NodeAccess.
From S2P Require Import XmlGraph Emulator DeviceControl DeviceSpec ControlPort EmulatedXml EmulatedCamera.

(** * The account *)

(** What a name of the description stands for: an integer or an enumeration on
    a register, the register itself, the same with floats, the product of width
    and height, a command, the lock, and the three nodes of their own kind. *)
Inductive What :=
| IntOn (a lo hi : Z) | IntReg (a : Z) | EnumOn (a : Z) (entries : list (text * Z))
| FloatOn (a : Z) | FloatReg (a : Z) | Payload | CommandOf (k : Z) | TheLock | ThePort | PacketSizeWord | TickFrequency.

Definition table : list (text * What) :=
  [(str "Width", IntOn WIDTH_REG 8 8192); (str "WidthReg", IntReg WIDTH_REG);
   (str "Height", IntOn HEIGHT_REG 8 8192); (str "HeightReg", IntReg HEIGHT_REG);
   (str "PayloadSize", Payload);
   (str "AcquisitionStart", CommandOf 1); (str "AcquisitionStop", CommandOf 0); (str "AcqReg", IntReg ACQ_REG);
   (str "AcquisitionMode", EnumOn ACQ_MODE_REG mode_entries); (str "AcqModeReg", IntReg ACQ_MODE_REG);
   (str "PixelFormat", EnumOn PIXEL_FORMAT_REG format_entries); (str "PixelFormatReg", IntReg PIXEL_FORMAT_REG);
   (str "ExposureTime", FloatOn EXPOSURE_REG); (str "ExposureReg", FloatReg EXPOSURE_REG);
   (str "Gain", FloatOn GAIN_REG); (str "GainReg", FloatReg GAIN_REG);
   (str "Device", ThePort); (str "TLParamsLocked", TheLock);
   (str "GevSCPSPacketSize", PacketSizeWord); (str "GevTimestampTickFrequency", TickFrequency)].

Definition feature_at (name : text) : option What := (list_to_map table : gmap text What) !! name.

(** The camera as its user sees it: the registers and the lock. *)
Definition Seen : Type := bytes * Z.

(** The name a call looks up. *)
Definition named_call (c : FeatureCall) : option text :=
  match c with
  | CallNames | CallDropCaches => None
  | CallKind n | CallCategory n | CallGetInteger n | CallSetInteger n _ | CallIntegerBounds n | CallIntegerIncrement n
  | CallGetFloat n | CallSetFloat n _ | CallFloatBounds n | CallGetBoolean n | CallSetBoolean n _ | CallGetString n
  | CallSetString n _ | CallSetEnum n _ | CallEnumEntries n | CallExecute n | CallAccessMode n => Some n
  end.

Section account.
Context (mx : option Z).
Implicit Types (m : bytes) (l : Z) (s : Seen) (name : text).

Abbreviation res := (result GenicamError).
Definition wrong {A} name : res A := Err (WrongType name).

(** A single-precision word. *)
Definition single m (a : Z) : f64 := f64_of_f32 (f32_from_bits (word m a)).

Definition int_at name (w : What) s : res Z :=
  match w with
  | IntOn a _ _ | IntReg a | EnumOn a _ => Ok (word s.1 a)
  | FloatOn a => Ok (f64_to_i64 (f64_round (single s.1 a)))
  | Payload => Ok (swrap 64 (word s.1 WIDTH_REG * word s.1 HEIGHT_REG))
  | TheLock => Ok s.2
  | PacketSizeWord => Ok (word s.1 SCPS mod 2 ^ 16)
  | TickFrequency => Ok (swrap 64 (be_decode (block s.1 TIMESTAMP_TICK_FREQUENCY_HIGH 8)))
  | FloatReg _ | CommandOf _ | ThePort => wrong name
  end.

Definition float_at name (w : What) s : res f64 :=
  match w with
  | FloatOn a | FloatReg a => Ok (single s.1 a)
  | IntOn _ _ _ | Payload | TheLock => f64_of_Z <$> int_at name w s
  | _ => wrong name
  end.

(** A write: what it leaves, and its outcome. *)
Definition set_int_at name (w : What) (v : Z) s : Seen * res unit :=
  match w with
  | IntOn a _ _ | IntReg a | EnumOn a _ => ((store s.1 a (wrap 32 v), s.2), Ok tt)
  | CommandOf _ => ((store s.1 ACQ_REG (wrap 32 v), s.2), Ok tt)
  | TheLock => ((s.1, v), Ok tt)
  | PacketSizeWord => ((store s.1 SCPS (clamp mx SCPS (low_half (word s.1 SCPS) v)), s.2), Ok tt)
  | TickFrequency => (s, Err (Access name))
  | FloatOn _ | FloatReg _ | Payload | ThePort => (s, wrong name)
  end.

Definition set_float_at name (w : What) (v : f64) s : Seen * res unit :=
  match w with
  | FloatOn a | FloatReg a => ((store s.1 a (wrap 32 (f32_to_bits (f32_of_f64 v))), s.2), Ok tt)
  | IntOn _ _ _ | TheLock => set_int_at name w (f64_to_i64 (f64_round v)) s
  | _ => (s, wrong name)
  end.

Definition set_enum_at name (w : What) (entry : text) s : Seen * res unit :=
  match w with
  | EnumOn a entries =>
      match entry_named name entry entries with
      | Ok v => ((store s.1 a (wrap 32 v), s.2), Ok tt)
      | Err e => (s, Err e)
      end
  | _ => (s, wrong name)
  end.

Definition text_at name (w : What) s : res text :=
  match w with EnumOn a entries => entry_valued name (word s.1 a) entries | _ => wrong name end.

Definition kind_at (w : What) : NodeKind :=
  match w with
  | IntOn _ _ _ | TheLock => KInteger
  | EnumOn _ _ => KEnumeration
  | FloatOn _ | Payload => KFloat
  | CommandOf _ => KCommand
  | IntReg _ | FloatReg _ | PacketSizeWord | TickFrequency | ThePort => KOther
  end.

Definition access_at (w : What) : AccessMode :=
  match w with TickFrequency | Payload | ThePort => RO | CommandOf _ => WO | _ => RW end.

Definition reads {A} (f : A -> Answer) (r : res A) s : Seen * res Answer := (s, f <$> r).
Definition writes (x : Seen * res unit) : Seen * res Answer := (x.1, (fun _ => AnsUnit) <$> x.2).

(** What a call on [name], which stands for [w], leaves and answers. *)
Definition account_of (c : FeatureCall) name (w : What) s : Seen * res Answer :=
  match c with
  | CallKind _ => reads AnsKind (Ok (kind_at w)) s
  | CallCategory _ => reads AnsTexts (Ok []) s
  | CallGetInteger _ => reads AnsInt (int_at name w s) s
  | CallSetInteger _ v => writes (set_int_at name w v s)
  | CallIntegerBounds _ =>
      reads (fun '(lo, hi) => AnsInts lo hi)
        (match w with
         | IntOn _ lo hi => Ok (lo, hi)
         | TheLock => Ok (0, 1)
         | IntReg _ | PacketSizeWord | TickFrequency => Ok (I64_MIN, I64_MAX)
         | _ => wrong name
         end) s
  | CallIntegerIncrement _ => reads AnsInt (match w with IntOn _ _ _ | TheLock => Ok 1 | _ => wrong name end) s
  | CallGetFloat _ => reads AnsFloat (float_at name w s) s
  | CallSetFloat _ v => writes (set_float_at name w v s)
  | CallFloatBounds _ =>
      reads (fun '(lo, hi) => AnsFloats lo hi) (match w with FloatOn _ => Ok (F64_MIN, F64_MAX) | _ => wrong name end) s
  | CallGetBoolean _ => reads AnsBool ((fun v => negb (v =? 0)) <$> int_at name w s) s
  | CallSetBoolean _ v => writes (set_int_at name w (i64_from v) s)
  | CallGetString _ => reads AnsText (text_at name w s) s
  | CallSetString _ v => writes (set_enum_at name w v s)
  | CallSetEnum _ entry => writes (set_enum_at name w entry s)
  | CallEnumEntries _ => reads AnsTexts (match w with EnumOn _ entries => Ok entries.*1 | _ => wrong name end) s
  | CallExecute _ =>
      writes (match w with CommandOf k => ((store s.1 ACQ_REG k, s.2), Ok tt) | _ => (s, wrong name) end)
  | CallAccessMode _ => reads AnsMode (Ok (access_at w)) s
  | CallNames | CallDropCaches => (s, Ok AnsUnit)
  end.

(** Any call at all. *)
Definition account (c : FeatureCall) s : Seen * res Answer :=
  match named_call c with
  | None => (s, Ok (match c with CallNames => AnsTexts table.*1 | _ => AnsUnit end))
  | Some name =>
      match feature_at name with
      | Some w => account_of c name w s
      | None => (s, Err (NotFound name))
      end
  end.

Fixpoint accounts (cs : list FeatureCall) s : Seen * list (res Answer) :=
  match cs with
  | [] => (s, [])
  | c :: cs => let '(s, r) := account c s in let '(s, rs) := accounts cs s in (s, r :: rs)
  end.
End account.

(** * The camera keeps the account *)

Section kept.
Context {FL : FloatLib} (mx : option Z).
Implicit Types (m : bytes) (l : Z) (s : Seen) (name : text) (w : What).

Definition camera (e : Emu) m : GigECamera DevPort :=
  Some (mkConnection (mkDevPort m mx) true false (Some (emu_graph e []))).

(** The camera [e] over the memory stands for what the user sees. *)
Definition stands_for (e : Emu) s : Prop := coherent e s.1 /\ mem_ok s.1 /\ e_locked e = s.2.

(** A register read or written keeps the correspondence. *)
Lemma stands_read e m l id a : stands_for e (m, l) -> (id, a) ∈ regs -> stands_for (seen id a m e) (m, l).
Proof. intros (H1 & H2 & H3) Hr. split_and!; [by apply coherent_read|done|]. by rewrite <- H3; apply put_rest. Qed.

Lemma stands_write e m l id a v : stands_for e (m, l) -> (id, a) ∈ regs -> stands_for (unseen id e) (store m a v, l).
Proof.
  intros (H1 & H2 & H3) Hr. split_and!; cbn in *; [by apply coherent_write|by apply store_ok; [|by eapply regs_plain]|].
  rewrite <- H3. apply put_rest.
Qed.

Lemma stands_size e m l v : stands_for e (m, l) -> stands_for e (store m SCPS v, l).
Proof. intros (H1 & H2 & H3). destruct (coherent_size e m v H1 H2). done. Qed.

(** An operation of the graph on node [id] does what the account says. *)
Definition does {A} (f : M DevPort A) e s (s' : Seen) (r : result GenicamError A) : Prop :=
  exists e', f (world e [] s.1 mx) = Some (world e' [] s'.1 mx, r) /\ stands_for e' s'.

Lemma does_still {A} (f : M DevPort A) e s r : f (world e [] s.1 mx) = Some (world e [] s.1 mx, r) -> stands_for e s -> does f e s s r.
Proof. intros E Hs. by exists e. Qed.

(** By cases on the row of the table. *)
Ltac row_from n id H :=
  lazymatch n with
  | O => discriminate H
  | S ?n => let i := fresh "i" in destruct id as [|i]; [first [discriminate H|injection H as <- <-]|row_from n i H]
  end.
Ltac row_cases id H := row_from 20%nat id H.

Ltac unvisited := first [by intros ?%elem_of_nil | by apply (bool_decide_eq_true_1 _); vm_compute].

(** A float register read through a float or as an integer. *)
Lemma int_through_float e m fid id a : (fid, id, a) ∈ [(12%nat, 13%nat, EXPOSURE_REG); (14%nat, 15%nat, GAIN_REG)] -> coherent e m -> mem_ok m ->
  int_value fid (world e [] m mx) = Some (world (seen id a m e) [] m mx, Ok (f64_to_i64 (f64_round (single m a)))).
Proof.
  intros H Hc Hm. unfold int_value, with_engine. rewrite levels_world.
  apply (entered_world fid (int_value_inner (engine 20) fid)); [unvisited|].
  assert (float_of (engine 20) id (world e [fid] m mx) = Some (world (seen id a m e) [fid] m mx, Ok (single m a))) as E.
  { apply (float_reg_of 19); [done|done|rows H; by repeat constructor|rows H; unvisited]. }
  assert (int_value_inner (engine 20) fid (world e [fid] m mx) =
    (v ← float_of (engine 20) id; mret (f64_to_i64 (f64_round v))) (world e [fid] m mx)) as -> by (rows H; reflexivity).
  by rewrite (bind_ok _ _ _ _ _ E).
Qed.

(** An integer on a register read or written as a float. *)
Lemma float_through_int e m fid id a : (fid, id, a) ∈ [(0%nat, 1%nat, WIDTH_REG); (2%nat, 3%nat, HEIGHT_REG)] -> coherent e m -> mem_ok m ->
  float_value fid (world e [] m mx) = Some (world (seen id a m e) [] m mx, Ok (f64_of_Z (word m a))).
Proof.
  intros H Hc Hm. unfold float_value, with_engine. rewrite levels_world.
  apply (entered_world fid (float_value_inner (engine 20) fid)); [unvisited|].
  assert (int_of (engine 20) id (world e [fid] m mx) = Some (world (seen id a m e) [fid] m mx, Ok (word m a))) as E.
  { apply (int_reg_of 19); [done|done|rows H; by repeat constructor|rows H; unvisited]. }
  assert (float_value_inner (engine 20) fid (world e [fid] m mx) = (v ← int_of (engine 20) id; mret (f64_of_Z v)) (world e [fid] m mx)) as ->
    by (rows H; reflexivity).
  by rewrite (bind_ok _ _ _ _ _ E).
Qed.

Lemma set_float_through_int e m fid id a v : (fid, id, a) ∈ [(0%nat, 1%nat, WIDTH_REG); (2%nat, 3%nat, HEIGHT_REG)] -> mem_ok m ->
  set_float_value fid v (world e [] m mx) =
    Some (world (unseen id e) [] (store m a (wrap 32 (f64_to_i64 (f64_round v)))) mx, Ok tt).
Proof.
  intros H Hm. unfold set_float_value, with_engine. rewrite levels_world.
  apply (entered_world fid (set_float_value_inner (engine 20) fid v)); [unvisited|].
  assert (set_float_value_inner (engine 20) fid v (world e [fid] m mx) =
    set_int_of (engine 20) id (f64_to_i64 (f64_round v)) (world e [fid] m mx)) as -> by (rows H; reflexivity).
  apply (set_int_reg_of 19); [done|rows H; by repeat constructor|rows H; unvisited].
Qed.

(** A command set as an integer. *)
Lemma set_command e m fid v : fid ∈ [5%nat; 6%nat] -> mem_ok m ->
  set_int_value fid v (world e [] m mx) = Some (world (unseen 7 e) [] (store m ACQ_REG (wrap 32 v)) mx, Ok tt).
Proof.
  intros H Hm. unfold set_int_value, with_engine. rewrite levels_world.
  apply (entered_world fid (set_int_value_inner (engine 20) fid v)); [unvisited|].
  assert (set_int_value_inner (engine 20) fid v (world e [fid] m mx) = set_int_of (engine 20) 7 v (world e [fid] m mx)) as -> by (rows H; reflexivity).
  apply (set_int_reg_of 19); [done|by repeat constructor|rows H; unvisited].
Qed.

(** The register an integer node is or is on. *)
Definition word_behind (fid : nat) : option (nat * Z) :=
  match fid with
  | 0%nat | 1%nat => Some (1%nat, WIDTH_REG) | 2%nat | 3%nat => Some (3%nat, HEIGHT_REG)
  | 8%nat | 9%nat => Some (9%nat, ACQ_MODE_REG) | 10%nat | 11%nat => Some (11%nat, PIXEL_FORMAT_REG)
  | 7%nat => Some (7%nat, ACQ_REG) | _ => None
  end.
Definition single_behind (fid : nat) : option (nat * Z) :=
  match fid with 12%nat | 13%nat => Some (13%nat, EXPOSURE_REG) | 14%nat | 15%nat => Some (15%nat, GAIN_REG) | _ => None end.

Ltac behind_cases id H := row_from 16%nat id H.

(** [f] reads the register [id] at [a], or writes it. *)
Lemma does_read {A} (f : M DevPort A) e m l id a r : (id, a) ∈ regs -> stands_for e (m, l) ->
  f (world e [] m mx) = Some (world (seen id a m e) [] m mx, r) -> does f e (m, l) (m, l) r.
Proof. intros Hr Hs E. exists (seen id a m e). split; [exact E|]. by apply stands_read. Qed.

Lemma does_write {A} (f : M DevPort A) e m l id a v r : (id, a) ∈ regs -> stands_for e (m, l) ->
  f (world e [] m mx) = Some (world (unseen id e) [] (store m a v) mx, r) -> does f e (m, l) (store m a v, l) r.
Proof. intros Hr Hs E. exists (unseen id e). split; [exact E|]. by apply stands_write. Qed.

Lemma reads_word fid id a e m l : word_behind fid = Some (id, a) -> stands_for e (m, l) ->
  does (int_value fid) e (m, l) (m, l) (Ok (word m a)).
Proof.
  intros H Hs. pose proof Hs as (Hc & Hm & _).
  behind_cases fid H; unfold int_value.
  - apply (does_read _ e m l 1 WIDTH_REG); [by repeat constructor|exact Hs|]. unfold with_engine; rewrite levels_world. 
    apply (feature_of 19 e [] m mx "Width" 0 1 WIDTH_REG Hc Hm); [by repeat constructor|unvisited|unvisited].
  - apply (does_read _ e m l 1 WIDTH_REG); [by repeat constructor|exact Hs|]. unfold with_engine; rewrite levels_world. 
    apply (int_reg_of 20 e [] m mx 1 WIDTH_REG Hc Hm); [by repeat constructor|unvisited].
  - apply (does_read _ e m l 3 HEIGHT_REG); [by repeat constructor|exact Hs|]. unfold with_engine; rewrite levels_world. 
    apply (feature_of 19 e [] m mx "Height" 2 3 HEIGHT_REG Hc Hm); [by repeat constructor|unvisited|unvisited].
  - apply (does_read _ e m l 3 HEIGHT_REG); [by repeat constructor|exact Hs|]. unfold with_engine; rewrite levels_world. 
    apply (int_reg_of 20 e [] m mx 3 HEIGHT_REG Hc Hm); [by repeat constructor|unvisited].
  - apply (does_read _ e m l 7 ACQ_REG); [by repeat constructor|exact Hs|]. unfold with_engine; rewrite levels_world. 
    apply (int_reg_of 20 e [] m mx 7 ACQ_REG Hc Hm); [by repeat constructor|unvisited].
  - apply (does_read _ e m l 9 ACQ_MODE_REG); [by repeat constructor|exact Hs|]. unfold with_engine; rewrite levels_world. 
    apply (feature_of 19 e [] m mx "AcquisitionMode" 8 9 ACQ_MODE_REG Hc Hm); [by repeat constructor|unvisited|unvisited].
  - apply (does_read _ e m l 9 ACQ_MODE_REG); [by repeat constructor|exact Hs|]. unfold with_engine; rewrite levels_world. 
    apply (int_reg_of 20 e [] m mx 9 ACQ_MODE_REG Hc Hm); [by repeat constructor|unvisited].
  - apply (does_read _ e m l 11 PIXEL_FORMAT_REG); [by repeat constructor|exact Hs|]. unfold with_engine; rewrite levels_world. 
    apply (feature_of 19 e [] m mx "PixelFormat" 10 11 PIXEL_FORMAT_REG Hc Hm); [by repeat constructor|unvisited|unvisited].
  - apply (does_read _ e m l 11 PIXEL_FORMAT_REG); [by repeat constructor|exact Hs|]. unfold with_engine; rewrite levels_world. 
    apply (int_reg_of 20 e [] m mx 11 PIXEL_FORMAT_REG Hc Hm); [by repeat constructor|unvisited].
Qed.

Lemma writes_word fid id a v e m l : word_behind fid = Some (id, a) -> stands_for e (m, l) ->
  does (set_int_value fid v) e (m, l) (store m a (wrap 32 v), l) (Ok tt).
Proof.
  intros H Hs. pose proof Hs as (Hc & Hm & _).
  behind_cases fid H; unfold set_int_value.
  - apply (does_write _ e m l 1 WIDTH_REG); [by repeat constructor|exact Hs|]. unfold with_engine; rewrite levels_world. 
    apply (set_feature_of 19 e [] m mx "Width" 0 1 WIDTH_REG v Hm); [by repeat constructor|unvisited|unvisited].
  - apply (does_write _ e m l 1 WIDTH_REG); [by repeat constructor|exact Hs|]. unfold with_engine; rewrite levels_world. 
    apply (set_int_reg_of 20 e [] m mx 1 WIDTH_REG v Hm); [by repeat constructor|unvisited].
  - apply (does_write _ e m l 3 HEIGHT_REG); [by repeat constructor|exact Hs|]. unfold with_engine; rewrite levels_world. 
    apply (set_feature_of 19 e [] m mx "Height" 2 3 HEIGHT_REG v Hm); [by repeat constructor|unvisited|unvisited].
  - apply (does_write _ e m l 3 HEIGHT_REG); [by repeat constructor|exact Hs|]. unfold with_engine; rewrite levels_world. 
    apply (set_int_reg_of 20 e [] m mx 3 HEIGHT_REG v Hm); [by repeat constructor|unvisited].
  - apply (does_write _ e m l 7 ACQ_REG); [by repeat constructor|exact Hs|]. unfold with_engine; rewrite levels_world. 
    apply (set_int_reg_of 20 e [] m mx 7 ACQ_REG v Hm); [by repeat constructor|unvisited].
  - apply (does_write _ e m l 9 ACQ_MODE_REG); [by repeat constructor|exact Hs|]. unfold with_engine; rewrite levels_world. 
    apply (set_feature_of 19 e [] m mx "AcquisitionMode" 8 9 ACQ_MODE_REG v Hm); [by repeat constructor|unvisited|unvisited].
  - apply (does_write _ e m l 9 ACQ_MODE_REG); [by repeat constructor|exact Hs|]. unfold with_engine; rewrite levels_world. 
    apply (set_int_reg_of 20 e [] m mx 9 ACQ_MODE_REG v Hm); [by repeat constructor|unvisited].
  - apply (does_write _ e m l 11 PIXEL_FORMAT_REG); [by repeat constructor|exact Hs|]. unfold with_engine; rewrite levels_world. 
    apply (set_feature_of 19 e [] m mx "PixelFormat" 10 11 PIXEL_FORMAT_REG v Hm); [by repeat constructor|unvisited|unvisited].
  - apply (does_write _ e m l 11 PIXEL_FORMAT_REG); [by repeat constructor|exact Hs|]. unfold with_engine; rewrite levels_world. 
    apply (set_int_reg_of 20 e [] m mx 11 PIXEL_FORMAT_REG v Hm); [by repeat constructor|unvisited].
Qed.

Lemma reads_single fid id a e m l : single_behind fid = Some (id, a) -> stands_for e (m, l) ->
  does (float_value fid) e (m, l) (m, l) (Ok (single m a)).
Proof.
  intros H Hs. pose proof Hs as (Hc & Hm & _).
  behind_cases fid H; unfold float_value.
  - apply (does_read _ e m l 13 EXPOSURE_REG); [by repeat constructor|exact Hs|]. unfold with_engine; rewrite levels_world. 
    apply (float_feature_of 19 e m mx "ExposureTime" 12 13 EXPOSURE_REG Hc Hm); [by repeat constructor].
  - apply (does_read _ e m l 13 EXPOSURE_REG); [by repeat constructor|exact Hs|]. unfold with_engine; rewrite levels_world. 
    apply (float_reg_of 20 e [] m mx 13 EXPOSURE_REG Hc Hm); [by repeat constructor|unvisited].
  - apply (does_read _ e m l 15 GAIN_REG); [by repeat constructor|exact Hs|]. unfold with_engine; rewrite levels_world. 
    apply (float_feature_of 19 e m mx "Gain" 14 15 GAIN_REG Hc Hm); [by repeat constructor].
  - apply (does_read _ e m l 15 GAIN_REG); [by repeat constructor|exact Hs|]. unfold with_engine; rewrite levels_world. 
    apply (float_reg_of 20 e [] m mx 15 GAIN_REG Hc Hm); [by repeat constructor|unvisited].
Qed.

Lemma writes_single fid id a v e m l : single_behind fid = Some (id, a) -> stands_for e (m, l) ->
  does (set_float_value fid v) e (m, l) (store m a (wrap 32 (f32_to_bits (f32_of_f64 v))), l) (Ok tt).
Proof.
  intros H Hs. pose proof Hs as (Hc & Hm & _).
  behind_cases fid H; unfold set_float_value.
  - apply (does_write _ e m l 13 EXPOSURE_REG); [by repeat constructor|exact Hs|]. unfold with_engine; rewrite levels_world. 
    apply (set_float_feature_of 19 e m mx "ExposureTime" 12 13 EXPOSURE_REG v Hm); [by repeat constructor].
  - apply (does_write _ e m l 13 EXPOSURE_REG); [by repeat constructor|exact Hs|]. unfold with_engine; rewrite levels_world. 
    apply (set_float_reg_of 20 e [] m mx 13 EXPOSURE_REG v Hm); [by repeat constructor|unvisited].
  - apply (does_write _ e m l 15 GAIN_REG); [by repeat constructor|exact Hs|]. unfold with_engine; rewrite levels_world. 
    apply (set_float_feature_of 19 e m mx "Gain" 14 15 GAIN_REG v Hm); [by repeat constructor].
  - apply (does_write _ e m l 15 GAIN_REG); [by repeat constructor|exact Hs|]. unfold with_engine; rewrite levels_world. 
    apply (set_float_reg_of 20 e [] m mx 15 GAIN_REG v Hm); [by repeat constructor|unvisited].
Qed.

Lemma does_payload e m l (v := swrap 64 (word m WIDTH_REG * word m HEIGHT_REG)) : stands_for e (m, l) ->
  does (int_value 4) e (m, l) (m, l) (Ok v) /\ does (float_value 4) e (m, l) (m, l) (Ok (f64_of_Z v)).
Proof.
  intros (Hc & Hm & Hl). destruct (payload_of 18 e m mx Hc Hm) as [E1 E2].
  assert (stands_for (sized m e) (m, l)) by (split_and!; [by apply coherent_sized|done|done]).
  split; exists (sized m e); split; [exact E1|done|exact E2|done].
Qed.

Lemma does_tick e m l : stands_for e (m, l) ->
  does (int_value 19) e (m, l) (m, l) (Ok (swrap 64 (be_decode (block m TIMESTAMP_TICK_FREQUENCY_HIGH 8)))).
Proof. intros (Hc & Hm & Hl). exists (ticked m e). split; [by apply (tick_of 20)|]. split_and!; [by apply coherent_ticked|done|done]. Qed.

Lemma does_set_lock {A} (f : M DevPort A) e m l v r : stands_for e (m, l) ->
  f (world e [] m mx) = Some (world (e <| e_locked := v |>) [] m mx, r) -> does f e (m, l) (m, v) r.
Proof. intros (Hc & Hm & Hl) E. eexists. split; [exact E|]. split_and!; [by apply coherent_locked|done|done]. Qed.

Lemma int_kept id name w e m l : table !! id = Some (name, w) -> stands_for e (m, l) ->
  does (int_value id) e (m, l) (m, l) (int_at name w (m, l)).
Proof.
  intros H Hs. pose proof Hs as (Hc & Hm & Hl). cbn [fst snd] in *.
  row_cases id H; cbn [int_at fst snd];
    lazymatch goal with
    | |- does _ _ _ _ (wrong _) => apply does_still; [reflexivity|done]
    | |- does _ _ _ _ (Ok (word _ _)) => eapply reads_word; [reflexivity|done]
    | |- does (int_value 4) _ _ _ _ => by apply does_payload
    | |- does (int_value 19) _ _ _ _ => by apply does_tick
    | |- _ => idtac
    end.
  - apply (does_read _ e m l 13 EXPOSURE_REG); [by repeat constructor|done|apply (int_through_float e m 12); [by repeat constructor|done|done]].
  - apply (does_read _ e m l 15 GAIN_REG); [by repeat constructor|done|apply (int_through_float e m 14); [by repeat constructor|done|done]].
  - apply does_still; [rewrite <- Hl; reflexivity|done].
  - apply does_still; [by apply (size_of 20)|done].
Qed.

Lemma set_int_kept id name w v e m l : table !! id = Some (name, w) -> stands_for e (m, l) ->
  does (set_int_value id v) e (m, l) (set_int_at mx name w v (m, l)).1 (set_int_at mx name w v (m, l)).2.
Proof.
  intros H Hs. pose proof Hs as (Hc & Hm & Hl). cbn [fst snd] in *.
  row_cases id H; cbn [set_int_at fst snd];
    lazymatch goal with
    | |- does _ _ _ _ (wrong _) => apply does_still; [reflexivity|done]
    | |- does _ _ _ _ (Err (Access _)) => apply does_still; [reflexivity|done]
    | |- does _ _ _ (_, v) _ => apply does_set_lock; [done|reflexivity]
    | |- does _ _ _ (store _ ACQ_REG _, _) _ => idtac
    | |- does _ _ _ (store _ SCPS _, _) _ => idtac
    | |- _ => eapply writes_word; [reflexivity|done]
    end.
  - apply (does_write _ e m l 7 ACQ_REG); [by repeat constructor|done|apply set_command; [by repeat constructor|done]].
  - apply (does_write _ e m l 7 ACQ_REG); [by repeat constructor|done|apply set_command; [by repeat constructor|done]].
  - eapply writes_word; [reflexivity|done].
  - exists e. split; [by apply (set_size_of 20)|by apply stands_size].
Qed.

Lemma float_kept id name w e m l : table !! id = Some (name, w) -> stands_for e (m, l) ->
  does (float_value id) e (m, l) (m, l) (float_at name w (m, l)).
Proof.
  intros H Hs. pose proof Hs as (Hc & Hm & Hl). cbn [fst snd] in *.
  row_cases id H; cbn [float_at int_at fst snd];
    lazymatch goal with
    | |- does _ _ _ _ (wrong _) => apply does_still; [reflexivity|done]
    | |- does _ _ _ _ (Ok (single _ _)) => eapply reads_single; [reflexivity|done]
    | |- does (float_value 4) _ _ _ _ => by apply does_payload
    | |- _ => idtac
    end.
  - apply (does_read _ e m l 1 WIDTH_REG); [by repeat constructor|done|apply (float_through_int e m 0); [by repeat constructor|done|done]].
  - apply (does_read _ e m l 3 HEIGHT_REG); [by repeat constructor|done|apply (float_through_int e m 2); [by repeat constructor|done|done]].
  - apply does_still; [rewrite <- Hl; reflexivity|done].
Qed.

Lemma set_float_kept id name w v e m l : table !! id = Some (name, w) -> stands_for e (m, l) ->
  does (set_float_value id v) e (m, l) (set_float_at mx name w v (m, l)).1 (set_float_at mx name w v (m, l)).2.
Proof.
  intros H Hs. pose proof Hs as (Hc & Hm & Hl). cbn [fst snd] in *.
  row_cases id H; cbn [set_float_at set_int_at fst snd];
    lazymatch goal with
    | |- does _ _ _ _ (wrong _) => apply does_still; [reflexivity|done]
    | |- does _ _ _ (store _ WIDTH_REG _, _) _ => idtac
    | |- does _ _ _ (store _ HEIGHT_REG _, _) _ => idtac
    | |- does _ _ _ (store _ _ _, _) _ => eapply writes_single; [reflexivity|done]
    | |- _ => apply does_set_lock; [done|reflexivity]
    end.
  - apply (does_write _ e m l 1 WIDTH_REG); [by repeat constructor|done|apply (set_float_through_int e m 0); [by repeat constructor|done]].
  - apply (does_write _ e m l 3 HEIGHT_REG); [by repeat constructor|done|apply (set_float_through_int e m 2); [by repeat constructor|done]].
Qed.
(** There are no boolean nodes: a boolean is an integer. *)
Lemma bool_kept id name w e m l : table !! id = Some (name, w) -> stands_for e (m, l) ->
  does (bool_value id) e (m, l) (m, l) ((fun v => negb (v =? 0)) <$> int_at name w (m, l)).
Proof.
  intros H Hs. destruct (int_kept id name w e m l H Hs) as (e' & E & Hs'). exists e'. split; [|done].
  assert (bool_value id (world e [] m mx) = (v ← int_value id; mret (negb (v =? 0))) (world e [] m mx)) as Hb by (row_cases id H; reflexivity).
  cbn [fst] in *. rewrite Hb. destruct (int_at name w (m, l)); [by rewrite (bind_ok _ _ _ _ _ E)|by rewrite (bind_err _ _ _ _ _ E)].
Qed.

Lemma set_bool_kept id name w v e m l : table !! id = Some (name, w) -> stands_for e (m, l) ->
  does (set_bool_value id v) e (m, l) (set_int_at mx name w (i64_from v) (m, l)).1 (set_int_at mx name w (i64_from v) (m, l)).2.
Proof.
  intros H Hs. destruct (set_int_kept id name w (i64_from v) e m l H Hs) as (e' & E & Hs'). exists e'. split; [|done]. rewrite <- E.
  clear E Hs'. row_cases id H; reflexivity.
Qed.

Lemma text_kept id name w e m l : table !! id = Some (name, w) -> stands_for e (m, l) ->
  does (string_value id) e (m, l) (m, l) (text_at name w (m, l)).
Proof.
  intros H Hs. pose proof Hs as (Hc & Hm & Hl). cbn [fst snd] in *.
  row_cases id H; cbn [text_at fst snd];
    lazymatch goal with |- does _ _ _ _ (wrong _) => apply does_still; [reflexivity|done] | |- _ => idtac end.
  - apply (does_read _ e m l 9 ACQ_MODE_REG); [by repeat constructor|done|].
    apply (enum_of "AcquisitionMode" 8 9 ACQ_MODE_REG mode_entries e m mx Hc Hm). by repeat constructor.
  - apply (does_read _ e m l 11 PIXEL_FORMAT_REG); [by repeat constructor|done|].
    apply (enum_of "PixelFormat" 10 11 PIXEL_FORMAT_REG format_entries e m mx Hc Hm). by repeat constructor.
Qed.

Lemma set_enum_kept id name w entry e m l : table !! id = Some (name, w) -> stands_for e (m, l) ->
  does (set_enum_entry id entry) e (m, l) (set_enum_at name w entry (m, l)).1 (set_enum_at name w entry (m, l)).2.
Proof.
  intros H Hs. pose proof Hs as (Hc & Hm & Hl). cbn [fst snd] in *.
  row_cases id H; cbn [set_enum_at fst snd];
    lazymatch goal with |- does _ _ _ _ (wrong _) => apply does_still; [reflexivity|done] | |- _ => idtac end.
  - pose proof (set_enum_of "AcquisitionMode" 8 9 ACQ_MODE_REG mode_entries e m mx entry Hm ltac:(by repeat constructor)) as E.
    destruct (entry_named _ _ _) as [v|err]; [|by apply does_still]. by apply (does_write _ e m l 9 ACQ_MODE_REG); [repeat constructor|..].
  - pose proof (set_enum_of "PixelFormat" 10 11 PIXEL_FORMAT_REG format_entries e m mx entry Hm ltac:(by repeat constructor)) as E.
    destruct (entry_named _ _ _) as [v|err]; [|by apply does_still]. by apply (does_write _ e m l 11 PIXEL_FORMAT_REG); [repeat constructor|..].
Qed.

Lemma set_text_kept id name w t e m l : table !! id = Some (name, w) -> stands_for e (m, l) ->
  does (set_string_value id t) e (m, l) (set_enum_at name w t (m, l)).1 (set_enum_at name w t (m, l)).2.
Proof.
  intros H Hs. destruct (set_enum_kept id name w t e m l H Hs) as (e' & E & Hs'). exists e'. split; [|done]. rewrite <- E.
  clear E Hs'. row_cases id H; reflexivity.
Qed.

Lemma execute_kept id name w e m l (x := match w with CommandOf k => ((store m ACQ_REG k, l), Ok tt) | _ => ((m, l), wrong name) end) :
  table !! id = Some (name, w) -> stands_for e (m, l) -> does (NodeGraph.execute id) e (m, l) x.1 x.2.
Proof.
  intros H Hs. pose proof Hs as (Hc & Hm & Hl). subst x. cbn [fst snd] in *.
  row_cases id H; cbn [fst snd];
    lazymatch goal with |- does _ _ _ _ (wrong _) => apply does_still; [reflexivity|done] | |- _ => idtac end.
  - apply (does_write _ e m l 7 ACQ_REG); [by repeat constructor|done|]. apply (command_of "AcquisitionStart" 5 1 e m mx Hm). by repeat constructor.
  - apply (does_write _ e m l 7 ACQ_REG); [by repeat constructor|done|]. apply (command_of "AcquisitionStop" 6 0 e m mx Hm). by repeat constructor.
Qed.

(** * Calls *)

Lemma on_camera {A} (f : M DevPort A) (g : A -> Answer) e m e' m' r :
  f (world e [] m mx) = Some (world e' [] m' mx, r) -> answer g (on_graph f) (camera e m) = Some (camera e' m', g <$> r).
Proof.
  intros E. assert (on_graph f (camera e m) = Some (camera e' m', r)) as E'.
  { unfold on_graph. change (genicam_parts (camera e m)) with
      (Ok (emu_graph e [], mkConnection (mkDevPort m mx) true false (Some (emu_graph e []))) :
       result GenicamError (Genicam * Connection DevPort)).
    cbn [cn_port cn_alive cn_control_lost]. change (mkWorld (emu_graph e []) (mkDevPort m mx)) with (world e [] m mx). by rewrite E. }
  unfold answer, mbind, Cam_bind. rewrite E'. by destruct r.
Qed.

(** A call of the camera keeps the account. *)
Definition keeps (c : FeatureCall) e s (x : Seen * result GenicamError Answer) : Prop :=
  exists e', call c (camera e s.1) = Some (camera e' x.1.1, x.2) /\ stands_for e' x.1.

Lemma named_keeps {A} c name id (f : nat -> M DevPort A) (g : A -> Answer) e s s' r :
  emu_names !! name = Some id -> call c = answer g (with_graph name f) -> does (f id) e s s' r -> keeps c e s (s', g <$> r).
Proof.
  intros Hn Hc (e' & E & Hs). exists e'. split; [|done]. rewrite Hc. apply on_camera.
  rewrite (bind_ok _ _ _ (world e [] s.1 mx) id); [done|]. unfold lookup_feature, lookup_name. cbn [w_graph world by_name emu_graph]. by rewrite Hn.
Qed.

Lemma unknown_keeps c name e s : named_call c = Some name -> emu_names !! name = None -> stands_for e s ->
  keeps c e s (s, Err (NotFound name)).
Proof.
  intros Hc Hn Hs. exists e. split; [|done]. cbn [fst snd].
  assert (forall A (f : nat -> M DevPort A) g, answer g (with_graph name f) (camera e s.1) = Some (camera e s.1, Err (NotFound name))) as H.
  { intros A f g. apply (on_camera _ g e s.1 e s.1 (Err (NotFound name))). apply bind_err.
    unfold lookup_feature, lookup_name. cbn [w_graph world by_name emu_graph]. by rewrite Hn. }
  destruct c; (discriminate Hc || injection Hc as ->); cbn [call]; apply H.
Qed.

(** The names of the graph are those of the table. *)
Lemma names_agree name :
  (feature_at name = None /\ emu_names !! name = None) \/
  exists id w, feature_at name = Some w /\ emu_names !! name = Some id /\ table !! id = Some (name, w).
Proof.
  assert (nd_name <$> emu_nodes Emu_new = table.*1) as E by (vm_compute; reflexivity).
  assert (NoDup table.*1) as Hn by (apply (bool_decide_eq_true_1 _); vm_compute; reflexivity).
  destruct (decide (name ∈ table.*1)) as [Hin|Hin].
  - right. apply list_elem_of_fmap in Hin as ([name' w] & -> & Hin). cbn [fst]. apply list_elem_of_lookup in Hin as [id Hid].
    exists id, w. split_and!; [apply elem_of_list_to_map; [done|by eapply list_elem_of_lookup_2]| |done].
    unfold emu_names. rewrite E. apply elem_of_list_to_map.
    + rewrite fst_zip; [done|]. by vm_compute.
    + apply list_elem_of_lookup. exists id. apply lookup_zip_with_Some. exists name', id. apply lookup_lt_Some in Hid as Hlt.
      split_and!; [done|by rewrite list_lookup_fmap, Hid|by apply lookup_seq].
  - left. split; apply not_elem_of_list_to_map_1; [done|]. rewrite E, fst_zip; [done|]. by vm_compute.
Qed.

Lemma call_kept c s e : stands_for e s -> keeps c e s (account mx c s).
Proof.
  intros Hs. destruct s as [m l]. unfold account. destruct (named_call c) as [name|] eqn:Hc.
  - destruct (names_agree name) as [[-> Hn]|(id & w & -> & Hn & Hrow)]; [by apply unknown_keeps|].
    destruct c; (discriminate Hc || injection Hc as ->); cbn [account_of];
      (eapply named_keeps; [exact Hn|reflexivity|]).
    3: by apply int_kept. 3: by apply set_int_kept. 5: by apply float_kept. 5: by apply set_float_kept.
    6: by apply bool_kept. 6: by apply set_bool_kept. 6: by apply text_kept. 6: by apply set_text_kept. 6: by apply set_enum_kept.
    7: by apply execute_kept.
    all: apply does_still; [|done]; row_cases id Hrow; reflexivity.
  - destruct c; try discriminate Hc.
    + exists e. split; [|done]. by apply (on_camera _ AnsTexts _ _ _ _ (Ok table.*1)).
    + exists (forgotten e). destruct Hs as (H1 & H2 & H3). split; [|split_and!; [by apply coherent_forgotten|done|done]].
      apply (on_camera _ (fun _ => AnsUnit) _ _ _ _ (Ok tt)), dropped.
Qed.
Lemma calls_kept cs : forall s e, stands_for e s ->
  exists e', run_calls cs (camera e s.1) = Some (camera e' (accounts mx cs s).1.1, (accounts mx cs s).2) /\ stands_for e' (accounts mx cs s).1.
Proof.
  induction cs as [|c cs IH]; intros s e Hs; [by exists e|]. cbn [accounts run_calls].
  destruct (call_kept c s e Hs) as (e1 & E1 & Hs1). destruct (account mx c s) as [s1 r]. cbn [fst snd] in *.
  destruct (IH s1 e1 Hs1) as (e2 & E2 & Hs2). destruct (accounts mx cs s1) as [s2 rs]. cbn [fst snd] in *.
  exists e2. split; [|done]. rewrite E1. cbn [mbind option_bind]. by rewrite E2.
Qed.
End kept.
