(* ===== verification/EmulatedSession.v ===== *)
(** A session with the emulated camera, from the device's construction to the
    answers of its features: [GigeDevice::new] and [seed] of
    [src/src/emulator/mod.rs] under the connection, the description and the
    feature calls of [src/src/gige/mod.rs] and [src/src/genicam/mod.rs]. *)

From stdpp Require Import gmap.
From S2P Require Import Prelude Gvcp Gvsp Channel Frame Float64 Text Bootstrap Zip Url Emulator DeviceControl.
From S2P Require Import Errors Control DeviceSpec ControlLink Register Evaluator Formula NodeGraph NodeTotal Camera NodeAccess.
From S2P Require Import XmlGraph Description ControlPort Session SessionSpec EmulatedXml EmulatedCamera EmulatedAccount.

(** * The device as it is made *)

(** The integers of the configuration fit their fields, its texts and its
    address the registers they are written to. *)
Record config_ok (cfg : DeviceConfig) : Prop := {
  cf_width : u32_ok (dc_width cfg); cf_height : u32_ok (dc_height cfg);
  cf_exposure : u32_ok (dc_exposure_bits cfg); cf_gain : u32_ok (dc_gain_bits cfg);
  cf_mac : bytes_ok (dc_mac cfg) /\ zlen (dc_mac cfg) = 6;
  cf_manufacturer : Forall scalar_ok (dc_manufacturer cfg) /\ zlen (as_bytes (dc_manufacturer cfg)) <= 32;
  cf_model : Forall scalar_ok (dc_model cfg) /\ zlen (as_bytes (dc_model cfg)) <= 32;
  cf_version : Forall scalar_ok (dc_device_version cfg) /\ zlen (as_bytes (dc_device_version cfg)) <= 32;
  cf_serial : Forall scalar_ok (dc_serial cfg) /\ zlen (as_bytes (dc_serial cfg)) <= 16 }.

Lemma wrote d a data : dev_ok d -> 0 <= a -> a + zlen data <= MEM_SIZE -> bytes_ok data ->
  exists d', mem_write d a data = Some d' /\ dev_ok d' /\ d_mem d' = splice (d_mem d) a data.
Proof. intros Hd Ha Hl Hb. rewrite <- (dv_len d Hd) in Hl. destruct (mem_write_ok d a data) as [E1 E2]; [done..|]. eauto. Qed.

(** The next write of a device under construction. *)
Ltac write_next :=
  match goal with
  | Hd : dev_ok ?d |- context [mem_write ?d ?a ?data ≫= _] =>
      let d' := fresh "d" in let E := fresh "E" in let Hd' := fresh "Hd" in let Hm := fresh "Hm" in
      destruct (wrote d a data Hd) as (d' & E & Hd' & Hm);
      [by vm_compute| | |rewrite E; cbn [mbind option_bind]; clear E]
  end.

Lemma description_bytes : as_bytes GENICAM_XML = GENICAM_XML /\ from_utf8_lossy GENICAM_XML = GENICAM_XML /\ bytes_ok GENICAM_XML.
Proof. split_and!; [vm_compute; reflexivity|vm_compute; reflexivity|by apply bytes_ok_dec_true; vm_compute]. Qed.

(** Room for the archive and its URL. *)
Lemma description_fits (zip := build_stored_zip GENICAM_XML) (url := as_bytes (local_url (str "theater.zip") XML_ADDRESS (zlen zip))) :
  bytes_ok zip /\ bytes_ok url /\ zlen url <= XML_URL_SIZE /\ XML_ADDRESS + next_multiple_of (zlen zip) 4 <= MEM_SIZE /\
  XML_ADDRESS + zlen zip <= MEM_SIZE.
Proof.
  assert (forallb byte_okb zip && forallb byte_okb url && (zlen url <=? XML_URL_SIZE) &&
          (XML_ADDRESS + next_multiple_of (zlen zip) 4 <=? MEM_SIZE) && (XML_ADDRESS + zlen zip <=? MEM_SIZE) = true) as H
    by (vm_compute; reflexivity).
  rewrite !andb_true_iff in H. destruct H as [[[[H1 H2] H3] H4] H5]. apply Z.leb_le in H3, H4, H5. apply bytes_ok_dec_true in H1, H2. by split_and!.
Qed.

Lemma installs d : dev_ok d ->
  exists d', install_genicam_xml d GENICAM_XML XML_ADDRESS = Some d' /\ dev_ok d' /\ holds_description (d_mem d') GENICAM_XML XML_ADDRESS.
Proof.
  intros Hd. destruct description_fits as (Z1 & U1 & U2 & _ & Z2).
  assert (exists d', install_genicam_xml d GENICAM_XML XML_ADDRESS = Some d' /\ dev_ok d') as (d' & E & Hd').
  { unfold install_genicam_xml. write_next; [by vm_compute|apply bytes_ok_dec_true; by vm_compute|].
    write_next; [etrans; [apply Z.add_le_mono_l, U2|by vm_compute]|done|].
    destruct (wrote d1 XML_ADDRESS (build_stored_zip GENICAM_XML) Hd1) as (d2 & E & Hd2 & _); [by vm_compute|done|done|]. eauto. }
  exists d'. split_and!; [done|done|]. by apply (installed_memory d); [|const_range|by vm_compute|].
Qed.

(** The feature registers as the device is made with them. *)
Definition primed (cfg : DeviceConfig) : list (Z * Z) :=
  [(WIDTH_REG, dc_width cfg); (HEIGHT_REG, dc_height cfg); (ACQ_MODE_REG, 1); (PIXEL_FORMAT_REG, MONO8);
   (EXPOSURE_REG, dc_exposure_bits cfg); (GAIN_REG, dc_gain_bits cfg)].

Definition stores (m : bytes) (l : list (Z * Z)) : bytes := foldl (fun m '(a, v) => store m a v) m l.

Lemma primed_plain cfg : config_ok cfg -> Forall (fun '(a, v) => plain_word a /\ u32_ok v) (primed cfg) /\ NoDup (primed cfg).*1.
Proof.
  intros H. split; [|by apply (bool_decide_eq_true_1 _); vm_compute].
  destruct H. unfold primed. repeat (apply Forall_cons; split; [split; [by vm_compute|first [done|const_range]]|]). constructor.
Qed.

Lemma stores_ok l : forall m, mem_ok m -> Forall (fun '(a, v) => plain_word a /\ u32_ok v) l -> mem_ok (stores m l).
Proof.
  induction l as [|[a v] l IH]; intros m Hm Hl; [done|]. apply Forall_cons in Hl as [[Ha _] Hl]. apply IH; [|done]. by apply store_ok.
Qed.

Lemma stores_other l b : forall m, mem_ok m -> Forall (fun '(a, v) => plain_word a /\ u32_ok v) l -> plain_word b -> b ∉ l.*1 ->
  word (stores m l) b = word m b.
Proof.
  induction l as [|[a v] l IH]; intros m Hm Hl Hb Hn; [done|]. apply Forall_cons in Hl as [[Ha _] Hl].
  cbn in Hn. apply not_elem_of_cons in Hn as [Hne Hn]. cbn. rewrite IH; [|by apply store_ok|done|done|done]. by apply word_store_other; [| | |congruence].
Qed.

Lemma stores_word l : forall m a v, mem_ok m -> Forall (fun '(a, v) => plain_word a /\ u32_ok v) l -> NoDup l.*1 -> (a, v) ∈ l ->
  word (stores m l) a = v.
Proof.
  induction l as [|[a v] l IH]; intros m b x Hm Hl Hn Hin; [by apply elem_of_nil in Hin|].
  apply Forall_cons in Hl as [[Ha Hv] Hl]. cbn in Hn. apply NoDup_cons in Hn as [Hn1 Hn2].
  apply elem_of_cons in Hin as [[= -> ->]|Hin]; [|by apply IH; [apply store_ok| | |]].
  cbn. rewrite stores_other; [by apply word_store|by apply store_ok|done|done|done].
Qed.

Lemma primed_apart cfg b n : b + n <= WIDTH_REG \/ GAIN_REG + 4 <= b -> Forall (fun '(a, _) => b + n <= a \/ a + 4 <= b) (primed cfg).
Proof.
  intros H. unfold primed, HEIGHT_REG, ACQ_MODE_REG, PIXEL_FORMAT_REG, EXPOSURE_REG, GAIN_REG, WIDTH_REG in *.
  repeat (apply Forall_cons; split; [lia|]). constructor.
Qed.

Lemma primed_above cfg a v : (a, v) ∈ primed cfg -> CONTROL_CHANNEL_PRIVILEGE + 4 <= a.
Proof. intros H. unfold primed in H. rows H; by vm_compute. Qed.

(** What the words leave alone. *)
Lemma stores_block l b n : forall m, mem_ok m -> Forall (fun '(a, v) => plain_word a /\ u32_ok v) l -> 0 <= n ->
  Forall (fun '(a, _) => b + n <= a \/ a + 4 <= b) l -> block (stores m l) b n = block m b n.
Proof.
  induction l as [|[a v] l IH]; intros m Hm Hl Hn Hd; [done|]. apply Forall_cons in Hl as [[Ha _] Hl]. apply Forall_cons in Hd as [Hd Hd'].
  cbn. rewrite IH; [|by apply store_ok|done|done|done]. destruct Ha as (A1 & A2 & _). destruct Hm as [_ Hm].
  unfold store, block. rewrite get_range_splice_other; rewrite ?zlen_be_encode; [done|lia|lia|lia].
Qed.

Lemma holds_same m m' xml address : holds_description m xml address -> zlen m' = MEM_SIZE ->
  block m' XML_URL_0 XML_URL_SIZE = block m XML_URL_0 XML_URL_SIZE ->
  block m' address (zlen (build_stored_zip xml)) = block m address (zlen (build_stored_zip xml)) -> holds_description m' xml address.
Proof. intros (H1 & H2 & H3 & H4) Hl Hu Hz. unfold holds_description. cbv zeta. by rewrite Hu, Hz. Qed.

(** The registers written before the description. *)
Lemma seeded_identity ip cfg d (k : GigeDevice -> option GigeDevice) : config_ok cfg -> dev_ok d ->
  exists d', dev_ok d' /\
    (d ← write_reg d VERSION 0x00020000;
     d ← write_reg d GVCP_CAPABILITY (Z.lor (Z.lor CAP_WRITE_MEMORY CAP_CONCATENATION) CAP_HEARTBEAT_DISABLE);
     d ← write_reg d HEARTBEAT_TIMEOUT 3000;
     d ← write_reg d N_STREAM_CHANNELS 1;
     d ← write_reg d TIMESTAMP_TICK_FREQUENCY_LOW 1000000000;
     d ← write_reg d CURRENT_IP_ADDRESS ip;
     d ← write_reg d CURRENT_SUBNET_MASK 0xff000000;
     d ← mem_write d 0x0a (dc_mac cfg);
     d ← write_string d MANUFACTURER_NAME (dc_manufacturer cfg);
     d ← write_string d MODEL_NAME (dc_model cfg);
     d ← write_string d DEVICE_VERSION (dc_device_version cfg);
     d ← write_string d SERIAL_NUMBER (dc_serial cfg);
     k d) = k d'.
Proof.
  intros [_ _ _ _ [M1 M2] [F1 F2] [G1 G2] [V1 V2] [S1 S2]] Hd. unfold write_reg, write_string.
  do 7 (write_next; [rewrite zlen_be_encode; by vm_compute|apply be_encode_ok|]).
  write_next; [rewrite M2; by vm_compute|done|].
  do 4 (write_next; [etrans; [apply Z.add_le_mono_l; eassumption|by vm_compute]|by apply as_bytes_ok|]). eauto.
Qed.

Lemma primed_writes cfg d : config_ok cfg -> dev_ok d ->
  exists d', (d ← write_reg d WIDTH_REG (dc_width cfg);
              d ← write_reg d HEIGHT_REG (dc_height cfg);
              d ← write_reg d ACQ_MODE_REG 1;
              d ← write_reg d PIXEL_FORMAT_REG MONO8;
              d ← write_reg d EXPOSURE_REG (dc_exposure_bits cfg);
              write_reg d GAIN_REG (dc_gain_bits cfg)) = Some d' /\ dev_ok d' /\ d_mem d' = stores (d_mem d) (primed cfg).
Proof.
  intros Hc Hd. unfold write_reg. do 5 (write_next; [rewrite zlen_be_encode; by vm_compute|apply be_encode_ok|]).
  destruct (wrote d4 GAIN_REG (be_encode 4 (dc_gain_bits cfg))) as (d5 & E & Hd5 & Hm5);
    [done|by vm_compute|rewrite zlen_be_encode; by vm_compute|apply be_encode_ok|].
  exists d5. split_and!; [done|done|]. rewrite Hm5, Hm3, Hm2, Hm1, Hm0, Hm. unfold stores, primed. cbn [foldl]. unfold store. reflexivity.
Qed.

Lemma dev_mem_ok d : dev_ok d -> mem_ok (d_mem d).
Proof. by intros [H1 H2 _]. Qed.

(** The new device: its description where the URL says, its features as
    configured. *)
Lemma seeded ip cfg : config_ok cfg ->
  exists d, GigeDevice_new (as_bytes GENICAM_XML) ip cfg = Some d /\ dev_ok d /\ holds_description (d_mem d) GENICAM_XML XML_ADDRESS /\
    forall a v, (a, v) ∈ primed cfg -> word (d_mem d) a = v.
Proof.
  intros Hc. destruct description_bytes as (-> & _ & _). unfold GigeDevice_new, seed.
  destruct (seeded_identity ip cfg blank_device (fun d => d ← install_genicam_xml d GENICAM_XML XML_ADDRESS;
     d ← write_reg d WIDTH_REG (dc_width cfg); d ← write_reg d HEIGHT_REG (dc_height cfg); d ← write_reg d ACQ_MODE_REG 1;
     d ← write_reg d PIXEL_FORMAT_REG MONO8; d ← write_reg d EXPOSURE_REG (dc_exposure_bits cfg);
     write_reg d GAIN_REG (dc_gain_bits cfg)) Hc blank_device_ok) as (d1 & Hd1 & E1).
  destruct (installs d1 Hd1) as (d2 & E2 & Hd2 & Hc2). destruct (primed_writes cfg d2 Hc Hd2) as (d3 & E3 & Hd3 & Hm).
  destruct (primed_plain cfg Hc) as [Hp Hn]. pose proof (dev_mem_ok d2 Hd2) as Hm2.
  exists d3. unfold blank_device in E1. rewrite E1, E2. cbn [mbind option_bind]. split_and!; [exact E3|done| |].
  - apply (holds_same (d_mem d2)); [exact Hc2|apply Hd3| |]; rewrite Hm;
      (apply stores_block; [exact Hm2|exact Hp|apply Z.leb_le; by vm_compute|apply primed_apart]); [left|right]; by vm_compute.
  - intros a v Hin. rewrite Hm. by apply stores_word.
Qed.

(** * The session *)

Section session.
Context {FL : FloatLib} {XL : XmlLib} {IN : Inflate} (fs_read : text -> result CameraError bytes).

(** Connected and with its description loaded. *)
Lemma emulated_loads m mx s :
  reads_description -> holds_description m GENICAM_XML XML_ADDRESS -> ss_conn s = mkConnection (mkDevPort m mx) true false None -> ss_xml s = None ->
  exists s', ensure_genicam fs_read (Some s) = (Some s', Ok tt) /\ Some (ss_conn s') = camera mx Emu_new m.
Proof.
  intros Hr Hc Hs Hx. destruct description_bytes as (_ & U & B). destruct description_fits as (_ & _ & _ & F & _).
  exists (with_genicam (with_xml s GENICAM_XML) (emu_graph Emu_new [])). split; [|unfold with_genicam, with_xml; cbn; by rewrite Hs].
  apply (description_loads IN XL); [rewrite Hs; cbn [cn_port]|by rewrite Hs|exact Hx|by rewrite Hs|rewrite U; by apply emulated_parses].
  apply (fetch_held IN fs_read m GENICAM_XML XML_ADDRESS mx Hc B); [const_range|by vm_compute|exact F].
Qed.

(** C5: the emulated camera is the registers its description says.  A device is
    made with any configuration, a session connects to it, fetches the
    description the device carries and parses it.  From then on, whatever calls
    of the feature interface follow one another, on any of the twenty names of
    the description or any other name, of the right kind or not, what they
    answer and what they leave in the device's memory is what an account of the
    registers alone says, with no graph, no cache and no formula: integer
    features are 32-bit words that keep the low bits of what is written, the
    payload size is the product of width and height, the two floats are
    single-precision words, enumerations map their entries both ways and refuse
    an entry they do not have, the commands write one and zero to the
    acquisition register, the packet size is the low half of its word as the
    device clamps it, the tick frequency is eight bytes that can not be written,
    the lock is a value of the session; kinds, bounds, increments, entries,
    access modes and names are those of the description, a call that does not
    fit the node is a type error that changes nothing, dropping the caches
    changes nothing, and a name the description does not have is not found.  At
    first the registers hold the configuration. *)
Theorem emulated_features_are_registers (ip : Z) (cfg : DeviceConfig) (scfg : SessionConfig) (device_ip : IpAddr)
    (local : IpAddr * Z) (mx : option Z) :
  reads_description -> config_ok cfg -> u32_ok (sc_heartbeat_timeout_ms scfg) ->
  exists d m s s', GigeDevice_new (as_bytes GENICAM_XML) ip cfg = Some d /\
    ses_connect scfg device_ip (Ok (mkDevPort (d_mem d) mx, local)) None = (Some s, Ok tt) /\
    ensure_genicam fs_read (Some s) = (Some s', Ok tt) /\ cn_port (ss_conn s') = mkDevPort m mx /\ mem_ok m /\
    (forall a v, (a, v) ∈ primed cfg -> word m a = v) /\
    forall cs m' l' rs, accounts mx cs (m, 0) = ((m', l'), rs) ->
      exists g', run_calls cs (Some (ss_conn s')) = Some (Some (mkConnection (mkDevPort m' mx) true false (Some g')), rs).
Proof.
  intros Hr Hc Hh. destruct (seeded ip cfg Hc) as (d & E & Hd & Hcar & Hv). pose proof (dev_mem_ok d Hd) as Hm.
  destruct (established scfg device_ip local (mkDevPort (d_mem d) mx) Hm Hh) as
    ([m mx'] & s & E1 & [Hm1 Hm2] & E2 & _ & _ & _ & _ & _ & _ & Hx & E3 & Hsame). cbn in E3, Hm1, Hm2, Hsame. subst mx'.
  assert (holds_description m GENICAM_XML XML_ADDRESS) as Hcar'.
  { apply (holds_same (d_mem d)); [exact Hcar|exact Hm2| |]; (apply Hsame; [apply Z.leb_le; by vm_compute|]); [left|right]; by vm_compute. }
  destruct (emulated_loads m mx s Hr Hcar' E2 Hx) as (s' & E4 & E5).
  exists d, m, s, s'. split; [done|]. split; [unfold ses_connect; by rewrite E1|]. split; [done|]. split; [by injection E5 as ->|]. split; [by split|]. split.
  - intros a v Hin. rewrite <- (Hv a v Hin). unfold word. f_equal. apply Hsame; [lia|]. right. exact (primed_above cfg a v Hin).
  - intros cs m' l' rs H. assert (stands_for Emu_new (m, 0)) as Hs by exact (conj (coherent_new m) (conj (conj Hm1 Hm2) eq_refl)).
    destruct (calls_kept mx cs _ _ Hs) as (e' & E6 & _). rewrite H in E6. cbn [fst snd] in E6. rewrite E5. exists (emu_graph e' []). exact E6.
Qed.
End session.

(** [DeviceConfig::default]; 5000.0 and 1.0 as single-precision words. *)
Definition default_config : DeviceConfig := {|
  dc_width := 1280; dc_height := 1024; dc_exposure_bits := 0x459c4000; dc_gain_bits := 0x3f800000;
  dc_manufacturer := str "Valstad"; dc_model := str "TheaterCam"; dc_device_version := str "1.0.0";
  dc_serial := str "THEATER-CAM-0001"; dc_mac := [2; 0; 0; 0; 0; 1] |}.

Lemma default_config_ok : config_ok default_config.
Proof.
  assert (forall s, forallb (fun c => (0 <=? c) && (c <? 128)) s = true -> Forall scalar_ok s) as Ha.
  { intros s H. apply Forall_forall. intros c Hc. rewrite forallb_forall in H. specialize (H c). rewrite <- list_elem_of_In in H.
    specialize (H Hc). left. lia. }
  constructor; [const_range|const_range|const_range|const_range| | | | |]; (split; [|by vm_compute]); [by apply bytes_ok_dec_true|..];
    apply Ha; reflexivity.
Qed.

Definition ex_emulated_calls : list FeatureCall :=
  [CallGetInteger (str "PayloadSize"); CallGetString (str "AcquisitionMode"); CallSetEnum (str "PixelFormat") (str "Mono12");
   CallDropCaches; CallExecute (str "Shutter"); CallSetInteger (str "Width") (2 ^ 32 + 8); CallExecute (str "AcquisitionStart");
   CallKind (str "Gain"); CallGetBoolean (str "AcqReg"); CallSetFloat (str "PixelFormat") f64_zero; CallSetInteger (str "GevTimestampTickFrequency") 1;
   CallIntegerIncrement (str "Height"); CallAccessMode (str "AcquisitionStop")].

Definition ex_emulated_answers : list (result GenicamError Answer) :=
  [Ok (AnsInt 1310720); Ok (AnsText (str "SingleFrame")); Err (NoSuchEntry (str "PixelFormat") (ByName (str "Mono12")));
   Ok AnsUnit; Err (NotFound (str "Shutter")); Ok AnsUnit; Ok AnsUnit;
   Ok (AnsKind KFloat); Ok (AnsBool true); Err (WrongType (str "PixelFormat")); Err (NodeGraph.Access (str "GevTimestampTickFrequency"));
   Ok (AnsInt 1); Ok (AnsMode WO)].

Lemma ex_emulated_account m : mem_ok m -> word m WIDTH_REG = 1280 -> word m HEIGHT_REG = 1024 -> word m ACQ_MODE_REG = 1 ->
  accounts None ex_emulated_calls (m, 0) = ((store (store m WIDTH_REG 8) ACQ_REG 1, 0), ex_emulated_answers).
Proof.
  intros Hm W H A. unfold ex_emulated_calls. cbn [accounts]. unfold account. cbn [named_call].
  repeat match goal with |- context [feature_at ?name] =>
    let w := eval vm_compute in (feature_at name) in replace (feature_at name) with w by (vm_compute; reflexivity) end.
  cbn [account_of]. cbn [int_at set_int_at set_float_at set_enum_at text_at kind_at access_at reads writes fst snd].
  change (word m 8204) with (word m ACQ_MODE_REG). rewrite W, H, A.
  repeat match goal with |- context [entry_named ?a ?b ?c] =>
    let r := eval vm_compute in (entry_named a b c) in change (entry_named a b c) with r end.
  cbn [fst snd]. change (wrap 32 (2 ^ 32 + 8)) with 8. change 8192 with WIDTH_REG. change 8200 with ACQ_REG.
  rewrite (word_store (store m WIDTH_REG 8) ACQ_REG 1); [reflexivity|by apply store_ok; [|by vm_compute]|by vm_compute|const_range].
Qed.

Lemma emulated_features_are_registers_witness :
  exists m m' s' g', run_calls (FL := plain_float_lib) ex_emulated_calls (Some (ss_conn s')) =
    Some (Some (mkConnection (mkDevPort m' None) true false (Some g')), ex_emulated_answers) /\
    m' = store (store m WIDTH_REG 8) ACQ_REG 1.
Proof.
  destruct (emulated_features_are_registers (FL := plain_float_lib) (XL := tiny_xml) (IN := fun _ _ => None) (fun _ => Err Io)
    0x0a000001 default_config {| sc_exclusive := true; sc_heartbeat_timeout_ms := 3000 |} (V4 10) (V4 5, 50000) None
    tiny_reads default_config_ok ltac:(const_range)) as (d & m & s & s' & _ & _ & _ & _ & Hm & Hv & Hc).
  exists m, (store (store m WIDTH_REG 8) ACQ_REG 1), s'.
  edestruct (Hc ex_emulated_calls) as [g' E]; [|exists g'; split; [exact E|reflexivity]]. clear Hc.
  apply ex_emulated_account; [exact Hm|apply Hv; by repeat constructor..].
Defined.
