(* ===== verification/Views.v ===== *)
(** What is shown of statuses, pixel formats, hardware addresses and frames:
    [Display] of [GvcpStatus] ([src/src/gige/proto/gvcp.rs]) and [PixelFormat]
    ([src/src/gige/proto/gvsp.rs]), the [mac] getter of [src/src/py.rs] and
    [Serialize] of [Frame] ([src/src/gige/stream/frame.rs]).

    The hexadecimal formats have as many digits as their integers have, so the
    padding is the fixed width. *)

From stdpp Require Import gmap.
From S2P Require Import Prelude Gvcp Gvsp Channel Frame Text.

(** * Hexadecimal at a fixed width *)

Definition low_digit (d : Z) : Z := if d <? 10 then d + 48 else d + 87.

Fixpoint low_hex (n : nat) (v : Z) : text :=
  match n with O => [] | S n => low_hex n (v / 16) ++ [low_digit (v mod 16)] end.

Lemma length_low_hex n : forall v, length (low_hex n v) = n.
Proof. induction n as [|n IH]; intros v; [done|]. cbn. rewrite length_app, IH. cbn. lia. Qed.

Lemma low_hex_inj n : forall a b, 0 <= a < 16 ^ Z.of_nat n -> 0 <= b < 16 ^ Z.of_nat n -> low_hex n a = low_hex n b -> a = b.
Proof.
  induction n as [|n IH]; intros a b Ha Hb H; [cbn in *; lia|]. cbn in H. apply app_inj_tail in H as [H Hd].
  rewrite Nat2Z.inj_succ, Z.pow_succ_r in * by lia.
  assert (a / 16 = b / 16) by (apply IH; [split; [apply Z.div_pos|apply Z.div_lt_upper_bound]; lia..|done]).
  assert (a mod 16 = b mod 16).
  { unfold low_digit in Hd. pose proof (Z.mod_pos_bound a 16). pose proof (Z.mod_pos_bound b 16).
    destruct (a mod 16 <? 10) eqn:E1, (b mod 16 <? 10) eqn:E2; lia. }
  rewrite (Z.div_mod a 16), (Z.div_mod b 16) by lia. congruence.
Qed.

Lemma low_hex_digits n v : Forall (fun c => c <> 41) (low_hex n v).
Proof.
  revert v. induction n as [|n IH]; intros v; [constructor|]. cbn. apply Forall_app_2; [apply IH|]. constructor; [|constructor].
  unfold low_digit. pose proof (Z.mod_pos_bound v 16). destruct (_ <? _); lia.
Qed.

(** * Statuses *)

Definition status_names : list (GvcpStatus * string) :=
  [(STATUS_SUCCESS, "success"); (STATUS_PACKET_RESEND, "packet resend"); (STATUS_NOT_IMPLEMENTED, "not implemented");
   (STATUS_INVALID_PARAMETER, "invalid parameter"); (STATUS_INVALID_ADDRESS, "invalid address");
   (STATUS_WRITE_PROTECT, "write protect"); (STATUS_BAD_ALIGNMENT, "bad alignment"); (STATUS_ACCESS_DENIED, "access denied");
   (STATUS_BUSY, "busy"); (STATUS_PACKET_UNAVAILABLE, "packet unavailable"); (STATUS_DATA_OVERRUN, "data overrun");
   (STATUS_INVALID_HEADER, "invalid header"); (STATUS_PACKET_NOT_YET_AVAILABLE, "packet not yet available");
   (STATUS_PACKET_AND_PREV_REMOVED_FROM_MEMORY, "packet and previous removed from memory");
   (STATUS_PACKET_REMOVED_FROM_MEMORY, "packet removed from memory"); (STATUS_NO_REF_TIME, "no reference time");
   (STATUS_PACKET_TEMPORARILY_UNAVAILABLE, "packet temporarily unavailable"); (STATUS_OVERFLOW, "overflow");
   (STATUS_ACTION_LATE, "action late"); (STATUS_LEADER_TRAILER_OVERFLOW, "leader/trailer overflow");
   (STATUS_GENERIC_ERROR, "generic error")]%string.

Definition named_code (names : list (Z * string)) (v : Z) : option text :=
  str ∘ snd <$> List.find (fun '(k, _) => k =? v) names.

Definition GvcpStatus_fmt (s : GvcpStatus) : text :=
  match named_code status_names s with
  | Some name => name ++ str " (0x" ++ low_hex 4 s ++ str ")"
  | None => str "status 0x" ++ low_hex 4 s
  end.

(** * Pixel formats *)

Definition format_names : list (PixelFormat * string) :=
  [(MONO8, "Mono8"); (MONO10, "Mono10"); (MONO12, "Mono12"); (MONO16, "Mono16"); (BAYER_RG8, "BayerRG8");
   (BAYER_GB8, "BayerGB8"); (RGB8, "RGB8"); (BGR8, "BGR8"); (YUV422_8, "YUV422_8")]%string.

Definition PixelFormat_fmt (p : PixelFormat) : text :=
  match named_code format_names p with Some name => name | None => str "0x" ++ low_hex 8 p end.

(** * Hardware addresses *)

Fixpoint mac_text (m : bytes) : text :=
  match m with
  | [] => []
  | [b] => low_hex 2 b
  | b :: m => low_hex 2 b ++ str ":" ++ mac_text m
  end.

(** * Frames *)

Inductive SerValue :=
| SvStatus (s : FrameStatus) | SvPayload (p : PayloadKind) | SvFormat (p : PixelFormat) | SvInt (v : Z) | SvBytes (b : bytes).

Definition Frame_serialize (f : Frame) : list (string * SerValue) :=
  [("status", SvStatus (fr_status f)); ("frame_id", SvInt (fr_frame_id f)); ("payload", SvPayload (fr_payload f));
   ("pixel_format", SvFormat (fr_pixel_format f)); ("width", SvInt (fr_width f)); ("height", SvInt (fr_height f));
   ("x_offset", SvInt (fr_x_offset f)); ("y_offset", SvInt (fr_y_offset f)); ("x_padding", SvInt (fr_x_padding f));
   ("y_padding", SvInt (fr_y_padding f)); ("timestamp_ticks", SvInt (fr_timestamp_ticks f));
   ("timestamp_ns", SvInt (fr_timestamp_ns f)); ("system_timestamp_ns", SvInt (fr_system_timestamp_ns f));
   ("received_size", SvInt (fr_received_size f));
   ("data", SvBytes (if bool_decide (fr_status f = Complete) then Frame_data f else []))]%string.

(** * What the texts tell apart *)

Lemma named_code_find names v t : named_code names v = Some t -> exists name, (v, name) ∈ names /\ t = str name.
Proof.
  unfold named_code. destruct (List.find _ names) as [[k name]|] eqn:E; [|done]. intros [= <-].
  apply find_some in E as [Hin Hk]. apply Z.eqb_eq in Hk as ->. exists name. split; [by apply list_elem_of_In|done].
Qed.

Lemma last_digit s n v : last (s ++ low_hex (S n) v) <> Some 41.
Proof.
  cbn [low_hex]. rewrite app_assoc, last_snoc.
  intros [= H]. pose proof (low_hex_digits 1 v) as Hd. cbn in Hd. by apply Forall_inv in Hd.
Qed.

(** A status is known by its text. *)
Lemma status_text_identifies a b : u16_ok a -> u16_ok b -> GvcpStatus_fmt a = GvcpStatus_fmt b -> a = b.
Proof.
  intros Ha Hb. assert (0 <= a < 16 ^ Z.of_nat 4 /\ 0 <= b < 16 ^ Z.of_nat 4) as [Ha' Hb'] by (cbn; width_lia).
  assert (forall s v, last (s ++ str " (0x" ++ low_hex 4 v ++ str ")") = Some 41) as Hl.
  { intros s v. rewrite !app_assoc. by apply last_snoc. }
  unfold GvcpStatus_fmt. destruct (named_code status_names a) as [s|], (named_code status_names b) as [t|]; intros H.
  - rewrite !app_assoc in H. apply app_inj_tail in H as [H _]. apply app_inj_2 in H as [_ H]; [|by rewrite !length_low_hex].
    by apply low_hex_inj in H.
  - exfalso. apply (last_digit (str "status 0x") 3 b). by rewrite <- H, Hl.
  - exfalso. apply (last_digit (str "status 0x") 3 a). by rewrite H, Hl.
  - apply app_inv_head in H. by apply low_hex_inj in H.
Qed.

(** A pixel format is known by its text. *)
Lemma format_text_identifies a b : u32_ok a -> u32_ok b -> PixelFormat_fmt a = PixelFormat_fmt b -> a = b.
Proof.
  intros Ha Hb. assert (0 <= a < 16 ^ Z.of_nat 8 /\ 0 <= b < 16 ^ Z.of_nat 8) as [Ha' Hb'] by (cbn; width_lia).
  assert (forall v name, (v, name) ∈ format_names -> head (str name) <> Some 48) as Hh.
  { intros v name Hin. unfold format_names in Hin. rows Hin; done. }
  unfold PixelFormat_fmt. destruct (named_code format_names a) as [s|] eqn:Ea, (named_code format_names b) as [t|] eqn:Eb; intros H.
  - apply named_code_find in Ea as (na & Ia & ->), Eb as (nb & Ib & ->).
    unfold format_names in Ia, Ib. rows Ia; rows Ib; try done; by vm_compute in H.
  - apply named_code_find in Ea as (na & Ia & ->). exfalso. apply (Hh _ _ Ia). by rewrite H.
  - apply named_code_find in Eb as (nb & Ib & ->). exfalso. apply (Hh _ _ Ib). by rewrite <- H.
  - apply app_inv_head in H. by apply low_hex_inj in H.
Qed.

(** A hardware address is known by its text. *)
Lemma mac_text_identifies a : forall b, length a = length b -> bytes_ok a -> bytes_ok b -> mac_text a = mac_text b -> a = b.
Proof.
  induction a as [|x a IH]; intros [|y b] Hl Ha Hb H; try done. apply Forall_cons in Ha as [Hx Ha], Hb as [Hy Hb].
  assert (low_hex 2 x = low_hex 2 y /\ (a = [] -> b = [] ) /\ mac_text a = mac_text b) as (Hd & _ & Ht).
  { destruct a as [|x' a], b as [|y' b]; try done. cbn [mac_text] in H.
    apply app_inj_1 in H as [H1 H2]; [|by rewrite !length_low_hex]. by injection H2. }
  f_equal; [|by apply IH; [injection Hl|..]]. apply low_hex_inj in Hd; [done|cbn; unfold u8_ok in *; lia..].
Qed.

(** A serialized frame has every field, the image of a complete frame, and of
    an incomplete one no byte of the buffer. *)
Lemma serialized_frame_faithful f g : Frame_serialize f = Frame_serialize g ->
  fr_status f = fr_status g /\ fr_frame_id f = fr_frame_id g /\ fr_width f = fr_width g /\ fr_height f = fr_height g /\
  fr_timestamp_ns f = fr_timestamp_ns g /\ (fr_status f = Complete -> Frame_data f = Frame_data g).
Proof.
  unfold Frame_serialize. intros H. simplify_eq. split_and!; try done. intros Hc.
  rewrite !bool_decide_true in * by congruence. done.
Qed.

Lemma incomplete_frame_hides_data f b : fr_status f <> Complete -> ("data"%string, SvBytes b) ∈ Frame_serialize f -> b = [].
Proof.
  intros Hc Hin. unfold Frame_serialize in Hin. rewrite bool_decide_false in Hin by done. by rows Hin.
Qed.
